(* ===== verification/_CoqProject ===== *)
-Q . S2P
Prelude.v
CString.v
Ring.v
Grep.v
Umalloc.v
Riscv.v
Sched.v
Spinlock.v
Kalloc.v
Vm.v
VmInv.v
Uvm.v
Kvm.v
VmCopy.v
VmFork.v
UserByte.v
Sleeplock.v
Console.v
Printf.v
Pipe.v
PipeSpec.v
ConsoleSpec.v
Proc.v
ProcSpec.v
Args.v
Bio.v
Virtio.v
Log.v
LogOps.v
LogCrash.v
Fs.v
Transfer.v
Txn.v
FsBlocks.v
FsFile.v
FsInode.v
FsData.v
FsWrite.v
FsDisk.v
FsOp.v
ITable.v
FsDir.v
FsPath.v
FsTrunc.v
FsRemove.v
Mkfs.v
MkfsSpec.v
FsMount.v
FsBoot.v
File.v
FileSpec.v
FileClose.v
Fork.v
Exec.v
Sysfile.v
Syscall.v
Trap.v
Boot.v
BootSpec.v
Sh.v
ShSpec.v
