(* ===== verification/Prelude.v ===== *)
(** * A verification library for the xv6 teaching kernel

    The program is the xv6 kernel for RISC-V ([kernel/]), the program that
    builds its disk image ([mkfs/]) and its shell and utilities ([user/]); this repository adds symbolic links, [O_APPEND],
    [O_NOFOLLOW], [grep -i], [find] and [>>] in the shell.

    ** How the code is modelled

    C integers are [Z] with the wrap-around of their width written out
    ([u32], [s32], ...).  A kernel routine is a function of the monad [M S A]
    below: it takes the state of its component and returns, panics, leaves
    the defined behaviour of C, or gives up the processor in [swtch] with
    the rest of its work as a resumption.  The states are records that
    contain each other, and [lift] runs a routine of a component inside a
    larger state:
    - [mach] (Sched.v): process table, spin locks held, console messages;
    - [mm] (Kalloc.v): [mach] with physical memory and the free list;
    - [blk] (Bio.v): [mach] with the buffer cache, the disk and the trace of
      writes to it;
    - [lstate] (Log.v): [blk] with the log;
    - [fs] (Fs.v): [lstate] with memory and the inode table;
    - [kern] (File.v): [fs] with open files, pipes, console and devices;
    - [hart] (Trap.v): [kern] with the registers traps depend on;
    - [boot] (Boot.v): [hart] with the writes to device registers.
    A critical section under a spin lock is one step of the thread; other
    threads act between a [Swtch] and its resumption, and theorems about
    blocking routines quantify over the states they may leave.

    ** Files

    - Prelude: integers, the monad, sub-states, lists and byte fields.
    - CString: [kernel/string.c] and the string routines of [user/ulib.c].
    - Ring: queues in ring buffers with wrapping counters.
    - Grep: [user/grep.c], [user/wc.c], [gets].  Umalloc: [user/umalloc.c].
    - Riscv: [kernel/riscv.h], [kernel/memlayout.h].
    - Sched: the process table, [sleep], [wakeup], [kkill] of
      [kernel/proc.c], and locks as their clients see them.
    - Spinlock: [kernel/spinlock.c] for many processors.
    - Kalloc: [kernel/kalloc.c].
    - Vm: [kernel/vm.c].  VmInv, Uvm, Kvm, VmCopy, VmFork: its invariant and
      the theorems on mapping, growing, the kernel's own map, copying and
      duplicating memory.  UserByte: that memory byte by byte, for drivers
      and pipes.
    - Sleeplock: [kernel/sleeplock.c].
    - Console, ConsoleSpec: [kernel/console.c], [kernel/uart.c].
    - Printf: [kernel/printf.c], [user/printf.c].
    - Pipe, PipeSpec: [kernel/pipe.c].
    - Proc, Fork: the rest of [kernel/proc.c].  ProcSpec: creating and
      destroying processes.
    - Args, Syscall: [kernel/syscall.c], [kernel/sysproc.c].
    - Bio: [kernel/bio.c].  Virtio: [kernel/virtio_disk.c].
    - Log, LogOps, LogCrash: [kernel/log.c].
    - Fs: [kernel/fs.c].  Its theorems, from the bottom: Transfer (what
      [readi] and [writei] need of the memory they copy from and to), Txn (a
      transaction as a view of the blocks), FsBlocks (the free map), FsFile
      and FsInode (the blocks and the inode of a file), FsData and FsWrite
      ([readi], [writei]), FsDisk (the files a disk describes), FsOp
      ([begin_op] to [end_op]), ITable (the inode table as a multiset of
      references), FsDir (directories as finite maps), FsPath ([namex]),
      FsTrunc and FsRemove ([itrunc], [iput], removal), FsMount ([fsinit]).
    - Mkfs, MkfsSpec: [mkfs/mkfs.c].  FsBoot: from the image to a file by its
      name.
    - File: [kernel/file.c].  FileSpec, FileClose: writing, reading and
      closing through a descriptor.
    - Exec: [kernel/exec.c].  Sysfile: [kernel/sysfile.c].
    - Trap: [kernel/trap.c], [kernel/plic.c].
    - Boot, BootSpec: [kernel/start.c], [kernel/main.c] and the
      initialisation of the devices.
    - Sh, ShSpec: [user/sh.c].

    ** What the theorems show

    - Files: a write through a descriptor puts the bytes into the file, a
      read gives them back, and closing the last descriptor of a file
      without links removes it; a crash at any of the disk writes, with any
      number of interrupted recoveries, leaves a prefix of the write, or the
      whole file or none of it, and every other file as it was.
    - Directories and paths: a directory is a finite map, [dirlink] adds to
      it and [namex] follows such maps, leaving no reference behind.
    - The image: [mkfs] builds a sound file system; the kernel mounts it, and
      whatever a crash left, without its orphans, and finds every file under
      its name.  With 62 files the root directory has a hole.
    - Start-up: [main] comes to the scheduler, with the kernel's map exactly
      as it should be and the first process ready to run.
    - Processes: [allocproc] gives a free entry an address space of its own
      or takes nothing, [freeproc] gives every page back.
    - Log: a crash at any point of a commit, with any number of crashes
      during recovery, leaves all of a transaction or none of it; the log
      never overflows; a transaction that fills it makes [commit] panic
      because there are only as many buffers as log blocks.
    - Locks: mutual exclusion for any number of processors; the detailed
      locks implement the abstract ones; no wakeup is lost.
    - Buffer cache: [bread] returns the current contents, buffers are
      recycled least recently used first, the invariant is kept.
    - Memory: mapping, growing, copying in and out, duplicating and freeing
      an address space change exactly what they should and keep the
      page-table invariant; the size of a process grown lazily beyond
      [MAXVA] makes a later [copyin] panic.
    - Pipes and console: both are queues; writers and interrupts wake the
      readers; the interrupt handler is a line editor, and a line typed is
      the line read.
    - Shell: the parser terminates on every line, builds well-formed commands
      and inverts printing; running a command starts its programs with the
      descriptors its pipes and redirections mean.
    - Strings, printing, [grep] and [wc]: the routines compute their
      specifications; a [.*] in [grep] can loop for ever, and the user
      [printf] keeps 32 bits of a [long].

    ** Bounds and fuel

    Loops of the source are structural where they count, and otherwise take
    a fuel argument computed from the data (the number of buffers, the bytes
    asked for, the length of a path), which the theorems show to be enough.
    A waiting loop ([while(cond) sleep(...)]) may run [wait_fuel] = 64 times
    in one call; theorems about it speak of a wait that finds its condition
    true or sleeps once, and then of the resumption.

    ** Not modelled

    Assembly ([entry.S], [kernelvec.S], [swtch.S], [trampoline.S]), the small
    user programs, which are sequences of system calls, and the test
    programs.  [memdump] has no body to model.  What device registers read is
    a parameter ([Board] of Boot.v), as are the addresses the linker chooses
    ([Image] of Proc.v). *)

From stdpp Require Import base list numbers strings decidable sets gmap.
Open Scope Z_scope.

Declare Scope xv6_scope.
Delimit Scope xv6_scope with xv6.
Open Scope xv6_scope.

(** ** Machine integers

    C integers are [Z] with the wrap-around of their width written out:
    [u8]..[u64] are the unsigned conversions, [s8]..[s64] the signed ones. *)

Definition u8 (z : Z) : Z := z mod 2 ^ 8.
Definition u16 (z : Z) : Z := z mod 2 ^ 16.
Definition u32 (z : Z) : Z := z mod 2 ^ 32.
Definition u64 (z : Z) : Z := z mod 2 ^ 64.
Definition s8 (z : Z) : Z := (z + 2 ^ 7) mod 2 ^ 8 - 2 ^ 7.
Definition s16 (z : Z) : Z := (z + 2 ^ 15) mod 2 ^ 16 - 2 ^ 15.
Definition s32 (z : Z) : Z := (z + 2 ^ 31) mod 2 ^ 32 - 2 ^ 31.
Definition s64 (z : Z) : Z := (z + 2 ^ 63) mod 2 ^ 64 - 2 ^ 63.

Create HintDb word.

Lemma u8_small z : 0 <= z < 2 ^ 8 -> u8 z = z.
Proof. apply Z.mod_small. Qed.
Lemma u16_small z : 0 <= z < 2 ^ 16 -> u16 z = z.
Proof. apply Z.mod_small. Qed.
Lemma u32_small z : 0 <= z < 2 ^ 32 -> u32 z = z.
Proof. apply Z.mod_small. Qed.
Lemma u64_small z : 0 <= z < 2 ^ 64 -> u64 z = z.
Proof. apply Z.mod_small. Qed.
Lemma s32_small z : - 2 ^ 31 <= z < 2 ^ 31 -> s32 z = z.
Proof. intros. unfold s32. rewrite Z.mod_small; lia. Qed.
Lemma s16_small z : - 2 ^ 15 <= z < 2 ^ 15 -> s16 z = z.
Proof. intros. unfold s16. rewrite Z.mod_small; lia. Qed.

Lemma u8_range z : 0 <= u8 z < 2 ^ 8.
Proof. apply Z.mod_pos_bound; lia. Qed.
Lemma u16_range z : 0 <= u16 z < 2 ^ 16.
Proof. apply Z.mod_pos_bound; lia. Qed.
Lemma u32_range z : 0 <= u32 z < 2 ^ 32.
Proof. apply Z.mod_pos_bound; lia. Qed.
Lemma u64_range z : 0 <= u64 z < 2 ^ 64.
Proof. apply Z.mod_pos_bound; lia. Qed.
Lemma s32_range z : - 2 ^ 31 <= s32 z < 2 ^ 31.
Proof. unfold s32. pose proof (Z.mod_pos_bound (z + 2 ^ 31) (2 ^ 32)). lia. Qed.

#[export] Hint Resolve u8_range u16_range u32_range u64_range s32_range : word.

(** ** Outcomes and the kernel monad

    A kernel routine over a state [S] either returns a value, calls
    [panic] (which never returns), leaves C's defined behaviour (an array
    access out of bounds), gives up the processor in [swtch], to be resumed
    later in whatever state the other threads left ([Swtch] carries that
    resumption), or runs out of the fuel that bounds a loop of the model. *)

Inductive res (S A : Type) : Type :=
| Ok (a : A) (s : S)
| Panic (msg : string)
| UB (what : string)
| Swtch (s : S) (k : S -> res S A)
| Fuel.
Arguments Ok {S A} a s.
Arguments Panic {S A} msg.
Arguments UB {S A} what.
Arguments Swtch {S A} s k.
Arguments Fuel {S A}.

Definition M (S A : Type) : Type := S -> res S A.

Fixpoint bind_res {S A B} (r : res S A) (f : A -> M S B) : res S B :=
  match r with
  | Ok a s => f a s
  | Panic msg => Panic msg
  | UB w => UB w
  | Swtch s k => Swtch s (fun s' => bind_res (k s') f)
  | Fuel => Fuel
  end.

Definition ret {S A} (a : A) : M S A := fun s => Ok a s.
Definition bind {S A B} (m : M S A) (f : A -> M S B) : M S B :=
  fun s => bind_res (m s) f.
Definition get {S} : M S S := fun s => Ok s s.
Definition gets {S A} (f : S -> A) : M S A := fun s => Ok (f s) s.
Definition put {S} (s : S) : M S unit := fun _ => Ok tt s.
Definition modify {S} (f : S -> S) : M S unit := fun s => Ok tt (f s).
Definition panic {S A} (msg : string) : M S A := fun _ => Panic msg.
Definition undefined {S A} (what : string) : M S A := fun _ => UB what.
Definition out_of_fuel {S A} : M S A := fun _ => Fuel.
(** The hand-over of the processor: the rest of the thread runs in the
    state the scheduler resumes it in. *)
Definition swtch {S} : M S unit := fun s => Swtch s (fun s' => Ok tt s').
Definition when {S} (b : bool) (m : M S unit) : M S unit :=
  if b then m else ret tt.
(** Reading a C array: out of range is undefined behaviour. *)
Definition index {S A} (l : list A) (i : nat) : M S A :=
  match l !! i with
  | Some a => ret a
  | None => undefined "array index out of bounds"
  end.

Notation "x <- m ;; k" := (bind m (fun x => k))
  (at level 20, m at level 99, k at level 200) : xv6_scope.
Notation "' p <- m ;; k" := (bind m (fun x => let p := x in k))
  (at level 20, p pattern, m at level 99, k at level 200) : xv6_scope.
Notation "m ;; k" := (bind m (fun _ => k))
  (at level 100, k at level 200, right associativity) : xv6_scope.

Fixpoint mapM_ {S A} (f : A -> M S unit) (l : list A) : M S unit :=
  match l with
  | [] => ret tt
  | x :: l' => f x ;; mapM_ f l'
  end.

(** ** Sub-states

    A component's routines run on the component's own record; a client
    whose record contains it runs them through [lift].  [Embed S T] says
    where the [S] sits in a [T]. *)

Class Embed (S T : Type) := {
  prj : T -> S;
  inj : S -> T -> T;
}.

Class EmbedLaws (S T : Type) `{!Embed S T} := {
  prj_inj : forall s t, prj (inj s t) = s;
  inj_prj : forall t, inj (prj t) t = t;
  inj_inj : forall s s' t, inj s (inj s' t) = inj s t;
}.

#[export] Instance embed_refl S : Embed S S | 100 := {|
  prj := fun s => s;
  inj := fun s _ => s;
|}.
#[export] Instance embed_refl_laws S : EmbedLaws S S | 100.
Proof. by constructor. Qed.

Fixpoint lift_res {S T A} `{!Embed S T} (t : T) (r : res S A) : res T A :=
  match r with
  | Ok a s => Ok a (inj s t)
  | Panic msg => Panic msg
  | UB w => UB w
  | Swtch s k => Swtch (inj s t) (fun t' => lift_res t' (k (prj t')))
  | Fuel => Fuel
  end.

Definition lift {S T A} `{!Embed S T} (m : M S A) : M T A :=
  fun t => lift_res t (m (prj t)).

(** ** Total correctness

    [wp m Q s]: run from [s], [m] returns (no panic, no undefined behaviour,
    no blocking, fuel sufficient) a value and a state satisfying [Q]. *)

Definition wp {S A} (m : M S A) (Q : A -> S -> Prop) (s : S) : Prop :=
  match m s with Ok a s' => Q a s' | _ => False end.

Lemma wp_ret {S A} (a : A) (Q : A -> S -> Prop) s : wp (ret a) Q s <-> Q a s.
Proof. done. Qed.
Lemma wp_bind {S A B} (m : M S A) (f : A -> M S B) Q s :
  wp (bind m f) Q s <-> wp m (fun a s' => wp (f a) Q s') s.
Proof. unfold wp, bind. by destruct (m s). Qed.
Lemma wp_get {S} (Q : S -> S -> Prop) s : wp get Q s <-> Q s s.
Proof. done. Qed.
Lemma wp_gets {S A} (f : S -> A) (Q : A -> S -> Prop) s :
  wp (gets f) Q s <-> Q (f s) s.
Proof. done. Qed.
Lemma wp_put {S} (s' : S) (Q : unit -> S -> Prop) s : wp (put s') Q s <-> Q tt s'.
Proof. done. Qed.
Lemma wp_modify {S} (f : S -> S) (Q : unit -> S -> Prop) s :
  wp (modify f) Q s <-> Q tt (f s).
Proof. done. Qed.
Lemma wp_lift {S T A} `{!Embed S T} (m : M S A) (Q : A -> T -> Prop) t :
  wp (lift m) Q t <-> wp m (fun a s => Q a (inj s t)) (prj t).
Proof. unfold wp, lift. by destruct (m (prj t)). Qed.
Lemma wp_when {S} (b : bool) (m : M S unit) Q s :
  wp (when b m) Q s <-> if b then wp m Q s else Q tt s.
Proof. by destruct b. Qed.
Lemma wp_index {S A} (l : list A) (i : nat) (x : A) (Q : A -> S -> Prop) s :
  l !! i = Some x -> wp (index l i) Q s <-> Q x s.
Proof. unfold index. by intros ->. Qed.
Lemma wp_mono {S A} (m : M S A) (P Q : A -> S -> Prop) s :
  wp m P s -> (forall a s', P a s' -> Q a s') -> wp m Q s.
Proof. unfold wp. destruct (m s); eauto. Qed.
Lemma wp_elim {S A} (m : M S A) (Q : A -> S -> Prop) s :
  wp m Q s <-> exists a s', m s = Ok a s' /\ Q a s'.
Proof.
  unfold wp. split; [|by intros (?&?&->&?)].
  destruct (m s); try done. eauto.
Qed.
Lemma wp_ok {S A} (m : M S A) (Q : A -> S -> Prop) s a s' :
  m s = Ok a s' -> Q a s' -> wp m Q s.
Proof. unfold wp. by intros ->. Qed.

Lemma bind_ok {S A B} (m : M S A) (f : A -> M S B) s a s' :
  m s = Ok a s' -> bind m f s = f a s'.
Proof. unfold bind. by intros ->. Qed.
(** What a sequence that ends did first. *)
Lemma bind_ok_inv {S A B} (m : M S A) (f : A -> M S B) s b s' :
  bind m f s = Ok b s' -> exists a s1, m s = Ok a s1 /\ f a s1 = Ok b s'.
Proof. unfold bind. destruct (m s) as [a s1| | | |]; try done. cbn. by exists a, s1. Qed.
Lemma bind_panic {S A B} (m : M S A) (f : A -> M S B) s msg :
  m s = Panic msg -> bind m f s = Panic msg.
Proof. unfold bind. by intros ->. Qed.
Lemma bind_UB {S A B} (m : M S A) (f : A -> M S B) s w :
  m s = UB w -> bind m f s = UB w.
Proof. unfold bind. by intros ->. Qed.
Lemma lift_ok {S T A} `{!Embed S T} (m : M S A) t a s' :
  m (prj t) = Ok a s' -> lift m t = Ok a (inj s' t).
Proof. unfold lift. by intros ->. Qed.
Lemma lift_read {S T A} `{!Embed S T, !EmbedLaws S T} (m : M S A) t a :
  m (prj t) = Ok a (prj t) -> lift m t = Ok a t.
Proof. intros E. by rewrite (lift_ok m t a (prj t) E), inj_prj. Qed.
Lemma lift_panic {S T A} `{!Embed S T} (m : M S A) t msg :
  m (prj t) = Panic msg -> lift m t = Panic msg.
Proof. unfold lift. by intros ->. Qed.

Lemma bind_swtch {S A B} (m : M S A) (f : A -> M S B) s s' k :
  m s = Swtch s' k -> bind m f s = Swtch s' (fun s'' => bind_res (k s'') f).
Proof. unfold bind. by intros ->. Qed.
Lemma lift_swtch {S T A} `{!Embed S T} (m : M S A) t s' k :
  m (prj t) = Swtch s' k ->
  lift m t = Swtch (inj s' t) (fun t' => lift_res t' (k (prj t'))).
Proof. unfold lift. by intros ->. Qed.

(** The state a run that returns leaves. *)
Definition after {S A} (m : M S A) (s : S) : S :=
  match m s with Ok _ s' => s' | _ => s end.

(** One step of symbolic execution under [wp]. *)
Ltac wp_step :=
  first
    [ rewrite wp_bind | rewrite wp_ret | rewrite wp_get | rewrite wp_gets
    | rewrite wp_put | rewrite wp_modify | rewrite wp_when ].
Ltac wp_steps := repeat (wp_step; cbn beta).

(** ** Lists *)

Create HintDb len.
#[export] Hint Rewrite @length_app @length_take @length_drop @length_replicate
  @length_insert @length_fmap @length_seq @length_reverse : len.
Ltac len := autorewrite with len in *; simpl in *; try lia.

(** [splice off xs l]: the bytes [xs] written over [l] from offset [off]. *)
Definition splice {A} (off : nat) (xs l : list A) : list A :=
  take off l ++ xs ++ drop (off + length xs) l.

Lemma length_splice {A} off (xs l : list A) :
  (off + length xs <= length l)%nat -> length (splice off xs l) = length l.
Proof. intros. unfold splice. len. Qed.

Lemma take_drop_splice {A} off (xs l : list A) :
  (off + length xs <= length l)%nat ->
  take (length xs) (drop off (splice off xs l)) = xs.
Proof.
  intros. unfold splice.
  rewrite drop_app_ge, length_take by len.
  replace (off - _ `min` _)%nat with 0%nat by lia.
  rewrite drop_0. apply take_app_length.
Qed.

Lemma lookup_splice_out {A} off (xs l : list A) i :
  (off + length xs <= length l)%nat ->
  (i < off \/ off + length xs <= i)%nat ->
  splice off xs l !! i = l !! i.
Proof.
  intros H1 [H2|H2]; unfold splice.
  - rewrite lookup_app_l by len. by rewrite lookup_take_lt.
  - rewrite lookup_app_r by len. rewrite lookup_app_r by len.
    rewrite lookup_drop. f_equal. len.
Qed.

Lemma lookup_splice_in {A} off (xs l : list A) i :
  (off + length xs <= length l)%nat ->
  (off <= i < off + length xs)%nat ->
  splice off xs l !! i = xs !! (i - off)%nat.
Proof.
  intros H1 H2. unfold splice.
  rewrite lookup_app_r by len. rewrite lookup_app_l by len.
  f_equal. len.
Qed.

Lemma take_drop_splice_other {A} off off' n (xs l : list A) :
  (off + length xs <= length l)%nat ->
  (off' + n <= off \/ off + length xs <= off')%nat ->
  take n (drop off' (splice off xs l)) = take n (drop off' l).
Proof.
  intros H1 H2. apply list_eq. intros i.
  destruct (decide (i < n)%nat).
  - rewrite !lookup_take_lt, !lookup_drop by done.
    apply lookup_splice_out; [done|lia].
  - by rewrite !lookup_take_ge by lia.
Qed.

(** ** Little-endian integers in byte lists *)

Fixpoint le_enc (n : nat) (v : Z) : list Z :=
  match n with
  | O => []
  | S n' => v mod 256 :: le_enc n' (v / 256)
  end.

Fixpoint le_dec (l : list Z) : Z :=
  match l with
  | [] => 0
  | b :: l' => b + 256 * le_dec l'
  end.

Lemma length_le_enc n v : length (le_enc n v) = n.
Proof. revert v. induction n; simpl; congruence. Qed.
#[export] Hint Rewrite length_le_enc : len.

Lemma le_dec_enc n v : le_dec (le_enc n v) = v mod 256 ^ Z.of_nat n.
Proof.
  revert v. induction n as [|n IH]; intros v; simpl le_dec.
  { by rewrite Z.mod_1_r. }
  rewrite IH, Nat2Z.inj_succ, Z.pow_succ_r by lia.
  rewrite Z.rem_mul_r by lia. lia.
Qed.

Definition is_byte (b : Z) : Prop := 0 <= b < 256.

Lemma le_enc_bytes n v : Forall is_byte (le_enc n v).
Proof.
  revert v. induction n; intros; simpl; constructor; [|done].
  apply Z.mod_pos_bound. lia.
Qed.

Lemma le_enc_dec l : Forall is_byte l -> le_enc (length l) (le_dec l) = l.
Proof.
  unfold is_byte. induction 1 as [|b l Hb _ IH]; simpl; [done|].
  rewrite (Z.mul_comm 256), Z.mod_add, Z.div_add by lia.
  rewrite Z.mod_small, Z.div_small by lia. by f_equal.
Qed.

Lemma le_dec_bound l : Forall is_byte l -> 0 <= le_dec l < 256 ^ Z.of_nat (length l).
Proof.
  unfold is_byte. induction 1 as [|b l Hb _ IH]; cbn [le_dec length]; [simpl; lia|].
  rewrite Nat2Z.inj_succ, Z.pow_succ_r by lia. lia.
Qed.

(** Fields of a struct laid out in a byte block. *)
Definition get_le (n off : nat) (l : list Z) : Z := le_dec (take n (drop off l)).
Definition put_le (n off : nat) (v : Z) (l : list Z) : list Z :=
  splice off (le_enc n v) l.

Lemma length_put_le n off v l :
  (off + n <= length l)%nat -> length (put_le n off v l) = length l.
Proof. intros. apply length_splice. len. Qed.

Lemma get_put_le n off v l :
  (off + n <= length l)%nat -> get_le n off (put_le n off v l) = v mod 256 ^ Z.of_nat n.
Proof.
  intros. unfold get_le, put_le. rewrite <- le_dec_enc. f_equal.
  rewrite <- (length_le_enc n v) at 1. apply take_drop_splice. len.
Qed.

Lemma get_put_le_other n off n' off' v l :
  (off + n <= length l)%nat -> (off' + n' <= off \/ off + n <= off')%nat ->
  get_le n' off' (put_le n off v l) = get_le n' off' l.
Proof.
  intros. unfold get_le, put_le. f_equal. apply take_drop_splice_other; len.
Qed.

(** ** Record fields

    [s <| f := v |>] is [s] with field [f] set to [v]; every record of the
    development declares one [Setter] per field. *)
Class Setter {R T : Type} (f : R -> T) := setf : T -> R -> R.
Notation "r <| f := v |>" := (setf (f:=f) v r)
  (at level 12, left associativity, f at level 11, format "r <| f  :=  v |>") : xv6_scope.
Ltac setf_cbn := unfold setf in *; simpl in *.

(** Linear arithmetic with division and remainder by constants. *)
Ltac divlia := Z.to_euclidean_division_equations; lia.
