(* ===== verification/CString.v ===== *)
(** * Byte and string routines, [kernel/string.c] and [user/ulib.c]

    Memory is a function from addresses to bytes.  Routines that move bytes
    about ([memset], [memmove]) transform it, one byte store at a time, as
    their loops do; routines that read strings take the bytes a pointer
    gives access to, [p i] being [p[i]]; routines that fill a destination
    ([strncpy], [safestrcpy], [strcpy]) give the bytes they store there, in
    order.  [char] is unsigned on RISC-V. *)

From stdpp Require Import base list numbers strings decidable sets gmap functions.
From S2P Require Import Prelude.
Open Scope Z_scope.
Open Scope xv6_scope.

Notation memory := (Z -> Z).
Notation cptr := (nat -> Z).

(** The pointer to address [a] of memory [m]. *)
Definition at_addr (m : memory) (a : Z) : cptr := fun i => m (a + Z.of_nat i).
(** The pointer to an array holding [l] (and zeroes behind it). *)
Definition of_list (l : list Z) : cptr := fun i => nth i l 0.
(** The [n] bytes of [m] from [a] on, and [m] with [l] stored from [a] on. *)
Definition read_bytes (m : memory) (a : Z) (n : nat) : list Z :=
  (fun i : nat => m (a + Z.of_nat i)) <$> seq 0 n.
Fixpoint write_bytes (m : memory) (a : Z) (l : list Z) : memory :=
  match l with
  | [] => m
  | b :: l' => write_bytes (<[a := b]> m) (a + 1) l'
  end.

(** ** [kernel/string.c] *)

(** [n] is the number of iterations left, [i] the loop counter. *)
Fixpoint memset_loop (n : nat) (i : Z) (c dst : Z) (m : memory) : memory :=
  match n with
  | O => m
  | S n' => memset_loop n' (i + 1) c dst (<[dst + i := u8 c]> m)
  end.
Definition memset (dst c : Z) (n : nat) (m : memory) : memory := memset_loop n 0 c dst m.

Fixpoint memcmp_loop (n i : nat) (s1 s2 : cptr) : Z :=
  match n with
  | O => 0
  | S n' => if s1 i =? s2 i then memcmp_loop n' (S i) s1 s2 else s1 i - s2 i
  end.
Definition memcmp (s1 s2 : cptr) (n : nat) : Z := memcmp_loop n 0 s1 s2.

(** [while(n-- > 0) *--d = *--s] *)
Fixpoint copy_down (n : nat) (d s : Z) (m : memory) : memory :=
  match n with
  | O => m
  | S n' => copy_down n' (d - 1) (s - 1) (<[d - 1 := m (s - 1)]> m)
  end.
(** [while(n-- > 0) *d++ = *s++] *)
Fixpoint copy_up (n : nat) (d s : Z) (m : memory) : memory :=
  match n with
  | O => m
  | S n' => copy_up n' (d + 1) (s + 1) (<[d := m s]> m)
  end.

Definition memmove (dst src : Z) (n : nat) (m : memory) : memory :=
  if Nat.eqb n 0 then m
  else if (src <? dst) && (src + Z.of_nat n >? dst)
  then copy_down n (dst + Z.of_nat n) (src + Z.of_nat n) m
  else copy_up n dst src m.

Definition memcpy (dst src : Z) (n : nat) (m : memory) : memory := memmove dst src n m.

Fixpoint strncmp_loop (n i : nat) (p q : cptr) : Z :=
  match n with
  | O => 0
  | S n' => if negb (p i =? 0) && (p i =? q i) then strncmp_loop n' (S i) p q
            else u8 (p i) - u8 (q i)
  end.
Definition strncmp (p q : cptr) (n : nat) : Z := strncmp_loop n 0 p q.

Fixpoint strncpy_loop (n i : nat) (t : cptr) : list Z :=
  match n with
  | O => []
  | S n' => if t i =? 0 then 0 :: replicate n' 0 else t i :: strncpy_loop n' (S i) t
  end.
(** The bytes [strncpy(s, t, n)] stores from [s] on. *)
Definition strncpy (t : cptr) (n : nat) : list Z := strncpy_loop n 0 t.

Fixpoint safestrcpy_loop (n i : nat) (t : cptr) : list Z :=
  match n with
  | O => [0]
  | S n' => if t i =? 0 then [0; 0] else t i :: safestrcpy_loop n' (S i) t
  end.
(** The bytes [safestrcpy(s, t, n)] stores: the loop runs while [--n > 0],
    and the last store is the one after the loop. *)
Definition safestrcpy (t : cptr) (n : nat) : list Z :=
  match n with O => [] | S n' => safestrcpy_loop n' 0 t end.

Fixpoint strlen_loop (fuel n : nat) (s : cptr) : option nat :=
  match fuel with
  | O => None
  | S f => if s n =? 0 then Some n else strlen_loop f (S n) s
  end.
(** [fuel] bounds the search for the terminating NUL. *)
Definition strlen (fuel : nat) (s : cptr) : option nat := strlen_loop fuel 0 s.

(** ** [user/ulib.c], where it differs *)

Fixpoint strcpy_loop (fuel i : nat) (t : cptr) : option (list Z) :=
  match fuel with
  | O => None
  | S f => if t i =? 0 then Some [0] else (fun l => t i :: l) <$> strcpy_loop f (S i) t
  end.
(** The bytes [strcpy(s, t)] stores from [s] on. *)
Definition strcpy (fuel : nat) (t : cptr) : option (list Z) := strcpy_loop fuel 0 t.

Fixpoint strcmp_loop (fuel i : nat) (p q : cptr) : option Z :=
  match fuel with
  | O => None
  | S f => if negb (p i =? 0) && (p i =? q i) then strcmp_loop f (S i) p q
           else Some (u8 (p i) - u8 (q i))
  end.
Definition strcmp (fuel : nat) (p q : cptr) : option Z := strcmp_loop fuel 0 p q.

Fixpoint strchr_loop (fuel i : nat) (s : cptr) (c : Z) : option (option nat) :=
  match fuel with
  | O => None
  | S f => if s i =? 0 then Some None
           else if s i =? c then Some (Some i) else strchr_loop f (S i) s c
  end.
(** [Some (Some i)] for a pointer to [s[i]], [Some None] for a null one. *)
Definition strchr (fuel : nat) (s : cptr) (c : Z) : option (option nat) :=
  strchr_loop fuel 0 s c.

Fixpoint atoi_loop (fuel i : nat) (s : cptr) (n : Z) : option Z :=
  match fuel with
  | O => None
  | S f => if (48 <=? s i) && (s i <=? 57)
           then atoi_loop f (S i) s (s32 (n * 10 + s i - 48)) else Some n
  end.
Definition atoi (fuel : nat) (s : cptr) : option Z := atoi_loop fuel 0 s 0.

(** The user library's [memmove] copies upwards exactly when the source is
    above the destination; its [n] is an [int]. *)
Definition umemmove (vdst vsrc n : Z) (m : memory) : memory :=
  if vsrc >? vdst then copy_up (Z.to_nat n) vdst vsrc m
  else copy_down (Z.to_nat n) (vdst + n) (vsrc + n) m.

(** ** Properties *)

Lemma memset_loop_spec n i c dst m a :
  memset_loop n i c dst m a =
  if decide (dst + i <= a < dst + i + Z.of_nat n) then u8 c else m a.
Proof.
  revert i m. induction n as [|n IH]; intros i m; simpl.
  { by rewrite decide_False by lia. }
  rewrite IH. unfold insert, fn_insert.
  repeat case_decide; try done; lia.
Qed.

(** [memset] fills exactly the range it is given. *)
Lemma memset_spec dst c n m a :
  memset dst c n m a = if decide (dst <= a < dst + Z.of_nat n) then u8 c else m a.
Proof. unfold memset. rewrite memset_loop_spec. by rewrite Z.add_0_r. Qed.

Lemma copy_up_spec n d s m a :
  d <= s \/ s + Z.of_nat n <= d ->
  copy_up n d s m a = if decide (d <= a < d + Z.of_nat n) then m (s + (a - d)) else m a.
Proof.
  revert d s m. induction n as [|n IH]; intros d s m H; simpl.
  { by rewrite decide_False by lia. }
  rewrite IH by lia. unfold insert, fn_insert.
  repeat case_decide; try done; try lia; f_equal; lia.
Qed.

Lemma copy_down_spec n d s m a :
  s <= d \/ d + Z.of_nat n <= s ->
  copy_down n (d + Z.of_nat n) (s + Z.of_nat n) m a =
  if decide (d <= a < d + Z.of_nat n) then m (s + (a - d)) else m a.
Proof.
  revert m. induction n as [|n IH]; intros m H.
  { simpl. by rewrite decide_False by lia. }
  cbn [copy_down].
  replace (d + Z.of_nat (S n) - 1) with (d + Z.of_nat n) by lia.
  replace (s + Z.of_nat (S n) - 1) with (s + Z.of_nat n) by lia.
  rewrite IH by lia. unfold insert, fn_insert.
  repeat case_decide; try done; try lia; f_equal; lia.
Qed.

Lemma memmove_ok dst src n m a :
  memmove dst src n m a =
  if decide (dst <= a < dst + Z.of_nat n) then m (src + (a - dst)) else m a.
Proof.
  unfold memmove. destruct (Nat.eqb_spec n 0) as [->|Hn].
  { simpl. by rewrite decide_False by lia. }
  destruct (Z.ltb_spec src dst); simpl; [destruct (Z.gtb_spec (src + Z.of_nat n) dst)|].
  - apply copy_down_spec. lia.
  - apply copy_up_spec. lia.
  - apply copy_up_spec. lia.
Qed.

Lemma umemmove_ok vdst vsrc n m a :
  umemmove vdst vsrc n m a =
  if decide (vdst <= a < vdst + n) then m (vsrc + (a - vdst)) else m a.
Proof.
  unfold umemmove. destruct (Z.gtb_spec vsrc vdst).
  - rewrite copy_up_spec by lia. repeat case_decide; done || lia.
  - destruct (decide (0 <= n)).
    + rewrite <- (Z2Nat.id n) at 2 3 by lia. rewrite copy_down_spec by lia.
      by rewrite Z2Nat.id by lia.
    + replace (Z.to_nat n) with 0%nat by lia. simpl. by rewrite decide_False by lia.
Qed.

Lemma read_bytes_lookup m a n i :
  (i < n)%nat -> read_bytes m a n !! i = Some (m (a + Z.of_nat i)).
Proof. intros. unfold read_bytes. rewrite list_lookup_fmap, lookup_seq_lt by done. done. Qed.

Lemma length_read_bytes m a n : length (read_bytes m a n) = n.
Proof. unfold read_bytes. by rewrite length_fmap, length_seq. Qed.
#[export] Hint Rewrite length_read_bytes : len.

Lemma read_bytes_ext m m' a a' n :
  (forall i : nat, (i < n)%nat -> m (a + Z.of_nat i) = m' (a' + Z.of_nat i)) ->
  read_bytes m a n = read_bytes m' a' n.
Proof.
  intros H. unfold read_bytes. apply list_fmap_ext. intros i x Hx.
  apply lookup_seq in Hx as [-> ?]. by apply H.
Qed.

Lemma write_bytes_spec m a l b :
  write_bytes m a l b =
  match l !! Z.to_nat (b - a) with
  | Some x => if decide (a <= b) then x else m b
  | None => m b
  end.
Proof.
  revert m a. induction l as [|x l IH]; intros m a; simpl.
  { done. }
  rewrite IH. unfold insert, fn_insert.
  destruct (decide (b = a)) as [->|Hne].
  - rewrite Z.sub_diag. simpl. rewrite !decide_True by lia.
    destruct (l !! _); by rewrite ?decide_False by lia.
  - rewrite (decide_False (P := a = b)) by lia.
    destruct (decide (a <= b)).
    + replace (Z.to_nat (b - a)) with (S (Z.to_nat (b - (a + 1)))) by lia. simpl.
      destruct (l !! _); repeat case_decide; done || lia.
    + replace (Z.to_nat (b - a)) with 0%nat by lia. simpl.
      destruct (l !! _); repeat case_decide; done || lia.
Qed.

Lemma read_write_bytes m a l : read_bytes (write_bytes m a l) a (length l) = l.
Proof.
  apply list_eq. intros i. destruct (decide (i < length l)%nat).
  - rewrite read_bytes_lookup by done. rewrite write_bytes_spec.
    replace (Z.to_nat (a + Z.of_nat i - a)) with i by lia.
    destruct (lookup_lt_is_Some_2 l i) as [x ->]; [done|].
    by rewrite decide_True by lia.
  - by rewrite !lookup_ge_None_2 by len.
Qed.

Lemma write_bytes_out m a l b :
  (b < a \/ a + Z.of_nat (length l) <= b) -> write_bytes m a l b = m b.
Proof.
  intros H. rewrite write_bytes_spec.
  destruct (l !! _) eqn:E; [|done]. apply lookup_lt_Some in E.
  by rewrite decide_False by lia.
Qed.

(** The bytes before the first NUL of the string at [s]. *)
Definition cstr (s : cptr) (l : list Z) : Prop :=
  (forall i x, l !! i = Some x -> s i = x /\ x <> 0) /\ s (length l) = 0.
Definition bytes_ptr (s : cptr) : Prop := forall i, is_byte (s i).

Lemma write_bytes_app m a l1 l2 :
  write_bytes m a (l1 ++ l2) = write_bytes (write_bytes m a l1) (a + Z.of_nat (length l1)) l2.
Proof.
  revert m a. induction l1 as [|x l1 IH]; intros m a; simpl; [by rewrite Z.add_0_r|].
  rewrite IH. f_equal. lia.
Qed.

Lemma write_bytes_ext m m' a l b : m b = m' b -> write_bytes m a l b = write_bytes m' a l b.
Proof. intros H. rewrite !write_bytes_spec, H. done. Qed.

Lemma read_bytes_app m a n1 n2 :
  read_bytes m a (n1 + n2) = read_bytes m a n1 ++ read_bytes m (a + Z.of_nat n1) n2.
Proof.
  unfold read_bytes. rewrite seq_app, fmap_app. f_equal.
  replace (seq (0 + n1) n2) with (Nat.add n1 <$> seq 0 n2) by (rewrite fmap_add_seq; f_equal; lia).
  rewrite <- list_fmap_compose. apply list_fmap_ext. intros i x _. simpl. f_equal. lia.
Qed.
Lemma read_bytes_split m a n k :
  (k <= n)%nat ->
  take k (read_bytes m a n) = read_bytes m a k /\ drop k (read_bytes m a n) = read_bytes m (a + Z.of_nat k) (n - k).
Proof.
  intros Hk. replace n with (k + (n - k))%nat at 1 2 by lia. rewrite read_bytes_app.
  split; [rewrite take_app_length'|rewrite drop_app_length']; by rewrite ?length_read_bytes.
Qed.

Lemma strncmp_loop_zero n i p q :
  bytes_ptr p -> bytes_ptr q ->
  strncmp_loop n i p q = 0 <->
  forall j, (i <= j < i + n)%nat -> (forall h, (i <= h < j)%nat -> p h <> 0) -> p j = q j.
Proof.
  intros Bp Bq. revert i. induction n as [|n IH]; intros i; cbn [strncmp_loop].
  { split; [lia|done]. }
  pose proof (Bp i) as Hp. pose proof (Bq i) as Hq. unfold is_byte in *.
  destruct (Z.eqb_spec (p i) 0) as [E|E]; simpl; [|destruct (Z.eqb_spec (p i) (q i)) as [E'|E']].
  - rewrite !u8_small by lia. split.
    + intros Hz j Hj Hh. destruct (decide (j = i)) as [->|]; [lia|].
      destruct (Hh i); [lia|done].
    + intros H. rewrite (H i); [lia|lia|lia].
  - rewrite IH. split; intros H j Hj Hh.
    + destruct (decide (j = i)) as [->|]; [done|]. apply H; [lia|]. intros; apply Hh; lia.
    + apply H; [lia|]. intros h Hh'. destruct (decide (h = i)) as [->|]; [done|].
      apply Hh. lia.
  - rewrite !u8_small by lia. split; [lia|]. intros H. destruct E'. apply H; lia.
Qed.

Lemma strncpy_loop_spec n i t j :
  (j < n)%nat ->
  exists x, strncpy_loop n i t !! j = Some x /\
    ((forall h, (i <= h <= i + j)%nat -> t h <> 0) -> x = t (i + j)%nat) /\
    ((exists h, (i <= h <= i + j)%nat /\ t h = 0) -> x = 0).
Proof.
  revert i j. induction n as [|n IH]; intros i j Hj; [lia|]. cbn [strncpy_loop].
  destruct (Z.eqb_spec (t i) 0) as [E|E].
  - exists 0. split_and!; [|intros H; by destruct (H i); [lia|]|done].
    destruct j; [done|]. simpl. apply lookup_replicate_2. lia.
  - destruct j as [|j].
    + exists (t i). rewrite Nat.add_0_r. split_and!; [done|done|].
      intros (h & Hh & Hz). by replace h with i in Hz by lia.
    + destruct (IH (S i) j) as (x & Hx & H1 & H2); [lia|].
      exists x. replace (i + S j)%nat with (S i + j)%nat by lia. split_and!; [done| |].
      * intros H. apply H1. intros h Hh. apply H. lia.
      * intros (h & Hh & Hz). apply H2. exists h. split; [|done].
        destruct (decide (h = i)) as [->|]; [done|]. lia.
Qed.

(** There is a NUL among the first [S i] bytes, or there is none. *)
Lemma nul_within (t : cptr) i :
  (exists h, (0 <= h <= 0 + i)%nat /\ t h = 0) \/ (forall h, (0 <= h <= 0 + i)%nat -> t h <> 0).
Proof.
  induction i as [|i [(h & Hh & Hz)|IH]].
  - destruct (decide (t 0%nat = 0)); [left; exists 0%nat; split; [lia|done]|right].
    intros h Hh. by replace h with 0%nat by lia.
  - left. exists h. split; [lia|done].
  - destruct (decide (t (S i) = 0)); [left; exists (S i); split; [lia|done]|right].
    intros h Hh. destruct (decide (h = S i)) as [->|]; [done|]. apply IH. lia.
Qed.

Lemma length_strncpy_loop n i t : length (strncpy_loop n i t) = n.
Proof.
  revert i. induction n as [|n IH]; intros i; simpl; [done|].
  destruct (t i =? 0); simpl; [by rewrite length_replicate|by rewrite IH].
Qed.

Lemma length_strncpy t n : length (strncpy t n) = n.
Proof. apply length_strncpy_loop. Qed.

Lemma strlen_loop_spec s l n fuel :
  cstr s l -> (n <= length l)%nat -> (length l - n < fuel)%nat ->
  strlen_loop fuel n s = Some (length l).
Proof.
  intros [Hs He]. revert n. induction fuel as [|f IH]; intros n Hn Hf; [lia|].
  cbn [strlen_loop]. destruct (decide (n = length l)) as [->|Hne].
  - by rewrite He.
  - destruct (lookup_lt_is_Some_2 l n) as [x Hx]; [lia|].
    destruct (Hs n x Hx) as [-> Hnz]. destruct (Z.eqb_spec x 0); [done|].
    apply IH; lia.
Qed.

Lemma strlen_spec s l fuel :
  cstr s l -> (length l < fuel)%nat -> strlen fuel s = Some (length l).
Proof. intros. unfold strlen. apply (strlen_loop_spec s l); [done|lia|lia]. Qed.

Lemma safestrcpy_loop_spec t l n i :
  cstr t l -> (i <= length l)%nat ->
  exists rest, safestrcpy_loop n i t = take n (drop i l) ++ 0 :: rest /\
    (length (safestrcpy_loop n i t) <= S n)%nat.
Proof.
  intros [Hs He]. revert i. induction n as [|n IH]; intros i Hi; cbn [safestrcpy_loop].
  { exists []. done. }
  destruct (decide (i = length l)) as [->|Hne].
  - rewrite He, Z.eqb_refl, drop_all. exists [0]. simpl. split; [done|lia].
  - destruct (lookup_lt_is_Some_2 l i) as [x Hx]; [lia|].
    destruct (Hs i x Hx) as [-> Hnz]. destruct (Z.eqb_spec x 0); [done|].
    destruct (IH (S i)) as (rest & E & L); [lia|].
    exists rest. rewrite (drop_S _ x) by done. simpl. rewrite E. split; [done|].
    rewrite <- E. lia.
Qed.

(** ** Theorems *)

(** [memmove] of [kernel/string.c] and of [user/ulib.c] copy the
    source block as it was before the call, whatever the overlap of the two
    blocks, and touch nothing outside the destination. *)
Theorem memmove_overlap dst src n m :
  (read_bytes (memmove dst src n m) dst n = read_bytes m src n /\
   forall a, a < dst \/ dst + Z.of_nat n <= a -> memmove dst src n m a = m a) /\
  (read_bytes (umemmove dst src (Z.of_nat n) m) dst n = read_bytes m src n /\
   forall a, a < dst \/ dst + Z.of_nat n <= a -> umemmove dst src (Z.of_nat n) m a = m a).
Proof.
  split; split.
  - apply read_bytes_ext. intros i Hi. rewrite memmove_ok, decide_True by lia. f_equal. lia.
  - intros a Ha. by rewrite memmove_ok, decide_False by lia.
  - apply read_bytes_ext. intros i Hi. rewrite umemmove_ok, decide_True by lia. f_equal. lia.
  - intros a Ha. by rewrite umemmove_ok, decide_False by lia.
Qed.

(** what [strncmp] accepts.  It returns 0 exactly when the two
    strings agree up to the first NUL or the first [n] bytes; and it accepts
    a name against the padded field that [strncpy] made of it, which is how
    directory entries are written and looked up. *)
Theorem strncmp_strncpy p q n :
  bytes_ptr p -> bytes_ptr q ->
  (strncmp p q n = 0 <->
   forall j, (j < n)%nat -> (forall h, (h < j)%nat -> p h <> 0) -> p j = q j) /\
  strncmp p (of_list (strncpy p n)) n = 0.
Proof.
  intros Bp Bq. split.
  { unfold strncmp. rewrite strncmp_loop_zero by done. split; intros H j Hj Hh.
    - apply H; [lia|]. intros; apply Hh; lia.
    - apply H; [lia|]. intros; apply Hh; lia. }
  unfold strncmp. apply strncmp_loop_zero; [done| |].
  - intros i. unfold of_list. destruct (decide (i < n)%nat) as [Hi|Hi].
    + destruct (strncpy_loop_spec n 0 p i Hi) as (x & Hx & H1 & H2).
      rewrite (nth_lookup_Some _ _ _ _ Hx). unfold is_byte.
      destruct (nul_within p i) as [D|D].
      * rewrite H2 by done. lia.
      * rewrite H1 by done. apply Bp.
    + rewrite nth_overflow; [unfold is_byte; lia|].
      unfold strncpy. rewrite length_strncpy_loop. lia.
  - intros j Hj Hh. unfold of_list. destruct (strncpy_loop_spec n 0 p j) as (x & Hx & H1 & H2); [lia|].
    rewrite (nth_lookup_Some _ _ _ _ Hx).
    destruct (decide (p j = 0)) as [E|E].
    + rewrite H2; [done|]. exists j. lia.
    + symmetry. apply H1. intros h Hh'. destruct (decide (h = j)) as [->|]; [done|].
      apply Hh. lia.
Qed.

Lemma strncmp_strncpy_witness :
  strncmp (of_list [97; 98]) (of_list (strncpy (of_list [97; 98]) 14)) 14 = 0.
Proof.
  apply (strncmp_strncpy (of_list [97; 98]) (fun _ => 0) 14).
  - intros i. unfold is_byte, of_list. do 3 (destruct i as [|i]; [simpl; lia|]). simpl. lia.
  - intros i. unfold is_byte. lia.
Defined.

(** [safestrcpy(s, t, n)] with [n > 0] writes at most [n] bytes,
    and they are the string at [t] cut to [n-1] bytes with a NUL behind it. *)
Theorem safestrcpy_terminates t l n :
  cstr t l -> (0 < n)%nat ->
  (length (safestrcpy t n) <= n)%nat /\
  exists rest, safestrcpy t n = take (n - 1) l ++ 0 :: rest.
Proof.
  intros Hc Hn. destruct n as [|n]; [lia|]. simpl.
  destruct (safestrcpy_loop_spec t l n 0) as (rest & E & L); [done|lia|].
  rewrite Nat.sub_0_r. split; [done|]. exists rest. by rewrite E.
Qed.

Lemma safestrcpy_terminates_witness :
  (length (safestrcpy (of_list [115; 104]%Z) 2) <= 2)%nat /\
  exists rest, safestrcpy (of_list [115; 104]) 2 = take 1 [115; 104] ++ 0 :: rest.
Proof.
  apply (safestrcpy_terminates (of_list [115; 104]) [115; 104] 2); [|lia].
  split; [|done]. intros i x. do 2 (destruct i as [|i]; [by intros [= <-]|]). done.
Defined.
