(* ===== verification/Ring.v ===== *)
(** * Ring buffers with free-running 32-bit counters

    Pipes and the console keep bytes in an array of [N] elements, addressed
    by [uint] counters that are only reduced modulo [N] when the array is
    accessed and wrap around at [2 ^ 32], a multiple of [N].  [ringq] says
    that such a buffer, between a read and a write counter, holds a queue. *)

From stdpp Require Import base numbers list.
From S2P Require Import Prelude.
Open Scope Z_scope.

Record ringq (N : Z) (buf : list Z) (r w : Z) (q : list Z) : Prop := {
  rq_len : length buf = Z.to_nat N;
  rq_r : 0 <= r < 2 ^ 32;
  rq_w : w = u32 (r + Z.of_nat (length q));
  rq_fit : Z.of_nat (length q) <= N;
  rq_data : forall (j : nat) x, q !! j = Some x ->
    buf !!! Z.to_nat ((r + Z.of_nat j) mod N) = x;
}.

Section ring.
Context (N : Z).
Hypothesis Npos : 0 < N < 2 ^ 32.
Hypothesis Ndiv : (N | 2 ^ 32).

Lemma u32_mod z : u32 z mod N = z mod N.
Proof using Npos Ndiv.
  destruct Ndiv as [k Hk]. unfold u32. rewrite (Z.div_mod z (2 ^ 32)) at 2 by lia.
  rewrite Hk at 2. replace (k * N * (z / 2 ^ 32) + z mod 2 ^ 32)
    with (z mod 2 ^ 32 + k * (z / 2 ^ 32) * N) by lia.
  by rewrite Z.mod_add by lia.
Qed.

Lemma u32_add a b : u32 (u32 a + b) = u32 (a + b).
Proof using. unfold u32. by rewrite Zplus_mod_idemp_l. Qed.
Lemma u32_sub a b : u32 (u32 a - b) = u32 (a - b).
Proof using. unfold u32. by rewrite Zminus_mod_idemp_l. Qed.

(** Two positions less than [N] apart use the same element only if they are
    the same. *)
Lemma slot_inj r i j :
  0 <= i < N -> 0 <= j < N -> (r + i) mod N = (r + j) mod N -> i = j.
Proof using Npos.
  intros Hi Hj E.
  assert ((i - j) mod N = 0) as H.
  { replace (i - j) with ((r + i) - (r + j)) by lia. by rewrite Zminus_mod, E, Z.sub_diag. }
  apply Z.mod_divide in H; [|lia]. destruct H as [k Hk]. assert (k = 0) by nia. lia.
Qed.

Lemma slot_range z : (Z.to_nat (z mod N) < Z.to_nat N)%nat.
Proof using Npos. pose proof (Z.mod_pos_bound z N). lia. Qed.

Lemma ringq_nil buf r : length buf = Z.to_nat N -> 0 <= r < 2 ^ 32 -> ringq N buf r r [].
Proof using Npos. intros Hl Hr. split; try done; simpl; [by rewrite Z.add_0_r, u32_small|lia]. Qed.

Lemma ringq_push buf r w q c :
  ringq N buf r w q -> Z.of_nat (length q) < N ->
  ringq N (<[Z.to_nat (w mod N) := c]> buf) r (u32 (w + 1)) (q ++ [c]).
Proof using Npos Ndiv.
  intros [L R W F D] Hq. split; try done.
  - by rewrite length_insert.
  - rewrite W, u32_add, length_app. f_equal. simpl. lia.
  - rewrite length_app. simpl. lia.
  - intros j x Hj. rewrite W, u32_mod.
    destruct (decide (j = length q)) as [->|Hne].
    + rewrite lookup_app_r, Nat.sub_diag in Hj by lia. injection Hj as <-.
      apply list_lookup_total_insert_eq. rewrite L. apply slot_range.
    + pose proof (lookup_lt_Some _ _ _ Hj) as Hlt. rewrite length_app in Hlt. simpl in Hlt.
      rewrite list_lookup_total_insert_ne.
      * apply D. by rewrite lookup_app_l in Hj by lia.
      * intros E. apply Z2Nat.inj in E; try (apply Z.mod_pos_bound; lia).
        apply slot_inj in E; lia.
Qed.

Lemma ringq_pop buf r w c q :
  ringq N buf r w (c :: q) ->
  buf !!! Z.to_nat (r mod N) = c /\ ringq N buf (u32 (r + 1)) w q.
Proof using Npos Ndiv.
  intros [L R W F D]. split.
  - rewrite <- (D 0%nat c eq_refl). do 3 f_equal. lia.
  - split; try done.
    + apply u32_range.
    + rewrite W, u32_add. f_equal. simpl. lia.
    + simpl in F. lia.
    + intros j x Hj. rewrite <- (D (S j) x Hj). f_equal. f_equal.
      rewrite <- Zplus_mod_idemp_l, u32_mod, Zplus_mod_idemp_l. f_equal. lia.
Qed.

Lemma ringq_unpush buf r w q c :
  ringq N buf r w (q ++ [c]) ->
  buf !!! Z.to_nat (u32 (w - 1) mod N) = c /\ ringq N buf r (u32 (w - 1)) q.
Proof using Npos Ndiv.
  intros [L R W F D]. rewrite length_app in *. simpl in *.
  assert (E : u32 (w - 1) = u32 (r + Z.of_nat (length q))).
  { rewrite W, u32_sub. f_equal. lia. }
  rewrite E. split.
  - rewrite u32_mod. apply D. by rewrite lookup_app_r, Nat.sub_diag.
  - split; try done; [lia|]. intros j x Hj. apply D. rewrite lookup_app_l; [done|].
    by eapply lookup_lt_Some.
Qed.

Lemma ringq_count buf r w q : ringq N buf r w q -> u32 (w - r) = Z.of_nat (length q).
Proof using Npos.
  intros [L R W F D]. rewrite W, u32_sub.
  replace (r + _ - r) with (Z.of_nat (length q)) by lia. apply u32_small. lia.
Qed.

Lemma ringq_empty buf r w q : ringq N buf r w q -> (r =? w) = bool_decide (q = []).
Proof using Npos.
  intros H. pose proof (ringq_count _ _ _ _ H) as C. apply eq_bool_prop_intro.
  rewrite Is_true_true, Z.eqb_eq, bool_decide_spec. split.
  - intros ->. rewrite Z.sub_diag in C. by destruct q.
  - intros ->. rewrite (rq_w _ _ _ _ _ H). simpl. rewrite Z.add_0_r, u32_small by apply H. done.
Qed.

Lemma ringq_full buf r w q :
  ringq N buf r w q -> (w =? u32 (r + N)) = bool_decide (Z.of_nat (length q) = N).
Proof using Npos.
  intros H. pose proof (ringq_count _ _ _ _ H) as C. apply eq_bool_prop_intro.
  rewrite Is_true_true, Z.eqb_eq, bool_decide_spec. split.
  - intros ->. rewrite u32_sub in C. replace (r + N - r) with N in C by lia.
    by rewrite u32_small in C by lia.
  - intros E. by rewrite (rq_w _ _ _ _ _ H), E.
Qed.

(** The front part of a queue, up to a counter in between. *)
Lemma ringq_prefix buf r w q1 q2 :
  ringq N buf r w (q1 ++ q2) -> ringq N buf r (u32 (r + Z.of_nat (length q1))) q1.
Proof using Npos.
  intros [L R W F D]. rewrite length_app in *. split; try done; [lia|].
  intros j x Hj. apply D. rewrite lookup_app_l; [done|]. by eapply lookup_lt_Some.
Qed.
End ring.
