(* ===== verification/Grep.v ===== *)
(** * Reading text: [user/grep.c], [user/wc.c] and [gets] of [user/ulib.c]

    A string is the list of its characters before the nul.  Files are read
    in pieces: [read] delivers between one byte and the number asked for,
    as long as there are any, and the sizes of the pieces are arbitrary. *)

From stdpp Require Import base numbers strings decidable sets gmap functions list.
From S2P Require Import Prelude.
From S2P Require Import CString.
Open Scope Z_scope.
Open Scope xv6_scope.

(** ** An open file *)

(** The bytes not yet read, and how many bytes less one each of the next
    calls would deliver. *)
Record stream : Type := mkstream { s_data : list Z; s_sizes : list nat }.
Definition read (st : stream) (max : nat) : list Z * stream :=
  let n := Nat.min max (match s_sizes st with [] => max | k :: _ => S k end) in
  (take n (s_data st), mkstream (drop n (s_data st)) (tail (s_sizes st))).

Definition lf : Z := 10.
Definition cr : Z := 13.

(** ** [gets] *)

Fixpoint gets_loop (fuel : nat) (st : stream) (buf : list Z) (max : nat) : list Z * stream :=
  match fuel with
  | O => (buf, st)
  | S fuel' =>
    if Nat.ltb (length buf + 1) max then
      match read st 1 with
      | ([], st') => (buf, st')
      | (c :: _, st') =>
        let buf := buf ++ [c] in
        if (c =? lf) || (c =? cr) then (buf, st') else gets_loop fuel' st' buf max
      end
    else (buf, st)
  end.
(** The characters stored before the nul. *)
Definition gets (st : stream) (max : nat) : list Z * stream := gets_loop max st [] max.

(** ** [wc] *)

(** [strchr(" \r\t\n\v", c)] *)
Definition is_space (c : Z) : bool := bool_decide (c ∈ [32; 13; 9; 10; 11]).
Record counts : Type := mkcounts { wc_l : Z; wc_w : Z; wc_c : Z; wc_inword : bool }.
Definition wc_char (k : counts) (c : Z) : counts :=
  let l := if c =? lf then s32 (wc_l k + 1) else wc_l k in
  if is_space c then mkcounts l (wc_w k) (s32 (wc_c k + 1)) false
  else if wc_inword k then mkcounts l (wc_w k) (s32 (wc_c k + 1)) true
  else mkcounts l (s32 (wc_w k + 1)) (s32 (wc_c k + 1)) true.
Fixpoint wc_loop (fuel : nat) (st : stream) (k : counts) : option counts :=
  match fuel with
  | O => None
  | S fuel' =>
    match read st 512 with
    | ([], _) => Some k
    | (buf, st') => wc_loop fuel' st' (foldl wc_char k buf)
    end
  end.
(** The three numbers [wc] prints. *)
Definition wc (st : stream) : option (Z * Z * Z) :=
  (fun k => (wc_l k, wc_w k, wc_c k)) <$>
    wc_loop (S (length (s_data st))) st (mkcounts 0 0 0 false).

(** ** The matcher of [grep] *)

Definition ch_caret : Z := 94.
Definition ch_dot : Z := 46.
Definition ch_star : Z := 42.
Definition ch_dollar : Z := 36.

Definition to_lower (c : Z) : Z := if (65 <=? c) && (c <=? 90) then c + 32 else c.
(** The comparison of characters, under the flag [ignore_case]. *)
Definition same_char (ignore_case : bool) (a b : Z) : bool :=
  if ignore_case then to_lower a =? to_lower b else a =? b.

(** [matchstar] with [c = '.'] tests the text again without having moved on
    in it: the increment is in the branch for the other characters. *)
Fixpoint matchhere (fuel : nat) (ic : bool) (re text : list Z) : option bool :=
  match fuel with
  | O => None
  | S fuel' =>
    match re with
    | [] => Some true
    | c :: re1 =>
      if nth 0 re1 0 =? ch_star then matchstar fuel' ic c (drop 1 re1) text
      else if (c =? ch_dollar) && Nat.eqb (length re1) 0 then Some (Nat.eqb (length text) 0)
      else
        match text with
        | x :: text1 =>
          if (c =? ch_dot) || same_char ic c x then matchhere fuel' ic re1 text1
          else Some false
        | [] => Some false
        end
    end
  end
with matchstar (fuel : nat) (ic : bool) (c : Z) (re text : list Z) : option bool :=
  match fuel with
  | O => None
  | S fuel' =>
    match matchhere fuel' ic re text with
    | None => None
    | Some true => Some true
    | Some false =>
      match text with
      | [] => Some false
      | x :: text1 =>
        if c =? ch_dot then matchstar fuel' ic c re text
        else if same_char ic x c then matchstar fuel' ic c re text1
        else Some false
      end
    end
  end.

(** The do-while loop of [match], over the suffixes of the text. *)
Fixpoint match_loop (fuel : nat) (ic : bool) (re text : list Z) : option bool :=
  match matchhere fuel ic re text with
  | None => None
  | Some true => Some true
  | Some false =>
    match text with
    | [] => Some false
    | _ :: text1 => match_loop fuel ic re text1
    end
  end.
Definition match_ (fuel : nat) (ic : bool) (re text : list Z) : option bool :=
  match re with
  | c :: re1 => if c =? ch_caret then matchhere fuel ic re1 text else match_loop fuel ic re text
  | [] => match_loop fuel ic re text
  end.

(** ** [grep] *)

(** [strchr(p, '\n')]: the characters before the newline and those behind
    it.  The search ends at a nul. *)
Fixpoint find_line (p : list Z) : option (list Z * list Z) :=
  match p with
  | [] => None
  | c :: p' =>
    if c =? 0 then None
    else if c =? lf then Some ([], p')
    else match find_line p' with Some (l, r) => Some (c :: l, r) | None => None end
  end.

(** The inner loop: what is written, and the text from [p] on. *)
Fixpoint grep_lines (n fuel : nat) (ic : bool) (re p : list Z) : option (list Z * list Z) :=
  match n with
  | O => None
  | S n' =>
    match find_line p with
    | None => Some ([], p)
    | Some (line, rest) =>
      match match_ fuel ic re line with
      | None => None
      | Some b =>
        match grep_lines n' fuel ic re rest with
        | None => None
        | Some (out, p') => Some ((if b then line ++ [lf] else []) ++ out, p')
        end
      end
    end
  end.

Definition grep_buf_size : nat := 1024.
(** The outer loop, [buf] being the [m] bytes kept; [fuel] is what the
    matcher is given. *)
Fixpoint grep_loop (n fuel : nat) (ic : bool) (re buf : list Z) (st : stream) : option (list Z) :=
  match n with
  | O => None
  | S n' =>
    match read st (grep_buf_size - length buf - 1) with
    | ([], _) => Some []
    | (more, st') =>
      let buf := buf ++ more in
      match grep_lines (S (length buf)) fuel ic re buf with
      | None => None
      | Some (out, p) =>
        match grep_loop n' fuel ic re p st' with
        | None => None
        | Some out' => Some (out ++ out')
        end
      end
    end
  end.
Definition grep (fuel : nat) (ic : bool) (re : list Z) (st : stream) : option (list Z) :=
  grep_loop (S (length (s_data st))) fuel ic re [] st.

(** The command line of [main]: [None] for the usage message, otherwise the
    flag, the pattern and the files (none: standard input). *)
Definition dash_i : list Z := [45; 105].
Definition grep_args (argv : list (list Z)) : option (bool * list Z * list (list Z)) :=
  match argv with
  | _ :: a1 :: rest =>
    if bool_decide (a1 = dash_i) then
      match rest with [] => None | pattern :: files => Some (true, pattern, files) end
    else Some (false, a1, rest)
  | _ => None
  end.

(** ** The matcher decides its language *)

(** [re] matches a prefix of [text]. *)
Inductive matches_here (ic : bool) : list Z -> list Z -> Prop :=
| mh_nil t : matches_here ic [] t
| mh_star c re t1 t2 :
    Forall (fun x => c = ch_dot \/ same_char ic x c = true) t1 ->
    matches_here ic re t2 -> matches_here ic (c :: ch_star :: re) (t1 ++ t2)
| mh_end : matches_here ic [ch_dollar] []
| mh_char c re x t :
    nth 0 re 0 <> ch_star -> ~ (c = ch_dollar /\ re = []) ->
    c = ch_dot \/ same_char ic c x = true ->
    matches_here ic re t -> matches_here ic (c :: re) (x :: t).

(** [re] matches somewhere in [text]; a leading caret ties it to the start. *)
Definition matches (ic : bool) (re text : list Z) : Prop :=
  match re with
  | c :: re1 =>
    if c =? ch_caret then matches_here ic re1 text
    else exists t1 t2, text = t1 ++ t2 /\ matches_here ic re t2
  | [] => True
  end.

(** The pattern behind a leading caret. *)
Definition body (re : list Z) : list Z :=
  match re with
  | c :: re1 => if c =? ch_caret then re1 else re
  | [] => []
  end.
(** The pattern has no [.*], read as the matcher reads it. *)
Fixpoint no_dot_star (re : list Z) : bool :=
  match re with
  | [] => true
  | c :: re1 =>
    match re1 with
    | d :: re2 => if d =? ch_star then negb (c =? ch_dot) && no_dot_star re2 else no_dot_star re1
    | [] => true
    end
  end.

Create HintDb grep.
#[export] Hint Constructors matches_here : grep.

Lemma mh_star_inv ic c re text :
  matches_here ic (c :: ch_star :: re) text ->
  exists t1 t2, text = t1 ++ t2 /\ matches_here ic re t2 /\
    Forall (fun x => c = ch_dot \/ same_char ic x c = true) t1.
Proof. intros H. inversion H; subst; [by eauto|]. simpl in *. congruence. Qed.

(** A star either matches nothing or takes one more character. *)
Lemma mh_star_step ic c re text :
  matches_here ic (c :: ch_star :: re) text <->
  matches_here ic re text \/
  exists x t, text = x :: t /\ (c = ch_dot \/ same_char ic x c = true) /\
    matches_here ic (c :: ch_star :: re) t.
Proof.
  split.
  - intros (t1 & t2 & -> & H & Hf)%mh_star_inv. destruct t1 as [|x t1]; [by left|].
    right. apply Forall_cons in Hf as [Hx Hf]. eexists x, (t1 ++ t2). eauto with grep.
  - intros [H|(x & t & -> & Hx & H)].
    + apply (mh_star ic c re [] text); [done|done].
    + apply mh_star_inv in H as (t1 & t2 & -> & H & Hf).
      apply (mh_star ic c re (x :: t1) t2); [by apply Forall_cons|done].
Qed.

Lemma mh_char_inv ic c re text :
  nth 0 re 0 <> ch_star -> ~ (c = ch_dollar /\ re = []) -> matches_here ic (c :: re) text <->
  exists x t, text = x :: t /\ (c = ch_dot \/ same_char ic c x = true) /\ matches_here ic re t.
Proof.
  intros Hs Hd. split.
  - intros H. inversion H; subst; try (simpl in Hs; congruence); [naive_solver|eauto].
  - intros (x & t & -> & Hx & H). by constructor.
Qed.

Lemma mh_end_inv ic text : matches_here ic [ch_dollar] text <-> text = [].
Proof. split; [|intros ->; constructor]. intros H. inversion H; subst; [done|naive_solver]. Qed.

Lemma matcher_correct fuel ic :
  (forall re text, no_dot_star re = true -> (length re + length text < fuel)%nat ->
     exists b, matchhere fuel ic re text = Some b /\ (b = true <-> matches_here ic re text)) /\
  (forall c re text, c <> ch_dot -> no_dot_star re = true ->
     (length re + length text + 1 < fuel)%nat ->
     exists b, matchstar fuel ic c re text = Some b /\
       (b = true <-> matches_here ic (c :: ch_star :: re) text)).
Proof.
  induction fuel as [|fuel [IHh IHs]]; [split; intros; lia|]. split.
  - intros [|c re1] text Hn Hl; simpl; [by exists true; split; [|split; constructor]|].
    destruct (Z.eqb_spec (nth 0 re1 0) ch_star) as [Es|Es].
    { destruct re1 as [|d re2]; [done|]. simpl in *. subst d.
      rewrite Z.eqb_refl in Hn. apply andb_true_iff in Hn as [Hc Hn].
      rewrite drop_0. apply IHs; [|done|lia]. intros ->. done. }
    destruct ((c =? ch_dollar) && Nat.eqb (length re1) 0) eqn:Ed.
    { apply andb_true_iff in Ed as [->%Z.eqb_eq Hre%Nat.eqb_eq].
      destruct re1; [|done]. eexists. split; [done|].
      rewrite mh_end_inv, Nat.eqb_eq. by destruct text. }
    assert (Hd : ~ (c = ch_dollar /\ re1 = [])) by (by intros [-> ->]).
    destruct text as [|x text1].
    { eexists. split; [done|]. rewrite mh_char_inv by done. naive_solver. }
    destruct ((c =? ch_dot) || same_char ic c x) eqn:Ec.
    + destruct (IHh re1 text1) as (b & -> & Hb); [|simpl in Hl; lia|].
      { destruct re1 as [|d re2]; [done|]. simpl in *.
        by rewrite (proj2 (Z.eqb_neq d ch_star)) in Hn by done. }
      eexists. split; [done|]. rewrite Hb, mh_char_inv by done.
      apply orb_true_iff in Ec as [->%Z.eqb_eq|Ec]; naive_solver.
    + eexists. split; [done|]. rewrite mh_char_inv by done.
      apply orb_false_iff in Ec as [Ec%Z.eqb_neq Ec']. naive_solver congruence.
  - intros c re text Hc Hn Hl. simpl.
    destruct (IHh re text) as (b & -> & Hb); [done|lia|].
    destruct b; [eexists; split; [done|]; rewrite mh_star_step; naive_solver|].
    destruct text as [|x t]; [eexists; split; [done|]; rewrite mh_star_step; naive_solver|].
    rewrite (proj2 (Z.eqb_neq c ch_dot)) by done.
    destruct (same_char ic x c) eqn:Es.
    + destruct (IHs c re t) as (b & -> & Hb'); [done|done|simpl in Hl; lia|].
      eexists. split; [done|]. rewrite Hb', (mh_star_step ic c re (x :: t)). naive_solver.
    + eexists. split; [done|]. rewrite mh_star_step. naive_solver congruence.
Qed.

Lemma matchhere_correct fuel ic re text :
  no_dot_star re = true -> (length re + length text < fuel)%nat ->
  exists b, matchhere fuel ic re text = Some b /\ (b = true <-> matches_here ic re text).
Proof. apply matcher_correct. Qed.

Lemma match_loop_correct fuel ic re text :
  no_dot_star re = true -> (length re + length text < fuel)%nat ->
  exists b, match_loop fuel ic re text = Some b /\
    (b = true <-> exists t1 t2, text = t1 ++ t2 /\ matches_here ic re t2).
Proof.
  intros Hn. induction text as [|x t IH]; intros Hl; cbn [match_loop].
  - destruct (matchhere_correct fuel ic re []) as (b & -> & Hb); [done..|].
    assert (E : (exists t1 t2, [] = t1 ++ t2 /\ matches_here ic re t2) <-> matches_here ic re []).
    { split; [|by exists [], []]. by intros (? & ? & [-> ->]%symmetry%app_nil & ?). }
    destruct b; eexists; split; try done; rewrite E; naive_solver.
  - destruct (matchhere_correct fuel ic re (x :: t)) as (b & -> & Hb); [done..|].
    destruct b.
    { eexists. split; [done|]. split; [|done]. intros _. exists [], (x :: t). naive_solver. }
    destruct IH as (b & -> & Hb'); [simpl in Hl; lia|].
    eexists. split; [done|]. rewrite Hb'. split; intros (t1 & t2 & Ht & H).
    + exists (x :: t1), t2. by subst.
    + destruct t1 as [|y t1]; simplify_eq/=; [naive_solver|eauto].
Qed.

Lemma match_returns fuel ic re text :
  no_dot_star (body re) = true -> (length re + length text < fuel)%nat ->
  exists b, match_ fuel ic re text = Some b /\ (b = true <-> matches ic re text).
Proof.
  intros Hn Hl. destruct re as [|c re1]; simpl in *.
  - destruct (match_loop_correct fuel ic [] text) as (b & -> & Hb); [done..|].
    eexists. split; [done|]. rewrite Hb. split; [done|]. intros _.
    exists [], text. split; [done|constructor].
  - destruct (c =? ch_caret).
    + apply matchhere_correct; [done|lia].
    + by apply match_loop_correct.
Qed.

(** C36: the matcher of [grep] decides its language: for a pattern
    without [.*], [match] returns, and returns 1 exactly when the pattern
    ([c*], [.], [^], [$], characters up to case under [-i]) matches somewhere
    in the text. *)
Theorem match_decides fuel ic re text :
  no_dot_star (body re) = true -> (length re + length text < fuel)%nat ->
  exists b, match_ fuel ic re text = Some b /\ (b = true <-> matches ic re text).
Proof. apply match_returns. Qed.

(** The pattern [^a*b$], ignoring case, and the text [AaB]. *)
Lemma match_decides_witness :
  exists b, match_ 20 true [ch_caret; 97; ch_star; 98; ch_dollar] [65; 97; 66] = Some b /\
    (b = true <-> matches true [ch_caret; 97; ch_star; 98; ch_dollar] [65; 97; 66]).
Proof. apply match_decides; [reflexivity|]. simpl. lia. Defined.

(** More fuel does not change an answer. *)
Lemma matcher_mono n :
  (forall m ic re text b, matchhere n ic re text = Some b -> (n <= m)%nat ->
     matchhere m ic re text = Some b) /\
  (forall m ic c re text b, matchstar n ic c re text = Some b -> (n <= m)%nat ->
     matchstar m ic c re text = Some b).
Proof.
  induction n as [|n [IHh IHs]]; [done|]. split.
  - intros [|m] ic re text b H Hm; [lia|]. simpl in *.
    repeat case_match; try done; [eapply IHs|eapply IHh]; eauto with lia.
  - intros [|m] ic c re text b H Hm; [lia|]. simpl in *.
    destruct (matchhere n ic re text) as [b'|] eqn:E; [|done].
    rewrite (IHh m ic re text b') by (done || lia).
    repeat case_match; try done; eapply IHs; eauto with lia.
Qed.

(** C37: [.*] makes the matcher loop.  When the rest of the pattern does
    not match at the current position and there is text left, [matchstar]
    tests the same position for ever: no fuel is enough. *)
Theorem dot_star_diverges fuel ic re text :
  no_dot_star re = true -> text <> [] -> ~ matches_here ic re text ->
  matchhere fuel ic (ch_dot :: ch_star :: re) text = None.
Proof.
  intros Hn Ht Hm.
  assert (F : forall n, matchhere n ic re text <> Some true).
  { intros n E. set (m := (n + length re + length text + 1)%nat).
    destruct (matchhere_correct m ic re text) as (b & Eb & Hb); [done|lia|].
    rewrite (proj1 (matcher_mono n) m _ _ _ _ E) in Eb by lia. naive_solver. }
  assert (G : forall n, matchstar n ic ch_dot re text = None).
  { induction n as [|n IH]; [done|]. simpl.
    destruct (matchhere n ic re text) as [[]|] eqn:E; [by apply F in E| |done].
    destruct text; [done|]. apply IH. }
  destruct fuel; [done|]. apply G.
Qed.

(** The pattern [.*b] and the text [a]. *)
Lemma dot_star_diverges_witness :
  matchhere 1000 false [ch_dot; ch_star; 98] [97] = None.
Proof.
  apply dot_star_diverges; [reflexivity|discriminate|].
  rewrite mh_char_inv by naive_solver. intros (x & t & E & [H|H] & _); [discriminate H|].
  injection E as <- <-. discriminate H.
Defined.

(** ** What [grep] prints *)

Definition unlines (ls : list (list Z)) : list Z := concat ((fun l => l ++ [lf]) <$> ls).
(** A line [grep] can handle: without newline or nul, and short enough for
    its buffer. *)
Definition line_ok (l : list Z) : Prop := lf ∉ l /\ 0 ∉ l /\ (length l <= 1022)%nat.

Lemma find_line_some l r : lf ∉ l -> 0 ∉ l -> find_line (l ++ lf :: r) = Some (l, r).
Proof.
  induction l as [|c l IH]; intros Hl H0; [done|]. simpl.
  apply not_elem_of_cons in Hl as [Hc Hl], H0 as [Hc0 H0].
  rewrite !(proj2 (Z.eqb_neq c _)) by congruence. by rewrite IH.
Qed.
Lemma find_line_none t : lf ∉ t -> find_line t = None.
Proof.
  induction t as [|c t IH]; intros Ht; [done|]. simpl.
  apply not_elem_of_cons in Ht as [Hc Ht].
  destruct (c =? 0); [done|]. rewrite (proj2 (Z.eqb_neq c lf)) by congruence. by rewrite IH.
Qed.

(** The lines the matcher accepts. *)
Definition accepted (fuel : nat) (ic : bool) (re : list Z) (ls : list (list Z)) : list (list Z) :=
  filter (fun l => match_ fuel ic re l = Some true) ls.

Lemma unlines_app ls1 ls2 : unlines (ls1 ++ ls2) = unlines ls1 ++ unlines ls2.
Proof. unfold unlines. by rewrite fmap_app, concat_app. Qed.

Lemma length_unlines ls : (length ls <= length (unlines ls))%nat.
Proof.
  induction ls as [|l ls IH]; [simpl; lia|].
  change (unlines (l :: ls)) with ((l ++ [lf]) ++ unlines ls). rewrite !length_app. simpl. lia.
Qed.

Section lines.
Context (fuel : nat) (ic : bool) (re : list Z).
Hypothesis Hre : no_dot_star (body re) = true.
Hypothesis Hfuel : (length re + 1023 < fuel)%nat.

Lemma grep_lines_ok n ls t :
  Forall line_ok ls -> lf ∉ t -> (length ls < n)%nat ->
  grep_lines n fuel ic re (unlines ls ++ t) = Some (unlines (accepted fuel ic re ls), t).
Proof using Hre Hfuel.
  revert n. induction ls as [|l ls IH]; intros n Hls Ht Hn; (destruct n as [|n]; [simpl in Hn; lia|]).
  - simpl. by rewrite find_line_none.
  - apply Forall_cons in Hls as [(Hl1 & Hl2 & Hl3) Hls].
    change (unlines (l :: ls)) with ((l ++ [lf]) ++ unlines ls). rewrite <- !(assoc_L (++)).
    cbn [grep_lines]. simpl. rewrite find_line_some by done.
    destruct (match_returns fuel ic re l) as (b & E & _); [done|lia|]. rewrite E.
    rewrite IH by (done || simpl in Hn; lia). unfold accepted. rewrite filter_cons.
    destruct b.
    + rewrite decide_True by done. unfold unlines. simpl. by rewrite <- !(assoc_L (++)).
    + rewrite decide_False by congruence. done.
Qed.
End lines.

Lemma first_newline l1 l2 x y :
  lf ∉ l1 -> lf ∉ l2 -> l1 ++ lf :: x = l2 ++ lf :: y -> l1 = l2 /\ x = y.
Proof.
  revert l2. induction l1 as [|a l1 IH]; intros [|b l2] H1 H2 E; simpl in E.
  { injection E as E. done. }
  all: injection E as E0 E.
  - subst b. by destruct H2; apply list_elem_of_here.
  - subst a. by destruct H1; apply list_elem_of_here.
  - apply not_elem_of_cons in H1 as [_ H1], H2 as [_ H2]. subst b. by edestruct (IH l2) as [-> ->].
Qed.

(** A piece of the input holds some of the lines and the start of the next. *)
Lemma cut_lines ls a b tl :
  Forall line_ok ls -> lf ∉ tl -> a ++ b = unlines ls ++ tl ->
  exists ls1 ls2 t, ls = ls1 ++ ls2 /\ a = unlines ls1 ++ t /\ lf ∉ t /\ t ++ b = unlines ls2 ++ tl.
Proof.
  revert a. induction ls as [|l ls IH]; intros a Hls Htl E.
  - exists [], [], a. simpl in *. subst tl. set_solver.
  - destruct (decide (lf ∈ a)) as [Hin|Hin]; [|by exists [], (l :: ls), a].
    apply Forall_cons in Hls as [(Hl & _ & _) Hls].
    apply list_elem_of_split_l in Hin as (a1 & a2 & -> & Ha1).
    change (unlines (l :: ls)) with ((l ++ [lf]) ++ unlines ls) in E.
    rewrite <- !(assoc_L (++)) in E. simpl in E.
    apply first_newline in E as [-> E]; [|done..].
    destruct (IH a2 Hls Htl E) as (ls1 & ls2 & t & -> & -> & Ht & E').
    exists (l :: ls1), ls2, t. split_and!; [done| |done|done].
    change (unlines (l :: ls1)) with ((l ++ [lf]) ++ unlines ls1). by rewrite <- !(assoc_L (++)).
Qed.

Lemma short_piece ls a b tl :
  Forall line_ok ls -> lf ∉ a -> (1023 <= length a)%nat -> a ++ b = unlines ls ++ tl -> ls = [].
Proof.
  intros Hls Ha Hl E. destruct ls as [|l ls]; [done|exfalso].
  apply Forall_cons in Hls as [(Hlf & _ & Hlen) _].
  change (unlines (l :: ls)) with ((l ++ [lf]) ++ unlines ls) in E.
  rewrite <- !(assoc_L (++)) in E. simpl in E.
  assert (a !! length l = Some lf) as Hx%list_elem_of_lookup_2; [|done].
  rewrite <- (lookup_app_l _ b) by lia. rewrite E, lookup_app_r by lia. by rewrite Nat.sub_diag.
Qed.

Lemma no_lines ls a tl : lf ∉ a -> a = unlines ls ++ tl -> ls = [].
Proof.
  intros Ha ->. destruct ls as [|l ls]; [done|]. exfalso. apply Ha. unfold unlines. simpl. set_solver.
Qed.

(** Reading: at least a byte if one was asked for and there is one. *)
Lemma read_split st max :
  exists st', read st max = (fst (read st max), st') /\
    fst (read st max) ++ s_data st' = s_data st /\
    (length (fst (read st max)) <= max)%nat /\
    (fst (read st max) = [] -> max = 0%nat \/ s_data st = []).
Proof.
  unfold read. eexists. split; [done|]. simpl. rewrite take_drop, length_take.
  split_and!; [done|lia|]. intros H. apply (f_equal length) in H. rewrite length_take in H.
  destruct (s_sizes st); simpl in H; destruct (s_data st); simpl in H; auto; left; lia.
Qed.

Lemma grep_loop_ok fuel ic re n ls tl buf st :
  no_dot_star (body re) = true -> (length re + 1023 < fuel)%nat ->
  Forall line_ok ls -> lf ∉ tl -> lf ∉ buf -> (length (s_data st) < n)%nat ->
  buf ++ s_data st = unlines ls ++ tl ->
  grep_loop n fuel ic re buf st = Some (unlines (accepted fuel ic re ls)).
Proof.
  intros Hre Hf. revert ls buf st. induction n as [|n IH]; intros ls buf st Hls Htl Hbuf Hn E; [lia|].
  cbn [grep_loop].
  destruct (read_split st (grep_buf_size - length buf - 1)) as (st' & -> & Hd & _ & Hm).
  destruct (fst _) as [|c more].
  - assert (ls = []) as ->; [|done]. destruct (Hm eq_refl) as [H|H].
    + eapply short_piece; [done|done| |done]. unfold grep_buf_size in H. lia.
    + rewrite H, app_nil_r in E. by eapply no_lines.
  - set (m := c :: more) in *. rewrite <- Hd, (assoc_L (++)) in E.
    destruct (cut_lines _ _ _ _ Hls Htl E) as (ls1 & ls2 & t & -> & Eb & Ht & E').
    apply Forall_app in Hls as [Hls1 Hls2]. rewrite Eb.
    rewrite grep_lines_ok; [|done..|].
    2: { rewrite length_app. pose proof (length_unlines ls1). lia. }
    rewrite (IH ls2) by (done || apply (f_equal length) in Hd; rewrite length_app in Hd; simpl in Hd; lia).
    unfold accepted. by rewrite filter_app, unlines_app.
Qed.

(** C38: [grep] prints exactly the lines its pattern matches, in order,
    however the reads cut the file: on a file of lines of at most 1022 bytes
    followed by a tail without newline, and a pattern without [.*], it
    returns the accepted lines.  The tail is never printed. *)
Theorem grep_prints fuel ic re ls tl sizes :
  no_dot_star (body re) = true -> (length re + 1023 < fuel)%nat ->
  Forall line_ok ls -> lf ∉ tl ->
  exists out, grep fuel ic re (mkstream (unlines ls ++ tl) sizes) = Some (unlines out) /\
    out = accepted fuel ic re ls /\ (forall l, l ∈ out <-> l ∈ ls /\ matches ic re l).
Proof.
  intros Hre Hf Hls Htl. eexists. split_and!; [|done|].
  - eapply grep_loop_ok; try done; [set_solver|simpl; lia].
  - intros l. unfold accepted. rewrite list_elem_of_filter.
    split; intros [H1 H2]; split; try done.
    all: destruct (match_returns fuel ic re l) as (b & E & Hb); [done| |].
    all: try (rewrite Forall_forall in Hls; destruct (Hls l) as (_ & _ & ?); [done|lia]).
    + rewrite E in H1. naive_solver.
    + rewrite E. f_equal. by apply Hb.
Qed.

(** Two lines, read three bytes at a time. *)
Lemma grep_prints_witness :
  exists out, grep 1100 false [98] (mkstream (unlines [[97; 98]; [99]] ++ [98]) [2; 2; 2]%nat) =
      Some (unlines out) /\
    out = accepted 1100 false [98] [[97; 98]; [99]] /\
    (forall l, l ∈ out <-> l ∈ [[97; 98]; [99]] /\ matches false [98] l).
Proof.
  apply grep_prints; [reflexivity|apply Nat.ltb_lt; reflexivity| |].
  - repeat constructor; try (by apply not_elem_of_cons; split; set_solver); simpl; try lia;
      set_solver.
  - set_solver.
Defined.

(** ** What [wc] counts *)

(** The words of a text: the places where one starts, [inword] telling
    whether the character before the text belongs to one. *)
Fixpoint word_starts (inword : bool) (d : list Z) : nat :=
  match d with
  | [] => 0
  | c :: d' =>
    if is_space c then word_starts false d'
    else ((if inword then 0 else 1) + word_starts true d')%nat
  end.
Definition newlines (d : list Z) : nat := length (filter (fun c => c = lf) d).

Lemma s32_step a b : s32 (s32 a + b) = s32 (a + b).
Proof.
  unfold s32. replace (_ - 2 ^ 31 + b + 2 ^ 31) with ((a + 2 ^ 31) mod 2 ^ 32 + b) by lia.
  rewrite Zplus_mod_idemp_l. do 2 f_equal. lia.
Qed.

Lemma wc_fold l w c inw d :
  exists inw', foldl wc_char (mkcounts (s32 l) (s32 w) (s32 c) inw) d =
    mkcounts (s32 (l + Z.of_nat (newlines d))) (s32 (w + Z.of_nat (word_starts inw d)))
      (s32 (c + Z.of_nat (length d))) inw'.
Proof.
  revert l w c inw. induction d as [|x d IH]; intros l w c inw.
  { exists inw. simpl. by rewrite !Z.add_0_r. }
  simpl. unfold wc_char at 2. cbn [wc_l wc_w wc_c wc_inword].
  replace (if x =? lf then s32 (s32 l + 1) else s32 l)
    with (s32 (l + if x =? lf then 1 else 0)).
  2: { destruct (x =? lf); [by rewrite s32_step|by rewrite Z.add_0_r]. }
  assert (N : newlines (x :: d) = ((if (x =? lf)%Z then 1 else 0) + newlines d)%nat).
  { unfold newlines. rewrite filter_cons. destruct (Z.eqb_spec x lf).
    - by rewrite decide_True by done.
    - by rewrite decide_False by done. }
  rewrite N, !s32_step.
  destruct (is_space x); [|destruct inw; [|rewrite ?s32_step]].
  all: edestruct IH as [inw' ->]; exists inw'; f_equal; f_equal; destruct (x =? lf); lia.
Qed.

Lemma wc_loop_ok n st l w c inw :
  (length (s_data st) < n)%nat ->
  exists inw', wc_loop n st (mkcounts (s32 l) (s32 w) (s32 c) inw) =
    Some (mkcounts (s32 (l + Z.of_nat (newlines (s_data st))))
      (s32 (w + Z.of_nat (word_starts inw (s_data st))))
      (s32 (c + Z.of_nat (length (s_data st)))) inw').
Proof.
  revert st l w c inw. induction n as [|n IH]; intros st l w c inw Hn; [lia|]. cbn [wc_loop].
  destruct (read_split st 512) as (st' & -> & Hd & _ & Hm).
  destruct (fst _) as [|x more].
  - destruct (Hm eq_refl) as [?| ->]; [lia|]. exists inw. simpl. by rewrite !Z.add_0_r.
  - assert (Hpos : (0 < length (x :: more))%nat) by (simpl; lia). remember (x :: more) as m.
    destruct (wc_fold l w c inw m) as [inw' E1].
    destruct (wc_fold l w c inw (m ++ s_data st')) as [inw1 E2].
    destruct (IH st' (l + Z.of_nat (newlines m)) (w + Z.of_nat (word_starts inw m))
      (c + Z.of_nat (length m)) inw') as [inw2 E3].
    { apply (f_equal length) in Hd. rewrite length_app in Hd. lia. }
    destruct (wc_fold (l + Z.of_nat (newlines m)) (w + Z.of_nat (word_starts inw m))
      (c + Z.of_nat (length m)) inw' (s_data st')) as [inw3 E4].
    rewrite foldl_app, E1, E4 in E2. injection E2 as H1 H2 H3 _.
    exists inw2. by rewrite E1, E3, <- Hd, H1, H2, H3.
Qed.

(** [wc] prints the number of newlines, of words and of bytes of the
    file, as [int]s, however the reads cut it. *)
Theorem wc_counts d sizes :
  wc (mkstream d sizes) =
    Some (s32 (Z.of_nat (newlines d)), s32 (Z.of_nat (word_starts false d)), s32 (Z.of_nat (length d))).
Proof.
  unfold wc. destruct (wc_loop_ok (S (length d)) (mkstream d sizes) 0 0 0 false) as [inw E]; [simpl; lia|].
  simpl s_data in *. change (s32 0) with 0 in E. by rewrite E.
Qed.
