(* ===== verification/Umalloc.v ===== *)
(** * The user-level allocator, [user/umalloc.c]

    Blocks are runs of units of [sizeof(Header)] bytes, the first unit being
    the header.  The two fields of the header at an address are kept in the
    functions [h_ptr] and [h_size]; the arena grows through [sbrk], the
    eager one of [user/ulib.c]. *)

From stdpp Require Import base numbers strings decidable sets gmap functions list.
From S2P Require Import Prelude.
Open Scope Z_scope.
Open Scope xv6_scope.

Definition sizeof_Header : Z := 16.

Record heap : Type := mkheap {
  h_ptr : Z -> Z;  (** s.ptr of the header at an address *)
  h_size : Z -> Z;  (** s.size *)
  base : Z;  (** address of the static variable base *)
  freep : Z;
  brk : Z;  (** end of the process memory *)
  brk_max : Z;  (** how far it can grow *)
}.
#[export] Instance set_h_ptr : Setter h_ptr := fun v r => mkheap v (h_size r) (base r) (freep r) (brk r) (brk_max r).
#[export] Instance set_h_size : Setter h_size := fun v r => mkheap (h_ptr r) v (base r) (freep r) (brk r) (brk_max r).
#[export] Instance set_base : Setter base := fun v r => mkheap (h_ptr r) (h_size r) v (freep r) (brk r) (brk_max r).
#[export] Instance set_freep : Setter freep := fun v r => mkheap (h_ptr r) (h_size r) (base r) v (brk r) (brk_max r).
#[export] Instance set_brk : Setter brk := fun v r => mkheap (h_ptr r) (h_size r) (base r) (freep r) v (brk_max r).
#[export] Instance set_brk_max : Setter brk_max := fun v r => mkheap (h_ptr r) (h_size r) (base r) (freep r) (brk r) v.

Definition set_ptr (a v : Z) (h : heap) : heap := h <| h_ptr := <[a := v]> (h_ptr h) |>.
Definition set_size (a v : Z) (h : heap) : heap := h <| h_size := <[a := v]> (h_size h) |>.
(** The header [n] units behind [p]. *)
Definition units (p n : Z) : Z := p + n * sizeof_Header.

(** [sbrk(n)]: the old end, or [None] for [SBRK_ERROR]. *)
Definition sbrk (n : Z) (h : heap) : option (Z * heap) :=
  if 0 <=? n then
    if brk h + n <=? brk_max h then Some (brk h, h <| brk := brk h + n |>) else None
  else if 0 <=? brk h + n then Some (brk h, h <| brk := brk h + n |>)
  else Some (brk h, h).

(** The search of [free] for the place of [bp]. *)
Fixpoint free_find (fuel : nat) (h : heap) (bp p : Z) : option Z :=
  match fuel with
  | O => None
  | S fuel' =>
    if (p <? bp) && (bp <? h_ptr h p) then Some p
    else if (h_ptr h p <=? p) && ((p <? bp) || (bp <? h_ptr h p)) then Some p
    else free_find fuel' h bp (h_ptr h p)
  end.
(** Joining [bp] to its upper neighbour, then to its lower one. *)
Definition join_upper (bp p : Z) (h : heap) : heap :=
  if units bp (h_size h bp) =? h_ptr h p then
    set_ptr bp (h_ptr h (h_ptr h p))
      (set_size bp (u32 (h_size h bp + h_size h (h_ptr h p))) h)
  else set_ptr bp (h_ptr h p) h.
Definition join_lower (bp p : Z) (h : heap) : heap :=
  if units p (h_size h p) =? bp then
    set_ptr p (h_ptr h bp) (set_size p (u32 (h_size h p + h_size h bp)) h)
  else set_ptr p bp h.
Definition free (fuel : nat) (ap : Z) (h : heap) : option heap :=
  let bp := ap - sizeof_Header in
  match free_find fuel h bp (freep h) with
  | None => None
  | Some p => Some (join_lower bp p (join_upper bp p h) <| freep := p |>)
  end.

(** [Some None] when [morecore] returns 0. *)
Definition morecore (fuel : nat) (nu : Z) (h : heap) : option (option Z * heap) :=
  let nu := if nu <? 4096 then 4096 else nu in
  match sbrk (s32 (nu * sizeof_Header)) h with
  | None => Some (None, h)
  | Some (p, h) =>
    match free fuel (units p 1) (set_size p nu h) with
    | None => None
    | Some h => Some (Some (freep h), h)
    end
  end.

(** Taking [nunits] units from the free block at [p]: the address for the
    caller. *)
Definition carve (nunits p prevp : Z) (h : heap) : Z * heap :=
  if h_size h p =? nunits then
    (units p 1, set_ptr prevp (h_ptr h p) h <| freep := prevp |>)
  else
    let rest := h_size h p - nunits in
    let q := units p rest in
    (units q 1, set_size q nunits (set_size p rest h) <| freep := prevp |>).

(** The loop of [malloc]; 0 is the null pointer. *)
Fixpoint malloc_loop (fuel : nat) (nunits p prevp : Z) (h : heap) : option (Z * heap) :=
  match fuel with
  | O => None
  | S fuel' =>
    if nunits <=? h_size h p then Some (carve nunits p prevp h)
    else if p =? freep h then
      match morecore fuel' nunits h with
      | None => None
      | Some (None, h) => Some (0, h)
      | Some (Some p, h) => malloc_loop fuel' nunits (h_ptr h p) p h
      end
    else malloc_loop fuel' nunits (h_ptr h p) p h
  end.

Definition nunits_of (nbytes : Z) : Z :=
  u32 ((nbytes + sizeof_Header - 1) / sizeof_Header + 1).
Definition malloc (fuel : nat) (nbytes : Z) (h : heap) : option (Z * heap) :=
  let nunits := nunits_of nbytes in
  let h := if freep h =? 0 then
             set_size (base h) 0 (set_ptr (base h) (base h) h) <| freep := base h |>
           else h in
  malloc_loop fuel nunits (h_ptr h (freep h)) (freep h) h.
