(* ===== verification/Riscv.v ===== *)
(** * Page and page-table arithmetic

    The macros of [kernel/riscv.h] and [kernel/memlayout.h] on 64-bit
    unsigned integers, with the arithmetic meaning of each. *)

From stdpp Require Import base list numbers strings decidable.
From S2P Require Import Prelude.
Open Scope Z_scope.
Open Scope xv6_scope.

Definition PGSIZE : Z := 4096.
Definition PGSHIFT : Z := 12.
(** [~(PGSIZE-1)], an [int], converted to 64 bits. *)
Definition PGMASK : Z := u64 (Z.lnot (PGSIZE - 1)).
Definition PGROUNDUP (sz : Z) : Z := Z.land (u64 (sz + PGSIZE - 1)) PGMASK.
Definition PGROUNDDOWN (a : Z) : Z := Z.land a PGMASK.

Definition PTE_V : Z := Z.shiftl 1 0.
Definition PTE_R : Z := Z.shiftl 1 1.
Definition PTE_W : Z := Z.shiftl 1 2.
Definition PTE_X : Z := Z.shiftl 1 3.
Definition PTE_U : Z := Z.shiftl 1 4.

Definition PA2PTE (pa : Z) : Z := u64 (Z.shiftl (Z.shiftr pa 12) 10).
Definition PTE2PA (pte : Z) : Z := u64 (Z.shiftl (Z.shiftr pte 10) 12).
Definition PTE_FLAGS (pte : Z) : Z := Z.land pte 0x3FF.

Definition PXMASK : Z := 0x1FF.
Definition PXSHIFT (level : Z) : Z := PGSHIFT + 9 * level.
Definition PX (level va : Z) : Z := Z.land (Z.shiftr va (PXSHIFT level)) PXMASK.

Definition MAXVA : Z := Z.shiftl 1 (9 + 9 + 9 + 12 - 1).

Definition SATP_SV39 : Z := Z.shiftl 8 60.
Definition MAKE_SATP (pagetable : Z) : Z := Z.lor SATP_SV39 (Z.shiftr pagetable 12).

Definition SSTATUS_SPP : Z := Z.shiftl 1 8.
Definition SSTATUS_SPIE : Z := Z.shiftl 1 5.
Definition SSTATUS_SIE : Z := Z.shiftl 1 1.

(** ** [kernel/memlayout.h] *)
Definition UART0 : Z := 0x10000000.
Definition UART0_IRQ : Z := 10.
Definition VIRTIO0 : Z := 0x10001000.
Definition VIRTIO0_IRQ : Z := 1.
Definition PLIC : Z := 0x0c000000.
Definition PLIC_SENABLE (hart : Z) : Z := PLIC + 0x2080 + hart * 0x100.
Definition PLIC_SPRIORITY (hart : Z) : Z := PLIC + 0x201000 + hart * 0x2000.
Definition PLIC_SCLAIM (hart : Z) : Z := PLIC + 0x201004 + hart * 0x2000.
Definition KERNBASE : Z := 0x80000000.
Definition PHYSTOP : Z := KERNBASE + 128 * 1024 * 1024.
Definition TRAMPOLINE : Z := MAXVA - PGSIZE.
Definition KSTACK (p : Z) : Z := TRAMPOLINE - (p + 1) * 2 * PGSIZE.
Definition TRAPFRAME : Z := TRAMPOLINE - PGSIZE.

(** ** Arithmetic meaning *)

Lemma land_pgmask a : 0 <= a < 2 ^ 64 -> Z.land a PGMASK = a / 4096 * 4096.
Proof.
  intros H. change PGMASK with (Z.shiftl (Z.ones 52) 12).
  assert (E : Z.land a (Z.shiftl (Z.ones 52) 12) =
              Z.shiftl (Z.land (Z.shiftr a 12) (Z.ones 52)) 12).
  { apply Z.bits_inj'. intros n Hn. rewrite Z.land_spec.
    destruct (decide (n < 12)).
    - rewrite !Z.shiftl_spec_low by lia. by rewrite andb_false_r.
    - rewrite !Z.shiftl_spec_high by lia. rewrite Z.land_spec, Z.shiftr_spec by lia.
      by rewrite Z.sub_add. }
  rewrite E, Z.land_ones, Z.shiftr_div_pow2, Z.shiftl_mul_pow2 by lia.
  rewrite Z.mod_small; [done|]. split; [apply Z.div_pos; lia|].
  apply Z.div_lt_upper_bound; lia.
Qed.

Lemma PGROUNDDOWN_spec a : 0 <= a < 2 ^ 64 -> PGROUNDDOWN a = a / PGSIZE * PGSIZE.
Proof. apply land_pgmask. Qed.

Lemma PGROUNDUP_spec sz :
  0 <= sz <= 2 ^ 64 - PGSIZE -> PGROUNDUP sz = (sz + PGSIZE - 1) / PGSIZE * PGSIZE.
Proof.
  unfold PGROUNDUP, PGSIZE. intros. rewrite u64_small by lia. apply land_pgmask. lia.
Qed.

Lemma PX_spec level va :
  0 <= level -> PX level va = (va / 2 ^ (12 + 9 * level)) mod 512.
Proof.
  intros. unfold PX, PXSHIFT, PGSHIFT. change PXMASK with (Z.ones 9).
  rewrite Z.land_ones, Z.shiftr_div_pow2 by lia. done.
Qed.

Lemma PX_range level va : 0 <= level -> 0 <= PX level va < 512.
Proof. intros. rewrite PX_spec by done. apply Z.mod_pos_bound. lia. Qed.

(** A virtual address below [MAXVA] is determined by its three indices and
    its offset in the page. *)
Lemma PX_split va :
  0 <= va < 2 ^ 39 ->
  va = PX 2 va * 2 ^ 30 + PX 1 va * 2 ^ 21 + PX 0 va * 2 ^ 12 + va mod 2 ^ 12.
Proof.
  intros. rewrite !PX_spec by lia.
  change (12 + 9 * 2) with 30. change (12 + 9 * 1) with 21. change (12 + 9 * 0) with 12.
  rewrite (Z.mod_small (va / 2 ^ 30)) by
    (split; [apply Z.div_pos; lia|apply Z.div_lt_upper_bound; lia]).
  change (2 ^ 30) with (2 ^ 21 * 512). change (2 ^ 21) with (2 ^ 12 * 512).
  rewrite <- !Z.div_div by lia.
  pose proof (Z.div_mod va (2 ^ 12) ltac:(lia)).
  pose proof (Z.div_mod (va / 2 ^ 12) 512 ltac:(lia)).
  pose proof (Z.div_mod (va / 2 ^ 12 / 512) 512 ltac:(lia)).
  change (2 ^ 12) with 4096 in *. lia.
Qed.

Lemma PX_inj va va' :
  0 <= va < 2 ^ 39 -> 0 <= va' < 2 ^ 39 -> va mod PGSIZE = 0 -> va' mod PGSIZE = 0 ->
  PX 2 va = PX 2 va' -> PX 1 va = PX 1 va' -> PX 0 va = PX 0 va' -> va = va'.
Proof.
  intros H H' Ha Ha' E2 E1 E0. rewrite (PX_split va), (PX_split va') by done.
  change (2 ^ 12) with PGSIZE. rewrite Ha, Ha'. congruence.
Qed.

(** PTE fields. *)
Lemma land_shift_low x f k : 0 <= k -> 0 <= f < 2 ^ k -> Z.land (Z.shiftl x k) f = 0.
Proof.
  intros Hk Hf. apply Z.bits_inj'. intros n Hn. rewrite Z.land_spec, Z.bits_0.
  destruct (decide (n < k)).
  - by rewrite Z.shiftl_spec_low.
  - replace f with (f mod 2 ^ k) by (by apply Z.mod_small).
    rewrite Z.mod_pow2_bits_high by lia. apply andb_false_r.
Qed.

Lemma lor_shift_low x f k : 0 <= k -> 0 <= f < 2 ^ k -> Z.lor (Z.shiftl x k) f = x * 2 ^ k + f.
Proof.
  intros Hk Hf. rewrite <- Z.lxor_lor by (by apply land_shift_low).
  rewrite <- Z.add_nocarry_lxor by (by apply land_shift_low).
  by rewrite Z.shiftl_mul_pow2.
Qed.

Lemma PA2PTE_spec pa : 0 <= pa < 2 ^ 56 -> pa mod PGSIZE = 0 -> PA2PTE pa = pa / 4.
Proof.
  unfold PA2PTE, PGSIZE. intros H Ha.
  rewrite Z.shiftr_div_pow2, Z.shiftl_mul_pow2 by lia. change (2 ^ 12) with 4096.
  change (2 ^ 10) with 1024. rewrite u64_small.
  - pose proof (Z.div_mod pa 4096). rewrite Ha in *.
    rewrite (Z.div_mod pa 4096) at 2 by lia. rewrite Ha.
    replace (4096 * (pa / 4096) + 0) with (pa / 4096 * 1024 * 4) by lia.
    by rewrite Z.div_mul.
  - pose proof (Z.div_mod pa 4096). lia.
Qed.

Lemma pte_pa pa f :
  0 <= pa < 2 ^ 56 -> pa mod PGSIZE = 0 -> 0 <= f < 2 ^ 10 ->
  PTE2PA (Z.lor (PA2PTE pa) f) = pa.
Proof.
  intros H Ha Hf. unfold PTE2PA, PA2PTE, PGSIZE in *.
  assert (0 <= pa / 4096 < 2 ^ 44).
  { split; [apply Z.div_pos; lia|apply Z.div_lt_upper_bound; lia]. }
  rewrite (u64_small (Z.shiftl _ 10)) by
    (rewrite Z.shiftl_mul_pow2, Z.shiftr_div_pow2 by lia; change (2 ^ 12) with 4096; lia).
  rewrite lor_shift_low, Z.shiftr_div_pow2 by lia.
  rewrite (Z.shiftr_div_pow2 pa 12) by lia. change (2 ^ 12) with 4096.
  rewrite Z.div_add_l, (Z.div_small f) by lia.
  rewrite Z.add_0_r, Z.shiftl_mul_pow2 by lia. change (2 ^ 12) with 4096.
  rewrite u64_small by lia. pose proof (Z.div_mod pa 4096). lia.
Qed.

Lemma pte_flags pa f :
  0 <= pa < 2 ^ 56 -> 0 <= f < 2 ^ 10 -> PTE_FLAGS (Z.lor (PA2PTE pa) f) = f.
Proof.
  intros H Hf. unfold PTE_FLAGS, PA2PTE.
  assert (0 <= pa / 4096 < 2 ^ 44).
  { split; [apply Z.div_pos; lia|apply Z.div_lt_upper_bound; lia]. }
  rewrite u64_small by
    (rewrite Z.shiftl_mul_pow2, Z.shiftr_div_pow2 by lia; change (2 ^ 12) with 4096; lia).
  rewrite lor_shift_low by lia. change 0x3FF with (Z.ones 10).
  rewrite Z.land_ones by lia. rewrite Z.add_comm, Z.mod_add by lia. by apply Z.mod_small.
Qed.

(** A flag bit of an entry made of an address and permission bits. *)
Lemma pte_bit pa f b :
  0 <= pa < 2 ^ 56 -> 0 <= f < 2 ^ 10 -> 0 <= b < 2 ^ 10 ->
  Z.land (Z.lor (PA2PTE pa) f) b = Z.land f b.
Proof.
  intros H Hf Hb. rewrite <- (pte_flags pa f) at 2 by done. unfold PTE_FLAGS.
  rewrite <- Z.land_assoc. f_equal. change 0x3FF with (Z.ones 10).
  rewrite Z.land_comm, Z.land_ones by lia. by rewrite Z.mod_small.
Qed.

Lemma pg_aligned_add p : p mod PGSIZE = 0 -> (p + PGSIZE) mod PGSIZE = 0.
Proof.
  intros. replace (p + PGSIZE) with (p + 1 * PGSIZE) by lia.
  by rewrite Z.mod_add.
Qed.
