(* ===== verification/Sched.v ===== *)
(** * Processes, spin locks and the sleep/wakeup protocol

    The state every kernel thread shares whatever subsystem it runs in: the
    process table of [kernel/proc.c] and the spin locks the processor holds.
    A spin lock is seen here through what [acquire] and [release] promise (a
    set of locks held by this processor, with their two panics);
    [Spinlock.v] models [kernel/spinlock.c] itself and shows that it keeps
    that promise.  Other processors act only where this thread holds no lock
    on the data concerned, so a critical section is one atomic step and the
    only place where a thread observes the others is [swtch]. *)

From stdpp Require Import base list numbers strings decidable sets gmap.
From S2P Require Import Prelude.
From S2P Require Import Riscv.
Open Scope Z_scope.
Open Scope xv6_scope.

(** ** Parameters of the system, [kernel/param.h] *)
Definition NPROC : nat := 64.
Definition NCPU : nat := 8.
Definition NOFILE : nat := 16.
Definition NFILE : nat := 100.
Definition NINODE : nat := 50.
Definition NDEV : Z := 10.
Definition ROOTDEV : Z := 1.
Definition MAXARG : nat := 32.
Definition MAXOPBLOCKS : Z := 10.
Definition LOGBLOCKS : Z := MAXOPBLOCKS * 3.
Definition NBUF : nat := Z.to_nat (MAXOPBLOCKS * 3).
Definition FSSIZE : Z := 2000.
Definition MAXPATH : nat := 128.
(** [LAB=util], so the user stack has two pages. *)
Definition USERSTACK : Z := 2.

(** ** Names of locks and of wait channels

    The kernel's spin locks are the [struct spinlock] objects of its
    sources, a wait channel is the address of the object waited for. *)
Inductive lockid : Set :=
| LkKmem | LkBcache | LkLog | LkItable | LkFtable | LkPid | LkWait
| LkCons | LkTx | LkPr | LkTicks | LkVdisk
| LkProc (i : nat)          (* p->lock *)
| LkBufSleep (i : nat)      (* bcache.buf[i].lock.lk *)
| LkInodeSleep (i : nat)    (* itable.inode[i].lock.lk *)
| LkPipe (a : Z).           (* pi->lock of the pipe at address a *)
#[export] Instance lockid_eq_dec : EqDecision lockid.
Proof. solve_decision. Defined.

Inductive chan : Set :=
| ChNull | ChLog | ChTicks | ChCons | ChTx | ChDiskFree
| ChProc (i : nat)          (* a struct proc *)
| ChBufLock (i : nat)       (* &bcache.buf[i].lock *)
| ChBuf (i : nat)           (* &bcache.buf[i] *)
| ChInodeLock (i : nat)     (* &itable.inode[i].lock *)
| ChPipeRead (a : Z)        (* &pi->nread *)
| ChPipeWrite (a : Z).      (* &pi->nwrite *)
#[export] Instance chan_eq_dec : EqDecision chan.
Proof. solve_decision. Defined.

(** ** The process table, [kernel/proc.h] *)

Inductive procstate : Set := UNUSED | USED | SLEEPING | RUNNABLE | RUNNING | ZOMBIE.
#[export] Instance procstate_eq_dec : EqDecision procstate.
Proof. solve_decision. Defined.

(** Saved registers for kernel context switches: [ra], [sp] and the twelve
    callee-saved registers [s0]..[s11]. *)
Record context : Type := mkcontext {
  c_ra : Z;
  c_sp : Z;
  c_s : list Z;
}.
#[export] Instance set_c_ra : Setter c_ra := fun v r => mkcontext v (c_sp r) (c_s r).
#[export] Instance set_c_sp : Setter c_sp := fun v r => mkcontext (c_ra r) v (c_s r).
#[export] Instance set_c_s : Setter c_s := fun v r => mkcontext (c_ra r) (c_sp r) v.

Record proc : Type := mkproc {
  p_state : procstate;
  p_chan : chan;  (** if not [ChNull], sleeping on it *)
  p_killed : Z;
  p_xstate : Z;  (** exit status for the parent's wait *)
  p_pid : Z;
  p_parent : option nat;  (** index of the parent, if any *)
  p_kstack : Z;  (** virtual address of the kernel stack *)
  p_sz : Z;  (** size of the process memory in bytes *)
  p_pagetable : Z;  (** physical address of the root page table, 0 if none *)
  p_trapframe : Z;  (** physical address of the trap frame page, 0 if none *)
  p_context : context;
  p_ofile : list (option nat);  (** indices into the file table *)
  p_cwd : option nat;  (** index into the inode table *)
  p_name : list Z;
}.
#[export] Instance set_p_state : Setter p_state := fun v r => mkproc v (p_chan r) (p_killed r) (p_xstate r) (p_pid r) (p_parent r) (p_kstack r) (p_sz r) (p_pagetable r) (p_trapframe r) (p_context r) (p_ofile r) (p_cwd r) (p_name r).
#[export] Instance set_p_chan : Setter p_chan := fun v r => mkproc (p_state r) v (p_killed r) (p_xstate r) (p_pid r) (p_parent r) (p_kstack r) (p_sz r) (p_pagetable r) (p_trapframe r) (p_context r) (p_ofile r) (p_cwd r) (p_name r).
#[export] Instance set_p_killed : Setter p_killed := fun v r => mkproc (p_state r) (p_chan r) v (p_xstate r) (p_pid r) (p_parent r) (p_kstack r) (p_sz r) (p_pagetable r) (p_trapframe r) (p_context r) (p_ofile r) (p_cwd r) (p_name r).
#[export] Instance set_p_xstate : Setter p_xstate := fun v r => mkproc (p_state r) (p_chan r) (p_killed r) v (p_pid r) (p_parent r) (p_kstack r) (p_sz r) (p_pagetable r) (p_trapframe r) (p_context r) (p_ofile r) (p_cwd r) (p_name r).
#[export] Instance set_p_pid : Setter p_pid := fun v r => mkproc (p_state r) (p_chan r) (p_killed r) (p_xstate r) v (p_parent r) (p_kstack r) (p_sz r) (p_pagetable r) (p_trapframe r) (p_context r) (p_ofile r) (p_cwd r) (p_name r).
#[export] Instance set_p_parent : Setter p_parent := fun v r => mkproc (p_state r) (p_chan r) (p_killed r) (p_xstate r) (p_pid r) v (p_kstack r) (p_sz r) (p_pagetable r) (p_trapframe r) (p_context r) (p_ofile r) (p_cwd r) (p_name r).
#[export] Instance set_p_kstack : Setter p_kstack := fun v r => mkproc (p_state r) (p_chan r) (p_killed r) (p_xstate r) (p_pid r) (p_parent r) v (p_sz r) (p_pagetable r) (p_trapframe r) (p_context r) (p_ofile r) (p_cwd r) (p_name r).
#[export] Instance set_p_sz : Setter p_sz := fun v r => mkproc (p_state r) (p_chan r) (p_killed r) (p_xstate r) (p_pid r) (p_parent r) (p_kstack r) v (p_pagetable r) (p_trapframe r) (p_context r) (p_ofile r) (p_cwd r) (p_name r).
#[export] Instance set_p_pagetable : Setter p_pagetable := fun v r => mkproc (p_state r) (p_chan r) (p_killed r) (p_xstate r) (p_pid r) (p_parent r) (p_kstack r) (p_sz r) v (p_trapframe r) (p_context r) (p_ofile r) (p_cwd r) (p_name r).
#[export] Instance set_p_trapframe : Setter p_trapframe := fun v r => mkproc (p_state r) (p_chan r) (p_killed r) (p_xstate r) (p_pid r) (p_parent r) (p_kstack r) (p_sz r) (p_pagetable r) v (p_context r) (p_ofile r) (p_cwd r) (p_name r).
#[export] Instance set_p_context : Setter p_context := fun v r => mkproc (p_state r) (p_chan r) (p_killed r) (p_xstate r) (p_pid r) (p_parent r) (p_kstack r) (p_sz r) (p_pagetable r) (p_trapframe r) v (p_ofile r) (p_cwd r) (p_name r).
#[export] Instance set_p_ofile : Setter p_ofile := fun v r => mkproc (p_state r) (p_chan r) (p_killed r) (p_xstate r) (p_pid r) (p_parent r) (p_kstack r) (p_sz r) (p_pagetable r) (p_trapframe r) (p_context r) v (p_cwd r) (p_name r).
#[export] Instance set_p_cwd : Setter p_cwd := fun v r => mkproc (p_state r) (p_chan r) (p_killed r) (p_xstate r) (p_pid r) (p_parent r) (p_kstack r) (p_sz r) (p_pagetable r) (p_trapframe r) (p_context r) (p_ofile r) v (p_name r).
#[export] Instance set_p_name : Setter p_name := fun v r => mkproc (p_state r) (p_chan r) (p_killed r) (p_xstate r) (p_pid r) (p_parent r) (p_kstack r) (p_sz r) (p_pagetable r) (p_trapframe r) (p_context r) (p_ofile r) (p_cwd r) v.

(** What a thread of the kernel sees whatever it works on. *)
Record mach : Type := mkmach {
  held : list lockid;  (** the spin locks this processor holds, latest first *)
  procs : list proc;
  cur : option nat;  (** [mycpu()->proc] *)
  nextpid : Z;
  initproc : option nat;
  ticks : Z;
  klog : list string;  (** what [printf] wrote to the console *)
}.
#[export] Instance set_held : Setter held := fun v r => mkmach v (procs r) (cur r) (nextpid r) (initproc r) (ticks r) (klog r).
#[export] Instance set_procs : Setter procs := fun v r => mkmach (held r) v (cur r) (nextpid r) (initproc r) (ticks r) (klog r).
#[export] Instance set_cur : Setter cur := fun v r => mkmach (held r) (procs r) v (nextpid r) (initproc r) (ticks r) (klog r).
#[export] Instance set_nextpid : Setter nextpid := fun v r => mkmach (held r) (procs r) (cur r) v (initproc r) (ticks r) (klog r).
#[export] Instance set_initproc : Setter initproc := fun v r => mkmach (held r) (procs r) (cur r) (nextpid r) v (ticks r) (klog r).
#[export] Instance set_ticks : Setter ticks := fun v r => mkmach (held r) (procs r) (cur r) (nextpid r) (initproc r) v (klog r).
#[export] Instance set_klog : Setter klog := fun v r => mkmach (held r) (procs r) (cur r) (nextpid r) (initproc r) (ticks r) v.

(** ** Spin locks, as their clients see them *)

Definition acquire (lk : lockid) : M mach unit :=
  m <- get ;;
  if decide (lk ∈ held m) then panic "acquire"
  else put (m <| held := lk :: held m |>).

Fixpoint remove_lock (lk : lockid) (l : list lockid) : list lockid :=
  match l with
  | [] => []
  | x :: l' => if decide (x = lk) then l' else x :: remove_lock lk l'
  end.

Definition release (lk : lockid) : M mach unit :=
  m <- get ;;
  if decide (lk ∈ held m) then put (m <| held := remove_lock lk (held m) |>)
  else panic "release".

Definition holding (lk : lockid) (m : mach) : bool := bool_decide (lk ∈ held m).

Definition kprintf (msg : string) : M mach unit :=
  modify (fun m => m <| klog := klog m ++ [msg] |>).

(** ** Access to the process table *)

(** [myproc()]: the index of the current process. *)
Definition myproc : M mach nat :=
  m <- get ;;
  match cur m with
  | Some i => ret i
  | None => undefined "null struct proc"
  end.

Definition get_proc (i : nat) : M mach proc :=
  m <- get ;; index (procs m) i.

Definition set_proc (i : nat) (p : proc) : M mach unit :=
  modify (fun m => m <| procs := <[i := p]> (procs m) |>).

Definition upd_proc (i : nat) (f : proc -> proc) : M mach unit :=
  p <- get_proc i ;; set_proc i (f p).

Definition mypid : M mach Z :=
  i <- myproc ;; p <- get_proc i ;; ret (p_pid p).

Definition allocpid : M mach Z :=
  acquire LkPid ;;
  m <- get ;;
  let pid := nextpid m in
  put (m <| nextpid := s32 (nextpid m + 1) |>) ;;
  release LkPid ;;
  ret pid.

(** ** Scheduling *)

(** Interrupts are off exactly while a spin lock is held, so the test
    [intr_get()] at the end of the guards of [sched] is subsumed by the
    test on [noff], the number of locks held. *)
Definition sched : M mach unit :=
  i <- myproc ;;
  m <- get ;;
  p <- get_proc i ;;
  if negb (holding (LkProc i) m) then panic "sched p->lock"
  else if negb (Nat.eqb (length (held m)) 1) then panic "sched locks"
  else if decide (p_state p = RUNNING) then panic "sched RUNNING"
  else swtch.

Definition yield : M mach unit :=
  i <- myproc ;;
  acquire (LkProc i) ;;
  upd_proc i (fun p => p <| p_state := RUNNABLE |>) ;;
  sched ;;
  release (LkProc i).

Definition sleep (ch : chan) (lk : lockid) : M mach unit :=
  i <- myproc ;;
  acquire (LkProc i) ;;
  release lk ;;
  upd_proc i (fun p => p <| p_chan := ch |> <| p_state := SLEEPING |>) ;;
  sched ;;
  upd_proc i (fun p => p <| p_chan := ChNull |>) ;;
  release (LkProc i) ;;
  acquire lk.

(** One iteration of the loop of [wakeup]. *)
Definition wakeup_one (ch : chan) (i : nat) : M mach unit :=
  me <- gets cur ;;
  if decide (Some i = me) then ret tt
  else
    acquire (LkProc i) ;;
    p <- get_proc i ;;
    when (bool_decide (p_state p = SLEEPING /\ p_chan p = ch))
      (set_proc i (p <| p_state := RUNNABLE |>)) ;;
    release (LkProc i).

Definition wakeup (ch : chan) : M mach unit :=
  mapM_ (wakeup_one ch) (seq 0 NPROC).

Fixpoint kkill_from (pid : Z) (n i : nat) : M mach Z :=
  match n with
  | O => ret (-1)
  | S n' =>
    acquire (LkProc i) ;;
    p <- get_proc i ;;
    if decide (p_pid p = pid) then
      let p1 := p <| p_killed := 1 |> in
      set_proc i (if decide (p_state p = SLEEPING)
                  then p1 <| p_state := RUNNABLE |> else p1) ;;
      release (LkProc i) ;;
      ret 0
    else
      release (LkProc i) ;;
      kkill_from pid n' (S i)
  end.
Definition kkill (pid : Z) : M mach Z := kkill_from pid NPROC 0.

Definition setkilled (i : nat) : M mach unit :=
  acquire (LkProc i) ;;
  upd_proc i (fun p => p <| p_killed := 1 |>) ;;
  release (LkProc i).

Definition killed (i : nat) : M mach Z :=
  acquire (LkProc i) ;;
  p <- get_proc i ;;
  release (LkProc i) ;;
  ret (p_killed p).

(** One iteration of the loop of [reparent]. *)
Definition reparent_one (i pp : nat) : M mach unit :=
  p <- get_proc pp ;;
  if decide (p_parent p = Some i) then
    m <- get ;;
    set_proc pp (p <| p_parent := initproc m |>) ;;
    match initproc m with
    | Some ip => wakeup (ChProc ip)
    | None => wakeup ChNull
    end
  else ret tt.

Definition reparent (i : nat) : M mach unit :=
  mapM_ (reparent_one i) (seq 0 NPROC).

(** ** Start-up

    The zeroed static data a kernel boots with, and [procinit]; [initlock]
    of a static lock leaves it free, which is how it starts. *)
Definition blank_proc : proc :=
  mkproc UNUSED ChNull 0 0 0 None 0 0 0 0 (mkcontext 0 0 (replicate 12 0))
    (replicate NOFILE None) None (replicate 16 0).

Definition mach_boot : mach := mkmach [] (replicate NPROC blank_proc) None 1 None 0 [].

Definition procinit : M mach unit :=
  mapM_ (fun i => upd_proc i (fun p => p <| p_state := UNUSED |>
                                         <| p_kstack := KSTACK (Z.of_nat i) |>))
    (seq 0 NPROC).

(** ** Facts about locks and the table *)

Lemma acquire_ok lk m :
  lk ∉ held m -> acquire lk m = Ok tt (m <| held := lk :: held m |>).
Proof.
  intros. unfold acquire, bind, get. simpl. rewrite decide_False by done. done.
Qed.

Lemma acquire_panic lk m : lk ∈ held m -> acquire lk m = Panic "acquire".
Proof.
  intros. unfold acquire, bind, get. simpl. rewrite decide_True by done. done.
Qed.

Lemma release_ok lk m h :
  held m = lk :: h -> release lk m = Ok tt (m <| held := h |>).
Proof.
  intros H. unfold release, bind, get. simpl. rewrite H.
  rewrite decide_True by set_solver. simpl. rewrite decide_True by done. done.
Qed.

Lemma release_panic lk m : lk ∉ held m -> release lk m = Panic "release".
Proof.
  intros. unfold release, bind, get. simpl. rewrite decide_False by done. done.
Qed.

Lemma get_proc_ok i m p : procs m !! i = Some p -> get_proc i m = Ok p m.
Proof. intros H. unfold get_proc, bind, get, index. simpl. by rewrite H. Qed.

Lemma upd_proc_ok i f m p :
  procs m !! i = Some p ->
  upd_proc i f m = Ok tt (m <| procs := <[i := f p]> (procs m) |>).
Proof. intros H. unfold upd_proc. erewrite bind_ok by by apply get_proc_ok. done. Qed.

Lemma myproc_ok i m : cur m = Some i -> myproc m = Ok i m.
Proof. intros H. unfold myproc, bind, get. simpl. by rewrite H. Qed.

Lemma mypid_ok i m p :
  cur m = Some i -> procs m !! i = Some p -> mypid m = Ok (p_pid p) m.
Proof.
  intros. unfold mypid. erewrite bind_ok by by apply myproc_ok.
  by erewrite bind_ok by by apply get_proc_ok.
Qed.

(** What [wakeup ch], called by [me], does to process number [i]. *)
Definition woken (ch : chan) (me : option nat) (i : nat) (p : proc) : proc :=
  if decide (Some i = me) then p
  else if decide (p_state p = SLEEPING /\ p_chan p = ch)
       then p <| p_state := RUNNABLE |> else p.

(** No other process's lock is held: the precondition of a [wakeup]. *)
Definition plocks_free (m : mach) : Prop :=
  forall i, Some i <> cur m -> LkProc i ∉ held m.

Lemma setf_procs_id m : m <| procs := procs m |> = m.
Proof. by destruct m. Qed.

Lemma wakeup_one_ok ch i m p :
  procs m !! i = Some p -> plocks_free m ->
  wakeup_one ch i m = Ok tt (m <| procs := <[i := woken ch (cur m) i p]> (procs m) |>).
Proof.
  intros Hp Hfree. unfold wakeup_one, woken.
  erewrite bind_ok by done. simpl.
  destruct (decide (Some i = cur m)) as [E|E].
  { rewrite list_insert_id by done. by destruct m. }
  erewrite bind_ok by (by apply acquire_ok, Hfree).
  erewrite bind_ok by (by apply get_proc_ok).
  destruct (decide (p_state p = SLEEPING /\ p_chan p = ch)) as [D|D].
  - rewrite bool_decide_eq_true_2 by done.
    erewrite bind_ok by done. by erewrite release_ok.
  - rewrite bool_decide_eq_false_2 by done.
    erewrite bind_ok by done. erewrite release_ok by done.
    simpl. rewrite list_insert_id by done. by destruct m.
Qed.

Lemma wakeup_range ch n k m :
  plocks_free m -> (k + n <= length (procs m))%nat ->
  exists ps, mapM_ (wakeup_one ch) (seq k n) m = Ok tt (m <| procs := ps |>) /\
    length ps = length (procs m) /\
    forall i, ps !! i = (if decide (k <= i < k + n)%nat
                         then woken ch (cur m) i else id) <$> procs m !! i.
Proof.
  revert k m. induction n as [|n IH]; intros k m Hfree Hlen; simpl.
  - exists (procs m). split_and!; [by destruct m|done|].
    intros i. rewrite decide_False by lia. by destruct (procs m !! i).
  - destruct (lookup_lt_is_Some_2 (procs m) k) as [p Hp]; [lia|].
    erewrite bind_ok by (by apply wakeup_one_ok).
    destruct (IH (S k) (m <| procs := <[k:=woken ch (cur m) k p]> (procs m) |>))
      as (ps & E & L & Hps); [done|simpl; len|].
    exists ps. split_and!; [by rewrite E|rewrite L; simpl; len|].
    intros i. rewrite Hps. simpl. destruct (decide (i = k)) as [->|Hne].
    + rewrite list_lookup_insert_eq by lia. rewrite Hp.
      rewrite decide_False, decide_True by lia. done.
    + rewrite list_lookup_insert_ne by done. repeat case_decide; done || lia.
Qed.

(** The machine after [wakeup ch]. *)
Definition wake (ch : chan) (m : mach) : mach :=
  m <| procs := imap (woken ch (cur m)) (procs m) |>.

(** [wakeup] is a map over the table. *)
Lemma wakeup_ok ch m :
  plocks_free m -> length (procs m) = NPROC ->
  wakeup ch m = Ok tt (wake ch m).
Proof.
  intros Hfree Hlen. unfold wakeup, wake.
  destruct (wakeup_range ch NPROC 0 m) as (ps & -> & L & Hps); [done|lia|].
  do 2 f_equal. apply list_eq. intros i. rewrite Hps, list_lookup_imap.
  destruct (procs m !! i) eqn:E; [|done].
  apply lookup_lt_Some in E. by rewrite decide_True by lia.
Qed.

(** What a thread may see change while it runs kernel code that only wakes
    other processes and prints: some sleeping processes have become runnable,
    messages were added to the console. *)
Record woke (m m' : mach) : Prop := {
  wk_held : held m' = held m;
  wk_cur : cur m' = cur m;
  wk_nextpid : nextpid m' = nextpid m;
  wk_initproc : initproc m' = initproc m;
  wk_ticks : ticks m' = ticks m;
  wk_klog : exists l, klog m' = klog m ++ l;
  wk_procs : forall i, procs m' !! i = procs m !! i \/
    exists p, procs m !! i = Some p /\ p_state p = SLEEPING /\ Some i <> cur m /\
      procs m' !! i = Some (p <| p_state := RUNNABLE |>);
}.

Lemma woke_refl m : woke m m.
Proof. split; auto. exists []. by rewrite app_nil_r. Qed.

Lemma woke_trans m1 m2 m3 : woke m1 m2 -> woke m2 m3 -> woke m1 m3.
Proof.
  intros [h1 c1 n1 i1 t1 [l1 k1] P1] [h2 c2 n2 i2 t2 [l2 k2] P2]. split; try congruence.
  { exists (l1 ++ l2). by rewrite k2, k1, app_assoc. }
  intros i. destruct (P2 i) as [E|(p & E & Hs & Hc & E')].
  - rewrite E. apply P1.
  - destruct (P1 i) as [E1|(q & E1 & Hs1 & Hc1 & E1')].
    + right. exists p. rewrite <- E1, <- c1. done.
    + rewrite E1' in E. injection E as <-. by destruct (p_state q).
Qed.

Lemma woke_wake ch m : woke m (wake ch m).
Proof.
  split; try done.
  { exists []. by rewrite app_nil_r. }
  intros i. simpl. rewrite list_lookup_imap.
  destruct (procs m !! i) as [p|] eqn:E; simpl; [|by left].
  unfold woken. repeat case_decide; try (by left).
  right. exists p. naive_solver.
Qed.

Lemma woke_length m m' : woke m m' -> length (procs m') = length (procs m).
Proof.
  intros H. apply Nat.le_antisymm; apply Nat.nlt_ge; intros Hlt;
    apply lookup_lt_is_Some in Hlt as [p Hp].
  - destruct (wk_procs _ _ H (length (procs m))) as [E|(q & E & _)].
    + rewrite E in Hp. apply lookup_lt_Some in Hp. lia.
    + apply lookup_lt_Some in E. lia.
  - destruct (wk_procs _ _ H (length (procs m'))) as [E|(q & _ & _ & _ & E)].
    + rewrite <- E in Hp. apply lookup_lt_Some in Hp. lia.
    + apply lookup_lt_Some in E. lia.
Qed.

(** A thread of process number [i], pid [pid], with no spin lock held. *)
Definition running (m : mach) (pid : Z) : Prop :=
  held m = [] /\ length (procs m) = NPROC /\
  exists i p, cur m = Some i /\ procs m !! i = Some p /\ p_pid p = pid.

Lemma woke_running m m' pid : woke m m' -> running m pid -> running m' pid.
Proof.
  intros W (Hh & Hl & i & p & Hc & Hp & Hpid). split_and!.
  - by rewrite (wk_held _ _ W).
  - by rewrite (woke_length _ _ W).
  - exists i, p. split_and!; [by rewrite (wk_cur _ _ W)| |done].
    destruct (wk_procs _ _ W i) as [->|(q & _ & _ & Hne & _)]; [done|congruence].
Qed.

Lemma release_second lk lk' m :
  held m = [lk'; lk] -> lk' <> lk -> release lk m = Ok tt (m <| held := [lk'] |>).
Proof.
  intros H Hne. unfold release, bind, get. simpl. rewrite H.
  rewrite decide_True by set_solver. simpl.
  rewrite decide_False, decide_True by done. done.
Qed.

Lemma sched_ok i p m :
  cur m = Some i -> procs m !! i = Some p -> held m = [LkProc i] ->
  p_state p <> RUNNING -> sched m = Swtch m (fun m' => Ok tt m').
Proof.
  intros Hc Hp Hh Hs. unfold sched.
  erewrite bind_ok by (by apply myproc_ok). erewrite bind_ok by done.
  erewrite bind_ok by (by apply get_proc_ok).
  unfold holding. rewrite Hh, bool_decide_eq_true_2 by set_solver.
  simpl. by rewrite decide_False.
Qed.

(** The state in which [sleep ch lk] gives up the processor. *)
Definition asleep (ch : chan) (i : nat) (p : proc) (m : mach) : mach :=
  m <| held := [LkProc i] |>
    <| procs := <[i := p <| p_chan := ch |> <| p_state := SLEEPING |>]> (procs m) |>.

(** Blocking in [sleep] and coming back from it. *)
Lemma sleep_ok ch lk m i p :
  cur m = Some i -> procs m !! i = Some p -> held m = [lk] -> lk <> LkProc i ->
  exists k, sleep ch lk m = Swtch (asleep ch i p m) k /\
    forall m' p', cur m' = Some i -> held m' = [LkProc i] -> procs m' !! i = Some p' ->
      k m' = Ok tt (m' <| held := [lk] |>
                       <| procs := <[i := p' <| p_chan := ChNull |>]> (procs m') |>).
Proof.
  intros Hc Hp Hh Hne. unfold sleep.
  erewrite bind_ok by (by apply myproc_ok).
  erewrite bind_ok by (apply acquire_ok; rewrite Hh; set_solver).
  rewrite Hh. erewrite bind_ok by (by apply release_second).
  erewrite bind_ok by (by apply upd_proc_ok).
  unfold bind at 1. rewrite (sched_ok i (p <| p_chan := ch |> <| p_state := SLEEPING |>));
    [|done| |done|done].
  2: { simpl. apply list_lookup_insert_eq. by eapply lookup_lt_Some. }
  eexists. split; [done|]. intros m' p' Hc' Hh' Hp'. simpl.
  erewrite bind_ok by (by apply upd_proc_ok).
  erewrite bind_ok by (by apply release_ok).
  rewrite acquire_ok by set_solver. done.
Qed.

(** What [kkill] does to its victim. *)
Definition kill_mark (p : proc) : proc :=
  if decide (p_state p = SLEEPING)
  then p <| p_killed := 1 |> <| p_state := RUNNABLE |> else p <| p_killed := 1 |>.

Lemma kkill_from_ok pid n k m :
  (forall i, LkProc i ∉ held m) -> (k + n = length (procs m))%nat ->
  match list_find (fun p => p_pid p = pid) (drop k (procs m)) with
  | Some (j, p) =>
    kkill_from pid n k m = Ok 0 (m <| procs := <[(k + j)%nat := kill_mark p]> (procs m) |>)
  | None => kkill_from pid n k m = Ok (-1) m
  end.
Proof.
  revert k. induction n as [|n IH]; intros k Hh Hlen.
  { by rewrite drop_ge by lia. }
  destruct (lookup_lt_is_Some_2 (procs m) k) as [p Hp]; [lia|].
  rewrite (drop_S _ p) by done. cbn [list_find kkill_from].
  erewrite bind_ok by (by apply acquire_ok).
  erewrite bind_ok by (by apply get_proc_ok).
  destruct (decide (p_pid p = pid)) as [E|E].
  - rewrite Nat.add_0_r. erewrite bind_ok by done.
    erewrite bind_ok by (by apply release_ok). by destruct m.
  - erewrite bind_ok by (by apply release_ok).
    replace (m <| held := _ |> <| held := _ |>) with m by (by destruct m).
    specialize (IH (S k) Hh ltac:(lia)).
    destruct (list_find _ _) as [[j q]|]; cbn; [|done].
    by rewrite Nat.add_succ_r, <- Nat.add_succ_l.
Qed.

(** ** Theorems *)


(** [kkill pid] sets [killed] on the first process with that pid
    and makes it RUNNABLE if it was asleep, returning 0; with no such
    process it changes nothing and returns -1. *)
Theorem kkill_spec pid m :
  (forall i, LkProc i ∉ held m) -> length (procs m) = NPROC ->
  match list_find (fun p => p_pid p = pid) (procs m) with
  | Some (i, p) => kkill pid m = Ok 0 (m <| procs := <[i := kill_mark p]> (procs m) |>)
  | None => kkill pid m = Ok (-1) m
  end.
Proof. intros. by apply (kkill_from_ok pid NPROC 0). Qed.

(** A booted machine on which process 3 runs as pid 7 and process 4, pid 8,
    is asleep on the clock. *)
Definition two_procs : mach :=
  mach_boot <| cur := Some 3%nat |>
    <| procs := <[3%nat := blank_proc <| p_state := RUNNING |> <| p_pid := 7 |>]>
        (<[4%nat := blank_proc <| p_state := SLEEPING |> <| p_chan := ChTicks |>
                      <| p_pid := 8 |>]> (procs mach_boot)) |>.


Lemma kkill_spec_witness :
  (match list_find (fun p => p_pid p = 8) (procs two_procs) with
   | Some (i, p) =>
     kkill 8 two_procs = Ok 0 (two_procs <| procs := <[i := kill_mark p]> (procs two_procs) |>)
   | None => kkill 8 two_procs = Ok (-1) two_procs
   end) /\ fst <$> list_find (fun p => p_pid p = 8) (procs two_procs) = Some 4%nat.
Proof.
  split; [apply kkill_spec|vm_compute; done]; [|vm_compute; done].
  intros i. simpl. set_solver.
Defined.
