(* ===== verification/Spinlock.v ===== *)
(** * Spin locks, [kernel/spinlock.c]

    The lock word, the processors' interrupt-disable nesting and the
    instructions of [acquire] and [release] that other processors can
    interleave with.  [acquire] and [release] are given first as the
    routines one processor runs, then as a step relation in which every
    processor advances one shared access at a time; the invariant of that
    relation gives mutual exclusion and the contract that the rest of the
    kernel uses through [Sched.acquire] and [Sched.release]. *)

From stdpp Require Import base list numbers strings decidable sets gmap functions.
From S2P Require Import Prelude Sched.
Open Scope Z_scope.
Open Scope xv6_scope.

Module Spin.

Record spinlock : Type := mkspinlock {
  locked : Z;  (** is the lock held? *)
  lk_name : string;
  lk_cpu : option nat;  (** the processor holding the lock *)
}.
#[export] Instance set_locked : Setter locked := fun v r => mkspinlock v (lk_name r) (lk_cpu r).
#[export] Instance set_lk_name : Setter lk_name := fun v r => mkspinlock (locked r) v (lk_cpu r).
#[export] Instance set_lk_cpu : Setter lk_cpu := fun v r => mkspinlock (locked r) (lk_name r) v.

(** Where a processor is inside [acquire] or [release]: idle, spinning on
    the test-and-set, past it but [lk->cpu] not yet recorded, or with
    [lk->cpu] cleared and the lock word not yet released. *)
Inductive phase : Set :=
| Idle | Spinning (lk : lockid) | Got (lk : lockid) | Releasing (lk : lockid).

(** The part of [struct cpu] the locks use, the interrupt-enable bit of
    [sstatus], and, for the statements, the locks whose [acquire] has
    returned on this processor. *)
Record cpu : Type := mkcpu {
  noff : Z;
  intena : bool;
  sie : bool;
  at_phase : phase;
  own : list lockid;
}.
#[export] Instance set_noff : Setter noff := fun v r => mkcpu v (intena r) (sie r) (at_phase r) (own r).
#[export] Instance set_intena : Setter intena := fun v r => mkcpu (noff r) v (sie r) (at_phase r) (own r).
#[export] Instance set_sie : Setter sie := fun v r => mkcpu (noff r) (intena r) v (at_phase r) (own r).
#[export] Instance set_at_phase : Setter at_phase := fun v r => mkcpu (noff r) (intena r) (sie r) v (own r).
#[export] Instance set_own : Setter own := fun v r => mkcpu (noff r) (intena r) (sie r) (at_phase r) v.

Record spin : Type := mkspin {
  locks : lockid -> spinlock;
  cpus : nat -> cpu;
}.
#[export] Instance set_locks : Setter locks := fun v r => mkspin v (cpus r).
#[export] Instance set_cpus : Setter cpus := fun v r => mkspin (locks r) v.

Definition upd_cpu (c : nat) (f : cpu -> cpu) : M spin unit :=
  modify (fun s => s <| cpus := <[c := f (cpus s c)]> (cpus s) |>).
Definition upd_lock (lk : lockid) (f : spinlock -> spinlock) : M spin unit :=
  modify (fun s => s <| locks := <[lk := f (locks s lk)]> (locks s) |>).

Definition initlock (lk : lockid) (name : string) : M spin unit :=
  upd_lock lk (fun _ => mkspinlock 0 name None).

Definition intr_get (c : nat) (s : spin) : bool := sie (cpus s c).

(** [holding(lk)] on processor [c]. *)
Definition holding (c : nat) (lk : lockid) (s : spin) : bool :=
  negb (locked (locks s lk) =? 0) && bool_decide (lk_cpu (locks s lk) = Some c).

(** What [push_off] does to this processor's record: save [intr_get()] when
    the nesting starts, turn interrupts off, count one level more. *)
Definition pushed (k : cpu) : cpu :=
  let old := sie k in
  let k := k <| sie := false |> in
  let k := if noff k =? 0 then k <| intena := old |> else k in
  k <| noff := s32 (noff k + 1) |>.

Definition push_off (c : nat) : M spin unit := upd_cpu c pushed.

(** What [pop_off] does to it once past its two tests. *)
Definition popped (k : cpu) : cpu :=
  let k := k <| noff := s32 (noff k - 1) |> in
  if (noff k =? 0) && intena k then k <| sie := true |> else k.

Definition pop_off (c : nat) : M spin unit :=
  s <- get ;;
  if intr_get c s then panic "pop_off - interruptible"
  else if noff (cpus s c) <? 1 then panic "pop_off"
  else upd_cpu c popped.

(** The accesses of [acquire], each one step for the other processors:
    everything up to the loop, one test-and-set, and the assignment of
    [lk->cpu]. *)
Definition acquire_enter (c : nat) (lk : lockid) : M spin unit :=
  push_off c ;;
  s <- get ;;
  if holding c lk s then panic "acquire"
  else upd_cpu c (fun k => k <| at_phase := Spinning lk |>).

(** [__sync_lock_test_and_set(&lk->locked, 1)]: the old value. *)
Definition test_and_set (c : nat) (lk : lockid) : M spin Z :=
  s <- get ;;
  let old := locked (locks s lk) in
  upd_lock lk (fun l => l <| locked := 1 |>) ;;
  when (old =? 0) (upd_cpu c (fun k => k <| at_phase := Got lk |>)) ;;
  ret old.

Definition acquire_exit (c : nat) (lk : lockid) : M spin unit :=
  upd_lock lk (fun l => l <| lk_cpu := Some c |>) ;;
  upd_cpu c (fun k => k <| own := lk :: own k |> <| at_phase := Idle |>).

Fixpoint acquire_spin (fuel : nat) (c : nat) (lk : lockid) : M spin unit :=
  match fuel with
  | O => out_of_fuel
  | S n => old <- test_and_set c lk ;;
           if old =? 0 then ret tt else acquire_spin n c lk
  end.

Definition acquire (fuel : nat) (c : nat) (lk : lockid) : M spin unit :=
  acquire_enter c lk ;; acquire_spin fuel c lk ;; acquire_exit c lk.

(** The two accesses of [release]. *)
Definition release_enter (c : nat) (lk : lockid) : M spin unit :=
  s <- get ;;
  if holding c lk s then
    upd_lock lk (fun l => l <| lk_cpu := None |>) ;;
    upd_cpu c (fun k => k <| own := remove_lock lk (own k) |>
                          <| at_phase := Releasing lk |>)
  else panic "release".

Definition release_exit (c : nat) (lk : lockid) : M spin unit :=
  upd_lock lk (fun l => l <| locked := 0 |>) ;;
  upd_cpu c (fun k => k <| at_phase := Idle |>) ;;
  pop_off c.

Definition release (c : nat) (lk : lockid) : M spin unit :=
  release_enter c lk ;; release_exit c lk.

(** ** Interleaved execution *)

(** What processor [c] does next: start an [acquire] or a [release] when
    idle, otherwise go on with the one it is in. *)
Inductive step (c : nat) : spin -> spin -> Prop :=
| step_acquire lk s s' : at_phase (cpus s c) = Idle ->
    acquire_enter c lk s = Ok tt s' -> step c s s'
| step_tas lk old s s' : at_phase (cpus s c) = Spinning lk ->
    test_and_set c lk s = Ok old s' -> step c s s'
| step_got lk s s' : at_phase (cpus s c) = Got lk ->
    acquire_exit c lk s = Ok tt s' -> step c s s'
| step_release lk s s' : at_phase (cpus s c) = Idle ->
    release_enter c lk s = Ok tt s' -> step c s s'
| step_releasing lk s s' : at_phase (cpus s c) = Releasing lk ->
    release_exit c lk s = Ok tt s' -> step c s s'
| step_intr_on s s' : at_phase (cpus s c) = Idle -> noff (cpus s c) = 0 ->
    upd_cpu c (fun k => k <| sie := true |>) s = Ok tt s' -> step c s s'.

(** Every lock free, every processor idle, as the boot code leaves them. *)
Definition boot (s : spin) : Prop :=
  (forall lk, locked (locks s lk) = 0 /\ lk_cpu (locks s lk) = None) /\
  (forall c, own (cpus s c) = [] /\ at_phase (cpus s c) = Idle /\ noff (cpus s c) = 0).

Inductive reachable : spin -> Prop :=
| reach_boot s : boot s -> reachable s
| reach_step c s s' : reachable s -> (c < NCPU)%nat -> step c s s' ->
    (* the nesting depth stays far below the range of an int *)
    noff (cpus s c) < 2 ^ 30 -> reachable s'.

(** Processor [c] is past the test-and-set for [lk] and has not yet
    cleared the lock word. *)
Definition has (s : spin) (c : nat) (lk : lockid) : Prop :=
  lk ∈ own (cpus s c) \/ at_phase (cpus s c) = Got lk \/
  at_phase (cpus s c) = Releasing lk.

Definition depth (k : cpu) : Z :=
  Z.of_nat (length (own k)) + match at_phase k with Idle => 0 | _ => 1 end.

Record inv (s : spin) : Prop := {
  inv_word : forall lk, locked (locks s lk) = 0 \/ locked (locks s lk) = 1;
  inv_free : forall lk c, locked (locks s lk) = 0 -> ~ has s c lk;
  inv_excl : forall lk c c', has s c lk -> has s c' lk -> c = c';
  inv_cpu : forall lk c, lk_cpu (locks s lk) = Some c <-> lk ∈ own (cpus s c);
  inv_got : forall lk c, at_phase (cpus s c) = Got lk \/ at_phase (cpus s c) = Releasing lk ->
    lk ∉ own (cpus s c) /\ lk_cpu (locks s lk) = None;
  inv_nodup : forall c, NoDup (own (cpus s c));
  inv_noff : forall c, noff (cpus s c) = depth (cpus s c);
  inv_sie : forall c, 0 < noff (cpus s c) -> sie (cpus s c) = false;
}.

(** ** The invariant holds in every reachable state *)

Lemma boot_inv s : boot s -> inv s.
Proof.
  intros [Hl Hc]. unfold has.
  assert (forall c, own (cpus s c) = []) as Ho by apply Hc.
  assert (forall c, at_phase (cpus s c) = Idle) as Hp by apply Hc.
  constructor; intros.
  - left. apply Hl.
  - unfold has. rewrite Ho, Hp. intros [?|[?|?]]; [set_solver|done|done].
  - unfold has in *. rewrite Ho, Hp in *. set_solver.
  - rewrite Ho, (proj2 (Hl lk)). split; [done|set_solver].
  - rewrite Hp in *. naive_solver.
  - rewrite Ho. constructor.
  - unfold depth. rewrite Ho, Hp. simpl. apply Hc.
  - specialize (Hc c). lia.
Qed.

(** Evaluate the updated tables at the processor and lock in question. *)
Ltac at_tables :=
  unfold upd_cpu, upd_lock, modify, put, ret, when in *; simpl in *;
  unfold insert, fn_insert in *; simpl in *.

Lemma remove_lock_elem lk x l : NoDup l -> x ∈ remove_lock lk l <-> x ∈ l /\ x <> lk.
Proof.
  induction 1 as [|y l Hy Hl IH]; simpl; [set_solver|].
  case_decide; subst; [set_solver|]. rewrite !elem_of_cons, IH. set_solver.
Qed.

Lemma remove_lock_nodup lk l : NoDup l -> NoDup (remove_lock lk l).
Proof.
  induction 1 as [|y l Hy Hl IH]; simpl; [constructor|].
  case_decide; [done|]. constructor; [|done].
  rewrite remove_lock_elem by done. naive_solver.
Qed.

Lemma remove_lock_length lk l : lk ∈ l -> S (length (remove_lock lk l)) = length l.
Proof.
  induction l as [|y l IH]; [set_solver|]. intros H. simpl.
  case_decide; [done|]. simpl. rewrite IH; [done|set_solver].
Qed.

(** The state reached when processor [c]'s record becomes [k] and lock
    [lk]'s word becomes [l]. *)
Definition touch (s : spin) (c : nat) (k : cpu) (lk : lockid) (l : spinlock) : spin :=
  mkspin (<[lk := l]> (locks s)) (<[c := k]> (cpus s)).

(** What [c]'s record says about [lk]. *)
Definition khas (k : cpu) (lk : lockid) : Prop :=
  lk ∈ own k \/ at_phase k = Got lk \/ at_phase k = Releasing lk.

(** The conditions on the new records under which the invariant carries
    over. *)
Record touch_ok (s : spin) (c : nat) (k : cpu) (lk : lockid) (l : spinlock) : Prop := {
  to_word : locked l = 0 \/ locked l = 1;
  to_others : forall lk', lk' <> lk -> khas k lk' -> has s c lk';
  to_own : forall lk', lk' <> lk -> lk' ∈ own k <-> lk' ∈ own (cpus s c);
  to_free : locked l = 0 -> ~ khas k lk /\ forall c', c' <> c -> ~ has s c' lk;
  to_excl : khas k lk -> forall c', c' <> c -> ~ has s c' lk;
  to_cpu : lk_cpu l = Some c <-> lk ∈ own k;
  to_cpu_other : forall c', c' <> c -> lk_cpu l = Some c' <-> lk ∈ own (cpus s c');
  to_got : forall lk', at_phase k = Got lk' \/ at_phase k = Releasing lk' ->
    lk' = lk /\ lk ∉ own k /\ lk_cpu l = None;
  to_got_other : forall c', c' <> c ->
    at_phase (cpus s c') = Got lk \/ at_phase (cpus s c') = Releasing lk -> lk_cpu l = None;
  to_nodup : NoDup (own k);
  to_noff : noff k = depth k;
  to_sie : 0 < noff k -> sie k = false;
}.

Lemma touch_inv s c k lk l : inv s -> touch_ok s c k lk l -> inv (touch s c k lk l).
Proof.
  intros I T. pose proof (to_others _ _ _ _ _ T) as To.
  assert (Hhas : forall c' lk', has (touch s c k lk l) c' lk' <->
      if decide (c = c') then khas k lk' else has s c' lk').
  { intros. unfold touch, has, khas, insert, fn_insert. simpl.
    repeat case_decide; subst; naive_solver. }
  constructor; intros.
  - unfold touch, insert, fn_insert. simpl. case_decide; [apply T|apply I].
  - rewrite Hhas. revert H. unfold touch, insert, fn_insert. simpl. intros H.
    destruct (decide (lk = lk0)) as [<-|Hne].
    + pose proof (to_free _ _ _ _ _ T H) as [K1 K2]. case_decide; subst; auto.
    + case_decide; subst; [|by apply I]. intros K. eapply I; eauto.
  - revert H H0. rewrite !Hhas. intros H H0.
    destruct (decide (lk0 = lk)) as [->|Hne].
    + repeat case_decide; subst; try done; try (by eapply I).
      * by destruct (to_excl _ _ _ _ _ T H c').
      * by destruct (to_excl _ _ _ _ _ T H0 c0).
    + repeat case_decide; subst; try done; eapply I; eauto.
  - unfold touch, insert, fn_insert. simpl.
    repeat case_decide; subst; try (by apply T); try (by apply I).
    rewrite (to_own _ _ _ _ _ T) by done. apply I.
  - revert H. unfold touch, insert, fn_insert. simpl.
    destruct (decide (c = c0)) as [->|Hne]; intros H.
    + destruct (to_got _ _ _ _ _ T _ H) as (-> & ? & ?). by rewrite decide_True.
    + case_decide; subst.
      * split; [eapply (inv_got _ I); eauto|].
        eapply (to_got_other _ _ _ _ _ T c0); [congruence|done].
      * by apply (inv_got _ I).
  - unfold touch, insert, fn_insert. simpl. case_decide; [apply T|apply I].
  - unfold touch, insert, fn_insert. simpl. case_decide; [apply T|apply I].
  - revert H. unfold touch, insert, fn_insert. simpl. case_decide; [apply T|apply I].
Qed.

(** States are compared up to pointwise equality of their tables. *)
#[export] Instance spin_equiv : Equiv spin := fun s s' =>
  (forall lk, locks s lk = locks s' lk) /\ (forall c, cpus s c = cpus s' c).

#[export] Instance inv_proper : Proper ((≡) ==> impl) inv.
Proof.
  intros s s' [El Ec] I.
  assert (Hh : forall c lk, has s' c lk <-> has s c lk).
  { intros. unfold has. by rewrite Ec. }
  constructor; intros *; rewrite <- ?El, <- ?Ec, ?Hh; apply I.
Qed.

Lemma inv_touch s c k lk l s' :
  inv s -> touch_ok s c k lk l -> touch s c k lk l ≡ s' -> inv s'.
Proof. intros I T <-. by apply touch_inv. Qed.

Ltac same_tables :=
  split; intros ?; unfold touch; simpl; unfold insert, fn_insert;
  repeat case_decide; subst; try done.

Lemma holding_own s c lk : inv s -> holding c lk s = true <-> lk ∈ own (cpus s c).
Proof.
  intros I. unfold holding. rewrite <- (inv_cpu _ I).
  rewrite andb_true_iff, bool_decide_eq_true, negb_true_iff, Z.eqb_neq.
  split; [by intros [_ ?]|]. intros H. split; [|done].
  intros E. apply (inv_free _ I lk c E). left. by apply (inv_cpu _ I).
Qed.

Lemma pushed_fields k :
  own (pushed k) = own k /\ at_phase (pushed k) = at_phase k /\
  sie (pushed k) = false /\ noff (pushed k) = s32 (noff k + 1).
Proof. unfold pushed. simpl. by destruct (noff k =? 0). Qed.

Lemma depth_nonneg k : 0 <= depth k.
Proof. unfold depth. destruct (at_phase k); lia. Qed.

Lemma acquire_enter_inv c lk s s' :
  inv s -> at_phase (cpus s c) = Idle -> noff (cpus s c) < 2 ^ 30 ->
  acquire_enter c lk s = Ok tt s' -> inv s'.
Proof.
  intros I Hp Hn. unfold acquire_enter, push_off, upd_cpu, bind, modify, get. simpl.
  destruct (holding _ _ _); [done|]. intros [= <-].
  pose proof (pushed_fields (cpus s c)) as (Ho & Ha & Hs & Hf).
  pose proof (depth_nonneg (cpus s c)) as Hd. rewrite <- (inv_noff _ I) in Hd.
  apply (inv_touch s c (pushed (cpus s c) <| at_phase := Spinning lk |>) lk (locks s lk));
    [done| |same_tables].
  revert Ho Ha Hs Hf. generalize (pushed (cpus s c)) as k0. intros k0 Ho Ha Hs Hf.
  constructor; unfold khas; simpl; rewrite ?Ho, ?Hs, ?Hf.
  - apply I.
  - intros lk' _ [?|[?|?]]; [by left|done|done].
  - done.
  - intros E. split; [|by intros; apply I].
    intros [?|[?|?]]; [|done|done]. apply (inv_free _ I lk c); [done|by left].
  - intros [?|[?|?]] c' Hne H'; [|done|done].
    apply Hne. by apply (inv_excl _ I lk c' c); [|left].
  - apply I.
  - intros. apply I.
  - by intros lk' [?|?].
  - intros c' _ H. by apply (inv_got _ I) in H as [_ ?].
  - apply I.
  - unfold depth. simpl. rewrite Ho, s32_small by lia.
    rewrite (inv_noff _ I). unfold depth. rewrite Hp. lia.
  - done.
Qed.

Lemma test_and_set_inv c lk old s s' :
  inv s -> at_phase (cpus s c) = Spinning lk ->
  test_and_set c lk s = Ok old s' -> inv s'.
Proof.
  intros I Hp. unfold test_and_set, bind, get, upd_lock, upd_cpu, modify, ret. simpl.
  assert (Hno : lk ∈ own (cpus s c) -> locked (locks s lk) <> 0).
  { intros H E. apply (inv_free _ I lk c E). by left. }
  destruct (Z.eqb_spec (locked (locks s lk)) 0) as [E|E]; intros [= <- <-].
  - apply (inv_touch s c (cpus s c <| at_phase := Got lk |>) lk (locks s lk <| locked := 1 |>));
      [done| |same_tables].
    assert (lk ∉ own (cpus s c)) as Hout by naive_solver.
    constructor; unfold khas; simpl; try (by apply I); try naive_solver.
    + intros lk' Hne [?|[?|?]]; [by left|congruence|done].
    + intros _ c' _. by apply I.
    + intros c' _. apply I.
    + intros lk' [[= <-]|?]; [|done]. split_and!; [done|done|].
      destruct (lk_cpu (locks s lk)) as [c'|] eqn:Ec; [|done].
      apply (inv_cpu _ I) in Ec. destruct (inv_free _ I lk c' E). by left.
    + intros c' _ H. by apply (inv_got _ I) in H as [_ ?].
    + rewrite (inv_noff _ I). unfold depth. simpl. by rewrite Hp.
  - apply (inv_touch s c (cpus s c) lk (locks s lk <| locked := 1 |>));
      [done| |same_tables].
    constructor; unfold khas; simpl; try (by apply I); try done; try naive_solver.
    + intros H c' Hne H'. apply Hne. by apply (inv_excl _ I lk c' c).
    + intros c' _. apply I.
    + intros lk' H. rewrite Hp in H. by destruct H.
    + intros c' _ H. by apply (inv_got _ I) in H as [_ ?].
Qed.

Lemma acquire_exit_inv c lk s s' :
  inv s -> at_phase (cpus s c) = Got lk ->
  acquire_exit c lk s = Ok tt s' -> inv s'.
Proof.
  intros I Hp. unfold acquire_exit, bind, upd_lock, upd_cpu, modify. simpl. intros [= <-].
  apply (inv_touch s c (cpus s c <| own := lk :: own (cpus s c) |> <| at_phase := Idle |>)
    lk (locks s lk <| lk_cpu := Some c |>)); [done| |same_tables].
  assert (has s c lk) as Hc by (right; by left).
  destruct (inv_got _ I lk c) as [Hn _]; [by left|].
  constructor; unfold khas; simpl; try (by apply I); try done.
  - intros lk' Hne [?|[?|?]]; [|done|done]. left. set_solver.
  - set_solver.
  - intros E. by destruct (inv_free _ I lk c E).
  - intros _ c' Hne H'. apply Hne. by apply (inv_excl _ I lk c' c).
  - split; [set_solver|done].
  - intros c' Hne. split; [congruence|]. intros H'.
    destruct Hne. apply (inv_excl _ I lk c' c); [by left|done].
  - intros lk' H. by destruct H.
  - intros c' Hne H'. destruct Hne. apply (inv_excl _ I lk c' c); [|done].
    unfold has. tauto.
  - constructor; [done|apply I].
  - rewrite (inv_noff _ I). unfold depth. simpl. rewrite Hp. lia.
Qed.

Lemma release_enter_inv c lk s s' :
  inv s -> at_phase (cpus s c) = Idle ->
  release_enter c lk s = Ok tt s' -> inv s'.
Proof.
  intros I Hp. unfold release_enter, bind, get, upd_lock, upd_cpu, modify. simpl.
  destruct (holding c lk s) eqn:Eh; [|done]. intros [= <-].
  apply holding_own in Eh; [|done].
  pose proof (inv_nodup _ I c) as Hnd.
  pose proof (remove_lock_elem lk lk _ Hnd) as Hout.
  apply (inv_touch s c (cpus s c <| own := remove_lock lk (own (cpus s c)) |>
    <| at_phase := Releasing lk |>) lk (locks s lk <| lk_cpu := None |>)); [done| |same_tables].
  assert (has s c lk) as Hc by by left.
  constructor; unfold khas; simpl; try (by apply I); try done.
  - intros lk' Hne [H|[?|?]]; [|done|congruence]. left.
    by apply remove_lock_elem in H as [? _].
  - intros lk' Hne. rewrite remove_lock_elem by done. naive_solver.
  - intros E. by destruct (inv_free _ I lk c E).
  - intros _ c' Hne H'. apply Hne. by apply (inv_excl _ I lk c' c).
  - split; [done|]. naive_solver.
  - intros c' Hne. split; [done|]. intros H'.
    destruct Hne. apply (inv_excl _ I lk c' c); [by left|done].
  - intros lk' [?|[= <-]]; [done|]. naive_solver.
  - by apply remove_lock_nodup.
  - rewrite (inv_noff _ I). unfold depth. simpl. rewrite Hp.
    pose proof (remove_lock_length lk _ Eh). lia.
Qed.

Lemma popped_fields k :
  own (popped k) = own k /\ at_phase (popped k) = at_phase k /\
  noff (popped k) = s32 (noff k - 1) /\
  (noff (popped k) <> 0 -> sie (popped k) = sie k).
Proof.
  unfold popped. simpl. destruct (Z.eqb_spec (s32 (noff k - 1)) 0), (intena k); done.
Qed.

(** A processor that is in the middle of a [release] has its interrupts
    off and a positive depth, so [pop_off] returns. *)
Lemma pop_off_ok c s :
  sie (cpus s c) = false -> 1 <= noff (cpus s c) ->
  pop_off c s = Ok tt (s <| cpus := <[c := popped (cpus s c)]> (cpus s) |>).
Proof.
  intros Hs Hn. unfold pop_off, bind, get, intr_get. simpl. rewrite Hs.
  destruct (Z.ltb_spec (noff (cpus s c)) 1); [lia|]. done.
Qed.

Lemma release_exit_ok c lk s :
  inv s -> at_phase (cpus s c) = Releasing lk ->
  release_exit c lk s = Ok tt
    (mkspin (<[lk := locks s lk <| locked := 0 |>]> (locks s))
       (<[c := popped (cpus s c <| at_phase := Idle |>)]>
          (<[c := cpus s c <| at_phase := Idle |>]> (cpus s)))).
Proof.
  intros I Hp. unfold release_exit.
  assert (1 <= noff (cpus s c)).
  { rewrite (inv_noff _ I). unfold depth. rewrite Hp. lia. }
  erewrite bind_ok by done. erewrite bind_ok by done.
  rewrite pop_off_ok; simpl; rewrite fn_lookup_insert; simpl; [done| |done].
  apply (inv_sie _ I). lia.
Qed.

Lemma release_exit_inv c lk s s' :
  inv s -> at_phase (cpus s c) = Releasing lk -> noff (cpus s c) < 2 ^ 30 ->
  release_exit c lk s = Ok tt s' -> inv s'.
Proof.
  intros I Hp Hn. rewrite (release_exit_ok c lk s I Hp). intros [= <-].
  destruct (inv_got _ I lk c) as [Hout Hcpu]; [by right|].
  assert (1 <= noff (cpus s c)).
  { rewrite (inv_noff _ I). unfold depth. rewrite Hp. lia. }
  assert (has s c lk) as Hc by (right; by right).
  pose proof (popped_fields (cpus s c <| at_phase := Idle |>)) as (Ho & Ha & Hf & Hs).
  apply (inv_touch s c (popped (cpus s c <| at_phase := Idle |>)) lk
    (locks s lk <| locked := 0 |>)); [done| |same_tables].
  revert Ho Ha Hs Hf. simpl. generalize (popped (cpus s c <| at_phase := Idle |>)) as k0.
  intros k0 Ho Ha Hs Hf.
  constructor; unfold khas; simpl; rewrite ?Ho, ?Ha; try done; try (by apply I).
  - by left.
  - intros lk' _ [?|[?|?]]; [by left|done|done].
  - intros _. split.
    + by intros [?|[?|?]].
    + intros c' Hne H'. apply Hne. by apply (inv_excl _ I lk c' c).
  - intros [?|[?|?]]; done.
  - intros c' Hne. apply I.
  - intros lk' H'. by destruct H'.
  - rewrite Hf. rewrite s32_small by lia. rewrite (inv_noff _ I). unfold depth.
    rewrite Hp, Ho, Ha. lia.
  - intros H'. rewrite Hs by lia. apply (inv_sie _ I). lia.
Qed.

Lemma intr_on_inv c s s' :
  inv s -> noff (cpus s c) = 0 ->
  upd_cpu c (fun k => k <| sie := true |>) s = Ok tt s' -> inv s'.
Proof.
  intros I Hn. unfold upd_cpu, modify. intros [= <-].
  apply (inv_touch s c (cpus s c <| sie := true |>) LkKmem (locks s LkKmem));
    [done| |same_tables].
  constructor; unfold khas; simpl; try done; try (by apply I).
  - intros E. split; [by apply (inv_free _ I)|]. intros; by apply I.
  - intros H c' Hne H'. apply Hne. by apply (inv_excl _ I LkKmem c' c).
  - intros; apply I.
  - intros lk' H'. exfalso. pose proof (inv_noff _ I c) as E. unfold depth in E.
    destruct H' as [H'|H']; rewrite H' in E; lia.
  - intros c' _ H'. by apply (inv_got _ I) in H' as [_ ?].
  - lia.
Qed.

Lemma reachable_inv s : reachable s -> inv s.
Proof.
  induction 1 as [s B|c s s' _ I _ St Hn]; [by apply boot_inv|].
  destruct St.
  - by eapply acquire_enter_inv.
  - by eapply test_and_set_inv.
  - by eapply acquire_exit_inv.
  - by eapply release_enter_inv.
  - by eapply release_exit_inv.
  - by eapply intr_on_inv.
Qed.

(** ** What the rest of the kernel relies on *)

(** Processor [c], idle, owns exactly the locks the machine state [m] of
    its thread says it holds. *)
Definition agrees (s : spin) (c : nat) (m : mach) : Prop :=
  inv s /\ at_phase (cpus s c) = Idle /\ own (cpus s c) = held m /\
  noff (cpus s c) < 2 ^ 30.

Lemma not_holding s c lk : inv s -> lk ∉ own (cpus s c) -> holding c lk s = false.
Proof.
  intros I H. destruct (holding c lk s) eqn:E; [|done]. by apply holding_own in E.
Qed.

Lemma holding_push c lk s k :
  holding c lk (s <| cpus := k |>) = holding c lk s.
Proof. done. Qed.

Lemma acquire_steps fuel c lk s :
  inv s -> lk ∉ own (cpus s c) -> locked (locks s lk) = 0 ->
  exists s1 s2 s3, acquire_enter c lk s = Ok tt s1 /\
    at_phase (cpus s1 c) = Spinning lk /\ test_and_set c lk s1 = Ok 0 s2 /\
    at_phase (cpus s2 c) = Got lk /\ acquire_exit c lk s2 = Ok tt s3 /\
    acquire (S fuel) c lk s = Ok tt s3 /\ own (cpus s3 c) = lk :: own (cpus s c) /\
    at_phase (cpus s3 c) = Idle /\ noff (cpus s3 c) = s32 (noff (cpus s c) + 1).
Proof.
  intros I Hout Hfree.
  pose proof (pushed_fields (cpus s c)) as (Ho & _ & _ & Hf).
  set (s1 := mkspin (locks s) (<[c := pushed (cpus s c) <| at_phase := Spinning lk |>]>
    (<[c := pushed (cpus s c)]> (cpus s)))).
  assert (E1 : acquire_enter c lk s = Ok tt s1).
  { unfold acquire_enter, push_off, upd_cpu, bind, get, modify. simpl.
    rewrite holding_push, not_holding by done. simpl. by rewrite fn_lookup_insert. }
  set (s2 := mkspin (<[lk := locks s lk <| locked := 1 |>]> (locks s))
    (<[c := cpus s1 c <| at_phase := Got lk |>]> (cpus s1))).
  assert (E2 : test_and_set c lk s1 = Ok 0 s2).
  { unfold test_and_set, bind, get, upd_lock, modify, s1. simpl. by rewrite Hfree. }
  set (s3 := mkspin (<[lk := locks s2 lk <| lk_cpu := Some c |>]> (locks s2))
    (<[c := cpus s2 c <| own := lk :: own (cpus s2 c) |> <| at_phase := Idle |>]> (cpus s2))).
  assert (E3 : acquire_exit c lk s2 = Ok tt s3) by done.
  assert (P1 : cpus s1 c = pushed (cpus s c) <| at_phase := Spinning lk |>).
  { unfold s1. simpl. by rewrite fn_lookup_insert. }
  assert (P2 : cpus s2 c = cpus s1 c <| at_phase := Got lk |>).
  { unfold s2. simpl. by rewrite fn_lookup_insert. }
  assert (P3 : cpus s3 c = cpus s2 c <| own := lk :: own (cpus s2 c) |> <| at_phase := Idle |>).
  { unfold s3. simpl. by rewrite fn_lookup_insert. }
  exists s1, s2, s3. split_and!; [done|by rewrite P1|done|by rewrite P2|done| | | |].
  - unfold acquire. erewrite bind_ok by exact E1. unfold bind at 1. cbn [acquire_spin].
    erewrite bind_ok by exact E2. exact E3.
  - rewrite P3. transitivity (lk :: own (cpus s2 c)); [done|].
    rewrite P2, P1. f_equal. exact Ho.
  - by rewrite P3.
  - rewrite P3, P2, P1. exact Hf.
Qed.

Lemma acquire_refines fuel c lk s m :
  agrees s c m -> (lk ∉ held m -> locked (locks s lk) = 0) -> noff (cpus s c) < 2 ^ 29 ->
  match Sched.acquire lk m with
  | Ok _ m' => exists s', acquire (S fuel) c lk s = Ok tt s' /\ agrees s' c m'
  | Panic msg => acquire (S fuel) c lk s = Panic msg
  | _ => False
  end.
Proof.
  intros (I & Hp & Ho & Hn) Hfree Hn'.
  pose proof (depth_nonneg (cpus s c)) as Hd. rewrite <- (inv_noff _ I) in Hd.
  destruct (decide (lk ∈ held m)) as [H|H].
  - rewrite acquire_panic by done. rewrite <- Ho in H.
    unfold acquire. apply bind_panic.
    unfold acquire_enter, push_off, upd_cpu, bind, get, modify. simpl.
    rewrite holding_push. by rewrite (proj2 (holding_own s c lk I) H).
  - rewrite Sched.acquire_ok by done.
    destruct (acquire_steps fuel c lk s) as
      (s1 & s2 & s3 & E1 & P1 & E2 & P2 & E3 & E & O & P & N); [done|by rewrite Ho|auto|].
    exists s3. split; [done|]. rewrite s32_small in N by lia.
    split_and!; [|done|by rewrite O, Ho|lia].
    eapply acquire_exit_inv; [|done|done]. eapply test_and_set_inv; [|done|done].
    by eapply acquire_enter_inv.
Qed.

Lemma release_refines c lk s m :
  agrees s c m ->
  match Sched.release lk m with
  | Ok _ m' => exists s', release c lk s = Ok tt s' /\ agrees s' c m'
  | Panic msg => release c lk s = Panic msg
  | _ => False
  end.
Proof.
  intros (I & Hp & Ho & Hn). unfold Sched.release, release, release_enter, bind, get. simpl.
  destruct (decide (lk ∈ held m)) as [H|H]; rewrite <- Ho in H.
  - pose proof (proj2 (holding_own s c lk I) H) as Hh. rewrite Hh. simpl.
    set (k := cpus s c <| own := remove_lock lk (own (cpus s c)) |>
                       <| at_phase := Releasing lk |>).
    set (s1 := mkspin (<[lk := locks s lk <| lk_cpu := None |>]> (locks s))
                 (<[c := k]> (cpus s))).
    assert (E1 : release_enter c lk s = Ok tt s1).
    { unfold release_enter, bind, get. simpl. by rewrite Hh. }
    pose proof (release_enter_inv c lk s s1 I Hp E1) as I1.
    assert (P1 : at_phase (cpus s1 c) = Releasing lk).
    { unfold s1. simpl. by rewrite fn_lookup_insert. }
    pose proof (release_exit_ok c lk s1 I1 P1) as E2.
    pose proof (depth_nonneg (cpus s c)) as Hd. rewrite <- (inv_noff _ I) in Hd.
    assert (noff (cpus s1 c) = noff (cpus s c)) as N1.
    { unfold s1. simpl. by rewrite fn_lookup_insert. }
    match type of E2 with _ = Ok _ ?x => set (s2 := x) in * end.
    pose proof (release_exit_inv c lk s1 s2 I1 P1 ltac:(lia) E2) as I2.
    assert (C2 : cpus s2 c = popped (cpus s1 c <| at_phase := Idle |>)).
    { apply fn_lookup_insert. }
    assert (O1 : own (cpus s1 c) = remove_lock lk (held m)).
    { unfold s1. cbn [cpus]. rewrite fn_lookup_insert. by rewrite <- Ho. }
    pose proof (popped_fields (cpus s1 c <| at_phase := Idle |>)) as (O2 & P2 & N2 & _).
    exists s2. split; [exact E2|]. unfold agrees. rewrite C2, O2, P2, N2.
    split_and!; [done|done|exact O1|].
    transitivity (noff (cpus s c)); [|done].
    change (s32 (noff (cpus s1 c) - 1) < noff (cpus s c)). rewrite N1.
    rewrite s32_small by lia. lia.
  - by rewrite not_holding.
Qed.

(** ** Theorems *)

(** C16: mutual exclusion.  However the processors interleave, two
    processors are never both between a returned [acquire lk] and the
    matching [release lk]; the one that is has its interrupts off and
    [holding] tells it so. *)
Theorem spin_mutual_exclusion s lk c c' :
  reachable s -> lk ∈ own (cpus s c) -> lk ∈ own (cpus s c') ->
  c = c' /\ sie (cpus s c) = false /\ holding c lk s = true.
Proof.
  intros R H H'. pose proof (reachable_inv s R) as I. split_and!.
  - by apply (inv_excl _ I lk); left.
  - apply (inv_sie _ I). rewrite (inv_noff _ I). unfold depth.
    destruct (own (cpus s c)); [set_solver|]. simpl. destruct (at_phase _); lia.
  - by apply holding_own.
Qed.

(** The state at boot, and processor 0 having taken one lock. *)
Definition boot_state : spin :=
  mkspin (fun _ => mkspinlock 0 "" None) (fun _ => mkcpu 0 false true Idle []).
Definition after (m : M spin unit) (s : spin) : spin :=
  match m s with Ok _ s' => s' | _ => s end.
Definition spinning_state : spin := after (acquire_enter 0 LkKmem) boot_state.
Definition got_state : spin := after (test_and_set 0 LkKmem ;; ret tt) spinning_state.
Definition one_lock : spin := after (acquire_exit 0 LkKmem) got_state.

Lemma boot_state_boot : boot boot_state.
Proof. repeat split. Qed.

Lemma one_lock_reachable : reachable one_lock.
Proof.
  assert (0 < NCPU)%nat as Hc by (unfold NCPU; lia).
  apply (reach_step 0 got_state); [|done|by apply (step_got 0 LkKmem)|done].
  apply (reach_step 0 spinning_state); [|done|by apply (step_tas 0 LkKmem 0)|done].
  apply (reach_step 0 boot_state); [|done|by apply (step_acquire 0 LkKmem)|done].
  apply reach_boot, boot_state_boot.
Qed.

Lemma spin_mutual_exclusion_witness :
  LkKmem ∈ own (cpus one_lock 0) /\
  sie (cpus one_lock 0) = false /\ holding 0 LkKmem one_lock = true.
Proof.
  assert (LkKmem ∈ own (cpus one_lock 0)) as H by (vm_compute; left).
  split; [exact H|].
  exact (proj2 (spin_mutual_exclusion one_lock LkKmem 0 0 one_lock_reachable H H)).
Defined.


Definition mach_with (h : list lockid) : mach := mkmach h [] None 1 None 0 [].


Fixpoint iterM (n : nat) (m : M spin unit) : M spin unit :=
  match n with O => ret tt | S n' => m ;; iterM n' m end.

Lemma push_off_iter n c s :
  0 <= noff (cpus s c) -> noff (cpus s c) + Z.of_nat n < 2 ^ 31 -> (0 < n)%nat ->
  exists s', iterM n (push_off c) s = Ok tt s' /\
    noff (cpus s' c) = noff (cpus s c) + Z.of_nat n /\ sie (cpus s' c) = false /\
    intena (cpus s' c) = (if noff (cpus s c) =? 0 then sie else intena) (cpus s c).
Proof.
  revert s. induction n as [|n IH]; intros s H0 H1 H2; [lia|].
  set (s1 := s <| cpus := <[c := pushed (cpus s c)]> (cpus s) |>).
  assert (C1 : cpus s1 c = pushed (cpus s c)) by apply fn_lookup_insert.
  pose proof (pushed_fields (cpus s c)) as (_ & _ & Hs & Hf).
  rewrite s32_small in Hf by lia.
  assert (Hi : intena (pushed (cpus s c)) =
    (if noff (cpus s c) =? 0 then sie else intena) (cpus s c)).
  { unfold pushed. simpl. by destruct (noff (cpus s c) =? 0). }
  destruct n as [|n].
  - exists s1. rewrite C1. split_and!; [done|lia|done|done].
  - destruct (IH s1) as (s' & E & Hn & Hs' & Hi'); rewrite ?C1; try lia.
    exists s'. split_and!; [exact E| | |].
    + rewrite Hn, C1. lia. + done.
    + rewrite Hi', C1, Hf. destruct (Z.eqb_spec (noff (cpus s c) + 1) 0); [lia|done].
Qed.

Lemma pop_off_iter n c s :
  noff (cpus s c) = Z.of_nat n -> Z.of_nat n < 2 ^ 31 -> sie (cpus s c) = false -> (0 < n)%nat ->
  exists s', iterM n (pop_off c) s = Ok tt s' /\
    noff (cpus s' c) = 0 /\ sie (cpus s' c) = intena (cpus s c).
Proof.
  revert s. induction n as [|n IH]; intros s H0 H1 H2 H3; [lia|].
  set (s1 := s <| cpus := <[c := popped (cpus s c)]> (cpus s) |>).
  assert (C1 : cpus s1 c = popped (cpus s c)) by apply fn_lookup_insert.
  assert (E1 : pop_off c s = Ok tt s1) by (apply pop_off_ok; [done|lia]).
  pose proof (popped_fields (cpus s c)) as (_ & _ & Hf & Hs).
  rewrite s32_small in Hf by lia.
  destruct n as [|n].
  - exists s1. rewrite C1. split_and!; [|lia|].
    + cbn [iterM]. by rewrite (bind_ok _ _ _ _ _ E1).
    + unfold popped. simpl. rewrite H0. vm_compute (s32 _). simpl.
      destruct (cpus s c) as [? [] ? ? ?]; done.
  - destruct (IH s1) as (s' & E & Hn & Hs'); rewrite ?C1; try lia.
    { rewrite Hs by lia. done. }
    exists s'. split_and!; [|done|].
    + cbn [iterM]. rewrite (bind_ok _ _ _ _ _ E1). exact E.
    + rewrite Hs', C1. unfold popped. simpl. by destruct (_ && _).
Qed.

(** [push_off]/[pop_off] nest.  However deep the nesting, after as
    many [pop_off]s as [push_off]s the processor's interrupt enable is what
    it was before the first one, and it is off in between. *)
Theorem push_off_pop_off n c s :
  noff (cpus s c) = 0 -> (0 < n)%nat -> Z.of_nat n < 2 ^ 31 ->
  exists s1 s2, iterM n (push_off c) s = Ok tt s1 /\ sie (cpus s1 c) = false /\
    iterM n (pop_off c) s1 = Ok tt s2 /\
    noff (cpus s2 c) = 0 /\ sie (cpus s2 c) = sie (cpus s c).
Proof.
  intros H0 H1 H2.
  destruct (push_off_iter n c s) as (s1 & E1 & N1 & S1 & I1); [lia..|].
  destruct (pop_off_iter n c s1) as (s2 & E2 & N2 & S2); [lia|lia|done|lia|].
  exists s1, s2. split_and!; try done. rewrite S2, I1, H0. done.
Qed.

Lemma push_off_pop_off_witness :
  exists s1 s2, iterM 3 (push_off 0) boot_state = Ok tt s1 /\ sie (cpus s1 0) = false /\
    iterM 3 (pop_off 0) s1 = Ok tt s2 /\
    noff (cpus s2 0) = 0 /\ sie (cpus s2 0) = true.
Proof. apply (push_off_pop_off 3 0 boot_state); [reflexivity|lia|lia]. Defined.

End Spin.
