(* ===== verification/Kalloc.v ===== *)
(** * The physical page allocator, [kernel/kalloc.c]

    [mm] is the state of a kernel thread with the byte-addressed physical
    memory: the free list is kept in the free pages themselves, as the
    sources do, each page starting with the address of the next one.  The
    main results: a free list that represents the pages [l] is taken apart
    and put together by [kalloc] and [kfree] page by page, nothing outside
    the page concerned is written, and [kinit] frees every whole page
    between the end of the kernel and the top of memory. *)

From stdpp Require Import base numbers strings decidable sets gmap functions list.
From S2P Require Import Prelude.
From S2P Require Import CString.
From S2P Require Import Riscv.
From S2P Require Import Sched.
Open Scope Z_scope.
Open Scope xv6_scope.

Record mm : Type := mkmm {
  mm_mach : mach;
  mem : memory;
  freelist : Z;  (** [kmem.freelist], 0 when there is no free page *)
  k_end : Z;  (** [end], the first address after the kernel, from the linker *)
}.
#[export] Instance set_mm_mach : Setter mm_mach := fun v r => mkmm v (mem r) (freelist r) (k_end r).
#[export] Instance set_mem : Setter mem := fun v r => mkmm (mm_mach r) v (freelist r) (k_end r).
#[export] Instance set_freelist : Setter freelist := fun v r => mkmm (mm_mach r) (mem r) v (k_end r).
#[export] Instance set_k_end : Setter k_end := fun v r => mkmm (mm_mach r) (mem r) (freelist r) v.

#[export] Instance embed_mach_mm : Embed mach mm := {|
  prj := mm_mach;
  inj := fun m s => s <| mm_mach := m |>;
|}.
#[export] Instance embed_mach_mm_laws : EmbedLaws mach mm.
Proof. constructor; by intros; destruct t. Qed.

(** A 64-bit field in memory. *)
Definition load64 (m : memory) (a : Z) : Z := le_dec (read_bytes m a 8).
Definition store64 (m : memory) (a v : Z) : memory := write_bytes m a (le_enc 8 v).

Definition kfree (pa : Z) : M mm unit :=
  s <- get ;;
  if negb (pa mod PGSIZE =? 0) || (pa <? k_end s) || (PHYSTOP <=? pa)
  then panic "kfree"
  else
    modify (fun s => s <| mem := memset pa 1 (Z.to_nat PGSIZE) (mem s) |>) ;;
    lift (acquire LkKmem) ;;
    modify (fun s => s <| mem := store64 (mem s) pa (freelist s) |>) ;;
    modify (fun s => s <| freelist := pa |>) ;;
    lift (release LkKmem).

Definition kalloc : M mm Z :=
  lift (acquire LkKmem) ;;
  r <- gets freelist ;;
  when (negb (r =? 0)) (modify (fun s => s <| freelist := load64 (mem s) r |>)) ;;
  lift (release LkKmem) ;;
  when (negb (r =? 0))
    (modify (fun s => s <| mem := memset r 5 (Z.to_nat PGSIZE) (mem s) |>)) ;;
  ret r.

(** The loop of [freerange]; [fuel] bounds the iterations. *)
Fixpoint freerange_loop (fuel : nat) (p pa_end : Z) : M mm unit :=
  match fuel with
  | O => out_of_fuel
  | S fuel' =>
    if p + PGSIZE <=? pa_end
    then kfree p ;; freerange_loop fuel' (p + PGSIZE) pa_end
    else ret tt
  end.
Definition freerange (pa_start pa_end : Z) : M mm unit :=
  freerange_loop (S (Z.to_nat (pa_end / PGSIZE))) (PGROUNDUP pa_start) pa_end.

(** [initlock] of a static lock leaves it free, which is how it starts. *)
Definition kinit : M mm unit :=
  e <- gets k_end ;; freerange e PHYSTOP.

(** ** The pages on the free list *)

Definition valid_page (e p : Z) : Prop := p mod PGSIZE = 0 /\ e <= p < PHYSTOP.
#[export] Instance valid_page_dec e p : Decision (valid_page e p).
Proof. unfold valid_page. apply _. Defined.

Fixpoint free_chain (m : memory) (r : Z) (l : list Z) : Prop :=
  match l with
  | [] => r = 0
  | p :: l' => r = p /\ free_chain m (load64 m p) l'
  end.

(** The representation invariant: the free list holds exactly the pages
    [l], all different, all in the range the allocator hands out. *)
Record kmem_inv (s : mm) (l : list Z) : Prop := {
  ki_end : PGSIZE <= k_end s < 2 ^ 63;
  ki_chain : free_chain (mem s) (freelist s) l;
  ki_nodup : NoDup l;
  ki_valid : Forall (valid_page (k_end s)) l;
}.

(** Bytes of a page, and agreement of two memories off a set of pages. *)
Definition in_page (p a : Z) : Prop := p <= a < p + PGSIZE.
Definition same_off (p : Z) (m m' : memory) : Prop :=
  forall a, ~ in_page p a -> m' a = m a.
Definition filled (p c : Z) (m : memory) : Prop := forall a, in_page p a -> m a = c.

Lemma same_off_refl p m : same_off p m m.
Proof. done. Qed.
Lemma same_off_trans p m1 m2 m3 :
  same_off p m1 m2 -> same_off p m2 m3 -> same_off p m1 m3.
Proof. intros H1 H2 a Ha. by rewrite H2, H1. Qed.

Lemma memset_page p c m :
  same_off p m (memset p c (Z.to_nat PGSIZE) m) /\
  filled p (u8 c) (memset p c (Z.to_nat PGSIZE) m).
Proof.
  unfold same_off, filled, in_page, PGSIZE.
  split; intros a Ha; rewrite memset_spec; case_decide; done || lia.
Qed.

Lemma store64_off p v m : same_off p m (store64 m p v).
Proof.
  intros a Ha. apply write_bytes_out. len. unfold in_page, PGSIZE in *. lia.
Qed.

Lemma load_store64 m p v : 0 <= v < 2 ^ 64 -> load64 (store64 m p v) p = v.
Proof.
  intros. unfold load64, store64. rewrite <- (length_le_enc 8 v) at 2.
  rewrite read_write_bytes, le_dec_enc. by apply Z.mod_small.
Qed.

Lemma load64_ext m m' a :
  (forall b, a <= b < a + 8 -> m' b = m b) -> load64 m' a = load64 m a.
Proof.
  intros H. unfold load64. f_equal. apply read_bytes_ext. intros i Hi. apply H. lia.
Qed.

(** Different pages do not overlap. *)
Lemma pages_disjoint p q a :
  p mod PGSIZE = 0 -> q mod PGSIZE = 0 -> p <> q -> in_page p a -> ~ in_page q a.
Proof.
  unfold in_page, PGSIZE. intros Hp Hq Hne Ha Hb.
  pose proof (Z.div_mod p 4096). pose proof (Z.div_mod q 4096). lia.
Qed.

Lemma load64_same_off p q m m' :
  same_off p m m' -> p mod PGSIZE = 0 -> q mod PGSIZE = 0 -> p <> q ->
  load64 m' q = load64 m q.
Proof.
  intros H Hp Hq Hne. apply load64_ext. intros b Hb. apply H.
  apply (pages_disjoint q p); try done. unfold in_page, PGSIZE. lia.
Qed.

Lemma free_chain_same_off p m m' r l :
  same_off p m m' -> p mod PGSIZE = 0 -> Forall (fun q => q mod PGSIZE = 0) l ->
  p ∉ l -> free_chain m r l -> free_chain m' r l.
Proof.
  intros Hs Hp. revert r. induction l as [|q l IH]; intros r Hal Hni; [done|].
  apply Forall_cons_1 in Hal as [Hq Hal]. simpl. intros [-> Hc]. split; [done|].
  apply not_elem_of_cons in Hni as [Hne Hni].
  rewrite (load64_same_off p q m m') by done. by apply IH.
Qed.

Lemma kmem_inv_aligned s l :
  kmem_inv s l -> Forall (fun q => q mod PGSIZE = 0) l.
Proof. intros H. eapply Forall_impl; [apply (ki_valid _ _ H)|]. by intros ? []. Qed.

Lemma free_chain_range m r l e :
  0 <= e -> free_chain m r l -> Forall (valid_page e) l -> 0 <= r < 2 ^ 64.
Proof.
  intros He. destruct l; simpl; intros Hc Hv; [lia|].
  destruct Hc as [-> _]. inversion Hv as [|?? [_ H]]. change PHYSTOP with 0x88000000 in H. lia.
Qed.

(** The two lock operations around a critical section leave the locks as
    they were. *)
Lemma mach_held_id m : m <| held := held m |> = m.
Proof. by destruct m. Qed.

(** [kfree] and [kalloc] in one step. *)
Lemma kfree_eq pa s :
  valid_page (k_end s) pa -> LkKmem ∉ held (mm_mach s) ->
  kfree pa s =
    Ok tt (s <| mem := store64 (memset pa 1 (Z.to_nat PGSIZE) (mem s)) pa (freelist s) |>
             <| freelist := pa |>).
Proof.
  intros [Ha Hr] Hl. unfold kfree. generalize (Z.to_nat PGSIZE). intros n.
  erewrite bind_ok by done.
  rewrite Ha, (proj2 (Z.ltb_ge _ _)), (proj2 (Z.leb_gt _ _)) by lia. cbn [Z.eqb negb orb].
  erewrite bind_ok by done.
  erewrite bind_ok by (by apply lift_ok, acquire_ok).
  do 2 erewrite bind_ok by done.
  erewrite lift_ok by (by apply release_ok).
  by destruct s as [[]].
Qed.

Lemma kfree_bad pa s : ~ valid_page (k_end s) pa -> kfree pa s = Panic "kfree".
Proof.
  intros H. unfold kfree. erewrite bind_ok by done.
  destruct (_ || _) eqn:E; [done|]. destruct H. unfold valid_page.
  apply orb_false_iff in E as [[E1 E2]%orb_false_iff E3].
  apply negb_false_iff in E1. lia.
Qed.

Lemma kalloc_eq s :
  LkKmem ∉ held (mm_mach s) ->
  kalloc s =
    if decide (freelist s = 0) then Ok 0 s
    else Ok (freelist s) (s <| mem := memset (freelist s) 5 (Z.to_nat PGSIZE) (mem s) |>
                            <| freelist := load64 (mem s) (freelist s) |>).
Proof.
  intros Hl. unfold kalloc. generalize (Z.to_nat PGSIZE). intros n.
  erewrite bind_ok by (by apply lift_ok, acquire_ok). simpl.
  erewrite bind_ok by done. simpl.
  destruct (decide (freelist s = 0)) as [E|E].
  - rewrite E. simpl. erewrite bind_ok by done.
    erewrite bind_ok by (by apply lift_ok, release_ok).
    erewrite bind_ok by done. by destruct s as [[]].
  - rewrite (proj2 (Z.eqb_neq _ _)) by done. simpl. erewrite bind_ok by done.
    erewrite bind_ok by (by apply lift_ok, release_ok).
    erewrite bind_ok by done. by destruct s as [[]].
Qed.

(** What a step of the allocator leaves alone. *)
Definition alloc_frame (p : Z) (s s' : mm) : Prop :=
  mm_mach s' = mm_mach s /\ k_end s' = k_end s /\ same_off p (mem s) (mem s').

Lemma kalloc_some s p l :
  kmem_inv s (p :: l) -> LkKmem ∉ held (mm_mach s) ->
  exists s', kalloc s = Ok p s' /\ kmem_inv s' l /\ alloc_frame p s s' /\
    filled p 5 (mem s') /\ valid_page (k_end s) p /\ p ∉ l.
Proof.
  intros Hi Hl. pose proof (kmem_inv_aligned _ _ Hi) as Hal.
  destruct Hi as [He [Hp Hc] Hn Hv].
  apply Forall_cons_1 in Hv as [Hvp Hv]. apply NoDup_cons in Hn as [Hni Hn].
  apply Forall_cons_1 in Hal as [Hap Hal].
  rewrite kalloc_eq, Hp by done.
  rewrite decide_False by (destruct Hvp; unfold PGSIZE in *; lia).
  eexists. split; [done|]. destruct (memset_page p 5 (mem s)) as [Hs Hf].
  split_and!; try done. split; try done. simpl.
  by eapply free_chain_same_off.
Qed.

Lemma kalloc_none s :
  kmem_inv s [] -> LkKmem ∉ held (mm_mach s) -> kalloc s = Ok 0 s.
Proof.
  intros Hi Hl. rewrite kalloc_eq by done. destruct Hi as [_ E]. simpl in E.
  by rewrite decide_True.
Qed.

Lemma kfree_ok s p l :
  kmem_inv s l -> valid_page (k_end s) p -> p ∉ l -> LkKmem ∉ held (mm_mach s) ->
  exists s', kfree p s = Ok tt s' /\ kmem_inv s' (p :: l) /\ alloc_frame p s s'.
Proof.
  intros Hi Hv Hni Hl. pose proof (kmem_inv_aligned _ _ Hi) as Hal.
  rewrite kfree_eq by done. eexists. split; [done|].
  destruct Hi as [He Hc Hn Hvs].
  assert (Hs : same_off p (mem s)
    (store64 (memset p 1 (Z.to_nat PGSIZE) (mem s)) p (freelist s))).
  { eapply same_off_trans; [apply memset_page|apply store64_off]. }
  split_and!; [|done..]. destruct Hv as [Hap Hr]. split; simpl.
  - done.
  - split; [done|]. rewrite load_store64 by (eapply free_chain_range; [|done..]; unfold PGSIZE in *; lia).
    by eapply free_chain_same_off.
  - by constructor.
  - by constructor.
Qed.

Lemma kfree_many ps s l :
  kmem_inv s l -> Forall (valid_page (k_end s)) ps -> NoDup ps -> (forall p, p ∈ ps -> p ∉ l) ->
  LkKmem ∉ held (mm_mach s) ->
  exists s', mapM_ kfree ps s = Ok tt s' /\ kmem_inv s' (reverse ps ++ l) /\
    mm_mach s' = mm_mach s /\ k_end s' = k_end s.
Proof.
  revert s l. induction ps as [|p ps IH]; intros s l K V N D L; [by exists s|].
  apply Forall_cons_1 in V as [Vp V]. apply NoDup_cons in N as [Np N].
  destruct (kfree_ok s p l) as (s1 & E1 & K1 & M1 & N1 & _); try done; [set_solver|].
  destruct (IH s1 (p :: l)) as (s' & E' & K' & M' & N'); [done|by rewrite N1|done|set_solver|by rewrite M1|].
  exists s'. cbn [mapM_]. erewrite bind_ok by exact E1. split_and!; [done| |congruence..].
  rewrite reverse_cons. by rewrite <- app_assoc.
Qed.

(** The pages [freerange] frees, in the order in which it frees them. *)
Definition page_range (p : Z) (n : nat) : list Z :=
  (fun i : nat => p + Z.of_nat i * PGSIZE) <$> seq 0 n.

Lemma page_range_S p n : page_range p (S n) = p :: page_range (p + PGSIZE) n.
Proof.
  unfold page_range. cbn [seq fmap list_fmap]. f_equal; [lia|].
  rewrite <- fmap_S_seq, <- list_fmap_compose. apply list_fmap_ext.
  intros i x _. simpl. lia.
Qed.

Lemma elem_of_page_range p n q :
  q ∈ page_range p n <-> exists i : nat, q = p + Z.of_nat i * PGSIZE /\ (i < n)%nat.
Proof.
  unfold page_range. rewrite list_elem_of_fmap. setoid_rewrite elem_of_seq. naive_solver lia.
Qed.

Lemma freerange_loop_ok n fuel p pa_end s l :
  (n < fuel)%nat -> p + Z.of_nat n * PGSIZE <= pa_end < p + Z.of_nat (S n) * PGSIZE ->
  pa_end <= PHYSTOP -> p mod PGSIZE = 0 -> k_end s <= p ->
  (forall q, q ∈ l -> q ∉ page_range p n) ->
  kmem_inv s l -> LkKmem ∉ held (mm_mach s) ->
  exists s', freerange_loop fuel p pa_end s = Ok tt s' /\
    kmem_inv s' (reverse (page_range p n) ++ l) /\ mm_mach s' = mm_mach s.
Proof.
  revert fuel p s l. induction n as [|n IH]; intros [|fuel] p s l Hf Hr Ht Ha He Hd Hi Hl;
    try lia; simpl freerange_loop.
  { rewrite (proj2 (Z.leb_gt _ _)) by lia. by exists s. }
  assert (0 <= Z.of_nat n * PGSIZE) by (unfold PGSIZE; lia).
  rewrite page_range_S in Hd.
  assert (p < pa_end) by (unfold PGSIZE in *; lia).
  rewrite (proj2 (Z.leb_le _ _)) by (unfold PGSIZE in *; lia).
  destruct (kfree_ok s p l) as (s1 & E & Hi1 & Hm & Hk & _); [done| |set_solver|done|].
  { split; [done|lia]. }
  erewrite bind_ok by done.
  destruct (IH fuel (p + PGSIZE) s1 (p :: l)) as (s2 & E2 & Hi2 & Hm2);
    [lia|lia|done| |unfold PGSIZE in *; lia| |done|by rewrite Hm|].
  { by apply pg_aligned_add. }
  { intros q [->|Hq]%elem_of_cons; [|set_solver].
    rewrite elem_of_page_range. intros (i & Hx & _). unfold PGSIZE in Hx. lia. }
  exists s2. rewrite Hm2, Hm. split_and!; [done| |done].
  rewrite page_range_S, reverse_cons. by rewrite <- app_assoc.
Qed.

(** The pages between two addresses. *)
Definition pages_between (a b : Z) : list Z :=
  page_range (PGROUNDUP a) (Z.to_nat ((b - PGROUNDUP a) / PGSIZE)).

Lemma freerange_ok s pa_start pa_end :
  kmem_inv s [] -> LkKmem ∉ held (mm_mach s) ->
  k_end s <= pa_start <= pa_end -> pa_end <= PHYSTOP -> pa_end mod PGSIZE = 0 ->
  exists s', freerange pa_start pa_end s = Ok tt s' /\
    kmem_inv s' (reverse (pages_between pa_start pa_end)) /\ mm_mach s' = mm_mach s.
Proof.
  intros Hi Hl Hs Ht Ha. unfold freerange, pages_between.
  change PHYSTOP with 0x88000000 in Ht.
  destruct (ki_end _ _ Hi) as [He _].
  assert (Hr : PGROUNDUP pa_start = (pa_start + PGSIZE - 1) / PGSIZE * PGSIZE).
  { apply PGROUNDUP_spec. unfold PGSIZE in *. lia. }
  set (p := PGROUNDUP pa_start) in *. unfold PGSIZE in Hr, Ha, He.
  assert (pa_start <= p <= pa_end) by (rewrite Hr; clear -Ha Hs He; divlia).
  destruct (freerange_loop_ok (Z.to_nat ((pa_end - p) / PGSIZE))
              (S (Z.to_nat (pa_end / PGSIZE))) p pa_end s []) as (s' & E & Hi' & Hm);
    [| | | | |set_solver|done|done|].
  - assert ((pa_end - p) / PGSIZE <= pa_end / PGSIZE) by (apply Z.div_le_mono; [done|lia]). lia.
  - rewrite Nat2Z.inj_succ. unfold PGSIZE. clearbody p. clear -H. rewrite Z2Nat.id; divlia.
  - done.
  - rewrite Hr. by apply Z.mod_mul.
  - lia.
  - exists s'. by rewrite app_nil_r in Hi'.
Qed.

(** [kalloc] takes the first page off the free list, fills it
    with the byte 5 and writes no other byte of memory; it returns 0, and
    changes nothing, exactly when no page is free. *)
Theorem kalloc_spec s l :
  kmem_inv s l -> LkKmem ∉ held (mm_mach s) ->
  match l with
  | [] => kalloc s = Ok 0 s
  | p :: l' => exists s', kalloc s = Ok p s' /\ p <> 0 /\ kmem_inv s' l' /\ p ∉ l' /\
      mm_mach s' = mm_mach s /\ same_off p (mem s) (mem s') /\ filled p 5 (mem s')
  end.
Proof.
  intros Hi Hl. destruct l as [|p l]; [by apply kalloc_none|].
  destruct (kalloc_some s p l) as (s' & E & Hi' & (Hm & _ & Ho) & Hf & Hv & Hn); try done.
  exists s'. split_and!; try done. destruct Hv as [_ Hv]. pose proof (ki_end _ _ Hi).
  unfold PGSIZE in *. lia.
Qed.

(** freeing a page the allocator may hold, and that is not free
    already, puts it first on the free list, so that the next [kalloc]
    returns that page; everything outside it keeps its contents. *)
Theorem kfree_kalloc s p l :
  kmem_inv s l -> valid_page (k_end s) p -> p ∉ l -> LkKmem ∉ held (mm_mach s) ->
  exists s' s'', kfree p s = Ok tt s' /\ kmem_inv s' (p :: l) /\
    kalloc s' = Ok p s'' /\ kmem_inv s'' l /\ same_off p (mem s) (mem s'').
Proof.
  intros Hi Hv Hn Hl.
  destruct (kfree_ok s p l) as (s1 & E1 & Hi1 & Hm & _ & Ho); try done.
  destruct (kalloc_some s1 p l) as (s2 & E2 & Hi2 & (_ & _ & Ho2) & _);
    [done|by rewrite Hm|].
  exists s1, s2. split_and!; try done. by eapply same_off_trans.
Qed.

(** [kfree] of anything but a page-aligned address between the
    end of the kernel and the top of memory panics. *)
Theorem kfree_panics s p :
  ~ valid_page (k_end s) p <-> kfree p s = Panic "kfree".
Proof.
  split; [apply kfree_bad|]. intros E [Ha Hr]. revert E. unfold kfree.
  erewrite bind_ok by done.
  rewrite Ha, (proj2 (Z.ltb_ge _ _)), (proj2 (Z.leb_gt _ _)) by lia. cbn [Z.eqb negb orb].
  erewrite bind_ok by done.
  destruct (decide (LkKmem ∈ held (mm_mach s))).
  - by erewrite bind_panic by (by apply lift_panic, acquire_panic).
  - erewrite bind_ok by (by apply lift_ok, acquire_ok).
    do 2 erewrite bind_ok by done. by erewrite lift_ok by (by apply release_ok).
Qed.

(** [kinit], run on an empty free list, frees every whole page
    between the end of the kernel and the top of memory, each once. *)
Theorem kinit_spec s :
  kmem_inv s [] -> LkKmem ∉ held (mm_mach s) -> k_end s <= PHYSTOP ->
  exists s', kinit s = Ok tt s' /\
    kmem_inv s' (reverse (pages_between (k_end s) PHYSTOP)) /\ mm_mach s' = mm_mach s.
Proof.
  intros Hi Hl He. unfold kinit. erewrite bind_ok by done.
  apply freerange_ok; try done.
Qed.

(** A machine with no free page, the kernel ending at [0x80030000]. *)
Definition mm_boot : mm := mkmm mach_boot (fun _ => 0) 0 0x80030000.

Lemma kmem_inv_boot : kmem_inv mm_boot [].
Proof. split; try done. constructor. Qed.

(** The same machine with one page on the free list. *)
Definition mm_one : mm := mkmm mach_boot (fun _ => 0) 0x80031000 0x80030000.

Lemma kmem_inv_one : kmem_inv mm_one [0x80031000].
Proof.
  split; [done| | |].
  - split; [done|]. by vm_compute.
  - apply NoDup_singleton.
  - by repeat constructor.
Qed.

Lemma kalloc_spec_witness :
  (exists s', kalloc mm_one = Ok 0x80031000 s' /\ 0x80031000 <> 0 /\ kmem_inv s' [] /\
     0x80031000 ∉ [] /\
     mm_mach s' = mm_mach mm_one /\ same_off 0x80031000 (mem mm_one) (mem s') /\
     filled 0x80031000 5 (mem s')) /\
  kalloc mm_boot = Ok 0 mm_boot.
Proof.
  split.
  - apply (kalloc_spec mm_one [0x80031000]); [apply kmem_inv_one|]. simpl. set_solver.
  - apply (kalloc_spec mm_boot []); [apply kmem_inv_boot|]. simpl. set_solver.
Defined.

Lemma kfree_kalloc_witness :
  exists s' s'', kfree 0x80040000 mm_one = Ok tt s' /\
    kmem_inv s' [0x80040000; 0x80031000] /\
    kalloc s' = Ok 0x80040000 s'' /\ kmem_inv s'' [0x80031000] /\
    same_off 0x80040000 (mem mm_one) (mem s'').
Proof.
  apply kfree_kalloc.
  - apply kmem_inv_one.
  - by split.
  - by rewrite list_elem_of_singleton.
  - simpl. set_solver.
Defined.

Lemma kinit_spec_witness :
  exists s', kinit mm_boot = Ok tt s' /\
    kmem_inv s' (reverse (pages_between 0x80030000 PHYSTOP)) /\
    mm_mach s' = mm_mach mm_boot.
Proof.
  apply (kinit_spec mm_boot); [apply kmem_inv_boot|simpl; set_solver|done].
Defined.
