(* ===== verification/Vm.v ===== *)
(** * Page tables and user memory, [kernel/vm.c]

    Page tables live in the physical memory of [Kalloc.v], three levels of
    pages of 512 eight-byte entries, and every routine walks them there.
    Kernel-side buffers of the copy routines are byte lists: [copyout] is
    given the bytes to store, [copyin] and [copyinstr] give back the bytes
    they stored in the destination with their return code.  The linker
    symbols [etext] and [trampoline] are arguments of [kvmmake]. *)

From stdpp Require Import base numbers strings decidable sets gmap functions list.
From S2P Require Import Prelude.
From S2P Require Import CString.
From S2P Require Import Riscv.
From S2P Require Import Sched.
From S2P Require Import Kalloc.
Open Scope Z_scope.
Open Scope xv6_scope.

(** ** Access to entries *)

(** [&pagetable[i]] *)
Definition pte_at (pagetable i : Z) : Z := pagetable + 8 * i.
(** [*pte] and [*pte = v]; a null pointer is undefined behaviour. *)
Definition load_pte (pte : Z) : M mm Z :=
  if pte =? 0 then undefined "null pte" else gets (fun s => load64 (mem s) pte).
Definition store_pte (pte v : Z) : M mm unit :=
  if pte =? 0 then undefined "null pte"
  else modify (fun s => s <| mem := store64 (mem s) pte v |>).
(** [memset(pa, 0, PGSIZE)] *)
Definition zero_page (pa : Z) : M mm unit :=
  if pa =? 0 then undefined "memset of a null page"
  else modify (fun s => s <| mem := memset pa 0 (Z.to_nat PGSIZE) (mem s) |>).
(** [x & bit] as a condition. *)
Definition flag (x bit : Z) : bool := negb (Z.land x bit =? 0).

(** ** Walking *)

(** The loop of [walk] from level [level] down. *)
Fixpoint walk_from (level : nat) (pagetable va : Z) (alloc : bool) : M mm Z :=
  match level with
  | O => ret (pte_at pagetable (PX 0 va))
  | S level' =>
    let pte := pte_at pagetable (PX (Z.of_nat level) va) in
    e <- load_pte pte ;;
    if flag e PTE_V then walk_from level' (PTE2PA e) va alloc
    else if negb alloc then ret 0
    else
      pagetable' <- kalloc ;;
      if pagetable' =? 0 then ret 0
      else
        zero_page pagetable' ;;
        store_pte pte (Z.lor (PA2PTE pagetable') PTE_V) ;;
        walk_from level' pagetable' va alloc
  end.

Definition walk (pagetable va : Z) (alloc : bool) : M mm Z :=
  if MAXVA <=? va then panic "walk" else walk_from 2 pagetable va alloc.

Definition walkaddr (pagetable va : Z) : M mm Z :=
  if MAXVA <=? va then ret 0
  else
    pte <- walk pagetable va false ;;
    if pte =? 0 then ret 0
    else
      e <- load_pte pte ;;
      if negb (flag e PTE_V) then ret 0
      else if negb (flag e PTE_U) then ret 0
      else ret (PTE2PA e).

Definition ismapped (pagetable va : Z) : M mm bool :=
  pte <- walk pagetable va false ;;
  if pte =? 0 then ret false
  else e <- load_pte pte ;; ret (flag e PTE_V).

(** ** Making and removing mappings *)

(** The [for(;;)] of [mappages]; it runs [size / PGSIZE] times. *)
Fixpoint mappages_loop (fuel : nat) (pagetable a last pa perm : Z) : M mm Z :=
  match fuel with
  | O => out_of_fuel
  | S fuel' =>
    pte <- walk pagetable a true ;;
    if pte =? 0 then ret (-1)
    else
      e <- load_pte pte ;;
      if flag e PTE_V then panic "mappages: remap"
      else
        store_pte pte (Z.lor (Z.lor (PA2PTE pa) perm) PTE_V) ;;
        if a =? last then ret 0
        else mappages_loop fuel' pagetable (u64 (a + PGSIZE)) last (u64 (pa + PGSIZE)) perm
  end.

Definition mappages (pagetable va size pa perm : Z) : M mm Z :=
  if negb (va mod PGSIZE =? 0) then panic "mappages: va not aligned"
  else if negb (size mod PGSIZE =? 0) then panic "mappages: size not aligned"
  else if size =? 0 then panic "mappages: size"
  else mappages_loop (Z.to_nat (size / PGSIZE)) pagetable va (u64 (va + size - PGSIZE)) pa perm.

Definition kvmmap (kpgtbl va pa sz perm : Z) : M mm unit :=
  r <- mappages kpgtbl va sz pa perm ;;
  if negb (r =? 0) then panic "kvmmap" else ret tt.

Definition uvmcreate : M mm Z :=
  pagetable <- kalloc ;;
  if pagetable =? 0 then ret 0
  else zero_page pagetable ;; ret pagetable.

(** One page of [uvmunmap]. *)
Definition uvmunmap_one (pagetable a : Z) (do_free : bool) : M mm unit :=
  pte <- walk pagetable a false ;;
  if pte =? 0 then ret tt
  else
    e <- load_pte pte ;;
    if negb (flag e PTE_V) then ret tt
    else
      when do_free (kfree (PTE2PA e)) ;;
      store_pte pte 0.

Fixpoint uvmunmap_loop (fuel : nat) (pagetable a limit : Z) (do_free : bool) : M mm unit :=
  match fuel with
  | O => out_of_fuel
  | S fuel' =>
    if a <? limit then
      uvmunmap_one pagetable a do_free ;;
      uvmunmap_loop fuel' pagetable (u64 (a + PGSIZE)) limit do_free
    else ret tt
  end.

Definition uvmunmap (pagetable va npages : Z) (do_free : bool) : M mm unit :=
  if negb (va mod PGSIZE =? 0) then panic "uvmunmap: not aligned"
  else uvmunmap_loop (S (Z.to_nat npages)) pagetable va (u64 (va + npages * PGSIZE)) do_free.

(** [npages] is an [int] converted to [uint64] in the call. *)
Definition uvmdealloc (pagetable oldsz newsz : Z) : M mm Z :=
  if oldsz <=? newsz then ret oldsz
  else
    when (PGROUNDUP newsz <? PGROUNDUP oldsz)
      (let npages := s32 ((PGROUNDUP oldsz - PGROUNDUP newsz) / PGSIZE) in
       uvmunmap pagetable (PGROUNDUP newsz) (u64 npages) true) ;;
    ret newsz.

Fixpoint uvmalloc_loop (fuel : nat) (pagetable a oldsz newsz xperm : Z) : M mm Z :=
  match fuel with
  | O => out_of_fuel
  | S fuel' =>
    if a <? newsz then
      pa <- kalloc ;;
      if pa =? 0 then
        uvmdealloc pagetable a oldsz ;;
        ret 0
      else
        zero_page pa ;;
        r <- mappages pagetable a PGSIZE pa (Z.lor (Z.lor PTE_R PTE_U) xperm) ;;
        if negb (r =? 0) then
          kfree pa ;;
          uvmdealloc pagetable a oldsz ;;
          ret 0
        else uvmalloc_loop fuel' pagetable (u64 (a + PGSIZE)) oldsz newsz xperm
    else ret newsz
  end.

Definition uvmalloc (pagetable oldsz newsz xperm : Z) : M mm Z :=
  if newsz <? oldsz then ret oldsz
  else
    let oldsz := PGROUNDUP oldsz in
    uvmalloc_loop (S (Z.to_nat (newsz / PGSIZE + 1))) pagetable oldsz oldsz newsz xperm.

(** One entry of [freewalk], [rec] being the recursive call. *)
Definition freewalk_entry (rec : Z -> M mm unit) (pagetable : Z) (i : nat) : M mm unit :=
  pte <- load_pte (pte_at pagetable (Z.of_nat i)) ;;
  if flag pte PTE_V && negb (flag pte (Z.lor (Z.lor PTE_R PTE_W) PTE_X)) then
    rec (PTE2PA pte) ;;
    store_pte (pte_at pagetable (Z.of_nat i)) 0
  else if flag pte PTE_V then panic "freewalk: leaf"
  else ret tt.

(** The recursion of [freewalk] follows the levels of the table; a table of
    [depth] levels needs that much fuel. *)
Fixpoint freewalk_from (depth : nat) (pagetable : Z) : M mm unit :=
  match depth with
  | O => out_of_fuel
  | S depth' =>
    mapM_ (freewalk_entry (freewalk_from depth') pagetable) (seq 0 512) ;;
    kfree pagetable
  end.
Definition freewalk (pagetable : Z) : M mm unit := freewalk_from 3 pagetable.

Definition uvmfree (pagetable sz : Z) : M mm unit :=
  when (0 <? sz) (uvmunmap pagetable 0 (PGROUNDUP sz / PGSIZE) true) ;;
  freewalk pagetable.

(** The loop of [uvmcopy]; the result is the loop counter at [goto err]. *)
Fixpoint uvmcopy_loop (fuel : nat) (old new i sz : Z) : M mm (option Z) :=
  match fuel with
  | O => out_of_fuel
  | S fuel' =>
    if i <? sz then
      pte <- walk old i false ;;
      if pte =? 0 then uvmcopy_loop fuel' old new (u64 (i + PGSIZE)) sz
      else
        e <- load_pte pte ;;
        if negb (flag e PTE_V) then uvmcopy_loop fuel' old new (u64 (i + PGSIZE)) sz
        else
          pa <- kalloc ;;
          if pa =? 0 then ret (Some i)
          else
            modify (fun s => s <| mem := memmove pa (PTE2PA e) (Z.to_nat PGSIZE) (mem s) |>) ;;
            r <- mappages new i PGSIZE pa (PTE_FLAGS e) ;;
            if negb (r =? 0) then kfree pa ;; ret (Some i)
            else uvmcopy_loop fuel' old new (u64 (i + PGSIZE)) sz
    else ret None
  end.

Definition uvmcopy (old new sz : Z) : M mm Z :=
  r <- uvmcopy_loop (S (Z.to_nat (sz / PGSIZE + 1))) old new 0 sz ;;
  match r with
  | None => ret 0
  | Some i => uvmunmap new 0 (i / PGSIZE) true ;; ret (-1)
  end.

Definition uvmclear (pagetable va : Z) : M mm unit :=
  pte <- walk pagetable va false ;;
  if pte =? 0 then panic "uvmclear"
  else e <- load_pte pte ;; store_pte pte (Z.land e (u64 (Z.lnot PTE_U))).

(** ** Page faults and copying between kernel and user memory *)

(** The argument [read] of [vmfault] is not used. *)
Definition vmfault (pagetable va : Z) : M mm Z :=
  i <- lift myproc ;;
  p <- lift (get_proc i) ;;
  if p_sz p <=? va then ret 0
  else
    let va := PGROUNDDOWN va in
    b <- ismapped pagetable va ;;
    if b : bool then ret 0
    else
      pa <- kalloc ;;
      if pa =? 0 then ret 0
      else
        zero_page pa ;;
        r <- mappages (p_pagetable p) va PGSIZE pa (Z.lor (Z.lor PTE_W PTE_U) PTE_R) ;;
        if negb (r =? 0) then kfree pa ;; ret 0
        else ret pa.

(** The physical page for a user address, allocated if it is lazy. *)
Definition walk_or_fault (pagetable va0 : Z) : M mm Z :=
  pa0 <- walkaddr pagetable va0 ;;
  if pa0 =? 0 then vmfault pagetable va0 else ret pa0.

(** One iteration copies at least a byte, so [len] bounds the iterations. *)
Fixpoint copyout_loop (fuel : nat) (pagetable dstva : Z) (src : list Z) : M mm Z :=
  match fuel with
  | O => out_of_fuel
  | S fuel' =>
    if Nat.eqb (length src) 0 then ret 0
    else
      let va0 := PGROUNDDOWN dstva in
      if MAXVA <=? va0 then ret (-1)
      else
        pa0 <- walk_or_fault pagetable va0 ;;
        if pa0 =? 0 then ret (-1)
        else
          pte <- walk pagetable va0 false ;;
          e <- load_pte pte ;;
          if negb (flag e PTE_W) then ret (-1)
          else
            let n := Z.to_nat (Z.min (PGSIZE - (dstva - va0)) (Z.of_nat (length src))) in
            modify (fun s => s <| mem := write_bytes (mem s) (pa0 + (dstva - va0)) (take n src) |>) ;;
            copyout_loop fuel' pagetable (u64 (va0 + PGSIZE)) (drop n src)
  end.
Definition copyout (pagetable dstva : Z) (src : list Z) : M mm Z :=
  copyout_loop (S (length src)) pagetable dstva src.

(** [acc] holds the bytes stored in the destination so far. *)
Fixpoint copyin_loop (fuel : nat) (pagetable srcva : Z) (len : nat) (acc : list Z)
    : M mm (Z * list Z) :=
  match fuel with
  | O => out_of_fuel
  | S fuel' =>
    if Nat.eqb len 0 then ret (0, acc)
    else
      let va0 := PGROUNDDOWN srcva in
      pa0 <- walk_or_fault pagetable va0 ;;
      if pa0 =? 0 then ret (-1, acc)
      else
        let n := Z.to_nat (Z.min (PGSIZE - (srcva - va0)) (Z.of_nat len)) in
        bs <- gets (fun s => read_bytes (mem s) (pa0 + (srcva - va0)) n) ;;
        copyin_loop fuel' pagetable (u64 (va0 + PGSIZE)) (len - n) (acc ++ bs)
  end.
Definition copyin (pagetable srcva : Z) (len : nat) : M mm (Z * list Z) :=
  copyin_loop (S len) pagetable srcva len [].

(** The inner loop of [copyinstr]: whether a nul was found within [n] bytes
    from [p] on, and the bytes stored. *)
Fixpoint copyinstr_page (n : nat) (p : Z) (m : memory) : bool * list Z :=
  match n with
  | O => (false, [])
  | S n' =>
    if m p =? 0 then (true, [0])
    else let '(got_null, bs) := copyinstr_page n' (p + 1) m in (got_null, m p :: bs)
  end.

Fixpoint copyinstr_loop (fuel : nat) (pagetable srcva : Z) (max : nat) (acc : list Z)
    : M mm (Z * list Z) :=
  match fuel with
  | O => out_of_fuel
  | S fuel' =>
    if Nat.eqb max 0 then ret (-1, acc)
    else
      let va0 := PGROUNDDOWN srcva in
      pa0 <- walkaddr pagetable va0 ;;
      if pa0 =? 0 then ret (-1, acc)
      else
        let n := Z.to_nat (Z.min (PGSIZE - (srcva - va0)) (Z.of_nat max)) in
        '(got_null, bs) <- gets (fun s => copyinstr_page n (pa0 + (srcva - va0)) (mem s)) ;;
        if got_null : bool then ret (0, acc ++ bs)
        else copyinstr_loop fuel' pagetable (u64 (va0 + PGSIZE)) (max - n) (acc ++ bs)
  end.
Definition copyinstr (pagetable srcva : Z) (max : nat) : M mm (Z * list Z) :=
  copyinstr_loop (S max) pagetable srcva max [].

(** ** Copying to and from either user or kernel space, [kernel/proc.c]

    A destination is a user address, a physical address or a variable of the
    kernel, whose new bytes the caller keeps; a source is a user address or
    the bytes of a kernel variable. *)

Inductive place : Set := User (va : Z) | Phys (pa : Z) | Local.
Definition place_add (p : place) (n : Z) : place :=
  match p with
  | User va => User (u64 (va + n))
  | Phys pa => Phys (u64 (pa + n))
  | Local => Local
  end.
Inductive source : Set := FromUser (va : Z) | FromBytes (l : list Z).
Definition source_add (p : source) (n : Z) : source :=
  match p with
  | FromUser va => FromUser (u64 (va + n))
  | FromBytes l => FromBytes (drop (Z.to_nat n) l)
  end.

Definition either_copyout (dst : place) (src : list Z) : M mm Z :=
  i <- lift myproc ;;
  p <- lift (get_proc i) ;;
  match dst with
  | User va => copyout (p_pagetable p) va src
  | Phys pa => modify (fun s => s <| mem := write_bytes (mem s) pa src |>) ;; ret 0
  | Local => ret 0
  end.
(** The return code and the bytes stored at the destination. *)
Definition either_copyin (src : source) (len : nat) : M mm (Z * list Z) :=
  i <- lift myproc ;;
  p <- lift (get_proc i) ;;
  match src with
  | FromUser va => copyin (p_pagetable p) va len
  | FromBytes l => ret (0, take len l)
  end.

(** ** The kernel's own page table *)

(** [proc_mapstacks] of [kernel/proc.c] *)
Definition proc_mapstacks (kpgtbl : Z) : M mm unit :=
  mapM_ (fun i : nat =>
    pa <- kalloc ;;
    if pa =? 0 then panic "kalloc"
    else kvmmap kpgtbl (KSTACK (Z.of_nat i)) pa PGSIZE (Z.lor PTE_R PTE_W)) (seq 0 NPROC).

Definition kvmmake (etext trampoline : Z) : M mm Z :=
  kpgtbl <- kalloc ;;
  zero_page kpgtbl ;;
  kvmmap kpgtbl UART0 UART0 PGSIZE (Z.lor PTE_R PTE_W) ;;
  kvmmap kpgtbl VIRTIO0 VIRTIO0 PGSIZE (Z.lor PTE_R PTE_W) ;;
  kvmmap kpgtbl PLIC PLIC 0x4000000 (Z.lor PTE_R PTE_W) ;;
  kvmmap kpgtbl KERNBASE KERNBASE (u64 (etext - KERNBASE)) (Z.lor PTE_R PTE_X) ;;
  kvmmap kpgtbl etext etext (u64 (PHYSTOP - etext)) (Z.lor PTE_R PTE_W) ;;
  kvmmap kpgtbl TRAMPOLINE trampoline PGSIZE (Z.lor PTE_R PTE_X) ;;
  proc_mapstacks kpgtbl ;;
  ret kpgtbl.

(** [kernel_pagetable] and the processor's page-table register. *)
Record kvm : Type := mkkvm { kvm_mm : mm; kernel_pagetable : Z; satp : Z }.
#[export] Instance embed_mm_kvm : Embed mm kvm := {|
  prj := kvm_mm;
  inj := fun m s => mkkvm m (kernel_pagetable s) (satp s);
|}.

Definition kvminit (etext trampoline : Z) : M kvm unit :=
  t <- lift (kvmmake etext trampoline) ;;
  modify (fun s => mkkvm (kvm_mm s) t (satp s)).
(** [sfence_vma] only orders memory accesses. *)
Definition kvminithart : M kvm unit :=
  modify (fun s => mkkvm (kvm_mm s) (kernel_pagetable s) (MAKE_SATP (kernel_pagetable s))).
