(* ===== verification/VmInv.v ===== *)
(** * What a page table represents

    [pt_inv m T A]: the memory [m] holds a three-level page table whose
    pages are [T], indexed by the path of entries that leads to each, and
    whose leaf entries are [A], indexed by the path of an address.  [walk],
    [mappages] and [uvmunmap] are shown to read and update exactly [A], and
    to take the pages they need from the free list without losing any. *)

From stdpp Require Import base numbers strings decidable sets gmap functions list.
From S2P Require Import Prelude.
From S2P Require Import CString.
From S2P Require Import Riscv.
From S2P Require Import Sched.
From S2P Require Import Kalloc.
From S2P Require Import Vm.
Open Scope Z_scope.
Open Scope xv6_scope.

Ltac pglia := change MAXVA with (2 ^ 38) in *; unfold PGSIZE in *; lia.

(** ** Entries in memory *)

Definition slot (i : Z) : Prop := 0 <= i < 512.
Definition aligned (p : Z) : Prop := p mod PGSIZE = 0.

Lemma PX_slot level va : 0 <= level -> slot (PX level va).
Proof. apply PX_range. Qed.

(** Entries of tables do not overlap. *)
Lemma slot_disjoint p q i j b :
  aligned p -> aligned q -> slot i -> slot j -> (p, i) <> (q, j) ->
  pte_at p i <= b < pte_at p i + 8 -> ~ (pte_at q j <= b < pte_at q j + 8).
Proof.
  unfold aligned, slot, pte_at, PGSIZE. intros Hp Hq Hi Hj Hne Hb Hb'.
  destruct (decide (p = q)) as [->|].
  - assert (i = j) by lia. congruence.
  - pose proof (Z.div_mod p 4096). pose proof (Z.div_mod q 4096). lia.
Qed.

Lemma load_store_slot m p i v :
  0 <= v < 2 ^ 64 -> load64 (store64 m (pte_at p i) v) (pte_at p i) = v.
Proof. apply load_store64. Qed.

Lemma load_store_other m p q i j v :
  aligned p -> aligned q -> slot i -> slot j -> (p, i) <> (q, j) ->
  load64 (store64 m (pte_at q j) v) (pte_at p i) = load64 m (pte_at p i).
Proof.
  intros. apply load64_ext. intros b Hb. apply write_bytes_out. len.
  assert (~ (pte_at q j <= b < pte_at q j + 8)) by (by apply (slot_disjoint p q i j b)). lia.
Qed.

Lemma slot_in_page p i b :
  slot i -> pte_at p i <= b < pte_at p i + 8 -> in_page p b.
Proof. unfold slot, pte_at, in_page, PGSIZE. lia. Qed.

Lemma load_off p q i m m' :
  same_off q m m' -> aligned p -> aligned q -> p <> q -> slot i ->
  load64 m' (pte_at p i) = load64 m (pte_at p i).
Proof.
  intros Hs Hp Hq Hne Hi. apply load64_ext. intros b Hb. apply Hs.
  apply (pages_disjoint p q); try done. by eapply slot_in_page.
Qed.

Lemma store_slot_off m p i v : slot i -> same_off p m (store64 m (pte_at p i) v).
Proof.
  intros Hi a Ha. apply write_bytes_out. len.
  destruct (decide (pte_at p i <= a < pte_at p i + 8)) as [H|H]; [|lia].
  by destruct Ha; eapply slot_in_page.
Qed.

Lemma le_dec_zeroes l : Forall (eq 0) l -> le_dec l = 0.
Proof. induction 1 as [|? ? <- _ IH]; [done|]. simpl. lia. Qed.

Lemma load_zero_page p i m : filled p 0 m -> slot i -> load64 m (pte_at p i) = 0.
Proof.
  intros Hf Hi. apply le_dec_zeroes, Forall_lookup. intros k b Hk.
  pose proof (lookup_lt_Some _ _ _ Hk) as Hlt. rewrite length_read_bytes in Hlt.
  rewrite read_bytes_lookup in Hk by done. injection Hk as <-.
  symmetry. apply Hf. eapply slot_in_page; [done|]. lia.
Qed.

(** ** Page-table entries *)

Record pte_ok (pa f : Z) : Prop := {
  po_pa : 0 <= pa < 2 ^ 56;
  po_al : aligned pa;
  po_f : 0 <= f < 2 ^ 10;
  po_v : flag f PTE_V = true;
}.
Definition mkpte (pa f : Z) : Z := Z.lor (PA2PTE pa) f.

Lemma mkpte_pa pa f : pte_ok pa f -> PTE2PA (mkpte pa f) = pa.
Proof. intros []. by apply pte_pa. Qed.
Lemma mkpte_flag pa f b : pte_ok pa f -> 0 <= b < 2 ^ 10 -> flag (mkpte pa f) b = flag f b.
Proof. intros [] ?. unfold flag, mkpte. by rewrite pte_bit. Qed.
Lemma mkpte_flags pa f : pte_ok pa f -> PTE_FLAGS (mkpte pa f) = f.
Proof. intros []. by apply pte_flags. Qed.

Lemma mkpte_range pa f : 0 <= pa < 2 ^ 56 -> aligned pa -> 0 <= f < 2 ^ 10 ->
  0 <= mkpte pa f < 2 ^ 64.
Proof.
  intros Hp Ha Hf. unfold mkpte, PA2PTE.
  assert (0 <= pa / 4096 < 2 ^ 44).
  { split; [apply Z.div_pos; lia|apply Z.div_lt_upper_bound; lia]. }
  rewrite u64_small by
    (rewrite Z.shiftl_mul_pow2, Z.shiftr_div_pow2 by lia; change (2 ^ 12) with 4096; lia).
  rewrite lor_shift_low, Z.shiftr_div_pow2 by lia. change (2 ^ 12) with 4096. lia.
Qed.

Lemma inner_ok pa : 0 <= pa < 2 ^ 56 -> aligned pa -> pte_ok pa PTE_V.
Proof. by split. Qed.

(** ** The table *)

(** The entries [walk] goes through for an address. *)
Definition path (va : Z) : list Z := [PX 2 va; PX 1 va; PX 0 va].

Notation tables := (gmap (list Z) Z).
Notation leaves := (gmap (list Z) (Z * Z)).

Definition inner_entry (T : tables) (κ : list Z) : Z :=
  match T !! κ with Some q => mkpte q PTE_V | None => 0 end.
Definition leaf_entry (A : leaves) (κ : list Z) : Z :=
  match A !! κ with Some (pa, f) => mkpte pa f | None => 0 end.

Record pt_inv (m : memory) (T : tables) (A : leaves) : Prop := {
  pi_page : forall π p, T !! π = Some p -> 0 < p < 2 ^ 56 /\ aligned p /\ (length π <= 2)%nat;
  pi_inj : forall π π' p, T !! π = Some p -> T !! π' = Some p -> π = π';
  pi_parent : forall π i p, T !! (π ++ [i]) = Some p -> is_Some (T !! π) /\ slot i;
  pi_inner : forall π p i, T !! π = Some p -> (length π < 2)%nat -> slot i ->
    load64 m (pte_at p i) = inner_entry T (π ++ [i]);
  pi_leaf : forall π p i, T !! π = Some p -> length π = 2%nat -> slot i ->
    load64 m (pte_at p i) = leaf_entry A (π ++ [i]);
  pi_A : forall κ pa f, A !! κ = Some (pa, f) -> pte_ok pa f /\
    exists π i, κ = π ++ [i] /\ is_Some (T !! π) /\ length π = 2%nat /\ slot i;
}.

Lemma pt_prefix m T A π κ p :
  pt_inv m T A -> T !! (π ++ κ) = Some p -> is_Some (T !! π).
Proof.
  intros I. revert p. induction κ as [|i κ IH] using rev_ind; intros p H.
  - rewrite app_nil_r in H. by exists p.
  - rewrite app_assoc in H. apply (pi_parent _ _ _ I) in H as [[q Hq] _]. by eapply IH.
Qed.

Lemma app_one_ne (π : list Z) i : π ++ [i] <> π.
Proof. intros E. apply (f_equal length) in E. rewrite length_app in E. simpl in E. lia. Qed.
Lemma app_one_inj (π π' : list Z) i i' : π ++ [i] = π' ++ [i'] <-> π = π' /\ i = i'.
Proof. split; [apply app_inj_tail|by intros [-> ->]]. Qed.

(** Writes outside the pages of a table leave the table as it is. *)
Lemma pt_ext m m' T A :
  pt_inv m T A ->
  (forall π p i, T !! π = Some p -> slot i -> load64 m' (pte_at p i) = load64 m (pte_at p i)) ->
  pt_inv m' T A.
Proof.
  intros [Hp Hi Hpar Hin Hle HA] H. split; try done.
  - intros π p i Hπ Hl Hs. rewrite (H π) by done. by apply Hin.
  - intros π p i Hπ Hl Hs. rewrite (H π) by done. by apply Hle.
Qed.

Lemma pt_off q m m' T A :
  pt_inv m T A -> same_off q m m' -> aligned q -> (forall π, T !! π <> Some q) ->
  pt_inv m' T A.
Proof.
  intros I Hs Hq Hn. apply (pt_ext m); [done|]. intros π p i Hπ Hi.
  apply (load_off p q); try done; [by eapply (pi_page _ _ _ I)|]. intros ->. by apply (Hn π).
Qed.

(** A write to one entry of table [p] is seen through that entry only. *)
Lemma load_store_table m T A π π' p p' i i' v :
  pt_inv m T A -> T !! π = Some p -> T !! π' = Some p' -> slot i -> slot i' ->
  (π, i) <> (π', i') ->
  load64 (store64 m (pte_at p i) v) (pte_at p' i') = load64 m (pte_at p' i').
Proof.
  intros I H H' Hi Hi' Hne.
  apply load_store_other; try done; [by eapply (pi_page _ _ _ I)..|].
  intros [= -> ->]. apply Hne. f_equal. by eapply (pi_inj _ _ _ I).
Qed.

(** Setting, changing and clearing a leaf entry. *)
Lemma pt_set_leaf m T A π p i pa f :
  pt_inv m T A -> T !! π = Some p -> length π = 2%nat -> slot i -> pte_ok pa f ->
  pt_inv (store64 m (pte_at p i) (mkpte pa f)) T (<[π ++ [i] := (pa, f)]> A).
Proof.
  intros I Hπ Hl Hi Hok. split; [apply I|apply I|apply I| | |].
  - intros π' p' i' Hπ' Hl' Hi'. erewrite load_store_table by (done || (intros [= -> ->]; lia)).
    by apply (pi_inner _ _ _ I).
  - intros π' p' i' Hπ' Hl' Hi'. unfold leaf_entry.
    destruct (decide ((π, i) = (π', i'))) as [[= <- <-]|Hne].
    + rewrite lookup_insert_eq. rewrite Hπ in Hπ'. injection Hπ' as <-.
      apply load_store_slot, mkpte_range; apply Hok.
    + rewrite lookup_insert_ne by (rewrite app_one_inj; naive_solver).
      erewrite load_store_table by done. by apply (pi_leaf _ _ _ I).
  - intros κ pa' f'. destruct (decide (κ = π ++ [i])) as [->|Hne].
    + rewrite lookup_insert_eq. intros [= <- <-]. split; [done|]. by exists π, i.
    + rewrite lookup_insert_ne by done. apply I.
Qed.

Lemma pt_clear_leaf m T A π p i :
  pt_inv m T A -> T !! π = Some p -> length π = 2%nat -> slot i ->
  pt_inv (store64 m (pte_at p i) 0) T (delete (π ++ [i]) A).
Proof.
  intros I Hπ Hl Hi. split; [apply I|apply I|apply I| | |].
  - intros π' p' i' Hπ' Hl' Hi'. erewrite load_store_table by (done || (intros [= -> ->]; lia)).
    by apply (pi_inner _ _ _ I).
  - intros π' p' i' Hπ' Hl' Hi'. unfold leaf_entry.
    destruct (decide ((π, i) = (π', i'))) as [[= <- <-]|Hne].
    + rewrite lookup_delete_eq. rewrite Hπ in Hπ'. injection Hπ' as <-.
      by apply load_store_slot.
    + rewrite lookup_delete_ne by (rewrite app_one_inj; naive_solver).
      erewrite load_store_table by done. by apply (pi_leaf _ _ _ I).
  - intros κ pa' f' [_ H]%lookup_delete_Some. by apply I in H.
Qed.

(** Hanging a zeroed page below an inner entry. *)
Lemma pt_add_table m T A π p i q :
  pt_inv m T A -> T !! π = Some p -> (length π < 2)%nat -> slot i ->
  T !! (π ++ [i]) = None -> (forall π', T !! π' <> Some q) ->
  0 < q < 2 ^ 56 -> aligned q -> filled q 0 m ->
  pt_inv (store64 m (pte_at p i) (mkpte q PTE_V)) (<[π ++ [i] := q]> T) A.
Proof.
  intros I Hπ Hl Hi Hnone Hfresh Hr Ha Hz.
  assert (Hp : aligned p /\ p <> q).
  { split; [by eapply (pi_page _ _ _ I)|]. intros ->. by apply (Hfresh π). }
  assert (Hnew : forall j, slot j ->
    load64 (store64 m (pte_at p i) (mkpte q PTE_V)) (pte_at q j) = 0).
  { intros j Hj. rewrite (load_off q p j m) by (by apply store_slot_off || apply Hp || done ||
      (symmetry; apply Hp)). by apply load_zero_page. }
  assert (Hch : forall j, T !! ((π ++ [i]) ++ [j]) = None /\ A !! ((π ++ [i]) ++ [j]) = None).
  { intros j. split; apply eq_None_not_Some; intros [x Hx].
    - apply (pi_parent _ _ _ I) in Hx as [[? Hx] _]. congruence.
    - destruct x as [pa f]. apply (pi_A _ _ _ I) in Hx as [_ (π' & j' & E & [? Hx] & _)].
      apply app_one_inj in E as [<- _]. congruence. }
  split.
  - intros π' p' [[<- <-]|[_ H]]%lookup_insert_Some; [|by apply I in H]. rewrite length_app; simpl.
    split_and!; done || lia.
  - intros π1 π2 p' [[<- E1]|[? H1]]%lookup_insert_Some [[<- E2]|[? H2]]%lookup_insert_Some;
      subst; [done|by destruct (Hfresh π2)|by destruct (Hfresh π1)|by eapply (pi_inj _ _ _ I)].
  - intros π' j p' [[E%app_one_inj <-]|[_ H]]%lookup_insert_Some.
    + destruct E as [<- <-]. split; [|done]. exists p. by rewrite lookup_insert_ne by apply app_one_ne.
    + apply (pi_parent _ _ _ I) in H as [[r H] ?]. split; [|done].
      destruct (decide (π ++ [i] = π')) as [<-|]; [by rewrite lookup_insert_eq; eexists|].
      rewrite lookup_insert_ne by done. by eexists.
  - intros π' p' j [[<- <-]|[Hne H]]%lookup_insert_Some Hl' Hj; unfold inner_entry.
    + rewrite Hnew by done. rewrite lookup_insert_ne by (intros E; by apply (app_one_ne (π ++ [i]) j)).
      by rewrite (proj1 (Hch j)).
    + destruct (decide ((π, i) = (π', j))) as [[= <- <-]|Hne'].
      * rewrite lookup_insert_eq. rewrite Hπ in H. injection H as <-.
        apply load_store_slot, mkpte_range; done || lia.
      * rewrite lookup_insert_ne by (rewrite app_one_inj; naive_solver).
        erewrite load_store_table by done. by apply (pi_inner _ _ _ I).
  - intros π' p' j [[<- <-]|[Hne H]]%lookup_insert_Some Hl' Hj; unfold leaf_entry.
    + rewrite Hnew by done. by rewrite (proj2 (Hch j)).
    + erewrite load_store_table by (done || (intros [= -> ->]; lia)). by apply (pi_leaf _ _ _ I).
  - intros κ pa f H. apply (pi_A _ _ _ I) in H as (Hok & π' & j & -> & [r Hr'] & ?).
    split; [done|]. exists π', j. split_and!; try done; try apply H.
    destruct (decide (π ++ [i] = π')) as [<-|]; [by rewrite lookup_insert_eq; eexists|].
    rewrite lookup_insert_ne by done. by eexists.
Qed.

(** ** The table and the allocator together *)

Record vm_inv (s : mm) (l : list Z) (T : tables) (A : leaves) : Prop := {
  vi_k : kmem_inv s l;
  vi_pt : pt_inv (mem s) T A;
  vi_disj : forall π p, T !! π = Some p -> p ∉ l;
  vi_valid : forall π p, T !! π = Some p -> valid_page (k_end s) p;
  vi_lock : LkKmem ∉ held (mm_mach s);
}.

(** The pages a table and the allocator own between them. *)
Definition own (l : list Z) (T : tables) : gset Z := list_to_set l ∪ map_img T.

(** A step that writes only pages of [P]. *)
Record vstep (P : gset Z) (s s' : mm) : Prop := {
  vs_mach : mm_mach s' = mm_mach s;
  vs_end : k_end s' = k_end s;
  vs_mem : forall a, (forall p, p ∈ P -> ~ in_page p a) -> mem s' a = mem s a;
}.
Lemma vstep_refl P s : vstep P s s.
Proof. by split. Qed.
Lemma vstep_trans P s1 s2 s3 : vstep P s1 s2 -> vstep P s2 s3 -> vstep P s1 s3.
Proof.
  intros [M1 E1 H1] [M2 E2 H2]. split; [congruence..|]. intros a Ha. by rewrite H2, H1.
Qed.
Lemma vstep_mono P P' s s' : P ⊆ P' -> vstep P s s' -> vstep P' s s'.
Proof. intros HP [M E H]. split; [done..|]. intros a Ha. apply H. set_solver. Qed.
Lemma vstep_page P s s' p :
  p ∈ P -> mm_mach s' = mm_mach s -> k_end s' = k_end s -> same_off p (mem s) (mem s') ->
  vstep P s s'.
Proof. intros Hp M E H. split; [done..|]. intros a Ha. by apply H, Ha. Qed.

Lemma elem_of_own l T p : p ∈ own l T <-> p ∈ l \/ exists π, T !! π = Some p.
Proof. unfold own. rewrite elem_of_union, elem_of_list_to_set, elem_of_map_img. done. Qed.

Lemma own_table T l π p : T !! π = Some p -> p ∈ own l T.
Proof. intros. apply elem_of_own. eauto. Qed.

Lemma valid_page_range s l p :
  kmem_inv s l -> valid_page (k_end s) p -> 0 < p < 2 ^ 56 /\ aligned p.
Proof.
  intros K [Ha Hr]. pose proof (ki_end _ _ K). change PHYSTOP with 0x88000000 in Hr.
  unfold PGSIZE in *. split; [lia|done].
Qed.

(** A change of memory within a page that is not free. *)
Lemma kmem_inv_off s l p m' :
  kmem_inv s l -> same_off p (mem s) m' -> aligned p -> p ∉ l -> kmem_inv (s <| mem := m' |>) l.
Proof.
  intros K Hs Ha Hp. pose proof (kmem_inv_aligned _ _ K). destruct K as [? ? ? ?].
  split; try done. simpl. by eapply free_chain_same_off.
Qed.

Lemma zero_page_ok p s :
  p <> 0 -> exists m', zero_page p s = Ok tt (s <| mem := m' |>) /\
    same_off p (mem s) m' /\ filled p 0 m'.
Proof.
  intros Hp. unfold zero_page. rewrite (proj2 (Z.eqb_neq _ _)) by done.
  eexists. split; [done|]. apply (memset_page p 0).
Qed.

Lemma load_pte_ok a s : a <> 0 -> load_pte a s = Ok (load64 (mem s) a) s.
Proof. intros. unfold load_pte. by rewrite (proj2 (Z.eqb_neq _ _)). Qed.
Lemma store_pte_ok a v s : a <> 0 -> store_pte a v s = Ok tt (s <| mem := store64 (mem s) a v |>).
Proof. intros. unfold store_pte. by rewrite (proj2 (Z.eqb_neq _ _)). Qed.

(** What the walk finds in an inner and in a leaf entry. *)
Lemma pt_inner_some m T A π p i q :
  pt_inv m T A -> T !! π = Some p -> (length π < 2)%nat -> slot i -> T !! (π ++ [i]) = Some q ->
  flag (load64 m (pte_at p i)) PTE_V = true /\ PTE2PA (load64 m (pte_at p i)) = q.
Proof.
  intros I Hπ Hl Hi Hq. rewrite (pi_inner _ _ _ I π) by done. unfold inner_entry. rewrite Hq.
  apply I in Hq as (Hr & Ha & _). assert (pte_ok q PTE_V) by (apply inner_ok; [lia|done]).
  by rewrite mkpte_flag, mkpte_pa.
Qed.
Lemma pt_inner_none m T A π p i :
  pt_inv m T A -> T !! π = Some p -> (length π < 2)%nat -> slot i -> T !! (π ++ [i]) = None ->
  flag (load64 m (pte_at p i)) PTE_V = false.
Proof.
  intros I Hπ Hl Hi Hq. rewrite (pi_inner _ _ _ I π) by done. unfold inner_entry. by rewrite Hq.
Qed.
Lemma pt_leaf_V m T A π p i :
  pt_inv m T A -> T !! π = Some p -> length π = 2%nat -> slot i ->
  flag (load64 m (pte_at p i)) PTE_V = bool_decide (is_Some (A !! (π ++ [i]))).
Proof.
  intros I Hπ Hl Hi. rewrite (pi_leaf _ _ _ I π) by done. unfold leaf_entry.
  destruct (A !! _) as [[pa f]|] eqn:E; [|done].
  apply I in E as [Hok _]. rewrite mkpte_flag by done. rewrite bool_decide_true by done. apply Hok.
Qed.

(** The indices [walk] still has to go through at a level. *)
Fixpoint down (level : nat) (va : Z) : list Z :=
  match level with O => [] | S n => PX (Z.of_nat level) va :: down n va end.
Lemma path_down va : path va = down 2 va ++ [PX 0 va].
Proof. done. Qed.

Lemma pte_at_ne s l T A π p i :
  vm_inv s l T A -> T !! π = Some p -> slot i -> pte_at p i <> 0.
Proof.
  intros I H Hi. apply (pi_page _ _ _ (vi_pt _ _ _ _ I)) in H. unfold slot, pte_at in *. lia.
Qed.

Lemma walk_from_lookup s l T A level π p va :
  vm_inv s l T A -> T !! π = Some p -> (length π + level = 2)%nat ->
  walk_from level p va false s =
    Ok (match T !! (π ++ down level va) with Some q => pte_at q (PX 0 va) | None => 0 end) s.
Proof.
  intros I. revert π p. induction level as [|level IH]; intros π p Hπ Hl.
  { simpl. by rewrite app_nil_r, Hπ. }
  cbn [walk_from]. pose proof (PX_slot (Z.of_nat (S level)) va ltac:(lia)) as Hi.
  erewrite bind_ok by (apply load_pte_ok; by eapply pte_at_ne).
  cbn [down]. rewrite cons_middle, app_assoc.
  destruct (T !! (π ++ [PX (Z.of_nat (S level)) va])) as [q|] eqn:E.
  - destruct (pt_inner_some _ _ _ _ _ _ _ (vi_pt _ _ _ _ I) Hπ ltac:(lia) Hi E) as [-> ->].
    apply IH; [done|]. rewrite length_app. simpl. lia.
  - rewrite (pt_inner_none _ _ _ _ _ _ (vi_pt _ _ _ _ I) Hπ ltac:(lia) Hi E). simpl.
    destruct (T !! (_ ++ down level va)) eqn:E'; [|done].
    apply (pt_prefix _ _ _ _ _ _ (vi_pt _ _ _ _ I)) in E' as [? ?]. congruence.
Qed.

Lemma walk_lookup s l T A root va :
  vm_inv s l T A -> T !! [] = Some root -> va < MAXVA ->
  walk root va false s =
    Ok (match T !! down 2 va with Some q => pte_at q (PX 0 va) | None => 0 end) s.
Proof.
  intros I H Hv. unfold walk. rewrite (proj2 (Z.leb_gt _ _)) by done.
  by apply (walk_from_lookup s l T A 2 []).
Qed.

(** Tables at known places need no more pages than there are places. *)
Lemma size_set_le {A} `{Countable A} (xs : list A) : (size (list_to_set xs : gset A) <= length xs)%nat.
Proof.
  induction xs as [|x xs IH]; cbn [list_to_set length]; [by rewrite size_empty|].
  rewrite size_union_alt, size_singleton.
  assert (size (list_to_set xs ∖ {[x]} : gset A) <= size (list_to_set xs : gset A))%nat by (apply subseteq_size; set_solver). lia.
Qed.
Lemma map_img_le (T : tables) : (size (map_img T : gset Z) <= size T)%nat.
Proof.
  rewrite <- (length_map_to_list T). etrans; [|rewrite <- (length_fmap snd); apply size_set_le].
  apply subseteq_size. intros p (π & Hp)%elem_of_map_img. apply elem_of_list_to_set, list_elem_of_fmap.
  exists (π, p). split; [done|]. by apply elem_of_map_to_list.
Qed.
Lemma tables_room (l : list Z) (T : tables) (keys : list (list Z)) :
  (forall π, is_Some (T !! π) -> π ∈ keys) -> (size (own l T) <= length l + length keys)%nat.
Proof.
  intros Hk. unfold own. rewrite size_union_alt. apply Nat.add_le_mono; [apply size_set_le|].
  etrans; [apply (subseteq_size _ (map_img T)); set_solver|]. etrans; [apply map_img_le|].
  rewrite <- size_dom. etrans; [|apply (size_set_le keys)]. apply subseteq_size.
  intros π Hπ%elem_of_dom. by apply elem_of_list_to_set, Hk.
Qed.

(** An allocated page becomes a table below an empty inner entry. *)
Lemma grow_table s l T A π p i q :
  vm_inv s (q :: l) T A -> T !! π = Some p -> (length π < 2)%nat -> slot i ->
  T !! (π ++ [i]) = None ->
  exists s1 s2 s3, kalloc s = Ok q s1 /\ q <> 0 /\ zero_page q s1 = Ok tt s2 /\ 
    store_pte (pte_at p i) (Z.lor (PA2PTE q) PTE_V) s2 = Ok tt s3 /\ 
    vm_inv s3 l (<[π ++ [i] := q]> T) A /\ vstep (own (q :: l) T) s s3 /\ 
    own l (<[π ++ [i] := q]> T) = own (q :: l) T.
Proof.
  intros I Hπ Hl Hi Hn. destruct I as [K P D V L].
  destruct (kalloc_some s q l K L) as (s1 & E1 & K1 & (M1 & N1 & O1) & _ & Hv & Hql).
  destruct (valid_page_range _ _ _ K Hv) as [Hq Ha].
  destruct (zero_page_ok q s1) as (m2 & E2 & O2 & Z2); [lia|].
  assert (Hfr : forall π', T !! π' <> Some q).
  { intros π' H. apply D in H. set_solver. }
  assert (Hp : 0 < p < 2 ^ 56 /\ aligned p) by (split; by eapply (pi_page _ _ _ P)).
  assert (Hpl : p ∉ q :: l) by (by eapply D).
  assert (O12 : same_off q (mem s) m2) by (by eapply same_off_trans).
  assert (P2 : pt_inv m2 T A) by (by apply (pt_off q (mem s))).
  eexists s1, _, _. split_and!; [done|lia|done| | | |].
  - apply store_pte_ok. unfold pte_at, slot in *. lia.
  - split; simpl.
    + apply (kmem_inv_off (s1 <| mem := m2 |>) l p); [|by apply store_slot_off|apply Hp|set_solver].
      by apply (kmem_inv_off s1 l q).
    + by apply pt_add_table.
    + intros π' p' [[<- <-]|[_ H]]%lookup_insert_Some; [done|]. apply D in H. set_solver.
    + rewrite N1. intros π' p' [[<- <-]|[_ H]]%lookup_insert_Some; [done|by eapply V].
    + by rewrite M1.
  - apply (vstep_trans _ _ (s1 <| mem := m2 |>)).
    + apply (vstep_page _ _ _ q); try done. apply elem_of_own. left. set_solver.
    + apply (vstep_page _ _ _ p); [by eapply own_table|done..|]. by apply store_slot_off.
  - unfold own. rewrite map_img_insert_notin_L by done. set_solver.
Qed.

(** Tables were added, at places of [D] only. *)
Record grew (D : list Z -> Prop) (T T' : tables) : Prop := {
  gr_sub : T ⊆ T';
  gr_only : forall π, is_Some (T' !! π) -> is_Some (T !! π) \/ D π;
}.
Lemma grew_refl D T : grew D T T.
Proof. split; [done|by left]. Qed.
Lemma grew_trans D T1 T2 T3 : grew D T1 T2 -> grew D T2 T3 -> grew D T1 T3.
Proof. intros [S1 O1] [S2 O2]. split; [by etrans|]. intros π [Hπ|Hπ]%O2; [by apply O1|by right]. Qed.
Lemma grew_insert (D : list Z -> Prop) (T : tables) π q : D π -> T !! π = None -> grew D T (<[π := q]> T).
Proof.
  intros Hd Hn. split; [by apply insert_subseteq|]. intros π' [q' Hq]. apply lookup_insert_Some in Hq as [[<- _]|[_ Hq]]; [by right|left; by eexists].
Qed.

(** [walk] with [alloc]: it fails only when the free list is empty; else it
    gives the leaf slot, having added the tables it was missing. *)
Lemma walk_from_alloc (D : list Z -> Prop) s l T A level π p va :
  vm_inv s l T A -> T !! π = Some p -> (length π + level = 2)%nat ->
  (forall k, D (π ++ take k (down level va))) ->
  exists r s' l' T', walk_from level p va true s = Ok r s' /\ vm_inv s' l' T' A /\
    vstep (own l T) s s' /\ own l' T' = own l T /\ grew D T T' /\
    match T' !! (π ++ down level va) with
    | Some q => r = pte_at q (PX 0 va)
    | None => r = 0 /\ l' = []
    end.
Proof.
  revert s l T π p. induction level as [|level IH]; intros s l T π p I Hπ Hl HD.
  { eexists _, s, l, T. split_and!; try done; [apply grew_refl|]. by rewrite app_nil_r, Hπ. }
  cbn [walk_from down] in *. pose proof (PX_slot (Z.of_nat (S level)) va ltac:(lia)) as Hi.
  set (i := PX (Z.of_nat (S level)) va) in *.
  erewrite bind_ok by (apply load_pte_ok; by eapply pte_at_ne).
  rewrite cons_middle, app_assoc.
  assert (Hl' : (length (π ++ [i]) + level = 2)%nat) by (rewrite length_app; simpl; lia).
  assert (HD' : forall k, D ((π ++ [i]) ++ take k (down level va))) by (intros k; rewrite <- app_assoc; apply (HD (S k))).
  destruct (T !! (π ++ [i])) as [q|] eqn:E.
  { destruct (pt_inner_some _ _ _ _ _ _ _ (vi_pt _ _ _ _ I) Hπ ltac:(lia) Hi E) as [-> ->].
    by apply IH. }
  rewrite (pt_inner_none _ _ _ _ _ _ (vi_pt _ _ _ _ I) Hπ ltac:(lia) Hi E). cbn [negb].
  destruct l as [|q l].
  { erewrite bind_ok by (apply kalloc_none; apply I).
    eexists 0, s, [], T. split_and!; try done; [apply grew_refl|].
    destruct (T !! (_ ++ down level va)) eqn:E'; [|done].
    apply (pt_prefix _ _ _ _ _ _ (vi_pt _ _ _ _ I)) in E' as [? ?]. congruence. }
  destruct (grow_table s l T A π p i q I Hπ ltac:(lia) Hi E)
    as (s1 & s2 & s3 & E1 & Hq & E2 & E3 & I3 & V3 & O3).
  erewrite bind_ok by exact E1. rewrite (proj2 (Z.eqb_neq _ _)) by done.
  erewrite bind_ok by exact E2. erewrite bind_ok by exact E3.
  destruct (IH s3 l (<[π ++ [i] := q]> T) (π ++ [i]) q) as (r & s' & l' & T' & E' & I' & V' & O' & S' & R');
    [done|by rewrite lookup_insert_eq|done|done|].
  exists r, s', l', T'. split_and!; try done.
  - rewrite O3 in V'. by eapply vstep_trans.
  - by rewrite O'.
  - eapply grew_trans; [|exact S']. apply grew_insert; [apply (HD 1%nat)|done].
Qed.

Lemma walk_alloc (D : list Z -> Prop) s l T A root va :
  vm_inv s l T A -> T !! [] = Some root -> va < MAXVA -> (forall k, D (take k (down 2 va))) ->
  exists r s' l' T', walk root va true s = Ok r s' /\ vm_inv s' l' T' A /\
    vstep (own l T) s s' /\ own l' T' = own l T /\ grew D T T' /\
    match T' !! down 2 va with
    | Some q => r = pte_at q (PX 0 va)
    | None => r = 0 /\ l' = []
    end.
Proof.
  intros I H Hv HD. unfold walk. rewrite (proj2 (Z.leb_gt _ _)) by done.
  by apply (walk_from_alloc D s l T A 2 []).
Qed.

(** Reading through a leaf entry. *)
Lemma walkaddr_ok s l T A root va :
  vm_inv s l T A -> T !! [] = Some root ->
  walkaddr root va s =
    Ok (if decide (va < MAXVA) then
          match A !! path va with Some (pa, f) => if flag f PTE_U then pa else 0 | None => 0 end
        else 0) s.
Proof.
  intros I H. unfold walkaddr. case_decide as Hv; [|by rewrite (proj2 (Z.leb_le _ _)) by lia].
  rewrite (proj2 (Z.leb_gt _ _)) by done. erewrite bind_ok by (by eapply walk_lookup).
  pose proof (PX_slot 0 va ltac:(lia)) as Hi. rewrite path_down.
  destruct (T !! down 2 va) as [q|] eqn:E.
  - rewrite (proj2 (Z.eqb_neq _ _)) by (by eapply pte_at_ne).
    erewrite bind_ok by (apply load_pte_ok; by eapply pte_at_ne).
    rewrite (pi_leaf _ _ _ (vi_pt _ _ _ _ I) (down 2 va)) by done. unfold leaf_entry.
    destruct (A !! (down 2 va ++ [PX 0 va])) as [[pa f]|] eqn:EA; [|done].
    destruct (pi_A _ _ _ (vi_pt _ _ _ _ I) _ _ _ EA) as [Hok _].
    rewrite !mkpte_flag, mkpte_pa, (po_v _ _ Hok) by done. simpl. by destruct (flag f PTE_U).
  - rewrite Z.eqb_refl. destruct (A !! _) as [[pa f]|] eqn:EA; [|done].
    apply (pi_A _ _ _ (vi_pt _ _ _ _ I)) in EA as (_ & π & i & EE & [? Hπ] & _).
    apply app_one_inj in EE as [<- _]. congruence.
Qed.

Lemma ismapped_ok s l T A root va :
  vm_inv s l T A -> T !! [] = Some root -> va < MAXVA ->
  ismapped root va s = Ok (bool_decide (is_Some (A !! path va))) s.
Proof.
  intros I H Hv. unfold ismapped. erewrite bind_ok by (by eapply walk_lookup).
  pose proof (PX_slot 0 va ltac:(lia)) as Hi. rewrite path_down.
  destruct (T !! down 2 va) as [q|] eqn:E.
  - rewrite (proj2 (Z.eqb_neq _ _)) by (by eapply pte_at_ne).
    erewrite bind_ok by (apply load_pte_ok; by eapply pte_at_ne).
    by rewrite (pt_leaf_V _ T A (down 2 va)) by (done || apply I).
  - rewrite Z.eqb_refl. rewrite bool_decide_false; [done|]. intros [[pa f] EA].
    apply (pi_A _ _ _ (vi_pt _ _ _ _ I)) in EA as (_ & π & i & EE & [? Hπ] & _).
    apply app_one_inj in EE as [<- _]. congruence.
Qed.

(** ** Changing leaf entries *)

Lemma vm_set_leaf s l T A va q pa f :
  vm_inv s l T A -> T !! down 2 va = Some q -> pte_ok pa f ->
  exists s', store_pte (pte_at q (PX 0 va)) (mkpte pa f) s = Ok tt s' /\
    vm_inv s' l T (<[path va := (pa, f)]> A) /\ vstep (own l T) s s'.
Proof.
  intros I Hq Hok. pose proof (PX_slot 0 va ltac:(lia)) as Hi.
  assert (Ha : aligned q) by (by eapply (pi_page _ _ _ (vi_pt _ _ _ _ I))).
  rewrite store_pte_ok by (by eapply pte_at_ne). eexists. split; [done|]. split.
  - destruct I as [K P D V L]. split; try done.
    + apply (kmem_inv_off s l q); [done|by apply store_slot_off|done|by eapply D].
    + rewrite path_down. by apply pt_set_leaf.
  - apply (vstep_page _ _ _ q); [by eapply own_table|done..|]. by apply store_slot_off.
Qed.

Lemma vm_clear_leaf s l T A va q :
  vm_inv s l T A -> T !! down 2 va = Some q ->
  exists s', store_pte (pte_at q (PX 0 va)) 0 s = Ok tt s' /\
    vm_inv s' l T (delete (path va) A) /\ vstep (own l T) s s'.
Proof.
  intros I Hq. pose proof (PX_slot 0 va ltac:(lia)) as Hi.
  assert (Ha : aligned q) by (by eapply (pi_page _ _ _ (vi_pt _ _ _ _ I))).
  rewrite store_pte_ok by (by eapply pte_at_ne). eexists. split; [done|]. split.
  - destruct I as [K P D V L]. split; try done.
    + apply (kmem_inv_off s l q); [done|by apply store_slot_off|done|by eapply D].
    + rewrite path_down. by apply pt_clear_leaf.
  - apply (vstep_page _ _ _ q); [by eapply own_table|done..|]. by apply store_slot_off.
Qed.

(** The leaf entries after [n] pages from [va] on are mapped. *)
Fixpoint map_range (n : nat) (va pa f : Z) (A : leaves) : leaves :=
  match n with
  | O => A
  | S n' => map_range n' (va + PGSIZE) (pa + PGSIZE) f (<[path va := (pa, f)]> A)
  end.

(** What [mappages] may have done: all [n] pages, or the first few of them
    and no page is left for tables. *)
Definition mapped_some (n : nat) (r : Z) (k : nat) (l' : list Z) : Prop :=
  (r = 0 /\ k = n) \/ (r = -1 /\ (k < n)%nat /\ l' = []).

Lemma path_inj va va' :
  0 <= va < MAXVA -> 0 <= va' < MAXVA -> aligned va -> aligned va' ->
  path va = path va' -> va = va'.
Proof.
  unfold path. change MAXVA with (2 ^ 38). intros ? ? ? ? [= ? ? ?].
  apply PX_inj; done || lia.
Qed.

Lemma aligned_add p i : aligned p -> aligned (p + i * PGSIZE).
Proof. unfold aligned. intros. by rewrite Z.mod_add. Qed.

Lemma lor_flags a b : 0 <= a < 2 ^ 10 -> 0 <= b < 2 ^ 10 -> 0 <= Z.lor a b < 2 ^ 10.
Proof.
  intros Ha Hb. rewrite <- (Z.mod_small a (2 ^ 10)), <- (Z.mod_small b (2 ^ 10)) by done.
  rewrite <- !Z.land_ones, <- Z.land_lor_distr_l, Z.land_ones by lia. apply Z.mod_pos_bound. lia.
Qed.

Lemma perm_ok pa perm :
  0 <= pa < 2 ^ 56 -> aligned pa -> 0 <= perm < 2 ^ 10 -> pte_ok pa (Z.lor perm PTE_V).
Proof.
  intros Hp Ha Hf. split; try done.
  - by apply lor_flags.
  - unfold flag. rewrite Z.land_lor_distr_l, Z.land_diag.
    destruct (Z.lor _ _ =? 0) eqn:E; [|done]. apply Z.eqb_eq, Z.lor_eq_0_iff in E as [_ E]. done.
Qed.

(** One iteration of [mappages]. *)
Lemma mappages_step (D : list Z -> Prop) n s l T A root a last pa perm :
  vm_inv s l T A -> T !! [] = Some root -> a < MAXVA -> A !! path a = None ->
  0 <= pa < 2 ^ 56 -> aligned pa -> 0 <= perm < 2 ^ 10 -> (forall k, D (take k (down 2 a))) ->
  exists s' l' T' A', vm_inv s' l' T' A' /\ vstep (own l T) s s' /\ own l' T' = own l T /\ grew D T T' /\
    ((mappages_loop (S n) root a last pa perm s = Ok (-1) s' /\ A' = A /\ l' = []) \/
     (mappages_loop (S n) root a last pa perm s =
        (if a =? last then ret 0
         else mappages_loop n root (u64 (a + PGSIZE)) last (u64 (pa + PGSIZE)) perm) s' /\
      A' = <[path a := (pa, Z.lor perm PTE_V)]> A)).
Proof.
  intros I HT Ha Hf Hp Hal Hperm HD. cbn [mappages_loop].
  destruct (walk_alloc D s l T A root a I HT Ha HD) as (r & s1 & l1 & T1 & E1 & I1 & V1 & O1 & S1 & R1).
  erewrite bind_ok by exact E1. pose proof (PX_slot 0 a ltac:(lia)) as Hi.
  destruct (T1 !! down 2 a) as [q|] eqn:Eq.
  - subst r. rewrite (proj2 (Z.eqb_neq _ _)) by (by eapply pte_at_ne).
    erewrite bind_ok by (apply load_pte_ok; by eapply pte_at_ne).
    rewrite (pt_leaf_V _ T1 A (down 2 a)) by (done || apply I1).
    rewrite <- path_down, Hf, bool_decide_false by (by intros []).
    destruct (vm_set_leaf s1 l1 T1 A a q pa (Z.lor perm PTE_V) I1 Eq) as (s2 & E2 & I2 & V2);
      [by apply perm_ok|].
    unfold mkpte in E2. rewrite <- Z.lor_assoc. erewrite bind_ok by exact E2.
    rewrite O1 in V2. eexists s2, l1, T1, _. split_and!; [exact I2| |done|done|by right].
    by eapply vstep_trans.
  - destruct R1 as [-> ->]. exists s1, [], T1, A. split_and!; try done. by left.
Qed.

Lemma mappages_loop_ok (D : list Z -> Prop) n s l T A root a pa perm :
  vm_inv s l T A -> T !! [] = Some root ->
  0 <= a -> aligned a -> a + Z.of_nat (S n) * PGSIZE <= MAXVA ->
  0 <= pa -> aligned pa -> pa + Z.of_nat (S n) * PGSIZE <= 2 ^ 56 -> 0 <= perm < 2 ^ 10 ->
  (forall i : nat, (i <= n)%nat -> A !! path (a + Z.of_nat i * PGSIZE) = None) ->
  (forall (i : nat) k, (i <= n)%nat -> D (take k (down 2 (a + Z.of_nat i * PGSIZE)))) ->
  exists r s' l' T' k,
    mappages_loop (S n) root a (a + Z.of_nat n * PGSIZE) pa perm s = Ok r s' /\
    vm_inv s' l' T' (map_range k a pa (Z.lor perm PTE_V) A) /\ vstep (own l T) s s' /\
    own l' T' = own l T /\ grew D T T' /\ mapped_some (S n) r k l'.
Proof.
  revert s l T A a pa. induction n as [|n IH]; intros s l T A a pa I HT Ha Hal Hv Hpa Hpal Hp Hperm Hf HD.
  all: assert (HD0 : forall k, D (take k (down 2 a))) by (intros k; rewrite <- (Z.add_0_r a); apply (HD 0%nat); lia).
  all: pose proof (Hf 0%nat ltac:(lia)) as Hf0; simpl in Hf0; rewrite Z.add_0_r in Hf0.
  - destruct (mappages_step D 0 s l T A root a (a + Z.of_nat 0 * PGSIZE) pa perm I HT)
      as (s' & l' & T' & A' & I' & V' & O' & S' & [(E & -> & ->)|(E & ->)]);
      [pglia|done|pglia|done|done|done| |].
    + exists (-1), s', [], T', 0%nat. split_and!; try done. right. split_and!; done || lia.
    + rewrite (proj2 (Z.eqb_eq _ _)) in E by lia.
      exists 0, s', l', T', 1%nat. split_and!; try done. by left.
  - destruct (mappages_step D (S n) s l T A root a (a + Z.of_nat (S n) * PGSIZE) pa perm I HT)
      as (s1 & l1 & T1 & A1 & I1 & V1 & O1 & S1 & [(E & -> & ->)|(E & ->)]);
      [pglia|done|pglia|done|done|done| |].
    + exists (-1), s1, [], T1, 0%nat. split_and!; try done. right. split_and!; done || lia.
    + change MAXVA with (2 ^ 38) in *.
      rewrite (proj2 (Z.eqb_neq _ _)) in E by (unfold PGSIZE; lia). rewrite E.
      rewrite !u64_small by (unfold PGSIZE in *; lia).
      replace (a + Z.of_nat (S n) * PGSIZE) with (a + PGSIZE + Z.of_nat n * PGSIZE) by lia.
      destruct (IH s1 l1 T1 _ (a + PGSIZE) (pa + PGSIZE) I1) as (r & s' & l' & T' & k & E' & I' & V' & O' & S' & R').
      * by eapply lookup_weaken; [|apply S1].
      * pglia.
      * by apply pg_aligned_add.
      * lia.
      * pglia.
      * by apply pg_aligned_add.
      * lia.
      * done.
      * intros i Hle. rewrite lookup_insert_ne.
        -- rewrite <- (Hf (S i)) by lia. f_equal. f_equal. lia.
        -- intros Ep%path_inj; [pglia|pglia|pglia|done|].
           replace (a + PGSIZE) with (a + 1 * PGSIZE) by lia. by do 2 apply aligned_add.
      * intros i k Hi. replace (a + PGSIZE + Z.of_nat i * PGSIZE) with (a + Z.of_nat (S i) * PGSIZE) by lia. apply HD. lia.
      * exists r, s', l', T', (S k). split_and!; try done.
        -- rewrite O1 in V'. by eapply vstep_trans.
        -- congruence.
        -- by eapply grew_trans.
        -- destruct R' as [[-> ->]|(-> & ? & ->)]; [by left|right]. split_and!; done || lia.
Qed.

Lemma lookup_map_range_out n va pa f A κ :
  (forall i : nat, (i < n)%nat -> κ <> path (va + Z.of_nat i * PGSIZE)) ->
  map_range n va pa f A !! κ = A !! κ.
Proof.
  revert va pa A. induction n as [|n IH]; intros va pa A H; [done|]. cbn [map_range]. rewrite IH.
  - rewrite lookup_insert_ne; [done|]. intros <-. apply (H 0%nat); [lia|]. f_equal. lia.
  - intros i Hi E. apply (H (S i)); [lia|]. rewrite E. f_equal. lia.
Qed.

Lemma lookup_map_range n va pa f A (i : nat) :
  (i < n)%nat -> 0 <= va -> aligned va -> va + Z.of_nat n * PGSIZE <= MAXVA ->
  map_range n va pa f A !! path (va + Z.of_nat i * PGSIZE) = Some (pa + Z.of_nat i * PGSIZE, f).
Proof.
  revert va pa A i. induction n as [|n IH]; intros va pa A i Hi Hv Hal Hmax; [lia|]. cbn [map_range].
  destruct i as [|i].
  - rewrite !Z.add_0_r. rewrite lookup_map_range_out; [apply lookup_insert_eq|].
    intros j Hj E. apply path_inj in E; [pglia|pglia|pglia|done|].
    replace (va + PGSIZE) with (va + 1 * PGSIZE) by lia. by do 2 apply aligned_add.
  - replace (va + Z.of_nat (S i) * PGSIZE) with (va + PGSIZE + Z.of_nat i * PGSIZE) by lia.
    rewrite IH; [do 2 f_equal; lia|lia|pglia|by apply pg_aligned_add|lia].
Qed.

Lemma mappages_ok (D : list Z -> Prop) s l T A root va n pa perm :
  vm_inv s l T A -> T !! [] = Some root -> (0 < n)%nat ->
  0 <= va -> aligned va -> va + Z.of_nat n * PGSIZE <= MAXVA ->
  0 <= pa -> aligned pa -> pa + Z.of_nat n * PGSIZE <= 2 ^ 56 -> 0 <= perm < 2 ^ 10 ->
  (forall i : nat, (i < n)%nat -> A !! path (va + Z.of_nat i * PGSIZE) = None) ->
  (forall (i : nat) k, (i < n)%nat -> D (take k (down 2 (va + Z.of_nat i * PGSIZE)))) ->
  exists r s' l' T' k, mappages root va (Z.of_nat n * PGSIZE) pa perm s = Ok r s' /\
    vm_inv s' l' T' (map_range k va pa (Z.lor perm PTE_V) A) /\ vstep (own l T) s s' /\
    own l' T' = own l T /\ grew D T T' /\ mapped_some n r k l'.
Proof.
  intros I HT Hn Hv Hal Hmax Hpa Hpal Hp Hperm HN HD. destruct n as [|n]; [lia|]. unfold mappages.
  rewrite Hal, Z.mod_mul, Z.div_mul, Nat2Z.id by done. cbn [Z.eqb negb].
  rewrite (proj2 (Z.eqb_neq _ _)) by pglia. rewrite u64_small by pglia.
  replace (va + Z.of_nat (S n) * PGSIZE - PGSIZE) with (va + Z.of_nat n * PGSIZE) by lia.
  apply mappages_loop_ok; try done; intros; [apply HN|apply HD]; lia.
Qed.

Lemma map_one (D : list Z -> Prop) s l T A root a pa perm :
  vm_inv s l T A -> T !! [] = Some root -> 0 <= a -> aligned a -> a + PGSIZE <= MAXVA ->
  0 <= pa -> aligned pa -> pa + PGSIZE <= 2 ^ 56 -> 0 <= perm < 2 ^ 10 -> A !! path a = None -> (forall k, D (take k (down 2 a))) ->
  exists r s' l' T', mappages root a PGSIZE pa perm s = Ok r s' /\ vstep (own l T) s s' /\ own l' T' = own l T /\ grew D T T' /\
    ((r = 0 /\ vm_inv s' l' T' (<[path a := (pa, Z.lor perm PTE_V)]> A)) \/ (r = -1 /\ l' = [] /\ vm_inv s' l' T' A)).
Proof.
  intros V HT Ha Hal Hm Hp Hpal Hpm Hperm Hn HD. change PGSIZE with (Z.of_nat 1 * PGSIZE) in Hm, Hpm |- * at 1.
  destruct (mappages_ok D s l T A root a 1 pa perm V HT) as (r & s' & l' & T' & k & E & V' & S' & O' & Gr & R); try done; try lia.
  { intros i Hi. replace i with 0%nat by lia. by rewrite Z.add_0_r. }
  { intros i j Hi. replace i with 0%nat by lia. by rewrite Z.add_0_r. }
  exists r, s', l', T'. split; [done|]. split; [done|]. split; [done|]. split; [done|].
  destruct R as [[-> ->]|(-> & Hk & ->)]; [by left|right]. replace k with 0%nat in V' by lia. done.
Qed.

(** [mappages] of [n] pages from [va] on, none of them mapped yet,
    maps each of them to the corresponding physical page with the requested
    permissions, changes no other mapping and returns 0, so that [walkaddr]
    translates every address of the range that has the user bit; or it
    returns -1 because no page is left for a table.  It writes only tables
    and free pages, and the pages of the table and of the free list together
    stay the same. *)
Theorem mappages_spec s l T A root va n pa perm :
  vm_inv s l T A -> T !! [] = Some root -> (0 < n)%nat ->
  0 <= va -> aligned va -> va + Z.of_nat n * PGSIZE <= MAXVA ->
  0 <= pa -> aligned pa -> pa + Z.of_nat n * PGSIZE <= 2 ^ 56 -> 0 <= perm < 2 ^ 10 ->
  (forall i : nat, (i < n)%nat -> A !! path (va + Z.of_nat i * PGSIZE) = None) ->
  exists r s' l' T' A', mappages root va (Z.of_nat n * PGSIZE) pa perm s = Ok r s' /\
    vm_inv s' l' T' A' /\ vstep (own l T) s s' /\ own l' T' = own l T /\
    (forall κ, (forall i : nat, (i < n)%nat -> κ <> path (va + Z.of_nat i * PGSIZE)) -> A' !! κ = A !! κ) /\
    ((r = 0 /\ forall i : nat, (i < n)%nat ->
        A' !! path (va + Z.of_nat i * PGSIZE) = Some (pa + Z.of_nat i * PGSIZE, Z.lor perm PTE_V) /\
        walkaddr root (va + Z.of_nat i * PGSIZE) s' =
          Ok (if flag (Z.lor perm PTE_V) PTE_U then pa + Z.of_nat i * PGSIZE else 0) s') \/
     (r = -1 /\ l' = [])).
Proof.
  intros I HT Hn Hv Hal Hmax Hpa Hpal Hp Hperm HN.
  destruct (mappages_ok (fun _ => True) s l T A root va n pa perm) as (r & s' & l' & T' & k & E & I' & S' & O' & Sub & R); try done.
  exists r, s', l', T', (map_range k va pa (Z.lor perm PTE_V) A). split_and!; try done.
  - intros κ Hκ. apply lookup_map_range_out. intros i Hi. apply Hκ. destruct R as [[_ ->]|(_ & ? & _)]; lia.
  - destruct R as [[-> ->]|(-> & _ & ->)]; [left|by right]. split; [done|]. intros i Hi.
    assert (HA : map_range n va pa (Z.lor perm PTE_V) A !! path (va + Z.of_nat i * PGSIZE) =
      Some (pa + Z.of_nat i * PGSIZE, Z.lor perm PTE_V)) by (by apply lookup_map_range).
    split; [done|]. rewrite (walkaddr_ok s' l' T' (map_range n va pa (Z.lor perm PTE_V) A)) by
      (done || by eapply lookup_weaken; [|apply Sub]).
    rewrite decide_True by pglia. by rewrite HA.
Qed.
