(* ===== verification/Uvm.v ===== *)
(** * User address spaces

    [uvm_inv s l T U F]: a page table with tables [T] maps the pages of a
    process, [U], each to a physical page of its own, and the foreign pages
    [F] (the trampoline and the trap frame, or the whole of the kernel's
    table) that user code cannot reach.  Free pages, tables and user pages
    are all different, and every routine of [kernel/vm.c] conserves their
    union: nothing is leaked and nothing is handed out twice. *)

From stdpp Require Import base numbers strings decidable sets gmap functions list.
From S2P Require Import Prelude.
From S2P Require Import CString.
From S2P Require Import Riscv.
From S2P Require Import Sched.
From S2P Require Import Kalloc.
From S2P Require Import Vm.
From S2P Require Import VmInv.
Open Scope Z_scope.
Open Scope xv6_scope.

Definition frames (U : leaves) : gset Z := map_img (fst <$> U).
Lemma elem_of_frames U p : p ∈ frames U <-> exists κ f, U !! κ = Some (p, f).
Proof.
  unfold frames. rewrite elem_of_map_img. setoid_rewrite lookup_fmap_Some.
  split; [intros (κ & [] & <- & H); eauto|intros (κ & f & H); by exists κ, (p, f)].
Qed.

Record uvm_inv (s : mm) (l : list Z) (T : tables) (U F : leaves) : Prop := {
  ui_vm : vm_inv s l T (U ∪ F);
  ui_disj : U ##ₘ F;
  ui_page : forall κ pa f, U !! κ = Some (pa, f) ->
    valid_page (k_end s) pa /\ pa ∉ own l T;
  ui_inj : forall κ κ' pa f f', U !! κ = Some (pa, f) -> U !! κ' = Some (pa, f') -> κ = κ';
  ui_foreign : forall κ pa f, F !! κ = Some (pa, f) -> flag f PTE_U = false;
}.

(** All the pages of the process and of the allocator. *)
Definition uown (l : list Z) (T : tables) (U : leaves) : gset Z := own l T ∪ frames U.
(** A page taken off the free list and not used yet. *)
Definition spare (s : mm) (l : list Z) (T : tables) (U : leaves) (pa : Z) : Prop :=
  valid_page (k_end s) pa /\ pa ∉ uown l T U.

Lemma vstep_kmem s s' l T U F :
  uvm_inv s l T U F -> mm_mach s' = mm_mach s -> k_end s' = k_end s ->
  kmem_inv s' l -> pt_inv (mem s') T (U ∪ F) -> uvm_inv s' l T U F.
Proof.
  intros [[K P D V L] ? Hp ? ?] M E K' P'. split; try done; rewrite ?E; try done.
  split; try done; [by rewrite E|by rewrite M].
Qed.

Lemma uvm_kalloc s q l T U F :
  uvm_inv s (q :: l) T U F ->
  exists s1, kalloc s = Ok q s1 /\ q <> 0 /\ uvm_inv s1 l T U F /\ spare s1 l T U q /\
    vstep {[q]} s s1.
Proof.
  intros I. destruct (ui_vm _ _ _ _ _ I) as [K P D V L].
  destruct (kalloc_some s q l K L) as (s1 & E1 & K1 & (M1 & N1 & O1) & _ & Hv & Hql).
  destruct (valid_page_range _ _ _ K Hv) as [Hq Ha].
  assert (Hfr : forall π', T !! π' <> Some q).
  { intros π' H. apply D in H. set_solver. }
  exists s1. split_and!; [done|lia| | |].
  - split.
    + split; [done| | | |by rewrite M1].
      * by apply (pt_off q (mem s)).
      * intros π p H. apply D in H. set_solver.
      * by rewrite N1.
    + apply I.
    + intros κ pa f H. apply I in H as [? H]. rewrite N1. split; [done|].
      contradict H. apply elem_of_own in H. apply elem_of_own. set_solver.
    + apply I.
    + apply I.
  - split; [by rewrite N1|]. unfold uown. rewrite elem_of_union, elem_of_own, elem_of_frames.
    intros [[H|[π H]]|(κ & f & H)]; [done|by eapply Hfr|]. apply I in H as [_ H].
    apply H, elem_of_own. left. set_solver.
  - apply (vstep_page _ _ _ q); try done. set_solver.
Qed.

Lemma uvm_kalloc_none s T U F : uvm_inv s [] T U F -> kalloc s = Ok 0 s.
Proof. intros I. apply kalloc_none; apply (ui_vm _ _ _ _ _ I). Qed.

(** A write within a page that is neither free nor a table. *)
Lemma uvm_poke s l T U F pa m' :
  uvm_inv s l T U F -> aligned pa -> pa ∉ own l T -> same_off pa (mem s) m' ->
  uvm_inv (s <| mem := m' |>) l T U F.
Proof.
  intros I Ha Hn Hs. pose proof (ui_vm _ _ _ _ _ I) as V. rewrite elem_of_own in Hn.
  apply (vstep_kmem s); try done.
  - eapply kmem_inv_off; [apply V|done|done|]. naive_solver.
  - apply (pt_off pa (mem s)); [apply V|done|done|]. naive_solver.
Qed.

Lemma uvm_off s l T U F pa m' :
  uvm_inv s l T U F -> spare s l T U pa -> same_off pa (mem s) m' ->
  uvm_inv (s <| mem := m' |>) l T U F /\ spare (s <| mem := m' |>) l T U pa.
Proof.
  intros I [Hv Hn] Hs. split; [|done]. eapply uvm_poke; [done|apply Hv| |done].
  unfold uown in Hn. set_solver.
Qed.

Lemma uvm_kfree_spare s l T U F pa :
  uvm_inv s l T U F -> spare s l T U pa ->
  exists s', kfree pa s = Ok tt s' /\ uvm_inv s' (pa :: l) T U F /\ vstep {[pa]} s s'.
Proof.
  intros I [Hv Hn]. destruct (ui_vm _ _ _ _ _ I) as [K P D V L].
  unfold uown in Hn. rewrite elem_of_union, elem_of_own, elem_of_frames in Hn.
  destruct (kfree_ok s pa l) as (s' & E & K' & (M' & N' & O')); [done|done|naive_solver|done|].
  exists s'. split_and!; [done| |].
  - split; [split; [done| | | |by rewrite M']|apply I| |apply I|apply I].
    + apply (pt_off pa (mem s)); [done|done|apply Hv|naive_solver].
    + intros π p H. pose proof (D _ _ H). apply not_elem_of_cons. split; [|done].
      intros ->. naive_solver.
    + by rewrite N'.
    + intros κ p f H. destruct (ui_page _ _ _ _ _ I _ _ _ H) as [? Ho]. rewrite N'. split; [done|].
      rewrite elem_of_own in *. rewrite elem_of_cons. naive_solver.
  - apply (vstep_page _ _ _ pa); try done. set_solver.
Qed.

(** ** Mapping one page *)

Lemma uvm_map s l T U F root a pa perm :
  uvm_inv s l T U F -> T !! [] = Some root -> 0 <= a -> aligned a -> a + PGSIZE <= MAXVA ->
  (U ∪ F) !! path a = None -> spare s l T U pa -> 0 <= perm < 2 ^ 10 ->
  exists r s' l' T', mappages root a PGSIZE pa perm s = Ok r s' /\
    vstep (own l T) s s' /\ own l' T' = own l T /\ T ⊆ T' /\
    ((r = 0 /\ uvm_inv s' l' T' (<[path a := (pa, Z.lor perm PTE_V)]> U) F) \/
     (r = -1 /\ l' = [] /\ uvm_inv s' l' T' U F /\ spare s' l' T' U pa)).
Proof.
  intros I HT Ha Hal Hmax Hnone [Hv Hn] Hperm. pose proof (ui_vm _ _ _ _ _ I) as V.
  destruct (valid_page_range _ _ _ (vi_k _ _ _ _ V) Hv) as [Hpa Hpal].
  apply lookup_union_None in Hnone as [HU HF].
  destruct (map_one (fun _ => True) s l T (U ∪ F) root a pa perm V HT) as (r & s' & l' & T' & E & S' & O' & Sub & R); try done; try lia.
  { destruct Hv as [_ Hv]. change PHYSTOP with 0x88000000 in Hv. pglia. }
  { by apply lookup_union_None. }
  exists r, s', l', T'. split_and!; try done; [apply Sub|]. pose proof (vs_end _ _ _ S') as N'.
  unfold uown in Hn. rewrite elem_of_union in Hn.
  destruct R as [[-> V']|(-> & -> & V')]; [left|right].
  - split; [done|]. rewrite insert_union_l in V'. split; [done| | | |apply I].
    + apply map_disjoint_insert_l. split; [done|apply I].
    + intros κ p f [[<- [= <- <-]]|[_ H]]%lookup_insert_Some; rewrite N', O'; [naive_solver|].
      by eapply (ui_page _ _ _ _ _ I).
    + intros κ κ' p f f' [[E1 E1']|[_ H1]]%lookup_insert_Some [[E2 E2']|[_ H2]]%lookup_insert_Some.
      * congruence.
      * injection E1' as <- <-. destruct Hn. right. apply elem_of_frames. eauto.
      * injection E2' as <- <-. destruct Hn. right. apply elem_of_frames. eauto.
      * by eapply (ui_inj _ _ _ _ _ I).
  - split_and!; try done.
    + split; [done|apply I| |apply I|apply I]. rewrite N', O'. apply I.
    + split; [by rewrite N'|]. unfold uown. by rewrite O', elem_of_union.
Qed.

(** ** Unmapping and freeing *)

(** Freeing a mapped page and then clearing its entry. *)
Lemma uvm_release s l T U F a q pa f :
  uvm_inv s l T U F -> T !! down 2 a = Some q -> U !! path a = Some (pa, f) ->
  exists s1 s', kfree pa s = Ok tt s1 /\ store_pte (pte_at q (PX 0 a)) 0 s1 = Ok tt s' /\
    uvm_inv s' (pa :: l) T (delete (path a) U) F /\
    uown (pa :: l) T (delete (path a) U) = uown l T U /\ vstep (own (pa :: l) T) s s'.
Proof.
  intros I Hq HU. destruct (ui_page _ _ _ _ _ I _ _ _ HU) as [Hv Hno].
  pose proof (ui_vm _ _ _ _ _ I) as [K P D V L]. rewrite elem_of_own in Hno.
  destruct (kfree_ok s pa l) as (s1 & E1 & K1 & (M1 & N1 & O1)); [done|done|naive_solver|done|].
  assert (V1 : vm_inv s1 (pa :: l) T (U ∪ F)).
  { split; [done| | |by rewrite N1|by rewrite M1].
    - apply (pt_off pa (mem s)); [done|done|apply Hv|naive_solver].
    - intros π p H. apply not_elem_of_cons. split; [naive_solver|by eapply D]. }
  destruct (vm_clear_leaf s1 (pa :: l) T (U ∪ F) a q V1 Hq) as (s' & E' & V' & S').
  exists s1, s'. pose proof (vs_end _ _ _ S') as N'.
  assert (Hd : forall κ p g, delete (path a) U !! κ = Some (p, g) -> U !! κ = Some (p, g) /\ p <> pa).
  { intros κ p g [Hne H]%lookup_delete_Some. split; [done|]. intros ->.
    by apply Hne; eapply (ui_inj _ _ _ _ _ I). }
  split_and!; [done|done| | |].
  - rewrite delete_union, (delete_id F) in V' by
      (by eapply map_disjoint_Some_l; [apply (ui_disj _ _ _ _ _ I)|]).
    split; [done|by apply map_disjoint_delete_l, I| | |apply I].
    + intros κ p g H. apply Hd in H as [H Hne]. apply I in H as [? Ho]. rewrite N', N1.
      split; [done|]. rewrite elem_of_own in *. rewrite elem_of_cons. naive_solver.
    + intros κ κ' p g g' [H _]%Hd [H' _]%Hd. by eapply (ui_inj _ _ _ _ _ I).
  - unfold uown. apply set_eq. intros p. rewrite !elem_of_union, !elem_of_own, !elem_of_frames, elem_of_cons.
    split.
    + intros [[[->|?]|?]|(κ & g & H)]; [|naive_solver..|]; [by eauto|]. apply Hd in H as [H _]. eauto.
    + intros [[?|?]|(κ & g & H)]; [naive_solver..|]. destruct (decide (κ = path a)) as [->|Hne].
      * rewrite HU in H. injection H as <- <-. auto.
      * right. exists κ, g. by rewrite lookup_delete_ne.
  - eapply vstep_trans; [|exact S']. apply (vstep_page _ _ _ pa); try done.
    apply elem_of_own. left. set_solver.
Qed.

Lemma uvm_unmap_one s l T U F root a :
  uvm_inv s l T U F -> T !! [] = Some root -> a < MAXVA -> F !! path a = None ->
  exists s' l', uvmunmap_one root a true s = Ok tt s' /\ uvm_inv s' l' T (delete (path a) U) F /\
    uown l' T (delete (path a) U) = uown l T U /\ vstep (own l' T) s s' /\ l ⊆ l' /\
    match U !! path a with Some (pa, _) => l' = pa :: l | None => l' = l /\ s' = s end.
Proof.
  intros I HT Hmax HF. pose proof (ui_vm _ _ _ _ _ I) as V. unfold uvmunmap_one.
  erewrite bind_ok by (by eapply walk_lookup).
  assert (HA : (U ∪ F) !! path a = U !! path a).
  { destruct (U !! path a) as [x|] eqn:E; [by apply lookup_union_Some_l|by apply lookup_union_None]. }
  pose proof (PX_slot 0 a ltac:(lia)) as Hi.
  destruct (T !! down 2 a) as [q|] eqn:Eq.
  - rewrite (proj2 (Z.eqb_neq _ _)) by (by eapply pte_at_ne).
    erewrite bind_ok by (apply load_pte_ok; by eapply pte_at_ne).
    rewrite (pt_leaf_V _ T (U ∪ F) (down 2 a)), <- path_down, HA by (done || apply V).
    destruct (U !! path a) as [[pa f]|] eqn:EU.
    + rewrite bool_decide_true by done. cbn [negb].
      assert (Epte : load64 (mem s) (pte_at q (PX 0 a)) = mkpte pa f).
      { rewrite (pi_leaf _ _ _ (vi_pt _ _ _ _ V) (down 2 a)) by done.
        unfold leaf_entry. by rewrite <- path_down, HA. }
      assert (Hok : pte_ok pa f) by (eapply (pi_A _ _ _ (vi_pt _ _ _ _ V)); by rewrite HA).
      rewrite Epte, mkpte_pa by done. cbn [when].
      destruct (uvm_release s l T U F a q pa f I Eq EU) as (s1 & s' & E1 & E' & I' & O' & S').
      erewrite bind_ok by exact E1. exists s', (pa :: l). split_and!; try done. set_solver.
    + rewrite bool_decide_false by (by intros []). exists s, l.
      rewrite delete_id by done. split_and!; try done.
  - rewrite Z.eqb_refl. exists s, l.
    assert (HU : U !! path a = None).
    { rewrite <- HA. apply eq_None_not_Some. intros [[pa f] EA].
      apply (pi_A _ _ _ (vi_pt _ _ _ _ V)) in EA as (_ & π & i & EE & [? Hπ] & _).
      rewrite path_down in EE. apply app_one_inj in EE as [<- _]. congruence. }
    rewrite HU, delete_id by done. split_and!; try done.
Qed.

(** The pages of a range, and the entries without them. *)
Definition range_paths (a : Z) (n : nat) : list (list Z) :=
  (fun i : nat => path (a + Z.of_nat i * PGSIZE)) <$> seq 0 n.

Lemma elem_of_range_paths a n κ :
  κ ∈ range_paths a n <-> exists i : nat, (i < n)%nat /\ κ = path (a + Z.of_nat i * PGSIZE).
Proof.
  unfold range_paths. rewrite list_elem_of_fmap. setoid_rewrite elem_of_seq.
  split; intros (i & ? & ?); exists i; split; done || lia.
Qed.

Lemma range_paths_S a n : range_paths a (S n) = path a :: range_paths (a + PGSIZE) n.
Proof.
  unfold range_paths. cbn [seq fmap list_fmap]. f_equal; [f_equal; lia|].
  rewrite <- fmap_S_seq, <- list_fmap_compose. apply list_fmap_ext.
  intros i x _. simpl. f_equal. lia.
Qed.

Fixpoint unmap_range (n : nat) (a : Z) (U : leaves) : leaves :=
  match n with O => U | S n' => unmap_range n' (a + PGSIZE) (delete (path a) U) end.

Lemma lookup_unmap_range n a U κ :
  unmap_range n a U !! κ = if decide (κ ∈ range_paths a n) then None else U !! κ.
Proof.
  revert a U. induction n as [|n IH]; intros a U.
  - by rewrite decide_False by (rewrite elem_of_range_paths; intros (? & ? & ?); lia).
  - cbn [unmap_range]. rewrite IH, range_paths_S.
    destruct (decide (κ = path a)) as [->|Hne].
    + rewrite (decide_True (P := _ ∈ path a :: _)) by (apply list_elem_of_here).
      case_decide; [done|]. apply lookup_delete_eq.
    + rewrite lookup_delete_ne by done.
      destruct (decide (κ ∈ range_paths (a + PGSIZE) n)).
      * by rewrite decide_True by (by apply elem_of_cons; right).
      * by rewrite decide_False by (by apply not_elem_of_cons).
Qed.

Lemma uvmunmap_loop_ok n fuel s l T U F root a :
  (n < fuel)%nat -> uvm_inv s l T U F -> T !! [] = Some root ->
  0 <= a -> a + Z.of_nat n * PGSIZE <= MAXVA ->
  (forall κ, κ ∈ range_paths a n -> F !! κ = None) ->
  exists s' l', uvmunmap_loop fuel root a (a + Z.of_nat n * PGSIZE) true s = Ok tt s' /\
    uvm_inv s' l' T (unmap_range n a U) F /\ uown l' T (unmap_range n a U) = uown l T U /\
    vstep (own l' T) s s' /\ l ⊆ l'.
Proof.
  revert fuel s l U a. induction n as [|n IH]; intros [|fuel] s l U a Hf I HT Ha Hmax HF; try lia;
    cbn [uvmunmap_loop].
  { rewrite (proj2 (Z.ltb_ge _ _)) by lia. by exists s, l. }
  rewrite (proj2 (Z.ltb_lt _ _)) by pglia. rewrite range_paths_S in HF.
  destruct (uvm_unmap_one s l T U F root a I HT) as (s1 & l1 & E1 & I1 & O1 & S1 & L1 & _);
    [pglia|apply HF, list_elem_of_here|].
  erewrite bind_ok by exact E1. rewrite u64_small by pglia.
  replace (a + Z.of_nat (S n) * PGSIZE) with (a + PGSIZE + Z.of_nat n * PGSIZE) by lia.
  destruct (IH fuel s1 l1 (delete (path a) U) (a + PGSIZE)) as (s' & l' & E' & I' & O' & S' & L');
    [lia|done|done|pglia|pglia|intros κ Hκ; by apply HF, elem_of_cons; right|].
  exists s', l'. split_and!; try done.
  - cbn [unmap_range]. by rewrite O'.
  - eapply vstep_trans; [|exact S']. eapply vstep_mono; [|exact S1].
    unfold own. set_solver.
  - set_solver.
Qed.

Lemma uvmunmap_ok n s l T U F root a :
  uvm_inv s l T U F -> T !! [] = Some root ->
  0 <= a -> aligned a -> a + Z.of_nat n * PGSIZE <= MAXVA ->
  (forall κ, κ ∈ range_paths a n -> F !! κ = None) ->
  exists s' l', uvmunmap root a (Z.of_nat n) true s = Ok tt s' /\
    uvm_inv s' l' T (unmap_range n a U) F /\ uown l' T (unmap_range n a U) = uown l T U /\
    vstep (own l' T) s s' /\ l ⊆ l'.
Proof.
  intros I HT Ha Hal Hmax HF. unfold uvmunmap. rewrite Hal. cbn [Z.eqb negb].
  rewrite (u64_small (a + _)) by pglia. rewrite Nat2Z.id.
  apply uvmunmap_loop_ok; done || lia.
Qed.

(** ** Allocating and mapping a page *)

Lemma vm_frame s s' l T A p a :
  vm_inv s l T A -> vstep (own l T) s s' -> aligned p -> p ∉ own l T -> in_page p a ->
  mem s' a = mem s a.
Proof.
  intros I S Hal Hn Ha. apply S. intros q Hq.
  apply (pages_disjoint p q); [done| |by intros ->|done].
  apply elem_of_own in Hq as [Hq|[π Hq]].
  - pose proof (kmem_inv_aligned _ _ (vi_k _ _ _ _ I)) as Hf.
    rewrite Forall_forall in Hf. by apply Hf.
  - by apply (pi_page _ _ _ (vi_pt _ _ _ _ I)) in Hq as (_ & ? & _).
Qed.

Lemma uvm_frame s s' l T U F κ pa f a :
  uvm_inv s l T U F -> vstep (own l T) s s' -> U !! κ = Some (pa, f) -> in_page pa a ->
  mem s' a = mem s a.
Proof.
  intros I S H. destruct (ui_page _ _ _ _ _ I _ _ _ H) as [[Hal _] Hn].
  by apply (vm_frame s s' l T (U ∪ F)); [apply I|..].
Qed.

(** A page off the free list, filled in, is mapped at [a]; when no page is
    left for the tables it can be freed again. *)
Lemma uvm_alloc s q l T U F root a perm :
  uvm_inv s (q :: l) T U F -> T !! [] = Some root -> 0 <= a -> aligned a -> a + PGSIZE <= MAXVA ->
  (U ∪ F) !! path a = None -> 0 <= perm < 2 ^ 10 ->
  exists s1, kalloc s = Ok q s1 /\ q <> 0 /\ vstep {[q]} s s1 /\ forall m2, same_off q (mem s1) m2 ->
    exists r s3 l3 T3, mappages root a PGSIZE q perm (s1 <| mem := m2 |>) = Ok r s3 /\
      T ⊆ T3 /\
      ((r = 0 /\ uvm_inv s3 l3 T3 (<[path a := (q, Z.lor perm PTE_V)]> U) F /\
        {[q]} ∪ own l3 T3 = own (q :: l) T /\ vstep (own (q :: l) T) s s3 /\
        (forall b, in_page q b -> mem s3 b = m2 b)) \/
       (r = -1 /\ exists s4, kfree q s3 = Ok tt s4 /\ uvm_inv s4 [q] T3 U F /\
        own [q] T3 = own (q :: l) T /\ vstep (own (q :: l) T) s s4)).
Proof.
  intros I HT Ha Hal Hmax Hnone Hperm.
  destruct (uvm_kalloc s q l T U F I) as (s1 & E1 & Hq & I1 & P1 & S1).
  exists s1. split_and!; [done|done|done|]. intros m2 Hs2.
  destruct (uvm_off s1 l T U F q m2 I1 P1 Hs2) as [I2 P2].
  destruct (uvm_map (s1 <| mem := m2 |>) l T U F root a q perm)
    as (r & s3 & l3 & T3 & E3 & S3 & O3 & Sub & R); try done.
  exists r, s3, l3, T3. split_and!; [done|done|].
  assert (Hown : own (q :: l) T = {[q]} ∪ own l T) by (unfold own; set_solver).
  assert (S02 : vstep (own (q :: l) T) s (s1 <| mem := m2 |>)).
  { apply (vstep_trans _ _ s1); [by eapply vstep_mono; [|exact S1]; rewrite Hown; set_solver|].
    apply (vstep_page _ _ _ q); try done. set_solver. }
  assert (S03 : vstep (own (q :: l) T) s s3).
  { eapply vstep_trans; [exact S02|]. eapply vstep_mono; [|exact S3]. set_solver. }
  destruct R as [[-> I3]|(-> & -> & I3 & P3)]; [left|right].
  - split_and!; try done; [by rewrite O3|]. intros b Hb.
    change (m2 b) with (mem (s1 <| mem := m2 |>) b).
    apply (vm_frame (s1 <| mem := m2 |>) s3 l T (U ∪ F) q); [apply I2|done|apply P2| |done].
    destruct P2 as [_ P2]. unfold uown in P2. set_solver.
  - split; [done|]. destruct (uvm_kfree_spare s3 [] T3 U F q I3 P3) as (s4 & E4 & I4 & S4).
    exists s4. split_and!; try done.
    + rewrite Hown, <- O3. unfold own. set_solver.
    + eapply vstep_trans; [exact S03|]. eapply vstep_mono; [|exact S4]. set_solver.
Qed.

(** ** Shrinking and growing a process *)

Lemma pgroundup sz : 0 <= sz <= MAXVA ->
  aligned (PGROUNDUP sz) /\ sz <= PGROUNDUP sz < sz + PGSIZE /\ PGROUNDUP sz <= MAXVA.
Proof.
  intros H. change MAXVA with (2 ^ 38) in *. rewrite PGROUNDUP_spec by pglia. split.
  - unfold aligned. by apply Z.mod_mul.
  - unfold PGSIZE. clear -H. divlia.
Qed.

Lemma aligned_sub a b : aligned a -> aligned b -> b <= a ->
  exists n : nat, a = b + Z.of_nat n * PGSIZE.
Proof.
  unfold aligned. intros Ha Hb Hle. exists (Z.to_nat ((a - b) / PGSIZE)).
  unfold PGSIZE in *. clear -Ha Hb Hle. rewrite Z2Nat.id; divlia.
Qed.

(** The number of whole pages [uvmdealloc] gives up. *)
Definition dealloc_pages (oldsz newsz : Z) : nat :=
  Z.to_nat ((PGROUNDUP oldsz - PGROUNDUP newsz) / PGSIZE).

Lemma uvmdealloc_ok s l T U F root oldsz newsz :
  uvm_inv s l T U F -> T !! [] = Some root -> 0 <= newsz <= oldsz -> oldsz <= MAXVA ->
  (forall κ, κ ∈ range_paths (PGROUNDUP newsz) (dealloc_pages oldsz newsz) -> F !! κ = None) ->
  exists s' l', uvmdealloc root oldsz newsz s = Ok newsz s' /\
    let U' := unmap_range (dealloc_pages oldsz newsz) (PGROUNDUP newsz) U in
    uvm_inv s' l' T U' F /\ uown l' T U' = uown l T U /\ vstep (own l' T) s s' /\ l ⊆ l'.
Proof.
  intros I HT Hn Ho HF. unfold uvmdealloc.
  destruct (pgroundup newsz) as (An & Bn & Cn); [lia|].
  destruct (pgroundup oldsz) as (Ao & Bo & Co); [lia|].
  assert (Hle : PGROUNDUP newsz <= PGROUNDUP oldsz).
  { unfold aligned, PGSIZE in *. clear -An Ao Bn Bo Hn. divlia. }
  destruct (aligned_sub _ _ Ao An Hle) as [n En].
  assert (Hd : dealloc_pages oldsz newsz = n).
  { unfold dealloc_pages. rewrite En, Z.add_simpl_l, Z.div_mul by done. lia. }
  rewrite Hd in *. destruct (decide (oldsz = newsz)) as [->|].
  { rewrite Z.leb_refl. exists s, l. assert (n = 0)%nat as -> by pglia. simpl. split_and!; try done. }
  rewrite (proj2 (Z.leb_gt _ _)) by lia. destruct n as [|n].
  { rewrite (proj2 (Z.ltb_ge _ _)) by lia. by exists s, l. }
  rewrite (proj2 (Z.ltb_lt _ _)) by pglia. cbn [when].
  rewrite En, Z.add_simpl_l, Z.div_mul by done.
  rewrite s32_small, u64_small by pglia.
  destruct (uvmunmap_ok (S n) s l T U F root (PGROUNDUP newsz)) as (s' & l' & E & I' & O' & S' & L');
    [done|done|pglia|done|pglia|done|].
  erewrite bind_ok by exact E. by exists s', l'.
Qed.

(** [U] is [U0] with [k] zeroed pages of permission [f] added from [a] on. *)
Record grown (m : memory) (f a : Z) (k : nat) (U0 U : leaves) : Prop := {
  gr_old : forall κ, κ ∉ range_paths a k -> U !! κ = U0 !! κ;
  gr_new : forall i : nat, (i < k)%nat -> exists pa,
    U !! path (a + Z.of_nat i * PGSIZE) = Some (pa, f) /\ filled pa 0 m;
}.

Lemma grown_unmap m f a k U0 U :
  grown m f a k U0 U -> (forall κ, κ ∈ range_paths a k -> U0 !! κ = None) ->
  unmap_range k a U = U0.
Proof.
  intros G HN. apply map_eq. intros κ. rewrite lookup_unmap_range.
  case_decide; [by rewrite HN|by apply G].
Qed.

Lemma range_paths_snoc a n :
  range_paths a (S n) = range_paths a n ++ [path (a + Z.of_nat n * PGSIZE)].
Proof. unfold range_paths. rewrite seq_S, fmap_app. done. Qed.

Lemma range_paths_fresh a n :
  0 <= a -> aligned a -> a + Z.of_nat (S n) * PGSIZE <= MAXVA ->
  path (a + Z.of_nat n * PGSIZE) ∉ range_paths a n.
Proof.
  intros H Ha Hmax. rewrite elem_of_range_paths. intros (i & Hi & E).
  apply path_inj in E; [pglia|pglia|pglia|by apply aligned_add..].
Qed.

Lemma grown_S s s' m f a k l T U0 U F q :
  uvm_inv s l T U F -> vstep (own l T) s s' -> m = mem s -> grown m f a k U0 U ->
  0 <= a -> aligned a -> a + Z.of_nat (S k) * PGSIZE <= MAXVA -> filled q 0 (mem s') ->
  grown (mem s') f a (S k) U0 (<[path (a + Z.of_nat k * PGSIZE) := (q, f)]> U).
Proof.
  intros I S -> [Go Gn] Ha Hal Hmax Hf. split.
  - intros κ. rewrite range_paths_snoc, not_elem_of_app, list_elem_of_singleton. intros [H1 H2].
    rewrite lookup_insert_ne by done. by apply Go.
  - intros i Hi. destruct (decide (i = k)) as [->|].
    + exists q. by rewrite lookup_insert_eq.
    + destruct (Gn i) as (pa & HU & Hz); [lia|]. exists pa. split.
      * rewrite lookup_insert_ne; [done|]. intros E. apply (range_paths_fresh a k); try done.
        rewrite E. apply elem_of_range_paths. exists i. split; [lia|done].
      * intros b Hb. rewrite (uvm_frame s s' l T U F _ pa f b) by done. by apply Hz.
Qed.

Lemma own_sub (s : mm) (l l0 : list Z) (T T0 : tables) (U U0 F : leaves) :
  uvm_inv s l T U F -> uown l T U = uown l0 T0 U0 -> U0 ⊆ U -> own l T ⊆ own l0 T0.
Proof.
  intros I HO HS p Hp. assert (H : p ∈ uown l0 T0 U0) by (rewrite <- HO; unfold uown; set_solver).
  unfold uown in H. apply elem_of_union in H as [H|H]; [done|]. apply elem_of_frames in H as (κ & f & H).
  eapply lookup_weaken in H; [|done]. by apply I in H as [_ []].
Qed.

Section Grow.
Context (s0 : mm) (l0 : list Z) (T0 : tables) (U0 F : leaves) (root base perm : Z).
Context (I0 : uvm_inv s0 l0 T0 U0 F) (HT0 : T0 !! [] = Some root).
Context (Hb : 0 <= base) (Hbal : aligned base) (Hperm : 0 <= perm < 2 ^ 10).

(** The state of the growth after [k] pages. *)
Record growing (s : mm) (l : list Z) (T : tables) (U : leaves) (k : nat) : Prop := {
  gg_inv : uvm_inv s l T U F;
  gg_T : T0 ⊆ T;
  gg_own : uown l T U = uown l0 T0 U0;
  gg_step : vstep (own l0 T0) s0 s;
  gg_grown : grown (mem s) (Z.lor perm PTE_V) base k U0 U;
}.

Lemma growing_sub s l T U k :
  growing s l T U k -> (forall κ, κ ∈ range_paths base k -> U0 !! κ = None) ->
  own l T ⊆ own l0 T0.
Proof.
  intros G HN. eapply own_sub; [apply G|apply G|]. apply map_subseteq_spec. intros κ x H.
  rewrite (gr_old _ _ _ _ _ _ (gg_grown _ _ _ _ _ G)); [done|]. intros Hk. by rewrite HN in H.
Qed.

(** Giving back what was allocated so far. *)
Lemma growing_undo s l T U k :
  growing s l T U k -> base + Z.of_nat k * PGSIZE <= MAXVA ->
  (forall κ, κ ∈ range_paths base k -> (U0 ∪ F) !! κ = None) ->
  exists s' l', uvmdealloc root (base + Z.of_nat k * PGSIZE) base s = Ok base s' /\
    uvm_inv s' l' T U0 F /\ uown l' T U0 = uown l0 T0 U0 /\ vstep (own l0 T0) s0 s'.
Proof.
  intros G Hmax HN. setoid_rewrite lookup_union_None in HN.
  assert (Eb : PGROUNDUP base = base).
  { rewrite PGROUNDUP_spec by pglia. unfold aligned, PGSIZE in *. clear -Hbal. divlia. }
  assert (Ea : PGROUNDUP (base + Z.of_nat k * PGSIZE) = base + Z.of_nat k * PGSIZE).
  { rewrite PGROUNDUP_spec by pglia. unfold aligned, PGSIZE in *. clear -Hbal. divlia. }
  assert (Hd : dealloc_pages (base + Z.of_nat k * PGSIZE) base = k).
  { unfold dealloc_pages. rewrite Ea, Eb, Z.add_simpl_l, Z.div_mul by done. lia. }
  destruct (uvmdealloc_ok s l T U F root (base + Z.of_nat k * PGSIZE) base)
    as (s' & l' & E & I' & O' & S' & _).
  - apply G.
  - eapply lookup_weaken; [exact HT0|apply G].
  - pglia.
  - done.
  - rewrite Hd, Eb. intros κ Hκ. by apply HN.
  - rewrite Hd, Eb in I', O'. rewrite (grown_unmap _ _ _ _ _ _ (gg_grown _ _ _ _ _ G)) in I', O'
      by (intros κ Hκ; by apply HN).
    exists s', l'. split_and!; try done; [by rewrite O'; apply G|].
    eapply vstep_trans; [apply G|]. eapply vstep_mono; [|exact S'].
    eapply own_sub; [exact I'|by rewrite O'; apply G|done].
Qed.

(** One more zeroed page. *)
Lemma growing_step s q l T U k :
  growing s (q :: l) T U k -> base + Z.of_nat (S k) * PGSIZE <= MAXVA ->
  (forall κ, κ ∈ range_paths base (S k) -> (U0 ∪ F) !! κ = None) ->
  exists s1 s2, kalloc s = Ok q s1 /\ q <> 0 /\ zero_page q s1 = Ok tt s2 /\
    exists r s3 l3 T3,
      mappages root (base + Z.of_nat k * PGSIZE) PGSIZE q perm s2 = Ok r s3 /\
      ((r = 0 /\ growing s3 l3 T3
          (<[path (base + Z.of_nat k * PGSIZE) := (q, Z.lor perm PTE_V)]> U) (S k)) \/
       (r = -1 /\ exists s4, kfree q s3 = Ok tt s4 /\ growing s4 [q] T3 U k)).
Proof.
  intros G Hmax HN. pose proof (range_paths_fresh base k Hb Hbal Hmax) as Hfresh.
  assert (Hin : path (base + Z.of_nat k * PGSIZE) ∈ range_paths base (S k)).
  { rewrite range_paths_snoc. apply elem_of_app. right. apply list_elem_of_here. }
  assert (Hnone : (U ∪ F) !! path (base + Z.of_nat k * PGSIZE) = None).
  { apply HN, lookup_union_None in Hin as [H1 H2]. apply lookup_union_None. split; [|done].
    by rewrite (gr_old _ _ _ _ _ _ (gg_grown _ _ _ _ _ G)). }
  assert (HNk : forall κ, κ ∈ range_paths base k -> U0 !! κ = None).
  { intros κ Hκ. eapply proj1, lookup_union_None, HN. rewrite range_paths_snoc.
    apply elem_of_app. by left. }
  pose proof (growing_sub _ _ _ _ _ G HNk) as Hsub.
  destruct G as [I HT HO HS HG].
  destruct (uvm_alloc s q l T U F root (base + Z.of_nat k * PGSIZE) perm)
    as (s1 & E1 & Hq & S1 & R); [done|by eapply lookup_weaken|pglia|by apply aligned_add|pglia|done|done|].
  destruct (zero_page_ok q s1 Hq) as (m2 & E2 & O2 & Z2).
  exists s1, (s1 <| mem := m2 |>). split_and!; try done.
  destruct (R m2 O2) as (r & s3 & l3 & T3 & E3 & Sub & [(-> & I3 & O3 & S3 & C3)|(-> & s4 & E4 & I4 & O4 & S4)]).
  - exists 0, s3, l3, T3. split; [done|]. left. split; [done|]. split; [done|by etrans| | |].
    + rewrite <- HO. unfold uown. rewrite <- O3. apply set_eq. intros p.
      rewrite !elem_of_union, !elem_of_frames. setoid_rewrite lookup_insert_Some.
      apply lookup_union_None in Hnone as [HnU _]. split.
      * intros [?|(κ & f & [[_ [= <- <-]]|[_ H]])]; [by auto|set_solver|]. right. eauto.
      * intros [[?|?]|(κ & f & H)]; [right|by auto|right].
        -- assert (p = q) as -> by set_solver. by eauto 7.
        -- exists κ, f. right. split; [|done]. congruence.
    + eapply vstep_trans; [exact HS|]. by eapply vstep_mono.
    + apply (grown_S s s3 (mem s) _ _ _ (q :: l) T U0 U F); try done.
      intros b Hq'. rewrite C3 by done. by apply Z2.
  - exists (-1), s3, l3, T3. split; [done|]. right. split; [done|]. exists s4. split; [done|].
    split; [done|by etrans| | |].
    + rewrite <- HO. unfold uown. by rewrite O4.
    + eapply vstep_trans; [exact HS|]. by eapply vstep_mono.
    + destruct HG as [Go Gn]. split; [done|]. intros i Hi. destruct (Gn i Hi) as (pa & HU & Hz).
      exists pa. split; [done|]. intros b Hb'. rewrite (uvm_frame s s4 (q :: l) T U F _ pa _ b) by done.
      by apply Hz.
Qed.

Lemma uvmalloc_loop_ok n fuel s l T U k newsz :
  (n < fuel)%nat -> growing s l T U k -> base + Z.of_nat (k + n) * PGSIZE <= MAXVA ->
  (forall κ, κ ∈ range_paths base (k + n) -> (U0 ∪ F) !! κ = None) ->
  base + (Z.of_nat (k + n) - 1) * PGSIZE < newsz \/ n = 0%nat ->
  newsz <= base + Z.of_nat (k + n) * PGSIZE ->
  forall xperm, perm = Z.lor (Z.lor PTE_R PTE_U) xperm ->
  exists r s' l' T' U',
    uvmalloc_loop fuel root (base + Z.of_nat k * PGSIZE) base newsz xperm s = Ok r s' /\
    uvm_inv s' l' T' U' F /\ T0 ⊆ T' /\ uown l' T' U' = uown l0 T0 U0 /\
    vstep (own l0 T0) s0 s' /\
    ((r = newsz /\ grown (mem s') (Z.lor perm PTE_V) base (k + n) U0 U') \/ (r = 0 /\ U' = U0)).
Proof.
  revert fuel s l T U k. induction n as [|n IH];
    intros [|fuel] s l T U k Hf G Hmax HN H1 H2 xperm Hx; try lia; cbn [uvmalloc_loop].
  { rewrite Nat.add_0_r in *. rewrite (proj2 (Z.ltb_ge _ _)) by lia.
    exists newsz, s, l, T, U. destruct G as [? ? ? ? ?]. split_and!; try done. by left. }
  rewrite (proj2 (Z.ltb_lt _ _)) by pglia.
  assert (HNk : forall j, (j <= k + S n)%nat -> forall κ, κ ∈ range_paths base j -> (U0 ∪ F) !! κ = None).
  { intros j Hj κ (i & Hi & ->)%elem_of_range_paths. apply HN, elem_of_range_paths. exists i. split; [lia|done]. }
  destruct l as [|q l].
  { erewrite bind_ok by (eapply uvm_kalloc_none; apply G). rewrite Z.eqb_refl.
    destruct (growing_undo s [] T U k G) as (s' & l' & E' & I' & O' & S'); [pglia|apply HNk; lia|].
    erewrite bind_ok by exact E'. exists 0, s', l', T, U0. split_and!; try done; [apply G|by right]. }
  destruct (growing_step s q l T U k G) as (s1 & s2 & E1 & Hq & E2 & r & s3 & l3 & T3 & E3 & R);
    [pglia|apply HNk; lia|].
  erewrite bind_ok by exact E1. rewrite (proj2 (Z.eqb_neq _ _)) by done.
  erewrite bind_ok by exact E2. rewrite <- Hx. erewrite bind_ok by exact E3.
  destruct R as [[-> G3]|(-> & s4 & E4 & G4)].
  - rewrite u64_small by pglia.
    replace (base + Z.of_nat k * PGSIZE + PGSIZE) with (base + Z.of_nat (S k) * PGSIZE) by lia.
    replace (k + S n)%nat with (S k + n)%nat in * by lia.
    eapply (IH fuel s3 l3 T3 _ (S k)); [lia|exact G3|done|done| |done|done]. destruct H1; [left|lia]. done.
  - cbn [negb Z.eqb]. erewrite bind_ok by exact E4.
    destruct (growing_undo s4 [q] T3 U k G4) as (s' & l' & E' & I' & O' & S'); [pglia|apply HNk; lia|].
    erewrite bind_ok by exact E'. exists 0, s', l', T3, U0. split_and!; try done; [apply G4|by right].
Qed.
End Grow.

Lemma uvmalloc_ok s l T U F root oldsz newsz xperm :
  uvm_inv s l T U F -> T !! [] = Some root -> 0 <= oldsz <= newsz -> newsz <= MAXVA ->
  0 <= xperm < 2 ^ 10 ->
  (forall κ, κ ∈ range_paths (PGROUNDUP oldsz) (dealloc_pages newsz oldsz) -> (U ∪ F) !! κ = None) ->
  exists r s' l' T' U', uvmalloc root oldsz newsz xperm s = Ok r s' /\
    uvm_inv s' l' T' U' F /\ T ⊆ T' /\ uown l' T' U' = uown l T U /\ vstep (own l T) s s' /\
    ((r = newsz /\
      grown (mem s') (Z.lor (Z.lor (Z.lor PTE_R PTE_U) xperm) PTE_V) (PGROUNDUP oldsz)
        (dealloc_pages newsz oldsz) U U') \/
     (r = 0 /\ U' = U)).
Proof.
  intros I HT Ho Hn Hx HN. unfold uvmalloc. rewrite (proj2 (Z.ltb_ge _ _)) by lia. cbv zeta.
  destruct (pgroundup oldsz) as (Ao & Bo & Co); [lia|].
  destruct (pgroundup newsz) as (An & Bn & Cn); [lia|].
  assert (Hle : PGROUNDUP oldsz <= PGROUNDUP newsz).
  { unfold aligned, PGSIZE in *. clear -An Ao Bn Bo Ho. divlia. }
  destruct (aligned_sub _ _ An Ao Hle) as [n En].
  assert (Hd : dealloc_pages newsz oldsz = n).
  { unfold dealloc_pages. rewrite En, Z.add_simpl_l, Z.div_mul by done. lia. }
  rewrite Hd in *.
  assert (Hfuel : (n < S (Z.to_nat (newsz / PGSIZE + 1)))%nat).
  { assert (Z.of_nat n <= newsz / PGSIZE + 1); [|lia]. unfold PGSIZE in *. clear -En Bn Bo Ho. divlia. }
  destruct (uvmalloc_loop_ok s l T U F root (PGROUNDUP oldsz) (Z.lor (Z.lor PTE_R PTE_U) xperm)
    I HT ltac:(pglia) Ao ltac:(by apply lor_flags) n (S (Z.to_nat (newsz / PGSIZE + 1)))
    s l T U 0 newsz) with (xperm := xperm) as (r & s' & l' & T' & U' & E & R); try done; try pglia.
  - split; try done. split; [done|lia].
  - rewrite Z.add_0_r in E. by exists r, s', l', T', U'.
Qed.

(** ** New address spaces *)

Lemma pt_inv_root m q : 0 < q < 2 ^ 56 -> aligned q -> filled q 0 m -> pt_inv m {[ [] := q ]} ∅.
Proof.
  intros Hr Ha Hz. split.
  - intros π p [<- <-]%lookup_singleton_Some. simpl. split_and!; done || lia.
  - intros π π' p [<- _]%lookup_singleton_Some [<- _]%lookup_singleton_Some. done.
  - intros π i p [E _]%lookup_singleton_Some. by destruct π.
  - intros π p i [<- <-]%lookup_singleton_Some _ Hi. unfold inner_entry.
    rewrite lookup_singleton_ne by done. by apply load_zero_page.
  - intros π p i [<- <-]%lookup_singleton_Some Hl. done.
  - intros κ pa f H. by rewrite lookup_empty in H.
Qed.

Lemma uvm_inv_root s l q :
  kmem_inv s l -> LkKmem ∉ held (mm_mach s) -> valid_page (k_end s) q -> q ∉ l -> filled q 0 (mem s) ->
  uvm_inv s l {[ [] := q ]} ∅ ∅.
Proof.
  intros K L V Hn Hz. destruct (valid_page_range _ _ _ K V) as [Hr Ha]. split.
  - split; [done|by rewrite (left_id_L ∅ (∪)); apply pt_inv_root| | |done];
      intros π p [<- <-]%lookup_singleton_Some; done.
  - apply map_disjoint_empty_l.
  - intros κ pa f H. by rewrite lookup_empty in H.
  - intros κ κ' pa f f' H. by rewrite lookup_empty in H.
  - intros κ pa f H. by rewrite lookup_empty in H.
Qed.

(** [uvmcreate] makes an address space without pages. *)
Lemma uvmcreate_ok s q l :
  kmem_inv s (q :: l) -> LkKmem ∉ held (mm_mach s) ->
  exists s', uvmcreate s = Ok q s' /\ uvm_inv s' l {[ [] := q ]} ∅ ∅ /\ vstep {[q]} s s'.
Proof.
  intros K L. unfold uvmcreate.
  destruct (kalloc_some s q l K L) as (s1 & E1 & K1 & (M1 & N1 & O1) & _ & Hv & Hql).
  destruct (valid_page_range _ _ _ K Hv) as [Hr Ha].
  erewrite bind_ok by exact E1. rewrite (proj2 (Z.eqb_neq _ _)) by lia.
  destruct (zero_page_ok q s1) as (m2 & E2 & O2 & Z2); [lia|].
  erewrite bind_ok by exact E2. eexists. split; [done|]. split.
  - apply uvm_inv_root; simpl; [by apply (kmem_inv_off s1 l q)|by rewrite M1|by rewrite N1|done|done].
  - apply (vstep_page _ _ _ q); try done; [set_solver|]. by eapply same_off_trans.
Qed.

(** growing a process.  [uvmalloc] from [oldsz] to [newsz] either
    returns [newsz], having added a zeroed page with the requested
    permissions for every page of the new range and changed nothing else of
    the address space, or returns 0 with the address space as it was; in
    both cases the pages of the allocator, the tables and the process are
    the same ones as before, and no other page is written. *)
Theorem uvmalloc_spec s l T U F root oldsz newsz xperm :
  uvm_inv s l T U F -> T !! [] = Some root -> 0 <= oldsz <= newsz -> newsz <= MAXVA ->
  0 <= xperm < 2 ^ 10 ->
  (forall κ, κ ∈ range_paths (PGROUNDUP oldsz) (dealloc_pages newsz oldsz) -> (U ∪ F) !! κ = None) ->
  exists r s' l' T' U', uvmalloc root oldsz newsz xperm s = Ok r s' /\
    uvm_inv s' l' T' U' F /\ T' !! [] = Some root /\ uown l' T' U' = uown l T U /\
    vstep (own l T) s s' /\
    ((r = newsz /\
      grown (mem s') (Z.lor (Z.lor (Z.lor PTE_R PTE_U) xperm) PTE_V) (PGROUNDUP oldsz)
        (dealloc_pages newsz oldsz) U U') \/
     (r = 0 /\ U' = U)).
Proof.
  intros I HT Ho Hn Hx HN.
  destruct (uvmalloc_ok s l T U F root oldsz newsz xperm) as (r & s' & l' & T' & U' & E & I' & S' & R); try done.
  exists r, s', l', T', U'. split_and!; try done; try apply R. by eapply lookup_weaken.
Qed.

(** shrinking a process.  [uvmdealloc] from [oldsz] down to [newsz]
    unmaps the pages that lie wholly above [newsz], gives exactly those
    pages to the allocator and returns [newsz]; the pages that stay keep
    their contents. *)
Theorem uvmdealloc_spec s l T U F root oldsz newsz :
  uvm_inv s l T U F -> T !! [] = Some root -> 0 <= newsz <= oldsz -> oldsz <= MAXVA ->
  (forall κ, κ ∈ range_paths (PGROUNDUP newsz) (dealloc_pages oldsz newsz) -> F !! κ = None) ->
  exists s' l' U', uvmdealloc root oldsz newsz s = Ok newsz s' /\ uvm_inv s' l' T U' F /\
    (forall κ, U' !! κ = if decide (κ ∈ range_paths (PGROUNDUP newsz) (dealloc_pages oldsz newsz))
                         then None else U !! κ) /\
    uown l' T U' = uown l T U /\
    (forall κ pa f a, U' !! κ = Some (pa, f) -> in_page pa a -> mem s' a = mem s a).
Proof.
  intros I HT Hn Ho HF.
  destruct (uvmdealloc_ok s l T U F root oldsz newsz) as (s' & l' & E & I' & O' & S' & L'); try done.
  eexists s', l', _. split_and!; [done|exact I'| |done|].
  - intros κ. apply lookup_unmap_range.
  - intros κ pa f a H Ha. apply S'. intros p Hp.
    destruct (ui_page _ _ _ _ _ I' _ _ _ H) as [[Hal _] Hno].
    apply (pages_disjoint pa p); [done| |by intros ->|done].
    apply elem_of_own in Hp as [Hp|[π Hp]].
    + pose proof (kmem_inv_aligned _ _ (vi_k _ _ _ _ (ui_vm _ _ _ _ _ I'))) as Hf.
      rewrite Forall_forall in Hf. by apply Hf.
    + by apply (pi_page _ _ _ (vi_pt _ _ _ _ (ui_vm _ _ _ _ _ I'))) in Hp as (_ & ? & _).
Qed.

(** ** The theorems on a concrete machine

    Process 3 of a machine with seven pages, with an address space that has
    no page yet; its size says it may have four. *)
Definition demo_root : Z := 0x80031000.
Definition demo_pages : list Z :=
  [0x80038000; 0x80037000; 0x80036000; 0x80035000; 0x80034000; 0x80033000; 0x80032000].
Definition mach_user : mach :=
  two_procs <| procs := <[3%nat := blank_proc <| p_state := RUNNING |> <| p_pid := 7 |>
                            <| p_pagetable := demo_root |> <| p_sz := 4 * PGSIZE |>]>
                          (procs two_procs) |>.
Definition mm_free : mm :=
  after (mapM_ kfree (demo_pages ++ [demo_root])) (mkmm mach_user (fun _ => 0) 0 0x80030000).
Definition mm_user : mm := after uvmcreate mm_free.

Lemma mm_free_ok : kmem_inv mm_free (demo_root :: reverse demo_pages) /\
  mm_mach mm_free = mach_user /\ k_end mm_free = 0x80030000.
Proof.
  destruct (kfree_many (demo_pages ++ [demo_root]) (mkmm mach_user (fun _ => 0) 0 0x80030000) [])
    as (s' & E & K & M & N).
  - split; try done. constructor.
  - by repeat constructor.
  - by apply (bool_decide_unpack (NoDup _)); vm_compute.
  - intros p _. apply not_elem_of_nil.
  - apply not_elem_of_nil.
  - unfold mm_free, after. rewrite E. by split_and!.
Qed.

Lemma mm_user_ok :
  uvm_inv mm_user (reverse demo_pages) {[ [] := demo_root ]} ∅ ∅ /\ mm_mach mm_user = mach_user.
Proof.
  destruct mm_free_ok as (K & M & N).
  destruct (uvmcreate_ok mm_free demo_root (reverse demo_pages) K) as (s' & E & I & S).
  - rewrite M. apply not_elem_of_nil.
  - unfold mm_user, after. rewrite E. split; [done|]. rewrite (vs_mach _ _ _ S). apply M.
Qed.
#[global] Opaque mm_free mm_user.

Lemma uvmalloc_spec_witness :
  exists r s' l' T' U', uvmalloc demo_root 0 5000 PTE_W mm_user = Ok r s' /\
    uvm_inv s' l' T' U' ∅ /\ T' !! [] = Some demo_root /\
    uown l' T' U' = uown (reverse demo_pages) {[ [] := demo_root ]} ∅ /\
    vstep (own (reverse demo_pages) {[ [] := demo_root ]}) mm_user s' /\
    ((r = 5000 /\
      grown (mem s') (Z.lor (Z.lor (Z.lor PTE_R PTE_U) PTE_W) PTE_V) (PGROUNDUP 0)
        (dealloc_pages 5000 0) ∅ U') \/
     (r = 0 /\ U' = ∅)).
Proof.
  destruct mm_user_ok as [I _].
  apply (uvmalloc_spec mm_user (reverse demo_pages) {[ [] := demo_root ]} ∅ ∅).
  - exact I.
  - apply lookup_singleton_eq.
  - lia.
  - by apply Z.leb_le.
  - done.
  - intros κ _. rewrite (left_id_L ∅ (∪)). apply lookup_empty.
Defined.

Lemma uvmdealloc_spec_witness :
  exists s' l' U', uvmdealloc demo_root 9000 100 mm_user = Ok 100 s' /\
    uvm_inv s' l' {[ [] := demo_root ]} U' ∅ /\
    (forall κ, U' !! κ = if decide (κ ∈ range_paths (PGROUNDUP 100) (dealloc_pages 9000 100))
                         then None else (∅ : leaves) !! κ) /\
    uown l' {[ [] := demo_root ]} U' = uown (reverse demo_pages) {[ [] := demo_root ]} ∅ /\
    (forall κ pa f a, U' !! κ = Some (pa, f) -> in_page pa a -> mem s' a = mem mm_user a).
Proof.
  destruct mm_user_ok as [I _].
  apply (uvmdealloc_spec mm_user (reverse demo_pages) {[ [] := demo_root ]} ∅ ∅).
  - exact I.
  - apply lookup_singleton_eq.
  - lia.
  - by apply Z.leb_le.
  - intros κ _. apply lookup_empty.
Defined.

Lemma mappages_spec_witness :
  exists r s' l' T' A', mappages demo_root 0x1000 (Z.of_nat 2 * PGSIZE) 0x80050000 (Z.lor PTE_R PTE_U) mm_user = Ok r s' /\
    vm_inv s' l' T' A' /\ vstep (own (reverse demo_pages) {[ [] := demo_root ]}) mm_user s' /\
    own l' T' = own (reverse demo_pages) {[ [] := demo_root ]} /\
    (forall κ, (forall i : nat, (i < 2)%nat -> κ <> path (0x1000 + Z.of_nat i * PGSIZE)) ->
      A' !! κ = (∅ ∪ ∅ : leaves) !! κ) /\
    ((r = 0 /\ forall i : nat, (i < 2)%nat ->
        A' !! path (0x1000 + Z.of_nat i * PGSIZE) =
          Some (0x80050000 + Z.of_nat i * PGSIZE, Z.lor (Z.lor PTE_R PTE_U) PTE_V) /\
        walkaddr demo_root (0x1000 + Z.of_nat i * PGSIZE) s' =
          Ok (if flag (Z.lor (Z.lor PTE_R PTE_U) PTE_V) PTE_U
              then 0x80050000 + Z.of_nat i * PGSIZE else 0) s') \/
     (r = -1 /\ l' = [])).
Proof.
  destruct mm_user_ok as [I _].
  apply (mappages_spec mm_user (reverse demo_pages) {[ [] := demo_root ]} (∅ ∪ ∅)).
  - exact (ui_vm _ _ _ _ _ I).
  - apply lookup_singleton_eq.
  - lia.
  - lia.
  - reflexivity.
  - by apply Z.leb_le.
  - lia.
  - reflexivity.
  - by apply Z.leb_le.
  - done.
  - intros i _. rewrite (left_id_L ∅ (∪)). apply lookup_empty.
Defined.
