(* ===== verification/Kvm.v ===== *)
(** * The kernel's address space

    What [kvmmake] and [proc_mapstacks] (kernel/vm.c, kernel/proc.c) build at
    start-up: devices and physical memory at their own addresses, the text
    without write permission, the trampoline at the top of the address space
    and a stack for every process with an unmapped page below it.  The
    tables are at known places, so that the number of pages needed is known
    too and the construction cannot run out of memory. *)
From stdpp Require Import base numbers strings decidable sets gmap functions list.
From S2P Require Import Prelude.
From S2P Require Import CString.
From S2P Require Import Riscv.
From S2P Require Import Sched.
From S2P Require Import Kalloc.
From S2P Require Import Vm.
From S2P Require Import VmInv.
From S2P Require Import Uvm.
Open Scope Z_scope.
Open Scope xv6_scope.

(** ** The tables *)

(** The root, three tables below it, and the tables of leaves: 33 for the
    devices, 64 for the physical memory and one for the trampoline and the
    stacks. *)
Definition kkeys : list (list Z) :=
  [[]; [0]; [2]; [255]; [255; 511]] ++ ((fun i => [0; i]) <$> seqZ 96 33) ++ ((fun i => [2; i]) <$> seqZ 0 64).
(** A virtual address whose tables are among these. *)
Definition keyed (va : Z) : Prop := forall k, take k (down 2 va) ∈ kkeys.

Lemma keyed_intro va a b : PX 2 va = a -> PX 1 va = b -> [a] ∈ kkeys -> [a; b] ∈ kkeys -> keyed va.
Proof.
  intros H2 H1 Ka Kb k. cbn [down]. change (Z.of_nat 2) with 2. change (Z.of_nat 1) with 1. rewrite H2, H1.
  destruct k as [|[|k]]; cbn [take]; [by apply list_elem_of_here|done|]. by destruct k.
Qed.
Lemma keyed_low va : PLIC <= va < VIRTIO0 + PGSIZE -> keyed va.
Proof.
  intros H. apply (keyed_intro va 0 (va / 2 ^ 21)).
  - rewrite PX_spec by lia. change (2 ^ (12 + 9 * 2)) with (2 ^ 30). unfold PLIC, VIRTIO0, PGSIZE in H. rewrite Z.div_small; [done|lia].
  - rewrite PX_spec by lia. change (2 ^ (12 + 9 * 1)) with (2 ^ 21). apply Z.mod_small. unfold PLIC, VIRTIO0, PGSIZE in H.
    split; [apply Z.div_pos; lia|apply Z.div_lt_upper_bound; lia].
  - apply list_elem_of_further, list_elem_of_here.
  - unfold kkeys. rewrite !elem_of_app. right. left. apply list_elem_of_fmap. exists (va / 2 ^ 21). split; [done|].
    apply elem_of_seqZ. unfold PLIC, VIRTIO0, PGSIZE in H. split; [apply Z.div_le_lower_bound; lia|apply Z.div_lt_upper_bound; lia].
Qed.
Lemma keyed_ram va : KERNBASE <= va < PHYSTOP -> keyed va.
Proof.
  intros H. change PHYSTOP with 0x88000000 in H. unfold KERNBASE in H. apply (keyed_intro va 2 ((va - 0x80000000) / 2 ^ 21)).
  - rewrite PX_spec by lia. change (2 ^ (12 + 9 * 2)) with (2 ^ 30).
    assert (E : va / 2 ^ 30 = 2) by (symmetry; apply (Z.div_unique va (2 ^ 30) 2 (va - 0x80000000)); lia). by rewrite E.
  - rewrite PX_spec by lia. change (2 ^ (12 + 9 * 1)) with (2 ^ 21).
    replace va with (va - 0x80000000 + 1024 * 2 ^ 21) at 1 by lia. rewrite Z.div_add by lia.
    change 1024 with (2 * 512). rewrite Z.mod_add by lia. apply Z.mod_small.
    split; [apply Z.div_pos; lia|apply Z.div_lt_upper_bound; lia].
  - do 2 apply list_elem_of_further. apply list_elem_of_here.
  - unfold kkeys. rewrite !elem_of_app. do 2 right. apply list_elem_of_fmap. exists ((va - 0x80000000) / 2 ^ 21). split; [done|].
    apply elem_of_seqZ. split; [apply Z.div_pos; lia|apply Z.div_lt_upper_bound; lia].
Qed.
Lemma keyed_high va : MAXVA - 2 ^ 21 <= va < MAXVA -> keyed va.
Proof.
  intros H. change MAXVA with (2 ^ 38) in H. apply (keyed_intro va 255 511).
  - rewrite PX_spec by lia. change (2 ^ (12 + 9 * 2)) with (2 ^ 30).
    assert (E : va / 2 ^ 30 = 255) by (symmetry; apply (Z.div_unique va (2 ^ 30) 255 (va - 255 * 2 ^ 30)); lia). by rewrite E.
  - rewrite PX_spec by lia. change (2 ^ (12 + 9 * 1)) with (2 ^ 21).
    assert (E : va / 2 ^ 21 = 255 * 512 + 511) by (symmetry; apply (Z.div_unique va (2 ^ 21) _ (va - (255 * 512 + 511) * 2 ^ 21)); lia). by rewrite E.
  - do 3 apply list_elem_of_further. apply list_elem_of_here.
  - do 4 apply list_elem_of_further. apply list_elem_of_here.
Qed.

(** ** Enough pages *)

(** A table whose parts are at these places, over the pages [P], that maps
    what [f] says. *)
Definition shows (A : leaves) (f : Z -> option (Z * Z)) : Prop :=
  forall va, 0 <= va < MAXVA -> aligned va -> A !! path va = f va.
Record kpt (s : mm) (l : list Z) (T : tables) (A : leaves) (root : Z) (P : gset Z) (f : Z -> option (Z * Z)) : Prop := {
  kp_vm : vm_inv s l T A;
  kp_root : T !! [] = Some root;
  kp_keys : forall π, is_Some (T !! π) -> π ∈ kkeys;
  kp_own : own l T = P;
  kp_shows : shows A f;
}.

Lemma kpt_room s l T A root P f : kpt s l T A root P f -> (length kkeys < size P)%nat -> l <> [].
Proof. intros [_ _ Hk <- _] Hs ->. pose proof (tables_room [] T kkeys Hk). cbn in *. lia. Qed.

(** [sz] bytes from [va] on, mapped to those from [pa] on. *)
Definition over (va sz pa perm : Z) (f : Z -> option (Z * Z)) (x : Z) : option (Z * Z) :=
  if decide (va <= x < va + sz) then Some (pa + (x - va), Z.lor perm PTE_V) else f x.

Lemma shows_over A f va n pa perm :
  0 <= va -> aligned va -> va + Z.of_nat n * PGSIZE <= MAXVA -> shows A f ->
  shows (map_range n va pa (Z.lor perm PTE_V) A) (over va (Z.of_nat n * PGSIZE) pa perm f).
Proof.
  intros Hv Hal Hm Sh x Hx Hxa. unfold over. case_decide as Hd.
  - assert (Ex : x = va + Z.of_nat (Z.to_nat ((x - va) / PGSIZE)) * PGSIZE).
    { unfold aligned in *. rewrite Z2Nat.id by (apply Z.div_pos; [lia|done]). apply Z.mod_divide in Hal as [a ->]; [|done].
      apply Z.mod_divide in Hxa as [b ->]; [|done]. rewrite <- Z.mul_sub_distr_r, Z.div_mul by done. lia. }
    rewrite Ex at 1. rewrite lookup_map_range; try done.
    + do 2 f_equal. lia.
    + apply Nat2Z.inj_lt. rewrite Z2Nat.id by (apply Z.div_pos; [lia|done]). apply Z.div_lt_upper_bound; [done|lia].
  - rewrite lookup_map_range_out; [by apply Sh|]. intros i Hi Ep. apply path_inj in Ep; [|done| |done|by apply aligned_add]; [|pglia].
    apply Hd. pglia.
Qed.

Lemma kvmmap_ok s l T A root P f va sz pa perm :
  kpt s l T A root P f -> (length kkeys < size P)%nat -> aligned sz -> 0 < sz ->
  0 <= va -> aligned va -> va + sz <= MAXVA -> 0 <= pa -> aligned pa -> pa + sz <= 2 ^ 56 -> 0 <= perm < 2 ^ 10 ->
  (forall x, va <= x < va + sz -> keyed x /\ f x = None) ->
  exists s' l' T' A', kvmmap root va pa sz perm s = Ok tt s' /\ kpt s' l' T' A' root P (over va sz pa perm f) /\ vstep P s s'.
Proof.
  intros K Hs Hsz Hpos Hv Hal Hm Hpa Hpal Hpm Hp Hx. pose proof K as [V Hr Hk Ho Sh].
  assert (exists n, sz = Z.of_nat n * PGSIZE /\ (0 < n)%nat) as (n & -> & Hn).
  { apply Z.mod_divide in Hsz as [n ->]; [|done]. exists (Z.to_nat n). unfold PGSIZE in *. split; lia. }
  assert (Hin : forall i : nat, (i < n)%nat -> va <= va + Z.of_nat i * PGSIZE < va + Z.of_nat n * PGSIZE) by (intros; pglia).
  destruct (mappages_ok (fun π => π ∈ kkeys) s l T A root va n pa perm) as (r & s' & l' & T' & k & E & V' & S' & O' & [Su On] & R); try done.
  { intros i Hi. rewrite Sh; [apply Hx, Hin, Hi|pose proof (Hin i Hi); pglia|by apply aligned_add]. }
  { intros i j Hi. apply Hx, Hin, Hi. }
  assert (Hk' : forall π, is_Some (T' !! π) -> π ∈ kkeys) by (intros π [Hπ|Hπ]%On; [by apply Hk|done]).
  rewrite Ho in S', O'. exists s', l', T', (map_range k va pa (Z.lor perm PTE_V) A).
  destruct R as [[-> ->]|(-> & Hlt & ->)].
  - unfold kvmmap. erewrite bind_ok by exact E. split; [done|]. split; [|done].
    split; [done|by eapply lookup_weaken|done|done|by apply shows_over].
  - exfalso. assert (K' : kpt s' [] T' (map_range k va pa (Z.lor perm PTE_V) A) root P (over va (Z.of_nat k * PGSIZE) pa perm f)).
    { split; [done|by eapply lookup_weaken|done|done|]. apply shows_over; try done. pglia. }
    by apply (kpt_room _ _ _ _ _ _ _ K').
Qed.

(** A list of regions, each of them address, size, physical address and
    permissions. *)
Fixpoint over_all (rs : list (Z * Z * Z * Z)) (f : Z -> option (Z * Z)) : Z -> option (Z * Z) :=
  match rs with
  | [] => f
  | (va, sz, pa, perm) :: rs' => over_all rs' (over va sz pa perm f)
  end.
Fixpoint free_for (rs : list (Z * Z * Z * Z)) (f : Z -> option (Z * Z)) : Prop :=
  match rs with
  | [] => True
  | (va, sz, pa, perm) :: rs' =>
    (aligned sz /\ 0 < sz /\ 0 <= va /\ aligned va /\ va + sz <= MAXVA /\ 0 <= pa /\ aligned pa /\ pa + sz <= 2 ^ 56 /\
     0 <= perm < 2 ^ 10 /\ forall x, va <= x < va + sz -> keyed x /\ f x = None) /\
    free_for rs' (over va sz pa perm f)
  end.
Lemma regions_ok rs s l T A root P f :
  kpt s l T A root P f -> (length kkeys < size P)%nat -> free_for rs f ->
  exists s' l' T' A', mapM_ (fun '(va, sz, pa, perm) => kvmmap root va pa sz perm) rs s = Ok tt s' /\
    kpt s' l' T' A' root P (over_all rs f) /\ vstep P s s'.
Proof.
  revert s l T A f. induction rs as [|[[[va sz] pa] perm] rs IH]; intros s l T A f K Hs Hf; [by exists s, l, T, A|].
  destruct Hf as ((H1 & H2 & H3 & H4 & H5 & H6 & H7 & H8 & H9 & H10) & Hf).
  destruct (kvmmap_ok s l T A root P f va sz pa perm) as (s1 & l1 & T1 & A1 & E1 & K1 & S1); try done.
  destruct (IH s1 l1 T1 A1 _ K1 Hs Hf) as (s2 & l2 & T2 & A2 & E2 & K2 & S2).
  exists s2, l2, T2, A2. split; [cbn [mapM_]; by erewrite bind_ok by exact E1|]. split; [done|by eapply vstep_trans].
Qed.

(** ** The stacks *)

(** A page taken from the free list. *)
Lemma kpt_kalloc s l T A root P f :
  kpt s l T A root P f -> (length kkeys < size P)%nat ->
  exists pa s' l', kalloc s = Ok pa s' /\ pa <> 0 /\ pa ∈ P /\ valid_page (k_end s) pa /\
    kpt s' l' T A root (P ∖ {[pa]}) f /\ vstep P s s' /\ size (P ∖ {[pa]}) = pred (size P).
Proof.
  intros K Hs. pose proof (kpt_room _ _ _ _ _ _ _ K Hs) as Hl. destruct K as [[Ki Pt Dj Vl Lk] Hr Hk Ho Sh].
  destruct l as [|pa l]; [done|]. destruct (kalloc_some s pa l Ki Lk) as (s' & E & Ki' & (M & N & O) & _ & Hv & Hni).
  destruct (valid_page_range _ _ _ Ki Hv) as [Hp Ha].
  assert (Hin : pa ∈ P) by (rewrite <- Ho; apply elem_of_own; left; apply list_elem_of_here).
  assert (Hn : forall π, T !! π <> Some pa) by (intros π Hπ; apply (Dj _ _ Hπ), list_elem_of_here).
  exists pa, s', l. split; [done|]. split; [lia|]. split; [done|]. split; [done|]. split; [|split].
  - split; [|done|done| |done].
    + split; [done|by apply (pt_off pa (mem s))| |by rewrite N|by rewrite M]. intros π p Hπ Hpl. apply (Dj _ _ Hπ). by apply list_elem_of_further.
    + rewrite <- Ho. unfold own. cbn [list_to_set]. apply set_eq. intros q.
      rewrite elem_of_difference, !elem_of_union, elem_of_singleton, elem_of_list_to_set, elem_of_map_img. split.
      * intros [Hq|[π Hq]]; (split; [eauto|]); intros ->; [done|by apply (Hn π)].
      * intros [[[->|Hq]|Hq] Hne]; [done|by left|by right].
  - by apply (vstep_page _ _ _ pa).
  - rewrite size_difference by (by apply singleton_subseteq_l). rewrite size_singleton. lia.
Qed.

Definition kstack_perm : Z := Z.lor PTE_R PTE_W.
(** The stacks of the processes from [i] on. *)
Fixpoint over_stacks (i : nat) (stacks : list Z) (f : Z -> option (Z * Z)) : Z -> option (Z * Z) :=
  match stacks with
  | [] => f
  | pa :: stacks' => over_stacks (S i) stacks' (over (KSTACK (Z.of_nat i)) PGSIZE pa kstack_perm f)
  end.

Lemma kstack_range i : (i < NPROC)%nat -> MAXVA - 2 ^ 21 <= KSTACK (Z.of_nat i) /\ KSTACK (Z.of_nat i) + PGSIZE <= TRAMPOLINE.
Proof. intros Hi. unfold KSTACK, TRAMPOLINE, NPROC in *. pglia. Qed.
Lemma kstack_aligned i : aligned (KSTACK (Z.of_nat i)).
Proof.
  unfold KSTACK, TRAMPOLINE. change MAXVA with (2 ^ 26 * PGSIZE).
  replace (2 ^ 26 * PGSIZE - PGSIZE - (Z.of_nat i + 1) * 2 * PGSIZE) with ((2 ^ 26 - 1 - (Z.of_nat i + 1) * 2) * PGSIZE) by lia.
  by apply Z.mod_mul.
Qed.

Lemma stacks_ok m i s l T A root P f :
  kpt s l T A root P f -> (length kkeys + m < size P)%nat -> (i + m <= NPROC)%nat ->
  (forall j x, (i <= j < NPROC)%nat -> KSTACK (Z.of_nat j) <= x < KSTACK (Z.of_nat j) + PGSIZE -> f x = None) ->
  exists stacks s' l' T' A' P', mapM_ (fun i : nat =>
      pa <- kalloc ;;
      if pa =? 0 then panic "kalloc"
      else kvmmap root (KSTACK (Z.of_nat i)) pa PGSIZE (Z.lor PTE_R PTE_W)) (seq i m) s = Ok tt s' /\
    length stacks = m /\ NoDup stacks /\ (forall p, p ∈ P <-> p ∈ stacks \/ p ∈ P') /\ (forall p, p ∈ stacks -> p ∉ P') /\
    kpt s' l' T' A' root P' (over_stacks i stacks f) /\ vstep P s s'.
Proof.
  revert i s l T A P f. induction m as [|m IH]; intros i s l T A P f K Hs Hi Hf.
  { exists [], s, l, T, A, P. split_and!; try done; [constructor|set_solver|set_solver]. }
  cbn [seq mapM_]. destruct (kpt_kalloc _ _ _ _ _ _ _ K ltac:(lia)) as (pa & s1 & l1 & E1 & Hne & Hin & Hv & K1 & S1 & Hs1).
  destruct (kstack_range i ltac:(lia)) as [Hr1 Hr2]. pose proof (kstack_aligned i) as Hal.
  destruct (valid_page_range _ _ _ (vi_k _ _ _ _ (kp_vm _ _ _ _ _ _ _ K)) Hv) as [Hp Hpa].
  destruct (kvmmap_ok s1 l1 T A root (P ∖ {[pa]}) f (KSTACK (Z.of_nat i)) PGSIZE pa kstack_perm K1)
    as (s2 & l2 & T2 & A2 & E2 & K2 & S2); try done; try lia.
  { change TRAMPOLINE with (MAXVA - PGSIZE) in Hr2. pglia. }
  { change TRAMPOLINE with (MAXVA - PGSIZE) in Hr2. pglia. }
  { destruct Hv as [_ Hv]. change PHYSTOP with 0x88000000 in Hv. pglia. }
  { intros x Hx. split; [|by apply (Hf i); [lia|]]. apply keyed_high. change TRAMPOLINE with (MAXVA - PGSIZE) in Hr2. pglia. }
  destruct (IH (S i) s2 l2 T2 A2 (P ∖ {[pa]}) _ K2) as (stacks & s3 & l3 & T3 & A3 & P3 & E3 & Hlen & Hnd & Hcov & Hdis & K3 & S3); [lia|lia| |].
  { intros j x Hj Hx. unfold over. rewrite decide_False by (unfold KSTACK in *; pglia). apply (Hf j); [lia|done]. }
  exists (pa :: stacks), s3, l3, T3, A3, P3. split_and!; try done.
  - erewrite bind_ok; [|erewrite bind_ok by exact E1; rewrite (proj2 (Z.eqb_neq _ _)) by done; exact E2]. exact E3.
  - cbn. by rewrite Hlen.
  - apply NoDup_cons. split; [|done]. intros Hc. assert (pa ∈ P ∖ {[pa]}) by (apply Hcov; by left). set_solver.
  - intros p. rewrite elem_of_cons. specialize (Hcov p). rewrite elem_of_difference, elem_of_singleton in Hcov.
    destruct (decide (p = pa)) as [->|]; tauto.
  - intros p [->|Hq]%elem_of_cons; [|by apply Hdis]. intros Hc. assert (pa ∈ P ∖ {[pa]}) by (apply Hcov; by right). set_solver.
  - eapply vstep_trans; [exact S1|]. eapply (vstep_mono (P ∖ {[pa]})); [set_solver|]. by eapply vstep_trans.
Qed.

(** ** The map *)

(** The process whose stack page is at [x]. *)
Definition kstack_index (x : Z) : option nat :=
  let q := TRAMPOLINE - x in
  if (0 <? q) && (q mod (2 * PGSIZE) =? 0) then Some (Z.to_nat (q / (2 * PGSIZE) - 1)) else None.
Definition perm_rw : Z := Z.lor (Z.lor PTE_R PTE_W) PTE_V.
Definition perm_rx : Z := Z.lor (Z.lor PTE_R PTE_X) PTE_V.
Definition kernel_map (etext trampoline : Z) (stacks : list Z) (x : Z) : option (Z * Z) :=
  if decide (x = UART0 \/ x = VIRTIO0 \/ PLIC <= x < PLIC + 0x4000000) then Some (x, perm_rw)
  else if decide (KERNBASE <= x < etext) then Some (x, perm_rx)
  else if decide (etext <= x < PHYSTOP) then Some (x, perm_rw)
  else if decide (x = TRAMPOLINE) then Some (trampoline, perm_rx)
  else match kstack_index x with
       | Some i => (fun pa => (pa, perm_rw)) <$> stacks !! i
       | None => None
       end.

Lemma aligned_diff a b : aligned a -> aligned b -> aligned (a - b).
Proof. unfold aligned. intros Ha Hb. by rewrite Zminus_mod, Ha, Hb. Qed.
Lemma aligned_within a x : aligned a -> aligned x -> a <= x < a + PGSIZE -> x = a.
Proof.
  unfold aligned. intros Ha Hx H. apply Z.mod_divide in Ha as [p ->]; [|done]. apply Z.mod_divide in Hx as [q ->]; [|done].
  unfold PGSIZE in *. lia.
Qed.
Lemma kstack_index_spec x i : kstack_index x = Some i <-> x = KSTACK (Z.of_nat i).
Proof.
  unfold kstack_index. split.
  - destruct (Z.ltb_spec 0 (TRAMPOLINE - x)) as [Hq|]; [|done]. cbn [andb].
    destruct (Z.eqb_spec ((TRAMPOLINE - x) mod (2 * PGSIZE)) 0) as [Hm|]; [|done]. intros [= <-].
    apply Z.mod_divide in Hm as [k Hk]; [|done]. rewrite Hk, Z.div_mul by done. unfold KSTACK.
    rewrite Z2Nat.id by (unfold PGSIZE in *; lia). lia.
  - intros ->. unfold KSTACK. replace (TRAMPOLINE - _) with ((Z.of_nat i + 1) * (2 * PGSIZE)) by lia.
    rewrite (proj2 (Z.ltb_lt _ _)), Z.mod_mul, Z.div_mul by (done || unfold PGSIZE; lia). cbn [andb Z.eqb]. f_equal. lia.
Qed.
Lemma over_stacks_at i stacks f x :
  aligned x ->
  over_stacks i stacks f x =
    match kstack_index x with
    | Some j => if decide (i <= j)%nat then match stacks !! (j - i)%nat with Some pa => Some (pa, perm_rw) | None => f x end else f x
    | None => f x
    end.
Proof.
  intros Hx. revert i f. induction stacks as [|pa stacks IH]; intros i f; cbn [over_stacks].
  { destruct (kstack_index x) as [j|]; [|done]. by case_decide. }
  rewrite IH. unfold over. pose proof (kstack_index_spec x) as Hj.
  destruct (decide (KSTACK (Z.of_nat i) <= x < KSTACK (Z.of_nat i) + PGSIZE)) as [Hd|Hd].
  - assert (Ex : x = KSTACK (Z.of_nat i)) by (apply aligned_within; [apply kstack_aligned|done|done]).
    rewrite (proj2 (Hj i) Ex). rewrite decide_False, decide_True, Nat.sub_diag by lia. cbn. rewrite Ex at 1. rewrite Z.sub_diag, Z.add_0_r. done.
  - destruct (kstack_index x) as [j|]; [|done]. assert (j <> i) by (intros ->; specialize (proj1 (Hj i) eq_refl) as Ex; unfold PGSIZE in Hd; lia).
    destruct (decide (S i <= j)%nat).
    + rewrite decide_True by lia. replace (j - i)%nat with (S (j - S i)) by lia. done.
    + by rewrite decide_False by lia.
Qed.

Lemma kvm_root s q l :
  kmem_inv s (q :: l) -> LkKmem ∉ held (mm_mach s) ->
  exists s1 s2, kalloc s = Ok q s1 /\ zero_page q s1 = Ok tt s2 /\
    kpt s2 l {[ [] := q ]} ∅ q (list_to_set (q :: l)) (fun _ => None) /\ vstep (list_to_set (q :: l)) s s2.
Proof.
  intros K L. destruct (kalloc_some s q l K L) as (s1 & E1 & K1 & (M1 & N1 & O1) & _ & Hv & Hql).
  destruct (valid_page_range _ _ _ K Hv) as [Hr Ha]. destruct (zero_page_ok q s1) as (m2 & E2 & O2 & Z2); [lia|].
  eexists s1, _. split; [done|]. split; [exact E2|]. split.
  - split.
    + rewrite <- (left_id_L ∅ (∪) ∅). apply (ui_vm _ _ _ ∅ ∅).
      apply uvm_inv_root; simpl; [by apply (kmem_inv_off s1 l q)|by rewrite M1|by rewrite N1|done|done].
    + apply lookup_singleton_eq.
    + intros π [p Hp]. apply lookup_singleton_Some in Hp as [<- _]. apply list_elem_of_here.
    + unfold own. rewrite map_img_singleton_L. cbn [list_to_set]. set_solver.
    + intros x _ _. apply lookup_empty.
  - apply (vstep_page _ _ _ q); try done; [set_solver|]. by eapply same_off_trans.
Qed.

Ltac kvm_side := repeat (unfold TRAMPOLINE, UART0, VIRTIO0, PLIC, KERNBASE, PHYSTOP in *); change MAXVA with (2 ^ 38) in *; unfold PGSIZE in *; lia.

Section kernel.
Context (etext trampoline : Z).
Hypothesis Het : KERNBASE < etext < PHYSTOP /\ aligned etext.
Hypothesis Htr : 0 <= trampoline /\ aligned trampoline /\ trampoline + PGSIZE <= 2 ^ 56.

(** The calls of [kvmmap] that [kvmmake] makes: address, size, physical
    address and permissions. *)
Definition regions : list (Z * Z * Z * Z) :=
  [(UART0, PGSIZE, UART0, Z.lor PTE_R PTE_W); (VIRTIO0, PGSIZE, VIRTIO0, Z.lor PTE_R PTE_W);
   (PLIC, 0x4000000, PLIC, Z.lor PTE_R PTE_W); (KERNBASE, etext - KERNBASE, KERNBASE, Z.lor PTE_R PTE_X);
   (etext, PHYSTOP - etext, etext, Z.lor PTE_R PTE_W); (TRAMPOLINE, PGSIZE, trampoline, Z.lor PTE_R PTE_X)].
Notation fixed_map := (over_all regions (fun _ => None)).

Lemma map_agrees stacks x : aligned x -> length stacks = NPROC -> over_stacks 0 stacks fixed_map x = kernel_map etext trampoline stacks x.
Proof using Het.
  intros Hx Hl. rewrite over_stacks_at by done. destruct Het as [Het1 Het2]. unfold kernel_map.
  assert (Hd : over_all regions (fun _ => None) x =
    if decide (x = UART0 \/ x = VIRTIO0 \/ PLIC <= x < PLIC + 0x4000000) then Some (x, perm_rw)
    else if decide (KERNBASE <= x < etext) then Some (x, perm_rx)
    else if decide (etext <= x < PHYSTOP) then Some (x, perm_rw)
    else if decide (x = TRAMPOLINE) then Some (trampoline, perm_rx) else None).
  { pose proof (aligned_within TRAMPOLINE x eq_refl Hx) as H1. pose proof (aligned_within UART0 x eq_refl Hx) as H2.
    pose proof (aligned_within VIRTIO0 x eq_refl Hx) as H3.
    cbn [over_all regions]. unfold over. repeat case_decide; try (exfalso; kvm_side); try done; do 2 f_equal; lia. }
  rewrite Hd. destruct (kstack_index x) as [j|] eqn:Ej; [|by repeat case_decide].
  apply kstack_index_spec in Ej. rewrite decide_True, Nat.sub_0_r by lia.
  destruct (stacks !! j) as [pa|] eqn:Es; [|by repeat case_decide]. apply lookup_lt_Some in Es. rewrite Hl in Es. cbn.
  destruct (kstack_range j Es). rewrite !decide_False; [done|kvm_side..].
Qed.

Lemma regions_free : free_for regions (fun _ => None).
Proof using Het Htr.
  destruct Het as [Het1 Het2], Htr as (Htr1 & Htr2 & Htr3). cbn [free_for regions].
  split_and!; try done; try kvm_side; try (by apply aligned_diff);
    intros x Hx; (split; [first [apply keyed_low; kvm_side|apply keyed_ram; kvm_side|apply keyed_high; kvm_side]|]);
    unfold over; rewrite ?decide_False by kvm_side; done.
Qed.
Lemma kvmmake_regions s root s1 s2 s3 :
  kalloc s = Ok root s1 -> zero_page root s1 = Ok tt s2 ->
  mapM_ (fun '(va, sz, pa, perm) => kvmmap root va pa sz perm) regions s2 = Ok tt s3 ->
  kvmmake etext trampoline s = (proc_mapstacks root ;; ret root) s3.
Proof using Het.
  destruct Het as [Het1 Het2]. unfold kvmmake. rewrite !u64_small by kvm_side. intros E1 E2 H.
  erewrite bind_ok by exact E1. erewrite bind_ok by exact E2. cbn [mapM_ regions] in H.
  do 6 (apply bind_ok_inv in H as ([] & ? & E & H); erewrite bind_ok by exact E; clear E). by injection H as ->.
Qed.

Lemma kvmmake_ok s l :
  kmem_inv s l -> LkKmem ∉ held (mm_mach s) -> (length kkeys + NPROC < length l)%nat ->
  exists root s' l' T A P stacks, kvmmake etext trampoline s = Ok root s' /\ length stacks = NPROC /\ NoDup stacks /\
    (forall p, p ∈ l <-> p ∈ stacks \/ p ∈ P) /\ (forall p, p ∈ stacks -> p ∉ P) /\
    kpt s' l' T A root P (over_stacks 0 stacks fixed_map) /\ vstep (list_to_set l) s s'.
Proof using Het Htr.
  intros K L Hl. destruct l as [|q l]; [cbn in Hl; lia|]. destruct (kvm_root s q l K L) as (s1 & s2 & E1 & E2 & K2 & S2).
  set (P := list_to_set (q :: l) : gset Z) in *. assert (Hs : (length kkeys + NPROC < size P)%nat).
  { unfold P. rewrite size_list_to_set; [done|apply K]. }
  destruct (regions_ok regions _ _ _ _ _ _ _ K2 ltac:(lia) regions_free) as (s3 & l3 & T3 & A3 & E3 & K3 & S3).
  destruct (stacks_ok NPROC 0 _ _ _ _ _ _ _ K3) as (stacks & s4 & l4 & T4 & A4 & P4 & E4 & Hlen & Hnd & Hcov & Hdis & K4 & S4); try done.
  { intros j x [_ Hj] Hx. destruct (kstack_range j Hj). destruct Het as [Het1 _]. cbn [over_all regions]. unfold over.
    rewrite !decide_False by kvm_side. done. }
  exists q, s4, l4, T4, A4, P4, stacks. split.
  { rewrite (kvmmake_regions _ _ _ _ _ E1 E2 E3). by erewrite bind_ok by exact E4. }
  split_and!; try done; [|by eapply vstep_trans, vstep_trans]. intros p. rewrite <- Hcov. unfold P. by rewrite elem_of_list_to_set.
Qed.

(** C14: the kernel's address space.  With 167 free pages, [kvmmake] succeeds:
    it returns the root of a page table that maps exactly the devices, the
    text without write permission, the rest of the physical memory without
    execute permission, the trampoline and a page for the stack of every
    process, as [kernel_map] says.  The stacks are different pages, of the
    free list like the tables; every other free page is still free, and no
    other memory is written. *)
Theorem kvmmake_spec s l :
  kmem_inv s l -> LkKmem ∉ held (mm_mach s) -> (166 < length l)%nat ->
  exists root s' l' T A stacks, kvmmake etext trampoline s = Ok root s' /\ vm_inv s' l' T A /\ T !! [] = Some root /\
    (forall va, 0 <= va < MAXVA -> aligned va -> A !! path va = kernel_map etext trampoline stacks va) /\
    length stacks = NPROC /\ NoDup stacks /\
    (forall p, p ∈ l <-> p ∈ stacks \/ p ∈ own l' T) /\ (forall p, p ∈ stacks -> p ∉ own l' T) /\
    vstep (list_to_set l) s s'.
Proof using Het Htr.
  intros K L Hl. destruct (kvmmake_ok s l K L Hl) as (root & s' & l' & T & A & P & stacks & E & Hn & Hd & Hc & Hp & [V Hr _ <- Sh] & S).
  exists root, s', l', T, A, stacks. split_and!; try done. intros va Hv Ha. by rewrite Sh, map_agrees.
Qed.

(** No page of the kernel is both writable and executable, none is open to
    user code, and there is nothing below a stack. *)
Lemma kernel_map_flags stacks va pa f :
  kernel_map etext trampoline stacks va = Some (pa, f) -> flag f PTE_W && flag f PTE_X = false /\ flag f PTE_U = false.
Proof using.
  unfold kernel_map. repeat case_decide; try (intros [= _ <-]; done). destruct (kstack_index va) as [j|]; [|done].
  destruct (stacks !! j); [|done]. by intros [= _ <-].
Qed.
Lemma kernel_map_guard stacks i : (i < NPROC)%nat -> kernel_map etext trampoline stacks (KSTACK (Z.of_nat i) - PGSIZE) = None.
Proof using Het.
  intros Hi. destruct Het as [Het1 _]. assert (H : MAXVA - 2 ^ 21 <= KSTACK (Z.of_nat i) - PGSIZE < TRAMPOLINE) by (unfold KSTACK, NPROC in *; kvm_side).
  unfold kernel_map. rewrite !decide_False by kvm_side. destruct (kstack_index _) as [j|] eqn:Ej; [|done].
  apply kstack_index_spec in Ej. unfold KSTACK in Ej. exfalso. kvm_side.
Qed.
End kernel.

Lemma kvmmake_spec_witness :
  exists s root s' l' T A (stacks : list Z), kinit mm_boot = Ok tt s /\ kvmmake 0x80008000 0x80007000 s = Ok root s' /\ vm_inv s' l' T A /\
    A !! path KERNBASE = Some (KERNBASE, perm_rx) /\ A !! path (KSTACK 0 - PGSIZE) = None /\ length stacks = NPROC.
Proof.
  destruct (kinit_spec mm_boot kmem_inv_boot) as (s & E & K & M); [apply not_elem_of_nil|by apply Z.leb_le|].
  destruct (kvmmake_spec 0x80008000 0x80007000) with (s := s) (l := reverse (pages_between (k_end mm_boot) PHYSTOP))
    as (root & s' & l' & T & A & stacks & E' & V & _ & Sh & Hn & _).
  - split; [split; by apply Z.ltb_lt|reflexivity].
  - split; [by apply Z.leb_le|split; [reflexivity|by apply Z.leb_le]].
  - exact K.
  - rewrite M. apply not_elem_of_nil.
  - rewrite length_reverse. unfold pages_between, page_range. rewrite length_fmap, length_seq. apply Nat2Z.inj_lt.
    rewrite Z2Nat.id by (by apply Z.leb_le). by apply Z.ltb_lt.
  - exists s, root, s', l', T, A, stacks. split; [exact E|]. split; [exact E'|]. split; [exact V|].
    split; [|split; [|exact Hn]].
    + rewrite Sh; [reflexivity|split; [by apply Z.leb_le|by apply Z.ltb_lt]|reflexivity].
    + rewrite Sh; [reflexivity|split; [by apply Z.leb_le|by apply Z.ltb_lt]|reflexivity].
Defined.
