(* ===== verification/VmCopy.v ===== *)
(** * Copying between the kernel and a process, and lazy allocation

    What a process sees of its memory is [umem m U]: the bytes of its mapped
    pages, and zeroes where a page is still to be allocated.  [vmfault] does
    not change that view, [copyin] reads it and [copyout] updates it. *)

From stdpp Require Import base numbers strings decidable sets gmap functions list.
From S2P Require Import Prelude.
From S2P Require Import CString.
From S2P Require Import Riscv.
From S2P Require Import Sched.
From S2P Require Import Kalloc.
From S2P Require Import Vm.
From S2P Require Import VmInv.
From S2P Require Import Uvm.
Open Scope Z_scope.
Open Scope xv6_scope.

Definition umem (m : memory) (U : leaves) : memory := fun va =>
  match U !! path va with
  | Some (pa, _) => m (pa + va mod PGSIZE)
  | None => 0
  end.

Definition uva (va : Z) : Prop := 0 <= va < MAXVA.
Definition page_of (va : Z) : Z := va / PGSIZE * PGSIZE.

Lemma page_of_spec va : 0 <= va ->
  0 <= page_of va <= va /\ aligned (page_of va) /\ va = page_of va + va mod PGSIZE /\
  0 <= va mod PGSIZE < PGSIZE.
Proof.
  intros H. unfold page_of. split_and!.
  - unfold PGSIZE. divlia.
  - unfold PGSIZE. divlia.
  - unfold aligned. by apply Z.mod_mul.
  - unfold PGSIZE. divlia.
  - unfold PGSIZE. divlia.
  - unfold PGSIZE. divlia.
Qed.

Lemma page_of_max va : uva va -> page_of va + PGSIZE <= MAXVA.
Proof. unfold uva, page_of. change MAXVA with (2 ^ 38). unfold PGSIZE. intros. divlia. Qed.

Lemma PX_page level va : 0 <= level -> PX level (page_of va) = PX level va.
Proof.
  intros. rewrite !PX_spec by done. f_equal. rewrite Z.pow_add_r by lia. change (2 ^ 12) with PGSIZE.
  rewrite <- !Z.div_div by (done || lia). unfold page_of. by rewrite Z.div_mul.
Qed.
Lemma path_page va : path (page_of va) = path va.
Proof. unfold path. by rewrite !PX_page. Qed.

Lemma path_eq va va' : uva va -> uva va' -> path va = path va' -> page_of va = page_of va'.
Proof.
  intros H H' E. rewrite <- (path_page va), <- (path_page va') in E.
  destruct (page_of_spec va) as (? & ? & _); [apply H|].
  destruct (page_of_spec va') as (? & ? & _); [apply H'|]. unfold uva in *.
  apply path_inj in E; done || lia.
Qed.

Lemma in_page_off pa va : 0 <= va -> in_page pa (pa + va mod PGSIZE).
Proof. intros H. destruct (page_of_spec va H) as (_ & _ & _ & ?). unfold in_page. lia. Qed.

(** Steps that keep to free pages and tables do not change the view. *)
Lemma umem_frame s s' l T U F va :
  uvm_inv s l T U F -> vstep (own l T) s s' -> 0 <= va -> umem (mem s') U va = umem (mem s) U va.
Proof.
  intros I S Hv. unfold umem. destruct (U !! path va) as [[pa f]|] eqn:E; [|done].
  eapply uvm_frame; [done..|]. by apply in_page_off.
Qed.

(** A new zeroed page does not change it either. *)
Lemma umem_insert s s' l T U F va0 q f va :
  uvm_inv s l T U F -> vstep (own l T) s s' -> U !! path va0 = None -> filled q 0 (mem s') ->
  0 <= va -> umem (mem s') (<[path va0 := (q, f)]> U) va = umem (mem s) U va.
Proof.
  intros I S Hn Hz Hv. destruct (decide (path va = path va0)) as [E|E].
  - unfold umem. rewrite E, lookup_insert_eq, Hn. by apply Hz, in_page_off.
  - rewrite <- (umem_frame s s' l T U F va) by done. unfold umem. by rewrite lookup_insert_ne.
Qed.

(** ** Lazy allocation *)

(** The current process: its page table is the one at [root], its size
    within the range of user addresses. *)
Record uproc (m : mach) (root sz : Z) : Prop := {
  up_cur : exists i p, cur m = Some i /\ procs m !! i = Some p /\ p_pagetable p = root /\ p_sz p = sz;
}.

(** What an operation of the process has kept, as it sees it. *)
Record ukept (s : mm) (l : list Z) (T : tables) (U : leaves)
             (s' : mm) (l' : list Z) (T' : tables) (U' F : leaves) : Prop := {
  uk_inv : uvm_inv s' l' T' U' F;
  uk_T : T ⊆ T';
  uk_U : U ⊆ U';
  uk_own : uown l' T' U' = uown l T U;
  uk_mach : mm_mach s' = mm_mach s;
  uk_end : k_end s' = k_end s;
  uk_foreign : forall p a, aligned p -> p ∉ uown l T U -> in_page p a -> mem s' a = mem s a;
}.

Lemma ukept_refl s l T U F : uvm_inv s l T U F -> ukept s l T U s l T U F.
Proof. by split. Qed.
Lemma ukept_trans s1 l1 T1 U1 s2 l2 T2 U2 s3 l3 T3 U3 F :
  ukept s1 l1 T1 U1 s2 l2 T2 U2 F -> ukept s2 l2 T2 U2 s3 l3 T3 U3 F ->
  ukept s1 l1 T1 U1 s3 l3 T3 U3 F.
Proof.
  intros [I1 A1 B1 O1 M1 E1 F1] [I2 A2 B2 O2 M2 E2 F2]. split; try done; try congruence.
  - by etrans.
  - by etrans.
  - intros p a Hp Hn Ha. rewrite (F2 p) by (rewrite ?O1; done). by apply (F1 p).
Qed.

Lemma ukept_step s l T U F s' l' T' U' :
  uvm_inv s l T U F -> uvm_inv s' l' T' U' F -> T ⊆ T' -> U ⊆ U' -> uown l' T' U' = uown l T U ->
  vstep (own l T) s s' -> ukept s l T U s' l' T' U' F.
Proof.
  intros I I' HT HU HO S. split; try done; try apply S.
  intros p a Hp Hn Ha. apply (vm_frame s s' l T (U ∪ F) p); try done; [apply I|].
  unfold uown in Hn. set_solver.
Qed.

Lemma insert_frames (l : list Z) (T : tables) (U : leaves) (κ : list Z) (q f : Z) :
  U !! κ = None -> uown l T (<[κ := (q, f)]> U) = {[q]} ∪ uown l T U.
Proof.
  intros H. unfold uown, frames. rewrite fmap_insert, map_img_insert_notin_L.
  - set_solver.
  - by rewrite lookup_fmap, H.
Qed.

(** [PTE_W|PTE_U|PTE_R|PTE_V] *)
Definition lazy_flags : Z := Z.lor (Z.lor (Z.lor PTE_W PTE_U) PTE_R) PTE_V.

Lemma PGROUNDDOWN_page va : 0 <= va < 2 ^ 64 -> PGROUNDDOWN va = page_of va.
Proof. apply PGROUNDDOWN_spec. Qed.

Lemma vmfault_ok s l T U F root sz va :
  uvm_inv s l T U F -> T !! [] = Some root -> uproc (mm_mach s) root sz ->
  sz <= MAXVA -> 0 <= va < 2 ^ 64 ->
  exists r s' l' T' U', vmfault root va s = Ok r s' /\ ukept s l T U s' l' T' U' F /\
    (forall v, 0 <= v -> umem (mem s') U' v = umem (mem s) U v) /\
    ((r = 0 /\ U' = U) \/
     (va < sz /\ (U ∪ F) !! path va = None /\ U' = <[path va := (r, lazy_flags)]> U)) /\
    (r = 0 -> sz <= va \/ is_Some ((U ∪ F) !! path va) \/ (length l' <= 1)%nat).
Proof.
  intros I HT [(i & p & Hc & Hp & Hr & Hs)] Hmax Hv. unfold vmfault.
  erewrite bind_ok by (apply lift_read; by apply myproc_ok).
  erewrite bind_ok by (apply lift_read; by apply get_proc_ok). rewrite Hs.
  destruct (decide (sz <= va)) as [Hge|Hlt].
  { rewrite (proj2 (Z.leb_le _ _)) by done. exists 0, s, l, T, U.
    split_and!; [done|by apply ukept_refl|done|by left|by left]. }
  rewrite (proj2 (Z.leb_gt _ _)) by lia. cbv zeta. rewrite PGROUNDDOWN_page by done.
  destruct (page_of_spec va) as (Hpg & Hal & _); [lia|].
  assert (Hpm : page_of va + PGSIZE <= MAXVA) by (apply page_of_max; unfold uva; lia).
  erewrite bind_ok by (eapply ismapped_ok; [apply I|done|pglia]). rewrite path_page.
  destruct ((U ∪ F) !! path va) as [x|] eqn:EA.
  { rewrite bool_decide_true by done. exists 0, s, l, T, U.
    split_and!; [done|by apply ukept_refl|done|by left|by eauto]. }
  rewrite bool_decide_false by (by intros []).
  destruct l as [|q l].
  { erewrite bind_ok by (by eapply uvm_kalloc_none). exists 0, s, [], T, U.
    split_and!; [done|by apply ukept_refl|done|by left|]. intros _. simpl. right. right. lia. }
  destruct (uvm_alloc s q l T U F root (page_of va) (Z.lor (Z.lor PTE_W PTE_U) PTE_R))
    as (s1 & E1 & Hq & S1 & R); [done|done|lia|done|done|by rewrite path_page|done|].
  erewrite bind_ok by exact E1. rewrite (proj2 (Z.eqb_neq _ _)) by done.
  destruct (zero_page_ok q s1 Hq) as (m2 & E2 & O2 & Z2). erewrite bind_ok by exact E2.
  destruct (R m2 O2) as (r & s3 & l3 & T3 & E3 & Sub & R3). rewrite Hr. erewrite bind_ok by exact E3.
  pose proof EA as EA'. apply lookup_union_None in EA' as [EU EF]. rewrite path_page in R3.
  destruct R3 as [(-> & I3 & O3 & S3 & C3)|(-> & s4 & E4 & I4 & O4 & S4)].
  - exists q, s3, l3, T3, (<[path va := (q, lazy_flags)]> U). split_and!; [done| | |right; split_and!; [lia|done..]|intros; by destruct Hq].
    + apply ukept_step; try done; [by apply insert_subseteq|].
      rewrite insert_frames by done. unfold uown. rewrite <- O3. set_solver.
    + intros v Hv0. eapply umem_insert; try done. intros b Hb. rewrite C3 by done. by apply Z2.
  - cbn [negb Z.eqb]. erewrite bind_ok by exact E4. exists 0, s4, [q], T3, U.
    split_and!; [done| | |by left|].
    + apply ukept_step; try done. unfold uown. by rewrite O4.
    + intros v Hv0. by eapply umem_frame.
    + intros _. simpl. auto.
Qed.

(** The page is mapped for user access with flag [b]. *)
Definition access (U : leaves) (b v : Z) : Prop :=
  uva v /\ exists pa f, U !! path v = Some (pa, f) /\ flag f PTE_U = true /\ flag f b = true.

Lemma access_mono U U' b v : U ⊆ U' -> access U b v -> access U' b v.
Proof.
  intros HS (Hv & pa & f & H & ?). split; [done|]. exists pa, f. split; [|done]. by eapply lookup_weaken.
Qed.
Lemma access_page U b v v' : page_of v = page_of v' -> uva v' -> access U b v -> access U b v'.
Proof.
  intros E Hv' (_ & H). split; [done|]. by rewrite <- (path_page v'), <- E, path_page.
Qed.

Lemma walkaddr_user s l T U F root va :
  uvm_inv s l T U F -> T !! [] = Some root ->
  walkaddr root va s =
    Ok (if decide (va < MAXVA) then
          match U !! path va with Some (pa, f) => if flag f PTE_U then pa else 0 | None => 0 end
        else 0) s.
Proof.
  intros I HT. rewrite (walkaddr_ok s l T (U ∪ F)) by (done || apply I). do 2 f_equal.
  destruct (decide _); [|done].
  destruct (U !! path va) as [[pa f]|] eqn:E; [by rewrite (lookup_union_Some_l _ _ _ _ E)|].
  rewrite lookup_union_r by done. destruct (F !! path va) as [[pa f]|] eqn:EF; [|done].
  by rewrite (ui_foreign _ _ _ _ _ I _ _ _ EF).
Qed.

Lemma walk_or_fault_ok s l T U F root sz va :
  uvm_inv s l T U F -> T !! [] = Some root -> uproc (mm_mach s) root sz ->
  sz <= MAXVA -> 0 <= va < 2 ^ 64 ->
  exists r s' l' T' U', walk_or_fault root va s = Ok r s' /\ ukept s l T U s' l' T' U' F /\
    (forall v, 0 <= v -> umem (mem s') U' v = umem (mem s) U v) /\
    (r <> 0 -> uva va /\ exists f, U' !! path va = Some (r, f) /\ flag f PTE_U = true) /\
    (forall b, access U b va -> r <> 0).
Proof.
  intros I HT Hp Hsz Hv. unfold walk_or_fault.
  erewrite bind_ok by (by eapply walkaddr_user).
  destruct (vmfault_ok s l T U F root sz va I HT Hp Hsz Hv)
    as (r & s' & l' & T' & U' & E & K & HM & R & _).
  assert (HF : exists r s' l' T' U', vmfault root va s = Ok r s' /\ ukept s l T U s' l' T' U' F /\
    (forall v, 0 <= v -> umem (mem s') U' v = umem (mem s) U v) /\
    (r <> 0 -> uva va /\ exists f, U' !! path va = Some (r, f) /\ flag f PTE_U = true)).
  { exists r, s', l', T', U'. split_and!; try done. intros Hr.
    destruct R as [[-> _]|(Hlt & _ & ->)]; [done|]. split; [unfold uva; lia|].
    exists lazy_flags. by rewrite lookup_insert_eq. }
  assert (Hno : (forall b, ~ access U b va) -> exists r s' l' T' U', vmfault root va s = Ok r s' /\
    ukept s l T U s' l' T' U' F /\
    (forall v, 0 <= v -> umem (mem s') U' v = umem (mem s) U v) /\
    (r <> 0 -> uva va /\ exists f, U' !! path va = Some (r, f) /\ flag f PTE_U = true) /\
    (forall b, access U b va -> r <> 0)).
  { intros Hn. destruct HF as (r1 & s1 & l1 & T1 & U1 & ?). exists r1, s1, l1, T1, U1.
    split_and!; try apply H. intros b Hb. by destruct (Hn b). }
  clear HF E K HM R. destruct (decide (va < MAXVA)) as [Hlt|Hge].
  2: { apply Hno. unfold access, uva. intros b [? _]. lia. }
  destruct (U !! path va) as [[pa f]|] eqn:EU.
  2: { apply Hno. intros b (_ & pa & f & ? & _). congruence. }
  destruct (flag f PTE_U) eqn:Ef.
  2: { apply Hno. intros b (_ & pa' & f' & ? & ? & _). congruence. }
  destruct (ui_page _ _ _ _ _ I _ _ _ EU) as [Hpa _].
  destruct (valid_page_range _ _ _ (vi_k _ _ _ _ (ui_vm _ _ _ _ _ I)) Hpa) as [Hpa' _].
  rewrite (proj2 (Z.eqb_neq _ _)) by lia. exists pa, s, l, T, U.
  split_and!; [done|by apply ukept_refl|done| |lia]. intros _. split; [unfold uva; lia|]. eauto.
Qed.

(** A write within one user page. *)
Lemma umem_write s l T U F va pa f bs :
  uvm_inv s l T U F -> uva va -> U !! path va = Some (pa, f) ->
  va mod PGSIZE + Z.of_nat (length bs) <= PGSIZE ->
  let s' := s <| mem := write_bytes (mem s) (pa + va mod PGSIZE) bs |> in
  ukept s l T U s' l T U F /\
  (forall v, uva v -> umem (mem s') U v = write_bytes (umem (mem s) U) va bs v).
Proof.
  intros I Hva HU Hlen s'. destruct (ui_page _ _ _ _ _ I _ _ _ HU) as [Hvp Hno].
  assert (Hoff : same_off pa (mem s) (mem s')).
  { intros a Ha. apply write_bytes_out. destruct (page_of_spec va) as (_ & _ & _ & ?); [apply Hva|].
    unfold in_page in Ha. lia. }
  split.
  - split; try done.
    + eapply uvm_poke; [done|apply Hvp|done|done].
    + intros p a Hp Hn Ha. apply Hoff. apply (pages_disjoint p pa); [done|apply Hvp| |done].
      intros ->. apply Hn. unfold uown. apply elem_of_union. right. apply elem_of_frames. eauto.
  - intros v Hv. destruct (decide (path v = path va)) as [E|E].
    + pose proof (path_eq _ _ Hv Hva E) as Epg.
      destruct (page_of_spec va) as (_ & _ & E1 & _); [apply Hva|].
      destruct (page_of_spec v) as (_ & _ & E2 & _); [apply Hv|].
      unfold umem at 1. rewrite E, HU. simpl. rewrite !write_bytes_spec. unfold umem. rewrite E, HU.
      replace (pa + v mod PGSIZE - (pa + va mod PGSIZE)) with (v - va) by lia.
      destruct (bs !! _); [|done]. repeat case_decide; done || lia.
    + rewrite write_bytes_out.
      * unfold umem. destruct (U !! path v) as [[pa' f']|] eqn:E'; [|done]. apply Hoff.
        apply (pages_disjoint pa' pa); [|apply Hvp| |apply in_page_off, Hv].
        -- by apply (ui_page _ _ _ _ _ I) in E' as [[? _] _].
        -- intros ->. apply E. by eapply (ui_inj _ _ _ _ _ I).
      * assert (Hpg : page_of v <> page_of va) by
          (intros Epg; apply E; by rewrite <- (path_page v), Epg, path_page).
        destruct (page_of_spec va) as (_ & _ & E1 & _); [apply Hva|].
        assert (H : v < va \/ va + Z.of_nat (length bs) <= v \/ va <= v < va + Z.of_nat (length bs)) by lia.
        destruct H as [?|[?|H]]; [lia..|]. destruct Hpg. unfold page_of, PGSIZE in *.
        clear -H Hlen E1. f_equal. divlia.
Qed.

(** Reading the entry of a mapped page. *)
Lemma leaf_read s l T U F root va pa f :
  uvm_inv s l T U F -> T !! [] = Some root -> va < MAXVA -> U !! path va = Some (pa, f) ->
  exists pte, walk root va false s = Ok pte s /\ pte <> 0 /\ load_pte pte s = Ok (mkpte pa f) s /\
    pte_ok pa f.
Proof.
  intros I HT Hv HU. pose proof (ui_vm _ _ _ _ _ I) as V.
  pose proof (lookup_union_Some_l U F _ _ HU) as HA.
  destruct (pi_A _ _ _ (vi_pt _ _ _ _ V) _ _ _ HA) as (Hok & π & i & Eπ & [q Hq] & _).
  rewrite path_down in Eπ. apply app_one_inj in Eπ as [<- <-].
  pose proof (PX_slot 0 va ltac:(lia)) as Hi.
  exists (pte_at q (PX 0 va)). assert (pte_at q (PX 0 va) <> 0) by (by eapply pte_at_ne).
  split_and!; [|done| |done].
  - erewrite walk_lookup by done. by rewrite Hq.
  - rewrite load_pte_ok by done. rewrite (pi_leaf _ _ _ (vi_pt _ _ _ _ V) (down 2 va)) by done.
    unfold leaf_entry. by rewrite <- path_down, HA.
Qed.

(** ** The copy loops *)

(** How many bytes one iteration moves, and where the next one starts. *)
Lemma chunk va (len : nat) :
  0 <= va -> (0 < len)%nat ->
  let n := Z.to_nat (Z.min (PGSIZE - (va - page_of va)) (Z.of_nat len)) in
  (0 < n <= len)%nat /\ va mod PGSIZE + Z.of_nat n <= PGSIZE /\ va - page_of va = va mod PGSIZE /\
  (forall k : nat, (k < n)%nat -> page_of (va + Z.of_nat k) = page_of va) /\
  ((n < len)%nat -> page_of va + PGSIZE = va + Z.of_nat n).
Proof.
  intros Hv Hl n. destruct (page_of_spec va Hv) as (? & ? & ? & ?).
  subst n. split_and!; try lia. intros k Hk. unfold page_of, PGSIZE in *. f_equal.
  assert (Hk' : Z.of_nat k < 4096 - va mod 4096) by lia. clear -Hk' Hv. divlia.
Qed.

Section Copy.
Context (F : leaves) (root sz : Z) (Hsz : sz <= MAXVA).

(** What [copyout] of [src] to [dst] leads to: the first [n] bytes have been
    stored, all of them when it returns 0. *)
Record copied_out (s : mm) (U : leaves) (dst : Z) (src : list Z) (r : Z) (s' : mm) (U' : leaves)
    (n : nat) : Prop := {
  co_mem : forall v, uva v ->
    umem (mem s') U' v = write_bytes (umem (mem s) U) dst (take n src) v;
  co_ret : (r = 0 /\ n = length src) \/ (r = -1 /\ (n < length src)%nat);
  co_access : r = 0 -> forall k : nat, (k < length src)%nat -> access U' PTE_W (dst + Z.of_nat k);
  co_total : (forall k : nat, (k < length src)%nat -> access U PTE_W (dst + Z.of_nat k)) -> r = 0;
}.

Lemma copied_out_nil s U dst s' U' r (src : list Z) :
  (forall v, 0 <= v -> umem (mem s') U' v = umem (mem s) U v) -> src <> [] -> r = -1 ->
  ~ (forall k : nat, (k < length src)%nat -> access U PTE_W (dst + Z.of_nat k)) ->
  copied_out s U dst src r s' U' 0.
Proof.
  intros HM Hsrc -> Hno. split; try done.
  - intros v Hv. apply HM, Hv.
  - right. split; [done|]. destruct src; [done|]. simpl. lia.
Qed.

(** A page of the copy followed by the rest of it. *)
Lemma copied_out_app s U s1 U1 s2 dst src n r s3 U3 k :
  (forall v, 0 <= v -> umem (mem s1) U1 v = umem (mem s) U v) ->
  (forall v, uva v -> umem (mem s2) U1 v = write_bytes (umem (mem s1) U1) dst (take n src) v) ->
  uva dst -> U ⊆ U1 -> U1 ⊆ U3 -> access U1 PTE_W dst -> (0 < n <= length src)%nat ->
  (forall k : nat, (k < n)%nat -> page_of (dst + Z.of_nat k) = page_of dst) ->
  ((n < length src)%nat -> page_of dst + PGSIZE = dst + Z.of_nat n) ->
  copied_out s2 U1 (u64 (page_of dst + PGSIZE)) (drop n src) r s3 U3 k ->
  copied_out s U dst src r s3 U3 (n + k).
Proof.
  intros M1 M2 Hd S1 S3 Ha Hn Hpg Hnext [CM CR CA CT]. rewrite length_drop in *.
  assert (Hacc : forall j : nat, (j < n)%nat -> access U1 PTE_W (dst + Z.of_nat j)).
  { intros j Hj. apply (access_page U1 PTE_W dst); [by rewrite Hpg| |done].
    pose proof (page_of_max dst Hd). pose proof (Hpg j Hj) as E.
    destruct (page_of_spec (dst + Z.of_nat j)) as (_ & _ & E1 & ?); [unfold uva in *; lia|].
    unfold uva in *. lia. }
  assert (Hu : (n < length src)%nat -> u64 (page_of dst + PGSIZE) = dst + Z.of_nat n).
  { intros Hlt. pose proof (page_of_max dst Hd). destruct (page_of_spec dst) as (? & _); [apply Hd|].
    rewrite <- (Hnext Hlt). apply u64_small. pglia. }
  split.
  - intros v Hv. rewrite CM by done. destruct (decide (n < length src)%nat) as [Hlt|Hge].
    + rewrite Hu by done. rewrite <- (take_take_drop src n k), write_bytes_app, length_take.
      rewrite Nat.min_l by lia. apply write_bytes_ext. rewrite M2 by done. apply write_bytes_ext, M1, Hv.
    + rewrite drop_ge by lia. rewrite take_nil. simpl. rewrite M2 by done.
      rewrite !take_ge by lia. apply write_bytes_ext, M1, Hv.
  - destruct CR as [[-> ->]|[-> ?]]; [left|right]; split; done || lia.
  - intros Hr j Hj. destruct (decide (j < n)%nat); [by eapply access_mono, Hacc|].
    specialize (CA Hr (j - n)%nat ltac:(lia)). rewrite Hu in CA by lia.
    by replace (dst + Z.of_nat j) with (dst + Z.of_nat n + Z.of_nat (j - n)) by lia.
  - intros Hall. apply CT. intros j Hj. rewrite Hu by lia. eapply access_mono; [exact S1|].
    replace (dst + Z.of_nat n + Z.of_nat j) with (dst + Z.of_nat (n + j)) by lia. apply Hall. lia.
Qed.

Lemma copyout_loop_ok fuel s l T U dst src :
  (length src < fuel)%nat -> uvm_inv s l T U F -> T !! [] = Some root ->
  uproc (mm_mach s) root sz -> 0 <= dst < 2 ^ 64 ->
  exists r s' l' T' U' n, copyout_loop fuel root dst src s = Ok r s' /\
    ukept s l T U s' l' T' U' F /\ copied_out s U dst src r s' U' n.
Proof.
  revert s l T U dst src. induction fuel as [|fuel IH]; intros s l T U dst src Hf I HT Hp Hd; [lia|].
  cbn [copyout_loop]. destruct src as [|c src0] eqn:Esrc.
  { exists 0, s, l, T, U, 0%nat. split_and!; [done|by apply ukept_refl|]. split; try done; [by left|].
    intros _ k Hk. simpl in Hk. lia. }
  rewrite <- Esrc in *. assert (Hl : (0 < length src)%nat) by (subst; simpl; lia).
  assert (Hne : src <> []) by (by subst). rewrite (proj2 (Nat.eqb_neq _ _)) by lia.
  clear Esrc c src0. cbv zeta. rewrite PGROUNDDOWN_page by done.
  destruct (page_of_spec dst) as (Hpg & Hal & _ & _); [lia|].
  assert (Hmax : ~ page_of dst < MAXVA ->
    ~ (forall k : nat, (k < length src)%nat -> access U PTE_W (dst + Z.of_nat k))).
  { intros H Ha. destruct (Ha 0%nat Hl) as [[_ ?] _]. lia. }
  destruct (decide (page_of dst < MAXVA)) as [Hlt|Hge].
  2: { rewrite (proj2 (Z.leb_le _ _)) by lia. exists (-1), s, l, T, U, 0%nat.
       split_and!; [done|by apply ukept_refl|]. apply copied_out_nil; auto. }
  rewrite (proj2 (Z.leb_gt _ _)) by lia.
  destruct (walk_or_fault_ok s l T U F root sz (page_of dst)) as (pa & s1 & l1 & T1 & U1 & E1 & K1 & M1 & R1 & A1);
    [done|done|done|done|lia|].
  erewrite bind_ok by exact E1.
  assert (Hdst : uva dst).
  { unfold uva. split; [lia|]. destruct (page_of_spec dst) as (_ & _ & Ed & Em); [lia|].
    unfold page_of, PGSIZE in *. change MAXVA with (2 ^ 38) in *. clear -Ed Em Hlt. divlia. }
  assert (Hpp : page_of (page_of dst) = page_of dst).
  { unfold page_of. by rewrite Z.div_mul. }
  destruct (decide (pa = 0)) as [->|Hpa].
  { exists (-1), s1, l1, T1, U1, 0%nat. split_and!; [done|done|]. apply copied_out_nil; [done..|].
    intros Ha. apply (A1 PTE_W); [|done]. apply (access_page U PTE_W dst); [done|unfold uva; lia|].
    specialize (Ha 0%nat Hl). by rewrite Z.add_0_r in Ha. }
  rewrite (proj2 (Z.eqb_neq _ _)) by done. destruct R1 as (Hva & f & HU1 & Hf1); [done|].
  pose proof (uk_inv _ _ _ _ _ _ _ _ _ K1) as I1.
  assert (HT1 : T1 !! [] = Some root) by (eapply lookup_weaken; [done|apply K1]).
  destruct (leaf_read s1 l1 T1 U1 F root (page_of dst) pa f) as (pte & E2 & Hpte & E3 & Hok); try done.
  erewrite bind_ok by exact E2. erewrite bind_ok by exact E3. rewrite mkpte_flag by done.
  rewrite path_page in HU1.
  assert (HU0 : access U PTE_W dst -> flag f PTE_W = true).
  { intros (_ & pa' & f' & H & _ & Hw). eapply lookup_weaken in H; [|apply K1].
    rewrite HU1 in H. by injection H as <- <-. }
  destruct (flag f PTE_W) eqn:Ew.
  2: { exists (-1), s1, l1, T1, U1, 0%nat. split_and!; [done|done|]. apply copied_out_nil; [done..|].
       intros Ha. specialize (Ha 0%nat Hl). rewrite Z.add_0_r in Ha. by apply HU0 in Ha. }
  cbn [negb]. destruct (chunk dst (length src)) as (Hn & Hfit & Eoff & Hpages & Hnext); [lia|done|].
  rewrite Eoff. rewrite Eoff in *. set (n := Z.to_nat _) in *.
  destruct (umem_write s1 l1 T1 U1 F dst pa f (take n src) I1 Hdst HU1) as [K2 M2]; [len|].
  set (s2 := s1 <| mem := _ |>) in *. erewrite bind_ok by done. fold s2.
  pose proof (ukept_trans _ _ _ _ _ _ _ _ _ _ _ _ _ K1 K2) as K12.
  destruct (IH s2 l1 T1 U1 (u64 (page_of dst + PGSIZE)) (drop n src)) as (r & s3 & l3 & T3 & U3 & k & E4 & K3 & [CM CR CA CT]);
    [len|apply K2|done|by rewrite (uk_mach _ _ _ _ _ _ _ _ _ K12)|apply u64_range|].
  exists r, s3, l3, T3, U3, (n + k)%nat. split_and!; [done|by eapply ukept_trans|].
  apply (copied_out_app s U s1 U1 s2 dst src n r s3 U3 k); try done.
  - apply K1.
  - apply K3.
  - split; [done|]. by exists pa, f.
Qed.

(** What [copyin] of [len] bytes from [src] leads to: the first [n] bytes
    were read, all of them when it returns 0. *)
Record copied_in (s : mm) (U : leaves) (src : Z) (len : nat) (r : Z) (bs : list Z) (n : nat) : Prop := {
  ci_bytes : bs = read_bytes (umem (mem s) U) src n;
  ci_ret : (r = 0 /\ n = len) \/ (r = -1 /\ (n < len)%nat);
  ci_total : (forall k : nat, (k < len)%nat -> access U PTE_V (src + Z.of_nat k)) -> r = 0;
}.

Lemma page_bytes m U va pa f (n : nat) :
  uva va -> U !! path va = Some (pa, f) ->
  (forall k : nat, (k < n)%nat -> page_of (va + Z.of_nat k) = page_of va) ->
  read_bytes m (pa + va mod PGSIZE) n = read_bytes (umem m U) va n.
Proof.
  intros Hv HU Hpg. apply read_bytes_ext. intros i Hi. specialize (Hpg i Hi). unfold umem.
  rewrite <- (path_page (va + _)), Hpg, path_page, HU. f_equal.
  destruct (page_of_spec va) as (_ & _ & E & _); [apply Hv|].
  destruct (page_of_spec (va + Z.of_nat i)) as (_ & _ & E' & _); [unfold uva in *; lia|]. lia.
Qed.

Lemma copied_in_app s U s1 U1 src len n r bs k :
  (forall v, 0 <= v -> umem (mem s1) U1 v = umem (mem s) U v) -> U ⊆ U1 -> uva src ->
  (0 < n <= len)%nat -> ((n < len)%nat -> page_of src + PGSIZE = src + Z.of_nat n) ->
  copied_in s1 U1 (u64 (page_of src + PGSIZE)) (len - n) r bs k ->
  copied_in s U src len r (read_bytes (umem (mem s1) U1) src n ++ bs) (n + k).
Proof.
  intros M1 S1 Hs Hn Hnext [CB CR CT].
  assert (Hu : (n < len)%nat -> u64 (page_of src + PGSIZE) = src + Z.of_nat n).
  { intros Hlt. pose proof (page_of_max src Hs). destruct (page_of_spec src) as (? & _); [apply Hs|].
    rewrite <- (Hnext Hlt). apply u64_small. pglia. }
  split.
  - rewrite read_bytes_app, CB. f_equal.
    + apply read_bytes_ext. intros i _. apply M1. unfold uva in *. lia.
    + destruct (decide (n < len)%nat) as [Hlt|Hge].
      * rewrite Hu by done. apply read_bytes_ext. intros i _. apply M1. unfold uva in *. lia.
      * by replace k with 0%nat by lia.
  - destruct CR as [[-> ->]|[-> ?]]; [left|right]; split; done || lia.
  - intros Hall. apply CT. intros j Hj. rewrite Hu by lia. eapply access_mono; [exact S1|].
    replace (src + Z.of_nat n + Z.of_nat j) with (src + Z.of_nat (n + j)) by lia. apply Hall. lia.
Qed.

Lemma copyin_loop_ok fuel s l T U src len acc :
  (len < fuel)%nat -> uvm_inv s l T U F -> T !! [] = Some root ->
  uproc (mm_mach s) root sz -> 0 <= src < 2 ^ 64 ->
  exists r bs s' l' T' U' n, copyin_loop fuel root src len acc s = Ok (r, acc ++ bs) s' /\
    ukept s l T U s' l' T' U' F /\
    (forall v, 0 <= v -> umem (mem s') U' v = umem (mem s) U v) /\ copied_in s U src len r bs n.
Proof.
  revert s l T U src len acc. induction fuel as [|fuel IH]; intros s l T U src len acc Hf I HT Hp Hd; [lia|].
  cbn [copyin_loop]. destruct (decide (len = 0%nat)) as [->|Hlen].
  { exists 0, [], s, l, T, U, 0%nat. rewrite app_nil_r. split_and!; [done|by apply ukept_refl|done|].
    split; try done. by left. }
  rewrite (proj2 (Nat.eqb_neq _ _)) by lia. cbv zeta. rewrite PGROUNDDOWN_page by done.
  destruct (page_of_spec src) as (Hpg & _); [lia|].
  destruct (walk_or_fault_ok s l T U F root sz (page_of src))
    as (pa & s1 & l1 & T1 & U1 & E1 & K1 & M1 & R1 & A1); [done|done|done|done|lia|].
  erewrite bind_ok by exact E1. destruct (decide (pa = 0)) as [->|Hpa].
  { exists (-1), [], s1, l1, T1, U1, 0%nat. rewrite app_nil_r. split_and!; [done..|].
    split; [done|right; split; [done|lia]|]. intros Ha. destruct (A1 PTE_V); [|done].
    specialize (Ha 0%nat ltac:(lia)). rewrite Z.add_0_r in Ha.
    apply (access_page U PTE_V src); [unfold page_of; by rewrite Z.div_mul| |done].
    destruct Ha as [? _]. unfold uva in *. lia. }
  rewrite (proj2 (Z.eqb_neq _ _)) by done. destruct R1 as (Hva & f & HU1 & Hf1); [done|].
  rewrite path_page in HU1.
  assert (Hsrc : uva src).
  { destruct (page_of_spec src) as (_ & _ & Ed & Em); [lia|]. unfold uva in *. split; [lia|].
    unfold page_of, PGSIZE in *. change MAXVA with (2 ^ 38) in *. clear -Ed Em Hva. divlia. }
  destruct (chunk src len) as (Hn & Hfit & Eoff & Hpages & Hnext); [lia|lia|].
  rewrite Eoff in *. set (n := Z.to_nat _) in *. erewrite bind_ok by done.
  rewrite (page_bytes (mem s1) U1 src pa f n) by done.
  destruct (IH s1 l1 T1 U1 (u64 (page_of src + PGSIZE)) (len - n)%nat
    (acc ++ read_bytes (umem (mem s1) U1) src n))
    as (r & bs & s3 & l3 & T3 & U3 & k & E3 & K3 & M3 & [CB CR CT]);
    [lia|apply K1|eapply lookup_weaken; [done|apply K1]
    |by rewrite (uk_mach _ _ _ _ _ _ _ _ _ K1)|apply u64_range|].
  exists r, (read_bytes (umem (mem s1) U1) src n ++ bs), s3, l3, T3, U3, (n + k)%nat.
  rewrite app_assoc. split_and!; [done|by eapply ukept_trans| |].
  { intros v Hv. by rewrite M3, M1. }
  apply (copied_in_app s U s1 U1); try done. apply K1.
Qed.
End Copy.

(** C21: [copyout] stores the bytes where the process will read them.
    With the page table of the current process, whose size is within the
    user address range, it returns 0 or -1 and never panics; what the
    process sees afterwards is its old memory with the first [n] bytes of
    [src] stored at [dst], [n] being all of them when it returns 0; it does
    return 0 whenever all the destination pages are mapped writable for the
    user.  No page that belongs neither to the process nor to the allocator
    changes, and no page is lost or handed out twice. *)
Theorem copyout_spec s l T U F root sz dst src :
  uvm_inv s l T U F -> T !! [] = Some root -> uproc (mm_mach s) root sz -> sz <= MAXVA ->
  0 <= dst < 2 ^ 64 ->
  exists r s' l' T' U' n, copyout root dst src s = Ok r s' /\
    uvm_inv s' l' T' U' F /\ uown l' T' U' = uown l T U /\
    (forall p a, aligned p -> p ∉ uown l T U -> in_page p a -> mem s' a = mem s a) /\
    (forall v, uva v -> umem (mem s') U' v = write_bytes (umem (mem s) U) dst (take n src) v) /\
    ((r = 0 /\ n = length src) \/ (r = -1 /\ (n < length src)%nat)) /\
    ((forall k : nat, (k < length src)%nat -> access U PTE_W (dst + Z.of_nat k)) -> r = 0).
Proof.
  intros I HT Hp Hsz Hd.
  destruct (copyout_loop_ok F root sz Hsz (S (length src)) s l T U dst src)
    as (r & s' & l' & T' & U' & n & E & K & C); [lia|done..|].
  exists r, s', l', T', U', n. split_and!; try done; try apply K; apply C.
Qed.

(** C22: what the kernel copied out it reads back.  After [copyout] has
    returned 0, [copyin] from the same address returns 0 and the same bytes,
    lazily allocated pages included. *)
Theorem copyout_copyin s l T U F root sz dst src :
  uvm_inv s l T U F -> T !! [] = Some root -> uproc (mm_mach s) root sz -> sz <= MAXVA ->
  0 <= dst < 2 ^ 64 ->
  forall s', copyout root dst src s = Ok 0 s' ->
  exists s'', copyin root dst (length src) s' = Ok (0, src) s''.
Proof.
  intros I HT Hp Hsz Hd s' E.
  destruct (copyout_loop_ok F root sz Hsz (S (length src)) s l T U dst src)
    as (r & s1 & l1 & T1 & U1 & n & E1 & K & [CM CR CA _]); [lia|done..|].
  unfold copyout in E. rewrite E1 in E. injection E as -> ->.
  destruct CR as [[_ ->]|[? _]]; [|done].
  destruct (copyin_loop_ok F root sz Hsz (S (length src)) s' l1 T1 U1 dst (length src) [])
    as (r & bs & s2 & l2 & T2 & U2 & k & E2 & K2 & _ & [DB DR DT]);
    [lia|apply K|eapply lookup_weaken; [done|apply K]|by rewrite (uk_mach _ _ _ _ _ _ _ _ _ K)|done|].
  assert (Hv : forall k : nat, (k < length src)%nat -> access U1 PTE_V (dst + Z.of_nat k)).
  { intros j Hj. destruct (CA eq_refl j Hj) as (Hva & pa & f & HU & Hu & _). split; [done|].
    exists pa, f. split_and!; try done.
    by eapply po_v, (pi_A _ _ _ (vi_pt _ _ _ _ (ui_vm _ _ _ _ _ (uk_inv _ _ _ _ _ _ _ _ _ K)))),
      lookup_union_Some_l. }
  rewrite (DT Hv) in *. destruct DR as [[_ ->]|[? _]]; [|done]. exists s2. unfold copyin. rewrite E2.
  do 3 f_equal. rewrite DB. rewrite <- (read_write_bytes (umem (mem s) U) dst src) at 2. simpl.
  apply read_bytes_ext. intros i Hi. rewrite CM by (by apply (Hv i)). by rewrite take_ge.
Qed.

(** C23: an address space grown past the user address range brings the
    kernel down.  Where the size of the current process exceeds [MAXVA] (as
    the lazy branch of [sys_sbrk] allows), reading user memory from an
    address at or above [MAXVA] and below the size makes [copyin] panic
    instead of failing. *)
Theorem copyin_beyond_maxva s i p root src len :
  cur (mm_mach s) = Some i -> procs (mm_mach s) !! i = Some p -> p_pagetable p = root ->
  MAXVA <= page_of src -> src < p_sz p -> 0 <= src < 2 ^ 64 -> (0 < len)%nat ->
  copyin root src len s = Panic "walk".
Proof.
  intros Hc Hp Hr Hmax Hsz Hs Hlen. unfold copyin. cbn [copyin_loop].
  rewrite (proj2 (Nat.eqb_neq _ _)) by lia. cbv zeta. rewrite PGROUNDDOWN_page by done.
  apply bind_panic. unfold walk_or_fault, walkaddr. rewrite (proj2 (Z.leb_le _ _)) by done.
  erewrite bind_ok by done. rewrite Z.eqb_refl. unfold vmfault.
  erewrite bind_ok by (apply lift_read; by apply myproc_ok).
  erewrite bind_ok by (apply lift_read; by apply get_proc_ok).
  destruct (page_of_spec src) as (Hpg & Hal & _); [lia|].
  rewrite (proj2 (Z.leb_gt _ _)) by lia. cbv zeta. apply bind_panic. unfold ismapped.
  apply bind_panic. unfold walk.
  assert (E : PGROUNDDOWN (page_of src) = page_of src).
  { rewrite PGROUNDDOWN_page by lia. unfold page_of. by rewrite Z.div_mul. }
  by rewrite E, (proj2 (Z.leb_le _ _)).
Qed.

(** ** The theorems on a concrete machine *)

Lemma uproc_demo : uproc mach_user demo_root (4 * PGSIZE).
Proof. split. eexists 3%nat, _. by split_and!. Qed.

Lemma copyout_spec_witness :
  exists r s' l' T' U' n, copyout demo_root 4090 (replicate 10 7) mm_user = Ok r s' /\
    uvm_inv s' l' T' U' ∅ /\ uown l' T' U' = uown (reverse demo_pages) {[ [] := demo_root ]} ∅ /\
    (forall p a, aligned p -> p ∉ uown (reverse demo_pages) {[ [] := demo_root ]} ∅ -> in_page p a ->
      mem s' a = mem mm_user a) /\
    (forall v, uva v -> umem (mem s') U' v =
      write_bytes (umem (mem mm_user) ∅) 4090 (take n (replicate 10 7)) v) /\
    ((r = 0 /\ n = 10%nat) \/ (r = -1 /\ (n < 10)%nat)) /\
    ((forall k : nat, (k < 10)%nat -> access ∅ PTE_W (4090 + Z.of_nat k)) -> r = 0).
Proof.
  destruct mm_user_ok as [I M].
  apply (copyout_spec mm_user (reverse demo_pages) {[ [] := demo_root ]} ∅ ∅ demo_root (4 * PGSIZE)
           4090 (replicate 10 7)).
  - exact I.
  - apply lookup_singleton_eq.
  - rewrite M. exact uproc_demo.
  - by apply Z.leb_le.
  - lia.
Defined.

#[local] Transparent mm_free mm_user.
Lemma copyout_demo_succeeds :
  exists s', copyout demo_root 4090 (replicate 10 7) mm_user = Ok 0 s'.
Proof.
  assert (H : match copyout demo_root 4090 (replicate 10 7) mm_user with
              | Ok r _ => Z.eqb r 0 | _ => false end = true) by (vm_compute; reflexivity).
  destruct (copyout demo_root 4090 (replicate 10 7) mm_user) as [r s'| | | |]; try discriminate.
  exists s'. apply Z.eqb_eq in H. by subst.
Qed.
#[local] Opaque mm_free mm_user.

Lemma copyout_copyin_witness :
  exists s' s'', copyout demo_root 4090 (replicate 10 7) mm_user = Ok 0 s' /\
    copyin demo_root 4090 10 s' = Ok (0, replicate 10 7) s''.
Proof.
  destruct mm_user_ok as [I M]. destruct copyout_demo_succeeds as [s' E]. exists s'.
  destruct (copyout_copyin mm_user (reverse demo_pages) {[ [] := demo_root ]} ∅ ∅ demo_root (4 * PGSIZE)
           4090 (replicate 10 7)) with (s' := s') as [s'' E''].
  - exact I.
  - apply lookup_singleton_eq.
  - rewrite M. exact uproc_demo.
  - by apply Z.leb_le.
  - lia.
  - exact E.
  - exists s''. split; [exact E|exact E''].
Defined.

Lemma copyin_beyond_maxva_witness :
  copyin demo_root MAXVA 1
    (mm_user <| mm_mach := mach_user <| procs :=
       <[3%nat := blank_proc <| p_pagetable := demo_root |> <| p_sz := 2 * MAXVA |>]> (procs mach_user) |> |>)
  = Panic "walk".
Proof.
  apply (copyin_beyond_maxva _ 3%nat (blank_proc <| p_pagetable := demo_root |> <| p_sz := 2 * MAXVA |>)).
  - reflexivity.
  - reflexivity.
  - reflexivity.
  - by apply Z.leb_le.
  - by apply Z.ltb_lt.
  - split; [by apply Z.leb_le|by apply Z.ltb_lt].
  - lia.
Defined.
