(* ===== verification/VmFork.v ===== *)
(** * Copying and destroying address spaces

    [uvmcopy], by which [kfork] gives the child the parent's memory, and
    [freewalk] and [uvmfree], which give every page of an address space back
    to the allocator. *)

From stdpp Require Import base numbers strings decidable sets gmap functions list.
From S2P Require Import Prelude.
From S2P Require Import CString.
From S2P Require Import Riscv.
From S2P Require Import Sched.
From S2P Require Import Kalloc.
From S2P Require Import Vm.
From S2P Require Import VmInv.
From S2P Require Import Uvm.
From S2P Require Import VmCopy.
Open Scope Z_scope.
Open Scope xv6_scope.

(** ** Two address spaces *)

(** The pages of an address space, tables and user pages. *)
Definition space (T : tables) (U : leaves) : gset Z := map_img T ∪ frames U.

Lemma uown_space l T U : uown l T U = list_to_set l ∪ space T U.
Proof. unfold uown, own, space. set_solver. Qed.

Lemma elem_of_space T U p :
  p ∈ space T U <-> (exists π, T !! π = Some p) \/ (exists κ f, U !! κ = Some (p, f)).
Proof. unfold space. by rewrite elem_of_union, elem_of_map_img, elem_of_frames. Qed.

Lemma space_aligned s l T U F p : uvm_inv s l T U F -> p ∈ space T U -> aligned p.
Proof.
  intros I [[π H]|(κ & f & H)]%elem_of_space.
  - by apply (vi_valid _ _ _ _ (ui_vm _ _ _ _ _ I)) in H as [? _].
  - by apply (ui_page _ _ _ _ _ I) in H as [[? _] _].
Qed.

(** An address space the step does not write to keeps its invariant with the
    free list the step leaves. *)
Lemma uvm_other s l T U F s' l' :
  uvm_inv s l T U F -> kmem_inv s' l' -> mm_mach s' = mm_mach s -> k_end s' = k_end s ->
  (forall p, p ∈ space T U -> p ∉ l') ->
  (forall p a, p ∈ space T U -> in_page p a -> mem s' a = mem s a) ->
  uvm_inv s' l' T U F.
Proof.
  intros I K' M' E' Hd Hm. destruct I as [[K P D V L] Hdisj Hpg Hinj Hf]. split; try done.
  - split; [done| | |by rewrite E'|by rewrite M'].
    + apply (pt_ext (mem s)); [done|]. intros π p i Hπ Hi. apply load64_ext. intros b Hb.
      apply (Hm p); [apply elem_of_space; eauto|]. by eapply slot_in_page.
    + intros π p Hπ. apply Hd, elem_of_space. eauto.
  - intros κ pa f H. destruct (Hpg _ _ _ H) as [? Hno]. rewrite E'. split; [done|].
    rewrite elem_of_own in *. intros [Hx|Hx]; [|naive_solver].
    apply (Hd pa); [|done]. apply elem_of_space. eauto.
Qed.

(** Parent and child around a free list. *)
Record two_spaces (s : mm) (l : list Z) (T1 : tables) (U1 F1 : leaves) (T2 : tables) (U2 F2 : leaves)
    : Prop := {
  ts_1 : uvm_inv s l T1 U1 F1;
  ts_2 : uvm_inv s l T2 U2 F2;
  ts_disj : space T1 U1 ## space T2 U2;
}.

(** A step on the second space leaves the first one alone. *)
Lemma two_spaces_step s l T1 U1 F1 T2 U2 F2 s' l' T2' U2' P :
  two_spaces s l T1 U1 F1 T2 U2 F2 -> uvm_inv s' l' T2' U2' F2 ->
  uown l' T2' U2' = uown l T2 U2 -> vstep P s s' -> P ⊆ uown l T2 U2 ->
  two_spaces s' l' T1 U1 F1 T2' U2' F2 /\
  (forall v, 0 <= v -> umem (mem s') U1 v = umem (mem s) U1 v).
Proof.
  intros [I1 I2 D] I' HO S HP. rewrite !uown_space in HO. rewrite uown_space in HP.
  assert (Hl : forall p, p ∈ space T1 U1 -> p ∉ (list_to_set l ∪ space T2 U2 : gset Z)).
  { intros p Hp. rewrite not_elem_of_union. split; [|set_solver]. rewrite elem_of_list_to_set.
    apply elem_of_space in Hp as [[π H]|(κ & f & H)].
    - by apply (vi_disj _ _ _ _ (ui_vm _ _ _ _ _ I1)) in H.
    - apply (ui_page _ _ _ _ _ I1) in H as [_ H]. rewrite elem_of_own in H. naive_solver. }
  assert (Hm : forall p a, p ∈ space T1 U1 -> in_page p a -> mem s' a = mem s a).
  { intros p a Hp Ha. apply S. intros q Hq. apply (pages_disjoint p q);
      [by apply (space_aligned s l T1 U1 F1)| |by intros ->; apply (Hl q); set_solver|done].
    apply HP, elem_of_union in Hq as [Hq|Hq]; [|by apply (space_aligned s l T2 U2 F2)].
    apply elem_of_list_to_set in Hq.
    pose proof (kmem_inv_aligned _ _ (vi_k _ _ _ _ (ui_vm _ _ _ _ _ I1))) as Hf.
    rewrite Forall_forall in Hf. by apply Hf. }
  assert (Hn : forall p, p ∈ space T1 U1 -> p ∉ (list_to_set l' ∪ space T2' U2' : gset Z)).
  { intros p Hp. rewrite HO. by apply Hl. }
  split.
  - split; [|done|].
    + apply (uvm_other s l); try done; [apply I'|apply S|apply S|].
      intros p Hp. apply Hn in Hp. set_solver.
    + intros p Hp Hp'. apply Hn in Hp. set_solver.
  - intros v Hv. unfold umem. destruct (U1 !! path v) as [[pa f]|] eqn:E; [|done].
    apply (Hm pa); [apply elem_of_space; eauto|by apply in_page_off].
Qed.

(** ** [uvmcopy] *)

Lemma lor_V f : flag f PTE_V = true -> Z.lor f PTE_V = f.
Proof.
  unfold flag. intros H. apply negb_true_iff, Z.eqb_neq in H. apply Z.bits_inj'. intros n Hn.
  rewrite Z.lor_spec. change PTE_V with 1 in *. destruct (decide (n = 0)) as [->|].
  - assert (Z.testbit f 0 = true) as ->; [|done]. rewrite Z.bit0_odd.
    change 1 with (Z.ones 1) in H. rewrite Z.land_ones in H by lia.
    change (2 ^ 1) with 2 in H. rewrite Zmod_odd in H. by destruct (Z.odd f).
  - change 1 with (2 ^ 0). rewrite (Z.pow2_bits_false 0 n) by lia. apply orb_false_r.
Qed.

Lemma memmove_page dst src m :
  same_off dst m (memmove dst src (Z.to_nat PGSIZE) m) /\
  forall a, in_page dst a -> memmove dst src (Z.to_nat PGSIZE) m a = m (src + (a - dst)).
Proof.
  unfold same_off, in_page, PGSIZE.
  split; intros a Ha; rewrite memmove_ok; case_decide; (lia || f_equal; lia || done).
Qed.

(** Reading the entry of a page that is not mapped. *)
Lemma leaf_none s l T U F root va :
  uvm_inv s l T U F -> T !! [] = Some root -> va < MAXVA -> (U ∪ F) !! path va = None ->
  exists pte, walk root va false s = Ok pte s /\ (pte = 0 \/ pte <> 0 /\ load_pte pte s = Ok 0 s).
Proof.
  intros I HT Hv Hn. pose proof (ui_vm _ _ _ _ _ I) as V.
  erewrite walk_lookup by done. destruct (T !! down 2 va) as [q|] eqn:Eq.
  - pose proof (PX_slot 0 va ltac:(lia)) as Hi. assert (pte_at q (PX 0 va) <> 0) by (by eapply pte_at_ne).
    eexists. split; [done|]. right. split; [done|]. rewrite load_pte_ok by done.
    rewrite (pi_leaf _ _ _ (vi_pt _ _ _ _ V) (down 2 va)) by done. unfold leaf_entry.
    by rewrite <- path_down, Hn.
  - eexists. split; [done|]. by left.
Qed.

Section CopySpace.
Context (s0 : mm) (l0 : list Z) (T1 : tables) (U1 F1 : leaves) (T20 : tables) (U20 F2 : leaves).
Context (old new : Z) (I0 : two_spaces s0 l0 T1 U1 F1 T20 U20 F2).
Context (Hold : T1 !! [] = Some old) (Hnew : T20 !! [] = Some new).

(** The child's table after the first [k] pages. *)
Record copying (s : mm) (l : list Z) (T2 : tables) (U2 : leaves) (k : nat) : Prop := {
  cp_two : two_spaces s l T1 U1 F1 T2 U2 F2;
  cp_T : T20 ⊆ T2;
  cp_own : uown l T2 U2 = uown l0 T20 U20;
  cp_step : vstep (uown l0 T20 U20) s0 s;
  cp_par : forall v, 0 <= v -> umem (mem s) U1 v = umem (mem s0) U1 v;
  cp_old : forall κ, κ ∉ range_paths 0 k -> U2 !! κ = U20 !! κ;
  cp_new : forall v, 0 <= v < Z.of_nat k * PGSIZE ->
    snd <$> U2 !! path v = snd <$> U1 !! path v /\ umem (mem s) U2 v = umem (mem s0) U1 v;
}.

Lemma range_page k v :
  Z.of_nat (S k) * PGSIZE <= MAXVA -> 0 <= v < Z.of_nat (S k) * PGSIZE ->
  ~ (v < Z.of_nat k * PGSIZE) -> page_of v = Z.of_nat k * PGSIZE.
Proof. intros. unfold page_of, PGSIZE in *. clear -H0 H1. f_equal. divlia. Qed.

(** A page the parent does not have. *)
Lemma copying_skip s l T2 U2 k :
  copying s l T2 U2 k -> Z.of_nat (S k) * PGSIZE <= MAXVA ->
  (forall κ, κ ∈ range_paths 0 (S k) -> U20 !! κ = None) ->
  U1 !! path (Z.of_nat k * PGSIZE) = None -> copying s l T2 U2 (S k).
Proof.
  intros [] Hmax HN HU1. split; try done.
  - intros κ. rewrite range_paths_snoc, not_elem_of_app. intros [H _]. auto.
  - intros v Hv. destruct (decide (v < Z.of_nat k * PGSIZE)); [apply cp_new0; lia|].
    pose proof (range_page k v Hmax Hv n) as Epg.
    assert (E2 : U2 !! path v = None).
    { rewrite <- (path_page v), Epg. rewrite cp_old0.
      - apply HN. rewrite range_paths_snoc. apply elem_of_app. right. apply list_elem_of_here.
      - apply (range_paths_fresh 0 k); [lia|done|lia]. }
    assert (E1 : U1 !! path v = None) by (by rewrite <- (path_page v), Epg).
    unfold umem. by rewrite E1, E2.
Qed.

(** Keeping the child's table while pages come and go. *)
Lemma copying_keep s s' l T2 U2 k l' T2' :
  copying s l T2 U2 k -> uvm_inv s' l' T2' U2 F2 -> T2 ⊆ T2' ->
  uown l' T2' U2 = uown l T2 U2 -> vstep (own l T2) s s' -> copying s' l' T2' U2 k.
Proof.
  intros [] I' HT HO S.
  destruct (two_spaces_step s l T1 U1 F1 T2 U2 F2 s' l' T2' U2 (own l T2)) as [W M]; try done;
    [unfold uown; set_solver|]. split; try done.
  - by etrans.
  - by rewrite HO.
  - eapply vstep_trans; [done|]. eapply vstep_mono; [|exact S]. rewrite <- cp_own0. unfold uown. set_solver.
  - intros v Hv. by rewrite M, cp_par0.
  - intros v Hv. destruct (cp_new0 v Hv) as [? E]. split; [done|]. rewrite <- E.
    eapply umem_frame; [apply cp_two0|done|lia].
Qed.

(** A page the parent has, copied to [q]. *)
Lemma copying_page s q l T2 U2 k pa f :
  copying s (q :: l) T2 U2 k -> Z.of_nat (S k) * PGSIZE <= MAXVA ->
  (forall κ, κ ∈ range_paths 0 (S k) -> (U20 ∪ F2) !! κ = None) ->
  U1 !! path (Z.of_nat k * PGSIZE) = Some (pa, f) -> pte_ok pa f ->
  exists s1, kalloc s = Ok q s1 /\ q <> 0 /\ exists r s3 l3 T3,
    mappages new (Z.of_nat k * PGSIZE) PGSIZE q f
      (s1 <| mem := memmove q pa (Z.to_nat PGSIZE) (mem s1) |>) = Ok r s3 /\
    ((r = 0 /\ copying s3 l3 T3 (<[path (Z.of_nat k * PGSIZE) := (q, f)]> U2) (S k)) \/
     (r = -1 /\ exists s4, kfree q s3 = Ok tt s4 /\ copying s4 [q] T3 U2 k)).
Proof.
  intros G Hmax HN HU1 Hok. set (a := Z.of_nat k * PGSIZE) in *.
  assert (Hfresh : path a ∉ range_paths 0 k) by (apply (range_paths_fresh 0 k); [lia|done|lia]).
  assert (Hnone : (U2 ∪ F2) !! path a = None).
  { assert (Hin : path a ∈ range_paths 0 (S k)).
    { rewrite range_paths_snoc. apply elem_of_app. right. apply list_elem_of_here. }
    apply HN, lookup_union_None in Hin as [H1 H2]. apply lookup_union_None. split; [|done].
    by rewrite (cp_old _ _ _ _ _ G). }
  pose proof (ts_2 _ _ _ _ _ _ _ _ (cp_two _ _ _ _ _ G)) as I2.
  pose proof (ts_1 _ _ _ _ _ _ _ _ (cp_two _ _ _ _ _ G)) as I1.
  destruct (uvm_alloc s q l T2 U2 F2 new a f I2) as (s1 & E1 & Hq & S1 & R);
    [eapply lookup_weaken; [done|apply G]|unfold a; pglia|by apply (aligned_add 0)|unfold a; pglia|done
    |apply Hok|].
  exists s1. split_and!; [done|done|]. destruct (memmove_page q pa (mem s1)) as [O2 C2].
  destruct (R _ O2) as (r & s3 & l3 & T3 & E3 & Sub & R3). exists r, s3, l3, T3. split; [done|].
  rewrite lor_V in R3 by apply Hok.
  destruct R3 as [(-> & I3 & O3 & S3 & C3)|(-> & s4 & E4 & I4 & O4 & S4)]; [left|right].
  2: { split; [done|]. exists s4. split; [done|].
       apply (copying_keep s s4 (q :: l) T2 U2 k [q] T3); try done. unfold uown. by rewrite O4. }
  split; [done|]. apply lookup_union_None in Hnone as [Hn2 _].
  assert (HO : uown l3 T3 (<[path a := (q, f)]> U2) = uown (q :: l) T2 U2).
  { rewrite insert_frames by done. unfold uown. rewrite <- O3. set_solver. }
  destruct (two_spaces_step s (q :: l) T1 U1 F1 T2 U2 F2 s3 l3 T3 _ (own (q :: l) T2)
    (cp_two _ _ _ _ _ G) I3 HO S3) as [W M]; [unfold uown; set_solver|].
  destruct (ui_page _ _ _ _ _ I1 _ _ _ HU1) as [Hvp Hno].
  assert (Hqpa : forall b, in_page pa b -> mem s1 b = mem s b).
  { intros b Hb. apply S1. intros p ->%elem_of_singleton. apply (pages_disjoint pa q); [apply Hvp| | |done].
    - pose proof (kmem_inv_aligned _ _ (vi_k _ _ _ _ (ui_vm _ _ _ _ _ I1))) as Hf.
      by apply Forall_cons_1 in Hf as [? _].
    - intros ->. apply Hno, elem_of_own. left. apply list_elem_of_here. }
  destruct G. split; try done.
  - by etrans.
  - by rewrite HO.
  - eapply vstep_trans; [done|]. eapply vstep_mono; [|exact S3]. rewrite <- cp_own0. unfold uown. set_solver.
  - intros v Hv. by rewrite M, cp_par0.
  - intros κ. rewrite range_paths_snoc, not_elem_of_app, list_elem_of_singleton. intros [H1 H2].
    rewrite Z.add_0_l in H2. rewrite lookup_insert_ne by (intros <-; by apply H2). auto.
  - intros v Hv. destruct (decide (v < Z.of_nat k * PGSIZE)) as [Hlt|Hge].
    + destruct (cp_new0 v ltac:(lia)) as [Hs E]. assert (Hne : path a <> path v).
      { intros Ep. apply Hfresh. rewrite Ep, <- path_page. apply elem_of_range_paths.
        exists (Z.to_nat (v / PGSIZE)). unfold page_of. unfold PGSIZE in *. clear -Hlt Hv.
        split; [|f_equal; divlia]. divlia. }
      unfold umem at 1. rewrite lookup_insert_ne by done. split; [done|]. rewrite <- E.
      rewrite <- (umem_frame s s3 (q :: l) T2 U2 F2 v) by (done || lia). done.
    + pose proof (range_page k v Hmax Hv Hge) as Epg.
      assert (Ep : path v = path a) by (by rewrite <- (path_page v), Epg).
      rewrite Ep, lookup_insert_eq, HU1. split; [done|].
      rewrite <- (cp_par0 v) by lia. unfold umem. rewrite Ep, lookup_insert_eq, HU1.
      rewrite C3, C2, Z.add_simpl_l by (apply in_page_off; lia). apply Hqpa, in_page_off. lia.
Qed.

Lemma uvmcopy_loop_ok n fuel s l T2 U2 k sz :
  (n < fuel)%nat -> copying s l T2 U2 k -> Z.of_nat (k + n) * PGSIZE <= MAXVA ->
  (forall κ, κ ∈ range_paths 0 (k + n) -> (U20 ∪ F2) !! κ = None /\ F1 !! κ = None) ->
  (Z.of_nat (k + n) - 1) * PGSIZE < sz \/ n = 0%nat -> sz <= Z.of_nat (k + n) * PGSIZE ->
  exists r s' l' T2' U2' j,
    uvmcopy_loop fuel old new (Z.of_nat k * PGSIZE) sz s = Ok r s' /\ copying s' l' T2' U2' j /\
    ((r = None /\ j = (k + n)%nat) \/ (r = Some (Z.of_nat j * PGSIZE) /\ (j < k + n)%nat)).
Proof.
  revert fuel s l T2 U2 k. induction n as [|n IH];
    intros [|fuel] s l T2 U2 k Hf G Hmax HN H1 H2; try lia; cbn [uvmcopy_loop].
  { rewrite Nat.add_0_r in *. rewrite (proj2 (Z.ltb_ge _ _)) by lia.
    exists None, s, l, T2, U2, k. auto. }
  rewrite (proj2 (Z.ltb_lt _ _)) by pglia.
  pose proof (ts_1 _ _ _ _ _ _ _ _ (cp_two _ _ _ _ _ G)) as I1.
  assert (Hin : path (Z.of_nat k * PGSIZE) ∈ range_paths 0 (k + S n)).
  { apply elem_of_range_paths. exists k. split; [lia|done]. }
  assert (HNk : forall κ, κ ∈ range_paths 0 (S k) -> (U20 ∪ F2) !! κ = None).
  { intros κ (i & Hi & ->)%elem_of_range_paths. apply HN, elem_of_range_paths. exists i. split; [lia|done]. }
  destruct (HN _ Hin) as [_ HF1].
  replace (k + S n)%nat with (S k + n)%nat in * by lia.
  assert (Hnext : u64 (Z.of_nat k * PGSIZE + PGSIZE) = Z.of_nat (S k) * PGSIZE)
    by (rewrite u64_small; pglia). rewrite Hnext.
  assert (H1' : (Z.of_nat (S k + n) - 1) * PGSIZE < sz \/ n = 0%nat) by (destruct H1; [by left|lia]).
  destruct (U1 !! path (Z.of_nat k * PGSIZE)) as [[pa f]|] eqn:EU.
  - destruct (leaf_read s l T1 U1 F1 old (Z.of_nat k * PGSIZE) pa f) as (pte & E1 & Hpte & E2 & Hok);
      [done|done|pglia|done|].
    erewrite bind_ok by exact E1. rewrite (proj2 (Z.eqb_neq _ _)) by done.
    erewrite bind_ok by exact E2. rewrite mkpte_flag, (po_v _ _ Hok), mkpte_pa, mkpte_flags by done.
    cbn [negb]. destruct l as [|q l].
    { erewrite bind_ok by (eapply uvm_kalloc_none; exact I1). rewrite Z.eqb_refl.
      eexists _, s, [], T2, U2, k. split_and!; [done|done|]. right. split; [done|lia]. }
    destruct (copying_page s q l T2 U2 k pa f G) as (s1 & E3 & Hq & r & s3 & l3 & T3 & E4 & R);
      [pglia|done|done|done|].
    erewrite bind_ok by exact E3. rewrite (proj2 (Z.eqb_neq _ _)) by done.
    erewrite bind_ok by done. erewrite bind_ok by exact E4.
    destruct R as [[-> G3]|(-> & s4 & E5 & G4)].
    + eapply (IH fuel s3 l3 T3); [lia|exact G3|done|done|done|done].
    + cbn [negb Z.eqb]. erewrite bind_ok by exact E5. eexists _, s4, [q], T3, U2, k.
      split_and!; [done|done|]. right. split; [done|lia].
  - destruct (leaf_none s l T1 U1 F1 old (Z.of_nat k * PGSIZE)) as (pte & E1 & R);
      [done|done|pglia|by apply lookup_union_None|].
    assert (G' : copying s l T2 U2 (S k)).
    { apply copying_skip; try done; [pglia|]. intros κ Hκ. by eapply proj1, lookup_union_None, HNk. }
    erewrite bind_ok by exact E1. destruct R as [->|[Hp E2]].
    + rewrite Z.eqb_refl. eapply (IH fuel s l T2); [lia|exact G'|done|done|done|done].
    + rewrite (proj2 (Z.eqb_neq _ _)) by done. erewrite bind_ok by exact E2. cbn [flag negb Z.land Z.eqb].
      eapply (IH fuel s l T2); [lia|exact G'|done|done|done|done].
Qed.

Lemma uvmcopy_ok n sz :
  Z.of_nat n * PGSIZE <= MAXVA -> (forall κ, κ ∈ range_paths 0 n -> (U20 ∪ F2) !! κ = None /\ F1 !! κ = None) ->
  (Z.of_nat n - 1) * PGSIZE < sz -> 0 <= sz <= Z.of_nat n * PGSIZE ->
  exists r s' l' T2' U2', uvmcopy old new sz s0 = Ok r s' /\
    two_spaces s' l' T1 U1 F1 T2' U2' F2 /\ uown l' T2' U2' = uown l0 T20 U20 /\ T20 ⊆ T2' /\
    vstep (uown l0 T20 U20) s0 s' /\
    (forall v, 0 <= v -> umem (mem s') U1 v = umem (mem s0) U1 v) /\
    ((r = 0 /\ forall v, 0 <= v < Z.of_nat n * PGSIZE ->
        snd <$> U2' !! path v = snd <$> U1 !! path v /\ umem (mem s') U2' v = umem (mem s0) U1 v) \/
     (r = -1 /\ U2' = U20)).
Proof.
  intros Hmax HN H1 H2. unfold uvmcopy.
  destruct (uvmcopy_loop_ok n (S (Z.to_nat (sz / PGSIZE + 1))) s0 l0 T20 U20 0 sz)
    as (r & s1 & l1 & T2 & U2 & j & E & G & R); [|split; try done|done|done|by left|lia|].
  { assert (Z.of_nat n <= sz / PGSIZE + 1); [|lia]. unfold PGSIZE in *. clear -H1. divlia. }
  { intros v Hv. lia. }
  change (Z.of_nat 0 * PGSIZE) with 0 in E. erewrite bind_ok by exact E.
  destruct R as [[-> ->]|[-> Hj]].
  - exists 0, s1, l1, T2, U2. destruct G. split_and!; try done. left. auto.
  - rewrite Z.div_mul by done.
    destruct (uvmunmap_ok j s1 l1 T2 U2 F2 new 0) as (s' & l' & E' & I' & O' & S' & L');
      [apply G|eapply lookup_weaken; [done|apply G]|done|done|pglia| |].
    { intros κ (i & Hi & ->)%elem_of_range_paths. eapply (lookup_union_None U20 F2), HN, elem_of_range_paths.
      exists i. split; [lia|done]. }
    erewrite bind_ok by exact E'.
    assert (HU : unmap_range j 0 U2 = U20).
    { apply map_eq. intros κ. rewrite lookup_unmap_range. case_decide as Hκ; [|by apply (cp_old _ _ _ _ _ G)].
      symmetry. apply elem_of_range_paths in Hκ as (i & Hi & ->).
      eapply (lookup_union_None U20 F2), HN, elem_of_range_paths. exists i. split; [lia|done]. }
    rewrite HU in I', O'.
    assert (HP : own l' T2 ⊆ uown l1 T2 U2) by (rewrite <- O'; unfold uown; set_solver).
    destruct (two_spaces_step s1 l1 T1 U1 F1 T2 U2 F2 s' l' T2 U20 (own l' T2)) as [W M]; try done; [apply G|].
    destruct G. exists (-1), s', l', T2, U20. split_and!; try done; [by rewrite O'| | |by right].
    + eapply vstep_trans; [done|]. eapply vstep_mono; [|exact S']. by rewrite <- cp_own0.
    + intros v Hv. by rewrite M, cp_par0.
Qed.
End CopySpace.

(** ** [freewalk] *)

(** The tables not below [π]. *)
Definition prune (π : list Z) (T : tables) : tables :=
  filter (fun kv => ~ π `prefix_of` kv.1) T.

Lemma lookup_prune π T κ q : prune π T !! κ = Some q <-> T !! κ = Some q /\ ~ π `prefix_of` κ.
Proof. unfold prune. by rewrite map_lookup_filter_Some. Qed.

Lemma prefix_snoc (ρ κ : list Z) j :
  ρ `prefix_of` κ ++ [j] -> ρ = κ ++ [j] \/ ρ `prefix_of` κ.
Proof.
  intros [k E]. destruct k as [|x k _] using rev_ind.
  - left. by rewrite app_nil_r in E.
  - rewrite app_assoc in E. apply app_inj_tail in E as [-> _]. right. by exists k.
Qed.

Lemma prune_none m T A π : pt_inv m T A -> T !! π = None -> prune π T = T.
Proof.
  intros I Hn. apply map_eq. intros κ. apply option_eq. intros q. rewrite lookup_prune.
  split; [by intros []|]. intros H. split; [done|]. intros [k ->].
  apply (pt_prefix _ _ _ _ _ _ I) in H as [x Hx]. congruence.
Qed.

(** The tables below [π], and [π] itself, have been freed; the entry that
    led there is still in place. *)
Record pruned (π : list Z) (s : mm) (l : list Z) (T : tables) (s' : mm) (l' : list Z) : Prop := {
  pr_k : kmem_inv s' l';
  pr_own : own l' (prune π T) = own l T;
  pr_disj : forall κ q, prune π T !! κ = Some q -> q ∉ l';
  pr_load : forall κ q i, prune π T !! κ = Some q -> slot i ->
    load64 (mem s') (pte_at q i) = load64 (mem s) (pte_at q i);
  pr_step : vstep (own l T) s s';
}.

Lemma pruned_clear s l T π p i s' l' :
  vm_inv s l T ∅ -> T !! π = Some p -> slot i -> (length π < 2)%nat ->
  pruned (π ++ [i]) s l T s' l' ->
  exists s'', store_pte (pte_at p i) 0 s' = Ok tt s'' /\
    vm_inv s'' l' (prune (π ++ [i]) T) ∅ /\ vstep (own l T) s s'' /\
    forall κ q j, prune π T !! κ = Some q -> slot j ->
      load64 (mem s'') (pte_at q j) = load64 (mem s) (pte_at q j).
Proof.
  intros I Hπ Hi Hl [K O D Ld S]. destruct I as [K0 P0 D0 V0 L0].
  assert (Hπ' : prune (π ++ [i]) T !! π = Some p).
  { apply lookup_prune. split; [done|]. intros [k E]. apply (f_equal length) in E.
    rewrite !length_app in E. simpl in E. lia. }
  destruct (pi_page _ _ _ P0 _ _ Hπ) as (Hr & Ha & _).
  rewrite store_pte_ok by (unfold slot, pte_at in *; lia). eexists. split; [done|]. split_and!.
  - split; simpl.
    + apply (kmem_inv_off s' l' p); [done|by apply store_slot_off|done|by eapply D].
    + split.
      * intros κ q [H _]%lookup_prune. by apply (pi_page _ _ _ P0) in H.
      * intros κ κ' q [H _]%lookup_prune [H' _]%lookup_prune. by eapply (pi_inj _ _ _ P0).
      * intros κ j q [H Hnp]%lookup_prune. apply (pi_parent _ _ _ P0) in H as [[x Hx] ?]. split; [|done].
        exists x. apply lookup_prune. split; [done|]. contradict Hnp. by apply prefix_app_r.
      * intros κ q j H Hl' Hj. pose proof H as [HT Hnp]%lookup_prune.
        destruct (decide ((π, i) = (κ, j))) as [[= <- <-]|Hne].
        -- rewrite Hπ' in H. injection H as <-. rewrite load_store_slot by done.
           unfold inner_entry. destruct (prune _ T !! (π ++ [i])) eqn:E; [|done].
           apply lookup_prune in E as [_ Hnp2]. destruct Hnp2. done.
        -- destruct (pi_page _ _ _ P0 _ _ HT) as (_ & Hqa & _).
           rewrite load_store_other; try done.
           2: { intros [= -> ->]. apply Hne. f_equal. by eapply (pi_inj _ _ _ P0). }
           rewrite (Ld κ) by done. rewrite (pi_inner _ _ _ P0 κ) by done.
           unfold inner_entry. replace (prune (π ++ [i]) T !! (κ ++ [j])) with (T !! (κ ++ [j])); [done|].
           apply option_eq. intros x. rewrite lookup_prune. split; [|by intros []].
           intros Hx. split; [done|]. intros [E|Hp]%prefix_snoc; [|done].
           apply app_one_inj in E. naive_solver.
      * intros κ q j H Hl' Hj. pose proof H as [HT _]%lookup_prune.
        destruct (pi_page _ _ _ P0 _ _ HT) as (_ & Hqa & _).
        rewrite load_store_other; try done.
        2: { intros [= -> ->]. assert (π = κ) as -> by (by eapply (pi_inj _ _ _ P0)). lia. }
        rewrite (Ld κ) by done. by rewrite (pi_leaf _ _ _ P0 κ).
      * intros κ pa f H. by rewrite lookup_empty in H.
    + done.
    + rewrite (vs_end _ _ _ S). intros κ q [H _]%lookup_prune. by eapply V0.
    + by rewrite (vs_mach _ _ _ S).
  - eapply vstep_trans; [exact S|]. apply (vstep_page _ _ _ p); [by eapply own_table|done..|].
    by apply store_slot_off.
  - intros κ q j [H Hnp]%lookup_prune Hj. simpl. destruct (pi_page _ _ _ P0 _ _ H) as (_ & Hqa & _).
    assert (Hκ : prune (π ++ [i]) T !! κ = Some q).
    { apply lookup_prune. split; [done|]. contradict Hnp. by eapply prefix_app_l. }
    rewrite load_store_other; [by apply (Ld κ)|done..|].
    intros [= -> ->]. apply Hnp. assert (κ = π) as -> by (by eapply (pi_inj _ _ _ P0)). done.
Qed.

Lemma prune_prune π i T : prune π (prune (π ++ [i]) T) = prune π T.
Proof.
  apply map_eq. intros κ. apply option_eq. intros q. rewrite !lookup_prune.
  split; [naive_solver|]. intros [H Hnp]. split_and!; try done. contradict Hnp. by eapply prefix_app_l.
Qed.

(** Freeing a table without children. *)
Lemma pruned_kfree s l T π p :
  vm_inv s l T ∅ -> T !! π = Some p -> (forall i, T !! (π ++ [i]) = None) ->
  exists s', kfree p s = Ok tt s' /\ pruned π s l T s' (p :: l).
Proof.
  intros I Hπ Hc. destruct I as [K P D V L].
  destruct (kfree_ok s p l) as (s' & E & K' & M' & N' & O'); [done|by eapply V|by eapply D|done|].
  assert (Hd : forall κ q, prune π T !! κ = Some q <-> T !! κ = Some q /\ κ <> π).
  { intros κ q. rewrite lookup_prune. split; intros [H Hn]; (split; [done|]).
    - by intros ->.
    - intros [k ->]. apply Hn. destruct k as [|i k]; [by rewrite app_nil_r|].
      rewrite cons_middle, app_assoc in H. apply (pt_prefix _ _ _ _ _ _ P) in H as [? H]. by rewrite Hc in H. }
  assert (Hne : forall κ q, prune π T !! κ = Some q -> q <> p).
  { intros κ q [H Hn]%Hd ->. by apply Hn; eapply (pi_inj _ _ _ P). }
  exists s'. split; [done|]. split; [done| | | |].
  - unfold own. apply set_eq. intros x. rewrite !elem_of_union, !elem_of_list_to_set, !elem_of_map_img, elem_of_cons.
    setoid_rewrite Hd. split; [naive_solver|]. intros [?|[κ H]]; [naive_solver|].
    destruct (decide (κ = π)) as [->|]; [|naive_solver]. left. left. congruence.
  - intros κ q H. apply not_elem_of_cons. split; [by eapply Hne|]. apply Hd in H as [H _]. by eapply D.
  - intros κ q i H Hi. apply (load_off q p); [done|..|by eapply Hne|done].
    + apply Hd in H as [H _]. by eapply (pi_page _ _ _ P).
    + by eapply (pi_page _ _ _ P).
  - apply (vstep_page _ _ _ p); [by eapply own_table|done..].
Qed.

Section Freewalk.
Context (depth : nat) (π : list Z) (p : Z).
Hypothesis Hdepth : (length π + S depth = 3)%nat.
Hypothesis rec : forall i q s l T, vm_inv s l T ∅ -> T !! (π ++ [i]) = Some q ->
  exists s' l', freewalk_from depth q s = Ok tt s' /\ pruned (π ++ [i]) s l T s' l'.

(** What has become of the other tables. *)
Definition kept_tables (T : tables) (s s' : mm) : Prop :=
  forall κ q j, prune π T !! κ = Some q -> slot j ->
    load64 (mem s') (pte_at q j) = load64 (mem s) (pte_at q j).

Lemma freewalk_entry_ok (k : nat) s l T :
  vm_inv s l T ∅ -> T !! π = Some p -> (k < 512)%nat ->
  exists s' l', freewalk_entry (freewalk_from depth) p k s = Ok tt s' /\
    vm_inv s' l' (prune (π ++ [Z.of_nat k]) T) ∅ /\ own l' (prune (π ++ [Z.of_nat k]) T) = own l T /\
    vstep (own l T) s s' /\ kept_tables T s s'.
Proof.
  intros I Hπ Hk. assert (Hi : slot (Z.of_nat k)) by (unfold slot; lia). unfold freewalk_entry.
  erewrite bind_ok by (apply load_pte_ok; by eapply pte_at_ne).
  pose proof (vi_pt _ _ _ _ I) as P. destruct (T !! (π ++ [Z.of_nat k])) as [q|] eqn:E.
  - assert (Hl : (length π < 2)%nat).
    { apply (pi_page _ _ _ P) in E as (_ & _ & E). rewrite length_app in E. simpl in E. lia. }
    rewrite (pi_inner _ _ _ P π) by done. unfold inner_entry. rewrite E.
    destruct (pi_page _ _ _ P _ _ E) as (Hq & Ha & _).
    assert (Hok : pte_ok q PTE_V) by (apply inner_ok; [lia|done]).
    rewrite !mkpte_flag, mkpte_pa by done.
    change (flag PTE_V PTE_V && negb (flag PTE_V (Z.lor (Z.lor PTE_R PTE_W) PTE_X))) with true. cbv iota.
    destruct (rec (Z.of_nat k) q s l T I E) as (s1 & l1 & E1 & Pr). erewrite bind_ok by exact E1.
    destruct (pruned_clear s l T π p (Z.of_nat k) s1 l1) as (s2 & E2 & I2 & S2 & L2); try done.
    exists s2, l1. split_and!; try done. apply Pr.
  - assert (Ez : load64 (mem s) (pte_at p (Z.of_nat k)) = 0).
    { destruct (decide (length π < 2)%nat).
      - rewrite (pi_inner _ _ _ P π) by done. unfold inner_entry. by rewrite E.
      - rewrite (pi_leaf _ _ _ P π) by (done || lia). unfold leaf_entry. by rewrite lookup_empty. }
    rewrite Ez. exists s, l. rewrite (prune_none _ _ _ _ P E). by split_and!.
Qed.

(** The loop over the entries of one table, from entry [k] on. *)
Lemma freewalk_loop (m k : nat) s l T :
  (k + m = 512)%nat -> vm_inv s l T ∅ -> T !! π = Some p ->
  (forall j, 0 <= j < Z.of_nat k -> T !! (π ++ [j]) = None) ->
  exists s' l' T',
    mapM_ (freewalk_entry (freewalk_from depth) p) (seq k m) s = Ok tt s' /\
    vm_inv s' l' T' ∅ /\ T' !! π = Some p /\ (forall j, T' !! (π ++ [j]) = None) /\
    own l' T' = own l T /\ prune π T' = prune π T /\ vstep (own l T) s s' /\ kept_tables T s s'.
Proof.
  revert k s l T. induction m as [|m IH]; intros k s l T Hk I Hπ Hn; cbn [seq mapM_].
  { exists s, l, T. split_and!; try done. intros j. destruct (T !! (π ++ [j])) as [q|] eqn:E; [|done].
    destruct (pi_parent _ _ _ (vi_pt _ _ _ _ I) _ _ _ E) as [_ Hj]. unfold slot in Hj.
    rewrite Hn in E by lia. done. }
  destruct (freewalk_entry_ok k s l T I Hπ) as (s1 & l1 & E1 & I1 & O1 & S1 & L1); [lia|].
  erewrite bind_ok by exact E1.
  destruct (IH (S k) s1 l1 (prune (π ++ [Z.of_nat k]) T))
    as (s' & l' & T' & E' & I' & Hπ' & Hn' & O' & P' & S' & L'); [lia|done| | |].
  - apply lookup_prune. split; [done|]. intros [x E]. apply (f_equal length) in E.
    rewrite !length_app in E. simpl in E. lia.
  - intros j Hj. destruct (prune _ T !! _) eqn:E; [|done]. apply lookup_prune in E as [E Hnp].
    destruct (decide (j = Z.of_nat k)) as [->|]; [by destruct Hnp|]. rewrite Hn in E by lia. done.
  - exists s', l', T'. split_and!; try done.
    + by rewrite O'.
    + by rewrite P', prune_prune.
    + rewrite O1 in S'. by eapply vstep_trans.
    + intros κ q j H Hj. rewrite (L' κ) by (rewrite ?prune_prune; done). by apply (L1 κ).
Qed.

Lemma freewalk_table s l T :
  vm_inv s l T ∅ -> T !! π = Some p ->
  exists s' l', freewalk_from (S depth) p s = Ok tt s' /\ pruned π s l T s' l'.
Proof.
  intros I Hπ. cbn [freewalk_from].
  destruct (freewalk_loop 512 0 s l T) as (s1 & l1 & T1 & E1 & I1 & Hπ1 & Hn1 & O1 & P1 & S1 & L1);
    [done|done|done|intros; lia|].
  erewrite bind_ok by exact E1.
  destruct (pruned_kfree s1 l1 T1 π p I1 Hπ1 Hn1) as (s' & E' & [K' O' D' Ld' S']).
  exists s', (p :: l1). split; [done|]. rewrite P1, ?O1 in *. split; try done.
  - intros κ q i H Hi. rewrite (Ld' κ) by done. by apply (L1 κ).
  - by eapply vstep_trans.
Qed.
End Freewalk.

Lemma freewalk_from_ok depth π p s l T :
  (length π + depth = 3)%nat -> vm_inv s l T ∅ -> T !! π = Some p ->
  exists s' l', freewalk_from depth p s = Ok tt s' /\ pruned π s l T s' l'.
Proof.
  revert π p s l T. induction depth as [|depth IH]; intros π p s l T Hd I Hπ.
  { apply (pi_page _ _ _ (vi_pt _ _ _ _ I)) in Hπ as (_ & _ & ?). lia. }
  apply freewalk_table; try done. intros i q s1 l1 T1 I1 H1. apply IH; [|done|done].
  rewrite length_app. simpl. lia.
Qed.

Lemma freewalk_ok s l T root :
  vm_inv s l T ∅ -> T !! [] = Some root ->
  exists s' l', freewalk root s = Ok tt s' /\ kmem_inv s' l' /\ list_to_set l' = own l T /\
    vstep (own l T) s s'.
Proof.
  intros I HT. destruct (freewalk_from_ok 3 [] root s l T) as (s' & l' & E & [K O D Ld S]); try done.
  exists s', l'. split_and!; try done. rewrite <- O. unfold own.
  assert (prune [] T = ∅) as ->; [|rewrite map_img_empty_L, union_empty_r_L; reflexivity].
  apply map_empty. intros κ. destruct (prune [] T !! κ) eqn:Ep; [|done].
  apply lookup_prune in Ep as [_ Hn]. destruct Hn. apply prefix_nil.
Qed.

(** A second, empty address space. *)
Lemma uvmcreate_second s q l T U F :
  uvm_inv s (q :: l) T U F ->
  exists s', uvmcreate s = Ok q s' /\ two_spaces s' l T U F {[ [] := q ]} ∅ ∅.
Proof.
  intros I. pose proof (ui_vm _ _ _ _ _ I) as V.
  destruct (uvmcreate_ok s q l) as (s' & E & I' & S); [apply V|apply V|].
  assert (Hsp : forall p, p ∈ space T U -> p ∉ q :: l).
  { intros p [[π H]|(κ & f & H)]%elem_of_space; [by eapply (vi_disj _ _ _ _ V)|].
    apply (ui_page _ _ _ _ _ I) in H as [_ H]. rewrite elem_of_own in H. naive_solver. }
  exists s'. split; [done|]. split; [|done|].
  - apply (uvm_other s (q :: l)); try done; [apply I'|apply S|apply S| |].
    + intros p Hp. apply Hsp in Hp. set_solver.
    + intros p a Hp Ha. apply S. intros x ->%elem_of_singleton.
      apply (pages_disjoint p q); [by apply (space_aligned s (q :: l) T U F)| | |done].
      * pose proof (kmem_inv_aligned _ _ (vi_k _ _ _ _ V)) as Hf. by apply Forall_cons_1 in Hf as [? _].
      * intros ->. apply Hsp in Hp. set_solver.
  - intros p Hp [[π H]|(κ & f & H)]%elem_of_space.
    + apply lookup_singleton_Some in H as [_ <-]. apply Hsp in Hp. set_solver.
    + by rewrite lookup_empty in H.
Qed.

(** The pages below an address. *)
Definition pages_below (sz : Z) : nat := Z.to_nat (PGROUNDUP sz / PGSIZE).

Lemma pages_below_spec sz : 0 <= sz <= MAXVA ->
  PGROUNDUP sz = Z.of_nat (pages_below sz) * PGSIZE /\
  (Z.of_nat (pages_below sz) - 1) * PGSIZE < sz <= Z.of_nat (pages_below sz) * PGSIZE /\ 0 < sz \/
  sz = 0 /\ pages_below sz = 0%nat.
Proof.
  intros H. destruct (decide (sz = 0)) as [->|]; [by right|left].
  destruct (pgroundup sz H) as (Ha & Hb & Hc). unfold aligned in Ha.
  assert (E : PGROUNDUP sz = Z.of_nat (pages_below sz) * PGSIZE).
  { unfold pages_below, PGSIZE in *. rewrite Z2Nat.id; clear -Ha Hb H; divlia. }
  split; [done|]. split; [|lia]. rewrite E in *. unfold PGSIZE in *. lia.
Qed.


Lemma uown_empty l T : uown l T ∅ = own l T.
Proof. unfold uown, frames. by rewrite fmap_empty, map_img_empty_L, union_empty_r_L. Qed.

Lemma uvmfree_ok s l T U root sz :
  uvm_inv s l T U ∅ -> T !! [] = Some root -> 0 <= sz <= MAXVA ->
  (forall κ x, U !! κ = Some x -> κ ∈ range_paths 0 (pages_below sz)) ->
  exists s' l', uvmfree root sz s = Ok tt s' /\ kmem_inv s' l' /\ NoDup l' /\
    list_to_set l' = uown l T U /\ vstep (uown l T U) s s'.
Proof.
  intros I HT Hsz Hall. unfold uvmfree.
  assert (Hun : exists s1 l1, when (0 <? sz) (uvmunmap root 0 (PGROUNDUP sz / PGSIZE) true) s = Ok tt s1 /\
    uvm_inv s1 l1 T ∅ ∅ /\ uown l1 T ∅ = uown l T U /\ vstep (uown l T U) s s1).
  { destruct (pages_below_spec sz Hsz) as [(E & Hb)|[-> Hn]].
    - destruct (pgroundup sz Hsz) as (_ & _ & Hc).
      rewrite (proj2 (Z.ltb_lt _ _)) by lia.
      rewrite E, Z.div_mul by done. cbn [when].
      destruct (uvmunmap_ok (pages_below sz) s l T U ∅ root 0) as (s1 & l1 & E1 & I1 & O1 & S1 & _);
        [done|done|done|done|lia|intros; apply lookup_empty|].
      assert (EU : unmap_range (pages_below sz) 0 U = ∅).
      { apply map_empty. intros κ. rewrite lookup_unmap_range. case_decide as Hκ; [done|].
        destruct (U !! κ) eqn:EU; [|done]. by destruct Hκ; eapply Hall. }
      rewrite EU in I1, O1. exists s1, l1. split_and!; try done. by rewrite <- O1, uown_empty.
    - rewrite Hn in Hall. assert (U = ∅) as ->.
      { apply map_empty. intros κ. destruct (U !! κ) eqn:E; [|done]. by apply Hall, elem_of_nil in E. }
      by exists s, l. }
  destruct Hun as (s1 & l1 & E1 & I1 & O1 & M1). erewrite bind_ok by exact E1.
  pose proof (ui_vm _ _ _ _ _ I1) as V1. rewrite (left_id_L ∅ (∪)) in V1.
  destruct (freewalk_ok s1 l1 T root V1 HT) as (s' & l' & E' & K' & O' & S').
  exists s', l'. split_and!; [done|done|apply K'| |].
  - by rewrite <- O1, O', uown_empty.
  - eapply vstep_trans; [exact M1|]. by rewrite <- O1, uown_empty.
Qed.

(** C25: [uvmfree] of an address space whose pages all lie below [sz]
    leaves nothing behind: afterwards the free list consists of the pages
    that were free, the pages of the tables and the pages of the process,
    each once. *)
Theorem uvmfree_spec s l T U root sz :
  uvm_inv s l T U ∅ -> T !! [] = Some root -> 0 <= sz <= MAXVA ->
  (forall κ x, U !! κ = Some x -> κ ∈ range_paths 0 (pages_below sz)) ->
  exists s' l', uvmfree root sz s = Ok tt s' /\ kmem_inv s' l' /\ NoDup l' /\
    list_to_set l' = uown l T U /\ mm_mach s' = mm_mach s.
Proof.
  intros I HT Hsz Hall. destruct (uvmfree_ok s l T U root sz I HT Hsz Hall) as (s' & l' & E & K & N & O & S).
  exists s', l'. split_and!; try done. apply S.
Qed.

(** ** The theorems on a concrete machine *)


Lemma uvmfree_spec_witness :
  exists s' l', uvmfree demo_root 0 mm_user = Ok tt s' /\ kmem_inv s' l' /\ NoDup l' /\
    list_to_set l' = uown (reverse demo_pages) {[ [] := demo_root ]} ∅ /\ mm_mach s' = mm_mach mm_user.
Proof.
  destruct mm_user_ok as [I _]. apply uvmfree_spec.
  - exact I.
  - apply lookup_singleton_eq.
  - split; [lia|by apply Z.leb_le].
  - intros κ x H. by rewrite lookup_empty in H.
Defined.
