(* ===== verification/UserByte.v ===== *)
(** * User memory, seen byte by byte

    The view the drivers and pipes have of the memory of the current process:
    [uspace s root sz F O V R W] hides the page tables behind the contents
    [V] of the address space, the sets [R] and [W] of addresses known to be
    readable and writable, and the set [O] of the pages involved. *)

From stdpp Require Import base numbers strings decidable sets gmap functions list.
From S2P Require Import Prelude.
From S2P Require Import CString.
From S2P Require Import Riscv.
From S2P Require Import Sched.
From S2P Require Import Kalloc.
From S2P Require Import Vm.
From S2P Require Import VmInv.
From S2P Require Import Uvm.
From S2P Require Import VmCopy.
Open Scope Z_scope.
Open Scope xv6_scope.

Record uspace (s : mm) (root sz : Z) (F : leaves) (O : gset Z) (V : Z -> Z) (R W : Z -> Prop) : Prop := {
  us_max : sz <= MAXVA;
  us_proc : uproc (mm_mach s) root sz;
  us_tabs : exists l T U, uvm_inv s l T U F /\ T !! [] = Some root /\ uown l T U = O /\
    (forall v, uva v -> umem (mem s) U v = V v) /\
    (forall v, R v -> access U PTE_V v) /\ (forall v, W v -> access U PTE_W v);
}.

(** Nothing outside the pages [O] has changed. *)
Definition mframe (O : gset Z) (s s' : mm) : Prop :=
  mm_mach s' = mm_mach s /\
  forall p a, aligned p -> p ∉ O -> in_page p a -> mem s' a = mem s a.
Lemma mframe_refl O s : mframe O s s.
Proof. done. Qed.
Lemma mframe_trans O s1 s2 s3 : mframe O s1 s2 -> mframe O s2 s3 -> mframe O s1 s3.
Proof. intros [M1 F1] [M2 F2]. split; [congruence|]. intros. by rewrite (F2 p), (F1 p). Qed.

(** Taking and giving back other locks, and waking processes. *)
Lemma uvm_mach s l T U F m :
  uvm_inv s l T U F -> LkKmem ∉ held m -> uvm_inv (s <| mm_mach := m |>) l T U F.
Proof.
  intros [[[] P D V L] ? Hp ? ?] Hm. split; done.
Qed.

Lemma uspace_mach s root sz F O V R W m :
  uspace s root sz F O V R W -> LkKmem ∉ held m -> uproc m root sz ->
  uspace (s <| mm_mach := m |>) root sz F O V R W.
Proof.
  intros [M P (l & T & U & I & H)] Hk Hp. split; [done|done|].
  exists l, T, U. split; [by apply uvm_mach|]. done.
Qed.

Lemma uspace_nolock s root sz F O V R W :
  uspace s root sz F O V R W -> LkKmem ∉ held (mm_mach s).
Proof. by intros [_ _ (l & T & U & [[] _ _ _ _] & _)]. Qed.

Section byte.
Context (root sz : Z) (F : leaves) (O : gset Z) (R W : Z -> Prop).

(** Reading bytes of the process: it fails only where [R] does not hold. *)
Lemma get_bytes s V a n :
  uspace s root sz F O V R W -> 0 <= a -> a + Z.of_nat n <= MAXVA ->
  exists r bs s', copyin root a n s = Ok (r, bs) s' /\ mframe O s s' /\
    uspace s' root sz F O V R W /\
    ((r = 0 /\ bs = read_bytes V a n) \/
     (r = -1 /\ (length bs < n)%nat /\ ~ forall k : nat, (k < n)%nat -> R (a + Z.of_nat k))).
Proof.
  intros [M P (l & T & U & I & HT & HO & HV & HR & HW)] Ha Hn.
  destruct (copyin_loop_ok F root sz M (S n) s l T U a n [])
    as (r & bs & s' & l' & T' & U' & n' & E & K & MV & [CB CR CT]); try done; [lia|pglia|].
  exists r, bs, s'. split; [exact E|]. split.
  { split; [apply K|]. intros p b Hp Hnb Hb. eapply uk_foreign; try done. by rewrite HO. }
  split.
  { split; [done|by rewrite (uk_mach _ _ _ _ _ _ _ _ _ K)|].
    exists l', T', U'. split_and!; [apply K|eapply lookup_weaken; [done|apply K]| | | |].
    - by rewrite (uk_own _ _ _ _ _ _ _ _ _ K).
    - intros v Hv. rewrite MV by apply Hv. by apply HV.
    - intros v Hv. eapply access_mono; [apply K|by apply HR].
    - intros v Hv. eapply access_mono; [apply K|by apply HW]. }
  destruct CR as [[-> ->]|[-> Hlt]]; [left|right]; split; try done.
  - rewrite CB. apply read_bytes_ext. intros k Hk. apply HV. unfold uva. lia.
  - split; [rewrite CB; len|]. intros Hr. discriminate CT. intros k Hk. by apply HR, Hr.
Qed.

Lemma get_byte s V a :
  uspace s root sz F O V R W -> uva a ->
  exists r bs s', copyin root a 1 s = Ok (r, bs) s' /\ mframe O s s' /\
    uspace s' root sz F O V R W /\ ((r = 0 /\ bs = [V a]) \/ (r = -1 /\ ~ R a)).
Proof.
  intros Hs [H1 H2]. destruct (get_bytes s V a 1 Hs) as (r & bs & s' & E & Fr & Hs' & H); [lia|lia|].
  exists r, bs, s'. split_and!; [done..|]. destruct H as [[-> ->]|(-> & _ & Hn)]; [left|right]; split; try done.
  - unfold read_bytes. simpl. by rewrite Z.add_0_r.
  - intros Hr. apply Hn. intros k Hk. replace k with 0%nat by lia. by rewrite Z.add_0_r.
Qed.

(** Storing bytes. *)
Lemma put_bytes s V a cs :
  uspace s root sz F O V R W -> 0 <= a < 2 ^ 64 ->
  exists r s' n, copyout root a cs s = Ok r s' /\ mframe O s s' /\
    uspace s' root sz F O (write_bytes V a (take n cs)) R W /\
    ((r = 0 /\ n = length cs) \/
     (r = -1 /\ (n < length cs)%nat /\ ~ forall k : nat, (k < length cs)%nat -> W (a + Z.of_nat k))).
Proof.
  intros [M P (l & T & U & I & HT & HO & HV & HR & HW)] Ha.
  destruct (copyout_loop_ok F root sz M (S (length cs)) s l T U a cs)
    as (r & s' & l' & T' & U' & n & E & K & [CM CR _ CT]); try done; [lia|].
  exists r, s', n. split; [exact E|]. split.
  { split; [apply K|]. intros p b Hp Hn Hb. eapply uk_foreign; try done. by rewrite HO. }
  split.
  { split; [done|by rewrite (uk_mach _ _ _ _ _ _ _ _ _ K)|].
    exists l', T', U'. split_and!; [apply K|eapply lookup_weaken; [done|apply K]| | | |].
    - by rewrite (uk_own _ _ _ _ _ _ _ _ _ K).
    - intros v Hv. rewrite CM by done. apply write_bytes_ext. by apply HV.
    - intros v Hv. eapply access_mono; [apply K|by apply HR].
    - intros v Hv. eapply access_mono; [apply K|by apply HW]. }
  destruct CR as [[-> ->]|[-> Hn]]; [by left|right]. split_and!; [done|done|].
  intros Hw. discriminate CT. intros k Hk. by apply HW, Hw.
Qed.

(** Where bytes could be stored the process can read and write. *)
Definition span (a : Z) (n : nat) (v : Z) : Prop := a <= v < a + Z.of_nat n.
Lemma put_bytes_access s V a cs s' :
  uspace s root sz F O V R W -> 0 <= a < 2 ^ 64 -> copyout root a cs s = Ok 0 s' ->
  uspace s' root sz F O (write_bytes V a cs) (span a (length cs)) (span a (length cs)) /\ mm_mach s' = mm_mach s.
Proof.
  intros [M P (l & T & U & I & HT & HO & HV & HR & HW)] Ha E.
  destruct (copyout_loop_ok F root sz M (S (length cs)) s l T U a cs)
    as (r & s1 & l1 & T1 & U1 & n & E1 & K & [CM CR CA _]); try done; [lia|].
  unfold copyout in E. rewrite E1 in E. injection E as -> ->. destruct CR as [[_ ->]|[? _]]; [|done].
  split; [|apply K]. split; [done|by rewrite (uk_mach _ _ _ _ _ _ _ _ _ K)|].
  assert (Hw : forall v, span a (length cs) v -> access U1 PTE_W v).
  { intros v Hv. unfold span in Hv. replace v with (a + Z.of_nat (Z.to_nat (v - a))) by lia. apply CA; [done|lia]. }
  exists l1, T1, U1. split_and!; [apply K|eapply lookup_weaken; [done|apply K]| | | |done].
  - by rewrite (uk_own _ _ _ _ _ _ _ _ _ K).
  - intros v Hv. rewrite CM by done. rewrite take_ge by done. apply write_bytes_ext. by apply HV.
  - intros v Hv. destruct (Hw v Hv) as (Hva & pa & f & HU & Hu & _). split; [done|]. exists pa, f. split_and!; try done.
    by eapply po_v, (pi_A _ _ _ (vi_pt _ _ _ _ (ui_vm _ _ _ _ _ (uk_inv _ _ _ _ _ _ _ _ _ K)))), lookup_union_Some_l.
Qed.

Lemma put_byte s V a c :
  uspace s root sz F O V R W -> uva a ->
  exists r s', copyout root a [c] s = Ok r s' /\ mframe O s s' /\
    ((r = 0 /\ uspace s' root sz F O (<[a := c]> V) R W) \/
     (r = -1 /\ ~ W a /\ uspace s' root sz F O V R W)).
Proof.
  intros Hs Ha. destruct (put_bytes s V a [c] Hs) as (r & s' & n & E & Fr & Hs' & H); [unfold uva in Ha; pglia|].
  exists r, s'. split_and!; [done..|]. destruct H as [[-> ->]|(-> & Hn & Hw)]; [left|right].
  - by split.
  - simpl in Hn. replace n with 0%nat in Hs' by lia. split_and!; [done| |done].
    intros Hwa. apply Hw. intros k Hk. simpl in Hk. replace k with 0%nat by lia. by rewrite Z.add_0_r.
Qed.
End byte.

(** The process of [Uvm.v]'s machine, all of whose memory is still to be
    allocated. *)
Definition nowhere (v : Z) : Prop := False.
Lemma mm_user_space :
  uspace mm_user demo_root (4 * PGSIZE) ∅ (uown (reverse demo_pages) {[ [] := demo_root ]} ∅)
    (fun _ => 0) nowhere nowhere.
Proof.
  destruct mm_user_ok as [I M]. split.
  - by apply Z.leb_le.
  - rewrite M. apply uproc_demo.
  - exists (reverse demo_pages), {[ [] := demo_root ]}, ∅.
    split; [exact I|]. split; [apply lookup_singleton_eq|]. split; [reflexivity|].
    split; [intros v _; unfold umem; by rewrite lookup_empty|].
    split; intros v [].
Qed.

Lemma asleep_proc ch i p m :
  procs m !! i = Some p ->
  procs (asleep ch i p m) !! i = Some (p <| p_chan := ch |> <| p_state := SLEEPING |>).
Proof. intros. apply list_lookup_insert_eq. by eapply lookup_lt_Some. Qed.

(** ** A process in the kernel

    Process number [pr] runs in the kernel with its memory as in [uspace],
    holding the spin locks [h], and has not been killed. *)
Record uctx (s : mm) (pr : nat) (root sz : Z) (F : leaves) (O : gset Z) (V : Z -> Z) (R W : Z -> Prop)
    (h : list lockid) : Prop := {
  ux_space : uspace s root sz F O V R W;
  ux_held : held (mm_mach s) = h;
  ux_cur : exists p, cur (mm_mach s) = Some pr /\
    procs (mm_mach s) !! pr = Some p /\ p_pagetable p = root /\ p_sz p = sz /\ p_killed p = 0;
  ux_procs : length (procs (mm_mach s)) = NPROC;
  ux_free : forall i, LkProc i ∉ h;
}.

Section inkernel.
Context (pr : nat) (root sz : Z) (F : leaves) (O : gset Z) (R W : Z -> Prop).
Notation "'ctx' s V h" := (uctx s pr root sz F O V R W h) (at level 10, s, V, h at level 9).

Lemma uctx_killed s V h : ctx s V h -> killed pr (mm_mach s) = Ok 0 (mm_mach s).
Proof using.
  intros [_ Hh (p & Hc & Hp & _ & _ & Hk) _ Hf]. unfold killed.
  erewrite bind_ok by (apply acquire_ok; rewrite Hh; apply Hf).
  erewrite bind_ok by (by apply get_proc_ok).
  erewrite bind_ok by (by apply release_ok). rewrite Hk. by destruct (mm_mach s).
Qed.

Lemma uctx_acquire s V h lk :
  ctx s V h -> lk ∉ h -> lk <> LkKmem -> (forall i, lk <> LkProc i) ->
  acquire lk (mm_mach s) = Ok tt (mm_mach s <| held := lk :: h |>) /\
  ctx (s <| mm_mach := mm_mach s <| held := lk :: h |> |>) V (lk :: h).
Proof using.
  intros [Hs Hh (p & Hc & Hpr & Hpt & Hsz & Hk) Hn Hf] Hl Hm Hne. split.
  { rewrite acquire_ok; by rewrite Hh. }
  split; try done.
  - apply uspace_mach; [done| |].
    + cbn. apply not_elem_of_cons. split; [done|]. rewrite <- Hh. by eapply uspace_nolock.
    + split. by exists pr, p.
  - by exists p.
  - intros i. apply not_elem_of_cons. split; [|done]. intros E. by apply (Hne i).
Qed.

Lemma uctx_release s V h lk :
  ctx s V (lk :: h) ->
  release lk (mm_mach s) = Ok tt (mm_mach s <| held := h |>) /\
  ctx (s <| mm_mach := mm_mach s <| held := h |> |>) V h.
Proof using.
  intros [Hs Hh (p & Hc & Hpr & Hpt & Hsz & Hk) Hn Hf]. split; [by apply release_ok|].
  split; try done.
  - apply uspace_mach; [done| |].
    + cbn. intros H. apply (uspace_nolock _ _ _ _ _ _ _ _ Hs).
      rewrite Hh. by apply list_elem_of_further.
    + split. by exists pr, p.
  - by exists p.
  - intros i Hi. apply (Hf i). by apply list_elem_of_further.
Qed.

Lemma uctx_wake s V h ch :
  ctx s V h ->
  wakeup ch (mm_mach s) = Ok tt (wake ch (mm_mach s)) /\
  ctx (s <| mm_mach := wake ch (mm_mach s) |>) V h.
Proof using.
  intros [Hs Hh (p & Hc & Hpr & Hpt & Hsz & Hk) Hn Hf]. split.
  { apply wakeup_ok; [|done]. intros i _. rewrite Hh. apply Hf. }
  assert (Hw : procs (wake ch (mm_mach s)) !! pr = Some p).
  { change (procs (wake ch ?m)) with (imap (woken ch (cur m)) (procs m)).
    rewrite list_lookup_imap, Hpr. simpl. unfold woken. by rewrite decide_True by done. }
  split; try done.
  - apply uspace_mach; [done|by eapply uspace_nolock|]. split. by exists pr, p.
  - by exists p.
  - simpl. by rewrite length_imap.
Qed.

(** The processor comes back to the process in [sleep]. *)
Definition resumed (w : mm) : mm := w <| mm_mach := mm_mach w <| held := [LkProc pr] |> |>.

Lemma uctx_chan s V h p :
  ctx s V h -> procs (mm_mach s) !! pr = Some p ->
  ctx (s <| mm_mach := mm_mach s <| procs := <[pr := p <| p_chan := ChNull |>]> (procs (mm_mach s)) |> |>) V h.
Proof using.
  intros [Hs Hh (p0 & Hc & Hpr & Hpt & Hsz & Hk) Hn Hf] E. simplify_eq.
  assert (L : (pr < length (procs (mm_mach s)))%nat) by (by eapply lookup_lt_Some).
  split; try done.
  - apply uspace_mach; [done|by eapply uspace_nolock|]. split. eexists pr, _.
    split_and!; [done|by apply list_lookup_insert_eq|done|done].
  - eexists. split_and!; [done|by apply list_lookup_insert_eq|done..].
  - simpl. by rewrite length_insert.
Qed.

(** Sleeping with one lock held: the state in which the processor is given
    up, and what the process continues with. *)
Lemma uctx_sleep s V lk ch :
  ctx s V [lk] -> lk <> LkProc pr ->
  exists p k, procs (mm_mach s) !! pr = Some p /\
    sleep ch lk (mm_mach s) = Swtch (asleep ch pr p (mm_mach s)) k /\
    forall w V', ctx w V' [lk] ->
      exists m, k (mm_mach (resumed w)) = Ok tt m /\ ctx (w <| mm_mach := m |>) V' [lk].
Proof using.
  intros Hx Hne. destruct (ux_cur _ _ _ _ _ _ _ _ _ _ Hx) as (p & Hc & Hp & _).
  destruct (sleep_ok ch lk (mm_mach s) pr p) as (k & E & K); try done; [apply Hx|].
  exists p, k. split_and!; [done|done|]. intros w V' Hw.
  destruct (ux_cur _ _ _ _ _ _ _ _ _ _ Hw) as (p' & Hc' & Hp' & _).
  eexists. split; [by apply K|]. pose proof (uctx_chan _ _ _ _ Hw Hp') as H.
  pose proof (ux_held _ _ _ _ _ _ _ _ _ _ Hw) as Hh. destruct w as [[]]. simpl in *. by subst.
Qed.

(** Bytes to and from the process, by way of [either_copyout] and
    [either_copyin]. *)
Lemma uctx_mm s V V' h m :
  ctx s V h -> mframe O s m -> uspace m root sz F O V' R W -> ctx m V' h.
Proof using. intros [] [E _] Hs. split; try done; by rewrite E. Qed.

Lemma either_out s V h a c :
  ctx s V h -> uva a ->
  exists r s', either_copyout (User a) [c] s = Ok r s' /\ mframe O s s' /\
    ((r = 0 /\ ctx s' (<[a := c]> V) h) \/ (r = -1 /\ ~ W a /\ ctx s' V h)).
Proof using.
  intros Hx Ha. destruct (ux_cur _ _ _ _ _ _ _ _ _ _ Hx) as (p & Hc & Hp & Hr & _).
  unfold either_copyout. erewrite bind_ok by (by apply lift_read, myproc_ok).
  erewrite bind_ok by (by apply lift_read, get_proc_ok). rewrite Hr.
  destruct (put_byte root sz F O R W s V a c) as (r & s' & E & Fr & H); [apply Hx|done|].
  exists r, s'. split_and!; [done|done|].
  destruct H as [[-> S]|(-> & Hw & S)]; [left|right]; split_and!; try done; by eapply uctx_mm.
Qed.
End inkernel.

Lemma mm_user_ctx :
  uctx mm_user 3 demo_root (4 * PGSIZE) ∅ (uown (reverse demo_pages) {[ [] := demo_root ]} ∅)
    (fun _ => 0) nowhere nowhere [].
Proof.
  destruct mm_user_ok as [_ M]. split; rewrite ?M; [apply mm_user_space|done| |done|].
  - eexists. by split_and!.
  - intros i. apply not_elem_of_nil.
Qed.

(** The same process with ten bytes in its memory, across a page boundary. *)
Definition sevens : list Z := replicate 10 7.
Definition mm_seven : mm := after (copyout demo_root 4090 sevens) mm_user.
Lemma mm_seven_ok :
  uspace mm_seven demo_root (4 * PGSIZE) ∅ (uown (reverse demo_pages) {[ [] := demo_root ]} ∅)
    (write_bytes (fun _ => 0) 4090 sevens) (span 4090 10) (span 4090 10) /\ mm_mach mm_seven = mach_user.
Proof.
  destruct copyout_demo_succeeds as [s' E]. unfold mm_seven, after. unfold sevens. rewrite E.
  destruct (put_bytes_access demo_root (4 * PGSIZE) ∅ _ _ _ mm_user _ 4090 (replicate 10 7) s' mm_user_space)
    as [Hs Hm]; [lia|done|]. split; [done|]. rewrite Hm. apply mm_user_ok.
Qed.
Lemma mm_seven_ctx :
  uctx mm_seven 3 demo_root (4 * PGSIZE) ∅ (uown (reverse demo_pages) {[ [] := demo_root ]} ∅)
    (write_bytes (fun _ => 0) 4090 sevens) (span 4090 10) (span 4090 10) [].
Proof.
  destruct mm_seven_ok as [Hs Hm]. destruct mm_user_ctx as [_ Hh Hc Hp Hf]. destruct mm_user_ok as [_ Hu].
  rewrite Hu in *. split; rewrite ?Hm; done.
Qed.
#[global] Opaque mm_seven.
