(* ===== verification/Sleeplock.v ===== *)
(** * Sleep locks, [kernel/sleeplock.c]

    A sleep lock lives inside another object (a buffer, an in-memory inode);
    [sleepref] says where in a state [S] it is, which spin lock guards it and
    on which channel its waiters sleep.  Waiting is the [while] loop of the
    source around [sleep]; [wait_fuel] bounds how often a waiter of the model
    is woken without getting the lock. *)

From stdpp Require Import base numbers strings decidable sets gmap list.
From S2P Require Import Prelude.
From S2P Require Import Riscv.
From S2P Require Import Sched.
Open Scope Z_scope.
Open Scope xv6_scope.

Record sleeplock : Type := mksleeplock {
  sl_locked : Z;
  sl_pid : Z;
}.
#[export] Instance set_sl_locked : Setter sl_locked := fun v r => mksleeplock v (sl_pid r).
#[export] Instance set_sl_pid : Setter sl_pid := fun v r => mksleeplock (sl_locked r) v.

Record sleepref (S : Type) : Type := mksleepref {
  sr_lk : lockid;  (** the spin lock [lk->lk] *)
  sr_chan : chan;  (** the channel, the address of the sleep lock *)
  sr_get : S -> sleeplock;
  sr_set : sleeplock -> S -> S;
}.
Arguments sr_lk {S} _.
Arguments sr_chan {S} _.
Arguments sr_get {S} _ _.
Arguments sr_set {S} _ _ _.

Definition wait_fuel : nat := 64.

Section ops.
Context {S : Type} `{!Embed mach S}.

Definition initsleeplock (r : sleepref S) : M S unit :=
  modify (sr_set r (mksleeplock 0 0)).

Fixpoint sleep_while_locked (fuel : nat) (r : sleepref S) : M S unit :=
  match fuel with
  | O => out_of_fuel
  | Datatypes.S fuel' =>
    l <- gets (sr_get r) ;;
    if sl_locked l =? 0 then ret tt
    else lift (sleep (sr_chan r) (sr_lk r)) ;; sleep_while_locked fuel' r
  end.

Definition acquiresleep (r : sleepref S) : M S unit :=
  lift (acquire (sr_lk r)) ;;
  sleep_while_locked wait_fuel r ;;
  modify (fun s => sr_set r (sr_get r s <| sl_locked := 1 |>) s) ;;
  pid <- lift mypid ;;
  modify (fun s => sr_set r (sr_get r s <| sl_pid := pid |>) s) ;;
  lift (release (sr_lk r)).

Definition releasesleep (r : sleepref S) : M S unit :=
  lift (acquire (sr_lk r)) ;;
  modify (fun s => sr_set r (sr_get r s <| sl_locked := 0 |>) s) ;;
  modify (fun s => sr_set r (sr_get r s <| sl_pid := 0 |>) s) ;;
  lift (wakeup (sr_chan r)) ;;
  lift (release (sr_lk r)).

Definition holdingsleep (r : sleepref S) : M S bool :=
  lift (acquire (sr_lk r)) ;;
  l <- gets (sr_get r) ;;
  pid <- lift mypid ;;
  let h := negb (sl_locked l =? 0) && (sl_pid l =? pid) in
  lift (release (sr_lk r)) ;;
  ret h.

(** The lock sits beside the process table: writing one does not touch the
    other. *)
Class SleepLaws (r : sleepref S) : Prop := {
  sr_get_set : forall l s, sr_get r (sr_set r l s) = l;
  sr_set_set : forall l l' s, sr_set r l (sr_set r l' s) = sr_set r l s;
  sr_prj_set : forall l s, prj (sr_set r l s) = prj s;
  sr_get_inj : forall m s, sr_get r (inj m s) = sr_get r s;
  sr_set_inj : forall l m s, sr_set r l (inj m s) = inj m (sr_set r l s);
}.
End ops.

(** ** The lock protocol *)

Section facts.
Context {S : Type} `{!Embed mach S, !EmbedLaws mach S}.
Context (r : sleepref S) `{!SleepLaws r}.
Hypothesis not_plock : forall i, sr_lk r <> LkProc i.

Ltac lens :=
  repeat (rewrite sr_get_set || rewrite sr_set_set || rewrite sr_prj_set ||
          rewrite sr_get_inj || rewrite sr_set_inj || rewrite prj_inj || rewrite inj_inj).

Lemma inj_prj_set l s : inj (prj s) (sr_set r l s) = sr_set r l s.
Proof using All. by rewrite <- sr_set_inj, inj_prj. Qed.

(** The lock, free, is taken at once. *)
Lemma acquiresleep_free s i p :
  sr_lk r ∉ held (prj s) -> cur (prj s) = Some i -> procs (prj s) !! i = Some p ->
  sl_locked (sr_get r s) = 0 ->
  acquiresleep r s = Ok tt (sr_set r (mksleeplock 1 (p_pid p)) s).
Proof using All.
  intros Hh Hc Hp Hl. unfold acquiresleep.
  erewrite bind_ok by (by apply lift_ok, acquire_ok).
  unfold wait_fuel. cbn [sleep_while_locked].
  erewrite (bind_ok (bind _ _)).
  2: { erewrite bind_ok by done. lens. rewrite Hl. done. }
  erewrite bind_ok by done. lens.
  erewrite bind_ok by (apply lift_ok; lens; by apply (mypid_ok i)).
  erewrite bind_ok by done. lens.
  erewrite lift_ok by (apply release_ok; by lens). lens. cbn [held].
  f_equal. replace (_ <| held := _ |>) with (prj s) by (by destruct (prj s)).
  apply inj_prj_set.
Qed.

Lemma holdingsleep_ok s i p :
  sr_lk r ∉ held (prj s) -> cur (prj s) = Some i -> procs (prj s) !! i = Some p ->
  holdingsleep r s =
    Ok (negb (sl_locked (sr_get r s) =? 0) && (sl_pid (sr_get r s) =? p_pid p)) s.
Proof using All.
  intros Hh Hc Hp. unfold holdingsleep.
  erewrite bind_ok by (by apply lift_ok, acquire_ok).
  erewrite bind_ok by done. lens.
  erewrite bind_ok by (apply lift_ok; lens; by apply (mypid_ok i)).
  erewrite bind_ok by (apply lift_ok, release_ok; by lens). lens. cbn [held].
  unfold ret. f_equal. replace (_ <| held := _ |>) with (prj s) by (by destruct (prj s)).
  apply inj_prj.
Qed.

Lemma releasesleep_ok s :
  sr_lk r ∉ held (prj s) -> plocks_free (prj s) -> length (procs (prj s)) = NPROC ->
  releasesleep r s =
    Ok tt (inj (wake (sr_chan r) (prj s)) (sr_set r (mksleeplock 0 0) s)).
Proof using All.
  intros Hh Hf Hl. unfold releasesleep.
  erewrite bind_ok by (by apply lift_ok, acquire_ok).
  do 2 erewrite bind_ok by done. lens.
  erewrite bind_ok.
  2: { apply lift_ok. lens. apply wakeup_ok; [|done].
       intros i Hi. simpl in *. apply not_elem_of_cons.
       split; [by apply not_eq_sym|by apply Hf]. }
  erewrite lift_ok by (apply release_ok; by lens). lens.
  unfold wake. by destruct (prj s).
Qed.

(** The lock, taken, makes its caller sleep on it, with the spin lock given
    back. *)
Lemma acquiresleep_blocks s i p :
  held (prj s) = [] -> cur (prj s) = Some i -> procs (prj s) !! i = Some p ->
  sl_locked (sr_get r s) <> 0 ->
  exists k, acquiresleep r s = Swtch (inj (asleep (sr_chan r) i p (prj s)) s) k /\
    forall s' p', cur (prj s') = Some i -> held (prj s') = [LkProc i] ->
      procs (prj s') !! i = Some p' -> sl_locked (sr_get r s') = 0 ->
      k s' = Ok tt (inj (prj s' <| held := [] |>
                           <| procs := <[i := p' <| p_chan := ChNull |>]> (procs (prj s')) |>)
                      (sr_set r (mksleeplock 1 (p_pid p')) s')).
Proof using All.
  intros Hh Hc Hp Hl. unfold acquiresleep.
  erewrite bind_ok by (apply lift_ok, acquire_ok; rewrite Hh; set_solver).
  rewrite Hh. set (m1 := prj s <| held := [sr_lk r] |>).
  destruct (sleep_ok (sr_chan r) (sr_lk r) m1 i p) as (k & E & K); try done.
  unfold wait_fuel. cbn [sleep_while_locked].
  erewrite bind_swtch.
  2: { erewrite bind_ok by done. rewrite sr_get_inj, (proj2 (Z.eqb_neq _ _)) by done.
       apply bind_swtch, lift_swtch. by rewrite prj_inj. }
  eexists. split; [by rewrite inj_inj|].
  intros s' p' Hc' Hh' Hp' Hl'. cbn beta. rewrite (K _ p') by done. cbn [lift_res bind_res].
  erewrite bind_ok by done. lens. rewrite Hl'. cbn [Z.eqb bind_res ret].
  erewrite bind_ok by done. lens.
  erewrite bind_ok.
  2: { apply lift_ok. lens. eapply (mypid_ok i); [done|]. simpl.
       apply list_lookup_insert_eq. by eapply lookup_lt_Some. }
  erewrite bind_ok by done. lens.
  erewrite lift_ok by (apply release_ok; by lens). by lens.
Qed.

(** the sleep-lock protocol.  [acquiresleep] of a lock that
    is taken does not return: it leaves the lock as it is and blocks, asleep
    on the lock.  From any later state in which the caller is still asleep
    there, the holder's [releasesleep] frees the lock and makes the caller
    runnable, and when the scheduler resumes the caller with the lock still
    free, it returns owning the lock under its own pid. *)
Theorem sleeplock_handoff s i p :
  held (prj s) = [] -> cur (prj s) = Some i -> procs (prj s) !! i = Some p ->
  sl_locked (sr_get r s) <> 0 ->
  exists s1 k, acquiresleep r s = Swtch s1 k /\ sr_get r s1 = sr_get r s /\
    held (prj s1) = [LkProc i] /\
    (forall w, held (prj w) = [] -> cur (prj w) <> Some i ->
       length (procs (prj w)) = NPROC -> procs (prj w) !! i = procs (prj s1) !! i ->
       exists w', releasesleep r w = Ok tt w' /\ sr_get r w' = mksleeplock 0 0 /\
         p_state <$> procs (prj w') !! i = Some RUNNABLE) /\
    (forall s' p', cur (prj s') = Some i -> held (prj s') = [LkProc i] ->
       procs (prj s') !! i = Some p' -> sl_locked (sr_get r s') = 0 ->
       exists s2, k s' = Ok tt s2 /\ sr_get r s2 = mksleeplock 1 (p_pid p') /\
         held (prj s2) = []).
Proof using All.
  intros Hh Hc Hp Hl. destruct (acquiresleep_blocks s i p) as (k & E & K); try done.
  eexists _, k. split_and!; [done|by lens|by lens| |].
  - intros w Hw Hcw Hlw Hpw. eexists. split_and!.
    + apply releasesleep_ok; [rewrite Hw; set_solver| |done].
      intros j _. rewrite Hw. set_solver.
    + by lens.
    + lens. simpl. rewrite list_lookup_imap, Hpw, prj_inj. simpl.
      rewrite list_lookup_insert_eq by (by eapply lookup_lt_Some). simpl.
      unfold woken. rewrite decide_False by congruence. by rewrite decide_True.
  - intros s' p' Hc' Hh' Hp' Hl'. eexists. split_and!; [by apply K|by lens|by lens].
Qed.
End facts.

(** A sleep lock beside a process table. *)
#[local] Instance embed_fst : Embed mach (mach * sleeplock) :=
  {| prj := fst; inj := fun m s => (m, snd s) |}.
#[local] Instance embed_fst_laws : EmbedLaws mach (mach * sleeplock).
Proof. by split; [|intros []|]. Qed.
Definition lone_lock : sleepref (mach * sleeplock) :=
  mksleepref _ (LkBufSleep 0) (ChBufLock 0) snd (fun l s => (fst s, l)).
#[local] Instance lone_lock_laws : SleepLaws lone_lock.
Proof. split; by intros; try destruct s. Qed.

Lemma sleeplock_handoff_witness :
  let s := (two_procs, mksleeplock 1 8) in
  exists s1 k, acquiresleep lone_lock s = Swtch s1 k /\ sr_get lone_lock s1 = mksleeplock 1 8 /\
    held (prj s1) = [LkProc 3] /\
    (forall w, held (prj w) = [] -> cur (prj w) <> Some 3%nat ->
       length (procs (prj w)) = NPROC -> procs (prj w) !! 3%nat = procs (prj s1) !! 3%nat ->
       exists w', releasesleep lone_lock w = Ok tt w' /\
         sr_get lone_lock w' = mksleeplock 0 0 /\
         p_state <$> procs (prj w') !! 3%nat = Some RUNNABLE) /\
    (forall s' p', cur (prj s') = Some 3%nat -> held (prj s') = [LkProc 3] ->
       procs (prj s') !! 3%nat = Some p' -> sl_locked (sr_get lone_lock s') = 0 ->
       exists s2, k s' = Ok tt s2 /\ sr_get lone_lock s2 = mksleeplock 1 (p_pid p') /\
         held (prj s2) = []).
Proof.
  intros s. apply (sleeplock_handoff lone_lock) with (p := blank_proc <| p_state := RUNNING |> <| p_pid := 7 |>); done.
Defined.
