(* ===== verification/Console.v ===== *)
(** * The console, [kernel/console.c] and [kernel/uart.c]

    Input characters go through the line editor [consoleintr] into a ring
    buffer from which [consoleread] takes whole lines; output goes to the
    transmit register of the serial port, byte by byte.  Of the serial port
    the model keeps the characters received and not yet read, whether the
    transmitter is idle, and everything written to the transmit register. *)

From stdpp Require Import base numbers strings pretty decidable sets gmap functions list.
From S2P Require Import Prelude.
From S2P Require Import CString.
From S2P Require Import Riscv.
From S2P Require Import Sched.
From S2P Require Import Sleeplock.
From S2P Require Import Kalloc.
From S2P Require Import Vm.
Open Scope Z_scope.
Open Scope xv6_scope.

Definition INPUT_BUF_SIZE : Z := 128.
Definition BACKSPACE : Z := 0x100.
(** Control-x, [x] being the code of the letter. *)
Definition Ctl (x : Z) : Z := x - 64.
Definition newline : Z := 10.
Definition carriage_return : Z := 13.

Record cons : Type := mkcons {
  c_buf : list Z;
  c_r : Z;  (** read index *)
  c_w : Z;  (** write index *)
  c_e : Z;  (** edit index *)
  tx_busy : Z;  (** is the UART busy sending? *)
  lsr_tx_idle : bool;  (** LSR_TX_IDLE *)
  rx : list Z;  (** what RHR will deliver *)
  tx : list Z;  (** what was written to THR *)
}.
#[export] Instance set_c_buf : Setter c_buf := fun v r => mkcons v (c_r r) (c_w r) (c_e r) (tx_busy r) (lsr_tx_idle r) (rx r) (tx r).
#[export] Instance set_c_r : Setter c_r := fun v r => mkcons (c_buf r) v (c_w r) (c_e r) (tx_busy r) (lsr_tx_idle r) (rx r) (tx r).
#[export] Instance set_c_w : Setter c_w := fun v r => mkcons (c_buf r) (c_r r) v (c_e r) (tx_busy r) (lsr_tx_idle r) (rx r) (tx r).
#[export] Instance set_c_e : Setter c_e := fun v r => mkcons (c_buf r) (c_r r) (c_w r) v (tx_busy r) (lsr_tx_idle r) (rx r) (tx r).
#[export] Instance set_tx_busy : Setter tx_busy := fun v r => mkcons (c_buf r) (c_r r) (c_w r) (c_e r) v (lsr_tx_idle r) (rx r) (tx r).
#[export] Instance set_lsr_tx_idle : Setter lsr_tx_idle := fun v r => mkcons (c_buf r) (c_r r) (c_w r) (c_e r) (tx_busy r) v (rx r) (tx r).
#[export] Instance set_rx : Setter rx := fun v r => mkcons (c_buf r) (c_r r) (c_w r) (c_e r) (tx_busy r) (lsr_tx_idle r) v (tx r).
#[export] Instance set_tx : Setter tx := fun v r => mkcons (c_buf r) (c_r r) (c_w r) (c_e r) (tx_busy r) (lsr_tx_idle r) (rx r) v.

Record cmm : Type := mkcmm {
  cm_mm : mm;
  cm_cons : cons;
}.
#[export] Instance set_cm_mm : Setter cm_mm := fun v r => mkcmm v (cm_cons r).
#[export] Instance set_cm_cons : Setter cm_cons := fun v r => mkcmm (cm_mm r) v.

#[export] Instance embed_mm_cmm : Embed mm cmm := {|
  prj := cm_mm;
  inj := fun m s => s <| cm_mm := m |>;
|}.
#[export] Instance embed_mm_cmm_laws : EmbedLaws mm cmm.
Proof. by split; intros; try destruct t. Qed.
#[export] Instance embed_mach_cmm : Embed mach cmm := {|
  prj := fun s => mm_mach (cm_mm s);
  inj := fun m s => s <| cm_mm := cm_mm s <| mm_mach := m |> |>;
|}.
#[export] Instance embed_mach_cmm_laws : EmbedLaws mach cmm.
Proof. split; intros; try destruct t as [[]]; done. Qed.

Definition get_cons : M cmm cons := gets cm_cons.
Definition upd_cons (f : cons -> cons) : M cmm unit :=
  modify (fun s => s <| cm_cons := f (cm_cons s) |>).

(** ** The serial port *)

(** Waiting for the transmitter to be idle ends when the port has sent the
    previous byte. *)
Definition uartputc_sync (c : Z) : M cmm unit :=
  upd_cons (fun k => k <| tx := tx k ++ [u8 c] |>).

Fixpoint uart_wait (fuel : nat) : M cmm unit :=
  match fuel with
  | O => out_of_fuel
  | S fuel' =>
    k <- get_cons ;;
    if negb (tx_busy k =? 0) then lift (sleep ChTx LkTx) ;; uart_wait fuel'
    else ret tt
  end.
Definition uartwrite (buf : list Z) : M cmm unit :=
  lift (acquire LkTx) ;;
  mapM_ (fun c =>
    uart_wait wait_fuel ;;
    upd_cons (fun k => k <| tx := tx k ++ [u8 c] |>) ;;
    upd_cons (fun k => k <| tx_busy := 1 |>)) buf ;;
  lift (release LkTx).

Definition uartgetc : M cmm Z :=
  k <- get_cons ;;
  match rx k with
  | c :: l => upd_cons (fun k => k <| rx := l |>) ;; ret (u8 c)
  | [] => ret (-1)
  end.

(** ** Console output *)

Definition consputc (c : Z) : M cmm unit :=
  if c =? BACKSPACE then
    uartputc_sync 8 ;; uartputc_sync 32 ;; uartputc_sync 8
  else uartputc_sync c.

Fixpoint consolewrite_loop (fuel : nat) (src : source) (i n : Z) : M cmm Z :=
  match fuel with
  | O => out_of_fuel
  | S fuel' =>
    if i <? n then
      let nn := Z.min 32 (n - i) in
      '(r, buf) <- lift (either_copyin src (Z.to_nat nn)) ;;
      if r =? -1 then ret i
      else
        uartwrite buf ;;
        consolewrite_loop fuel' (source_add src nn) (i + nn) n
    else ret i
  end.
Definition consolewrite (src : source) (n : Z) : M cmm Z :=
  consolewrite_loop (S (Z.to_nat (n / 32 + 1))) src 0 n.

(** ** Console input *)

(** The inner loop of [consoleread]: [false] when the process was killed. *)
Fixpoint cons_wait (fuel : nat) : M cmm bool :=
  match fuel with
  | O => out_of_fuel
  | S fuel' =>
    k <- get_cons ;;
    if c_r k =? c_w k then
      i <- lift myproc ;;
      d <- lift (killed i) ;;
      if negb (d =? 0) then ret false
      else lift (sleep ChCons LkCons) ;; cons_wait fuel'
    else ret true
  end.

(** The outer loop; the result is [n] when it ends, [None] when killed. *)
Fixpoint consoleread_loop (fuel : nat) (dst : place) (n target : Z) : M cmm (option Z) :=
  match fuel with
  | O => out_of_fuel
  | S fuel' =>
    if 0 <? n then
      ok <- cons_wait wait_fuel ;;
      if negb ok then ret None
      else
        k <- get_cons ;;
        let c := c_buf k !!! Z.to_nat (c_r k mod INPUT_BUF_SIZE) in
        upd_cons (fun k => k <| c_r := u32 (c_r k + 1) |>) ;;
        if c =? Ctl 68 then
          when (u32 n <? target) (upd_cons (fun k => k <| c_r := u32 (c_r k - 1) |>)) ;;
          ret (Some n)
        else
          r <- lift (either_copyout dst [c]) ;;
          if r =? -1 then ret (Some n)
          else if c =? newline then ret (Some (n - 1))
          else consoleread_loop fuel' (place_add dst 1) (n - 1) target
    else ret (Some n)
  end.
Definition consoleread (dst : place) (n : Z) : M cmm Z :=
  let target := u32 n in
  lift (acquire LkCons) ;;
  r <- consoleread_loop (S (Z.to_nat n)) dst n target ;;
  lift (release LkCons) ;;
  match r with
  | None => ret (-1)
  | Some n => ret (s32 (target - n))
  end.

Definition state_name (st : procstate) : string :=
  match st with
  | UNUSED => "unused" | USED => "used" | SLEEPING => "sleep "
  | RUNNABLE => "runble" | RUNNING => "run   " | ZOMBIE => "zombie"
  end.
(** The characters of a name up to its nul. *)
Fixpoint name_string (l : list Z) : string :=
  match l with
  | [] => EmptyString
  | c :: l' => if c =? 0 then EmptyString
               else String (Ascii.ascii_of_N (Z.to_N c)) (name_string l')
  end.
(** [procdump] of [kernel/proc.c] *)
Definition procdump : M mach unit :=
  kprintf "" ;;
  m <- get ;;
  mapM_ (fun p =>
    if decide (p_state p = UNUSED) then ret tt
    else kprintf (pretty (p_pid p) +:+ " " +:+ state_name (p_state p) +:+ " " +:+
                  name_string (p_name p))) (procs m).

(** The loop of kill line. *)
Fixpoint kill_line (fuel : nat) : M cmm unit :=
  match fuel with
  | O => out_of_fuel
  | S fuel' =>
    k <- get_cons ;;
    if negb (c_e k =? c_w k) &&
       negb (c_buf k !!! Z.to_nat (u32 (c_e k - 1) mod INPUT_BUF_SIZE) =? newline) then
      upd_cons (fun k => k <| c_e := u32 (c_e k - 1) |>) ;;
      consputc BACKSPACE ;;
      kill_line fuel'
    else ret tt
  end.

Definition consoleintr (c : Z) : M cmm unit :=
  lift (acquire LkCons) ;;
  (if c =? Ctl 80 then lift procdump
   else if c =? Ctl 85 then kill_line (S (Z.to_nat INPUT_BUF_SIZE))
   else if (c =? Ctl 72) || (c =? 127) then
     k <- get_cons ;;
     when (negb (c_e k =? c_w k))
       (upd_cons (fun k => k <| c_e := u32 (c_e k - 1) |>) ;; consputc BACKSPACE)
   else
     k <- get_cons ;;
     when (negb (c =? 0) && (u32 (c_e k - c_r k) <? INPUT_BUF_SIZE))
       (let c := if c =? carriage_return then newline else c in
        consputc c ;;
        upd_cons (fun k => k <| c_buf := <[Z.to_nat (c_e k mod INPUT_BUF_SIZE) := u8 c]> (c_buf k) |>
                             <| c_e := u32 (c_e k + 1) |>) ;;
        k <- get_cons ;;
        when ((c =? newline) || (c =? Ctl 68) || (u32 (c_e k - c_r k) =? INPUT_BUF_SIZE))
          (upd_cons (fun k => k <| c_w := c_e k |>) ;;
           lift (wakeup ChCons)))) ;;
  lift (release LkCons).

(** The loop of [uartintr] over the characters received. *)
Fixpoint uartintr_loop (fuel : nat) : M cmm unit :=
  match fuel with
  | O => out_of_fuel
  | S fuel' =>
    c <- uartgetc ;;
    if c =? -1 then ret tt
    else consoleintr c ;; uartintr_loop fuel'
  end.
Definition uartintr : M cmm unit :=
  lift (acquire LkTx) ;;
  k <- get_cons ;;
  when (lsr_tx_idle k)
    (upd_cons (fun k => k <| tx_busy := 0 |>) ;; lift (wakeup ChTx)) ;;
  lift (release LkTx) ;;
  k <- get_cons ;;
  uartintr_loop (S (length (rx k))).

(** The console as the kernel starts with it. *)
Definition cons_boot : cons := mkcons (replicate (Z.to_nat INPUT_BUF_SIZE) 0) 0 0 0 0 true [] [].
Definition cmm_boot : cmm := mkcmm mm_boot cons_boot.
