(* ===== verification/Printf.v ===== *)
(** * Formatted output, [kernel/printf.c] and [user/printf.c]

    A format string is the list of its characters before the nul, a variable
    argument a machine word or a string.  Both [printf]s are modelled by the
    characters they hand to [consputc] or [putc], in order. *)

From stdpp Require Import base numbers strings decidable sets gmap functions list.
From S2P Require Import Prelude.
From S2P Require Import CString.
From S2P Require Import Riscv.
From S2P Require Import Sched.
From S2P Require Import Sleeplock.
From S2P Require Import Kalloc.
From S2P Require Import Console.
Open Scope Z_scope.
Open Scope xv6_scope.

(** Characters. *)
Definition ch_0 : Z := 48.
Definition ch_minus : Z := 45.
Definition ch_percent : Z := 37.
Definition ch_c : Z := 99.
Definition ch_d : Z := 100.
Definition ch_l : Z := 108.
Definition ch_p : Z := 112.
Definition ch_s : Z := 115.
Definition ch_u : Z := 117.
Definition ch_x : Z := 120.

(** The arrays [digits]: lower case in the kernel, upper case for users. *)
Definition kdigits (d : Z) : Z := if d <? 10 then ch_0 + d else 97 + (d - 10).
Definition udigits (d : Z) : Z := if d <? 10 then ch_0 + d else 65 + (d - 10).

(** The digits of [x], least significant first, as the loop stores them. *)
Fixpoint digit_loop (fuel : nat) (dig : Z -> Z) (x base : Z) : list Z :=
  match fuel with
  | O => []
  | S fuel' =>
    dig (x mod base) :: (if x / base =? 0 then [] else digit_loop fuel' dig (x / base) base)
  end.

(** The array [buf] of [printint], which has 20 elements: [None] when it
    overflows. *)
Definition fill_buf (dig : Z -> Z) (x base : Z) (neg : bool) : option (list Z) :=
  let buf := digit_loop 65 dig x base ++ (if neg then [ch_minus] else []) in
  if Nat.leb (length buf) 20 then Some buf else None.

(** [printint] of the kernel: the number is printed from [x], an [unsigned
    long long]. *)
Definition printint (xx base : Z) (sign : bool) : option (list Z) :=
  let neg := sign && (xx <? 0) in
  let x := u64 (if neg then - xx else xx) in
  reverse <$> fill_buf kdigits x base neg.
(** [printint] of the user library: [x] is a [uint]. *)
Definition uprintint (xx base : Z) (sgn : bool) : option (list Z) :=
  let neg := sgn && (xx <? 0) in
  let x := u32 (if neg then - xx else xx) in
  reverse <$> fill_buf udigits x base neg.

Fixpoint printptr_loop (n : nat) (dig : Z -> Z) (x : Z) : list Z :=
  match n with
  | O => []
  | S n' => dig (Z.shiftr x 60) :: printptr_loop n' dig (u64 (Z.shiftl x 4))
  end.
Definition printptr (dig : Z -> Z) (x : Z) : list Z := ch_0 :: ch_x :: printptr_loop 16 dig x.

(** ** Format strings *)

(** A variable argument: a word, or a pointer to a string. *)
Inductive varg : Set := VWord (w : Z) | VStr (s : option (list Z)).
Definition null_string : list Z := [40; 110; 117; 108; 108; 41].

(** What a conversion does with its argument. *)
Inductive conv : Set :=
| CInt (width : Z -> Z) (base : Z) (sign : bool)
| CPtr | CChar | CStr | CPercent
| CUnknown (c : Z).

(** The conversion at [c0 c1 c2], and how many characters it takes. *)
Definition conversion (c0 c1 c2 : Z) : conv * nat :=
  if c0 =? ch_d then (CInt s32 10 true, 1%nat)
  else if (c0 =? ch_l) && (c1 =? ch_d) then (CInt s64 10 true, 2%nat)
  else if (c0 =? ch_l) && (c1 =? ch_l) && (c2 =? ch_d) then (CInt s64 10 true, 3%nat)
  else if c0 =? ch_u then (CInt u32 10 false, 1%nat)
  else if (c0 =? ch_l) && (c1 =? ch_u) then (CInt s64 10 false, 2%nat)
  else if (c0 =? ch_l) && (c1 =? ch_l) && (c2 =? ch_u) then (CInt s64 10 false, 3%nat)
  else if c0 =? ch_x then (CInt u32 16 false, 1%nat)
  else if (c0 =? ch_l) && (c1 =? ch_x) then (CInt s64 16 false, 2%nat)
  else if (c0 =? ch_l) && (c1 =? ch_l) && (c2 =? ch_x) then (CInt s64 16 false, 3%nat)
  else if c0 =? ch_p then (CPtr, 1%nat)
  else if c0 =? ch_c then (CChar, 1%nat)
  else if c0 =? ch_s then (CStr, 1%nat)
  else if c0 =? ch_percent then (CPercent, 1%nat)
  else (CUnknown c0, 1%nat).

(** The characters a conversion prints, and the arguments left; [None] when
    an argument is missing or is not of the kind the conversion takes. *)
Definition convert (print : Z -> Z -> bool -> option (list Z)) (dig : Z -> Z) (c : conv)
    (args : list varg) : option (list Z * list varg) :=
  match c, args with
  | CInt width base sign, VWord w :: args' => (fun l => (l, args')) <$> print (width w) base sign
  | CPtr, VWord w :: args' => Some (printptr dig (u64 w), args')
  | CChar, VWord w :: args' => Some ([s32 w], args')
  | CStr, VStr (Some s) :: args' => Some (s, args')
  | CStr, VStr None :: args' => Some (null_string, args')
  | CPercent, _ => Some ([ch_percent], args)
  | CUnknown c, _ => Some ([ch_percent; c], args)
  | _, _ => None
  end.

(** The loop over the format string; each step takes a character at least. *)
Fixpoint format (fuel : nat) (print : Z -> Z -> bool -> option (list Z)) (dig : Z -> Z)
    (fmt : list Z) (args : list varg) : option (list Z) :=
  match fuel, fmt with
  | O, _ => None
  | S _, [] => Some []
  | S fuel', c :: fmt' =>
    if negb (c =? ch_percent) then (fun l => c :: l) <$> format fuel' print dig fmt' args
    else
      match fmt' with
      | [] => Some []
      | c0 :: _ =>
        let '(cv, n) := conversion c0 (nth 1 fmt' 0) (nth 2 fmt' 0) in
        match convert print dig cv args with
        | None => None
        | Some (l, args') => (fun l' => l ++ l') <$> format fuel' print dig (drop n fmt') args'
        end
      end
  end.

(** What the user library's [vprintf] writes. *)
Definition vprintf (fmt : list Z) (args : list varg) : option (list Z) :=
  (fun l : list Z => u8 <$> l) <$> format (S (length fmt)) uprintint udigits fmt args.

(** [printf] of the kernel, [panicking] being the variable it tests. *)
Definition printf (panicking : bool) (fmt : list Z) (args : list varg) : M cmm Z :=
  when (negb panicking) (lift (acquire LkPr)) ;;
  match format (S (length fmt)) printint kdigits fmt args with
  | None => undefined "printf arguments"
  | Some l =>
    mapM_ consputc l ;;
    when (negb panicking) (lift (release LkPr)) ;;
    ret 0
  end.

(** What [panic] prints before it stops. *)
Definition panic_prefix : list Z := [112; 97; 110; 105; 99; 58; 32].
Definition panic_message (s : list Z) : M cmm unit :=
  printf true panic_prefix [] ;;
  printf true [ch_percent; ch_s; newline] [VStr (Some s)] ;;
  ret tt.

(** ** Reading a number back *)

(** The value of a digit character in either array. *)
Definition digit_val (c : Z) : Z :=
  if c <? 58 then c - 48 else if c <? 97 then c - 55 else c - 87.
(** The number the characters denote, a sign allowed. *)
Definition digits_val (base : Z) (l : list Z) : Z := foldl (fun n c => n * base + digit_val c) 0 l.
Definition int_val (base : Z) (l : list Z) : Z :=
  match l with
  | c :: l' => if c =? ch_minus then - digits_val base l' else digits_val base l
  | [] => 0
  end.

(** A digit array: the value of each digit up to 15 can be read back, and none
    looks like a sign. *)
Definition digit_fun (dig : Z -> Z) : Prop :=
  forall d, 0 <= d < 16 -> digit_val (dig d) = d /\ dig d <> ch_minus.
Lemma kdigits_ok : digit_fun kdigits.
Proof.
  intros d Hd. unfold kdigits, digit_val, ch_0, ch_minus.
  destruct (Z.ltb_spec d 10); repeat case_match; lia.
Qed.
Lemma udigits_ok : digit_fun udigits.
Proof.
  intros d Hd. unfold udigits, digit_val, ch_0, ch_minus.
  destruct (Z.ltb_spec d 10); repeat case_match; lia.
Qed.

Section digits.
Context (dig : Z -> Z) (base : Z).
Hypothesis Hdig : digit_fun dig.
Hypothesis Hbase : 2 <= base <= 16.

Lemma digits_val_snoc l c : digits_val base (l ++ [c]) = digits_val base l * base + digit_val c.
Proof using. unfold digits_val. by rewrite foldl_app. Qed.

Lemma digit_loop_val fuel x :
  0 <= x < base ^ Z.of_nat fuel -> digits_val base (reverse (digit_loop fuel dig x base)) = x.
Proof using Hdig Hbase.
  revert x. induction fuel as [|fuel IH]; intros x Hx.
  { change (0 = x). simpl in Hx. lia. }
  pose proof (Z.mod_pos_bound x base ltac:(lia)). destruct (Hdig (x mod base)) as [Hv _]; [lia|].
  assert (D : x = base * (x / base) + x mod base) by (apply Z.div_mod; lia).
  cbn [digit_loop]. destruct (Z.eqb_spec (x / base) 0) as [E|E].
  - change (reverse [dig (x mod base)]) with ([] ++ [dig (x mod base)]).
    rewrite digits_val_snoc, Hv. change (digits_val base []) with 0. rewrite E in D. lia.
  - rewrite reverse_cons, digits_val_snoc, Hv, IH; [lia|].
    rewrite Nat2Z.inj_succ, Z.pow_succ_r in Hx by lia.
    split; [apply Z.div_pos; lia|apply Z.div_lt_upper_bound; lia].
Qed.

Lemma digit_loop_length fuel x k :
  (0 < k)%nat -> 0 <= x < base ^ Z.of_nat k -> (length (digit_loop fuel dig x base) <= k)%nat.
Proof using Hbase.
  revert x k. induction fuel as [|fuel IH]; intros x k Hk Hx; [simpl; lia|]. cbn [digit_loop].
  destruct (Z.eqb_spec (x / base) 0) as [E|E]; [simpl; lia|].
  destruct k as [|k]; [lia|]. rewrite Nat2Z.inj_succ, Z.pow_succ_r in Hx by lia.
  assert (x / base < base ^ Z.of_nat k) by (apply Z.div_lt_upper_bound; lia).
  destruct (decide (k = 0%nat)) as [->|]; [simpl in *; pose proof (Z.div_pos x base ltac:(lia) ltac:(lia)); lia|].
  simpl. apply le_n_S, IH; [lia|]. split; [apply Z.div_pos; lia|done].
Qed.

Lemma digit_loop_digits fuel x c : 0 <= x -> c ∈ digit_loop fuel dig x base -> c <> ch_minus.
Proof using Hdig Hbase.
  revert x. induction fuel as [|fuel IH]; intros x Hx Hc; [by apply elem_of_nil in Hc|].
  cbn [digit_loop] in Hc. apply elem_of_cons in Hc as [->|Hc].
  - apply Hdig. pose proof (Z.mod_pos_bound x base ltac:(lia)). lia.
  - destruct (x / base =? 0); [by apply elem_of_nil in Hc|].
    apply IH in Hc; [done|]. apply Z.div_pos; lia.
Qed.

(** What [printint] leaves in [buf], read from its end. *)
Lemma fill_buf_val x (neg : bool) :
  10 <= base -> 0 <= x < (if neg then 10 ^ 19 else 10 ^ 20) ->
  exists buf, fill_buf dig x base neg = Some buf /\
    int_val base (reverse buf) = if neg then - x else x.
Proof using Hdig Hbase.
  intros H10 Hx.
  assert (P : 0 <= x < base ^ (if neg then 19 else 20)).
  { split; [lia|]. eapply Z.lt_le_trans; [apply Hx|]. destruct neg; apply Z.pow_le_mono_l; lia. }
  assert (L : (length (digit_loop 65 dig x base) <= if neg then 19 else 20)%nat).
  { apply digit_loop_length; [destruct neg; lia|]. by destruct neg. }
  assert (V : digits_val base (reverse (digit_loop 65 dig x base)) = x).
  { apply digit_loop_val. split; [lia|]. eapply Z.lt_trans; [apply P|].
    apply Z.pow_lt_mono_r; destruct neg; lia. }
  pose proof (fun c => digit_loop_digits 65 x c) as Hm.
  unfold fill_buf. generalize dependent (digit_loop 65 dig x base). intros D L V Hm. eexists.
  rewrite leb_correct by (rewrite length_app; destruct neg; cbn [length]; lia).
  split; [done|]. destruct neg.
  - rewrite reverse_app. simpl. by rewrite V.
  - rewrite app_nil_r. unfold int_val. destruct (reverse D) as [|c l] eqn:E; [done|].
    rewrite (proj2 (Z.eqb_neq c _)); [done|].
    apply Hm; [lia|]. apply elem_of_reverse. rewrite E. by apply list_elem_of_here.
Qed.
End digits.

Lemma int_val_nil base : int_val base [] = 0.
Proof. done. Qed.

(** the kernel's [printint] prints the number it is given: for
    every [long long] and base 10 or 16, the digits fit into its buffer of 20
    characters, and read back they give the number (as an [unsigned long
    long] when it is printed unsigned). *)
Theorem printint_value xx base sign :
  - 2 ^ 63 <= xx < 2 ^ 63 -> base = 10 \/ base = 16 ->
  exists l, printint xx base sign = Some l /\ int_val base l = if sign then xx else u64 xx.
Proof.
  intros Hx Hb. unfold printint. pose proof (u64_range xx).
  set (neg := sign && (xx <? 0)).
  destruct (fill_buf_val kdigits base kdigits_ok ltac:(lia) (u64 (if neg then - xx else xx)) neg)
    as (buf & -> & V); [lia| |].
  { destruct neg eqn:E; [|pose proof (u64_range xx); lia].
    subst neg. apply andb_true_iff in E as [_ E%Z.ltb_lt]. rewrite u64_small by lia. lia. }
  eexists. split; [done|]. rewrite V. subst neg. destruct sign; simpl; [|done].
  destruct (Z.ltb_spec xx 0); rewrite u64_small by lia; lia.
Qed.
Lemma printint_value_witness :
  exists l, printint (- 2 ^ 63) 10 true = Some l /\ int_val 10 l = - 2 ^ 63.
Proof. apply (printint_value (- 2 ^ 63) 10 true); [lia|]. by left. Defined.

(** The user library's [printint] goes through a [uint]. *)
Lemma uprintint_value xx base sgn :
  - 2 ^ 63 <= xx < 2 ^ 63 -> base = 10 \/ base = 16 ->
  exists l, uprintint xx base sgn = Some l /\
    int_val base l = if sgn && (xx <? 0) then - u32 (- xx) else u32 xx.
Proof.
  intros Hx Hb. unfold uprintint.
  set (neg := sgn && (xx <? 0)).
  destruct (fill_buf_val udigits base udigits_ok ltac:(lia) (u32 (if neg then - xx else xx)) neg)
    as (buf & -> & V); [lia| |].
  { pose proof (u32_range (if neg then - xx else xx)). destruct neg; lia. }
  eexists. split; [done|]. rewrite V. by destruct neg.
Qed.

(** C39: the user library's [printf] keeps 32 bits only: two [%ld]
    arguments that agree in their low 32 bits and have the same sign are
    printed alike, so [2 ^ 32 + n] is printed as [n]; [%d] is not affected. *)
Theorem uprintint_truncates n :
  0 <= n < 2 ^ 32 ->
  uprintint (2 ^ 32 + n) 10 true = uprintint n 10 true /\
  exists l, uprintint (s32 n) 10 true = Some l /\ int_val 10 l = s32 n.
Proof.
  intros Hn. split.
  - unfold uprintint. rewrite !(proj2 (Z.ltb_ge _ 0)) by lia. cbn [andb].
    replace (u32 (2 ^ 32 + n)) with (u32 n); [done|].
    unfold u32. replace (2 ^ 32 + n) with (n + 1 * 2 ^ 32) by lia. by rewrite Z.mod_add.
  - pose proof (s32_range n).
    destruct (uprintint_value (s32 n) 10 true) as (l & -> & V); [lia|by left|].
    eexists. split; [done|]. rewrite V. simpl.
    destruct (Z.ltb_spec (s32 n) 0); rewrite u32_small by lia; lia.
Qed.
Lemma uprintint_truncates_witness :
  uprintint (2 ^ 32 + 7) 10 true = uprintint 7 10 true /\
  exists l, uprintint (s32 7) 10 true = Some l /\ int_val 10 l = s32 7.
Proof. apply uprintint_truncates. lia. Defined.

(** ** [atoi] reads what [printf] prints *)

Definition decimal (c : Z) : Prop := 48 <= c <= 57.

Lemma digits_grow n l :
  0 <= n -> Forall decimal l -> n <= foldl (fun n c => n * 10 + digit_val c) n l.
Proof.
  revert n. induction l as [|c l IH]; intros n Hn Hl; simpl; [lia|].
  apply Forall_cons in Hl as [Hc Hl]. unfold decimal in Hc.
  assert (digit_val c = c - 48) as E by (unfold digit_val; by rewrite (proj2 (Z.ltb_lt c 58)) by lia).
  rewrite E. specialize (IH (n * 10 + (c - 48)) ltac:(lia) Hl). lia.
Qed.

Lemma atoi_loop_digits l pre n fuel :
  0 <= n -> Forall decimal l -> foldl (fun n c => n * 10 + digit_val c) n l < 2 ^ 31 ->
  (length l < fuel)%nat ->
  atoi_loop fuel (length pre) (of_list (pre ++ l)) n =
    Some (foldl (fun n c => n * 10 + digit_val c) n l).
Proof.
  revert pre n fuel. induction l as [|c l IH]; intros pre n fuel Hn Hl Hb Hf;
    (destruct fuel as [|fuel]; [simpl in Hf; lia|]); cbn [atoi_loop].
  - unfold of_list. rewrite app_nil_r, nth_overflow by lia. done.
  - apply Forall_cons in Hl as [Hc Hl]. pose proof Hc as Hc'. unfold decimal in Hc.
    assert (of_list (pre ++ c :: l) (length pre) = c) as ->.
    { unfold of_list. by rewrite app_nth2, Nat.sub_diag by lia. }
    rewrite !(proj2 (Z.leb_le _ _)) by lia. cbn [andb].
    assert (digit_val c = c - 48) as E by (unfold digit_val; by rewrite (proj2 (Z.ltb_lt c 58)) by lia).
    cbn [foldl] in *. rewrite E in *.
    pose proof (digits_grow (n * 10 + (c - 48)) l ltac:(lia) Hl).
    rewrite s32_small by lia. replace (n * 10 + c - 48) with (n * 10 + (c - 48)) by lia.
    replace (S (length pre)) with (length (pre ++ [c])) by (rewrite length_app; simpl; lia).
    replace (pre ++ c :: l) with ((pre ++ [c]) ++ l) by (by rewrite <- (assoc_L (++))).
    apply IH; [lia|done|lia|simpl in Hf; lia].
Qed.

Lemma digit_loop_decimal fuel x : 0 <= x -> Forall decimal (digit_loop fuel udigits x 10).
Proof.
  revert x. induction fuel as [|fuel IH]; intros x Hx; [constructor|]. cbn [digit_loop].
  pose proof (Z.mod_pos_bound x 10 ltac:(lia)).
  constructor.
  - unfold decimal, udigits, ch_0. rewrite (proj2 (Z.ltb_lt _ 10)) by lia. lia.
  - destruct (x / 10 =? 0); [constructor|]. apply IH, Z.div_pos; lia.
Qed.

(** [atoi] inverts [%d] of the user library's [printf] on every
    non-negative [int]. *)
Theorem atoi_printint n fuel :
  0 <= n < 2 ^ 31 -> (20 < fuel)%nat ->
  exists l, uprintint n 10 true = Some l /\ atoi fuel (of_list l) = Some n.
Proof.
  intros Hn Hf. unfold uprintint. rewrite (proj2 (Z.ltb_ge n 0)) by lia. cbn [andb].
  rewrite u32_small by lia.
  pose proof (digit_loop_decimal 65 n ltac:(lia)) as Hd.
  pose proof (digit_loop_val udigits 10 udigits_ok ltac:(lia) 65 n) as Hv.
  pose proof (digit_loop_length udigits 10 ltac:(lia) 65 n 20 ltac:(lia) ltac:(lia)) as Hl.
  unfold fill_buf. generalize dependent (digit_loop 65 udigits n 10). intros D Hd Hv Hl.
  rewrite app_nil_r, leb_correct by done. eexists. split; [done|].
  unfold atoi. rewrite <- (app_nil_l (reverse D)).
  rewrite (atoi_loop_digits (reverse D) []); [f_equal; apply Hv; lia|lia|by apply Forall_reverse| |].
  - fold (digits_val 10 (reverse D)). rewrite Hv; lia.
  - rewrite length_reverse. lia.
Qed.
Lemma atoi_printint_witness :
  exists l, uprintint 1234 10 true = Some l /\ atoi 30 (of_list l) = Some 1234.
Proof. apply atoi_printint; lia. Defined.

(** ** Format strings

    A format string put together from literal characters and conversions
    prints the literals and what the conversions print. *)

Inductive kind : Set := KD | KLD | KLLD | KU | KLU | KLLU | KX | KLX | KLLX | KP | KC | KS.
Inductive piece : Set := Lit (c : Z) | Conv (k : kind) (a : varg).

Definition spec_chars (k : kind) : list Z :=
  match k with
  | KD => [ch_d] | KLD => [ch_l; ch_d] | KLLD => [ch_l; ch_l; ch_d]
  | KU => [ch_u] | KLU => [ch_l; ch_u] | KLLU => [ch_l; ch_l; ch_u]
  | KX => [ch_x] | KLX => [ch_l; ch_x] | KLLX => [ch_l; ch_l; ch_x]
  | KP => [ch_p] | KC => [ch_c] | KS => [ch_s]
  end.
Definition kind_conv (k : kind) : conv :=
  match k with
  | KD => CInt s32 10 true | KLD | KLLD => CInt s64 10 true
  | KU => CInt u32 10 false | KLU | KLLU => CInt s64 10 false
  | KX => CInt u32 16 false | KLX | KLLX => CInt s64 16 false
  | KP => CPtr | KC => CChar | KS => CStr
  end.
Definition piece_fmt (p : piece) : list Z :=
  match p with Lit c => [c] | Conv k _ => ch_percent :: spec_chars k end.
Definition piece_args (p : piece) : list varg :=
  match p with Lit _ => [] | Conv _ a => [a] end.
(** [l] is what the piece prints. *)
Definition piece_prints (print : Z -> Z -> bool -> option (list Z)) (dig : Z -> Z)
    (p : piece) (l : list Z) : Prop :=
  match p with
  | Lit c => c <> ch_percent /\ l = [c]
  | Conv k a => convert print dig (kind_conv k) [a] = Some (l, [])
  end.

Lemma convert_more print dig c a l args :
  convert print dig c [a] = Some (l, []) -> convert print dig c (a :: args) = Some (l, args).
Proof.
  unfold convert. destruct c, a; try done; simpl; try (by intros [= <-]).
  - destruct (print _ _ _); simpl; [|done]. by intros [= <-].
  - destruct s; by intros [= <-].
Qed.

Lemma conversion_spec k rest :
  exists c f, spec_chars k ++ rest = c :: f /\
    conversion c (nth 1 (c :: f) 0) (nth 2 (c :: f) 0) = (kind_conv k, length (spec_chars k)).
Proof. destruct k; eexists _, _; split; reflexivity. Qed.

Lemma format_pieces fuel print dig ps ls args :
  Forall2 (piece_prints print dig) ps ls -> (length ps < fuel)%nat ->
  format fuel print dig (concat (piece_fmt <$> ps)) (concat (piece_args <$> ps) ++ args) =
    Some (concat ls).
Proof.
  intros H. revert fuel. induction H as [|p l ps ls Hp _ IH]; intros fuel Hf;
    (destruct fuel as [|fuel]; [simpl in Hf; lia|]); [done|].
  rewrite !fmap_cons. cbn [concat]. destruct p as [c|k a]; cbn [piece_prints] in Hp.
  - destruct Hp as [Hc ->]. cbn [piece_fmt piece_args format app].
    rewrite (proj2 (Z.eqb_neq c _)) by done. cbn [negb].
    rewrite IH by (simpl in Hf; lia). done.
  - cbn [piece_fmt piece_args]. rewrite <- !app_comm_cons. cbn [format]. rewrite Z.eqb_refl. cbn [negb].
    destruct (conversion_spec k (concat (piece_fmt <$> ps))) as (c & f & E & Ec).
    rewrite E at 1. rewrite E in *. cbn [negb]. rewrite Ec.
    rewrite (convert_more _ _ _ _ _ _ Hp), <- E, drop_app_length, IH by (simpl in Hf; lia). done.
Qed.

Lemma consputc_all l s :
  Forall (fun c => c <> BACKSPACE) l ->
  mapM_ consputc l s = Ok tt (s <| cm_cons := cm_cons s <| tx := tx (cm_cons s) ++ (u8 <$> l) |> |>).
Proof.
  revert s. induction l as [|c l IH]; intros s Hl.
  - simpl. rewrite app_nil_r. by destruct s as [? []].
  - apply Forall_cons in Hl as [Hc Hl]. cbn [mapM_].
    erewrite bind_ok by (unfold consputc; rewrite (proj2 (Z.eqb_neq c _)) by done; done).
    rewrite IH by done. destruct s as [? []]. simpl. by rewrite <- (assoc_L (++)).
Qed.

Lemma length_pieces ps : (length ps <= length (concat (piece_fmt <$> ps)))%nat.
Proof.
  induction ps as [|p ps IH]; [simpl; lia|]. rewrite fmap_cons. cbn [concat length].
  rewrite length_app. destruct p; simpl; lia.
Qed.

(** the kernel's [printf] interprets its format string: a format
    put together from literal characters and conversions sends exactly the
    literals and the text of the converted arguments to the serial port, in
    order, and gives its lock back. *)
Theorem printf_prints s panicking ps ls :
  Forall2 (piece_prints printint kdigits) ps ls ->
  Forall (fun c => c <> BACKSPACE) (concat ls) ->
  LkPr ∉ held (prj s) ->
  printf panicking (concat (piece_fmt <$> ps)) (concat (piece_args <$> ps)) s =
    Ok 0 (s <| cm_cons := cm_cons s <| tx := tx (cm_cons s) ++ (u8 <$> concat ls) |> |>).
Proof.
  intros Hp Hb Hh. unfold printf.
  assert (format (S (length (concat (piece_fmt <$> ps)))) printint kdigits
            (concat (piece_fmt <$> ps)) (concat (piece_args <$> ps)) = Some (concat ls)) as ->.
  { rewrite <- (app_nil_r (concat (piece_args <$> ps))). apply format_pieces; [done|].
    pose proof (length_pieces ps). lia. }
  destruct panicking; cbn [negb when].
  - erewrite bind_ok by done. by erewrite bind_ok by (by apply consputc_all).
  - erewrite bind_ok by (by apply lift_ok, acquire_ok).
    erewrite bind_ok by (by apply consputc_all).
    erewrite bind_ok by (by apply lift_ok, release_ok).
    destruct s as [[[]] []]. done.
Qed.

(** [printf("n=%d %s", -7, "ok")] *)
Lemma printf_prints_witness :
  let ps := [Lit 110; Lit 61; Conv KD (VWord (-7)); Lit 32; Conv KS (VStr (Some [111; 107]))] in
  let ls := [[110]; [61]; [45; 55]; [32]; [111; 107]] in
  printf false (concat (piece_fmt <$> ps)) (concat (piece_args <$> ps)) cmm_boot =
    Ok 0 (cmm_boot <| cm_cons := cons_boot <| tx := tx cons_boot ++ (u8 <$> concat ls) |> |>).
Proof.
  intros ps ls. apply (printf_prints cmm_boot false ps ls).
  - repeat (constructor; [first [by split|reflexivity]|]). constructor.
  - repeat constructor; discriminate.
  - apply not_elem_of_nil.
Defined.
