(* ===== verification/Pipe.v ===== *)
(** * Pipes, [kernel/pipe.c]

    A pipe is identified by the address of the page that holds it.  Its
    contents, a ring buffer between a reader and a writer that sleep on its
    two counters, are kept in [pm_pipes] under that address. *)

From stdpp Require Import base numbers strings decidable sets gmap functions list.
From S2P Require Import Prelude.
From S2P Require Import CString.
From S2P Require Import Riscv.
From S2P Require Import Sched.
From S2P Require Import Sleeplock.
From S2P Require Import Kalloc.
From S2P Require Import Vm.
Open Scope Z_scope.
Open Scope xv6_scope.

Definition PIPESIZE : Z := 512.

Record pipe : Type := mkpipe {
  pi_data : list Z;
  pi_nread : Z;  (** number of bytes read *)
  pi_nwrite : Z;  (** number of bytes written *)
  pi_readopen : Z;  (** read fd is still open *)
  pi_writeopen : Z;  (** write fd is still open *)
}.
#[export] Instance set_pi_data : Setter pi_data := fun v r => mkpipe v (pi_nread r) (pi_nwrite r) (pi_readopen r) (pi_writeopen r).
#[export] Instance set_pi_nread : Setter pi_nread := fun v r => mkpipe (pi_data r) v (pi_nwrite r) (pi_readopen r) (pi_writeopen r).
#[export] Instance set_pi_nwrite : Setter pi_nwrite := fun v r => mkpipe (pi_data r) (pi_nread r) v (pi_readopen r) (pi_writeopen r).
#[export] Instance set_pi_readopen : Setter pi_readopen := fun v r => mkpipe (pi_data r) (pi_nread r) (pi_nwrite r) v (pi_writeopen r).
#[export] Instance set_pi_writeopen : Setter pi_writeopen := fun v r => mkpipe (pi_data r) (pi_nread r) (pi_nwrite r) (pi_readopen r) v.

Record pmm : Type := mkpmm {
  pm_mm : mm;
  pm_pipes : gmap Z pipe;
}.
#[export] Instance set_pm_mm : Setter pm_mm := fun v r => mkpmm v (pm_pipes r).
#[export] Instance set_pm_pipes : Setter pm_pipes := fun v r => mkpmm (pm_mm r) v.

#[export] Instance embed_mm_pmm : Embed mm pmm := {|
  prj := pm_mm;
  inj := fun m s => s <| pm_mm := m |>;
|}.
#[export] Instance embed_mm_pmm_laws : EmbedLaws mm pmm.
Proof. by split; intros; try destruct t. Qed.
#[export] Instance embed_mach_pmm : Embed mach pmm := {|
  prj := fun s => mm_mach (pm_mm s);
  inj := fun m s => s <| pm_mm := pm_mm s <| mm_mach := m |> |>;
|}.
#[export] Instance embed_mach_pmm_laws : EmbedLaws mach pmm.
Proof. split; intros; try destruct t as [[]]; done. Qed.

Definition get_pipe (a : Z) : M pmm pipe :=
  s <- get ;;
  match pm_pipes s !! a with Some pi => ret pi | None => undefined "not a pipe" end.
Definition upd_pipe (a : Z) (f : pipe -> pipe) : M pmm unit :=
  pi <- get_pipe a ;; modify (fun s => s <| pm_pipes := <[a := f pi]> (pm_pipes s) |>).

(** The stores of [pipealloc] into the new page; its other bytes are what
    [kalloc] left there. *)
Definition pipeinit (a : Z) : M pmm unit :=
  modify (fun s => s <| pm_pipes :=
    <[a := mkpipe (replicate (Z.to_nat PIPESIZE) 5) 0 0 1 1]> (pm_pipes s) |>).

Definition pipeclose (a : Z) (writable : bool) : M pmm unit :=
  lift (acquire (LkPipe a)) ;;
  (if writable then
     upd_pipe a (fun pi => pi <| pi_writeopen := 0 |>) ;;
     lift (wakeup (ChPipeRead a))
   else
     upd_pipe a (fun pi => pi <| pi_readopen := 0 |>) ;;
     lift (wakeup (ChPipeWrite a))) ;;
  pi <- get_pipe a ;;
  if (pi_readopen pi =? 0) && (pi_writeopen pi =? 0) then
    lift (release (LkPipe a)) ;;
    modify (fun s => s <| pm_pipes := delete a (pm_pipes s) |>) ;;
    lift (kfree a)
  else lift (release (LkPipe a)).

(** The loop of [pipewrite]: the number of bytes written, or [None] when it
    returns -1 because nobody will read.  An iteration writes a byte or
    waits. *)
Fixpoint pipewrite_loop (fuel : nat) (a addr i n : Z) (pr : nat) : M pmm (option Z) :=
  match fuel with
  | O => out_of_fuel
  | S fuel' =>
    if i <? n then
      pi <- get_pipe a ;;
      dead <- (if pi_readopen pi =? 0 then ret true
               else k <- lift (killed pr) ;; ret (negb (k =? 0))) ;;
      if dead : bool then ret None
      else if pi_nwrite pi =? u32 (pi_nread pi + PIPESIZE) then
        lift (wakeup (ChPipeRead a)) ;;
        lift (sleep (ChPipeWrite a) (LkPipe a)) ;;
        pipewrite_loop fuel' a addr i n pr
      else
        p <- lift (get_proc pr) ;;
        '(r, ch) <- lift (copyin (p_pagetable p) (u64 (addr + i)) 1) ;;
        if r =? -1 then ret (Some i)
        else
          upd_pipe a (fun pi =>
            pi <| pi_data := <[Z.to_nat (pi_nwrite pi mod PIPESIZE) := ch !!! 0%nat]> (pi_data pi) |>
               <| pi_nwrite := u32 (pi_nwrite pi + 1) |>) ;;
          pipewrite_loop fuel' a addr (i + 1) n pr
    else ret (Some i)
  end.

Definition pipewrite (a addr n : Z) : M pmm Z :=
  pr <- lift myproc ;;
  lift (acquire (LkPipe a)) ;;
  r <- pipewrite_loop (S (Z.to_nat n + wait_fuel)) a addr 0 n pr ;;
  match r with
  | None => lift (release (LkPipe a)) ;; ret (-1)
  | Some i =>
    lift (wakeup (ChPipeRead a)) ;;
    lift (release (LkPipe a)) ;;
    ret i
  end.

(** The first loop of [piperead]: [false] when the process was killed. *)
Fixpoint piperead_wait (fuel : nat) (a : Z) (pr : nat) : M pmm bool :=
  match fuel with
  | O => out_of_fuel
  | S fuel' =>
    pi <- get_pipe a ;;
    if (pi_nread pi =? pi_nwrite pi) && negb (pi_writeopen pi =? 0) then
      k <- lift (killed pr) ;;
      if negb (k =? 0) then ret false
      else
        lift (sleep (ChPipeRead a) (LkPipe a)) ;;
        piperead_wait fuel' a pr
    else ret true
  end.

(** The copying loop of [piperead]. *)
Fixpoint piperead_loop (fuel : nat) (a addr i n : Z) (pr : nat) : M pmm Z :=
  match fuel with
  | O => out_of_fuel
  | S fuel' =>
    if i <? n then
      pi <- get_pipe a ;;
      if pi_nread pi =? pi_nwrite pi then ret i
      else
        let ch := pi_data pi !!! Z.to_nat (pi_nread pi mod PIPESIZE) in
        upd_pipe a (fun pi => pi <| pi_nread := u32 (pi_nread pi + 1) |>) ;;
        p <- lift (get_proc pr) ;;
        r <- lift (copyout (p_pagetable p) (u64 (addr + i)) [ch]) ;;
        if r =? -1 then ret i
        else piperead_loop fuel' a addr (i + 1) n pr
    else ret i
  end.

Definition piperead (a addr n : Z) : M pmm Z :=
  pr <- lift myproc ;;
  lift (acquire (LkPipe a)) ;;
  ok <- piperead_wait wait_fuel a pr ;;
  if negb ok then lift (release (LkPipe a)) ;; ret (-1)
  else
    i <- piperead_loop (S (Z.to_nat n)) a addr 0 n pr ;;
    lift (wakeup (ChPipeWrite a)) ;;
    lift (release (LkPipe a)) ;;
    ret i.
