(* ===== verification/PipeSpec.v ===== *)
(** * Pipes deliver bytes in order

    The ring buffer of a pipe is a queue of at most [PIPESIZE] bytes
    ([pipeq]); [pipewrite] appends bytes of the writer's memory to it and
    [piperead] moves its first bytes into the reader's. *)

From stdpp Require Import base numbers strings decidable sets gmap functions list.
From S2P Require Import Prelude.
From S2P Require Import CString.
From S2P Require Import Ring.
From S2P Require Import Riscv.
From S2P Require Import Sched.
From S2P Require Import Sleeplock.
From S2P Require Import Kalloc.
From S2P Require Import Vm.
From S2P Require Import VmInv.
From S2P Require Import Uvm.
From S2P Require Import VmCopy.
From S2P Require Import UserByte.
From S2P Require Import Pipe.
Open Scope Z_scope.
Open Scope xv6_scope.

(** The pipe holds the bytes [q]. *)
Definition pipeq (pi : pipe) (q : list Z) : Prop :=
  ringq PIPESIZE (pi_data pi) (pi_nread pi) (pi_nwrite pi) q.

Lemma PIPESIZE_pos : 0 < PIPESIZE < 2 ^ 32.
Proof. unfold PIPESIZE. lia. Qed.
Lemma PIPESIZE_div : (PIPESIZE | 2 ^ 32).
Proof. by exists 8388608. Qed.
#[local] Hint Resolve PIPESIZE_pos PIPESIZE_div : core.

(** What the loops do to the counters. *)
Definition pushed (c : Z) (pi : pipe) : pipe :=
  pi <| pi_data := <[Z.to_nat (pi_nwrite pi mod PIPESIZE) := c]> (pi_data pi) |>
     <| pi_nwrite := u32 (pi_nwrite pi + 1) |>.
Definition popped (pi : pipe) : pipe := pi <| pi_nread := u32 (pi_nread pi + 1) |>.

Lemma pipeq_push pi q c :
  pipeq pi q -> Z.of_nat (length q) < PIPESIZE -> pipeq (pushed c pi) (q ++ [c]).
Proof. intros. by apply ringq_push. Qed.
Lemma pipeq_pop pi c q :
  pipeq pi (c :: q) ->
  pi_data pi !!! Z.to_nat (pi_nread pi mod PIPESIZE) = c /\ pipeq (popped pi) q.
Proof. intros. by apply ringq_pop. Qed.

Lemma pipeq_full pi q :
  pipeq pi q ->
  (pi_nwrite pi =? u32 (pi_nread pi + PIPESIZE)) = bool_decide (Z.of_nat (length q) = PIPESIZE).
Proof. by apply ringq_full. Qed.
Lemma pipeq_empty pi q : pipeq pi q -> (pi_nread pi =? pi_nwrite pi) = bool_decide (q = []).
Proof. by apply ringq_empty. Qed.

(** ** A process using a pipe

    Process [pr] runs with memory [V], and the pipe at [a] is [pi]; [h] are
    the spin locks held. *)
Record uses_pipe (s : pmm) (a : Z) (pi : pipe) (pr : nat) (root sz : Z) (F : leaves) (O : gset Z)
    (V : Z -> Z) (R W : Z -> Prop) (h : list lockid) : Prop := {
  pu_ctx : uctx (pm_mm s) pr root sz F O V R W h;
  pu_pipe : pm_pipes s !! a = Some pi;
}.

(** The machine apart from the locks, and the other pipes, are as before. *)
Definition pframe (a : Z) (s s' : pmm) : Prop :=
  mm_mach (pm_mm s') = mm_mach (pm_mm s) /\
  forall a', a' <> a -> pm_pipes s' !! a' = pm_pipes s !! a'.

Section pipe.
Context (a : Z) (pr : nat) (root sz : Z) (F : leaves) (O : gset Z) (R W : Z -> Prop).
Notation "'inuse' s pi V h" := (uses_pipe s a pi pr root sz F O V R W h)
  (at level 10, s, pi, V, h at level 9).

Lemma killed_no s pi V h : inuse s pi V h -> lift (killed pr) s = Ok 0 s.
Proof using. intros [Hx _]. apply lift_read. by eapply uctx_killed. Qed.

Lemma get_pipe_ok s pi V h : inuse s pi V h -> get_pipe a s = Ok pi s.
Proof using. intros H. unfold get_pipe, bind, get. simpl. by rewrite (pu_pipe _ _ _ _ _ _ _ _ _ _ _ _ H). Qed.

Lemma upd_pipe_ok s pi V h f :
  inuse s pi V h -> upd_pipe a f s = Ok tt (s <| pm_pipes := <[a := f pi]> (pm_pipes s) |>).
Proof using. intros H. unfold upd_pipe. by erewrite bind_ok by (by eapply get_pipe_ok). Qed.

(** Changing the pipe, and changing the memory. *)
Lemma inuse_pipe s pi pi' V h :
  inuse s pi V h -> inuse (s <| pm_pipes := <[a := pi']> (pm_pipes s) |>) pi' V h.
Proof using. intros []. split; try done. apply lookup_insert_eq. Qed.
Lemma inuse_mm s pi V V' h m :
  inuse s pi V h -> mframe O (pm_mm s) m -> uspace m root sz F O V' R W ->
  inuse (s <| pm_mm := m |>) pi V' h.
Proof using. intros [] Fm Hs. split; [|done]. by eapply uctx_mm. Qed.

Lemma pframe_refl s : pframe a s s.
Proof using. done. Qed.
Lemma pframe_trans s1 s2 s3 : pframe a s1 s2 -> pframe a s2 s3 -> pframe a s1 s3.
Proof using. intros [M1 P1] [M2 P2]. split; [congruence|]. intros. by rewrite P2, P1. Qed.
Lemma pframe_mm s m : mframe O (pm_mm s) m -> pframe a s (s <| pm_mm := m |>).
Proof using. intros [E _]. by split. Qed.
Lemma pframe_pipe s pi : pframe a s (s <| pm_pipes := <[a := pi]> (pm_pipes s) |>).
Proof using. split; [done|]. intros a' Hne. simpl. by rewrite lookup_insert_ne. Qed.

Lemma the_proc s pi V h :
  inuse s pi V h -> exists p, lift (get_proc pr) s = Ok p s /\ p_pagetable p = root.
Proof using.
  intros [H _]. destruct (ux_cur _ _ _ _ _ _ _ _ _ _ H) as (p & _ & Hp & ? & _).
  exists p. split; [|done]. by apply lift_read, get_proc_ok.
Qed.

(** The loop of [pipewrite], with room for all it has to write. *)
Lemma pipewrite_loop_ok fuel s pi V h q addr i n :
  inuse s pi V h -> pipeq pi q -> pi_readopen pi <> 0 ->
  0 <= i <= n -> n - i <= PIPESIZE - Z.of_nat (length q) ->
  (forall j, 0 <= j < n -> uva (addr + j)) -> (Z.to_nat (n - i) < fuel)%nat ->
  exists k s' pi', pipewrite_loop fuel a addr i n pr s = Ok (Some k) s' /\ i <= k <= n /\
    inuse s' pi' V h /\ pframe a s s' /\
    pipeq pi' (q ++ read_bytes V (addr + i) (Z.to_nat (k - i))) /\
    pi_readopen pi' = pi_readopen pi /\ pi_writeopen pi' = pi_writeopen pi /\
    (k < n -> ~ R (addr + k)).
Proof using.
  revert s pi q i. induction fuel as [|fuel IH]; intros s pi q i Hu Hq Hro Hi Hn Ha Hf; [lia|].
  cbn [pipewrite_loop]. destruct (Z.ltb_spec i n) as [Hlt|Hge].
  2: { exists i, s, pi. replace (i - i) with 0 by lia. simpl. rewrite app_nil_r.
       split_and!; try done; lia. }
  erewrite bind_ok by (by eapply get_pipe_ok). rewrite (proj2 (Z.eqb_neq _ 0)) by done.
  erewrite bind_ok by (cbv iota; erewrite bind_ok by (by eapply killed_no); done).
  change (negb (0 =? 0)) with false. cbv beta iota.
  rewrite (pipeq_full pi q) by done.
  rewrite bool_decide_false by lia.
  destruct (the_proc _ _ _ _ Hu) as (p & Ep & Hroot). erewrite bind_ok by exact Ep. rewrite Hroot.
  assert (Hva : uva (addr + i)) by (apply Ha; lia).
  rewrite u64_small by (unfold uva in Hva; pglia).
  destruct (get_byte root sz F O R W (pm_mm s) V (addr + i)) as (r & bs & m & Eb & Fm & Sm & Hr);
    [apply Hu|done|].
  erewrite bind_ok by (apply lift_ok; exact Eb). cbn beta iota.
  pose proof (inuse_mm _ _ _ _ _ _ Hu Fm Sm) as Hu1.
  destruct Hr as [[-> ->]|[-> Hr]].
  2: { exists i, (s <| pm_mm := m |>), pi. replace (i - i) with 0 by lia. simpl. rewrite app_nil_r.
       split_and!; try done; try lia. by apply pframe_mm. }
  cbn [Z.eqb]. change ([V (addr + i)] !!! 0%nat) with (V (addr + i)).
  erewrite bind_ok by (by eapply upd_pipe_ok).
  pose proof (inuse_pipe _ _ (pushed (V (addr + i)) pi) _ _ Hu1) as Hu2.
  destruct (IH _ _ (q ++ [V (addr + i)]) (i + 1) Hu2) as (k & s' & pi' & E & Hk & Hu' & Hf' & Hq' & HR);
    [by apply pipeq_push; [|lia]|done|lia|rewrite length_app; simpl; lia|done|lia|].
  exists k, s', pi'. split; [exact E|]. split_and!; try lia; try done; try apply HR.
  - eapply pframe_trans; [by apply pframe_mm|]. eapply pframe_trans; [apply pframe_pipe|exact Hf'].
  - replace (Z.to_nat (k - i)) with (S (Z.to_nat (k - (i + 1)))) by lia.
    rewrite (read_bytes_app V (addr + i) 1). replace (addr + i + Z.of_nat 1) with (addr + (i + 1)) by lia.
    rewrite <- (assoc_L (++)) in Hq'. unfold read_bytes at 1. simpl. by rewrite Z.add_0_r.
Qed.

(** Taking the pipe's lock, and the end of both operations. *)
Lemma enter s pi V h :
  inuse s pi V h -> LkPipe a ∉ h ->
  exists s1, lift (acquire (LkPipe a)) s = Ok tt s1 /\ inuse s1 pi V (LkPipe a :: h) /\
    mm_mach (pm_mm s1) = mm_mach (pm_mm s) <| held := LkPipe a :: h |> /\ pm_pipes s1 = pm_pipes s.
Proof using.
  intros [Hx Hp] Hl. destruct (uctx_acquire _ _ _ _ _ _ _ _ _ _ (LkPipe a) Hx) as [E Hx1]; try done.
  eexists. split; [by apply lift_ok|]. by split.
Qed.

Lemma leave {A} (r : A) ch s pi V h :
  inuse s pi V (LkPipe a :: h) ->
  exists s2, (lift (wakeup ch) ;; lift (release (LkPipe a)) ;; ret r) s = Ok r s2 /\ inuse s2 pi V h /\
    mm_mach (pm_mm s2) = wake ch (mm_mach (pm_mm s) <| held := h |>) /\ pm_pipes s2 = pm_pipes s.
Proof using.
  intros [Hx Hp]. destruct (uctx_wake _ _ _ _ _ _ _ _ _ _ ch Hx) as [E1 Hx1].
  destruct (uctx_release _ _ _ _ _ _ _ _ _ _ _ Hx1) as [E2 Hx2]. eexists. split.
  { erewrite bind_ok by (by apply lift_ok). erewrite bind_ok by (by apply lift_ok). done. }
  split; [by split|done].
Qed.

(** What a read of [k] bytes out of the queue [q] leaves: the rest, or the
    rest without the byte that could not be delivered. *)
Definition left_over (q : list Z) (addr k n : Z) (q' : list Z) : Prop :=
  ((k = n \/ Z.of_nat (length q) = k) /\ q' = drop (Z.to_nat k) q) \/
  (k < n /\ k < Z.of_nat (length q) /\ ~ W (addr + k) /\ q' = drop (Z.to_nat k + 1) q).

(** The copying loop of [piperead]. *)
Lemma piperead_loop_ok fuel s pi V h q addr i n :
  inuse s pi V h -> pipeq pi q -> 0 <= i <= n ->
  (forall j, 0 <= j < n -> uva (addr + j)) -> (Z.to_nat (n - i) < fuel)%nat ->
  exists k s' pi' q', piperead_loop fuel a addr i n pr s = Ok k s' /\ i <= k <= n /\
    k - i <= Z.of_nat (length q) /\
    inuse s' pi' (write_bytes V (addr + i) (take (Z.to_nat (k - i)) q)) h /\ pframe a s s' /\
    pipeq pi' q' /\ left_over q (addr + i) (k - i) (n - i) q' /\
    pi_readopen pi' = pi_readopen pi /\ pi_writeopen pi' = pi_writeopen pi.
Proof using.
  revert s pi V q i. induction fuel as [|fuel IH]; intros s pi V q i Hu Hq Hi Ha Hf; [lia|].
  assert (Stop : forall s' pi' q', inuse s' pi' V h -> pframe a s s' -> pipeq pi' q' ->
    left_over q (addr + i) 0 (n - i) q' ->
    pi_readopen pi' = pi_readopen pi -> pi_writeopen pi' = pi_writeopen pi ->
    exists k s'' pi'' q'', (ret i : M pmm Z) s' = Ok k s'' /\ i <= k <= n /\
      k - i <= Z.of_nat (length q) /\
      inuse s'' pi'' (write_bytes V (addr + i) (take (Z.to_nat (k - i)) q)) h /\ pframe a s s'' /\
      pipeq pi'' q'' /\ left_over q (addr + i) (k - i) (n - i) q'' /\
      pi_readopen pi'' = pi_readopen pi /\ pi_writeopen pi'' = pi_writeopen pi).
  { intros s' pi' q' ? ? ? ? ? ?. exists i, s', pi', q'. rewrite Z.sub_diag. split_and!; try done; lia. }
  cbn [piperead_loop]. destruct (Z.ltb_spec i n) as [Hlt|Hge].
  2: { apply (Stop s pi q); try done. left. split; [left; lia|done]. }
  erewrite bind_ok by (by eapply get_pipe_ok). rewrite (pipeq_empty pi q) by done.
  destruct q as [|c q].
  { rewrite bool_decide_true by done. apply (Stop s pi []); try done. left. split; [by right|done]. }
  rewrite bool_decide_false by done. cbv zeta.
  destruct (pipeq_pop _ _ _ Hq) as [-> Hq1].
  erewrite bind_ok by (by eapply upd_pipe_ok).
  pose proof (inuse_pipe _ _ (popped pi) _ _ Hu) as Hu1.
  destruct (the_proc _ _ _ _ Hu1) as (p & Ep & Hroot). erewrite bind_ok by exact Ep. rewrite Hroot.
  assert (Hva : uva (addr + i)) by (apply Ha; lia).
  rewrite u64_small by (unfold uva in Hva; pglia).
  set (s1 := s <| pm_pipes := _ |>) in *.
  destruct (put_byte root sz F O R W (pm_mm s1) V (addr + i) c) as (r & m & Eb & Fm & Hr);
    [apply Hu1|done|].
  erewrite bind_ok by (apply lift_ok; exact Eb).
  assert (Fr : pframe a s (s1 <| pm_mm := m |>)).
  { eapply pframe_trans; [apply pframe_pipe|by apply pframe_mm]. }
  destruct Hr as [[-> Sm]|(-> & Hw & Sm)]; cbn [Z.eqb].
  2: { change (-1 =? -1) with true. cbv iota.
       eapply Stop; [by eapply inuse_mm|done|exact Hq1| |done|done].
       right. rewrite Z.add_0_r. split_and!; try done; simpl; lia. }
  destruct (IH (s1 <| pm_mm := m |>) (popped pi) (<[addr + i := c]> V) q (i + 1))
    as (k & s' & pi' & q' & E & Hk & Hl & Hu' & Hf' & Hq' & HL & HO);
    [by eapply inuse_mm|done|lia|done|lia|].
  exists k, s', pi', q'. split; [exact E|].
  replace (Z.to_nat (k - i)) with (S (Z.to_nat (k - (i + 1)))) by lia.
  split_and!; try lia; try done; try apply HO; [simpl; lia| |by eapply pframe_trans|].
  - simpl. by replace (addr + i + 1) with (addr + (i + 1)) by lia.
  - destruct HL as [[H ->]|(H1 & H2 & H3 & ->)]; [left|right].
    + split; [simpl; lia|]. by replace (Z.to_nat (k - i)) with (S (Z.to_nat (k - (i + 1)))) by lia.
    + split_and!; [lia|simpl; lia|by replace (addr + i + (k - i)) with (addr + (i + 1) + (k - (i + 1))) by lia|].
      by replace (Z.to_nat (k - i) + 1)%nat with (S (Z.to_nat (k - (i + 1)) + 1)) by lia.
Qed.
End pipe.

(** ** The operations *)

Lemma wake_held ch m h : wake ch (m <| held := h |>) = wake ch m <| held := h |>.
Proof. done. Qed.
Lemma set_held_same m h : held m = h -> m <| held := h |> = m.
Proof. intros <-. by destruct m. Qed.

Lemma pipewrite_ok s a pi pr root sz F O V R W h q addr n :
  uses_pipe s a pi pr root sz F O V R W h -> LkPipe a ∉ h ->
  pipeq pi q -> pi_readopen pi <> 0 -> 0 <= n <= PIPESIZE - Z.of_nat (length q) ->
  (forall j, 0 <= j < n -> uva (addr + j)) ->
  exists k s' pi', pipewrite a addr n s = Ok k s' /\ 0 <= k <= n /\
    uses_pipe s' a pi' pr root sz F O V R W h /\
    pipeq pi' (q ++ read_bytes V addr (Z.to_nat k)) /\ (k < n -> ~ R (addr + k)) /\
    mm_mach (pm_mm s') = wake (ChPipeRead a) (mm_mach (pm_mm s)) /\
    (forall a', a' <> a -> pm_pipes s' !! a' = pm_pipes s !! a').
Proof.
  intros Hu Hl Hq Hro Hn Ha. unfold pipewrite.
  destruct (ux_cur _ _ _ _ _ _ _ _ _ _ (pu_ctx _ _ _ _ _ _ _ _ _ _ _ _ Hu)) as (p & Hc & _).
  erewrite bind_ok by (by apply lift_read, myproc_ok).
  destruct (enter _ _ _ _ _ _ _ _ _ _ _ _ Hu Hl) as (s1 & E1 & Hu1 & M1 & P1).
  erewrite bind_ok by exact E1.
  destruct (pipewrite_loop_ok a pr root sz F O R W (S (Z.to_nat n + wait_fuel)) s1 pi V _ q addr 0 n Hu1)
    as (k & s2 & pi' & E2 & Hk & Hu2 & F2 & Hq2 & _ & _ & HR); [done|done|lia|lia|done|lia|].
  erewrite bind_ok by exact E2.
  destruct (leave a pr root sz F O R W k (ChPipeRead a) s2 pi' V h Hu2) as (s3 & E3 & Hu3 & M3 & P3).
  exists k, s3, pi'. split; [exact E3|]. rewrite Z.add_0_r, Z.sub_0_r in Hq2. split_and!; try done; try lia.
  - rewrite M3, (proj1 F2), M1. f_equal. rewrite <- (ux_held _ _ _ _ _ _ _ _ _ _ (pu_ctx _ _ _ _ _ _ _ _ _ _ _ _ Hu)).
    by destruct (mm_mach (pm_mm s)).
  - intros a' Hne. by rewrite P3, (proj2 F2), P1.
Qed.

Lemma piperead_ready s a pi pr root sz F O V R W h q fuel :
  uses_pipe s a pi pr root sz F O V R W h -> pipeq pi q -> q <> [] \/ pi_writeopen pi = 0 ->
  piperead_wait (S fuel) a pr s = Ok true s.
Proof.
  intros Hu Hq Hr. cbn [piperead_wait]. erewrite bind_ok by (by eapply get_pipe_ok).
  rewrite (pipeq_empty pi q) by done. destruct Hr as [Hr| ->].
  - by rewrite bool_decide_false.
  - simpl. by rewrite andb_false_r.
Qed.

(** [piperead] once it holds the lock. *)
Definition piperead_locked (fuel : nat) (a addr n : Z) (pr : nat) : M pmm Z :=
  ok <- piperead_wait fuel a pr ;;
  if negb ok then lift (release (LkPipe a)) ;; ret (-1)
  else
    i <- piperead_loop (S (Z.to_nat n)) a addr 0 n pr ;;
    lift (wakeup (ChPipeWrite a)) ;;
    lift (release (LkPipe a)) ;;
    ret i.
Lemma piperead_unfold a addr n :
  piperead a addr n =
    (pr <- lift myproc ;; lift (acquire (LkPipe a)) ;; piperead_locked wait_fuel a addr n pr).
Proof. done. Qed.

(** What a read that returns has done. *)
Definition read_done (a : Z) (pr : nat) (root sz : Z) (F : leaves) (O : gset Z) (V : Z -> Z)
    (R W : Z -> Prop) (h : list lockid) (q : list Z) (addr n k : Z) (s' : pmm) : Prop :=
  0 <= k <= n /\ k <= Z.of_nat (length q) /\
  exists pi' q', uses_pipe s' a pi' pr root sz F O (write_bytes V addr (take (Z.to_nat k) q)) R W h /\
    pipeq pi' q' /\ left_over W q addr k n q'.

Lemma piperead_locked_ok s a pi pr root sz F O V R W h q addr n fuel :
  uses_pipe s a pi pr root sz F O V R W (LkPipe a :: h) ->
  pipeq pi q -> q <> [] \/ pi_writeopen pi = 0 -> 0 <= n ->
  (forall j, 0 <= j < n -> uva (addr + j)) ->
  exists k s', piperead_locked (S fuel) a addr n pr s = Ok k s' /\
    read_done a pr root sz F O V R W h q addr n k s' /\
    mm_mach (pm_mm s') = wake (ChPipeWrite a) (mm_mach (pm_mm s) <| held := h |>).
Proof.
  intros Hu Hq Hr Hn Ha. unfold piperead_locked.
  erewrite bind_ok by (by eapply piperead_ready). cbn [negb].
  destruct (piperead_loop_ok a pr root sz F O R W (S (Z.to_nat n)) s pi V _ q addr 0 n Hu)
    as (k & s2 & pi' & q' & E2 & Hk & Hkq & Hu2 & F2 & Hq2 & HL & _); [done|lia|done|lia|].
  rewrite Z.add_0_r, !Z.sub_0_r in *. erewrite bind_ok by exact E2.
  destruct (leave a pr root sz F O R W k (ChPipeWrite a) s2 pi' _ h Hu2) as (s3 & E3 & Hu3 & M3 & P3).
  exists k, s3. split; [exact E3|]. split; [|by rewrite M3, (proj1 F2)].
  split_and!; try done; try lia. by exists pi', q'.
Qed.

(** C26: writing to a pipe with room appends: [pipewrite] returns how
    many bytes it took, these are now behind those the pipe held, it stops
    early only at an address the process cannot read, and every process
    sleeping for data has been woken.  The process's memory is unchanged. *)
Theorem pipewrite_appends s a pi pr root sz F O V R W h q addr n :
  uses_pipe s a pi pr root sz F O V R W h -> LkPipe a ∉ h ->
  pipeq pi q -> pi_readopen pi <> 0 -> 0 <= n <= PIPESIZE - Z.of_nat (length q) ->
  (forall j, 0 <= j < n -> uva (addr + j)) ->
  exists k s' pi', pipewrite a addr n s = Ok k s' /\ 0 <= k <= n /\
    uses_pipe s' a pi' pr root sz F O V R W h /\
    pipeq pi' (q ++ read_bytes V addr (Z.to_nat k)) /\ (k < n -> ~ R (addr + k)) /\
    mm_mach (pm_mm s') = wake (ChPipeRead a) (mm_mach (pm_mm s)) /\
    (forall a', a' <> a -> pm_pipes s' !! a' = pm_pipes s !! a').
Proof. apply pipewrite_ok. Qed.

(** C27: reading takes the oldest bytes: if the pipe holds bytes or has
    no writer left, [piperead] returns [k], the first [k] bytes of the queue
    are stored at the user's address in their order, and the queue goes on
    behind them; [k] is all that was asked for or all there was, unless the
    process cannot write at [addr + k], and then the next byte is dropped.
    Writers waiting for room have been woken. *)
Theorem piperead_takes s a pi pr root sz F O V R W h q addr n :
  uses_pipe s a pi pr root sz F O V R W h -> LkPipe a ∉ h ->
  pipeq pi q -> q <> [] \/ pi_writeopen pi = 0 -> 0 <= n ->
  (forall j, 0 <= j < n -> uva (addr + j)) ->
  exists k s', piperead a addr n s = Ok k s' /\
    read_done a pr root sz F O V R W h q addr n k s' /\
    mm_mach (pm_mm s') = wake (ChPipeWrite a) (mm_mach (pm_mm s)).
Proof.
  intros Hu Hl Hq Hr Hn Ha. rewrite piperead_unfold.
  destruct (ux_cur _ _ _ _ _ _ _ _ _ _ (pu_ctx _ _ _ _ _ _ _ _ _ _ _ _ Hu)) as (p & Hc & _).
  erewrite bind_ok by (by apply lift_read, myproc_ok).
  destruct (enter _ _ _ _ _ _ _ _ _ _ _ _ Hu Hl) as (s1 & E1 & Hu1 & M1 & P1).
  erewrite bind_ok by exact E1.
  destruct (piperead_locked_ok s1 a pi pr root sz F O V R W h q addr n (pred wait_fuel) Hu1)
    as (k & s2 & E2 & D2 & M2); try done.
  exists k, s2. split_and!; [exact E2|done|]. rewrite M2, M1. f_equal.
  rewrite <- (ux_held _ _ _ _ _ _ _ _ _ _ (pu_ctx _ _ _ _ _ _ _ _ _ _ _ _ Hu)). by destruct (mm_mach (pm_mm s)).
Qed.

Lemma piperead_wait_sleeps s a pi pr root sz F O V R W fuel :
  uses_pipe s a pi pr root sz F O V R W [LkPipe a] -> pipeq pi [] -> pi_writeopen pi <> 0 ->
  exists p k, procs (mm_mach (pm_mm s)) !! pr = Some p /\
    piperead_wait (S fuel) a pr s = Swtch (inj (asleep (ChPipeRead a) pr p (prj s)) s) k /\
    forall w pi' V', uses_pipe w a pi' pr root sz F O V' R W [LkPipe a] ->
      exists w', k (w <| pm_mm := resumed pr (pm_mm w) |>) = piperead_wait fuel a pr w' /\
        uses_pipe w' a pi' pr root sz F O V' R W [LkPipe a].
Proof.
  intros Hu Hq Hw. destruct Hu as [Hx Hp].
  destruct (uctx_sleep _ _ _ _ _ _ _ _ _ (LkPipe a) (ChPipeRead a) Hx) as (p & k & Hpr & E & K); [done|].
  exists p. eexists. split; [done|]. cbn [piperead_wait].
  erewrite bind_ok by (by eapply get_pipe_ok). rewrite (pipeq_empty pi []) by done.
  rewrite bool_decide_true, (proj2 (Z.eqb_neq _ 0)) by done. cbn [negb andb].
  erewrite bind_ok by (by eapply killed_no). change (negb (0 =? 0)) with false. cbv iota.
  split; [by apply bind_swtch, lift_swtch|].
  intros w pi' V' [Hx' Hp']. destruct (K _ _ Hx') as (m & Em & Hm).
  eexists. cbn beta. cbn [prj embed_mach_pmm pm_mm]. setf_cbn. rewrite Em. split; [done|].
  by destruct w as [[]].
Qed.

(** C28: a reader of an empty pipe is not forgotten.  [piperead] on an
    empty pipe with a writer blocks, asleep on the pipe, its lock given back
    and the pipe untouched.  While it sleeps, a [pipewrite] by another
    process makes it runnable, and when the scheduler resumes it and the
    pipe holds bytes by then, it returns them. *)
Theorem pipe_reader_woken s a pi pr root sz F O V R W addr n :
  uses_pipe s a pi pr root sz F O V R W [] -> pipeq pi [] -> pi_writeopen pi <> 0 -> 0 <= n ->
  (forall j, 0 <= j < n -> uva (addr + j)) ->
  exists s1 k, piperead a addr n s = Swtch s1 k /\ pm_pipes s1 = pm_pipes s /\
    held (mm_mach (pm_mm s1)) = [LkProc pr] /\
    (forall w pi' pr' root' sz' F' O' V' R' W' h' q' addr' n',
       uses_pipe w a pi' pr' root' sz' F' O' V' R' W' h' -> LkPipe a ∉ h' -> pr' <> pr ->
       procs (mm_mach (pm_mm w)) !! pr = procs (mm_mach (pm_mm s1)) !! pr ->
       pipeq pi' q' -> pi_readopen pi' <> 0 -> 0 <= n' <= PIPESIZE - Z.of_nat (length q') ->
       (forall j, 0 <= j < n' -> uva (addr' + j)) ->
       exists j w', pipewrite a addr' n' w = Ok j w' /\
         p_state <$> procs (mm_mach (pm_mm w')) !! pr = Some RUNNABLE) /\
    (forall w pi' V' q',
       uses_pipe w a pi' pr root sz F O V' R W [LkPipe a] -> pipeq pi' q' -> q' <> [] ->
       exists j w', k (w <| pm_mm := resumed pr (pm_mm w) |>) =
           Ok j w' /\ read_done a pr root sz F O V' R W [] q' addr n j w').
Proof.
  intros Hu Hq Hw Hn Ha. rewrite piperead_unfold.
  destruct (ux_cur _ _ _ _ _ _ _ _ _ _ (pu_ctx _ _ _ _ _ _ _ _ _ _ _ _ Hu)) as (p & Hc & Hp & _).
  erewrite bind_ok by (by apply lift_read, myproc_ok).
  destruct (enter _ _ _ _ _ _ _ _ _ _ _ _ Hu ltac:(apply not_elem_of_nil)) as (s1 & E1 & Hu1 & M1 & P1).
  erewrite bind_ok by exact E1.
  destruct (piperead_wait_sleeps s1 a pi pr root sz F O V R W 63 Hu1 Hq Hw) as (p' & k & Hp' & E & K).
  eexists _, _. split; [apply bind_swtch; exact E|]. split; [exact P1|]. split; [done|]. split.
  - intros w pi' pr' root' sz' F' O' V' R' W' h' q' addr' n' Hw' Hl' Hne Hpr Hq' Hro Hn' Ha'.
    destruct (pipewrite_ok w a pi' pr' root' sz' F' O' V' R' W' h' q' addr' n')
      as (j & w' & pi'' & Ew & _ & _ & _ & _ & Mw & _); try done.
    exists j, w'. split; [done|]. rewrite Mw.
    change (procs (wake ?ch ?m)) with (imap (woken ch (cur m)) (procs m)).
    rewrite list_lookup_imap, Hpr.
    change (mm_mach (pm_mm (inj ?m ?s))) with m. rewrite asleep_proc by done.
    simpl. unfold woken. rewrite decide_False, decide_True; [done|done|].
    destruct (ux_cur _ _ _ _ _ _ _ _ _ _ (pu_ctx _ _ _ _ _ _ _ _ _ _ _ _ Hw')) as (? & -> & _). congruence.
  - intros w pi' V' q' Hw' Hq' Hne. destruct (K w pi' V' Hw') as (w' & E' & Hw'').
    destruct (piperead_locked_ok w' a pi' pr root sz F O V' R W [] q' addr n 62 Hw'')
      as (j & w2 & E2 & D2 & _); try done; [by left|].
    exists j, w2. split; [|done]. cbn beta. rewrite E'. exact E2.
Qed.

(** ** An example: process 3 and a pipe *)

Definition demo_pipe_addr : Z := 0x80039000.
(** The pipe holding [q], from the given position on. *)
Definition demo_pipe (r : Z) (q : list Z) : pipe :=
  foldl (fun pi c => pushed c pi) (mkpipe (replicate (Z.to_nat PIPESIZE) 5) r r 1 1) q.
Definition pmm_user (r : Z) (q : list Z) : pmm := mkpmm mm_user {[ demo_pipe_addr := demo_pipe r q ]}.
Notation demo_uses s q r :=
  (uses_pipe s demo_pipe_addr (demo_pipe r q) 3 demo_root (4 * PGSIZE) ∅
     (uown (reverse demo_pages) {[ [] := demo_root ]} ∅) (fun _ => 0) nowhere nowhere []).

Lemma pmm_user_uses r q : demo_uses (pmm_user r q) q r.
Proof. split; [apply mm_user_ctx|apply lookup_singleton_eq]. Qed.

Lemma demo_pipeq r q :
  0 <= r < 2 ^ 32 -> Z.of_nat (length q) <= PIPESIZE -> pipeq (demo_pipe r q) q.
Proof.
  intros Hr. induction q as [|c q IH] using rev_ind; intros Hq.
  - by apply ringq_nil.
  - rewrite length_app in Hq. simpl in Hq. unfold demo_pipe. rewrite foldl_app.
    apply pipeq_push; [apply IH|]; lia.
Qed.

(** The counters wrap in these examples. *)
Lemma pipewrite_appends_witness :
  exists k s' pi', pipewrite demo_pipe_addr 100 2 (pmm_user (2 ^ 32 - 1) [7; 8]) = Ok k s' /\ 0 <= k <= 2 /\
    uses_pipe s' demo_pipe_addr pi' 3 demo_root (4 * PGSIZE) ∅
      (uown (reverse demo_pages) {[ [] := demo_root ]} ∅) (fun _ => 0) nowhere nowhere [] /\
    pipeq pi' ([7; 8] ++ read_bytes (fun _ => 0) 100 (Z.to_nat k)) /\ (k < 2 -> ~ nowhere (100 + k)) /\
    mm_mach (pm_mm s') =
      wake (ChPipeRead demo_pipe_addr) (mm_mach (pm_mm (pmm_user (2 ^ 32 - 1) [7; 8]))) /\
    (forall a', a' <> demo_pipe_addr ->
       pm_pipes s' !! a' = pm_pipes (pmm_user (2 ^ 32 - 1) [7; 8]) !! a').
Proof.
  apply (pipewrite_appends (pmm_user (2 ^ 32 - 1) [7; 8]) demo_pipe_addr (demo_pipe (2 ^ 32 - 1) [7; 8]) 3
           demo_root (4 * PGSIZE) ∅ (uown (reverse demo_pages) {[ [] := demo_root ]} ∅)
           (fun _ => 0) nowhere nowhere [] [7; 8] 100 2).
  - apply pmm_user_uses.
  - apply not_elem_of_nil.
  - apply demo_pipeq; [lia|by apply Z.leb_le].
  - discriminate.
  - split; by apply Z.leb_le.
  - intros j Hj. unfold uva. pglia.
Defined.

Lemma piperead_takes_witness :
  exists k s', piperead demo_pipe_addr 100 2 (pmm_user (2 ^ 32 - 1) [7; 8]) = Ok k s' /\
    read_done demo_pipe_addr 3 demo_root (4 * PGSIZE) ∅
      (uown (reverse demo_pages) {[ [] := demo_root ]} ∅) (fun _ => 0) nowhere nowhere [] [7; 8] 100 2 k s' /\
    mm_mach (pm_mm s') =
      wake (ChPipeWrite demo_pipe_addr) (mm_mach (pm_mm (pmm_user (2 ^ 32 - 1) [7; 8]))).
Proof.
  apply (piperead_takes (pmm_user (2 ^ 32 - 1) [7; 8]) demo_pipe_addr (demo_pipe (2 ^ 32 - 1) [7; 8]) 3
           demo_root (4 * PGSIZE) ∅ (uown (reverse demo_pages) {[ [] := demo_root ]} ∅)
           (fun _ => 0) nowhere nowhere [] [7; 8] 100 2).
  - apply pmm_user_uses.
  - apply not_elem_of_nil.
  - apply demo_pipeq; [lia|by apply Z.leb_le].
  - by left.
  - by apply Z.leb_le.
  - intros j Hj. unfold uva. pglia.
Defined.

Lemma pipe_reader_woken_witness :
  exists s1 k, piperead demo_pipe_addr 100 2 (pmm_user 5 []) = Swtch s1 k /\
    pm_pipes s1 = pm_pipes (pmm_user 5 []).
Proof.
  destruct (pipe_reader_woken (pmm_user 5 []) demo_pipe_addr (demo_pipe 5 []) 3
           demo_root (4 * PGSIZE) ∅ (uown (reverse demo_pages) {[ [] := demo_root ]} ∅)
           (fun _ => 0) nowhere nowhere 100 2) as (s1 & k & E & P & _).
  - apply pmm_user_uses.
  - apply demo_pipeq; [lia|by apply Z.leb_le].
  - discriminate.
  - by apply Z.leb_le.
  - intros j Hj. unfold uva. pglia.
  - exists s1, k. split; [exact E|exact P].
Defined.
