(* ===== verification/ConsoleSpec.v ===== *)
(** * The console delivers edited lines

    The ring buffer of the console holds the characters of the lines already
    entered followed by the line being typed ([cview]).  [edit] says what one
    typed character does to the two; [consoleintr] implements it, and
    [consoleread] takes one line from the first. *)

From stdpp Require Import base numbers strings pretty decidable sets gmap functions list.
From S2P Require Import Prelude.
From S2P Require Import CString.
From S2P Require Import Ring.
From S2P Require Import Riscv.
From S2P Require Import Sched.
From S2P Require Import Sleeplock.
From S2P Require Import Kalloc.
From S2P Require Import Vm.
From S2P Require Import VmInv.
From S2P Require Import Uvm.
From S2P Require Import VmCopy.
From S2P Require Import UserByte.
From S2P Require Import Console.
Open Scope Z_scope.
Open Scope xv6_scope.

(** ** The line editor *)

Record cview (k : cons) (pend line : list Z) : Prop := {
  cv_ring : ringq INPUT_BUF_SIZE (c_buf k) (c_r k) (c_e k) (pend ++ line);
  cv_w : c_w k = u32 (c_r k + Z.of_nat (length pend));
  cv_line : newline ∉ line;
}.

(** What a character typed does: the lines entered, the line being typed,
    what is echoed, and whether readers are woken. *)
Record edited : Type := mkedited {
  ed_pend : list Z;
  ed_line : list Z;
  ed_echo : list Z;
  ed_woken : bool;
}.
Definition rubout : list Z := [8; 32; 8].
Definition edit (c : Z) (pend line : list Z) : edited :=
  if decide (c = Ctl 80) then mkedited pend line [] false
  else if decide (c = Ctl 85) then mkedited pend [] (concat (replicate (length line) rubout)) false
  else if decide (c = Ctl 72 \/ c = 127) then
    mkedited pend (removelast line) (if decide (line = []) then [] else rubout) false
  else if decide (c = 0 \/ Z.of_nat (length (pend ++ line)) = INPUT_BUF_SIZE) then
    mkedited pend line [] false
  else
    let c := if decide (c = carriage_return) then newline else c in
    let line := line ++ [c] in
    if decide (c = newline \/ c = Ctl 68 \/ Z.of_nat (length (pend ++ line)) = INPUT_BUF_SIZE)
    then mkedited (pend ++ line) [] [c] true
    else mkedited pend line [c] false.

Lemma INPUT_pos : 0 < INPUT_BUF_SIZE < 2 ^ 32.
Proof. unfold INPUT_BUF_SIZE. lia. Qed.
Lemma INPUT_div : (INPUT_BUF_SIZE | 2 ^ 32).
Proof. by exists 33554432. Qed.
#[local] Hint Resolve INPUT_pos INPUT_div : core.

(** The edit index is the write index exactly when nothing is being typed. *)
Lemma cview_line k pend line : cview k pend line -> (c_e k =? c_w k) = bool_decide (line = []).
Proof.
  intros [Hr Hw _]. rewrite Hw.
  destruct Hr as [L R W F D]. rewrite W, length_app in *. apply eq_bool_prop_intro.
  rewrite Is_true_true, Z.eqb_eq, bool_decide_spec. split.
  - intros E. apply nil_length_inv. unfold INPUT_BUF_SIZE in F.
    set (a := c_r k + Z.of_nat (length pend)) in *.
    replace (c_r k + Z.of_nat (length pend + length line)) with (a + Z.of_nat (length line)) in E by lia.
    assert (Hz : u32 (u32 (a + Z.of_nat (length line)) - a) = 0).
    { rewrite E. rewrite u32_sub, Z.sub_diag. done. }
    rewrite u32_sub in Hz. replace (a + _ - a) with (Z.of_nat (length line)) in Hz by lia.
    rewrite u32_small in Hz; lia.
  - intros ->. f_equal. simpl. lia.
Qed.

Lemma cview_count k pend line :
  cview k pend line -> u32 (c_e k - c_r k) = Z.of_nat (length (pend ++ line)).
Proof. intros H. by eapply ringq_count, H. Qed.

(** Dropping the last character of the line. *)
Lemma cview_unpush k pend line c :
  cview k pend (line ++ [c]) ->
  c_buf k !!! Z.to_nat (u32 (c_e k - 1) mod INPUT_BUF_SIZE) = c /\
  cview (k <| c_e := u32 (c_e k - 1) |>) pend line.
Proof.
  intros [Hr Hw Hl]. rewrite (assoc_L (++)) in Hr.
  destruct (ringq_unpush _ INPUT_pos INPUT_div _ _ _ _ _ Hr) as [E Hr']. split; [done|].
  split; [done|done|]. intros Hn. apply Hl. apply elem_of_app. by left.
Qed.

(** Adding one. *)
Lemma cview_push k pend line c :
  cview k pend line -> Z.of_nat (length (pend ++ line)) < INPUT_BUF_SIZE ->
  let k' := k <| c_buf := <[Z.to_nat (c_e k mod INPUT_BUF_SIZE) := c]> (c_buf k) |>
              <| c_e := u32 (c_e k + 1) |> in
  (c <> newline -> cview k' pend (line ++ [c])) /\
  cview (k' <| c_w := c_e k' |>) (pend ++ line ++ [c]) [].
Proof.
  intros [Hr Hw Hl] Hn k'. pose proof (ringq_push _ INPUT_pos INPUT_div _ _ _ _ c Hr Hn) as Hp. split.
  - intros Hc. split; [by rewrite (assoc_L (++))|done|].
    intros [?|H%list_elem_of_singleton]%elem_of_app; [done|]. by subst.
  - split; [by rewrite app_nil_r, (assoc_L (++))| |apply not_elem_of_nil].
    cbn. rewrite (rq_w _ _ _ _ _ Hp). do 2 f_equal. by rewrite (assoc_L (++)).
Qed.

Lemma cview_tx k pend line l : cview k pend line -> cview (k <| tx := l |>) pend line.
Proof. by intros []. Qed.

Lemma get_cons_ok s : get_cons s = Ok (cm_cons s) s.
Proof. done. Qed.
Lemma upd_cons_ok f s : upd_cons f s = Ok tt (s <| cm_cons := f (cm_cons s) |>).
Proof. done. Qed.
Lemma consputc_ok c s :
  0 <= c < 256 -> consputc c s = Ok tt (s <| cm_cons := cm_cons s <| tx := tx (cm_cons s) ++ [c] |> |>).
Proof.
  intros H. unfold consputc, BACKSPACE. destruct (Z.eqb_spec c 0x100); [lia|].
  unfold uartputc_sync. rewrite upd_cons_ok. by rewrite u8_small by lia.
Qed.
Lemma consputc_rubout s :
  consputc BACKSPACE s = Ok tt (s <| cm_cons := cm_cons s <| tx := tx (cm_cons s) ++ rubout |> |>).
Proof.
  unfold consputc. rewrite Z.eqb_refl. unfold uartputc_sync.
  erewrite bind_ok by done. erewrite bind_ok by done. rewrite upd_cons_ok.
  destruct s as [m []]. cbn. by rewrite <- !(assoc_L (++)).
Qed.

(** Kill line: the characters being typed go, one after the other. *)
Lemma kill_line_ok fuel s pend line :
  cview (cm_cons s) pend line -> (length line < fuel)%nat ->
  exists k', kill_line fuel s = Ok tt (s <| cm_cons := k' |>) /\ cview k' pend [] /\
    tx k' = tx (cm_cons s) ++ concat (replicate (length line) rubout) /\
    rx k' = rx (cm_cons s).
Proof.
  revert fuel s. induction line as [|c line IH] using rev_ind; intros fuel s H Hf;
    (destruct fuel as [|fuel]; [simpl in Hf; lia|]);
    cbn [kill_line]; erewrite bind_ok by apply get_cons_ok; rewrite (cview_line _ _ _ H).
  { exists (cm_cons s). rewrite bool_decide_true by done. cbn. rewrite app_nil_r. by destruct s. }
  rewrite bool_decide_false by (by destruct line). cbn [negb andb].
  destruct (cview_unpush _ _ _ _ H) as [-> H1].
  rewrite (proj2 (Z.eqb_neq c newline)).
  2: { intros ->. apply (cv_line _ _ _ H). apply elem_of_app. right. apply list_elem_of_here. }
  cbn [negb]. rewrite length_app in *. cbn [length] in *. erewrite bind_ok by apply upd_cons_ok.
  erewrite bind_ok by apply consputc_rubout.
  set (s1 := s <| cm_cons := _ |> <| cm_cons := _ |>).
  destruct (IH fuel s1) as (k' & E & V & T & X); [by apply cview_tx|lia|].
  exists k'. rewrite E. split_and!; [by destruct s|done| |by rewrite X].
  rewrite T. subst s1. cbn. rewrite <- (assoc_L (++)). f_equal.
  rewrite Nat.add_1_r. by cbn [replicate concat].
Qed.

(** ** The interrupt handler *)

Lemma procdump_ok m : exists l, procdump m = Ok tt (m <| klog := klog m ++ l |>).
Proof.
  unfold procdump. erewrite bind_ok by done. erewrite bind_ok by done.
  set (m1 := m <| klog := _ |>). change (procs m1) with (procs m).
  assert (H : forall ps m1, exists l, mapM_ (fun p =>
      if decide (p_state p = UNUSED) then ret tt
      else kprintf (pretty (p_pid p) +:+ " " +:+ state_name (p_state p) +:+ " " +:+
                    name_string (p_name p))) ps m1 = Ok tt (m1 <| klog := klog m1 ++ l |>)).
  { clear. induction ps as [|p ps IH]; intros m1; cbn [mapM_].
    - exists []. rewrite app_nil_r. by destruct m1.
    - destruct (decide _).
      + erewrite bind_ok by done. apply IH.
      + erewrite bind_ok by done. edestruct IH as [l E]. rewrite E. eexists (_ :: l).
        cbn. by rewrite <- (assoc_L (++)). }
  destruct (H (procs m) m1) as [l E]. rewrite E. exists (""%string :: l). cbn. by rewrite <- (assoc_L (++)).
Qed.

(** The machine after a character that woke readers or not, and may have
    printed the process table. *)
Definition intr_mach (wk : bool) (l : list string) (m : mach) : mach :=
  (if wk then wake ChCons m else m) <| klog := klog m ++ l |>.

Lemma intr_mach_id m : intr_mach false [] m = m.
Proof. unfold intr_mach. rewrite app_nil_r. by destruct m. Qed.

(** What [consoleintr] does between taking its lock and giving it back. *)
Definition consoleintr_body (c : Z) : M cmm unit :=
  if c =? Ctl 80 then lift procdump
  else if c =? Ctl 85 then kill_line (S (Z.to_nat INPUT_BUF_SIZE))
  else if (c =? Ctl 72) || (c =? 127) then
    k <- get_cons ;;
    when (negb (c_e k =? c_w k))
      (upd_cons (fun k => k <| c_e := u32 (c_e k - 1) |>) ;; consputc BACKSPACE)
  else
    k <- get_cons ;;
    when (negb (c =? 0) && (u32 (c_e k - c_r k) <? INPUT_BUF_SIZE))
      (let c := if c =? carriage_return then newline else c in
       consputc c ;;
       upd_cons (fun k => k <| c_buf := <[Z.to_nat (c_e k mod INPUT_BUF_SIZE) := u8 c]> (c_buf k) |>
                            <| c_e := u32 (c_e k + 1) |>) ;;
       k <- get_cons ;;
       when ((c =? newline) || (c =? Ctl 68) || (u32 (c_e k - c_r k) =? INPUT_BUF_SIZE))
         (upd_cons (fun k => k <| c_w := c_e k |>) ;;
          lift (wakeup ChCons))).
Lemma consoleintr_unfold c :
  consoleintr c = (lift (acquire LkCons) ;; consoleintr_body c ;; lift (release LkCons)).
Proof. done. Qed.

(** What handling the character [c] makes of [s]. *)
Definition handled (c : Z) (e : edited) (s s' : cmm) : Prop :=
  exists k' l,
    s' = s <| cm_cons := k' |>
           <| cm_mm := cm_mm s <| mm_mach := intr_mach (ed_woken e) l (mm_mach (cm_mm s)) |> |> /\
    (c <> Ctl 80 -> l = []) /\
    cview k' (ed_pend e) (ed_line e) /\ tx k' = tx (cm_cons s) ++ ed_echo e /\ rx k' = rx (cm_cons s).

(** Only the console has changed. *)
Lemma handled_quiet c e s k' :
  ed_woken e = false -> cview k' (ed_pend e) (ed_line e) ->
  tx k' = tx (cm_cons s) ++ ed_echo e -> rx k' = rx (cm_cons s) ->
  handled c e s (s <| cm_cons := k' |>).
Proof.
  intros Hw ? ? ?. exists k', []. split_and!; try done. rewrite Hw, intr_mach_id. by destruct s as [[]].
Qed.

(** A character that goes into the buffer. *)
Lemma insert_char_ok c s pend line :
  cview (cm_cons s) pend line -> 0 <= c < 256 ->
  plocks_free (mm_mach (cm_mm s)) -> length (procs (mm_mach (cm_mm s))) = NPROC ->
  Z.of_nat (length (pend ++ line)) < INPUT_BUF_SIZE ->
  let e := if decide (c = newline \/ c = Ctl 68 \/
                      Z.of_nat (length (pend ++ line ++ [c])) = INPUT_BUF_SIZE)
           then mkedited (pend ++ line ++ [c]) [] [c] true else mkedited pend (line ++ [c]) [c] false in
  exists s', (consputc c ;;
     upd_cons (fun k => k <| c_buf := <[Z.to_nat (c_e k mod INPUT_BUF_SIZE) := u8 c]> (c_buf k) |>
                          <| c_e := u32 (c_e k + 1) |>) ;;
     k <- get_cons ;;
     when ((c =? newline) || (c =? Ctl 68) || (u32 (c_e k - c_r k) =? INPUT_BUF_SIZE))
       (upd_cons (fun k => k <| c_w := c_e k |>) ;; lift (wakeup ChCons))) s = Ok tt s' /\
    forall c0, handled c0 e s s'.
Proof.
  intros V Hc Hf Hl Hn e. erewrite bind_ok by (by apply consputc_ok).
  erewrite bind_ok by apply upd_cons_ok. rewrite u8_small by lia.
  set (s1 := s <| cm_cons := _ |> <| cm_cons := _ |>). erewrite bind_ok by apply get_cons_ok.
  destruct (cview_push (cm_cons s <| tx := tx (cm_cons s) ++ [c] |>) pend line c) as [V1 V2];
    [by apply cview_tx|done|].
  assert (Hcnt : u32 (c_e (cm_cons s1) - c_r (cm_cons s1)) = Z.of_nat (length (pend ++ line ++ [c]))).
  { pose proof (cview_count _ _ _ V2) as E. cbn in E. rewrite app_nil_r in E. exact E. }
  rewrite Hcnt. subst e. destruct (decide _) as [D|D].
  - replace (_ || _) with true.
    2: { symmetry. apply orb_true_iff. rewrite orb_true_iff, !Z.eqb_eq. tauto. }
    cbn [when]. erewrite bind_ok by apply upd_cons_ok. eexists. split.
    { apply lift_ok, wakeup_ok; done. }
    intros c0. eexists _, []. split; [|done].
    unfold intr_mach. cbn. rewrite app_nil_r. unfold wake. by destruct s as [[[]]].
  - replace (_ || _) with false.
    2: { symmetry. apply orb_false_iff. rewrite orb_false_iff, !Z.eqb_neq. tauto. }
    exists s1. split; [done|]. intros c0. change s1 with (s <| cm_cons := cm_cons s1 |>).
    apply handled_quiet; [done|apply V1; tauto|done|done].
Qed.

Lemma consoleintr_body_ok c s pend line :
  cview (cm_cons s) pend line -> 0 <= c < 256 ->
  plocks_free (mm_mach (cm_mm s)) -> length (procs (mm_mach (cm_mm s))) = NPROC ->
  exists s', consoleintr_body c s = Ok tt s' /\ handled c (edit c pend line) s s'.
Proof.
  intros V Hc Hf Hl. unfold consoleintr_body, edit.
  destruct (Z.eqb_spec c (Ctl 80)) as [->|N1].
  { rewrite decide_True by done. destruct (procdump_ok (mm_mach (cm_mm s))) as [l E].
    eexists. split; [by apply lift_ok|]. exists (cm_cons s), l. cbn. rewrite app_nil_r. by destruct s. }
  rewrite (decide_False (P := c = Ctl 80)) by done. destruct (Z.eqb_spec c (Ctl 85)) as [->|N2].
  { rewrite decide_True by done.
    destruct (kill_line_ok (S (Z.to_nat INPUT_BUF_SIZE)) s pend line) as (k' & E & V' & T & X); [done| |].
    { pose proof (rq_fit _ _ _ _ _ (cv_ring _ _ _ V)) as H. rewrite length_app in H. lia. }
    eexists. split; [exact E|]. by apply handled_quiet. }
  rewrite (decide_False (P := c = Ctl 85)) by done.
  destruct (decide (c = Ctl 72 \/ c = 127)) as [B|B].
  { replace (_ || _) with true by (symmetry; rewrite orb_true_iff, !Z.eqb_eq; tauto).
    erewrite bind_ok by apply get_cons_ok. rewrite (cview_line _ _ _ V).
    destruct line as [|x line _] using rev_ind.
    - rewrite decide_True, bool_decide_true by done. exists s. split; [done|].
      replace s with (s <| cm_cons := cm_cons s |>) at 2 by (by destruct s).
      apply handled_quiet; cbn; by rewrite ?app_nil_r.
    - rewrite (decide_False (P := line ++ [x] = [])), bool_decide_false by (by destruct line). cbn [negb when].
      erewrite bind_ok by apply upd_cons_ok. rewrite consputc_rubout. eexists. split; [done|].
      rewrite removelast_last. apply (handled_quiet c (mkedited pend line rubout false) s); try done.
      apply cview_tx. by apply cview_unpush in V as [_ V]. }
  replace (_ || _) with false by (symmetry; rewrite orb_false_iff, !Z.eqb_neq; tauto).
  erewrite bind_ok by apply get_cons_ok. rewrite (cview_count _ _ _ V).
  pose proof (rq_fit _ _ _ _ _ (cv_ring _ _ _ V)) as Hfit.
  destruct (decide (c = 0 \/ _)) as [D|D].
  { replace (_ && _) with false by (symmetry; rewrite andb_false_iff, negb_false_iff, Z.eqb_eq, Z.ltb_ge; lia).
    exists s. split; [done|]. replace s with (s <| cm_cons := cm_cons s |>) at 2 by (by destruct s).
    apply handled_quiet; cbn; by rewrite ?app_nil_r. }
  replace (_ && _) with true by (symmetry; rewrite andb_true_iff, negb_true_iff, Z.eqb_neq, Z.ltb_lt; lia).
  cbn [when]. cbv zeta.
  replace (if c =? carriage_return then newline else c)
    with (if decide (c = carriage_return) then newline else c) by
    (destruct (Z.eqb_spec c carriage_return); by case_decide).
  destruct (insert_char_ok (if decide (c = carriage_return) then newline else c) s pend line)
    as (s' & E & H); try done; [case_decide; [unfold newline|]; lia|lia|].
  exists s'. split; [exact E|]. apply H.
Qed.

Lemma consoleintr_ok c s pend line :
  cview (cm_cons s) pend line -> 0 <= c < 256 ->
  plocks_free (mm_mach (cm_mm s)) -> length (procs (mm_mach (cm_mm s))) = NPROC ->
  LkCons ∉ held (mm_mach (cm_mm s)) ->
  exists s', consoleintr c s = Ok tt s' /\ handled c (edit c pend line) s s'.
Proof.
  intros V Hc Hf Hl Hh. rewrite consoleintr_unfold.
  erewrite bind_ok by (by apply lift_ok, acquire_ok). set (s1 := inj _ s).
  destruct (consoleintr_body_ok c s1 pend line) as (s2 & E & k' & l & -> & L & H); try done.
  { intros i Hi. cbn. apply not_elem_of_cons. split; [done|by apply Hf]. }
  erewrite bind_ok by exact E. erewrite lift_ok.
  2: { apply (release_ok _ _ (held (mm_mach (cm_mm s)))). cbn. unfold intr_mach.
       by destruct (ed_woken (edit c pend line)). }
  eexists. split; [done|]. exists k', l. split; [|done].
  cbn. unfold intr_mach. destruct (ed_woken (edit c pend line)); by destruct s as [[[]]].
Qed.

(** ** The characters of one interrupt *)

(** Typing several characters. *)
Fixpoint typed (cs : list Z) (pend line : list Z) : edited :=
  match cs with
  | [] => mkedited pend line [] false
  | c :: cs' =>
    let e := edit c pend line in
    let e' := typed cs' (ed_pend e) (ed_line e) in
    mkedited (ed_pend e') (ed_line e') (ed_echo e ++ ed_echo e') (ed_woken e || ed_woken e')
  end.

(** Everything asleep on the console may run. *)
Definition readers_run (m m' : mach) : Prop :=
  forall i p, procs m !! i = Some p -> p_state p = SLEEPING -> p_chan p = ChCons -> Some i <> cur m ->
    p_state <$> procs m' !! i = Some RUNNABLE.

Lemma woke_klog m l : woke m (m <| klog := klog m ++ l |>).
Proof. split; try done; [by exists l|by left]. Qed.
Lemma intr_mach_woke wk l m : woke m (intr_mach wk l m).
Proof.
  unfold intr_mach. destruct wk; [|apply woke_klog].
  eapply woke_trans; [apply (woke_wake ChCons)|]. apply (woke_klog (wake ChCons m)).
Qed.

Lemma intr_mach_readers l m : readers_run m (intr_mach true l m).
Proof.
  intros i p Hp Hs Hc Hne. unfold intr_mach. cbn. rewrite list_lookup_imap, Hp. cbn.
  unfold woken. rewrite decide_False by done. by rewrite decide_True.
Qed.

Lemma readers_run_after m1 m2 m3 : readers_run m1 m2 -> woke m2 m3 -> readers_run m1 m3.
Proof.
  intros H W i p Hp Hs Hc Hne. specialize (H i p Hp Hs Hc Hne).
  destruct (wk_procs _ _ W i) as [->|(q & Hq & Hq1 & _ & ->)]; [done|].
  by rewrite Hq in H.
Qed.
Lemma readers_run_before m1 m2 m3 : woke m1 m2 -> readers_run m2 m3 -> woke m2 m3 -> readers_run m1 m3.
Proof.
  intros W H W' i p Hp Hs Hc Hne. destruct (wk_procs _ _ W i) as [E|(q & Hq & Hq1 & _ & E)].
  - rewrite Hp in E. apply (H i p); try done. by rewrite (wk_cur _ _ W).
  - destruct (wk_procs _ _ W' i) as [->|(q' & Hq' & Hq1' & _)].
    + by rewrite E.
    + rewrite E in Hq'. by simplify_eq.
Qed.

Lemma woke_plocks m m' : woke m m' -> plocks_free m -> plocks_free m'.
Proof. intros W H i. rewrite (wk_cur _ _ W), (wk_held _ _ W). apply H. Qed.

(** What an interrupt makes of [s]; [wk]: readers have been woken. *)
Record interrupted (e : edited) (s s' : cmm) : Prop := {
  in_mm : cm_mm s' = cm_mm s <| mm_mach := mm_mach (cm_mm s') |>;
  in_view : cview (cm_cons s') (ed_pend e) (ed_line e);
  in_tx : tx (cm_cons s') = tx (cm_cons s) ++ ed_echo e;
  in_rx : rx (cm_cons s') = [];
  in_woke : woke (mm_mach (cm_mm s)) (mm_mach (cm_mm s'));
  in_readers : ed_woken e = true -> readers_run (mm_mach (cm_mm s)) (mm_mach (cm_mm s'));
}.

Lemma uartgetc_ok s c cs :
  rx (cm_cons s) = c :: cs ->
  uartgetc s = Ok (u8 c) (s <| cm_cons := cm_cons s <| rx := cs |> |>).
Proof. intros E. unfold uartgetc. erewrite bind_ok by done. by rewrite E. Qed.
Lemma cview_rx k pend line l : cview k pend line -> cview (k <| rx := l |>) pend line.
Proof. by intros []. Qed.

Lemma uartintr_loop_ok cs s pend line :
  cview (cm_cons s) pend line -> rx (cm_cons s) = cs -> Forall is_byte cs ->
  plocks_free (mm_mach (cm_mm s)) -> length (procs (mm_mach (cm_mm s))) = NPROC ->
  LkCons ∉ held (mm_mach (cm_mm s)) ->
  exists s', uartintr_loop (S (length cs)) s = Ok tt s' /\ interrupted (typed cs pend line) s s'.
Proof.
  revert s pend line. induction cs as [|c cs IH]; intros s pend line V Hr Hb Hf Hl Hh; cbn [length uartintr_loop].
  - exists s. unfold uartgetc. split.
    + erewrite bind_ok by (erewrite bind_ok by apply get_cons_ok; by rewrite Hr). done.
    + split; cbn; try done; [by destruct s as [[]]|by rewrite app_nil_r|apply woke_refl].
  - apply Forall_cons in Hb as [Hc Hb]. unfold is_byte in Hc.
    erewrite bind_ok by (by apply uartgetc_ok). rewrite u8_small by lia.
    rewrite (proj2 (Z.eqb_neq c (-1))) by lia. set (s1 := s <| cm_cons := _ |>).
    destruct (consoleintr_ok c s1 pend line) as (s2 & E & k' & l & -> & _ & V2 & T2 & X2); try done;
      [by apply cview_rx|]. erewrite bind_ok by exact E.
    set (e := edit c pend line) in *. set (s2 := s1 <| cm_cons := k' |> <| cm_mm := _ |>).
    pose proof (intr_mach_woke (ed_woken e) l (mm_mach (cm_mm s))) as W.
    destruct (IH s2 (ed_pend e) (ed_line e)) as (s' & E' & [M' V' T' X' W' R']); try done.
    { by eapply woke_plocks. } { exact (eq_trans (woke_length _ _ W) Hl). }
    { rewrite <- (wk_held _ _ W) in Hh. exact Hh. }
    exists s'. split; [exact E'|]. cbn [typed]. fold e. split; cbn [ed_pend ed_line ed_echo ed_woken]; try done.
    + rewrite T'. change (tx (cm_cons s2)) with (tx k'). by rewrite T2, <- (assoc_L (++)).
    + by eapply woke_trans.
    + intros [Hw|Hw]%orb_true_iff.
      * eapply readers_run_after; [|exact W']. subst s2. cbn. rewrite Hw. apply intr_mach_readers.
      * eapply readers_run_before; [exact W|by apply R'|exact W'].
Qed.

Lemma interrupted_before e s s1 s' :
  cm_mm s1 = cm_mm s <| mm_mach := mm_mach (cm_mm s1) |> -> woke (mm_mach (cm_mm s)) (mm_mach (cm_mm s1)) ->
  tx (cm_cons s1) = tx (cm_cons s) -> interrupted e s1 s' -> interrupted e s s'.
Proof.
  intros M1 W1 T1 [M V T X W R]. split; try done.
  - rewrite M, M1. by destruct s as [[]].
  - by rewrite T, T1.
  - by eapply woke_trans.
  - intros Hw. eapply readers_run_before; [exact W1|by apply R|exact W].
Qed.

(** The transmitter may be idle again. *)
Lemma uart_idle_ok s pend line :
  cview (cm_cons s) pend line ->
  plocks_free (mm_mach (cm_mm s)) -> length (procs (mm_mach (cm_mm s))) = NPROC ->
  exists k m, when (lsr_tx_idle (cm_cons s))
      (upd_cons (fun k => k <| tx_busy := 0 |>) ;; lift (wakeup ChTx)) s =
      Ok tt (mkcmm (cm_mm s <| mm_mach := m |>) k) /\
    woke (mm_mach (cm_mm s)) m /\ tx k = tx (cm_cons s) /\ rx k = rx (cm_cons s) /\ cview k pend line.
Proof.
  intros V Hf Hl. destruct (lsr_tx_idle (cm_cons s)); cbn [when].
  - exists (cm_cons s <| tx_busy := 0 |>), (wake ChTx (mm_mach (cm_mm s))). split.
    + erewrite bind_ok by apply upd_cons_ok. etrans; [by apply lift_ok, wakeup_ok|done].
    + split; [apply woke_wake|]. destruct V. by split_and!.
  - exists (cm_cons s), (mm_mach (cm_mm s)). split; [by destruct s as [[]]|]. split; [apply woke_refl|]. done.
Qed.

Lemma woke_held h m m' : woke m m' -> woke (m <| held := h |>) (m' <| held := h |>).
Proof. by intros []. Qed.

Lemma uartintr_ok s pend line :
  cview (cm_cons s) pend line -> Forall is_byte (rx (cm_cons s)) ->
  plocks_free (mm_mach (cm_mm s)) -> length (procs (mm_mach (cm_mm s))) = NPROC ->
  LkCons ∉ held (mm_mach (cm_mm s)) -> LkTx ∉ held (mm_mach (cm_mm s)) ->
  exists s', uartintr s = Ok tt s' /\ interrupted (typed (rx (cm_cons s)) pend line) s s'.
Proof.
  intros V Hb Hf Hl Hh Ht. unfold uartintr.
  erewrite bind_ok by (by apply lift_ok, acquire_ok). erewrite bind_ok by apply get_cons_ok.
  set (s1 := inj _ s). destruct (uart_idle_ok s1 pend line) as (k & m & E & W & T & X & V2); try done.
  { intros i Hi. cbn. apply not_elem_of_cons. split; [done|by apply Hf]. }
  erewrite bind_ok by exact E.
  erewrite bind_ok.
  2: { apply lift_ok, (release_ok _ _ (held (mm_mach (cm_mm s)))). apply (wk_held _ _ W). }
  set (s2 := inj _ _). erewrite bind_ok by apply get_cons_ok.
  assert (W2 : woke (mm_mach (cm_mm s)) (mm_mach (cm_mm s2))).
  { apply (woke_held (held (mm_mach (cm_mm s)))) in W. by destruct s as [[[]]]. }
  change (rx (cm_cons s2)) with (rx k). rewrite X. change (rx (cm_cons s1)) with (rx (cm_cons s)).
  destruct (uartintr_loop_ok (rx (cm_cons s)) s2 pend line) as (s' & E' & H); try done.
  { by eapply woke_plocks. } { by rewrite (woke_length _ _ W2). }
  exists s'. split; [exact E'|]. eapply interrupted_before; [|exact W2|exact T|exact H].
  by destruct s as [[]].
Qed.

(** ** Reading a line *)

(** What a read of [n] bytes delivers of the characters entered and what it
    leaves; [None] if it has to wait for more.  A control-D ends the read and
    is kept for the next one unless it is the first character. *)
Fixpoint line_read (n : nat) (first : bool) (q : list Z) : option (list Z * list Z) :=
  match n, q with
  | O, _ => Some ([], q)
  | S n', [] => None
  | S n', c :: q' =>
    if decide (c = Ctl 68) then Some ([], if first then q' else q)
    else if decide (c = newline) then Some ([c], q')
    else '(d, l) ← line_read n' false q'; Some (c :: d, l)
  end.

Lemma line_read_length n b q d l : line_read n b q = Some (d, l) -> (length d <= n)%nat.
Proof.
  revert b q d l. induction n as [|n IH]; intros b q d l Hd; [by injection Hd as <- <-|].
  destruct q as [|c q]; [done|]. cbn [line_read] in Hd.
  repeat case_decide; try (injection Hd as <- <-; simpl; lia).
  destruct (line_read n false q) as [[d' l']|] eqn:E; [|done]. injection Hd as <- <-.
  apply IH in E. simpl. lia.
Qed.

Lemma cview_pop k c pend line :
  cview k (c :: pend) line ->
  c_buf k !!! Z.to_nat (c_r k mod INPUT_BUF_SIZE) = c /\
  cview (k <| c_r := u32 (c_r k + 1) |>) pend line /\
  u32 (u32 (c_r k + 1) - 1) = c_r k /\ (c_r k =? c_w k) = false.
Proof.
  intros [Hr Hw Hl]. destruct (ringq_pop _ INPUT_pos INPUT_div _ _ _ _ _ Hr) as [E Hr'].
  pose proof (rq_r _ _ _ _ _ Hr) as Rr. pose proof (rq_fit _ _ _ _ _ Hr) as Hfit.
  unfold INPUT_BUF_SIZE in Hfit. split_and!; [done| | |].
  - split; [done| |done]. cbn. rewrite u32_add, Hw. f_equal. simpl. lia.
  - rewrite u32_sub. replace (_ + 1 - 1) with (c_r k) by lia. by apply u32_small.
  - rewrite Hw. apply Z.eqb_neq. simpl length in *. rewrite length_app in Hfit. intros E1.
    assert (H : u32 (u32 (c_r k + Z.of_nat (S (length pend))) - c_r k) = 0).
    { rewrite <- E1, Z.sub_diag. done. }
    rewrite u32_sub in H. replace (_ + _ - _) with (Z.of_nat (S (length pend))) in H by lia.
    rewrite u32_small in H; lia.
Qed.

Section reading.
Context (pr : nat) (root sz : Z) (F : leaves) (O : gset Z) (R W : Z -> Prop).
Notation "'ctx' s V h" := (uctx (cm_mm s) pr root sz F O V R W h) (at level 10, s, V, h at level 9).

(** What a read out of [pend] has done, having returned [k]. *)
Definition line_done (addr : Z) (V : Z -> Z) (h : list lockid) (pend line d left : list Z) (k : Z)
    (s s' : cmm) : Prop :=
  0 <= k <= Z.of_nat (length d) /\ ctx s' (write_bytes V addr (take (Z.to_nat k) d)) h /\
  tx (cm_cons s') = tx (cm_cons s) /\ rx (cm_cons s') = rx (cm_cons s) /\
  ((k = Z.of_nat (length d) /\ cview (cm_cons s') left line) \/
   (k < Z.of_nat (length d) /\ ~ W (addr + k) /\ cview (cm_cons s') (drop (Z.to_nat k + 1) pend) line)).

Lemma cons_wait_ready fuel s c pend line :
  cview (cm_cons s) (c :: pend) line -> cons_wait (S fuel) s = Ok true s.
Proof using.
  intros V. cbn [cons_wait]. erewrite bind_ok by apply get_cons_ok.
  by destruct (cview_pop _ _ _ _ V) as (_ & _ & _ & ->).
Qed.

Lemma consoleread_loop_ok fuel s V h addr n target pend line d left :
  ctx s V h -> cview (cm_cons s) pend line ->
  0 <= n <= target -> target < 2 ^ 31 ->
  line_read (Z.to_nat n) (bool_decide (n = target)) pend = Some (d, left) ->
  (forall j, 0 <= j < n -> uva (addr + j)) -> (Z.to_nat n < fuel)%nat ->
  exists k s', consoleread_loop fuel (User addr) n target s = Ok (Some (n - k)) s' /\
    mm_mach (cm_mm s') = mm_mach (cm_mm s) /\
    line_done addr V h pend line d left k s s'.
Proof using.
  revert s V addr n pend d left. induction fuel as [|fuel IH];
    intros s V addr n pend d left Hx Hv Hn Ht Hd Ha Hf; [lia|].
  cbn [consoleread_loop]. destruct (Z.ltb_spec 0 n) as [Hpos|Hz].
  2: { replace n with 0 in * by lia. injection Hd as <- <-. exists 0, s.
       split; [done|]. split; [done|]. split_and!; try done. by left. }
  replace (Z.to_nat n) with (S (Z.to_nat (n - 1))) in Hd by lia.
  destruct pend as [|c pend]; [done|]. cbn [line_read] in Hd.
  erewrite bind_ok by (by eapply cons_wait_ready). cbn [negb].
  destruct (cview_pop _ _ _ _ Hv) as (Ec & Hv1 & Hback & _).
  erewrite bind_ok by apply get_cons_ok. cbv zeta. rewrite Ec. erewrite bind_ok by apply upd_cons_ok.
  rewrite u32_small by lia. set (s1 := s <| cm_cons := _ |>).
  destruct (decide (c = Ctl 68)) as [->|Nd].
  { injection Hd as <- <-. rewrite Z.eqb_refl. exists 0.
    destruct (Z.ltb_spec n target) as [Hlt|Hge]; cbn [when].
    - rewrite bool_decide_false by lia. erewrite bind_ok by apply upd_cons_ok.
      eexists. split; [by rewrite Z.sub_0_r|]. split; [done|]. split_and!; try done. left. split; [done|].
      replace (cm_cons _) with (cm_cons s); [done|]. cbn. rewrite Hback. by destruct (cm_cons s).
    - rewrite bool_decide_true by lia. erewrite bind_ok by done.
      eexists. split; [by rewrite Z.sub_0_r|]. split; [done|]. split_and!; try done. by left. }
  rewrite (proj2 (Z.eqb_neq c (Ctl 68))) by done.
  destruct (either_out pr root sz F O R W (cm_mm s1) V h addr c) as (r & m & E & Fm & Hr);
    [done|replace addr with (addr + 0) by lia; apply Ha; lia|].
  erewrite bind_ok by (apply lift_ok; exact E).
  destruct Hr as [[-> Hx2]|(-> & Hw & Hx2)].
  2: { change (-1 =? -1) with true. cbv iota. exists 0, (inj m s1). rewrite Z.sub_0_r.
       assert (0 < Z.of_nat (length d)).
       { destruct (decide (c = newline)); [by injection Hd as <- <-|].
         destruct (line_read _ _ _) as [[]|]; [|done]. by injection Hd as <- <-. }
       split; [done|]. split; [apply Fm|]. split_and!; try done; [lia|]. right.
       split_and!; try done. by rewrite Z.add_0_r. }
  change (0 =? -1) with false. cbv iota. destruct (decide (c = newline)) as [->|Nn].
  { rewrite Z.eqb_refl. injection Hd as <- <-. exists 1, (inj m s1). split; [done|]. split; [apply Fm|].
    split_and!; try done. by left. }
  rewrite (proj2 (Z.eqb_neq c newline)) by done.
  destruct (line_read (Z.to_nat (n - 1)) false pend) as [[d' l']|] eqn:Hd'; [|done].
  injection Hd as <- <-. cbn [place_add].
  destruct (IH (inj m s1) (<[addr := c]> V) (addr + 1) (n - 1) pend d' l') as (k & s' & E' & M' & Hk & Hx' & T' & X' & HL);
    try done; try lia.
  { by rewrite bool_decide_false by lia. }
  { intros j Hj. replace (addr + 1 + j) with (addr + (j + 1)) by lia. apply Ha. lia. }
  exists (k + 1), s'. replace (n - (k + 1)) with (n - 1 - k) by lia. split.
  { rewrite u64_small; [exact E'|]. pose proof (Ha 0 ltac:(lia)) as H. unfold uva in H.
    rewrite Z.add_0_r in H. pglia. }
  split; [rewrite M'; apply Fm|]. split; [simpl; lia|].
  replace (Z.to_nat (k + 1)) with (S (Z.to_nat k)) by lia. split_and!; try done.
  replace (addr + (k + 1)) with (addr + 1 + k) by lia. cbn [length drop Nat.add].
  destruct HL as [[H1 H2]|(H1 & H2 & H3)]; [left|right]; split_and!; try done; lia.
Qed.

(** [consoleread] once it holds the lock. *)
Definition consoleread_locked (dst : place) (n : Z) : M cmm Z :=
  r <- consoleread_loop (S (Z.to_nat n)) dst n (u32 n) ;;
  lift (release LkCons) ;;
  match r with
  | None => ret (-1)
  | Some n' => ret (s32 (u32 n - n'))
  end.
Lemma consoleread_unfold dst n :
  consoleread dst n = (lift (acquire LkCons) ;; consoleread_locked dst n).
Proof using. done. Qed.

Lemma consoleread_locked_ok s V h addr n pend line d left :
  ctx s V (LkCons :: h) -> cview (cm_cons s) pend line -> 0 <= n < 2 ^ 31 ->
  line_read (Z.to_nat n) true pend = Some (d, left) ->
  (forall j, 0 <= j < n -> uva (addr + j)) ->
  exists k s', consoleread_locked (User addr) n s = Ok k s' /\
    mm_mach (cm_mm s') = mm_mach (cm_mm s) <| held := h |> /\
    line_done addr V h pend line d left k s s'.
Proof using.
  intros Hx Hv Hn Hd Ha. unfold consoleread_locked. rewrite u32_small by lia.
  destruct (consoleread_loop_ok (S (Z.to_nat n)) s V (LkCons :: h) addr n n pend line d left)
    as (k & s1 & E & M & Hk & Hx1 & T & X & HL); try done; try lia; [by rewrite bool_decide_true|].
  erewrite bind_ok by exact E.
  destruct (uctx_release _ _ _ _ _ _ _ _ _ _ _ Hx1) as [E2 Hx2].
  erewrite bind_ok by (by apply lift_ok). exists k. eexists. split.
  { replace (n - (n - k)) with k by lia. rewrite s32_small; [done|].
    apply line_read_length in Hd. lia. }
  split; [cbn; by rewrite M|]. split; [done|]. by split_and!.
Qed.

Lemma consoleread_ok s V h addr n pend line d left :
  ctx s V h -> LkCons ∉ h -> cview (cm_cons s) pend line -> 0 <= n < 2 ^ 31 ->
  line_read (Z.to_nat n) true pend = Some (d, left) ->
  (forall j, 0 <= j < n -> uva (addr + j)) ->
  exists k s', consoleread (User addr) n s = Ok k s' /\
    mm_mach (cm_mm s') = mm_mach (cm_mm s) /\ line_done addr V h pend line d left k s s'.
Proof using.
  intros Hx Hl Hv Hn Hd Ha. rewrite consoleread_unfold.
  destruct (uctx_acquire _ _ _ _ _ _ _ _ _ _ LkCons Hx) as [E1 Hx1]; try done.
  erewrite bind_ok by (by apply lift_ok). set (s1 := inj _ s).
  destruct (consoleread_locked_ok s1 V h addr n pend line d left) as (k & s' & E & M & D); try done.
  exists k, s'. split_and!; [exact E| |exact D]. rewrite M.
  pose proof (ux_held _ _ _ _ _ _ _ _ _ _ Hx) as Hh. cbn. destruct s as [[[]]]. cbn in *. by subst.
Qed.

Lemma cons_wait_sleeps fuel s V line :
  ctx s V [LkCons] -> cview (cm_cons s) [] line ->
  exists p k, procs (mm_mach (cm_mm s)) !! pr = Some p /\
    cons_wait (S fuel) s = Swtch (inj (asleep ChCons pr p (prj s)) s) k /\
    forall w V', ctx w V' [LkCons] ->
      exists w', k (w <| cm_mm := resumed pr (cm_mm w) |>) = cons_wait fuel w' /\
        cm_cons w' = cm_cons w /\ ctx w' V' [LkCons].
Proof using.
  intros Hx Hv. destruct (uctx_sleep _ _ _ _ _ _ _ _ _ LkCons ChCons Hx) as (p & k & Hpr & E & K); [done|].
  destruct (ux_cur _ _ _ _ _ _ _ _ _ _ Hx) as (p0 & Hc & _).
  exists p. eexists. split; [done|]. cbn [cons_wait]. erewrite bind_ok by apply get_cons_ok.
  rewrite (cv_w _ _ _ Hv). simpl length. rewrite Z.add_0_r.
  rewrite u32_small by apply Hv. rewrite Z.eqb_refl.
  erewrite bind_ok by (by apply lift_read, myproc_ok).
  erewrite bind_ok by (by eapply lift_read, uctx_killed). change (negb (0 =? 0)) with false. cbv iota.
  split; [by apply bind_swtch, lift_swtch|].
  intros w V' Hw. destruct (K _ _ Hw) as (m & Em & Hm).
  exists (w <| cm_mm := cm_mm w <| mm_mach := m |> |>). split; [|by destruct w as [[]]].
  cbn beta. change (prj (w <| cm_mm := resumed pr (cm_mm w) |>)) with (mm_mach (resumed pr (cm_mm w))).
  by rewrite Em.
Qed.

(** A read that finds nothing entered sleeps, and goes on as if it had just
    taken the lock when it is resumed and something is there. *)
Lemma consoleread_sleeps s V addr n line :
  ctx s V [] -> cview (cm_cons s) [] line -> 0 < n ->
  exists p k, procs (mm_mach (cm_mm s)) !! pr = Some p /\
    consoleread (User addr) n s =
      Swtch (s <| cm_mm := cm_mm s <| mm_mach := asleep ChCons pr p (mm_mach (cm_mm s)) |> |>) k /\
    forall w V' c pend' line', ctx w V' [LkCons] -> cview (cm_cons w) (c :: pend') line' ->
      exists w', k (w <| cm_mm := resumed pr (cm_mm w) |>) = consoleread_locked (User addr) n w' /\
        cm_cons w' = cm_cons w /\ ctx w' V' [LkCons].
Proof using.
  intros Hx Hv Hn. rewrite consoleread_unfold.
  destruct (uctx_acquire _ _ _ _ _ _ _ _ _ _ LkCons Hx) as [E1 Hx1]; try done; [apply not_elem_of_nil|].
  erewrite bind_ok by (by apply lift_ok). set (s1 := inj _ s).
  destruct (cons_wait_sleeps 63 s1 V line) as (p & k & Hp & E & K); [done|done|].
  exists p. eexists. split; [done|].
  unfold consoleread_locked. cbn [consoleread_loop].
  rewrite (proj2 (Z.ltb_lt 0 n)) by done. split.
  { apply bind_swtch, bind_swtch. exact E. }
  intros w V' c pend' line' Hw Hv'. destruct (K _ _ Hw) as (w' & Ew & Cw & Hw'). exists w'. cbn beta.
  assert (Ready : forall fuel, cons_wait (S fuel) w' = Ok true w').
  { intros fuel. apply (cons_wait_ready fuel w' c pend' line'). by rewrite Cw. }
  rewrite Ew, Ready. split; [|done].
  change (bind (bind ?a ?f) ?g w') with (bind_res (bind_res (a w') f) g).
  change wait_fuel with (S 63). by rewrite Ready.
Qed.
End reading.

(** ** Theorems *)

(** C29: the interrupt handler is the line editor.  Whatever characters
    the serial port has received, [uartintr] returns having passed each of
    them to the editor: the lines entered and the line being typed are those
    of [typed], its echo has been sent to the terminal, no character is left
    unread, and if a line was completed every process asleep on the console
    has been made runnable. *)
Theorem uartintr_edits s pend line :
  cview (cm_cons s) pend line -> Forall is_byte (rx (cm_cons s)) ->
  plocks_free (mm_mach (cm_mm s)) -> length (procs (mm_mach (cm_mm s))) = NPROC ->
  LkCons ∉ held (mm_mach (cm_mm s)) -> LkTx ∉ held (mm_mach (cm_mm s)) ->
  exists s', uartintr s = Ok tt s' /\ interrupted (typed (rx (cm_cons s)) pend line) s s'.
Proof. apply uartintr_ok. Qed.

(** A character the editor just adds to the line. *)
Definition plain (c : Z) : Prop :=
  is_byte c /\ c ∉ [0; Ctl 80; Ctl 85; Ctl 72; 127; Ctl 68; carriage_return; newline].

Lemma typed_plain text line rest :
  Forall plain text -> Z.of_nat (length (line ++ text)) < INPUT_BUF_SIZE ->
  typed (text ++ rest) [] line =
    let e := typed rest [] (line ++ text) in
    mkedited (ed_pend e) (ed_line e) (text ++ ed_echo e) (ed_woken e).
Proof.
  revert line. induction text as [|c text IH]; intros line Hp Hn; cbn [app typed].
  { rewrite app_nil_r. by destruct (typed rest [] line). }
  apply Forall_cons in Hp as [[Hb Hc] Hp]. rewrite !not_elem_of_cons in Hc.
  destruct Hc as (? & ? & ? & ? & ? & ? & ? & ? & _).
  rewrite length_app in Hn. cbn [length] in Hn.
  assert (E : edit c [] line = mkedited [] (line ++ [c]) [c] false).
  { unfold edit. rewrite !(decide_False (P := c = _)) by done.
    rewrite (decide_False (P := _ \/ _)) by naive_solver.
    rewrite (decide_False (P := c = 0 \/ _)) by (simpl; lia).
    rewrite decide_False; [done|]. simpl. rewrite length_app. simpl. naive_solver lia. }
  rewrite E. cbn [ed_pend ed_line ed_echo ed_woken]. rewrite IH; [|done|rewrite !length_app; simpl; lia].
  by rewrite <- (assoc_L (++)).
Qed.

Lemma typed_line text :
  Forall plain text -> Z.of_nat (length text) < INPUT_BUF_SIZE ->
  typed (text ++ [carriage_return]) [] [] = mkedited (text ++ [newline]) [] (text ++ [newline]) true.
Proof.
  intros Hp Hn. rewrite typed_plain by done. cbn [app typed]. unfold edit.
  rewrite !(decide_False (P := carriage_return = _)) by done.
  rewrite (decide_False (P := carriage_return = Ctl 72 \/ _)) by (unfold carriage_return, Ctl; lia).
  rewrite (decide_False (P := carriage_return = 0 \/ _)) by (simpl; unfold carriage_return; lia).
  rewrite (decide_True (P := carriage_return = carriage_return)) by done. cbn zeta.
  rewrite decide_True by (by left). done.
Qed.

Lemma line_read_line text n b :
  Forall plain text -> (length text < n)%nat ->
  line_read n b (text ++ [newline]) = Some (text ++ [newline], []).
Proof.
  revert n b. induction text as [|c text IH]; intros n b Hp Hn; (destruct n as [|n]; [simpl in Hn; lia|]).
  { done. }
  apply Forall_cons in Hp as [[Hb Hc] Hp]. rewrite !not_elem_of_cons in Hc.
  cbn [app line_read]. rewrite !decide_False by naive_solver.
  rewrite IH; [done|done|simpl in Hn; lia].
Qed.

(** C30: a line typed is a line read.  When the characters of [text]
    and a carriage return arrive at an idle console, the terminal shows the
    text and a new line, and the next read of the console that asks for
    enough bytes gets exactly the text with its newline and leaves the
    console idle, up to the first address the reader cannot write. *)
Theorem console_line s text pr root sz F O V R W h w addr n :
  cview (cm_cons s) [] [] -> rx (cm_cons s) = text ++ [carriage_return] ->
  Forall plain text -> Z.of_nat (length text) < INPUT_BUF_SIZE ->
  plocks_free (mm_mach (cm_mm s)) -> length (procs (mm_mach (cm_mm s))) = NPROC ->
  LkCons ∉ held (mm_mach (cm_mm s)) -> LkTx ∉ held (mm_mach (cm_mm s)) ->
  uctx w pr root sz F O V R W h -> LkCons ∉ h ->
  Z.of_nat (length text) < n < 2 ^ 31 -> (forall j, 0 <= j < n -> uva (addr + j)) ->
  exists s', uartintr s = Ok tt s' /\ tx (cm_cons s') = tx (cm_cons s) ++ text ++ [newline] /\
    exists k w', consoleread (User addr) n (s' <| cm_mm := w |>) = Ok k w' /\
      line_done pr root sz F O R W addr V h (text ++ [newline]) [] (text ++ [newline]) [] k
        (s' <| cm_mm := w |>) w'.
Proof.
  intros Hv Hr Hp Hl Hf Hn Hh Ht Hx Hlk Hsz Ha.
  assert (Hb : Forall is_byte (rx (cm_cons s))).
  { rewrite Hr. apply Forall_app. split; [|by apply Forall_singleton].
    eapply Forall_impl; [exact Hp|]. by intros c []. }
  destruct (uartintr_ok s [] []) as (s' & E & I); try done.
  rewrite Hr, typed_line in I by done. destruct I as [_ V' T' _ _ _].
  exists s'. split_and!; [done|done|].
  destruct (consoleread_ok pr root sz F O R W (s' <| cm_mm := w |>) V h addr n
    (text ++ [newline]) [] (text ++ [newline]) []) as (k & w' & E' & _ & D); try done; try lia.
  - apply line_read_line; [done|lia].
  - exists k, w'. by split.
Qed.

(** C31: a reader of the console is served.  Reading when no line has
    been entered blocks, asleep on the console, with its lock given back;
    while the process sleeps, an interrupt that completes a line makes it
    runnable; and when the scheduler resumes it with a line entered, it
    returns what [line_read] says. *)
Theorem console_reader_woken s pr root sz F O V R W line addr n :
  uctx (cm_mm s) pr root sz F O V R W [] -> cview (cm_cons s) [] line -> 0 < n < 2 ^ 31 ->
  (forall j, 0 <= j < n -> uva (addr + j)) ->
  exists s1 k, consoleread (User addr) n s = Swtch s1 k /\ cm_cons s1 = cm_cons s /\
    held (mm_mach (cm_mm s1)) = [LkProc pr] /\
    (forall w pend' line', cview (cm_cons w) pend' line' -> Forall is_byte (rx (cm_cons w)) ->
       plocks_free (mm_mach (cm_mm w)) -> length (procs (mm_mach (cm_mm w))) = NPROC ->
       LkCons ∉ held (mm_mach (cm_mm w)) -> LkTx ∉ held (mm_mach (cm_mm w)) ->
       cur (mm_mach (cm_mm w)) <> Some pr ->
       procs (mm_mach (cm_mm w)) !! pr = procs (mm_mach (cm_mm s1)) !! pr ->
       ed_woken (typed (rx (cm_cons w)) pend' line') = true ->
       exists w', uartintr w = Ok tt w' /\
         p_state <$> procs (mm_mach (cm_mm w')) !! pr = Some RUNNABLE) /\
    (forall w V' pend' line' d left,
       uctx (cm_mm w) pr root sz F O V' R W [LkCons] -> cview (cm_cons w) pend' line' ->
       line_read (Z.to_nat n) true pend' = Some (d, left) ->
       exists j w', k (w <| cm_mm := resumed pr (cm_mm w) |>) = Ok j w' /\
         line_done pr root sz F O R W addr V' [] pend' line' d left j w w').
Proof.
  intros Hx Hv Hn Ha.
  destruct (consoleread_sleeps pr root sz F O R W s V addr n line Hx Hv) as (p & k & Hp & E & K); [lia|].
  eexists _, k. split; [exact E|]. split_and!; [done|done| |].
  - intros w pend' line' Hv' Hb Hf Hl Hh Ht Hc Hpr He.
    destruct (uartintr_ok w pend' line') as (w' & Ew & I); try done.
    exists w'. split; [done|].
    apply (in_readers _ _ _ I He pr (p <| p_chan := ChCons |> <| p_state := SLEEPING |>));
      [rewrite Hpr; by apply asleep_proc|done|done|congruence].
  - intros w V' pend' line' d left Hw Hv' Hd. destruct pend' as [|c pend'].
    { by replace (Z.to_nat n) with (S (Z.to_nat (n - 1))) in Hd by lia. }
    destruct (K _ _ _ _ _ Hw Hv') as (w1 & Ek & Cw & Hw1). rewrite <- Cw in Hv'.
    destruct (consoleread_locked_ok pr root sz F O R W w1 V' [] addr n (c :: pend') line' d left)
      as (j & w2 & E2 & _ & D2); try done; [lia|].
    exists j, w2. split; [by rewrite Ek|]. destruct D2 as (D1 & D2 & D3 & D4 & D5).
    rewrite Cw in D3, D4. split; [done|]. by split_and!.
Qed.

(** ** An example: process 3 reads the line "a", on a ring that wraps *)

Definition cons_demo (l : list Z) : cons :=
  mkcons (replicate (Z.to_nat INPUT_BUF_SIZE) 0) (2 ^ 32 - 1) (2 ^ 32 - 1) (2 ^ 32 - 1) 0 true l [].
Lemma cons_demo_view l : cview (cons_demo l) [] [].
Proof.
  split; [by apply ringq_nil|done|apply not_elem_of_nil].
Qed.
Definition cmm_user (l : list Z) : cmm := mkcmm mm_user (cons_demo l).
Lemma mm_user_mach_idle :
  plocks_free (mm_mach mm_user) /\ length (procs (mm_mach mm_user)) = NPROC /\ held (mm_mach mm_user) = [].
Proof.
  destruct mm_user_ok as [_ ->]. split_and!; [|done|done]. intros i _. apply not_elem_of_nil.
Qed.

(** Text, a character too many, and a backspace. *)
Lemma uartintr_edits_witness :
  exists s', uartintr (cmm_user [104; 105; 120; Ctl 72; carriage_return]) = Ok tt s' /\
    interrupted (mkedited [104; 105; newline] [] [104; 105; 120; 8; 32; 8; newline] true)
      (cmm_user [104; 105; 120; Ctl 72; carriage_return]) s'.
Proof.
  destruct mm_user_mach_idle as (Hf & Hl & Hh).
  apply (uartintr_edits (cmm_user [104; 105; 120; Ctl 72; carriage_return]) [] []).
  - apply cons_demo_view.
  - by repeat constructor.
  - exact Hf.
  - exact Hl.
  - cbn [cmm_user cm_mm]. rewrite Hh. apply not_elem_of_nil.
  - cbn [cmm_user cm_mm]. rewrite Hh. apply not_elem_of_nil.
Defined.

Lemma plain_a : plain 97.
Proof. split; [by unfold is_byte|]. rewrite !not_elem_of_cons. split_and!; try discriminate. apply not_elem_of_nil. Qed.

Lemma console_line_witness :
  exists s', uartintr (cmm_user [97; carriage_return]) = Ok tt s' /\ tx (cm_cons s') = [97; newline] /\
    exists k w', consoleread (User 100) 10 (s' <| cm_mm := mm_user |>) = Ok k w' /\
      line_done 3 demo_root (4 * PGSIZE) ∅ (uown (reverse demo_pages) {[ [] := demo_root ]} ∅) nowhere nowhere
        100 (fun _ => 0) [] [97; newline] [] [97; newline] [] k (s' <| cm_mm := mm_user |>) w'.
Proof.
  destruct mm_user_mach_idle as (Hf & Hl & Hh).
  apply (console_line (cmm_user [97; carriage_return]) [97] 3 demo_root (4 * PGSIZE) ∅
           (uown (reverse demo_pages) {[ [] := demo_root ]} ∅) (fun _ => 0) nowhere nowhere []).
  - apply cons_demo_view.
  - reflexivity.
  - apply Forall_singleton, plain_a.
  - reflexivity.
  - exact Hf.
  - exact Hl.
  - cbn [cmm_user cm_mm]. rewrite Hh. apply not_elem_of_nil.
  - cbn [cmm_user cm_mm]. rewrite Hh. apply not_elem_of_nil.
  - apply mm_user_ctx.
  - apply not_elem_of_nil.
  - split; reflexivity.
  - intros j Hj. unfold uva. pglia.
Defined.

Lemma console_reader_woken_witness :
  exists s1 k, consoleread (User 100) 10 (cmm_user []) = Swtch s1 k /\ cm_cons s1 = cons_demo [].
Proof.
  destruct (console_reader_woken (cmm_user []) 3 demo_root (4 * PGSIZE) ∅
    (uown (reverse demo_pages) {[ [] := demo_root ]} ∅) (fun _ => 0) nowhere nowhere [] 100 10)
    as (s1 & k & E & C & _).
  - apply mm_user_ctx.
  - apply cons_demo_view.
  - split; reflexivity.
  - intros j Hj. unfold uva. pglia.
  - exists s1, k. split; [exact E|exact C].
Defined.
