(* ===== verification/Proc.v ===== *)
(** * Process memory and lifetime, [kernel/proc.c]

    What [kernel/proc.c] does on top of the page tables: creating and
    destroying the address space of a process, allocating an entry of the
    process table, growing, waiting for a child, and the scheduler's loop.
    The trap frame of a process lives in the page [p_trapframe]. *)

From stdpp Require Import base numbers strings decidable sets gmap functions list.
From S2P Require Import Prelude.
From S2P Require Import CString.
From S2P Require Import Riscv.
From S2P Require Import Sched.
From S2P Require Import Sleeplock.
From S2P Require Import Kalloc.
From S2P Require Import Vm.
Open Scope Z_scope.
Open Scope xv6_scope.

(** What the sources leave to the build: the addresses the linker gave to
    the code the kernel points at, and what an uninitialised kernel variable
    holds (read only as the padding of [struct stat]). *)
Class Image := {
  uninitialised : list Z;
  trampoline : Z;
  uservec : Z;
  userret : Z;
  kernelvec : Z;
  usertrap_addr : Z;
  forkret_addr : Z;
}.

(** ** The trap frame, [struct trapframe] of [kernel/proc.h]: the offsets of
    its fields, and access to the trap frame of process [i]. *)
Definition tf_kernel_satp : Z := 0.
Definition tf_kernel_sp : Z := 8.
Definition tf_kernel_trap : Z := 16.
Definition tf_epc : Z := 24.
Definition tf_kernel_hartid : Z := 32.
Definition tf_sp : Z := 48.
Definition tf_a0 : Z := 112.
Definition tf_a1 : Z := 120.
Definition tf_a2 : Z := 128.
Definition tf_a3 : Z := 136.
Definition tf_a4 : Z := 144.
Definition tf_a5 : Z := 152.
Definition tf_a7 : Z := 168.
Definition sizeof_trapframe : nat := 288.

Definition tf_addr (i : nat) : M mm Z :=
  p <- lift (get_proc i) ;;
  if p_trapframe p =? 0 then undefined "null trapframe" else ret (p_trapframe p).
Definition tf_get (i : nat) (off : Z) : M mm Z :=
  a <- tf_addr i ;; s <- get ;; ret (load64 (mem s) (a + off)).
Definition tf_set (i : nat) (off v : Z) : M mm unit :=
  a <- tf_addr i ;; modify (fun s => s <| mem := store64 (mem s) (a + off) (u64 v) |>).

Section proc.
Context `{!Image}.

Definition proc_pagetable (i : nat) : M mm Z :=
  pagetable <- uvmcreate ;;
  if pagetable =? 0 then ret 0
  else
    r <- mappages pagetable TRAMPOLINE PGSIZE trampoline (Z.lor PTE_R PTE_X) ;;
    if r <? 0 then uvmfree pagetable 0 ;; ret 0
    else
      p <- lift (get_proc i) ;;
      r <- mappages pagetable TRAPFRAME PGSIZE (p_trapframe p) (Z.lor PTE_R PTE_W) ;;
      if r <? 0 then
        uvmunmap pagetable TRAMPOLINE 1 false ;;
        uvmfree pagetable 0 ;;
        ret 0
      else ret pagetable.

Definition proc_freepagetable (pagetable sz : Z) : M mm unit :=
  uvmunmap pagetable TRAMPOLINE 1 false ;;
  uvmunmap pagetable TRAPFRAME 1 false ;;
  uvmfree pagetable sz.

Definition freeproc (i : nat) : M mm unit :=
  p <- lift (get_proc i) ;;
  when (negb (p_trapframe p =? 0)) (kfree (p_trapframe p)) ;;
  lift (upd_proc i (fun p => p <| p_trapframe := 0 |>)) ;;
  when (negb (p_pagetable p =? 0)) (proc_freepagetable (p_pagetable p) (p_sz p)) ;;
  lift (upd_proc i (fun p =>
    p <| p_pagetable := 0 |> <| p_sz := 0 |> <| p_pid := 0 |> <| p_parent := None |>
      <| p_name := <[0%nat := 0]> (p_name p) |> <| p_chan := ChNull |> <| p_killed := 0 |>
      <| p_xstate := 0 |> <| p_state := UNUSED |>)).

(** The part of [allocproc] after the label [found]. *)
Definition allocproc_found (i : nat) : M mm (option nat) :=
  pid <- lift allocpid ;;
  lift (upd_proc i (fun p => p <| p_pid := pid |> <| p_state := USED |>)) ;;
  tf <- kalloc ;;
  lift (upd_proc i (fun p => p <| p_trapframe := tf |>)) ;;
  if tf =? 0 then
    freeproc i ;;
    lift (release (LkProc i)) ;;
    ret None
  else
    pt <- proc_pagetable i ;;
    lift (upd_proc i (fun p => p <| p_pagetable := pt |>)) ;;
    if pt =? 0 then
      freeproc i ;;
      lift (release (LkProc i)) ;;
      ret None
    else
      lift (upd_proc i (fun p =>
        p <| p_context := mkcontext forkret_addr (u64 (p_kstack p + PGSIZE)) (replicate 12 0) |>)) ;;
      ret (Some i).
Fixpoint allocproc_from (n i : nat) : M mm (option nat) :=
  match n with
  | O => ret None
  | S n' =>
    lift (acquire (LkProc i)) ;;
    p <- lift (get_proc i) ;;
    if decide (p_state p = UNUSED) then allocproc_found i
    else
      lift (release (LkProc i)) ;;
      allocproc_from n' (S i)
  end.
Definition allocproc : M mm (option nat) := allocproc_from NPROC 0.

Definition growproc (n : Z) : M mm Z :=
  i <- lift myproc ;;
  p <- lift (get_proc i) ;;
  let sz := p_sz p in
  if 0 <? n then
    sz <- uvmalloc (p_pagetable p) sz (u64 (sz + n)) PTE_W ;;
    if sz =? 0 then ret (-1)
    else lift (upd_proc i (fun p => p <| p_sz := sz |>)) ;; ret 0
  else
    sz <- (if n <? 0 then uvmdealloc (p_pagetable p) sz (u64 (sz + n)) else ret sz) ;;
    lift (upd_proc i (fun p => p <| p_sz := sz |>)) ;;
    ret 0.

(** The scan of [kwait] over the process table: either the value [kwait]
    returns, with the locks released, or whether the caller has children. *)
Fixpoint kwait_scan (n pp : nat) (p : nat) (addr : Z) (havekids : bool) : M mm (Z + bool) :=
  match n with
  | O => ret (inr havekids)
  | S n' =>
    c <- lift (get_proc pp) ;;
    if decide (p_parent c = Some p) then
      lift (acquire (LkProc pp)) ;;
      c <- lift (get_proc pp) ;;
      if decide (p_state c = ZOMBIE) then
        me <- lift (get_proc p) ;;
        r <- (if addr =? 0 then ret 0
              else copyout (p_pagetable me) addr (le_enc 4 (p_xstate c))) ;;
        if r <? 0 then
          lift (release (LkProc pp)) ;;
          lift (release LkWait) ;;
          ret (inl (-1))
        else
          freeproc pp ;;
          lift (release (LkProc pp)) ;;
          lift (release LkWait) ;;
          ret (inl (p_pid c))
      else
        lift (release (LkProc pp)) ;;
        kwait_scan n' (S pp) p addr true
    else kwait_scan n' (S pp) p addr havekids
  end.

Fixpoint kwait_loop (fuel : nat) (p : nat) (addr : Z) : M mm Z :=
  match fuel with
  | O => out_of_fuel
  | S fuel' =>
    r <- kwait_scan NPROC 0 p addr false ;;
    match r with
    | inl pid => ret pid
    | inr havekids =>
      dead <- (if havekids : bool then k <- lift (killed p) ;; ret (negb (k =? 0))
               else ret true) ;;
      if dead : bool then lift (release LkWait) ;; ret (-1)
      else
        lift (sleep (ChProc p) LkWait) ;;
        kwait_loop fuel' p addr
    end
  end.

Definition kwait (addr : Z) : M mm Z :=
  p <- lift myproc ;;
  lift (acquire LkWait) ;;
  kwait_loop wait_fuel p addr.
End proc.

(** ** The scheduler

    [swtch] hands the processor to the chosen process; the scheduler goes on
    when that process comes back through [sched]. *)

Definition scheduler_one (i : nat) : M mach bool :=
  acquire (LkProc i) ;;
  p <- get_proc i ;;
  found <- (if decide (p_state p = RUNNABLE) then
              set_proc i (p <| p_state := RUNNING |>) ;;
              modify (fun m => m <| cur := Some i |>) ;;
              swtch ;;
              modify (fun m => m <| cur := None |>) ;;
              ret true
            else ret false) ;;
  release (LkProc i) ;;
  ret found.
(** One pass over the process table: whether a process was run ([wfi]
    otherwise waits for an interrupt). *)
Fixpoint scheduler_pass (n i : nat) (found : bool) : M mach bool :=
  match n with
  | O => ret found
  | S n' =>
    f <- scheduler_one i ;;
    scheduler_pass n' (S i) (found || f)
  end.
(** [scheduler] does not return: [rounds] bounds the passes considered. *)
Fixpoint scheduler_loop (rounds : nat) : M mach unit :=
  match rounds with
  | O => out_of_fuel
  | S rounds' => scheduler_pass NPROC 0 false ;; scheduler_loop rounds'
  end.
Definition scheduler (rounds : nat) : M mach unit :=
  modify (fun m => m <| cur := None |>) ;;
  scheduler_loop rounds.
