(* ===== verification/ProcSpec.v ===== *)
(** * Creating and destroying processes

    What [allocproc] and [freeproc] of [kernel/proc.c] promise: a free entry
    of the process table gets a pid, a page for its trap frame and an empty
    address space in which only the trampoline and the trap frame are mapped,
    out of reach of user code; or, with fewer than five pages left, nothing is
    taken.  [freeproc] gives back every page of a process. *)
From stdpp Require Import base numbers strings decidable sets gmap functions list.
From S2P Require Import Prelude.
From S2P Require Import CString.
From S2P Require Import Riscv.
From S2P Require Import Sched.
From S2P Require Import Kalloc.
From S2P Require Import Vm.
From S2P Require Import VmInv.
From S2P Require Import Uvm.
From S2P Require Import VmFork.
From S2P Require Import UserByte.
From S2P Require Import Proc.
Open Scope Z_scope.
Open Scope xv6_scope.

(** ** Entries that are cleared and not freed *)

Lemma unmap_keep s l T A root a x :
  vm_inv s l T A -> T !! [] = Some root -> 0 <= a -> aligned a -> a + PGSIZE <= MAXVA -> A !! path a = Some x ->
  exists s', uvmunmap root a 1 false s = Ok tt s' /\ vm_inv s' l T (delete (path a) A) /\ vstep (own l T) s s'.
Proof.
  intros V HT Ha Hal Hm HA. unfold uvmunmap. rewrite Hal. cbn [Z.eqb negb]. rewrite u64_small by pglia.
  change (S (Z.to_nat 1)) with 2%nat. cbn [uvmunmap_loop]. rewrite (proj2 (Z.ltb_lt a _)) by pglia.
  unfold uvmunmap_one. destruct x as [pa f]. pose proof (PX_slot 0 a ltac:(lia)) as Hi.
  destruct (pi_A _ _ _ (vi_pt _ _ _ _ V) _ _ _ HA) as (_ & π & i & Eπ & [q Hq] & _).
  rewrite path_down in Eπ. apply app_one_inj in Eπ as [<- _].
  destruct (vm_clear_leaf s l T A a q V Hq) as (s' & E' & V' & S').
  assert (E : (pte <- walk root a false ;;
      if pte =? 0 then ret tt
      else e <- load_pte pte ;; if negb (flag e PTE_V) then ret tt else when false (kfree (PTE2PA e)) ;; store_pte pte 0) s = Ok tt s').
  { erewrite bind_ok by (apply (walk_lookup s l T A); [done|done|pglia]). rewrite Hq, (proj2 (Z.eqb_neq _ _)) by (by eapply pte_at_ne).
    erewrite bind_ok by (apply load_pte_ok; by eapply pte_at_ne).
    rewrite (pt_leaf_V _ T A (down 2 a)), <- path_down, HA, bool_decide_true by (done || apply V). done. }
  erewrite bind_ok by exact E. rewrite u64_small by pglia. rewrite (proj2 (Z.ltb_ge _ _)) by lia. by exists s'.
Qed.

(** The tables that the trampoline and the trap frame need. *)
Definition pkeys : list (list Z) := [[]; [255]; [255; 511]].

Lemma pkeys_take a k : a = TRAMPOLINE \/ a = TRAPFRAME -> take k (down 2 a) ∈ pkeys.
Proof.
  intros Ha. assert (E : down 2 a = [255; 511]) by (by destruct Ha as [->| ->]). rewrite E.
  destruct k as [|[|[|k]]]; cbn; set_solver.
Qed.
(** A new page table with leaves [A], over the pages [P]. *)
Record started (s : mm) (l : list Z) (T : tables) (A : leaves) (q : Z) (P : gset Z) : Prop := {
  sd_vm : vm_inv s l T A;
  sd_root : T !! [] = Some q;
  sd_keys : forall π, is_Some (T !! π) -> π ∈ pkeys;
  sd_own : own l T = P;
}.
Lemma started_map s l T A q P a pa perm :
  started s l T A q P -> a = TRAMPOLINE \/ a = TRAPFRAME -> 0 <= pa -> aligned pa -> pa + PGSIZE <= 2 ^ 56 -> 0 <= perm < 2 ^ 10 ->
  A !! path a = None ->
  exists r s' l' T', mappages q a PGSIZE pa perm s = Ok r s' /\ vstep P s s' /\
    ((r = 0 /\ started s' l' T' (<[path a := (pa, Z.lor perm PTE_V)]> A) q P) \/
     (r = -1 /\ started s' [] T' A q P /\ (size P <= 3)%nat)).
Proof.
  intros [V HT Hk <-] Ha Hp Hpa Hpm Hperm HA.
  destruct (map_one (fun π => π ∈ pkeys) s l T A q a pa perm V HT) as (r & s' & l' & T' & E & S' & O' & [Su On] & R); try done.
  { destruct Ha as [->| ->]; done. }
  { destruct Ha as [->| ->]; done. }
  { destruct Ha as [->| ->]; done. }
  { intros k. by apply pkeys_take. }
  assert (Hk' : forall π, is_Some (T' !! π) -> π ∈ pkeys) by (intros π [Hπ|Hπ]%On; [by apply Hk|done]).
  assert (HT' : T' !! [] = Some q) by (by eapply lookup_weaken).
  exists r, s', l', T'. split; [done|]. split; [done|].
  destruct R as [[-> V']|(-> & -> & V')]; [left|right]; (split; [done|]); [done|]. split; [done|].
  rewrite <- O'. by apply (tables_room [] T' pkeys).
Qed.

Lemma started_root s q l :
  kmem_inv s (q :: l) -> LkKmem ∉ held (mm_mach s) ->
  exists s', uvmcreate s = Ok q s' /\ started s' l {[ [] := q ]} ∅ q (list_to_set (q :: l)) /\ vstep (list_to_set (q :: l)) s s' /\
    q <> 0 /\ size (list_to_set (q :: l) : gset Z) = S (length l).
Proof.
  intros K L. destruct (uvmcreate_ok s q l K L) as (s' & E & U & S). exists s'. split; [done|].
  pose proof (ui_vm _ _ _ _ _ U) as V. rewrite (left_id_L ∅ (∪)) in V. split_and!.
  - split; [done|apply lookup_singleton_eq| |].
    + intros π [p Hp]. apply lookup_singleton_Some in Hp as [<- _]. apply list_elem_of_here.
    + unfold own. rewrite map_img_singleton_L. cbn [list_to_set]. set_solver.
  - eapply vstep_mono; [|exact S]. set_solver.
  - destruct (valid_page_range _ _ q K) as [H _]; [|lia]. by apply (Forall_cons_1 _ _ _ (ki_valid _ _ K)).
  - rewrite size_list_to_set; [done|apply K].
Qed.
(** The table is given up. *)
Lemma no_table s l T q P :
  started s l T ∅ q P -> exists s' l', uvmfree q 0 s = Ok tt s' /\ kmem_inv s' l' /\ list_to_set l' = P /\ vstep P s s'.
Proof.
  intros [V HT _ <-]. unfold uvmfree. cbn [Z.ltb Z.compare when]. erewrite bind_ok by done. by apply freewalk_ok.
Qed.

Section proc.
Context `{!Image}.

Definition tramp_leaf : Z * Z := (trampoline, Z.lor (Z.lor PTE_R PTE_X) PTE_V).
Definition frame_leaf (tf : Z) : Z * Z := (tf, Z.lor (Z.lor PTE_R PTE_W) PTE_V).
(** The pages of a process that are not the user's. *)
Definition foreign (tf : Z) : leaves := {[ path TRAMPOLINE := tramp_leaf; path TRAPFRAME := frame_leaf tf ]}.
Lemma foreign_kernel tf κ pa f : foreign tf !! κ = Some (pa, f) -> flag f PTE_U = false.
Proof using.
  unfold foreign. intros [[_ [= _ <-]]|[_ [_ [= _ <-]]%lookup_singleton_Some]]%lookup_insert_Some; done.
Qed.

(** ** [freeproc] *)

(** Memory outside the pages [P] is as it was. *)
Record mstep (P : gset Z) (s s' : mm) : Prop := {
  ms_end : k_end s' = k_end s;
  ms_mem : forall a, (forall p, p ∈ P -> ~ in_page p a) -> mem s' a = mem s a;
}.
Lemma mstep_trans P s1 s2 s3 : mstep P s1 s2 -> mstep P s2 s3 -> mstep P s1 s3.
Proof using. intros [E1 H1] [E2 H2]. split; [congruence|]. intros a Ha. by rewrite H2, H1. Qed.
Lemma vstep_mstep P P' s s' : vstep P s s' -> P ⊆ P' -> mstep P' s s'.
Proof using. intros [_ E Hm] Hs. split; [done|]. intros a Ha. apply Hm. intros p Hp. by apply Ha, Hs. Qed.

(** Process [p], with user pages [U]. *)
Record pmem (s : mm) (l : list Z) (p : proc) (T : tables) (U : leaves) : Prop := {
  pm_uvm : uvm_inv s l T U (foreign (p_trapframe p));
  pm_root : T !! [] = Some (p_pagetable p);
  pm_frame : spare s l T U (p_trapframe p);
  pm_size : 0 <= p_sz p <= TRAPFRAME;
  pm_below : forall κ x, U !! κ = Some x -> κ ∈ range_paths 0 (pages_below (p_sz p));
}.
(** The pages it and the allocator own. *)
Definition pown (l : list Z) (p : proc) (T : tables) (U : leaves) : gset Z := uown l T U ∪ {[p_trapframe p]}.

Definition cleared (p : proc) : proc :=
  p <| p_trapframe := 0 |> <| p_pagetable := 0 |> <| p_sz := 0 |> <| p_pid := 0 |> <| p_parent := None |>
    <| p_name := <[0%nat := 0]> (p_name p) |> <| p_chan := ChNull |> <| p_killed := 0 |>
    <| p_xstate := 0 |> <| p_state := UNUSED |>.

Lemma uvm_forget s l T U F root a x :
  uvm_inv s l T U F -> T !! [] = Some root -> 0 <= a -> aligned a -> a + PGSIZE <= MAXVA -> F !! path a = Some x ->
  exists s', uvmunmap root a 1 false s = Ok tt s' /\ uvm_inv s' l T U (delete (path a) F) /\ vstep (own l T) s s'.
Proof using.
  intros [V Dj Pg Ij Fo] HT Ha Hal Hm HF.
  assert (HU : U !! path a = None) by (eapply map_disjoint_Some_l; [by symmetry|done]).
  destruct (unmap_keep s l T (U ∪ F) root a x V HT) as (s' & E & V' & S); try done; [by apply lookup_union_Some_r|].
  exists s'. split; [done|]. split; [|done]. rewrite delete_union, (delete_id U) in V' by done. split; try done.
  - by apply map_disjoint_delete_r.
  - by rewrite (vs_end _ _ _ S).
  - intros κ pa f [_ Hκ]%lookup_delete_Some. by eapply Fo.
Qed.

Lemma freepagetable_ok s l T U tf root sz :
  uvm_inv s l T U (foreign tf) -> T !! [] = Some root -> 0 <= sz <= TRAPFRAME ->
  (forall κ x, U !! κ = Some x -> κ ∈ range_paths 0 (pages_below sz)) ->
  exists s' l', proc_freepagetable root sz s = Ok tt s' /\ kmem_inv s' l' /\ list_to_set l' = uown l T U /\ vstep (uown l T U) s s'.
Proof using.
  intros I HT Hsz Hb. unfold proc_freepagetable.
  destruct (uvm_forget s l T U (foreign tf) root TRAMPOLINE tramp_leaf) as (s1 & E1 & I1 & S1); try done.
  erewrite bind_ok by exact E1.
  destruct (uvm_forget s1 l T U _ root TRAPFRAME (frame_leaf tf) I1) as (s2 & E2 & I2 & S2); try done.
  erewrite bind_ok by exact E2.
  assert (EF : delete (path TRAPFRAME) (delete (path TRAMPOLINE) (foreign tf)) = ∅).
  { unfold foreign. rewrite delete_insert_eq, delete_singleton_ne, delete_singleton_eq by done. done. }
  rewrite EF in I2. destruct (uvmfree_ok s2 l T U root sz I2 HT) as (s3 & l3 & E3 & K3 & _ & O3 & S3); [|done|].
  { change TRAPFRAME with (MAXVA - 2 * PGSIZE) in Hsz. pglia. }
  exists s3, l3. split; [done|]. split; [done|]. split; [done|].
  eapply vstep_trans; [|exact S3]. eapply vstep_mono; [|by eapply vstep_trans]. unfold uown. set_solver.
Qed.

Lemma procs_twice m i x y :
  let m' := m <| procs := <[i := x]> (procs m) |> in
  m' <| procs := <[i := y]> (procs m') |> = m <| procs := <[i := y]> (procs m) |>.
Proof using. destruct m. unfold setf. simpl. by rewrite list_insert_insert_eq. Qed.
Lemma kmem_mach m s l : kmem_inv s l -> kmem_inv (s <| mm_mach := m |>) l.
Proof using. by intros []. Qed.

Lemma freeproc_ok i p s l T U :
  procs (mm_mach s) !! i = Some p -> pmem s l p T U ->
  exists s' l', freeproc i s = Ok tt s' /\ kmem_inv s' l' /\ list_to_set l' = pown l p T U /\
    mm_mach s' = mm_mach s <| procs := <[i := cleared p]> (procs (mm_mach s)) |> /\ mstep (pown l p T U) s s'.
Proof using.
  intros Hp [I HT Sp Hsz Hb]. unfold freeproc. erewrite bind_ok by (by apply lift_read, get_proc_ok).
  pose proof (ui_vm _ _ _ _ _ I) as V. destruct (valid_page_range _ _ _ (vi_k _ _ _ _ V) (proj1 Sp)) as [Htf _].
  rewrite (proj2 (Z.eqb_neq (p_trapframe p) 0)) by lia. cbn [negb when].
  destruct (uvm_kfree_spare s l T U _ _ I Sp) as (s1 & E1 & I1 & S1). erewrite bind_ok by exact E1.
  pose proof (vs_mach _ _ _ S1) as M1. assert (Hp1 : procs (mm_mach s1) !! i = Some p) by (by rewrite M1).
  erewrite bind_ok by (apply lift_ok, (upd_proc_ok i _ (mm_mach s1) p Hp1)). set (m2 := mm_mach s1 <| procs := _ |>). change (inj m2 s1) with (s1 <| mm_mach := m2 |>).
  pose proof (uvm_mach _ _ _ _ _ m2 I1 (vi_lock _ _ _ _ (ui_vm _ _ _ _ _ I1))) as I2.
  assert (Hr : p_pagetable p <> 0) by (pose proof (pi_page _ _ _ (vi_pt _ _ _ _ V) _ _ HT); lia).
  rewrite (proj2 (Z.eqb_neq (p_pagetable p) 0)) by done. cbn [negb when].
  destruct (freepagetable_ok _ _ _ _ _ (p_pagetable p) (p_sz p) I2 HT Hsz Hb) as (s3 & l3 & E3 & K3 & O3 & S3). erewrite bind_ok by exact E3.
  pose proof (vs_mach _ _ _ S3) as M3. change (mm_mach (s1 <| mm_mach := m2 |>)) with m2 in M3.
  assert (Hp3 : procs (mm_mach s3) !! i = Some (p <| p_trapframe := 0 |>)).
  { rewrite M3. apply list_lookup_insert_eq. by eapply lookup_lt_Some. }
  erewrite lift_ok by (apply (upd_proc_ok i _ (mm_mach s3) _ Hp3)). set (m4 := mm_mach s3 <| procs := _ |>). change (inj m4 s3) with (s3 <| mm_mach := m4 |>).
  assert (Hown : uown (p_trapframe p :: l) T U = pown l p T U) by (unfold pown, uown, own; cbn [list_to_set]; set_solver).
  rewrite Hown in O3, S3. exists (s3 <| mm_mach := m4 |>), l3. split; [done|]. split; [by apply kmem_mach|]. split; [done|]. split.
  - change (m4 = mm_mach s <| procs := <[i := cleared p]> (procs (mm_mach s)) |>). unfold m4. rewrite M3. unfold m2. rewrite M1.
    apply (procs_twice (mm_mach s) i).
  - eapply mstep_trans; [eapply vstep_mstep; [exact S1|unfold pown; set_solver]|].
    destruct S3 as [_ En Me]. split; [exact En|exact Me].
Qed.

(** Process [i] updated again. *)
Definition with_proc (i : nat) (p : proc) (m : mach) : mach := m <| procs := <[i := p]> (procs m) |>.
Lemma upd_again i f x m s :
  (i < length (procs m))%nat -> mm_mach s = with_proc i x m ->
  lift (upd_proc i f) s = Ok tt (s <| mm_mach := with_proc i (f x) m |>).
Proof using.
  intros Hi Hm. erewrite lift_ok.
  2: { change (prj s) with (mm_mach s). rewrite Hm. apply upd_proc_ok. by apply list_lookup_insert_eq. }
  cbn [inj embed_mach_mm]. do 2 f_equal. apply (procs_twice m i).
Qed.
Lemma get_again i x m s : (i < length (procs m))%nat -> mm_mach s = with_proc i x m -> lift (get_proc i) s = Ok x s.
Proof using. intros Hi Hm. apply lift_read, get_proc_ok. change (prj s) with (mm_mach s). rewrite Hm. by apply list_lookup_insert_eq. Qed.

(** A process without an address space yet. *)
Lemma freeproc_bare i p m s l :
  (i < length (procs m))%nat -> mm_mach s = with_proc i p m -> p_pagetable p = 0 -> kmem_inv s l -> LkKmem ∉ held m ->
  (p_trapframe p <> 0 -> valid_page (k_end s) (p_trapframe p) /\ p_trapframe p ∉ l) ->
  exists s' l', freeproc i s = Ok tt s' /\ kmem_inv s' l' /\ mm_mach s' = with_proc i (cleared p) m /\
    l' = (if p_trapframe p =? 0 then l else p_trapframe p :: l) /\ mstep (list_to_set l') s s'.
Proof using.
  intros Hi Hm Hpt K L Htf. unfold freeproc. erewrite bind_ok by (by eapply get_again).
  assert (Hfree : exists s1 l1, when (negb (p_trapframe p =? 0)) (kfree (p_trapframe p)) s = Ok tt s1 /\ kmem_inv s1 l1 /\
    mm_mach s1 = mm_mach s /\ l1 = (if p_trapframe p =? 0 then l else p_trapframe p :: l) /\ mstep (list_to_set l1) s s1).
  { destruct (Z.eqb_spec (p_trapframe p) 0) as [Hz|Hz]; cbn [negb when]; [by exists s, l|].
    destruct (Htf Hz) as [Hv Hni]. destruct (kfree_ok s (p_trapframe p) l K Hv Hni) as (s1 & E1 & K1 & M1 & N1 & O1).
    { by rewrite Hm. }
    exists s1, (p_trapframe p :: l). split_and!; try done. split; [done|]. intros a Ha. apply O1, Ha. set_solver. }
  destruct Hfree as (s1 & l1 & E1 & K1 & M1 & Hl1 & S1). erewrite bind_ok by exact E1. rewrite Hm in M1.
  erewrite bind_ok by (by eapply upd_again). rewrite Hpt. cbn [Z.eqb negb when]. erewrite bind_ok by done.
  erewrite (upd_again i _ (p <| p_trapframe := 0 |>) m) by done.
  eexists _, l1. split; [reflexivity|]. split; [by do 2 apply kmem_mach|]. split; [|split; [done|by destruct S1]].
  change (with_proc i (cleared p) m = with_proc i (cleared p) m). done.
Qed.

(** ** [allocproc] *)

Hypothesis Htr : 0 <= trampoline /\ aligned trampoline /\ trampoline + PGSIZE <= 2 ^ 56.

Lemma proc_pagetable_ok i p s l :
  kmem_inv s l -> LkKmem ∉ held (mm_mach s) -> procs (mm_mach s) !! i = Some p ->
  valid_page (k_end s) (p_trapframe p) ->
  exists r s' l', proc_pagetable i s = Ok r s' /\ vstep (list_to_set l) s s' /\
    ((r <> 0 /\ exists T, vm_inv s' l' T (foreign (p_trapframe p)) /\ T !! [] = Some r /\ own l' T = list_to_set l) \/
     (r = 0 /\ (length l <= 3)%nat /\ kmem_inv s' l' /\ list_to_set l' = (list_to_set l : gset Z))).
Proof using Htr.
  intros K L Hp Hv. destruct (valid_page_range _ _ _ K Hv) as [Htf Htfa]. destruct Htr as (Ht1 & Ht2 & Ht3). unfold proc_pagetable.
  destruct l as [|q l].
  { exists 0, s, []. erewrite (bind_ok uvmcreate); [|unfold uvmcreate; by erewrite bind_ok by (by apply kalloc_none)].
    split; [done|]. split; [done|]. right. split_and!; try done. cbn. lia. }
  destruct (started_root s q l K L) as (s1 & E1 & D1 & S1 & Hq & Hsz). set (P := list_to_set (q :: l) : gset Z) in *.
  erewrite bind_ok by exact E1. rewrite (proj2 (Z.eqb_neq q 0)) by done.
  destruct (started_map s1 l _ ∅ q P TRAMPOLINE trampoline (Z.lor PTE_R PTE_X) D1) as (r2 & s2 & l2 & T2 & E2 & S2 & R2); try done; [by left|].
  erewrite bind_ok by exact E2. destruct R2 as [[-> D2]|(-> & D2 & Hs)]; cbn [Z.ltb Z.compare].
  2: { destruct (no_table s2 [] T2 q P D2) as (s3 & l3 & E3 & K3 & O3 & S3). erewrite bind_ok by exact E3.
       exists 0, s3, l3. split; [done|]. split; [by eapply vstep_trans, vstep_trans|]. right. split_and!; try done. cbn [length]. lia. }
  assert (Hp2 : procs (mm_mach s2) !! i = Some p) by (by rewrite (vs_mach _ _ _ S2), (vs_mach _ _ _ S1)).
  erewrite bind_ok by (by apply lift_read, get_proc_ok).
  destruct (started_map s2 l2 T2 _ q P TRAPFRAME (p_trapframe p) (Z.lor PTE_R PTE_W) D2) as (r4 & s4 & l4 & T4 & E4 & S4 & R4);
    try done; try lia; [destruct Hv as [_ Hv]; change PHYSTOP with 0x88000000 in Hv; pglia|].
  erewrite bind_ok by exact E4. destruct R4 as [[-> D4]|(-> & D4 & Hs)]; cbn [Z.ltb Z.compare].
  { exists q, s4, l4. split; [done|]. split; [by eapply vstep_trans, vstep_trans|]. left. split; [done|].
    exists T4. destruct D4 as [V4 HT4 _ O4]. split; [|done]. rewrite insert_insert_ne in V4 by done. exact V4. }
  destruct (unmap_keep s4 [] T4 _ q TRAMPOLINE tramp_leaf (sd_vm _ _ _ _ _ _ D4)) as (s5 & E5 & V5 & S5); try done; [apply D4|].
  rewrite delete_insert_eq, delete_empty in V5. erewrite bind_ok by exact E5.
  destruct (no_table s5 [] T4 q P) as (s6 & l6 & E6 & K6 & O6 & S6); [split; [done|apply D4..]|]. erewrite bind_ok by exact E6.
  exists 0, s6, l6. split; [done|]. rewrite (sd_own _ _ _ _ _ _ D4) in S5.
  split; [by eapply vstep_trans, vstep_trans, vstep_trans, vstep_trans|]. right. split_and!; try done. cbn [length]. lia.
Qed.

Lemma allocpid_ok m : LkPid ∉ held m -> allocpid m = Ok (nextpid m) (m <| nextpid := s32 (nextpid m + 1) |>).
Proof using.
  intros Hl. unfold allocpid. erewrite bind_ok by (by apply acquire_ok). erewrite bind_ok by done. cbv zeta.
  erewrite bind_ok by done. erewrite bind_ok by (by apply release_ok). by destruct m.
Qed.

(** The entry after [allocproc]. *)
Definition fresh_proc (pid tf pt : Z) (p : proc) : proc :=
  p <| p_pid := pid |> <| p_state := USED |> <| p_trapframe := tf |> <| p_pagetable := pt |>
    <| p_context := mkcontext forkret_addr (u64 (p_kstack p + PGSIZE)) (replicate 12 0) |>.

(** What [allocproc] does with the free entry [i], whose lock it holds. *)
Definition allocated (i : nat) (p : proc) (s : mm) (l : list Z) (h : list lockid) (r : option nat) (s' : mm) : Prop :=
  let m := mm_mach s <| nextpid := s32 (nextpid (mm_mach s) + 1) |> in
  mstep (list_to_set l) s s' /\
  ((exists tf pt l' T, let p' := fresh_proc (nextpid (mm_mach s)) tf pt p in
      r = Some i /\ mm_mach s' = with_proc i p' m <| held := LkProc i :: h |> /\ pmem s' l' p' T ∅ /\ pown l' p' T ∅ = list_to_set l) \/
   (exists l', r = None /\ mm_mach s' = with_proc i (cleared p) m <| held := h |> /\ kmem_inv s' l' /\
      list_to_set l' = (list_to_set l : gset Z) /\ (length l <= 4)%nat)).

Lemma pmem_new s l p T :
  vm_inv s l T (foreign (p_trapframe p)) -> T !! [] = Some (p_pagetable p) -> valid_page (k_end s) (p_trapframe p) ->
  p_trapframe p ∉ own l T -> p_sz p = 0 -> pmem s l p T ∅.
Proof using.
  intros V HT Hv Hn Hz. split; try done.
  - split; try done; [apply map_disjoint_empty_l|by apply foreign_kernel].
  - split; [done|]. by rewrite uown_empty.
  - rewrite Hz. done.
Qed.
Lemma pmem_mach k q s l p T U :
  pmem s l p T U -> LkKmem ∉ held k -> p_trapframe q = p_trapframe p -> p_pagetable q = p_pagetable p -> p_sz q = p_sz p ->
  pmem (s <| mm_mach := k |>) l q T U.
Proof using. intros [I HT Sp Hs Hb] Hk E1 E2 E3. split; rewrite ?E1, ?E2, ?E3; try done. by apply uvm_mach. Qed.
Lemma give_back i p m s l h :
  (i < length (procs m))%nat -> mm_mach s = with_proc i p m -> p_pagetable p = 0 -> kmem_inv s l -> held m = LkProc i :: h -> LkKmem ∉ h ->
  (p_trapframe p <> 0 -> valid_page (k_end s) (p_trapframe p) /\ p_trapframe p ∉ l) ->
  exists s' l', (freeproc i ;; lift (release (LkProc i)) ;; ret (@None nat)) s = Ok None s' /\ kmem_inv s' l' /\
    mm_mach s' = with_proc i (cleared p) m <| held := h |> /\ l' = (if p_trapframe p =? 0 then l else p_trapframe p :: l) /\
    mstep (list_to_set l') s s'.
Proof using.
  intros Hi Hm Hpt K Hh Hk Htf. destruct (freeproc_bare i p m s l) as (s1 & l1 & E1 & K1 & M1 & El & S1); try done.
  { rewrite Hh. by apply not_elem_of_cons. }
  erewrite bind_ok by exact E1. erewrite bind_ok.
  2: { apply lift_ok, release_ok. change (prj s1) with (mm_mach s1). rewrite M1. exact Hh. }
  change (prj s1) with (mm_mach s1). rewrite M1. eexists _, l1. split; [reflexivity|]. split; [by apply kmem_mach|].
  split; [done|]. split; [done|]. by destruct S1.
Qed.

Lemma allocproc_found_ok i p s l h :
  held (mm_mach s) = LkProc i :: h -> LkKmem ∉ h -> LkPid ∉ h -> procs (mm_mach s) !! i = Some p ->
  p_pagetable p = 0 -> p_sz p = 0 -> kmem_inv s l ->
  exists r s', allocproc_found i s = Ok r s' /\ allocated i p s l h r s'.
Proof using Htr.
  intros Hh Hk Hpid Hp Hpt Hsz K. set (m := mm_mach s <| nextpid := s32 (nextpid (mm_mach s) + 1) |>).
  assert (Hi : (i < length (procs m))%nat) by (by eapply lookup_lt_Some).
  assert (Hkm : LkKmem ∉ held m) by (change (held m) with (held (mm_mach s)); rewrite Hh; by apply not_elem_of_cons).
  unfold allocproc_found. erewrite bind_ok.
  2: { apply lift_ok, allocpid_ok. change (held (prj s)) with (held (mm_mach s)). rewrite Hh. by apply not_elem_of_cons. }
  change (prj s) with (mm_mach s). fold m. change (inj m s) with (s <| mm_mach := m |>).
  erewrite bind_ok by (apply lift_ok, (upd_proc_ok i _ m p Hp)).
  set (p1 := _ p : proc). change (inj _ _) with (s <| mm_mach := with_proc i p1 m |>).
  set (s1 := s <| mm_mach := with_proc i p1 m |>). assert (K1 : kmem_inv s1 l) by (by apply kmem_mach).
  destruct l as [|tf l].
  { erewrite bind_ok by (by apply kalloc_none). erewrite bind_ok by (by apply (upd_again i _ p1 m)). rewrite Z.eqb_refl.
    set (p2 := p1 <| p_trapframe := 0 |>). destruct (give_back i p2 m (s1 <| mm_mach := with_proc i p2 m |>) [] h)
      as (s2 & l2 & E2 & K2 & M2 & -> & S2); try done; [by apply kmem_mach|].
    exists None, s2. split; [exact E2|]. split; [by destruct S2|]. right. exists []. split_and!; try done. cbn. lia. }
  destruct (kalloc_some s1 tf l K1 Hkm) as (s2 & E2 & K2 & (M2 & N2 & O2) & _ & Hv & Hni). erewrite bind_ok by exact E2.
  destruct (valid_page_range _ _ _ K1 Hv) as [Htf _].
  erewrite bind_ok by (by apply (upd_again i _ p1 m)). rewrite (proj2 (Z.eqb_neq tf 0)) by lia.
  set (p2 := p1 <| p_trapframe := tf |>). set (s3 := s2 <| mm_mach := with_proc i p2 m |>).
  destruct (proc_pagetable_ok i p2 s3 l) as (pt & s4 & l4 & E4 & S4 & R4);
    [by apply kmem_mach|done|by apply list_lookup_insert_eq|change (k_end s3) with (k_end s2); by rewrite N2|].
  erewrite bind_ok by exact E4. pose proof (vs_mach _ _ _ S4) as M4. change (mm_mach s3) with (with_proc i p2 m) in M4.
  assert (St : mstep (list_to_set (tf :: l)) s s4).
  { apply (mstep_trans _ _ s2); [split; [done|]; intros a Ha; apply O2, Ha; set_solver|].
    destruct (vstep_mstep _ (list_to_set (tf :: l)) _ _ S4) as [En Me]; [set_solver|]. by split. }
  erewrite bind_ok by (by apply (upd_again i _ p2 m)).
  destruct R4 as [(Hne & T & V & HT & Ho)|(-> & Hlen & K4 & Hl4)].
  - rewrite (proj2 (Z.eqb_neq pt 0)) by done. set (p3 := p2 <| p_pagetable := pt |>).
    erewrite bind_ok by (by apply (upd_again i _ p3 m)). eexists _, _. split; [reflexivity|]. split; [by destruct St|].
    left. exists tf, pt, l4, T. cbv zeta. split; [done|]. split.
    { change (mm_mach _) with (with_proc i (fresh_proc (nextpid (mm_mach s)) tf pt p) m) at 1. rewrite <- Hh. unfold m. by destruct (mm_mach s). }
    assert (Hnt : tf ∉ own l4 T) by (rewrite Ho; by rewrite elem_of_list_to_set). split.
    + apply pmem_new; [|exact HT| |exact Hnt|exact Hsz].
      * destruct V as [[] ? ? ? ?]. split; try done.
      * change (valid_page (k_end s4) tf). by rewrite (ms_end _ _ _ St).
    + unfold pown. rewrite uown_empty, Ho. cbn [list_to_set]. change (p_trapframe _) with tf. set_solver.
  - cbn [Z.eqb]. set (p3 := p2 <| p_pagetable := 0 |>). set (s5 := s4 <| mm_mach := with_proc i p3 m |>).
    destruct (give_back i p3 m s5 l4 h) as (s6 & l6 & E6 & K6 & M6 & El & S6); try done; [by apply kmem_mach| |].
    { intros _. split; [change (valid_page (k_end s4) tf); by rewrite (ms_end _ _ _ St)|].
      change (p_trapframe p3) with tf. rewrite <- (elem_of_list_to_set (C := gset Z)), Hl4. by rewrite elem_of_list_to_set. }
    change (p_trapframe p3) with tf in El. rewrite (proj2 (Z.eqb_neq tf 0)) in El by lia.
    assert (Hl6 : list_to_set l6 = (list_to_set (tf :: l) : gset Z)) by (rewrite El; cbn [list_to_set]; by rewrite Hl4).
    exists None, s6. split; [exact E6|]. split; [eapply mstep_trans; [exact St|rewrite <- Hl6; by destruct S6]|].
    right. exists l6. split_and!; try done. cbn [length]. lia.
Qed.

Definition unused (p : proc) : Prop := p_state p = UNUSED.
#[export] Instance unused_dec p : Decision (unused p) := decide (p_state p = UNUSED).

Lemma allocproc_from_ok n i s l h :
  (i + n)%nat = length (procs (mm_mach s)) -> held (mm_mach s) = h -> LkKmem ∉ h -> LkPid ∉ h -> (forall j, LkProc j ∉ h) ->
  (forall p, p ∈ procs (mm_mach s) -> unused p -> p_pagetable p = 0 /\ p_sz p = 0) -> kmem_inv s l ->
  exists r s', allocproc_from n i s = Ok r s' /\
    match list_find unused (drop i (procs (mm_mach s))) with
    | Some (k, p) => allocated (i + k) p s l h r s'
    | None => r = None /\ s' = s
    end.
Proof using Htr.
  revert i. induction n as [|n IH]; intros i Hi Hh Hk Hpid Hlk Hun K; cbn [allocproc_from].
  { exists None, s. split; [done|]. by rewrite drop_ge by lia. }
  destruct (lookup_lt_is_Some_2 (procs (mm_mach s)) i) as [p Hp]; [lia|]. rewrite (drop_S _ _ _ Hp). cbn [list_find].
  erewrite bind_ok by (apply lift_ok, acquire_ok; change (held (prj s)) with (held (mm_mach s)); rewrite Hh; apply Hlk).
  change (prj s) with (mm_mach s). rewrite Hh. set (m1 := mm_mach s <| held := _ |>). change (inj m1 s) with (s <| mm_mach := m1 |>).
  erewrite bind_ok by (by apply lift_read, get_proc_ok). unfold unused at 1. destruct (decide (p_state p = UNUSED)) as [Hu|Hu].
  - destruct (Hun p (list_elem_of_lookup_2 _ _ _ Hp) Hu) as [Hpt Hsz].
    destruct (allocproc_found_ok i p (s <| mm_mach := m1 |>) l h) as (r & s' & E & [St R]); try done; [by apply kmem_mach|].
    exists r, s'. split; [done|]. rewrite Nat.add_0_r. split; [by destruct St|].
    unfold m1 in R. destruct (mm_mach s). exact R.
  - erewrite bind_ok by (by apply lift_ok, release_ok).
    assert (Es : inj (prj (s <| mm_mach := m1 |>) <| held := h |>) (s <| mm_mach := m1 |>) = s).
    { unfold m1. rewrite <- Hh. by destruct s as [[]]. }
    rewrite Es. destruct (IH (S i)) as (r & s' & E & HR); try done; [lia|]. exists r, s'. split; [done|].
    destruct (list_find unused (drop (S i) (procs (mm_mach s)))) as [[k q]|]; [|done]. cbn. by rewrite <- plus_n_Sm.
Qed.

(** C15: a new process.  [allocproc] takes the first free entry of the process
    table and returns it locked, with the next pid, a page for its trap frame
    and a page table that maps the trampoline and the trap frame for the
    kernel and nothing for the user, all made of free pages; or it returns
    null, with no page taken, because no entry is free or fewer than five
    pages are.  It writes no page that was not free. *)
Theorem allocproc_spec s l h :
  length (procs (mm_mach s)) = NPROC -> held (mm_mach s) = h -> LkKmem ∉ h -> LkPid ∉ h -> (forall j, LkProc j ∉ h) ->
  (forall p, p ∈ procs (mm_mach s) -> unused p -> p_pagetable p = 0 /\ p_sz p = 0) -> kmem_inv s l ->
  exists r s', allocproc s = Ok r s' /\
    match list_find unused (procs (mm_mach s)) with
    | Some (i, p) => allocated i p s l h r s'
    | None => r = None /\ s' = s
    end.
Proof using Htr. intros Hn. by apply (allocproc_from_ok NPROC 0). Qed.
End proc.

(** A kernel whose trampoline is at [0x80007000]. *)
#[local] Instance demo_image : Image := Build_Image (replicate 14 0) 0x80007000 0x80007000 0x8000709a 0x80006000 0x80002000 0x80001000.

(** The first process, right after [kinit]. *)
Lemma allocproc_spec_witness :
  exists s l s', kinit mm_boot = Ok tt s /\ allocproc s = Ok (Some 0%nat) s' /\ allocated 0 blank_proc s l [] (Some 0%nat) s'.
Proof.
  destruct (kinit_spec mm_boot kmem_inv_boot) as (s & E & K & M); [apply not_elem_of_nil|by apply Z.leb_le|].
  set (l := reverse (pages_between (k_end mm_boot) PHYSTOP)) in K.
  destruct (allocproc_spec ltac:(split; [by apply Z.leb_le|split; [reflexivity|by apply Z.leb_le]]) s l []) as (r & s' & E' & H).
  - rewrite M. reflexivity.
  - rewrite M. reflexivity.
  - apply not_elem_of_nil.
  - apply not_elem_of_nil.
  - intros j. apply not_elem_of_nil.
  - rewrite M. intros p Hp _. apply elem_of_replicate in Hp as [-> _]. split; reflexivity.
  - exact K.
  - rewrite M in H. change (list_find unused (procs mach_boot)) with (Some (0%nat, blank_proc)) in H. cbn beta iota in H.
    destruct r as [i|].
    + destruct H as [S [(tf & pt & l' & T & H)|(l' & H & _)]]; [|discriminate H]. assert (i = 0%nat) as -> by (destruct H as [[= ->] _]; reflexivity).
      exists s, l, s'. split; [exact E|]. split; [exact E'|]. split; [exact S|]. left. exists tf, pt, l', T. exact H.
    + exfalso. destruct H as [_ [(tf & pt & l' & T & H & _)|(l' & _ & _ & _ & _ & H)]]; [discriminate H|].
      revert H. unfold l. rewrite length_reverse. unfold pages_between, page_range. rewrite length_fmap, length_seq.
      apply Nat.lt_nge, Nat2Z.inj_lt. rewrite Z2Nat.id by (by apply Z.leb_le). by apply Z.ltb_lt.
Defined.
