(* ===== verification/Args.v ===== *)
(** * System call arguments, [kernel/syscall.c]

    Fetching the arguments of a system call from the trap frame and from
    user memory. *)

From stdpp Require Import base numbers strings decidable sets gmap functions list.
From S2P Require Import Prelude.
From S2P Require Import CString.
From S2P Require Import Riscv.
From S2P Require Import Sched.
From S2P Require Import Sleeplock.
From S2P Require Import Kalloc.
From S2P Require Import Vm.
From S2P Require Import Proc.
Open Scope Z_scope.
Open Scope xv6_scope.

(** The characters of an array before its nul. *)
Fixpoint c_string (l : list Z) : list Z :=
  match l with
  | [] => []
  | c :: l' => if c =? 0 then [] else c :: c_string l'
  end.

(** The word, or [None] for -1. *)
Definition fetchaddr (addr : Z) : M mm (option Z) :=
  i <- lift myproc ;;
  p <- lift (get_proc i) ;;
  if (p_sz p <=? addr) || (p_sz p <? u64 (addr + 8)) then ret None
  else
    '(r, bs) <- copyin (p_pagetable p) addr 8 ;;
    if negb (r =? 0) then ret None else ret (Some (le_dec bs)).

(** The value returned, and the bytes stored into the buffer. *)
Definition fetchstr (addr : Z) (max : nat) : M mm (Z * list Z) :=
  i <- lift myproc ;;
  p <- lift (get_proc i) ;;
  '(r, bs) <- copyinstr (p_pagetable p) addr max ;;
  if r <? 0 then ret (-1, bs) else ret (Z.of_nat (length (c_string bs)), bs).

Definition argraw (n : Z) : M mm Z :=
  i <- lift myproc ;;
  if n =? 0 then tf_get i tf_a0
  else if n =? 1 then tf_get i tf_a1
  else if n =? 2 then tf_get i tf_a2
  else if n =? 3 then tf_get i tf_a3
  else if n =? 4 then tf_get i tf_a4
  else if n =? 5 then tf_get i tf_a5
  else panic "argraw".
Definition argint (n : Z) : M mm Z := v <- argraw n ;; ret (s32 v).
Definition argaddr (n : Z) : M mm Z := argraw n.
Definition argstr (n : Z) (max : nat) : M mm (Z * list Z) :=
  addr <- argaddr n ;; fetchstr addr max.
