(* ===== verification/Bio.v ===== *)
(** * The buffer cache, [kernel/bio.c]

    The cache is the array [bcache.buf] with the circular, doubly linked
    list through [prev] and [next] that keeps the buffers in the order of
    their last use.  Buffers are named by their index, [bhead] being
    [bcache.head].  The disk is seen through what [virtio_disk_rw] promises,
    the transfer of one whole block; every write is also recorded in
    [wtrace], in the order in which it reached the disk, so that a crash can
    be described as a prefix of the writes. *)

From stdpp Require Import base numbers strings decidable sets gmap functions list.
From S2P Require Import Prelude.
From S2P Require Import CString.
From S2P Require Import Riscv.
From S2P Require Import Sched.
From S2P Require Import Kalloc.
From S2P Require Import Sleeplock.
Open Scope Z_scope.
Open Scope xv6_scope.

Definition BSIZE : Z := 1024.
Definition bsize : nat := Z.to_nat BSIZE.
Definition zero_block : list Z := replicate bsize 0.

Record buf : Type := mkbuf {
  b_valid : Z;  (** has data been read from disk? *)
  b_disk : Z;  (** does disk own buf? *)
  b_dev : Z;
  b_blockno : Z;
  b_lock : sleeplock;
  b_refcnt : Z;
  b_prev : nat;
  b_next : nat;
  b_data : list Z;
}.
#[export] Instance set_b_valid : Setter b_valid := fun v r => mkbuf v (b_disk r) (b_dev r) (b_blockno r) (b_lock r) (b_refcnt r) (b_prev r) (b_next r) (b_data r).
#[export] Instance set_b_disk : Setter b_disk := fun v r => mkbuf (b_valid r) v (b_dev r) (b_blockno r) (b_lock r) (b_refcnt r) (b_prev r) (b_next r) (b_data r).
#[export] Instance set_b_dev : Setter b_dev := fun v r => mkbuf (b_valid r) (b_disk r) v (b_blockno r) (b_lock r) (b_refcnt r) (b_prev r) (b_next r) (b_data r).
#[export] Instance set_b_blockno : Setter b_blockno := fun v r => mkbuf (b_valid r) (b_disk r) (b_dev r) v (b_lock r) (b_refcnt r) (b_prev r) (b_next r) (b_data r).
#[export] Instance set_b_lock : Setter b_lock := fun v r => mkbuf (b_valid r) (b_disk r) (b_dev r) (b_blockno r) v (b_refcnt r) (b_prev r) (b_next r) (b_data r).
#[export] Instance set_b_refcnt : Setter b_refcnt := fun v r => mkbuf (b_valid r) (b_disk r) (b_dev r) (b_blockno r) (b_lock r) v (b_prev r) (b_next r) (b_data r).
#[export] Instance set_b_prev : Setter b_prev := fun v r => mkbuf (b_valid r) (b_disk r) (b_dev r) (b_blockno r) (b_lock r) (b_refcnt r) v (b_next r) (b_data r).
#[export] Instance set_b_next : Setter b_next := fun v r => mkbuf (b_valid r) (b_disk r) (b_dev r) (b_blockno r) (b_lock r) (b_refcnt r) (b_prev r) v (b_data r).
#[export] Instance set_b_data : Setter b_data := fun v r => mkbuf (b_valid r) (b_disk r) (b_dev r) (b_blockno r) (b_lock r) (b_refcnt r) (b_prev r) (b_next r) v.

Definition blank_buf : buf := mkbuf 0 0 0 0 (mksleeplock 0 0) 0 0 0 zero_block.
#[export] Instance buf_inhabited : Inhabited buf := populate blank_buf.

(** A disk, and the blocks written to it. *)
Notation disk := (Z -> list Z).
Notation wlog := (list (Z * list Z)).
(** The disk after the writes [w], first to last. *)
Definition apply_writes (d : disk) (w : wlog) : disk :=
  foldl (fun d p => <[fst p := snd p]> d) d w.

Record blk : Type := mkblk {
  blk_mm : mm;
  bufs : gmap nat buf;
  dsk : disk;
  wtrace : wlog;
}.
#[export] Instance set_blk_mm : Setter blk_mm := fun v r => mkblk v (bufs r) (dsk r) (wtrace r).
#[export] Instance set_bufs : Setter bufs := fun v r => mkblk (blk_mm r) v (dsk r) (wtrace r).
#[export] Instance set_dsk : Setter dsk := fun v r => mkblk (blk_mm r) (bufs r) v (wtrace r).
#[export] Instance set_wtrace : Setter wtrace := fun v r => mkblk (blk_mm r) (bufs r) (dsk r) v.

#[export] Instance embed_mm_blk : Embed mm blk := {|
  prj := blk_mm;
  inj := fun m s => s <| blk_mm := m |>;
|}.
#[export] Instance embed_mm_blk_laws : EmbedLaws mm blk.
Proof. by split; intros; try destruct t. Qed.
#[export] Instance embed_mach_blk : Embed mach blk := {|
  prj := fun s => mm_mach (blk_mm s);
  inj := fun m s => s <| blk_mm := blk_mm s <| mm_mach := m |> |>;
|}.
#[export] Instance embed_mach_blk_laws : EmbedLaws mach blk.
Proof. split; intros; try destruct t as [[]]; done. Qed.

(** [&bcache.head], behind the array of buffers. *)
Definition bhead : nat := NBUF.

Definition upd_buf (i : nat) (f : buf -> buf) : M blk unit :=
  modify (fun s => s <| bufs := <[i := f (bufs s !!! i)]> (bufs s) |>).
Definition get_buf (i : nat) : M blk buf := gets (fun s => bufs s !!! i).

(** The sleep lock of buffer [i]. *)
Definition buf_lock (i : nat) : sleepref blk := mksleepref blk
  (LkBufSleep i) (ChBufLock i) (fun s => b_lock (bufs s !!! i))
  (fun l s => s <| bufs := <[i := (bufs s !!! i) <| b_lock := l |>]> (bufs s) |>).

(** The block transfer [virtio_disk_rw] promises: the whole block [blockno]
    is written from, or read into, the buffer. *)
Definition virtio_disk_rw (i : nat) (write : bool) : M blk unit :=
  b <- get_buf i ;;
  if write then
    modify (fun s => s <| dsk := <[b_blockno b := b_data b]> (dsk s) |>
                       <| wtrace := wtrace s ++ [(b_blockno b, b_data b)] |>)
  else
    s <- get ;;
    upd_buf i (fun b => b <| b_data := dsk s (b_blockno b) |>).

Definition binit_one (i : nat) : M blk unit :=
  h <- get_buf bhead ;;
  upd_buf i (fun b => b <| b_next := b_next h |>) ;;
  upd_buf i (fun b => b <| b_prev := bhead |>) ;;
  initsleeplock (buf_lock i) ;;
  h <- get_buf bhead ;;
  upd_buf (b_next h) (fun b => b <| b_prev := i |>) ;;
  upd_buf bhead (fun b => b <| b_next := i |>).

Definition binit : M blk unit :=
  upd_buf bhead (fun b => b <| b_prev := bhead |>) ;;
  upd_buf bhead (fun b => b <| b_next := bhead |>) ;;
  mapM_ binit_one (seq 0 NBUF).

(** A loop through the list from buffer [i] on, along [dir], for the first
    buffer that passes [test]. *)
Fixpoint bscan (fuel : nat) (dir : buf -> nat) (test : buf -> bool) (i : nat)
  : M blk (option nat) :=
  match fuel with
  | O => out_of_fuel
  | S fuel' =>
    if decide (i = bhead) then ret None
    else
      b <- get_buf i ;;
      if test b then ret (Some i) else bscan fuel' dir test (dir b)
  end.

Definition bget (dev blockno : Z) : M blk nat :=
  lift (acquire LkBcache) ;;
  h <- get_buf bhead ;;
  found <- bscan (S NBUF) b_next
             (fun b => (b_dev b =? dev) && (b_blockno b =? blockno)) (b_next h) ;;
  match found with
  | Some i =>
    upd_buf i (fun b => b <| b_refcnt := u32 (b_refcnt b + 1) |>) ;;
    lift (release LkBcache) ;;
    acquiresleep (buf_lock i) ;;
    ret i
  | None =>
    h <- get_buf bhead ;;
    unused <- bscan (S NBUF) b_prev (fun b => b_refcnt b =? 0) (b_prev h) ;;
    match unused with
    | Some i =>
      upd_buf i (fun b => b <| b_dev := dev |> <| b_blockno := blockno |>
                            <| b_valid := 0 |> <| b_refcnt := 1 |>) ;;
      lift (release LkBcache) ;;
      acquiresleep (buf_lock i) ;;
      ret i
    | None => panic "bget: no buffers"
    end
  end.

Definition bread (dev blockno : Z) : M blk nat :=
  i <- bget dev blockno ;;
  b <- get_buf i ;;
  when (b_valid b =? 0)
    (virtio_disk_rw i false ;; upd_buf i (fun b => b <| b_valid := 1 |>)) ;;
  ret i.

Definition bwrite (i : nat) : M blk unit :=
  h <- holdingsleep (buf_lock i) ;;
  if negb h then panic "bwrite" else virtio_disk_rw i true.

(** The six stores of [brelse] that make [i] the most recently used. *)
Definition move_to_front (i : nat) : M blk unit :=
  b <- get_buf i ;;
  upd_buf (b_next b) (fun n => n <| b_prev := b_prev b |>) ;;
  b <- get_buf i ;;
  upd_buf (b_prev b) (fun p => p <| b_next := b_next b |>) ;;
  h <- get_buf bhead ;;
  upd_buf i (fun b => b <| b_next := b_next h |>) ;;
  upd_buf i (fun b => b <| b_prev := bhead |>) ;;
  h <- get_buf bhead ;;
  upd_buf (b_next h) (fun n => n <| b_prev := i |>) ;;
  upd_buf bhead (fun h => h <| b_next := i |>).

Definition brelse (i : nat) : M blk unit :=
  h <- holdingsleep (buf_lock i) ;;
  if negb h then panic "brelse"
  else
    releasesleep (buf_lock i) ;;
    lift (acquire LkBcache) ;;
    upd_buf i (fun b => b <| b_refcnt := u32 (b_refcnt b - 1) |>) ;;
    b <- get_buf i ;;
    when (b_refcnt b =? 0) (move_to_front i) ;;
    lift (release LkBcache).

Definition bpin (i : nat) : M blk unit :=
  lift (acquire LkBcache) ;;
  upd_buf i (fun b => b <| b_refcnt := u32 (b_refcnt b + 1) |>) ;;
  lift (release LkBcache).

Definition bunpin (i : nat) : M blk unit :=
  lift (acquire LkBcache) ;;
  upd_buf i (fun b => b <| b_refcnt := u32 (b_refcnt b - 1) |>) ;;
  lift (release LkBcache).

(** ** The list of buffers in the order of use

    [links nx pv c]: along [c] each element's [next] is the following one,
    whose [prev] points back. *)
Fixpoint links (nx pv : nat -> nat) (c : list nat) : Prop :=
  match c with
  | [] => True
  | a :: c' =>
    match c' with
    | [] => True
    | b :: _ => nx a = b /\ pv b = a /\ links nx pv c'
    end
  end.

Lemma links_app nx pv c1 x c2 :
  links nx pv (c1 ++ x :: c2) <-> links nx pv (c1 ++ [x]) /\ links nx pv (x :: c2).
Proof.
  induction c1 as [|a c1 IH]; [simpl; tauto|].
  destruct c1 as [|b c1]; [simpl; tauto|]. simpl in *. tauto.
Qed.

Lemma links_frame nx pv nx' pv' a c :
  (forall k x, (a :: c) !! k = Some x -> (k < length c)%nat -> nx' x = nx x) ->
  (forall x, x ∈ c -> pv' x = pv x) ->
  links nx pv (a :: c) -> links nx' pv' (a :: c).
Proof.
  revert a. induction c as [|b c IH]; intros a Hn Hp; [done|].
  intros (H1 & H2 & H3). change (nx' a = b /\ pv' b = a /\ links nx' pv' (b :: c)).
  rewrite (Hn 0%nat a), (Hp b) by (done || set_solver || (simpl; lia)).
  split_and!; [done|done|]. apply IH; [|set_solver|done].
  intros k x Hk Hl. apply (Hn (S k)); [done|simpl; lia].
Qed.

(** The circular list headed by [h] holds [l]. *)
Definition ring (nx pv : nat -> nat) (h : nat) (l : list nat) : Prop :=
  links nx pv (h :: l ++ [h]) /\ NoDup (h :: l).

Lemma ring_unlink nx pv nx' pv' h l1 i l2 :
  ring nx pv h (l1 ++ i :: l2) ->
  (forall x, nx' x = if decide (x = pv i) then nx i else nx x) ->
  (forall x, pv' x = if decide (x = nx i) then pv i else pv x) ->
  ring nx' pv' h (l1 ++ l2).
Proof.
  intros [Hl Hd] Hn Hp.
  assert (Hd2 : NoDup (h :: l1 ++ l2)).
  { apply NoDup_cons in Hd as [? (? & ? & ?)%NoDup_app].
    rewrite NoDup_cons, NoDup_app. set_solver by eauto using NoDup_cons_1_2. }
  split; [|done].
  destruct (exists_last (l := h :: l1)) as (c1 & p & E1); [done|].
  destruct (l2 ++ [h]) as [|n c2] eqn:E2; [by destruct l2|].
  assert (Hc : h :: (l1 ++ i :: l2) ++ [h] = c1 ++ p :: i :: n :: c2).
  { transitivity ((h :: l1) ++ i :: (l2 ++ [h])); [simpl; by rewrite <- app_assoc|].
    rewrite E1, E2. by rewrite <- app_assoc. }
  assert (Hc' : h :: (l1 ++ l2) ++ [h] = c1 ++ p :: n :: c2).
  { transitivity ((h :: l1) ++ (l2 ++ [h])); [simpl; by rewrite <- app_assoc|].
    rewrite E1, E2. by rewrite <- app_assoc. }
  rewrite Hc in Hl. rewrite Hc'.
  apply links_app in Hl as [Hl1 (Hpi & Hip & Hin & Hni & Hl2)].
  rewrite Hip in Hn, Hp. rewrite Hin in Hn, Hp.
  assert (Hd3 : NoDup ((c1 ++ [p]) ++ l2)) by (by rewrite <- E1).
  assert (Hn2 : n ∉ l1 /\ n ∉ c2).
  { apply NoDup_cons in Hd2 as [Hh Hd2]. apply NoDup_app in Hd2 as (_ & Hd2 & Hd4).
    destruct l2 as [|n' l2]; injection E2 as -> <-; [set_solver|].
    apply NoDup_cons in Hd4 as [? ?]. set_solver. }
  apply NoDup_app in Hd3 as (Hd3 & Hd4 & _). apply NoDup_app in Hd3 as (_ & Hd3 & _).
  apply links_app. split.
  - rewrite <- E1 in *. apply (links_frame nx pv); [| |done].
    + intros k x Hk Hlt. rewrite Hn, decide_False; [done|]. intros ->.
      assert (length l1 = length c1) by (apply (f_equal length) in E1; len).
      rewrite E1, lookup_app_l in Hk by lia.
      apply list_elem_of_lookup_2 in Hk. set_solver.
    + intros x Hx. rewrite Hp, decide_False; [done|]. set_solver.
  - change (nx' p = n /\ pv' n = p /\ links nx' pv' (n :: c2)).
    rewrite Hn, Hp, !decide_True by done. split_and!; [done..|].
    apply (links_frame nx pv); [| |done].
    + intros k x Hk Hlt. rewrite Hn, decide_False; [done|]. intros ->.
      rewrite <- E2 in Hk. rewrite lookup_app_l in Hk.
      2: { apply (f_equal length) in E2. len. }
      apply list_elem_of_lookup_2 in Hk. set_solver.
    + intros x Hx. rewrite Hp, decide_False; [done|]. set_solver.
Qed.

Lemma ring_push nx pv nx' pv' h i l :
  ring nx pv h l -> i ∉ h :: l ->
  (forall x, nx' x = if decide (x = h) then i else if decide (x = i) then nx h else nx x) ->
  (forall x, pv' x = if decide (x = nx h) then i else if decide (x = i) then h else pv x) ->
  ring nx' pv' h (i :: l).
Proof.
  intros [Hl Hd] Hi Hn Hp. split.
  2: { apply NoDup_cons in Hd as [? ?]. rewrite !NoDup_cons. set_solver. }
  destruct (l ++ [h]) as [|n c2] eqn:E; [by destruct l|].
  destruct Hl as (Hhn & Hnh & Hl). rewrite Hhn in Hn, Hp.
  assert (Hni : n <> i).
  { intros ->. destruct l; injection E; set_solver. }
  change (h :: (i :: l) ++ [h]) with (h :: i :: (l ++ [h])). rewrite E.
  change (nx' h = i /\ pv' i = h /\ nx' i = n /\ pv' n = i /\ links nx' pv' (n :: c2)).
  assert (Hdn : n ∉ c2).
  { destruct l as [|n' l]; injection E as -> <-; [set_solver|].
    apply NoDup_cons in Hd as [Hh Hd]. apply NoDup_cons in Hd as [? ?]. set_solver. }
  apply not_elem_of_cons in Hi as [Hih Hil].
  split_and!.
  - by rewrite Hn, decide_True.
  - by rewrite Hp, decide_False, decide_True.
  - by rewrite Hn, decide_False, decide_True.
  - by rewrite Hp, decide_True.
  - apply (links_frame nx pv); [| |done].
    + intros k x Hk Hlt. rewrite <- E, lookup_app_l in Hk.
      2: { apply (f_equal length) in E. len. }
      apply list_elem_of_lookup_2 in Hk. apply NoDup_cons in Hd as [Hh _].
      rewrite Hn, !decide_False; [done| |]; set_solver.
    + intros x Hx. assert (x ∈ l ++ [h]) by (rewrite E; set_solver).
      rewrite Hp, !decide_False; [done| |]; set_solver.
Qed.

(** The links of the cache's list. *)
Definition nxf (B : gmap nat buf) (i : nat) : nat := b_next (B !!! i).
Definition pvf (B : gmap nat buf) (i : nat) : nat := b_prev (B !!! i).
Definition lru (B : gmap nat buf) (l : list nat) : Prop := ring (nxf B) (pvf B) bhead l.

Notation passes B test := (fun i => test (B !!! i)).

Lemma bscan_next B s test a l n :
  bufs s = B -> links (nxf B) (pvf B) (a :: l ++ [bhead]) -> bhead ∉ l ->
  (length l <= n)%nat ->
  bscan (S n) b_next test (nxf B a) s = Ok (List.find (passes B test) l) s.
Proof.
  intros <-. revert a n. induction l as [|x l IH]; intros a n (Hn & _ & Hl) Hh Hlen; rewrite Hn;
    cbn [bscan List.find app].
  { by rewrite decide_True. }
  rewrite decide_False by set_solver. erewrite bind_ok by done.
  destruct (test _); [done|]. destruct n as [|n]; [simpl in *; lia|].
  apply (IH x); [done|set_solver|simpl in *; lia].
Qed.

Lemma bscan_prev B s test z l n :
  bufs s = B -> links (nxf B) (pvf B) (bhead :: l ++ [z]) -> bhead ∉ l ->
  (length l <= n)%nat ->
  bscan (S n) b_prev test (pvf B z) s = Ok (List.find (passes B test) (reverse l)) s.
Proof.
  intros <-. revert z n. induction l as [|x l IH] using rev_ind; intros z n Hl Hh Hlen.
  { destruct Hl as (_ & -> & _). cbn [bscan]. by rewrite decide_True. }
  rewrite <- app_assoc in Hl. simpl app in Hl. rewrite app_comm_cons in Hl.
  apply links_app in Hl as [Hl (_ & Hz & _)]. rewrite Hz, reverse_snoc.
  cbn [bscan List.find].
  rewrite decide_False by set_solver. erewrite bind_ok by done.
  destruct (test _); [done|]. destruct n as [|n]; [len|].
  apply (IH x); [done|set_solver|len].
Qed.

(** The move of buffer [i] to the front of the list, store by store. *)
Definition set_prev (i v : nat) (B : gmap nat buf) : gmap nat buf :=
  <[i := (B !!! i) <| b_prev := v |>]> B.
Definition set_next (i v : nat) (B : gmap nat buf) : gmap nat buf :=
  <[i := (B !!! i) <| b_next := v |>]> B.
Definition unlink (i : nat) (B : gmap nat buf) : gmap nat buf :=
  let B := set_prev (nxf B i) (pvf B i) B in set_next (pvf B i) (nxf B i) B.
Definition push (i : nat) (B : gmap nat buf) : gmap nat buf :=
  let B := set_next i (nxf B bhead) B in
  let B := set_prev i bhead B in
  let B := set_prev (nxf B bhead) i B in set_next bhead i B.

(** A buffer without its links. *)
Definition core (b : buf) : buf := b <| b_prev := 0%nat |> <| b_next := 0%nat |>.

Lemma nxf_set_prev i v B x : nxf (set_prev i v B) x = nxf B x.
Proof.
  unfold nxf, set_prev. destruct (decide (x = i)) as [->|].
  - by rewrite lookup_total_insert_eq.
  - by rewrite lookup_total_insert_ne.
Qed.
Lemma pvf_set_prev i v B x : pvf (set_prev i v B) x = if decide (x = i) then v else pvf B x.
Proof.
  unfold pvf, set_prev. case_decide; subst.
  - by rewrite lookup_total_insert_eq.
  - by rewrite lookup_total_insert_ne.
Qed.
Lemma nxf_set_next i v B x : nxf (set_next i v B) x = if decide (x = i) then v else nxf B x.
Proof.
  unfold nxf, set_next. case_decide; subst.
  - by rewrite lookup_total_insert_eq.
  - by rewrite lookup_total_insert_ne.
Qed.
Lemma pvf_set_next i v B x : pvf (set_next i v B) x = pvf B x.
Proof.
  unfold pvf, set_next. destruct (decide (x = i)) as [->|].
  - by rewrite lookup_total_insert_eq.
  - by rewrite lookup_total_insert_ne.
Qed.
Lemma core_set_prev i v B x : core (set_prev i v B !!! x) = core (B !!! x).
Proof.
  unfold set_prev. destruct (decide (x = i)) as [->|].
  - by rewrite lookup_total_insert_eq.
  - by rewrite lookup_total_insert_ne.
Qed.
Lemma core_set_next i v B x : core (set_next i v B !!! x) = core (B !!! x).
Proof.
  unfold set_next. destruct (decide (x = i)) as [->|].
  - by rewrite lookup_total_insert_eq.
  - by rewrite lookup_total_insert_ne.
Qed.
Create HintDb links.
#[export] Hint Rewrite nxf_set_prev pvf_set_prev nxf_set_next pvf_set_next
  core_set_prev core_set_next : links.

Lemma lru_move i B l1 l2 :
  lru B (l1 ++ i :: l2) -> lru (push i (unlink i B)) (i :: l1 ++ l2).
Proof.
  intros H. pose proof H as [Hl Hd].
  assert (Hip : i <> bhead /\ nxf B i <> i /\ pvf B i <> i).
  { rewrite <- app_assoc in Hl. simpl app in Hl.
    rewrite app_comm_cons in Hl. apply links_app in Hl as [Hl1 Hl2].
    apply NoDup_cons in Hd as [Hh Hd]. apply NoDup_app in Hd as (_ & Hd1 & Hd2).
    apply NoDup_cons in Hd2 as [Hd2 _]. split_and!; [set_solver| |].
    - destruct l2; simpl in Hl2; destruct Hl2 as (E & _); rewrite E; set_solver.
    - destruct (exists_last (l := bhead :: l1)) as (c1 & p & E1); [done|].
      rewrite E1, <- app_assoc in Hl1. apply links_app in Hl1 as [_ (_ & E & _)].
      rewrite E. assert (Hp : p ∈ bhead :: l1) by (rewrite E1; set_solver).
      intros ->. apply elem_of_cons in Hp as [->|Hp]; [set_solver|].
      by apply (Hd1 i Hp), list_elem_of_here. }
  assert (Hu : lru (unlink i B) (l1 ++ l2)).
  { eapply ring_unlink; [exact H| |]; intros x; unfold unlink; autorewrite with links.
    - rewrite (decide_False (P := i = nxf B i)) by (symmetry; tauto). done.
    - done. }
  eapply ring_push; [exact Hu| | |].
  - apply NoDup_cons in Hd as [Hh Hd]. apply NoDup_app in Hd as (_ & Hd1 & Hd2).
    apply NoDup_cons in Hd2 as [Hd2 _]. set_solver.
  - intros x. generalize (unlink i B). intros B1. unfold push. autorewrite with links.
    done.
  - intros x. generalize (unlink i B). intros B1. unfold push. autorewrite with links.
    rewrite (decide_False (P := bhead = i)) by (symmetry; tauto). done.
Qed.

Lemma core_move i B x : core (push i (unlink i B) !!! x) = core (B !!! x).
Proof. unfold push, unlink. by autorewrite with links. Qed.

(** ** What the cache promises

    To its clients the cache is, for every block, its current contents, the
    number of references to its buffer and the process that has it locked. *)
Record cache : Type := mkcache {
  av : disk;
  ar : Z -> Z;
  al : Z -> option Z;
}.

Definition cache_eq (A A' : cache) : Prop :=
  forall b, av A b = av A' b /\ ar A b = ar A' b /\ al A b = al A' b.
#[export] Instance cache_equiv : Equiv cache := cache_eq.
#[export] Instance cache_equivalence : Equivalence (≡@{cache}).
Proof.
  split.
  - by intros A b.
  - intros A A' H b. destruct (H b) as (-> & -> & ->). done.
  - intros A1 A2 A3 H1 H2 b. destruct (H1 b) as (-> & -> & ->). apply H2.
Qed.

Definition lk_of (o : option Z) : sleeplock :=
  match o with None => mksleeplock 0 0 | Some pid => mksleeplock 1 pid end.

(** Buffer [i] is the one that caches block [b]. *)
Definition handle (s : blk) (i : nat) (b : Z) : Prop :=
  (i < NBUF)%nat /\ b_dev (bufs s !!! i) = ROOTDEV /\ b_blockno (bufs s !!! i) = b.

(** The representation invariant: the list is a permutation of the buffers;
    a buffer caches a block of the root disk or was never used; a block has
    one buffer at most; the buffer agrees with the client's view; and a block
    that nobody refers to is the same on disk. *)
Record binv (s : blk) (A : cache) : Prop := {
  bi_lru : exists l, lru (bufs s) l /\ l ≡ₚ seq 0 NBUF;
  bi_dev : forall i, (i < NBUF)%nat ->
    (b_dev (bufs s !!! i) = ROOTDEV /\ b_valid (bufs s !!! i) <> 0) \/
    (b_dev (bufs s !!! i) = 0 /\ b_refcnt (bufs s !!! i) = 0 /\
     b_lock (bufs s !!! i) = mksleeplock 0 0);
  bi_uniq : forall i j b, handle s i b -> handle s j b -> i = j;
  bi_buf : forall i b, handle s i b ->
    b_data (bufs s !!! i) = av A b /\ b_refcnt (bufs s !!! i) = ar A b /\
    b_lock (bufs s !!! i) = lk_of (al A b);
  bi_none : forall b, (forall i, ~ handle s i b) -> ar A b = 0;
  bi_clean : forall b, ar A b = 0 -> dsk s b = av A b /\ al A b = None;
  bi_pos : forall b, 0 <= ar A b;
  bi_len : forall b, length (av A b) = bsize;
}.

#[export] Instance binv_proper : Proper (eq ==> (≡) ==> iff) binv.
Proof.
  assert (H : forall s A A', A ≡ A' -> binv s A -> binv s A').
  { intros s A A' HA [H1 H2 H3 H4 H5 H6 H7 H8].
    split; [done|done|done|intros i b|intros b|intros b|intros b|intros b];
      destruct (HA b) as (E1 & E2 & E3); rewrite <- ?E1, <- ?E2, <- ?E3; eauto. }
  intros s ? <- A A' HA. split; apply H; [done|by symmetry].
Qed.

(** Changes of the client's view. *)
Definition c_take (pid b : Z) (A : cache) : cache :=
  mkcache (av A) (<[b := ar A b + 1]> (ar A)) (<[b := Some pid]> (al A)).
Definition c_drop (b : Z) (A : cache) : cache :=
  mkcache (av A) (<[b := ar A b - 1]> (ar A)) (<[b := None]> (al A)).
Definition c_write (b : Z) (d : list Z) (A : cache) : cache :=
  mkcache (<[b := d]> (av A)) (ar A) (al A).
Definition c_pin (b : Z) (n : Z) (A : cache) : cache :=
  mkcache (av A) (<[b := ar A b + n]> (ar A)) (al A).

(** Buffers with references keep their block. *)
Definition kept (s : blk) (A : cache) (s' : blk) : Prop :=
  forall i b, handle s i b -> 0 < ar A b -> handle s' i b.

(** Fewer than [NBUF] blocks are referred to, so a buffer can be recycled. *)
Definition room (A : cache) : Prop :=
  exists L, (length L < NBUF)%nat /\ forall b, ar A b <> 0 -> b ∈ L.

Lemma fn_insert_eq {V} (f : Z -> V) b v : <[b := v]> f b = v.
Proof. apply fn_lookup_insert. Qed.
Lemma fn_insert_ne {V} (f : Z -> V) b v c : b <> c -> <[b := v]> f c = f c.
Proof. apply fn_lookup_insert_ne. Qed.

Lemma blk_mach_id (s : blk) : s <| blk_mm := blk_mm s <| mm_mach := mm_mach (blk_mm s) |> |> = s.
Proof. by destruct s as [[]]. Qed.

#[export] Instance buf_lock_laws i : SleepLaws (buf_lock i).
Proof.
  split; intros; try destruct s as [[]]; try done; unfold buf_lock, setf; simpl.
  - by rewrite lookup_total_insert_eq.
  - unfold set_bufs. simpl. by rewrite lookup_total_insert_eq, insert_insert_eq.
Qed.

Lemma handle_lt s i b : handle s i b -> (i < NBUF)%nat.
Proof. by intros []. Qed.

Lemma handle_fun s i b c : handle s i b -> handle s i c -> b = c.
Proof. intros (_ & _ & <-) (_ & _ & <-). done. Qed.

(** Is block [b] cached?  The scan of the list answers. *)
Lemma find_handle s A b l :
  binv s A -> l ≡ₚ seq 0 NBUF ->
  match List.find (passes (bufs s) (fun x => (b_dev x =? ROOTDEV) && (b_blockno x =? b))) l with
  | Some i => handle s i b
  | None => forall i, ~ handle s i b
  end.
Proof.
  intros Hi Hp. destruct (List.find _ l) as [i|] eqn:E.
  - apply List.find_some in E as [Hin Ht]. apply andb_true_iff in Ht.
    apply list_elem_of_In in Hin. rewrite Hp in Hin. apply elem_of_seq in Hin.
    unfold handle. lia.
  - intros i (Hlt & Hd & Hb).
    assert (Hin : i ∈ l) by (rewrite Hp; apply elem_of_seq; lia).
    apply list_elem_of_In in Hin. eapply List.find_none in E; [|exact Hin].
    apply andb_false_iff in E. lia.
Qed.

(** With room, the second scan finds an unused buffer. *)
Lemma find_unused s A l :
  binv s A -> l ≡ₚ seq 0 NBUF -> room A ->
  exists i, List.find (passes (bufs s) (fun x => b_refcnt x =? 0)) l = Some i /\
    (i < NBUF)%nat /\ b_refcnt (bufs s !!! i) = 0.
Proof.
  intros Hi Hp (L & HL & Hr). destruct (List.find _ l) as [i|] eqn:E.
  - exists i. apply List.find_some in E as [Hin Ht].
    apply list_elem_of_In in Hin. rewrite Hp in Hin. apply elem_of_seq in Hin.
    split_and!; [done|lia|lia].
  - exfalso.
    assert (Hn : forall i, i ∈ seq 0 NBUF -> b_blockno (bufs s !!! i) ∈ L /\
                   handle s i (b_blockno (bufs s !!! i))).
    { intros i Hin. assert (Hil : In i l) by (by rewrite <- list_elem_of_In, Hp).
      eapply List.find_none in E; [|exact Hil]. apply elem_of_seq in Hin.
      destruct (bi_dev s A Hi i) as [[Hd _]|(_ & Hz & _)]; [lia| |lia].
      assert (handle s i (b_blockno (bufs s !!! i))) by (split_and!; [lia|done|done]).
      split; [|done]. apply Hr. destruct (bi_buf s A Hi i _ H) as (_ & <- & _). lia. }
    assert (Hd : NoDup ((fun i => b_blockno (bufs s !!! i)) <$> seq 0 NBUF)).
    { apply NoDup_fmap_2_strong; [|apply NoDup_seq]. intros x y Hx Hy Exy.
      eapply (bi_uniq s A Hi); [apply Hn, Hx|]. rewrite Exy. apply Hn, Hy. }
    assert (Hs : (fun i => b_blockno (bufs s !!! i)) <$> seq 0 NBUF ⊆ L).
    { intros x (y & -> & Hy)%list_elem_of_fmap. by apply Hn. }
    apply NoDup_submseteq in Hs; [|done]. apply submseteq_length in Hs. len.
Qed.

(** The state with other buffers. *)
Definition with_bufs (B : gmap nat buf) (s : blk) : blk := s <| bufs := B |>.

Lemma prj_with_bufs B s : prj (with_bufs B s) = prj s :> mach.
Proof. done. Qed.

Lemma acquiresleep_buf s i pid :
  running (prj s) pid -> b_lock (bufs s !!! i) = mksleeplock 0 0 ->
  acquiresleep (buf_lock i) s =
    Ok tt (with_bufs (<[i := (bufs s !!! i) <| b_lock := mksleeplock 1 pid |>]> (bufs s)) s).
Proof.
  intros (Hh & Hl & j & p & Hc & Hp & <-) Hf.
  rewrite (acquiresleep_free (buf_lock i)) with (i := j) (p := p); try done.
  - rewrite Hh. set_solver.
  - simpl. by rewrite Hf.
Qed.

Lemma holdingsleep_buf s i pid :
  running (prj s) pid ->
  holdingsleep (buf_lock i) s =
    Ok (negb (sl_locked (b_lock (bufs s !!! i)) =? 0) &&
        (sl_pid (b_lock (bufs s !!! i)) =? pid)) s.
Proof.
  intros (Hh & Hl & j & p & Hc & Hp & <-).
  rewrite (holdingsleep_ok (buf_lock i)) with (i := j) (p := p); try done.
  rewrite Hh. set_solver.
Qed.

(** [bget] in one step: a hit, and the recycling of the least recently used
    buffer without references. *)
Lemma bget_hit s l i dev b pid :
  running (prj s) pid -> lru (bufs s) l -> (length l <= NBUF)%nat ->
  List.find (passes (bufs s) (fun x => (b_dev x =? dev) && (b_blockno x =? b))) l = Some i ->
  b_lock (bufs s !!! i) = mksleeplock 0 0 ->
  bget dev b s = Ok i (with_bufs (<[i := (bufs s !!! i)
    <| b_refcnt := u32 (b_refcnt (bufs s !!! i) + 1) |>
    <| b_lock := mksleeplock 1 pid |>]> (bufs s)) s).
Proof.
  intros Hr [Hl Hd] Hlen Hf Hlk. pose proof Hr as (Hh & _). unfold bget.
  apply NoDup_cons in Hd as [Hd _].
  erewrite bind_ok by (apply lift_ok, acquire_ok; rewrite Hh; set_solver).
  erewrite bind_ok by done.
  erewrite bind_ok by (by apply (bscan_next (bufs s) _ _ bhead l)).
  cbv beta in Hf |- *. rewrite Hf.
  erewrite bind_ok by done. erewrite bind_ok by (by apply lift_ok, release_ok).
  erewrite bind_ok.
  2: { apply (acquiresleep_buf _ _ pid).
       - by destruct s as [[[]]].
       - simpl. by rewrite lookup_total_insert_eq. }
  simpl. rewrite lookup_total_insert_eq, insert_insert_eq.
  unfold ret. f_equal. by destruct s as [[[]]]; simpl in *; subst.
Qed.

Lemma bget_recycle s l i dev b pid :
  running (prj s) pid -> lru (bufs s) l -> (length l <= NBUF)%nat ->
  List.find (passes (bufs s) (fun x => (b_dev x =? dev) && (b_blockno x =? b))) l = None ->
  List.find (passes (bufs s) (fun x => b_refcnt x =? 0)) (reverse l) = Some i ->
  b_lock (bufs s !!! i) = mksleeplock 0 0 ->
  bget dev b s = Ok i (with_bufs (<[i := (bufs s !!! i)
    <| b_dev := dev |> <| b_blockno := b |> <| b_valid := 0 |> <| b_refcnt := 1 |>
    <| b_lock := mksleeplock 1 pid |>]> (bufs s)) s).
Proof.
  intros Hr [Hl Hd] Hlen Hf Hu Hlk. pose proof Hr as (Hh & _). unfold bget.
  apply NoDup_cons in Hd as [Hd _].
  erewrite bind_ok by (apply lift_ok, acquire_ok; rewrite Hh; set_solver).
  erewrite bind_ok by done.
  erewrite bind_ok by (by apply (bscan_next (bufs s) _ _ bhead l)).
  cbv beta in Hf |- *. rewrite Hf.
  erewrite bind_ok by done.
  erewrite bind_ok by (by apply (bscan_prev (bufs s) _ _ bhead l)).
  cbv beta in Hu |- *. rewrite Hu.
  erewrite bind_ok by done. erewrite bind_ok by (by apply lift_ok, release_ok).
  erewrite bind_ok.
  2: { apply (acquiresleep_buf _ _ pid).
       - by destruct s as [[[]]].
       - simpl. by rewrite lookup_total_insert_eq. }
  simpl. rewrite lookup_total_insert_eq, insert_insert_eq.
  unfold ret. f_equal. by destruct s as [[[]]]; simpl in *; subst.
Qed.

Lemma bget_full s l dev b pid :
  running (prj s) pid -> lru (bufs s) l -> (length l <= NBUF)%nat ->
  List.find (passes (bufs s) (fun x => (b_dev x =? dev) && (b_blockno x =? b))) l = None ->
  List.find (passes (bufs s) (fun x => b_refcnt x =? 0)) (reverse l) = None ->
  bget dev b s = Panic "bget: no buffers".
Proof.
  intros Hr [Hl Hd] Hlen Hf Hu. pose proof Hr as (Hh & _). unfold bget.
  apply NoDup_cons in Hd as [Hd _].
  erewrite bind_ok by (apply lift_ok, acquire_ok; rewrite Hh; set_solver).
  erewrite bind_ok by done.
  erewrite bind_ok by (by apply (bscan_next (bufs s) _ _ bhead l)).
  cbv beta in Hf |- *. rewrite Hf.
  erewrite bind_ok by done.
  erewrite bind_ok by (by apply (bscan_prev (bufs s) _ _ bhead l)).
  cbv beta in Hu |- *. rewrite Hu. done.
Qed.

Lemma links_ext nx pv nx' pv' c :
  (forall x, nx' x = nx x) -> (forall x, pv' x = pv x) -> links nx pv c -> links nx' pv' c.
Proof. intros Hn Hp. destruct c; [done|]. by apply links_frame. Qed.

Lemma lru_ext B B' l :
  (forall x, nxf B' x = nxf B x /\ pvf B' x = pvf B x) -> lru B l -> lru B' l.
Proof. intros H [Hl Hd]. split; [|done]. eapply links_ext; [..|done]; apply H. Qed.

(** Every operation changes the buffer of one block, the view of that block
    and perhaps that block on disk. *)
Record bupd (s : blk) (A : cache) (i : nat) (b : Z) (s' : blk) (A' : cache) : Prop := {
  bu_lt : (i < NBUF)%nat;
  bu_old : handle s i b \/ ((forall j, ~ handle s j b) /\ b_refcnt (bufs s !!! i) = 0);
  bu_lru : exists l, lru (bufs s') l /\ l ≡ₚ seq 0 NBUF;
  bu_other : forall j, j <> i -> core (bufs s' !!! j) = core (bufs s !!! j);
  bu_buf : let x := bufs s' !!! i in
    b_dev x = ROOTDEV /\ b_blockno x = b /\ b_valid x <> 0 /\ b_data x = av A' b /\
    b_refcnt x = ar A' b /\ b_lock x = lk_of (al A' b);
  bu_view : forall c, c <> b -> av A' c = av A c /\ ar A' c = ar A c /\ al A' c = al A c;
  bu_dsk : forall c, c <> b -> dsk s' c = dsk s c;
  bu_pos : 0 <= ar A' b;
  bu_clean : ar A' b = 0 -> dsk s' b = av A' b /\ al A' b = None;
  bu_len : length (av A' b) = bsize;
}.

Lemma core_fields x y :
  core x = core y ->
  b_dev x = b_dev y /\ b_blockno x = b_blockno y /\ b_valid x = b_valid y /\
  b_data x = b_data y /\ b_refcnt x = b_refcnt y /\ b_lock x = b_lock y.
Proof. destruct x, y. unfold core, setf. simpl. intros E. by injection E. Qed.

Lemma bupd_handle s A i b s' A' j c :
  bupd s A i b s' A' -> handle s' j c <-> (j = i /\ c = b) \/ (j <> i /\ handle s j c).
Proof.
  intros U. destruct (bu_buf _ _ _ _ _ _ U) as (Hd & Hb & _).
  unfold handle. destruct (decide (j = i)) as [->|Hne].
  - pose proof (bu_lt _ _ _ _ _ _ U). naive_solver.
  - destruct (core_fields _ _ (bu_other _ _ _ _ _ _ U j Hne)) as (-> & -> & _). naive_solver.
Qed.

Lemma bupd_ok s A i b s' A' :
  binv s A -> bupd s A i b s' A' -> binv s' A' /\ handle s' i b /\ kept s A s'.
Proof.
  intros I U. pose proof (fun j c => bupd_handle s A i b s' A' j c U) as Hh.
  destruct (bu_buf _ _ _ _ _ _ U) as (Hd & Hb & Hv & Hda & Hr & Hl).
  pose proof (bu_old _ _ _ _ _ _ U) as Hold.
  assert (Hold' : forall c, handle s i c -> c <> b -> ar A c = 0).
  { intros c Hc Hne. destruct Hold as [Hb'|[_ Hz]].
    - destruct Hne. by eapply handle_fun.
    - by destruct (bi_buf _ _ I i c Hc) as (_ & <- & _). }
  split_and!.
  - split.
    + apply U.
    + intros j Hj. destruct (decide (j = i)) as [->|Hne]; [by left|].
      destruct (core_fields _ _ (bu_other _ _ _ _ _ _ U j Hne)) as (-> & _ & -> & _ & -> & ->).
      by apply (bi_dev _ _ I).
    + intros j k c [[-> ->]|[Hj Hjc]]%Hh [[-> E]|[Hk Hkc]]%Hh.
      * done.
      * destruct Hold as [Ho|[Ho _]]; [by eapply (bi_uniq _ _ I)|by destruct (Ho k)].
      * subst. destruct Hold as [Ho|[Ho _]]; [by eapply (bi_uniq _ _ I)|by destruct (Ho j)].
      * by eapply (bi_uniq _ _ I).
    + intros j c [[-> ->]|[Hj Hjc]]%Hh; [done|].
      assert (Hcb : c <> b).
      { intros ->. destruct Hold as [Ho|[Ho _]]; [|by destruct (Ho j)].
        apply Hj. by eapply (bi_uniq _ _ I). }
      destruct (core_fields _ _ (bu_other _ _ _ _ _ _ U j Hj)) as (_ & _ & _ & -> & -> & ->).
      destruct (bu_view _ _ _ _ _ _ U c Hcb) as (-> & -> & ->). by apply (bi_buf _ _ I).
    + intros c Hn. assert (Hcb : c <> b).
      { intros ->. apply (Hn i), Hh. by left. }
      destruct (bu_view _ _ _ _ _ _ U c Hcb) as (_ & -> & _).
      destruct (decide (ar A c = 0)) as [|Hne]; [done|]. apply (bi_none _ _ I).
      intros j Hj. destruct (decide (j = i)) as [->|]; [by apply Hne, Hold'|].
      apply (Hn j), Hh. by right.
    + intros c. destruct (decide (c = b)) as [->|Hcb]; [apply U|].
      destruct (bu_view _ _ _ _ _ _ U c Hcb) as (-> & -> & ->).
      rewrite (bu_dsk _ _ _ _ _ _ U c Hcb). apply (bi_clean _ _ I).
    + intros c. destruct (decide (c = b)) as [->|Hcb]; [apply U|].
      destruct (bu_view _ _ _ _ _ _ U c Hcb) as (_ & -> & _). apply (bi_pos _ _ I).
    + intros c. destruct (decide (c = b)) as [->|Hcb]; [apply U|].
      destruct (bu_view _ _ _ _ _ _ U c Hcb) as (-> & _). apply (bi_len _ _ I).
  - apply Hh. by left.
  - intros j c Hj Hpos. apply Hh. destruct (decide (j = i)) as [->|]; [|by right].
    left. split; [done|]. destruct (decide (c = b)) as [|Hne]; [done|].
    apply Hold' in Hne; [lia|done].
Qed.

(** What no operation of the cache touches: memory, and the processes but
    for those it wakes up. *)
Definition mm_woke (m m' : mm) : Prop :=
  woke (mm_mach m) (mm_mach m') /\ mem m' = mem m /\ freelist m' = freelist m /\
  k_end m' = k_end m.

Lemma mm_woke_refl m : mm_woke m m.
Proof. split_and!; try done. apply woke_refl. Qed.
Lemma mm_woke_trans m1 m2 m3 : mm_woke m1 m2 -> mm_woke m2 m3 -> mm_woke m1 m3.
Proof.
  intros (W & E1 & E2 & E3) (W' & E1' & E2' & E3'). split_and!; try congruence.
  by eapply woke_trans.
Qed.
#[export] Hint Resolve mm_woke_refl : core.

(** The outcome of an operation of the cache: the new state represents
    [A'], referenced buffers stay where they are, the disk is [d] and the
    writes [w] reached it. *)
Record bop (s : blk) (A : cache) (s' : blk) (A' : cache) (w : wlog) : Prop := {
  bo_inv : binv s' A';
  bo_kept : kept s A s';
  bo_mm : mm_woke (blk_mm s) (blk_mm s');
  bo_trace : wtrace s' = wtrace s ++ w;
  bo_dsk : dsk s' = apply_writes (dsk s) w;
}.

Lemma apply_writes_app d w1 w2 :
  apply_writes d (w1 ++ w2) = apply_writes (apply_writes d w1) w2.
Proof. apply foldl_app. Qed.

Lemma bop_refl s A : binv s A -> bop s A s A [].
Proof.
  intros I. split; [done|by intros i b ??|apply mm_woke_refl| |done].
  by rewrite app_nil_r.
Qed.

(** The cache does not depend on memory or processes. *)
Lemma binv_mm s A m : binv s A -> binv (s <| blk_mm := m |>) A.
Proof. by intros []; split. Qed.

Lemma bop_mm s A m :
  binv s A -> mm_woke (blk_mm s) m -> bop s A (s <| blk_mm := m |>) A [].
Proof.
  intros I W. split; [by apply binv_mm|by intros i b ??|done| |done].
  simpl. by rewrite app_nil_r.
Qed.

(** Operations in sequence; no reference of the first state may get lost on
    the way. *)
Lemma bop_trans s A s1 A1 s2 A2 w1 w2 :
  bop s A s1 A1 w1 -> bop s1 A1 s2 A2 w2 -> (forall b, 0 < ar A b -> 0 < ar A1 b) ->
  bop s A s2 A2 (w1 ++ w2).
Proof.
  intros [I1 K1 M1 T1 D1] [I2 K2 M2 T2 D2] H. split; [done| | | |].
  - intros i b Hi Hp. apply K2; [by apply K1|by apply H].
  - by eapply mm_woke_trans.
  - by rewrite T2, T1, app_assoc.
  - by rewrite D2, D1, apply_writes_app.
Qed.

(** The outcome, without the places of the buffers. *)
Record bres (s s' : blk) (A' : cache) (w : wlog) : Prop := {
  br_inv : binv s' A';
  br_mm : mm_woke (blk_mm s) (blk_mm s');
  br_trace : wtrace s' = wtrace s ++ w;
  br_dsk : dsk s' = apply_writes (dsk s) w;
}.

Lemma bop_bres s A s' A' w : bop s A s' A' w -> bres s s' A' w.
Proof. by intros []. Qed.

Lemma bres_refl s A : binv s A -> bres s s A [].
Proof. intros I. split; [done|apply mm_woke_refl| |done]. by rewrite app_nil_r. Qed.

Lemma bres_trans s s1 A1 s2 A2 w1 w2 :
  bres s s1 A1 w1 -> bres s1 s2 A2 w2 -> bres s s2 A2 (w1 ++ w2).
Proof.
  intros [I1 M1 T1 D1] [I2 M2 T2 D2]. split; [done| | |].
  - by eapply mm_woke_trans.
  - by rewrite T2, T1, app_assoc.
  - by rewrite D2, D1, apply_writes_app.
Qed.

Lemma bres_running s s' A' w pid :
  bres s s' A' w -> running (prj s) pid -> running (prj s' : mach) pid.
Proof. intros O. eapply woke_running. apply (br_mm _ _ _ _ O). Qed.

#[export] Instance bop_proper : Proper (eq ==> (≡) ==> eq ==> (≡) ==> eq ==> iff) bop.
Proof.
  assert (H : forall s A A1 s' A' A1' w, A ≡ A1 -> A' ≡ A1' ->
            bop s A s' A' w -> bop s A1 s' A1' w).
  { intros s A A1 s' A' A1' w HA HA' [I K W T D]. split; try done.
    - by rewrite <- HA'.
    - intros i b Hi Hp. apply K; [done|]. destruct (HA b) as (_ & -> & _). done. }
  intros s ? <- A A1 HA s' ? <- A' A1' HA' w ? <-.
  split; apply H; done || by symmetry.
Qed.

Lemma bop_running s A s' A' w pid :
  bop s A s' A' w -> running (prj s) pid -> running (prj s' : mach) pid.
Proof. intros O. eapply woke_running. apply (bo_mm _ _ _ _ _ O). Qed.

(** An update of buffer [i] that leaves its links and the disk alone. *)
Lemma bupd_one s A i b nb A' :
  binv s A -> (i < NBUF)%nat ->
  handle s i b \/ ((forall j, ~ handle s j b) /\ b_refcnt (bufs s !!! i) = 0) ->
  b_next nb = b_next (bufs s !!! i) -> b_prev nb = b_prev (bufs s !!! i) ->
  b_dev nb = ROOTDEV /\ b_blockno nb = b /\ b_valid nb <> 0 /\ b_data nb = av A' b /\
    b_refcnt nb = ar A' b /\ b_lock nb = lk_of (al A' b) ->
  (forall c, c <> b -> av A' c = av A c /\ ar A' c = ar A c /\ al A' c = al A c) ->
  0 <= ar A' b -> (ar A' b = 0 -> dsk s b = av A' b /\ al A' b = None) ->
  length (av A' b) = bsize ->
  let s' := with_bufs (<[i := nb]> (bufs s)) s in bop s A s' A' [] /\ handle s' i b.
Proof.
  intros I Hi Hold Hn Hp Hnb Hv Hpos Hcl Hlen s'.
  destruct (bupd_ok s A i b s' A') as (I' & H' & K'); [done| |].
  - split; try done; simpl.
    + destruct (bi_lru _ _ I) as (l & Hlru & Hperm). exists l. split; [|done].
      eapply lru_ext; [|done]. intros x. unfold nxf, pvf.
      destruct (decide (x = i)) as [->|]; [by rewrite lookup_total_insert_eq|].
      by rewrite lookup_total_insert_ne.
    + intros j Hj. by rewrite lookup_total_insert_ne.
    + by rewrite lookup_total_insert_eq.
  - split; [|done]. split; try done; simpl. by rewrite app_nil_r.
Qed.

Lemma c_take_at pid b A :
  ar (c_take pid b A) b = ar A b + 1 /\ al (c_take pid b A) b = Some pid.
Proof. simpl. by rewrite !fn_insert_eq. Qed.
Lemma c_take_ne pid b A c :
  c <> b -> av (c_take pid b A) c = av A c /\
    ar (c_take pid b A) c = ar A c /\ al (c_take pid b A) c = al A c.
Proof. intros Hc. simpl. by rewrite !fn_insert_ne. Qed.

Lemma bread_hit s A pid b i l :
  binv s A -> running (prj s) pid -> al A b = None -> ar A b < 2 ^ 31 ->
  lru (bufs s) l -> l ≡ₚ seq 0 NBUF ->
  List.find (passes (bufs s) (fun x => (b_dev x =? ROOTDEV) && (b_blockno x =? b))) l = Some i ->
  handle s i b ->
  exists s', bread ROOTDEV b s = Ok i s' /\ bop s A s' (c_take pid b A) [] /\ handle s' i b.
Proof.
  intros I R Hl Hb Hlru Hp Ef Hf.
  assert (Hlen : (length l <= NBUF)%nat) by (rewrite Hp; len).
  pose proof (bi_pos _ _ I b) as Hpos. destruct (c_take_at pid b A) as [E1 E2].
  destruct (bi_buf _ _ I i b Hf) as (Hd & Hr & Hlk). rewrite Hl in Hlk.
  unfold bread. erewrite bind_ok by (by eapply bget_hit).
  erewrite bind_ok by done. cbn beta. simpl. rewrite lookup_total_insert_eq.
  destruct (bi_dev _ _ I i) as [[Hdev Hv]|[Hdev _]]; [by eapply handle_lt| |].
  2: { destruct Hf as (_ & E & _). rewrite E in Hdev. done. }
  rewrite (proj2 (Z.eqb_neq _ _)) by done. erewrite bind_ok by done.
  eexists. split; [done|]. apply bupd_one; try done.
  - by eapply handle_lt.
  - by left.
  - rewrite E1, E2. destruct Hf as (_ & ? & ?). simpl.
    rewrite Hr, u32_small by lia. done.
  - apply c_take_ne.
  - rewrite E1. lia.
  - rewrite E1. lia.
  - apply (bi_len _ _ I).
Qed.

Lemma bread_miss s A pid b l :
  binv s A -> running (prj s) pid -> room A ->
  lru (bufs s) l -> l ≡ₚ seq 0 NBUF ->
  List.find (passes (bufs s) (fun x => (b_dev x =? ROOTDEV) && (b_blockno x =? b))) l = None ->
  (forall i, ~ handle s i b) ->
  exists i s', bread ROOTDEV b s = Ok i s' /\ bop s A s' (c_take pid b A) [] /\ handle s' i b.
Proof.
  intros I R Hroom Hlru Hp Ef Hf.
  assert (Hlen : (length l <= NBUF)%nat) by (rewrite Hp; len).
  destruct (c_take_at pid b A) as [E1 E2]. pose proof (bi_none _ _ I b Hf) as Hz0.
  destruct (find_unused s A (reverse l)) as (i & Eu & Hi & Hz); [done| |done|].
  { by rewrite reverse_Permutation. }
  assert (Hlk : b_lock (bufs s !!! i) = mksleeplock 0 0).
  { destruct (bi_dev _ _ I i Hi) as [[Hdev _]|(_ & _ & ?)]; [|done].
    destruct (bi_buf _ _ I i (b_blockno (bufs s !!! i))) as (_ & E3 & E4); [done|].
    destruct (bi_clean _ _ I (b_blockno (bufs s !!! i))) as [_ E]; [congruence|].
    by rewrite E4, E. }
  unfold bread. erewrite bind_ok by (by eapply bget_recycle).
  erewrite bind_ok by done. cbn beta. simpl. rewrite lookup_total_insert_eq. simpl.
  exists i, (with_bufs (<[i := (bufs s !!! i) <| b_dev := ROOTDEV |> <| b_blockno := b |>
    <| b_valid := 1 |> <| b_refcnt := 1 |> <| b_lock := mksleeplock 1 pid |>
    <| b_data := dsk s b |>]> (bufs s)) s). split.
  { erewrite bind_ok; [done|]. erewrite bind_ok.
    2: { unfold virtio_disk_rw. erewrite bind_ok by done. by erewrite bind_ok by done. }
    unfold upd_buf, modify, setf, set_bufs, with_bufs. simpl. unfold setf, set_bufs. simpl.
    by rewrite !lookup_total_insert_eq, !insert_insert_eq. }
  apply bupd_one; try done.
  - by right.
  - rewrite E1, E2, Hz0. simpl. split_and!; try done.
    by apply (bi_clean _ _ I).
  - apply c_take_ne.
  - rewrite E1. lia.
  - rewrite E1. lia.
  - apply (bi_len _ _ I).
Qed.

Lemma bread_ok s A pid b :
  binv s A -> running (prj s) pid -> al A b = None -> ar A b < 2 ^ 31 ->
  0 < ar A b \/ room A ->
  exists i s', bread ROOTDEV b s = Ok i s' /\ bop s A s' (c_take pid b A) [] /\ handle s' i b.
Proof.
  intros I R Hl Hb Hroom. destruct (bi_lru _ _ I) as (l & Hlru & Hp).
  pose proof (find_handle s A b l I Hp) as Hf. destruct (List.find _ l) as [i|] eqn:Ef.
  - exists i. by eapply bread_hit.
  - eapply bread_miss; try done. destruct Hroom as [Hroom|Hroom]; [|done].
    rewrite (bi_none _ _ I b) in Hroom; [lia|done].
Qed.

(** The contents of a buffer are the view's. *)
Lemma get_data_ok s A i b :
  binv s A -> handle s i b -> exists x, get_buf i s = Ok x s /\ b_data x = av A b /\
    b_blockno x = b /\ b_refcnt x = ar A b.
Proof.
  intros I H. eexists. split; [done|]. destruct (bi_buf _ _ I i b H) as (? & ? & _).
  by destruct H as (_ & _ & ?).
Qed.

Lemma al_pos s A b pid : binv s A -> al A b = Some pid -> 0 < ar A b.
Proof.
  intros I Hl. pose proof (bi_pos _ _ I b). destruct (decide (ar A b = 0)) as [E|]; [|lia].
  destruct (bi_clean _ _ I b E). congruence.
Qed.

(** Stores into the data of a buffer. *)
Lemma upd_data_ok s A i b f :
  binv s A -> handle s i b -> 0 < ar A b -> length (f (av A b)) = bsize ->
  exists s', upd_buf i (fun x => x <| b_data := f (b_data x) |>) s = Ok tt s' /\
    bop s A s' (c_write b (f (av A b)) A) [] /\ handle s' i b.
Proof.
  intros I H Hp Hl. eexists. split; [done|].
  destruct (bi_buf _ _ I i b H) as (Hd & Hr & Hlk). pose proof H as (Hi & Hdev & Hbn).
  destruct (bi_dev _ _ I i Hi) as [[_ Hv]|[E _]]; [|by rewrite Hdev in E].
  apply (bupd_one s A i b); simpl; rewrite ?fn_insert_eq; try done.
  - by left.
  - by rewrite Hd.
  - intros c Hc. by rewrite fn_insert_ne.
  - lia.
  - lia.
Qed.

Lemma bwrite_ok s A pid i b :
  binv s A -> running (prj s) pid -> handle s i b -> al A b = Some pid ->
  exists s', bwrite i s = Ok tt s' /\ bop s A s' A [(b, av A b)] /\ handle s' i b.
Proof.
  intros I R H Hl. destruct (bi_buf _ _ I i b H) as (Hd & Hr & Hlk).
  pose proof (al_pos _ _ _ _ I Hl) as Hpos. pose proof H as (Hi & Hdev & Hbn).
  destruct (bi_dev _ _ I i Hi) as [[_ Hv]|[E _]]; [|by rewrite Hdev in E].
  unfold bwrite. erewrite bind_ok by (by apply holdingsleep_buf).
  rewrite Hlk, Hl. simpl. rewrite Z.eqb_refl. simpl.
  unfold virtio_disk_rw. erewrite bind_ok by done. rewrite Hbn, Hd.
  eexists. split; [done|].
  match goal with |- bop _ _ ?s1 _ _ /\ _ => destruct (bupd_ok s A i b s1 A) as (I' & H' & K') end;
    [done| |by split].
  split; simpl; try done.
  - by left.
  - apply (bi_lru _ _ I).
  - intros c Hc. by rewrite fn_insert_ne.
  - lia.
  - lia.
  - apply (bi_len _ _ I).
Qed.

(** A critical section of the cache's lock. *)
Lemma bcache_crit s (f : blk -> blk) :
  LkBcache ∉ held (prj s) ->
  (forall s m, f (inj (m : mach) s) = inj m (f s)) -> (forall s, prj (f s) = prj s :> mach) ->
  (lift (acquire LkBcache) ;; modify f ;; lift (release LkBcache)) s = Ok tt (f s).
Proof.
  intros Hh Hf Hp. erewrite bind_ok by (by apply lift_ok, acquire_ok).
  erewrite bind_ok by done. erewrite lift_ok.
  2: { apply release_ok. rewrite Hf, prj_inj. done. }
  f_equal. rewrite Hf, inj_inj, prj_inj. rewrite <- (Hp s).
  replace (_ <| held := _ |>) with (prj (f s) : mach); [apply inj_prj|].
  by destruct (prj (f s)).
Qed.

(** The cache with one more reference to buffer [i]. *)
Definition pinned (i : nat) (s : blk) : blk :=
  with_bufs (<[i := (bufs s !!! i) <| b_refcnt := u32 (b_refcnt (bufs s !!! i) + 1) |>]>
               (bufs s)) s.

Lemma bpin_eq i s : LkBcache ∉ held (prj s) -> bpin i s = Ok tt (pinned i s).
Proof. intros Hh. unfold bpin, upd_buf. by rewrite bcache_crit. Qed.

Lemma pinned_ok s A i b :
  binv s A -> handle s i b -> 0 < ar A b < 2 ^ 31 ->
  bop s A (pinned i s) (c_pin b 1 A) [] /\ handle (pinned i s) i b.
Proof.
  intros I H Hp.
  destruct (bi_buf _ _ I i b H) as (Hd & Hr & Hlk). pose proof H as (Hi & Hdev & Hbn).
  destruct (bi_dev _ _ I i Hi) as [[_ Hv]|[E _]]; [|by rewrite Hdev in E].
  apply (bupd_one s A i b); simpl; rewrite ?fn_insert_eq; try done.
  - by left.
  - rewrite Hr, u32_small by lia. done.
  - intros c Hc. by rewrite fn_insert_ne.
  - lia.
  - lia.
  - apply (bi_len _ _ I).
Qed.

Lemma bunpin_ok s A i b pid :
  binv s A -> running (prj s) pid -> handle s i b -> 1 < ar A b < 2 ^ 31 ->
  exists s', bunpin i s = Ok tt s' /\ bop s A s' (c_pin b (-1) A) [] /\ handle s' i b.
Proof.
  intros I (Hh & _) H Hp. unfold bunpin, upd_buf.
  rewrite bcache_crit; [|rewrite Hh; set_solver|done|done]. eexists. split; [done|].
  destruct (bi_buf _ _ I i b H) as (Hd & Hr & Hlk). pose proof H as (Hi & Hdev & Hbn).
  destruct (bi_dev _ _ I i Hi) as [[_ Hv]|[E _]]; [|by rewrite Hdev in E].
  apply (bupd_one s A i b); simpl; rewrite ?fn_insert_eq; try done.
  - by left.
  - rewrite Hr, u32_small by lia. done.
  - intros c Hc. by rewrite fn_insert_ne.
  - lia.
  - lia.
  - apply (bi_len _ _ I).
Qed.

(** The buffers after [brelse i]. *)
Definition released (i : nat) (B : gmap nat buf) : gmap nat buf :=
  let B1 := <[i := (B !!! i) <| b_lock := mksleeplock 0 0 |>
                     <| b_refcnt := u32 (b_refcnt (B !!! i) - 1) |>]> B in
  if u32 (b_refcnt (B !!! i) - 1) =? 0 then push i (unlink i B1) else B1.

Lemma releasesleep_buf s i pid :
  running (prj s) pid ->
  releasesleep (buf_lock i) s =
    Ok tt (inj (wake (ChBufLock i) (prj s))
      (with_bufs (<[i := (bufs s !!! i) <| b_lock := mksleeplock 0 0 |>]> (bufs s)) s)).
Proof.
  intros (Hh & Hl & _). rewrite (releasesleep_ok (buf_lock i)); try done.
  - rewrite Hh. set_solver.
  - intros j _. rewrite Hh. set_solver.
Qed.

Lemma move_to_front_ok i s :
  move_to_front i s = Ok tt (with_bufs (push i (unlink i (bufs s))) s).
Proof. destruct s. reflexivity. Qed.

Lemma brelse_eq s i pid :
  running (prj s) pid -> b_lock (bufs s !!! i) = mksleeplock 1 pid ->
  brelse i s = Ok tt (inj (wake (ChBufLock i) (prj s)) (with_bufs (released i (bufs s)) s)).
Proof.
  intros R Hlk. pose proof R as (Hh & _). simpl in Hh. unfold brelse.
  erewrite bind_ok by (by apply holdingsleep_buf). rewrite Hlk. simpl.
  rewrite Z.eqb_refl. simpl. erewrite bind_ok by (by apply (releasesleep_buf _ _ pid)).
  erewrite bind_ok by (apply lift_ok, acquire_ok; rewrite prj_inj; simpl; rewrite Hh; set_solver).
  do 2 erewrite bind_ok by done. unfold released. simpl.
  rewrite !lookup_total_insert_eq, !insert_insert_eq. simpl.
  destruct (u32 _ =? 0) eqn:E.
  - erewrite bind_ok by (apply move_to_front_ok).
    erewrite lift_ok by (by apply release_ok). done.
  - erewrite bind_ok by done. erewrite lift_ok by (by apply release_ok).
    done.
Qed.

Lemma core_released i B j : j <> i -> core (released i B !!! j) = core (B !!! j).
Proof.
  intros Hj. unfold released. destruct (_ =? 0); rewrite ?core_move;
    by rewrite lookup_total_insert_ne.
Qed.

Lemma core_released_eq i B :
  core (released i B !!! i) =
  core ((B !!! i) <| b_lock := mksleeplock 0 0 |> <| b_refcnt := u32 (b_refcnt (B !!! i) - 1) |>).
Proof.
  unfold released. destruct (_ =? 0); rewrite ?core_move; by rewrite lookup_total_insert_eq.
Qed.

(** The order of use after [brelse]: a buffer that loses its last reference
    becomes the most recently used one. *)
Lemma lru_released i B l1 l2 :
  lru B (l1 ++ i :: l2) ->
  lru (released i B) (if u32 (b_refcnt (B !!! i) - 1) =? 0
                      then i :: l1 ++ l2 else l1 ++ i :: l2).
Proof.
  intros H. unfold released.
  set (B1 := <[i := _]> B).
  assert (H1 : lru B1 (l1 ++ i :: l2)).
  { eapply lru_ext; [|done]. intros x. unfold nxf, pvf, B1.
    destruct (decide (x = i)) as [->|]; [by rewrite lookup_total_insert_eq|].
    by rewrite lookup_total_insert_ne. }
  destruct (_ =? 0); [by apply lru_move|done].
Qed.

Lemma brelse_ok s A i b pid :
  binv s A -> running (prj s) pid -> handle s i b -> al A b = Some pid ->
  ar A b < 2 ^ 31 -> (ar A b = 1 -> dsk s b = av A b) ->
  exists s', brelse i s = Ok tt s' /\ bop s A s' (c_drop b A) [] /\ handle s' i b.
Proof.
  intros I R H Hl Hb Hcl. destruct (bi_buf _ _ I i b H) as (Hd & Hr & Hlk).
  pose proof (al_pos _ _ _ _ I Hl) as Hpos. pose proof H as (Hi & Hdev & Hbn).
  destruct (bi_dev _ _ I i Hi) as [[_ Hv]|[E _]]; [|by rewrite Hdev in E].
  rewrite Hl in Hlk. rewrite (brelse_eq s i pid) by done.
  eexists. split; [done|].
  match goal with |- bop _ _ ?s1 _ _ /\ _ =>
    destruct (bupd_ok s A i b s1 (c_drop b A)) as (I' & H' & K') end; [done| |].
  - split; simpl; rewrite ?fn_insert_eq; try done.
    + by left.
    + destruct (bi_lru _ _ I) as (l & Hlru & Hp).
      assert (Hin : i ∈ l) by (rewrite Hp; apply elem_of_seq; lia).
      apply list_elem_of_split in Hin as (l1 & l2 & ->).
      eexists. split; [by apply lru_released|]. rewrite <- Hp.
      destruct (_ =? 0); [|done]. apply Permutation_middle.
    + intros j Hj. by apply core_released.
    + destruct (core_fields _ _ (core_released_eq i (bufs s))) as (-> & -> & -> & -> & -> & ->).
      simpl. rewrite Hr, u32_small by lia. done.
    + intros c Hc. by rewrite !fn_insert_ne.
    + lia.
    + intros E. split; [|done]. apply Hcl. lia.
    + apply (bi_len _ _ I).
  - split; [|done]. split; try done; simpl.
    + split_and!; try done. simpl. apply woke_wake.
    + by rewrite app_nil_r.
Qed.

(** ** Start-up *)

Definition set_lock (i : nat) (B : gmap nat buf) : gmap nat buf :=
  <[i := (B !!! i) <| b_lock := mksleeplock 0 0 |>]> B.

Lemma nxf_set_lock i B x : nxf (set_lock i B) x = nxf B x.
Proof.
  unfold nxf, set_lock. destruct (decide (x = i)) as [->|].
  - by rewrite lookup_total_insert_eq.
  - by rewrite lookup_total_insert_ne.
Qed.
Lemma pvf_set_lock i B x : pvf (set_lock i B) x = pvf B x.
Proof.
  unfold pvf, set_lock. destruct (decide (x = i)) as [->|].
  - by rewrite lookup_total_insert_eq.
  - by rewrite lookup_total_insert_ne.
Qed.
Lemma core_set_lock i B x :
  b_lock (B !!! i) = mksleeplock 0 0 -> core (set_lock i B !!! x) = core (B !!! x).
Proof.
  unfold set_lock. intros H. destruct (decide (x = i)) as [->|].
  - rewrite lookup_total_insert_eq. by destruct (B !!! i); simpl in *; subst.
  - by rewrite lookup_total_insert_ne.
Qed.

Definition binit_bufs (i : nat) (B : gmap nat buf) : gmap nat buf :=
  let B := set_lock i (set_prev i bhead (set_next i (nxf B bhead) B)) in
  set_next bhead i (set_prev (nxf B bhead) i B).

Lemma binit_one_eq i s : binit_one i s = Ok tt (with_bufs (binit_bufs i (bufs s)) s).
Proof. destruct s. reflexivity. Qed.

(** The cache before its first use: every buffer blank. *)
Definition unused_bufs (B : gmap nat buf) : Prop := forall x, core (B !!! x) = core blank_buf.

Lemma unused_lock B x : unused_bufs B -> b_lock (B !!! x) = mksleeplock 0 0.
Proof. intros H. by destruct (core_fields _ _ (H x)) as (_ & _ & _ & _ & _ & ->). Qed.

Lemma binit_bufs_ok i B l :
  unused_bufs B -> lru B l -> i <> bhead -> i ∉ l ->
  unused_bufs (binit_bufs i B) /\ lru (binit_bufs i B) (i :: l).
Proof.
  intros Hu Hl Hh Hi. split.
  - intros x. unfold binit_bufs. autorewrite with links. rewrite core_set_lock.
    + autorewrite with links. apply Hu.
    + apply (unused_lock (set_prev i bhead (set_next i (nxf B bhead) B))).
      intros y. autorewrite with links. apply Hu.
  - eapply ring_push; [exact Hl|set_solver| |]; intros x; unfold binit_bufs;
      autorewrite with links; rewrite ?nxf_set_lock, ?pvf_set_lock; autorewrite with links;
      rewrite ?nxf_set_lock, ?(decide_False (P := bhead = i)) by done;
      autorewrite with links; rewrite ?(decide_False (P := bhead = i)) by done; done.
Qed.

Lemma binit_range n k s l :
  unused_bufs (bufs s) -> lru (bufs s) l -> (k + n <= bhead)%nat ->
  (forall x, x ∈ l -> (x < k)%nat) ->
  exists B, mapM_ binit_one (seq k n) s = Ok tt (with_bufs B s) /\
    unused_bufs B /\ lru B (reverse (seq k n) ++ l).
Proof.
  revert k s l. induction n as [|n IH]; intros k s l Hu Hl Hk Hlt; simpl.
  { exists (bufs s). split_and!; [by destruct s|done|done]. }
  erewrite bind_ok by apply binit_one_eq.
  destruct (binit_bufs_ok k (bufs s) l) as [Hu' Hl']; [done|done|lia| |].
  { intros Hx. apply Hlt in Hx. lia. }
  destruct (IH (S k) (with_bufs (binit_bufs k (bufs s)) s) (k :: l)) as (B & E & HB & HL);
    [done|done|lia| |].
  { intros x [->|Hx]%elem_of_cons; [lia|]. apply Hlt in Hx. lia. }
  exists B. rewrite E. split_and!; [done|done|].
  rewrite reverse_cons, <- app_assoc. done.
Qed.

(** Before its first use the cache shows the disk. *)
Definition fresh_cache (d : disk) : cache := mkcache d (fun _ => 0) (fun _ => None).

Lemma unused_binv s l :
  unused_bufs (bufs s) -> lru (bufs s) l -> l ≡ₚ seq 0 NBUF ->
  (forall b, length (dsk s b) = bsize) -> binv s (fresh_cache (dsk s)).
Proof.
  intros Hu Hl Hp Hd.
  assert (Hn : forall i b, ~ handle s i b).
  { intros i b (_ & E & _). destruct (core_fields _ _ (Hu i)) as (E' & _).
    rewrite E' in E. done. }
  split; simpl; try done.
  - by exists l.
  - intros i _. right.
    by destruct (core_fields _ _ (Hu i)) as (-> & _ & _ & _ & -> & ->).
  - intros i j b H. by destruct (Hn i b).
  - intros i b H. by destruct (Hn i b).
Qed.

Lemma binit_ok s :
  bufs s = ∅ -> (forall b, length (dsk s b) = bsize) ->
  exists B, binit s = Ok tt (with_bufs B s) /\ lru B (reverse (seq 0 NBUF)) /\
    unused_bufs B /\ binv (with_bufs B s) (fresh_cache (dsk s)).
Proof.
  intros Hb Hd. unfold binit. do 2 erewrite bind_ok by done.
  match goal with |- exists B, mapM_ _ _ ?s1 = _ /\ _ =>
    destruct (binit_range NBUF 0 s1 []) as (B & E & HB & HL) end.
  - simpl. rewrite Hb. intros x. destruct (decide (x = bhead)) as [->|];
      by rewrite ?lookup_total_insert_eq, ?lookup_total_insert_ne.
  - split; [|apply NoDup_singleton]. simpl. unfold nxf, pvf.
    by rewrite !lookup_total_insert_eq.
  - done.
  - intros x Hx. by apply elem_of_nil in Hx.
  - rewrite app_nil_r in HL. exists B. split_and!; [by rewrite E|done|done|].
    exact (unused_binv (with_bufs B s) _ HB HL (reverse_Permutation (seq 0 NBUF)) Hd).
Qed.

(** ** Theorems *)

(** [binit], on zeroed static data, links all the buffers into one
    list, the last of the array first, and gives a cache in which every
    block is the disk's and none is referred to. *)
Theorem binit_spec s :
  bufs s = ∅ -> (forall b, length (dsk s b) = bsize) ->
  exists s', binit s = Ok tt s' /\ lru (bufs s') (reverse (seq 0 NBUF)) /\
    binv s' (fresh_cache (dsk s)) /\ dsk s' = dsk s /\ blk_mm s' = blk_mm s.
Proof.
  intros Hb Hd. destruct (binit_ok s) as (B & E & L & _ & I); [done|done|].
  exists (with_bufs B s). split_and!; [exact E|exact L|exact I|reflexivity..].
Qed.

(** C20: cache coherence.  With a buffer to spare, [bread] of a block
    that is not locked returns, locked by the caller, the one buffer that
    caches the block; it holds the block's current contents, whether these
    came from the disk or were written to the buffer since, and no other
    block's contents, references or lock change. *)
Theorem bread_spec s A pid b :
  binv s A -> running (prj s) pid -> al A b = None -> ar A b < 2 ^ 31 ->
  0 < ar A b \/ room A ->
  exists i s', bread ROOTDEV b s = Ok i s' /\ binv s' (c_take pid b A) /\
    b_data (bufs s' !!! i) = av A b /\ b_lock (bufs s' !!! i) = mksleeplock 1 pid /\
    (forall j, handle s' j b <-> j = i) /\ kept s A s' /\ dsk s' = dsk s.
Proof.
  intros I R Hl Hb Hr. destruct (bread_ok s A pid b) as (i & s' & E & O & H); try done.
  exists i, s'. pose proof (bo_inv _ _ _ _ _ O) as I'.
  destruct (bi_buf _ _ I' i b H) as (Hd & _ & Hlk).
  destruct (c_take_at pid b A) as [_ E2]. rewrite E2 in Hlk.
  split_and!; try done.
  - intros j. split; [|by intros ->]. intros Hj. by eapply (bi_uniq _ _ I').
  - apply (bo_kept _ _ _ _ _ O).
  - apply (bo_dsk _ _ _ _ _ O).
Qed.

(** replacement.  [bget] of a block that is not cached takes the
    buffer that comes last in the order of use among those without
    references, and panics when every buffer has some; and [brelse] of the
    last reference makes a buffer the most recently used one. *)
Theorem bget_lru s A l pid b :
  binv s A -> running (prj s) pid -> lru (bufs s) l -> l ≡ₚ seq 0 NBUF ->
  (forall i, ~ handle s i b) ->
  match List.find (fun i => b_refcnt (bufs s !!! i) =? 0) (reverse l) with
  | Some i => exists s', bget ROOTDEV b s = Ok i s' /\ lru (bufs s') l /\
      b_blockno (bufs s' !!! i) = b /\ b_refcnt (bufs s' !!! i) = 1
  | None => bget ROOTDEV b s = Panic "bget: no buffers"
  end.
Proof.
  intros I R Hlru Hp Hn.
  assert (Hlen : (length l <= NBUF)%nat) by (rewrite Hp; len).
  pose proof (find_handle s A b l I Hp) as Hf. destruct (List.find _ l) as [j|] eqn:Ef.
  { by destruct (Hn j). }
  destruct (List.find _ (reverse l)) as [i|] eqn:Eu; [|by eapply bget_full].
  eexists. split.
  - eapply bget_recycle; try done. apply List.find_some in Eu as [Hin Hz].
    apply list_elem_of_In in Hin. rewrite (reverse_Permutation l), Hp in Hin.
    apply elem_of_seq in Hin.
    destruct (bi_dev _ _ I i) as [[Hdev _]|(_ & _ & ?)]; [lia| |done].
    destruct (bi_buf _ _ I i (b_blockno (bufs s !!! i))) as (_ & E3 & E4);
      [split_and!; [lia|done|done]|].
    destruct (bi_clean _ _ I (b_blockno (bufs s !!! i))) as [_ E]; [lia|].
    by rewrite E4, E.
  - simpl. rewrite lookup_total_insert_eq. split_and!; [|done|done].
    eapply lru_ext; [|done]. intros x. unfold nxf, pvf.
    destruct (decide (x = i)) as [->|]; [by rewrite lookup_total_insert_eq|].
    by rewrite lookup_total_insert_ne.
Qed.

(** [brelse] gives back the lock and one reference and shows the
    same contents for every block; when it was the last reference, the
    buffer moves to the front of the list, the others keeping their order. *)
Theorem brelse_spec s A i b pid l1 l2 :
  binv s A -> running (prj s) pid -> handle s i b -> al A b = Some pid ->
  ar A b < 2 ^ 31 -> (ar A b = 1 -> dsk s b = av A b) -> lru (bufs s) (l1 ++ i :: l2) ->
  exists s', brelse i s = Ok tt s' /\ binv s' (c_drop b A) /\ dsk s' = dsk s /\
    lru (bufs s') (if ar A b =? 1 then i :: l1 ++ l2 else l1 ++ i :: l2).
Proof.
  intros I R H Hl Hb Hcl Hlru. pose proof (al_pos _ _ _ _ I Hl) as Hpos.
  destruct (brelse_ok s A i b pid) as (s' & E & O & _); try done.
  exists s'. split_and!; [done|apply (bo_inv _ _ _ _ _ O)|apply (bo_dsk _ _ _ _ _ O)|].
  destruct (bi_buf _ _ I i b H) as (_ & Hr & Hlk). rewrite Hl in Hlk.
  rewrite (brelse_eq s i pid) in E by done. injection E as <-. simpl.
  pose proof (lru_released i (bufs s) l1 l2 Hlru) as L.
  rewrite Hr, u32_small in L by lia. replace (ar A b =? 1) with (ar A b - 1 =? 0); [done|].
  destruct (Z.eqb_spec (ar A b) 1), (Z.eqb_spec (ar A b - 1) 0); done || lia.
Qed.

(** ** The theorems on a booted machine

    Process 3, pid 7, on a machine with a blank disk, before and after
    [binit] and after reading block 5. *)
Definition blk_boot : blk :=
  mkblk (mkmm two_procs (fun _ => 0) 0 0x80030000) ∅ (fun _ => zero_block) [].
Definition blk_booted : blk := after binit blk_boot.
Definition blk_read : blk := after (bread ROOTDEV 5) blk_booted.

Lemma zero_block_len b : length (dsk blk_boot b) = bsize.
Proof. exact (length_replicate bsize 0). Qed.

Lemma two_procs_running : running two_procs 7.
Proof. split_and!; [done|done|]. by eexists 3%nat, _. Qed.

Lemma blk_booted_ok :
  lru (bufs blk_booted) (reverse (seq 0 NBUF)) /\ binv blk_booted (fresh_cache (dsk blk_boot)) /\
  prj blk_booted = two_procs /\ dsk blk_booted = dsk blk_boot /\
  unused_bufs (bufs blk_booted).
Proof.
  destruct (binit_ok blk_boot eq_refl zero_block_len) as (B & E & L & U & I).
  unfold blk_booted, after. rewrite E.
  split_and!; [exact L|exact I|reflexivity|reflexivity|exact U].
Qed.

Lemma room_fresh d : room (fresh_cache d).
Proof. exists []. split; [by apply Nat.ltb_lt|done]. Qed.

Lemma blk_read_ok :
  exists i, bread ROOTDEV 5 blk_booted = Ok i blk_read /\
    bop blk_booted (fresh_cache (dsk blk_boot)) blk_read
      (c_take 7 5 (fresh_cache (dsk blk_boot))) [] /\ handle blk_read i 5.
Proof.
  destruct blk_booted_ok as (_ & I & R & _).
  destruct (bread_ok blk_booted (fresh_cache (dsk blk_boot)) 7 5) as (i & s' & E & O & H).
  - exact I.
  - rewrite R. apply two_procs_running.
  - done.
  - done.
  - right. apply room_fresh.
  - exists i. unfold blk_read, after. rewrite E. split_and!; [reflexivity|exact O|exact H].
Qed.

#[global] Opaque blk_booted blk_read.

Lemma binit_spec_witness :
  exists s', binit blk_boot = Ok tt s' /\ lru (bufs s') (reverse (seq 0 NBUF)) /\
    binv s' (fresh_cache (dsk blk_boot)) /\ dsk s' = dsk blk_boot /\
    blk_mm s' = blk_mm blk_boot.
Proof. apply (binit_spec blk_boot eq_refl zero_block_len). Defined.

Lemma bread_spec_witness :
  exists i s', bread ROOTDEV 5 blk_booted = Ok i s' /\
    binv s' (c_take 7 5 (fresh_cache (dsk blk_boot))) /\
    b_data (bufs s' !!! i) = zero_block /\ b_lock (bufs s' !!! i) = mksleeplock 1 7 /\
    (forall j, handle s' j 5 <-> j = i) /\ kept blk_booted (fresh_cache (dsk blk_boot)) s' /\
    dsk s' = dsk blk_booted.
Proof.
  destruct blk_booted_ok as (_ & I & R & _).
  apply (bread_spec blk_booted (fresh_cache (dsk blk_boot)) 7 5).
  - exact I.
  - rewrite R. apply two_procs_running.
  - done.
  - done.
  - right. apply room_fresh.
Defined.

Lemma no_handle_booted i : ~ handle blk_booted i 5.
Proof.
  intros (Hi & Hd & _). destruct blk_booted_ok as (_ & _ & _ & _ & U).
  destruct (core_fields _ _ (U i)) as (E' & _). rewrite E' in Hd. discriminate Hd.
Qed.

Lemma bget_lru_witness :
  match List.find (fun i => b_refcnt (bufs blk_booted !!! i) =? 0)
          (reverse (reverse (seq 0 NBUF))) with
  | Some i => exists s', bget ROOTDEV 5 blk_booted = Ok i s' /\
      lru (bufs s') (reverse (seq 0 NBUF)) /\
      b_blockno (bufs s' !!! i) = 5 /\ b_refcnt (bufs s' !!! i) = 1
  | None => bget ROOTDEV 5 blk_booted = Panic "bget: no buffers"
  end.
Proof.
  destruct blk_booted_ok as (L & I & R & _).
  apply (bget_lru blk_booted (fresh_cache (dsk blk_boot)) (reverse (seq 0 NBUF)) 7 5).
  - exact I.
  - rewrite R. apply two_procs_running.
  - exact L.
  - exact (reverse_Permutation (seq 0 NBUF)).
  - exact no_handle_booted.
Defined.

Lemma brelse_spec_witness :
  exists i l1 l2 s', handle blk_read i 5 /\ brelse i blk_read = Ok tt s' /\
    binv s' (c_drop 5 (c_take 7 5 (fresh_cache (dsk blk_boot)))) /\ dsk s' = dsk blk_read /\
    lru (bufs s') (i :: l1 ++ l2).
Proof.
  destruct blk_read_ok as (i & E & O & H). destruct blk_booted_ok as (_ & _ & R & D & _).
  pose proof (bo_inv _ _ _ _ _ O) as I.
  destruct (bi_lru _ _ I) as (l & L & P).
  assert (Hin : i ∈ l) by (rewrite P; apply elem_of_seq; destruct H; lia).
  apply list_elem_of_split in Hin as (l1 & l2 & ->).
  destruct (c_take_at 7 5 (fresh_cache (dsk blk_boot))) as [E1 E2].
  destruct (brelse_spec blk_read (c_take 7 5 (fresh_cache (dsk blk_boot))) i 5 7 l1 l2)
    as (s' & Es & Is & Ds & Ls).
  - exact I.
  - eapply bop_running; [exact O|]. rewrite R. apply two_procs_running.
  - exact H.
  - exact E2.
  - rewrite E1. done.
  - intros _. rewrite (bo_dsk _ _ _ _ _ O). cbn [apply_writes foldl]. rewrite D. reflexivity.
  - exact L.
  - exists i, l1, l2, s'. rewrite E1 in Ls. split_and!; [exact H|exact Es|exact Is|exact Ds|exact Ls].
Defined.
