(* ===== verification/Virtio.v ===== *)
(** * The disk driver, [kernel/virtio_disk.c]

    The driver's queue of descriptors, its bookkeeping of free descriptors
    and of requests in flight, the request path and the interrupt handler.
    Addresses given to the device are named by the object they point to.
    [Bio.v] uses the driver through the block transfer it promises. *)

From stdpp Require Import base numbers strings decidable sets gmap functions list.
From S2P Require Import Prelude.
From S2P Require Import Riscv.
From S2P Require Import Sched.
From S2P Require Import Sleeplock.
From S2P Require Import Kalloc.
From S2P Require Import Bio.
Open Scope Z_scope.
Open Scope xv6_scope.

(** ** [kernel/virtio.h] *)

(** The number of descriptors. *)
Definition NUM : Z := 8.
Definition num : nat := Z.to_nat NUM.
Definition VRING_DESC_F_NEXT : Z := 1.
Definition VRING_DESC_F_WRITE : Z := 2.
Definition VIRTIO_BLK_T_IN : Z := 0.
Definition VIRTIO_BLK_T_OUT : Z := 1.

(** What a descriptor's address points to. *)
Inductive daddr : Set :=
| DNull
| DOps (i : nat)      (* &disk.ops[i] *)
| DData (b : nat)     (* bcache.buf[b].data *)
| DStatus (i : nat).  (* &disk.info[i].status *)

Record virtq_desc : Type := mkdesc {
  d_addr : daddr;
  d_len : Z;
  d_flags : Z;
  d_next : Z;
}.
#[export] Instance set_d_addr : Setter d_addr := fun v r => mkdesc v (d_len r) (d_flags r) (d_next r).
#[export] Instance set_d_len : Setter d_len := fun v r => mkdesc (d_addr r) v (d_flags r) (d_next r).
#[export] Instance set_d_flags : Setter d_flags := fun v r => mkdesc (d_addr r) (d_len r) v (d_next r).
#[export] Instance set_d_next : Setter d_next := fun v r => mkdesc (d_addr r) (d_len r) (d_flags r) v.
Record virtio_blk_req : Type := mkreq {
  rq_type : Z;
  rq_reserved : Z;
  rq_sector : Z;
}.
#[export] Instance set_rq_type : Setter rq_type := fun v r => mkreq v (rq_reserved r) (rq_sector r).
#[export] Instance set_rq_reserved : Setter rq_reserved := fun v r => mkreq (rq_type r) v (rq_sector r).
#[export] Instance set_rq_sector : Setter rq_sector := fun v r => mkreq (rq_type r) (rq_reserved r) v.
Definition no_desc : virtq_desc := mkdesc DNull 0 0 0.
#[export] Instance virtq_desc_inhabited : Inhabited virtq_desc := populate no_desc.
Definition no_req : virtio_blk_req := mkreq 0 0 0.
#[export] Instance virtio_blk_req_inhabited : Inhabited virtio_blk_req := populate no_req.

Record vdisk : Type := mkvdisk {
  v_desc : list virtq_desc;
  avail_ring : list Z;  (** disk.avail *)
  avail_idx : Z;
  used_ring : list Z;  (** disk.used, the id of each element *)
  used_idx : Z;
  v_free : list bool;  (** is a descriptor free? *)
  v_used_idx : Z;  (** we have looked this far in used *)
  info_b : list (option nat);  (** the buffer of a request in flight *)
  info_status : list Z;
  v_ops : list virtio_blk_req;
}.
#[export] Instance set_v_desc : Setter v_desc := fun v r => mkvdisk v (avail_ring r) (avail_idx r) (used_ring r) (used_idx r) (v_free r) (v_used_idx r) (info_b r) (info_status r) (v_ops r).
#[export] Instance set_avail_ring : Setter avail_ring := fun v r => mkvdisk (v_desc r) v (avail_idx r) (used_ring r) (used_idx r) (v_free r) (v_used_idx r) (info_b r) (info_status r) (v_ops r).
#[export] Instance set_avail_idx : Setter avail_idx := fun v r => mkvdisk (v_desc r) (avail_ring r) v (used_ring r) (used_idx r) (v_free r) (v_used_idx r) (info_b r) (info_status r) (v_ops r).
#[export] Instance set_used_ring : Setter used_ring := fun v r => mkvdisk (v_desc r) (avail_ring r) (avail_idx r) v (used_idx r) (v_free r) (v_used_idx r) (info_b r) (info_status r) (v_ops r).
#[export] Instance set_used_idx : Setter used_idx := fun v r => mkvdisk (v_desc r) (avail_ring r) (avail_idx r) (used_ring r) v (v_free r) (v_used_idx r) (info_b r) (info_status r) (v_ops r).
#[export] Instance set_v_free : Setter v_free := fun v r => mkvdisk (v_desc r) (avail_ring r) (avail_idx r) (used_ring r) (used_idx r) v (v_used_idx r) (info_b r) (info_status r) (v_ops r).
#[export] Instance set_v_used_idx : Setter v_used_idx := fun v r => mkvdisk (v_desc r) (avail_ring r) (avail_idx r) (used_ring r) (used_idx r) (v_free r) v (info_b r) (info_status r) (v_ops r).
#[export] Instance set_info_b : Setter info_b := fun v r => mkvdisk (v_desc r) (avail_ring r) (avail_idx r) (used_ring r) (used_idx r) (v_free r) (v_used_idx r) v (info_status r) (v_ops r).
#[export] Instance set_info_status : Setter info_status := fun v r => mkvdisk (v_desc r) (avail_ring r) (avail_idx r) (used_ring r) (used_idx r) (v_free r) (v_used_idx r) (info_b r) v (v_ops r).
#[export] Instance set_v_ops : Setter v_ops := fun v r => mkvdisk (v_desc r) (avail_ring r) (avail_idx r) (used_ring r) (used_idx r) (v_free r) (v_used_idx r) (info_b r) (info_status r) v.

(** The driver's data after [virtio_disk_init]. *)
Definition vdisk_init : vdisk :=
  mkvdisk (replicate num no_desc) (replicate num 0) 0 (replicate num 0) 0
    (replicate num true) 0 (replicate num None) (replicate num 0) (replicate num no_req).

Record vst : Type := mkvst {
  vs_blk : blk;
  vq : vdisk;
}.
#[export] Instance set_vs_blk : Setter vs_blk := fun v r => mkvst v (vq r).
#[export] Instance set_vq : Setter vq := fun v r => mkvst (vs_blk r) v.

#[export] Instance embed_blk_vst : Embed blk vst := {|
  prj := vs_blk;
  inj := fun b s => s <| vs_blk := b |>;
|}.
#[export] Instance embed_blk_vst_laws : EmbedLaws blk vst.
Proof. by split; intros; try destruct t. Qed.
#[export] Instance embed_mach_vst : Embed mach vst := {|
  prj := fun s => mm_mach (blk_mm (vs_blk s));
  inj := fun m s => s <| vs_blk := vs_blk s <| blk_mm := blk_mm (vs_blk s) <| mm_mach := m |> |> |>;
|}.
#[export] Instance embed_mach_vst_laws : EmbedLaws mach vst.
Proof. split; intros; try destruct t as [[[]]]; done. Qed.

Definition get_vq : M vst vdisk := gets vq.
Definition upd_vq (f : vdisk -> vdisk) : M vst unit := modify (fun s => s <| vq := f (vq s) |>).
Definition set_desc (i : nat) (f : virtq_desc -> virtq_desc) : M vst unit :=
  upd_vq (fun v => v <| v_desc := <[i := f (v_desc v !!! i)]> (v_desc v) |>).

(** ** Descriptors *)

(** [None] for -1. *)
Fixpoint alloc_desc_from (n i : nat) : M vst (option nat) :=
  match n with
  | O => ret None
  | S n' =>
    v <- get_vq ;;
    if (v_free v !!! i : bool) then
      upd_vq (fun v => v <| v_free := <[i := false]> (v_free v) |>) ;;
      ret (Some i)
    else alloc_desc_from n' (S i)
  end.
Definition alloc_desc : M vst (option nat) := alloc_desc_from num 0.

Definition free_desc (i : nat) : M vst unit :=
  if Nat.leb num i then panic "free_desc 1"
  else
    v <- get_vq ;;
    if (v_free v !!! i : bool) then panic "free_desc 2"
    else
      set_desc i (fun _ => no_desc) ;;
      upd_vq (fun v => v <| v_free := <[i := true]> (v_free v) |>) ;;
      lift (wakeup ChDiskFree).

(** [fuel] bounds the length of the chain. *)
Fixpoint free_chain (fuel : nat) (i : nat) : M vst unit :=
  match fuel with
  | O => out_of_fuel
  | S fuel' =>
    v <- get_vq ;;
    let flag := d_flags (v_desc v !!! i) in
    let nxt := d_next (v_desc v !!! i) in
    free_desc i ;;
    if negb (Z.land flag VRING_DESC_F_NEXT =? 0) then free_chain fuel' (Z.to_nat nxt)
    else ret tt
  end.

(** The loop of [alloc3_desc], with the descriptors found so far. *)
Fixpoint alloc_descs (n : nat) (idx : list nat) : M vst (option (list nat)) :=
  match n with
  | O => ret (Some idx)
  | S n' =>
    o <- alloc_desc ;;
    match o with
    | None => mapM_ free_desc idx ;; ret None
    | Some i => alloc_descs n' (idx ++ [i])
    end
  end.
Definition alloc3_desc : M vst (option (list nat)) := alloc_descs 3 [].

(** ** Requests *)

Fixpoint wait_desc (fuel : nat) : M vst (list nat) :=
  match fuel with
  | O => out_of_fuel
  | S fuel' =>
    o <- alloc3_desc ;;
    match o with
    | Some idx => ret idx
    | None => lift (sleep ChDiskFree LkVdisk) ;; wait_desc fuel'
    end
  end.

(** Filling in the three descriptors of a transfer of buffer [b]. *)
Definition format_descs (b : nat) (write : bool) (sector : Z) (i0 i1 i2 : nat) : M vst unit :=
  upd_vq (fun v => v <| v_ops := <[i0 := mkreq (if write then VIRTIO_BLK_T_OUT else VIRTIO_BLK_T_IN)
                                           0 sector]> (v_ops v) |>) ;;
  set_desc i0 (fun _ => mkdesc (DOps i0) 16 VRING_DESC_F_NEXT (Z.of_nat i1)) ;;
  set_desc i1 (fun _ => mkdesc (DData b) BSIZE
                 (Z.lor (if write then 0 else VRING_DESC_F_WRITE) VRING_DESC_F_NEXT)
                 (Z.of_nat i2)) ;;
  upd_vq (fun v => v <| info_status := <[i0 := 0xff]> (info_status v) |>) ;;
  set_desc i2 (fun _ => mkdesc (DStatus i0) 1 VRING_DESC_F_WRITE 0) ;;
  lift (upd_buf b (fun x => x <| b_disk := 1 |>)) ;;
  upd_vq (fun v => v <| info_b := <[i0 := Some b]> (info_b v) |>).

(** Putting the head of the chain on the avail ring. *)
Definition offer (i0 : nat) : M vst unit :=
  upd_vq (fun v => v <| avail_ring :=
    <[Z.to_nat (avail_idx v mod NUM) := Z.of_nat i0]> (avail_ring v) |>) ;;
  upd_vq (fun v => v <| avail_idx := u16 (avail_idx v + 1) |>).

Fixpoint wait_disk (fuel : nat) (b : nat) : M vst unit :=
  match fuel with
  | O => out_of_fuel
  | S fuel' =>
    x <- lift (get_buf b) ;;
    if b_disk x =? 1 then lift (sleep (ChBuf b) LkVdisk) ;; wait_disk fuel' b
    else ret tt
  end.

Definition disk_rw (b : nat) (write : bool) : M vst unit :=
  x <- lift (get_buf b) ;;
  let sector := u32 (b_blockno x * (BSIZE / 512)) in
  lift (acquire LkVdisk) ;;
  idx <- wait_desc wait_fuel ;;
  match idx with
  | [i0; i1; i2] =>
    format_descs b write sector i0 i1 i2 ;;
    offer i0 ;;
    wait_disk wait_fuel b ;;
    upd_vq (fun v => v <| info_b := <[i0 := None]> (info_b v) |>) ;;
    free_chain (S num) i0 ;;
    lift (release LkVdisk)
  | _ => undefined "not three descriptors"
  end.

(** The loop of [virtio_disk_intr] over the used ring. *)
Fixpoint used_loop (fuel : nat) : M vst unit :=
  match fuel with
  | O => out_of_fuel
  | S fuel' =>
    v <- get_vq ;;
    if negb (v_used_idx v =? used_idx v) then
      let id := Z.to_nat (used_ring v !!! Z.to_nat (v_used_idx v mod NUM)) in
      if negb (info_status v !!! id =? 0) then panic "virtio_disk_intr status"
      else
        match info_b v !!! id with
        | None => undefined "null buf"
        | Some b =>
          lift (upd_buf b (fun x => x <| b_disk := 0 |>)) ;;
          lift (wakeup (ChBuf b)) ;;
          upd_vq (fun v => v <| v_used_idx := u16 (v_used_idx v + 1) |>) ;;
          used_loop fuel'
        end
    else ret tt
  end.
Definition virtio_disk_intr : M vst unit :=
  lift (acquire LkVdisk) ;;
  v <- get_vq ;;
  used_loop (S (Z.to_nat (u16 (used_idx v - v_used_idx v)))) ;;
  lift (release LkVdisk).
