(* ===== verification/Log.v ===== *)
(** * The write-ahead log, [kernel/log.c]

    A transaction collects the blocks its operations modify in the cache
    ([log_write]) and, at the last [end_op], writes them to the log area, then
    the header that commits them, then their home locations, then an empty
    header.  The state is the cache's together with [struct log].

    The main results are crash atomicity (whatever prefix of the writes of a
    commit reached the disk, recovery leaves either none or all of the
    transaction), that recovery may itself be interrupted and started again
    any number of times, and that the space [begin_op] reserves is enough. *)

From stdpp Require Import base numbers strings decidable sets gmap functions list.
From S2P Require Import Prelude.
From S2P Require Import CString.
From S2P Require Import Riscv.
From S2P Require Import Sched.
From S2P Require Import Kalloc.
From S2P Require Import Sleeplock.
From S2P Require Import Bio.
Open Scope Z_scope.
Open Scope xv6_scope.

Record logst : Type := mklogst {
  lg_start : Z;
  lg_outstanding : Z;  (** how many FS sys calls are executing *)
  lg_committing : Z;  (** in commit(), please wait *)
  lg_dev : Z;
  lh_n : Z;
  lh_block : list Z;
}.
#[export] Instance set_lg_start : Setter lg_start := fun v r => mklogst v (lg_outstanding r) (lg_committing r) (lg_dev r) (lh_n r) (lh_block r).
#[export] Instance set_lg_outstanding : Setter lg_outstanding := fun v r => mklogst (lg_start r) v (lg_committing r) (lg_dev r) (lh_n r) (lh_block r).
#[export] Instance set_lg_committing : Setter lg_committing := fun v r => mklogst (lg_start r) (lg_outstanding r) v (lg_dev r) (lh_n r) (lh_block r).
#[export] Instance set_lg_dev : Setter lg_dev := fun v r => mklogst (lg_start r) (lg_outstanding r) (lg_committing r) v (lh_n r) (lh_block r).
#[export] Instance set_lh_n : Setter lh_n := fun v r => mklogst (lg_start r) (lg_outstanding r) (lg_committing r) (lg_dev r) v (lh_block r).
#[export] Instance set_lh_block : Setter lh_block := fun v r => mklogst (lg_start r) (lg_outstanding r) (lg_committing r) (lg_dev r) (lh_n r) v.

Record lstate : Type := mklstate {
  lg_blk : blk;
  lg : logst;
}.
#[export] Instance set_lg_blk : Setter lg_blk := fun v r => mklstate v (lg r).
#[export] Instance set_lg : Setter lg := fun v r => mklstate (lg_blk r) v.

#[export] Instance embed_blk_lstate : Embed blk lstate := {|
  prj := lg_blk;
  inj := fun b s => s <| lg_blk := b |>;
|}.
#[export] Instance embed_blk_lstate_laws : EmbedLaws blk lstate.
Proof. by split; intros; try destruct t. Qed.
#[export] Instance embed_mach_lstate : Embed mach lstate := {|
  prj := fun s => prj (lg_blk s);
  inj := fun m s => s <| lg_blk := inj m (lg_blk s) |>;
|}.
#[export] Instance embed_mach_lstate_laws : EmbedLaws mach lstate.
Proof. split; intros; try destruct t as [[[]]]; done. Qed.

Definition upd_log (f : logst -> logst) : M lstate unit :=
  modify (fun s => s <| lg := f (lg s) |>).
Definition get_log : M lstate logst := gets lg.

(** [log.lh.block[i]]. *)
Definition log_block (i : Z) : M lstate Z :=
  l <- get_log ;;
  if (0 <=? i) then index (lh_block l) (Z.to_nat i) else undefined "log.lh.block".
Definition set_log_block (i v : Z) : M lstate unit :=
  l <- get_log ;;
  if (0 <=? i) && (i <? Z.of_nat (length (lh_block l)))
  then upd_log (fun l => l <| lh_block := <[Z.to_nat i := v]> (lh_block l) |>)
  else undefined "log.lh.block".

(** [memmove(to->data, from->data, BSIZE)] between two buffers. *)
Definition copy_buf (to from : nat) : M blk unit :=
  src <- get_buf from ;;
  upd_buf to (fun b => b <| b_data := splice 0 (take bsize (b_data src)) (b_data b) |>).

(** The on-disk header, [struct logheader] at the start of a block. *)
Definition hb_n (h : list Z) : Z := s32 (get_le 4 0 h).
Definition hb_block (i : Z) (h : list Z) : Z := s32 (get_le 4 (4 + 4 * Z.to_nat i) h).
Definition hb_set_n (v : Z) (h : list Z) : list Z := put_le 4 0 v h.
Definition hb_set_block (i v : Z) (h : list Z) : list Z := put_le 4 (4 + 4 * Z.to_nat i) v h.

(** One iteration of [install_trans]. *)
Definition install_one (recovering : bool) (tail : Z) : M lstate unit :=
  when recovering (lift (kprintf "recovering tail %d dst %d")) ;;
  l <- get_log ;;
  lbuf <- lift (bread (lg_dev l) (u32 (lg_start l + tail + 1))) ;;
  dst <- log_block tail ;;
  dbuf <- lift (bread (lg_dev l) (u32 dst)) ;;
  lift (copy_buf dbuf lbuf) ;;
  lift (bwrite dbuf) ;;
  when (negb recovering) (lift (bunpin dbuf)) ;;
  lift (brelse lbuf) ;;
  lift (brelse dbuf).

Definition install_trans (recovering : bool) : M lstate unit :=
  l <- get_log ;; mapM_ (install_one recovering) (seqZ 0 (lh_n l)).

Definition read_head : M lstate unit :=
  l <- get_log ;;
  buf <- lift (bread (lg_dev l) (u32 (lg_start l))) ;;
  b <- lift (get_buf buf) ;;
  upd_log (fun l => l <| lh_n := hb_n (b_data b) |>) ;;
  mapM_ (fun i => set_log_block i (hb_block i (b_data b))) (seqZ 0 (hb_n (b_data b))) ;;
  lift (brelse buf).

Definition write_head : M lstate unit :=
  l <- get_log ;;
  buf <- lift (bread (lg_dev l) (u32 (lg_start l))) ;;
  lift (upd_buf buf (fun b => b <| b_data := hb_set_n (lh_n l) (b_data b) |>)) ;;
  mapM_ (fun i =>
    v <- log_block i ;;
    lift (upd_buf buf (fun b => b <| b_data := hb_set_block i v (b_data b) |>)))
    (seqZ 0 (lh_n l)) ;;
  lift (bwrite buf) ;;
  lift (brelse buf).

Definition recover_from_log : M lstate unit :=
  read_head ;;
  install_trans true ;;
  upd_log (fun l => l <| lh_n := 0 |>) ;;
  write_head.

(** [sizeof(struct logheader)]. *)
Definition sizeof_logheader : Z := 4 + 4 * LOGBLOCKS.

Definition initlog (dev logstart : Z) : M lstate unit :=
  if BSIZE <=? sizeof_logheader then panic "initlog: too big logheader"
  else
    upd_log (fun l => l <| lg_start := s32 logstart |> <| lg_dev := dev |>) ;;
    recover_from_log.

(** The [while(1)] of [begin_op]. *)
Fixpoint begin_op_loop (fuel : nat) : M lstate unit :=
  match fuel with
  | O => out_of_fuel
  | S fuel' =>
    l <- get_log ;;
    if negb (lg_committing l =? 0) then
      lift (sleep ChLog LkLog) ;; begin_op_loop fuel'
    else if LOGBLOCKS <? lh_n l + (lg_outstanding l + 1) * MAXOPBLOCKS then
      lift (sleep ChLog LkLog) ;; begin_op_loop fuel'
    else
      upd_log (fun l => l <| lg_outstanding := s32 (lg_outstanding l + 1) |>) ;;
      lift (release LkLog)
  end.
Definition begin_op : M lstate unit :=
  lift (acquire LkLog) ;; begin_op_loop wait_fuel.

(** One iteration of [write_log]. *)
Definition write_log_one (tail : Z) : M lstate unit :=
  l <- get_log ;;
  to <- lift (bread (lg_dev l) (u32 (lg_start l + tail + 1))) ;;
  src <- log_block tail ;;
  from <- lift (bread (lg_dev l) (u32 src)) ;;
  lift (copy_buf to from) ;;
  lift (bwrite to) ;;
  lift (brelse from) ;;
  lift (brelse to).

Definition write_log : M lstate unit :=
  l <- get_log ;; mapM_ write_log_one (seqZ 0 (lh_n l)).

Definition commit : M lstate unit :=
  l <- get_log ;;
  when (0 <? lh_n l)
    (write_log ;;
     write_head ;;
     install_trans false ;;
     upd_log (fun l => l <| lh_n := 0 |>) ;;
     write_head).

Definition end_op : M lstate unit :=
  lift (acquire LkLog) ;;
  upd_log (fun l => l <| lg_outstanding := s32 (lg_outstanding l - 1) |>) ;;
  l <- get_log ;;
  if negb (lg_committing l =? 0) then panic "log.committing"
  else
    let do_commit := lg_outstanding l =? 0 in
    (if do_commit then upd_log (fun l => l <| lg_committing := 1 |>)
     else lift (wakeup ChLog)) ;;
    lift (release LkLog) ;;
    when do_commit
      (commit ;;
       lift (acquire LkLog) ;;
       upd_log (fun l => l <| lg_committing := 0 |>) ;;
       lift (wakeup ChLog) ;;
       lift (release LkLog)).

(** The search of [log_write] for the block, up to the [n] logged. *)
Fixpoint log_find (fuel : nat) (i : Z) (blockno : Z) : M lstate Z :=
  match fuel with
  | O => out_of_fuel
  | S fuel' =>
    l <- get_log ;;
    if i <? lh_n l then
      v <- log_block i ;;
      if u32 v =? blockno then ret i else log_find fuel' (i + 1) blockno
    else ret i
  end.

Definition log_write (b : nat) : M lstate unit :=
  lift (acquire LkLog) ;;
  l <- get_log ;;
  if LOGBLOCKS <=? lh_n l then panic "too big a transaction"
  else if lg_outstanding l <? 1 then panic "log_write outside of trans"
  else
    buf <- lift (get_buf b) ;;
    i <- log_find (S (Z.to_nat (lh_n l))) 0 (b_blockno buf) ;;
    set_log_block i (s32 (b_blockno buf)) ;;
    l <- get_log ;;
    when (i =? lh_n l)
      (lift (bpin b) ;; upd_log (fun l => l <| lh_n := s32 (lh_n l + 1) |>)) ;;
    lift (release LkLog).

(** ** Disks, headers and recovery, without the program *)

Lemma apply_writes_notin d w b : b ∉ fst <$> w -> apply_writes d w b = d b.
Proof.
  revert d. induction w as [|[c x] w IH]; intros d H; [done|].
  simpl in *. rewrite (IH (<[c := x]> d)) by set_solver.
  apply fn_insert_ne. set_solver.
Qed.

Lemma apply_writes_in d w b x :
  (forall y, (b, y) ∈ w -> y = x) -> b ∈ fst <$> w -> apply_writes d w b = x.
Proof.
  revert d. induction w as [|[c z] w IH]; intros d Hx Hb; [by apply elem_of_nil in Hb|].
  simpl. destruct (decide (b ∈ fst <$> w)) as [Hin|Hin].
  - apply (IH (<[c := z]> d)); [|done]. intros y Hy. apply Hx. by apply list_elem_of_further.
  - simpl in Hb. apply elem_of_cons in Hb as [->|Hb]; [|done].
    change (apply_writes (<[c := z]> d) w c = x).
    rewrite apply_writes_notin, fn_insert_eq by done. apply Hx. apply list_elem_of_here.
Qed.

(** The header block that names the blocks [l], stored over [h]. *)
Fixpoint hdr_blocks (i : Z) (l : list Z) (h : list Z) : list Z :=
  match l with
  | [] => h
  | b :: l' => hdr_blocks (i + 1) l' (hb_set_block i b h)
  end.
Definition hdr (l h : list Z) : list Z :=
  hdr_blocks 0 l (hb_set_n (Z.of_nat (length l)) h).

(** The blocks a header names. *)
Definition hdr_list (h : list Z) : list Z := (fun i => hb_block i h) <$> seqZ 0 (hb_n h).

Lemma bsize_val : bsize = 1024%nat.
Proof. done. Qed.
#[global] Opaque bsize.

Definition fits (i : Z) : Prop := 0 <= i < LOGBLOCKS.

Lemma length_hb_set_block i v h :
  fits i -> length h = bsize -> length (hb_set_block i v h) = bsize.
Proof.
  unfold fits, LOGBLOCKS, MAXOPBLOCKS. intros Hi Hh. unfold hb_set_block.
  rewrite bsize_val in *. rewrite length_put_le; lia.
Qed.

Lemma hb_block_set_eq i v h :
  fits i -> length h = bsize -> 0 <= v < 2 ^ 31 -> hb_block i (hb_set_block i v h) = v.
Proof.
  unfold fits, LOGBLOCKS, MAXOPBLOCKS. intros Hi Hh Hv. unfold hb_set_block, hb_block.
  rewrite bsize_val in *. rewrite get_put_le by lia.
  change (256 ^ Z.of_nat 4) with (2 ^ 32). rewrite Z.mod_small by lia. apply s32_small. lia.
Qed.

Lemma hb_block_set_ne i j v h :
  fits i -> fits j -> length h = bsize -> i <> j ->
  hb_block j (hb_set_block i v h) = hb_block j h.
Proof.
  unfold fits, LOGBLOCKS, MAXOPBLOCKS. intros Hi Hj Hh Hne. unfold hb_set_block, hb_block.
  rewrite bsize_val in *. rewrite get_put_le_other by lia. done.
Qed.

Lemma hb_n_set_block i v h :
  fits i -> length h = bsize -> hb_n (hb_set_block i v h) = hb_n h.
Proof.
  unfold fits, LOGBLOCKS, MAXOPBLOCKS. intros Hi Hh. unfold hb_set_block, hb_n.
  rewrite bsize_val in *. rewrite get_put_le_other by lia. done.
Qed.

Lemma length_hb_set_n v h : length h = bsize -> length (hb_set_n v h) = bsize.
Proof. intros Hh. unfold hb_set_n. rewrite bsize_val in *. rewrite length_put_le; lia. Qed.

Lemma hb_n_set_n v h : length h = bsize -> 0 <= v < 2 ^ 31 -> hb_n (hb_set_n v h) = v.
Proof.
  intros Hh Hv. unfold hb_set_n, hb_n. rewrite bsize_val in *. rewrite get_put_le by lia.
  change (256 ^ Z.of_nat 4) with (2 ^ 32). rewrite Z.mod_small by lia. apply s32_small. lia.
Qed.

(** What is stored in a header can be read back. *)
Lemma hdr_blocks_spec i l h :
  0 <= i -> i + Z.of_nat (length l) <= LOGBLOCKS -> length h = bsize ->
  Forall (fun b => 0 <= b < 2 ^ 31) l ->
  length (hdr_blocks i l h) = bsize /\ hb_n (hdr_blocks i l h) = hb_n h /\
  (forall j, fits j -> j < i -> hb_block j (hdr_blocks i l h) = hb_block j h) /\
  (forall k b, l !! k = Some b -> hb_block (i + Z.of_nat k) (hdr_blocks i l h) = b).
Proof.
  revert i h. induction l as [|b l IH]; intros i h Hi Hl Hh Hv; [done|].
  cbn [length] in Hl. apply Forall_cons_1 in Hv as [Hb Hv].
  assert (Hf : fits i) by (unfold fits; lia).
  destruct (IH (i + 1) (hb_set_block i b h)) as (L & N & P & Q);
    [lia|lia|by apply length_hb_set_block|done|].
  cbn [hdr_blocks]. split_and!; [done| | |].
  - rewrite N. by apply hb_n_set_block.
  - intros j Hj Hlt. rewrite P by (done || lia). apply hb_block_set_ne; done || lia.
  - intros [|k] c Hk.
    + injection Hk as <-. rewrite Z.add_0_r, P by (done || lia). by apply hb_block_set_eq.
    + rewrite <- (Q k c Hk). f_equal. lia.
Qed.

Lemma hdr_spec l h :
  Z.of_nat (length l) <= LOGBLOCKS -> length h = bsize ->
  Forall (fun b => 0 <= b < 2 ^ 31) l ->
  length (hdr l h) = bsize /\ hb_n (hdr l h) = Z.of_nat (length l) /\ hdr_list (hdr l h) = l.
Proof.
  intros Hl Hh Hv. unfold hdr.
  assert (Hb : 0 <= Z.of_nat (length l) < 2 ^ 31)
    by (unfold LOGBLOCKS, MAXOPBLOCKS in Hl; lia).
  destruct (hdr_blocks_spec 0 l (hb_set_n (Z.of_nat (length l)) h)) as (L & N & _ & Q);
    [lia|lia|by apply length_hb_set_n|done|].
  rewrite hb_n_set_n in N by done. split_and!; [done|done|].
  unfold hdr_list. rewrite N. apply list_eq. intros k.
  rewrite list_lookup_fmap. destruct (decide (k < length l)%nat) as [Hk|Hk].
  - rewrite lookup_seqZ_lt by lia. simpl.
    destruct (lookup_lt_is_Some_2 l k Hk) as [b Eb]. rewrite Eb. f_equal.
    by rewrite <- (Q k b Eb).
  - rewrite lookup_seqZ_ge by lia. by rewrite lookup_ge_None_2 by lia.
Qed.

(** The log area of a disk whose log starts at block [start]: the header
    and [LOGBLOCKS] blocks.  Every other block is somebody's home. *)
Definition home (start b : Z) : Prop := ~ (start <= b <= start + LOGBLOCKS).

(** Block numbers a log may hold. *)
Record good_log (start : Z) (l : list Z) : Prop := {
  gl_len : Z.of_nat (length l) <= LOGBLOCKS;
  gl_nodup : NoDup l;
  gl_home : Forall (home start) l;
  gl_range : Forall (fun b => 0 <= b < 2 ^ 31) l;
}.

(** The writes of a commit whose blocks [l] have the contents [V]: the
    copies in the log, the header that commits, the installation and the
    header that clears the log. *)
Definition log_writes (start : Z) (V : disk) (l : list Z) : wlog :=
  imap (fun t b => (start + Z.of_nat t + 1, V b)) l.
Definition home_writes (V : disk) (l : list Z) : wlog := (fun b => (b, V b)) <$> l.
Definition commit_writes (start : Z) (V : disk) (l : list Z) (h : list Z) : wlog :=
  log_writes start V l ++ [(start, hdr l h)] ++ home_writes V l ++
  [(start, hdr [] (hdr l h))].

(** The writes of a recovery from disk [d]: the blocks the header names,
    from the log, then the empty header. *)
Definition replay_writes (start : Z) (d : disk) (l : list Z) : wlog :=
  imap (fun t b => (b, d (start + Z.of_nat t + 1))) l.
Definition recover_writes (start : Z) (d : disk) : wlog :=
  replay_writes start d (hdr_list (d start)) ++ [(start, hdr [] (d start))].

(** [d] recovers to [H]: after recovery the home blocks are those of [H]. *)
Definition recovers_to (start : Z) (d H : disk) : Prop :=
  (forall b, length (d b) = bsize) /\ 0 <= hb_n (d start) /\
  good_log start (hdr_list (d start)) /\
  forall b, home start b -> apply_writes d (recover_writes start d) b = H b.

Section crash.
Context (start : Z).

Lemma log_area_block t : (t < Z.to_nat LOGBLOCKS)%nat -> ~ home start (start + Z.of_nat t + 1).
Proof. unfold home, LOGBLOCKS, MAXOPBLOCKS. lia. Qed.

Lemma fst_log_writes V l b :
  b ∈ fst <$> log_writes start V l <->
  exists t, (t < length l)%nat /\ b = start + Z.of_nat t + 1.
Proof.
  unfold log_writes. rewrite list_elem_of_fmap. setoid_rewrite elem_of_lookup_imap. split.
  - intros (p & -> & t & c & -> & Ht). exists t. split; [by eapply lookup_lt_Some|done].
  - intros (t & Ht & ->). destruct (lookup_lt_is_Some_2 l t Ht) as [c Hc].
    eexists. split; [|by exists t, c]. done.
Qed.

Lemma fst_home_writes V l : fst <$> home_writes V l = l.
Proof. unfold home_writes. rewrite <- list_fmap_compose. apply list_fmap_id. Qed.

Lemma fst_replay_writes d l : fst <$> replay_writes start d l = l.
Proof.
  apply list_eq. intros i. unfold replay_writes. rewrite list_lookup_fmap, list_lookup_imap.
  by destruct (l !! i).
Qed.

Lemma log_writes_at d V l t b :
  l !! t = Some b -> apply_writes d (log_writes start V l) (start + Z.of_nat t + 1) = V b.
Proof.
  intros Ht. apply apply_writes_in.
  - unfold log_writes. intros y Hy. apply elem_of_lookup_imap in Hy as (t' & c & E & Hc).
    injection E as E ->. assert (t' = t) as -> by lia. congruence.
  - apply fst_log_writes. exists t. split; [by eapply lookup_lt_Some|done].
Qed.

Lemma home_writes_at d V l b : b ∈ l -> apply_writes d (home_writes V l) b = V b.
Proof.
  intros Hb. apply apply_writes_in; [|by rewrite fst_home_writes].
  unfold home_writes. intros y (c & E & _)%list_elem_of_fmap. by injection E as -> ->.
Qed.

Lemma replay_writes_at d d' l t b :
  NoDup l -> l !! t = Some b ->
  apply_writes d (replay_writes start d' l) b = d' (start + Z.of_nat t + 1).
Proof.
  intros Hn Ht. apply apply_writes_in.
  - unfold replay_writes. intros y (t' & c & E & Hc)%elem_of_lookup_imap.
    injection E as -> ->. by rewrite (NoDup_lookup _ _ _ _ Hn Ht Hc).
  - rewrite fst_replay_writes. by eapply list_elem_of_lookup_2.
Qed.

(** A disk that recovers to [H], seen block by block. *)
Lemma recovers_to_intro d H :
  (forall b, length (d b) = bsize) -> 0 <= hb_n (d start) ->
  good_log start (hdr_list (d start)) ->
  (forall t b, hdr_list (d start) !! t = Some b -> d (start + Z.of_nat t + 1) = H b) ->
  (forall b, home start b -> b ∉ hdr_list (d start) -> d b = H b) ->
  recovers_to start d H.
Proof.
  intros Hl Hn G Hin Hout. split_and!; [done..|]. intros b Hb.
  unfold recover_writes. rewrite apply_writes_app. simpl.
  assert (b <> start) by (intros ->; apply Hb; unfold LOGBLOCKS, MAXOPBLOCKS; lia).
  rewrite fn_insert_ne by done.
  destruct (decide (b ∈ hdr_list (d start))) as [Hd|Hd].
  - apply list_elem_of_lookup in Hd as [t Ht].
    rewrite (replay_writes_at _ _ _ t) by (done || apply G). by apply Hin.
  - rewrite apply_writes_notin by (by rewrite fst_replay_writes). by apply Hout.
Qed.

Lemma recovers_to_elim d H :
  recovers_to start d H ->
  (forall t b, hdr_list (d start) !! t = Some b -> d (start + Z.of_nat t + 1) = H b) /\
  (forall b, home start b -> b ∉ hdr_list (d start) -> d b = H b).
Proof.
  intros (Hl & Hn & G & Hr).
  assert (Hs : forall b, home start b -> apply_writes d (recover_writes start d) b =
     apply_writes d (replay_writes start d (hdr_list (d start))) b).
  { intros b Hb. unfold recover_writes. rewrite apply_writes_app. simpl.
    apply fn_insert_ne. intros <-. apply Hb. unfold LOGBLOCKS, MAXOPBLOCKS. lia. }
  split.
  - intros t b Ht. assert (Hb : home start b).
    { pose proof (gl_home _ _ G) as Hg. rewrite Forall_forall in Hg. apply Hg.
      by eapply list_elem_of_lookup_2. }
    rewrite <- (Hr b Hb), (Hs b Hb). symmetry. apply replay_writes_at; [apply G|done].
  - intros b Hb Hn'. rewrite <- (Hr b Hb), (Hs b Hb). symmetry.
    apply apply_writes_notin. by rewrite fst_replay_writes.
Qed.

Lemma apply_writes_len d w :
  (forall b, length (d b) = bsize) -> Forall (fun p => length (snd p) = bsize) w ->
  forall b, length (apply_writes d w b) = bsize.
Proof.
  revert d. induction w as [|[c x] w IH]; intros d Hd Hw; [done|].
  apply Forall_cons_1 in Hw as [Hx Hw]. simpl. apply IH; [|done].
  intros b. destruct (decide (c = b)) as [<-|].
  - by rewrite fn_insert_eq.
  - by rewrite fn_insert_ne.
Qed.

Lemma good_nil : good_log start [].
Proof. split; [by vm_compute|constructor..]. Qed.

Lemma hdr_list_nil h : hb_n h = 0 -> hdr_list h = [].
Proof. intros E. unfold hdr_list. by rewrite E. Qed.

Lemma start_not_home : ~ home start start.
Proof. unfold home, LOGBLOCKS, MAXOPBLOCKS. lia. Qed.

(** A disk with an empty log recovers to itself. *)
Lemma recovers_to_empty d H :
  (forall b, length (d b) = bsize) -> hb_n (d start) = 0 ->
  (forall b, home start b -> d b = H b) -> recovers_to start d H.
Proof.
  intros Hl Hn Hh. apply recovers_to_intro; [done|lia|..].
  - rewrite hdr_list_nil by done. apply good_nil.
  - intros t b. by rewrite hdr_list_nil.
  - intros b Hb _. by apply Hh.
Qed.

Section one_commit.
Context (d V : disk) (l : list Z).
Hypothesis Hd : forall b, length (d b) = bsize.
Hypothesis HV : forall b, length (V b) = bsize.
Hypothesis H0 : hb_n (d start) = 0.
Hypothesis G : good_log start l.
Hypothesis Hclean : forall b, home start b -> b ∉ l -> d b = V b.

Lemma log_writes_blocks b :
  b ∈ fst <$> log_writes start V l -> ~ home start b /\ b <> start.
Proof using G.
  intros (t & Ht & ->)%fst_log_writes. pose proof (gl_len _ _ G). split; [|lia].
  apply log_area_block. lia.
Qed.

Lemma log_writes_len : Forall (fun p => length (snd p) = bsize) (log_writes start V l).
Proof using HV.
  apply Forall_forall. unfold log_writes. intros p (t & b & -> & _)%elem_of_lookup_imap. apply HV.
Qed.

Lemma home_writes_len : Forall (fun p => length (snd p) = bsize) (home_writes V l).
Proof using HV.
  apply Forall_forall. unfold home_writes. intros p (b & -> & _)%list_elem_of_fmap. apply HV.
Qed.

(** Before the header is written, the transaction has not happened. *)
Lemma prefix_before k :
  recovers_to start (apply_writes d (take k (log_writes start V l))) d.
Proof using All.
  assert (Hs : forall b, home start b \/ b = start ->
            apply_writes d (take k (log_writes start V l)) b = d b).
  { intros b Hb. apply apply_writes_notin. rewrite fmap_take. intros Hin.
    apply elem_of_take in Hin as (i & Hi & _). apply list_elem_of_lookup_2 in Hi.
    apply log_writes_blocks in Hi. tauto. }
  apply recovers_to_empty.
  - apply apply_writes_len; [done|]. apply Forall_take, log_writes_len.
  - rewrite Hs by tauto. done.
  - intros b Hb. apply Hs. tauto.
Qed.

Definition committed : disk := apply_writes d (log_writes start V l ++ [(start, hdr l (d start))]).

Lemma committed_len b : length (committed b) = bsize.
Proof using All.
  unfold committed. apply apply_writes_len; [done|]. apply Forall_app. split; [apply log_writes_len|].
  apply Forall_singleton. by apply hdr_spec; [apply G|apply Hd|apply G].
Qed.

Lemma committed_start : committed start = hdr l (d start).
Proof using All. unfold committed. rewrite apply_writes_app. apply fn_insert_eq. Qed.

Lemma committed_home b : home start b -> committed b = d b.
Proof using All.
  intros Hb. unfold committed. rewrite apply_writes_app. simpl.
  rewrite fn_insert_ne by (intros <-; by apply start_not_home).
  apply apply_writes_notin. intros Hin%log_writes_blocks. tauto.
Qed.

Lemma committed_log t b : l !! t = Some b -> committed (start + Z.of_nat t + 1) = V b.
Proof using All.
  intros Ht. unfold committed. rewrite apply_writes_app. simpl.
  rewrite fn_insert_ne by lia. by apply log_writes_at.
Qed.

Lemma home_writes_blocks j b :
  b ∈ fst <$> take j (home_writes V l) -> b ∈ l /\ home start b.
Proof using G.
  rewrite fmap_take, fst_home_writes. intros (i & Hi & _)%elem_of_take.
  apply list_elem_of_lookup_2 in Hi. split; [done|].
  pose proof (gl_home _ _ G) as Hg. rewrite Forall_forall in Hg. by apply Hg.
Qed.

(** From the header on, the transaction has happened, however much of it is
    installed. *)
Lemma prefix_after j :
  recovers_to start (apply_writes committed (take j (home_writes V l))) V.
Proof using All.
  destruct (hdr_spec l (d start)) as (Ln & Nn & Ll); [apply G|apply Hd|apply G|].
  assert (Hs : forall b, ~ home start b ->
            apply_writes committed (take j (home_writes V l)) b = committed b).
  { intros b Hb. apply apply_writes_notin. intros [_ Hin]%home_writes_blocks. tauto. }
  assert (Es : apply_writes committed (take j (home_writes V l)) start = hdr l (d start)).
  { rewrite Hs by apply start_not_home. apply committed_start. }
  apply recovers_to_intro; rewrite ?Es, ?Ll.
  - apply apply_writes_len; [apply committed_len|]. apply Forall_take, home_writes_len.
  - lia.
  - done.
  - intros t b Ht. rewrite Hs; [by apply committed_log|].
    apply log_area_block. apply lookup_lt_Some in Ht. pose proof (gl_len _ _ G). lia.
  - intros b Hb Hnl. rewrite apply_writes_notin.
    + rewrite committed_home by done. by apply Hclean.
    + intros [Hin _]%home_writes_blocks. done.
Qed.

Definition cleared : disk :=
  apply_writes (apply_writes committed (home_writes V l)) [(start, hdr [] (hdr l (d start)))].

Lemma cleared_home b : home start b -> cleared b = V b.
Proof using All.
  intros Hb. unfold cleared. simpl.
  rewrite fn_insert_ne by (intros <-; by apply start_not_home).
  destruct (decide (b ∈ l)) as [Hin|Hin].
  - by apply home_writes_at.
  - rewrite apply_writes_notin by (by rewrite fst_home_writes).
    rewrite committed_home by done. by apply Hclean.
Qed.

Lemma cleared_start : cleared start = hdr [] (hdr l (d start)).
Proof using All. apply fn_insert_eq. Qed.

Lemma cleared_len b : length (cleared b) = bsize.
Proof using All.
  destruct (hdr_spec l (d start)) as (Ln & Nn & Ll); [apply G|apply Hd|apply G|].
  unfold cleared. rewrite <- apply_writes_app. apply apply_writes_len; [apply committed_len|].
  apply Forall_app. split; [apply home_writes_len|]. apply Forall_singleton.
  apply hdr_spec; [done|done|constructor].
Qed.

Lemma cleared_n : hb_n (cleared start) = 0.
Proof using All.
  destruct (hdr_spec l (d start)) as (Ln & Nn & Ll); [apply G|apply Hd|apply G|].
  rewrite cleared_start. apply (hdr_spec []); [done|done|constructor].
Qed.

Lemma prefix_done : recovers_to start cleared V.
Proof using All.
  apply recovers_to_empty; [apply cleared_len|apply cleared_n|apply cleared_home].
Qed.

Lemma commit_prefix k :
  let d' := apply_writes d (take k (commit_writes start V l (d start))) in
  recovers_to start d' d \/ recovers_to start d' V.
Proof using All.
  intros d'. unfold d', commit_writes.
  destruct (decide (k <= length (log_writes start V l))%nat) as [Hk|Hk].
  { left. rewrite take_app_le by done. apply prefix_before. }
  right. rewrite take_app_ge by lia.
  destruct (k - length (log_writes start V l))%nat as [|j] eqn:Ej; [lia|].
  cbn [app take]. rewrite cons_middle, app_assoc, apply_writes_app. fold committed.
  destruct (decide (j <= length (home_writes V l))%nat) as [Hj|Hj].
  { rewrite take_app_le by done. apply prefix_after. }
  rewrite take_app_ge by lia. rewrite apply_writes_app.
  destruct (j - length (home_writes V l))%nat as [|i] eqn:Ei; [lia|].
  cbn [take]. rewrite take_nil. apply prefix_done.
Qed.
End one_commit.

(** Recovery may be interrupted anywhere and started again. *)
Lemma recover_prefix d H k :
  recovers_to start d H ->
  recovers_to start (apply_writes d (take k (recover_writes start d))) H.
Proof.
  intros R. pose proof R as (Hl & Hn & G & _).
  destruct (recovers_to_elim d H R) as [Hin Hout]. unfold recover_writes.
  set (l := hdr_list (d start)) in *.
  assert (Hlen : Forall (fun p => length (snd p) = bsize) (replay_writes start d l)).
  { apply Forall_forall. unfold replay_writes. intros p (t & b & -> & _)%elem_of_lookup_imap. apply Hl. }
  assert (Hs : forall j b, ~ home start b ->
            apply_writes d (take j (replay_writes start d l)) b = d b).
  { intros j b Hb. apply apply_writes_notin. rewrite fmap_take, fst_replay_writes.
    intros (i & Hi & _)%elem_of_take. apply list_elem_of_lookup_2 in Hi.
    pose proof (gl_home _ _ G) as Hg. rewrite Forall_forall in Hg. by apply Hb, Hg. }
  destruct (decide (k <= length (replay_writes start d l))%nat) as [Hk|Hk].
  - rewrite take_app_le by done.
    assert (Es := Hs k start start_not_home).
    apply recovers_to_intro; rewrite ?Es; fold l.
    + apply apply_writes_len; [done|]. by apply Forall_take.
    + done.
    + done.
    + intros t b Ht. rewrite Hs; [by apply Hin|].
      apply log_area_block. apply lookup_lt_Some in Ht. pose proof (gl_len _ _ G). lia.
    + intros b Hb Hnl. rewrite apply_writes_notin; [by apply Hout|].
      rewrite fmap_take, fst_replay_writes. intros (i & Hi & _)%elem_of_take.
      by apply list_elem_of_lookup_2 in Hi.
  - rewrite take_app_ge by lia. destruct (k - _)%nat as [|i] eqn:Ei; [lia|].
    cbn [take]. rewrite take_nil.
    destruct (hdr_spec [] (d start)) as (L0 & N0 & _); [done|done|constructor|].
    apply recovers_to_empty.
    + apply apply_writes_len; [done|]. apply Forall_app. split; [done|].
      by apply Forall_singleton.
    + rewrite apply_writes_app. simpl. by rewrite fn_insert_eq.
    + apply R.
Qed.
End crash.

(** ** The routines of the log

    A thread of process [pid] in a state whose cache is [A] and whose log
    starts at [start] of the root disk. *)
Record lok (start : Z) (s : lstate) (A : cache) (pid : Z) : Prop := {
  lok_inv : binv (lg_blk s) A;
  lok_run : running (prj (lg_blk s)) pid;
  lok_dev : lg_dev (lg s) = ROOTDEV;
  lok_start : lg_start (lg s) = start;
}.

(** No buffer is locked and the only references are the pins of the logged
    blocks [l]. *)
Definition quiet (l : list Z) (A : cache) : Prop :=
  forall b, al A b = None /\ ar A b = if decide (b ∈ l) then 1 else 0.

Ltac csimp :=
  unfold c_take, c_drop, c_write, c_pin; cbn [av ar al];
  repeat (rewrite fn_insert_eq || rewrite fn_insert_ne by (done || congruence || lia)).
(** Equality of two views, block by block. *)
Ltac csolve :=
  intros ?c; unfold c_take, c_drop, c_write, c_pin; cbn [av ar al];
  unfold insert, fn_insert; repeat case_decide; subst; split_and!; try done; try lia; try congruence.

(** References that survive an operation. *)
Ltac bop_pos :=
  intros ?c; unfold c_take, c_drop, c_write, c_pin; cbn [av ar al];
  unfold insert, fn_insert; repeat case_decide; subst; lia.
Ltac bop_last O := eapply bop_trans; [|exact O|bop_pos].

Lemma quiet_room l A : quiet l A -> (length l < NBUF)%nat -> room A.
Proof.
  intros Q Hl. exists l. split; [done|]. intros b. destruct (Q b) as [_ ->].
  by case_decide.
Qed.

Lemma splice_all (src dst : list Z) :
  length src = bsize -> length dst = bsize -> splice 0 (take bsize src) dst = src.
Proof.
  intros Hs Hd. unfold splice. rewrite take_0, <- Hs, firstn_all, Nat.add_0_l.
  rewrite drop_ge by lia. by rewrite app_nil_r.
Qed.

Lemma copy_buf_ok s A i j b c :
  binv s A -> handle s i b -> handle s j c -> 0 < ar A b -> 0 < ar A c ->
  exists s', copy_buf i j s = Ok tt s' /\ bop s A s' (c_write b (av A c) A) [] /\
    handle s' i b /\ handle s' j c.
Proof.
  intros I Hi Hj Hp Hq. unfold copy_buf.
  destruct (get_data_ok s A j c I Hj) as (x & E & Hx & _).
  erewrite bind_ok by exact E. rewrite Hx.
  destruct (upd_data_ok s A i b (fun dst => splice 0 (take bsize (av A c)) dst))
    as (s' & E' & O & H'); [done|done|done| |].
  { rewrite splice_all; apply (bi_len _ _ I). }
  exists s'. split; [exact E'|]. rewrite splice_all in O by apply (bi_len _ _ I).
  split_and!; [done|done|]. by apply (bo_kept _ _ _ _ _ O).
Qed.

(** Two blocks read, the second one into the first or the first into the
    second, and written. *)
Lemma open_two s A pid x y :
  binv s A -> running (prj s) pid -> x <> y -> al A x = None -> al A y = None ->
  ar A x < 2 ^ 30 -> ar A y < 2 ^ 30 -> room A -> 0 < ar A y \/ room (c_take pid x A) ->
  exists i j s1 s2, bread ROOTDEV x s = Ok i s1 /\ bread ROOTDEV y s1 = Ok j s2 /\
    bop s A s2 (c_take pid y (c_take pid x A)) [] /\ handle s2 i x /\ handle s2 j y.
Proof.
  intros I R Hne Lx Ly Rx Ry Hrx Hry. pose proof (bi_pos _ _ I) as Hp.
  destruct (bread_ok s A pid x) as (i & s1 & E1 & O1 & H1); [done|done|done|lia|by right|].
  destruct (bread_ok s1 (c_take pid x A) pid y) as (j & s2 & E2 & O2 & H2);
    [apply O1|by eapply bop_running|by csimp|csimp; lia|csimp; tauto|].
  exists i, j, s1, s2. split_and!; [done|done| | |done].
  - pose proof (Hp x). pose proof (Hp y).
    change (@nil (Z * list Z)) with (@nil (Z * list Z) ++ []). bop_last O2. exact O1.
  - apply (bo_kept _ _ _ _ _ O2); [done|]. pose proof (Hp x). csimp. lia.
Qed.

Lemma copy_write s A pid i j x y :
  binv s A -> running (prj s) pid -> handle s i x -> handle s j y ->
  al A x = Some pid -> 0 < ar A y ->
  exists s1 s2, copy_buf i j s = Ok tt s1 /\ bwrite i s1 = Ok tt s2 /\
    bop s A s2 (c_write x (av A y) A) [(x, av A y)] /\ handle s2 i x /\ handle s2 j y.
Proof.
  intros I R Hi Hj Hl Hp. pose proof (al_pos _ _ _ _ I Hl) as Hx.
  destruct (copy_buf_ok s A i j x y) as (s1 & E1 & O1 & H1 & H1'); try done.
  destruct (bwrite_ok s1 (c_write x (av A y) A) pid i x) as (s2 & E2 & O2 & H2);
    [apply O1|by eapply bop_running|done|by csimp|].
  exists s1, s2. split_and!; [done|done| |done|].
  - assert (Ex : av (c_write x (av A y) A) x = av A y) by (by csimp).
    rewrite Ex in O2. change [(x, av A y)] with ([] ++ [(x, av A y)]).
    bop_last O2. exact O1.
  - by apply (bo_kept _ _ _ _ _ O2).
Qed.

Section program.
Context (start : Z).
Hypothesis Hstart : 0 <= start /\ start + LOGBLOCKS < 2 ^ 31.

Lemma tail_block t : (t < Z.to_nat LOGBLOCKS)%nat ->
  u32 (start + Z.of_nat t + 1) = start + Z.of_nat t + 1.
Proof using Hstart.
  unfold LOGBLOCKS, MAXOPBLOCKS in *. intros Ht. apply u32_small. lia.
Qed.

Lemma log_block_ok s t b : lh_block (lg s) !! t = Some b -> log_block (Z.of_nat t) s = Ok b s.
Proof.
  intros Ht. unfold log_block. erewrite bind_ok by done.
  rewrite (proj2 (Z.leb_le _ _)) by lia. unfold index. rewrite Nat2Z.id.
  by rewrite Ht.
Qed.

Lemma good_log_at l t b :
  good_log start l -> l !! t = Some b ->
  home start b /\ 0 <= b < 2 ^ 31 /\ b <> start + Z.of_nat t + 1 /\ b ∈ l /\
  start + Z.of_nat t + 1 ∉ l /\ (t < Z.to_nat LOGBLOCKS)%nat.
Proof using Hstart.
  intros G Ht. pose proof (gl_len _ _ G) as Hlen. pose proof (lookup_lt_Some _ _ _ Ht).
  pose proof (gl_home _ _ G) as Hg. rewrite Forall_forall in Hg.
  pose proof (gl_range _ _ G) as Hr. rewrite Forall_forall in Hr.
  pose proof (list_elem_of_lookup_2 _ _ _ Ht) as Hin.
  assert (Hlt : (t < Z.to_nat LOGBLOCKS)%nat) by lia.
  pose proof (log_area_block start t Hlt) as Hn.
  split_and!; try (by apply Hg); try (by apply Hr); try done.
  - intros ->. apply Hn. by apply Hg.
  - intros Hx. apply Hn. by apply Hg.
Qed.

Lemma write_log_one_ok s A pid l t b :
  lok start s A pid -> quiet l A -> good_log start l -> (length l < NBUF)%nat ->
  l !! t = Some b -> lh_block (lg s) !! t = Some b ->
  exists bs, write_log_one (Z.of_nat t) s = Ok tt (s <| lg_blk := bs |>) /\
    bop (lg_blk s) A bs (c_write (start + Z.of_nat t + 1) (av A b) A)
      [(start + Z.of_nat t + 1, av A b)].
Proof using Hstart.
  intros [I R Hdev Hst] Q G Hroom Ht Hb.
  destruct (good_log_at l t b G Ht) as (_ & Hr & Hne & Hin & Hnl & Hlt).
  unfold write_log_one. erewrite bind_ok by done. rewrite Hdev, Hst, tail_block by done.
  set (to := start + Z.of_nat t + 1) in *.
  destruct (Q b) as [Lb Rb]. rewrite decide_True in Rb by done.
  destruct (Q to) as [Lt Rt]. rewrite decide_False in Rt by done.
  destruct (open_two (lg_blk s) A pid to b) as (i & j & s1 & s2 & E1 & E2 & O2 & H1 & H2);
    [done|done|done|done|done|lia|lia|by eapply quiet_room|left; lia|].
  erewrite bind_ok by (apply lift_ok, E1).
  erewrite bind_ok by (by apply log_block_ok). rewrite u32_small by lia.
  erewrite bind_ok by (apply lift_ok, E2).
  destruct (copy_write s2 (c_take pid b (c_take pid to A)) pid i j to b)
    as (s3 & s4 & E3 & E4 & O4 & H3 & H4);
    [apply O2|by eapply bop_running|done|done|by csimp|csimp; lia|].
  erewrite bind_ok by (apply lift_ok, E3). erewrite bind_ok by (apply lift_ok, E4).
  change (av (c_take pid b (c_take pid to A)) b) with (av A b) in O4.
  set (A3 := c_write to _ _) in *.
  destruct (brelse_ok s4 A3 j b pid) as (s5 & E5 & O5 & _);
    [apply O4|by do 2 (eapply bop_running; [done|])|done|unfold A3; by csimp
    |unfold A3; csimp; lia|unfold A3; csimp; lia|].
  erewrite bind_ok by (apply lift_ok, E5).
  assert (H5 : handle s5 i to) by (apply (bo_kept _ _ _ _ _ O5); [done|unfold A3; csimp; lia]).
  assert (D5 : dsk s5 to = av A3 to).
  { rewrite (bo_dsk _ _ _ _ _ O5). simpl. rewrite (bo_dsk _ _ _ _ _ O4). simpl.
    unfold A3. by csimp. }
  destruct (brelse_ok s5 (c_drop b A3) i to pid) as (s6 & E6 & O6 & _);
    [apply O5|by do 3 (eapply bop_running; [done|])|done|unfold A3; by csimp
    |unfold A3; csimp; lia|by csimp|].
  erewrite lift_ok by exact E6. exists s6. split; [by destruct s|].
  assert (EA : c_drop to (c_drop b A3) ≡ c_write to (av A b) A) by (unfold A3; csolve).
  rewrite <- EA. unfold A3 in *.
  change [(to, av A b)] with ((([] ++ [(to, av A b)]) ++ []) ++ []).
  bop_last O6. bop_last O5. bop_last O4. exact O2.
Qed.

(** The part of an installation that both its uses share. *)
Lemma install_copy s A pid lb b :
  binv s A -> running (prj s) pid -> lb <> b -> al A lb = None -> al A b = None ->
  ar A lb = 0 -> ar A b < 2 ^ 30 -> room A -> 0 < ar A b \/ room (c_take pid lb A) ->
  exists i j s1 s2 s3 s4, bread ROOTDEV lb s = Ok i s1 /\ bread ROOTDEV b s1 = Ok j s2 /\
    copy_buf j i s2 = Ok tt s3 /\ bwrite j s3 = Ok tt s4 /\ handle s4 i lb /\ handle s4 j b /\
    dsk s4 lb = av A lb /\ dsk s4 b = av A lb /\
    bop s A s4 (c_write b (av A lb) (c_take pid b (c_take pid lb A))) [(b, av A lb)].
Proof.
  intros I R Hne Ll Lb Rl Rb Hr Hr2. pose proof (bi_pos _ _ I b) as Hp.
  destruct (bi_clean _ _ I lb Rl) as [Dl _].
  destruct (open_two s A pid lb b) as (i & j & s1 & s2 & E1 & E2 & O2 & H1 & H2);
    [done|done|done|done|done|lia|lia|done|done|].
  destruct (copy_write s2 (c_take pid b (c_take pid lb A)) pid j i b lb)
    as (s3 & s4 & E3 & E4 & O4 & H3 & H4);
    [apply O2|by eapply bop_running|done|done|by csimp|csimp; lia|].
  exists i, j, s1, s2, s3, s4.
  change (av (c_take pid b (c_take pid lb A)) lb) with (av A lb) in O4.
  rewrite (bo_dsk _ _ _ _ _ O4), (bo_dsk _ _ _ _ _ O2). simpl.
  rewrite fn_insert_eq, fn_insert_ne by done. split_and!; try done.
  change [(b, av A lb)] with ([] ++ [(b, av A lb)]). bop_last O4. exact O2.
Qed.

Lemma install_one_ok s A pid l t b :
  lok start s A pid -> quiet (drop t l) A -> good_log start l -> (length l < NBUF)%nat ->
  l !! t = Some b -> lh_block (lg s) !! t = Some b ->
  exists bs, install_one false (Z.of_nat t) s = Ok tt (s <| lg_blk := bs |>) /\
    bop (lg_blk s) A bs (c_write b (av A (start + Z.of_nat t + 1)) (c_pin b (-1) A))
      [(b, av A (start + Z.of_nat t + 1))].
Proof using Hstart.
  intros [I R Hdev Hst] Q G Hroom Ht Hb.
  destruct (good_log_at l t b G Ht) as (_ & Hr & Hne & Hin & Hnl & Hlt).
  unfold install_one. cbn [when negb]. do 2 erewrite bind_ok by done.
  rewrite Hdev, Hst, tail_block by done. set (lb := start + Z.of_nat t + 1) in *.
  assert (Hbd : b ∈ drop t l) by (rewrite (drop_S _ b) by done; apply list_elem_of_here).
  assert (Hld : lb ∉ drop t l).
  { intros Hx. apply Hnl. rewrite <- (take_drop t l). set_solver. }
  destruct (Q b) as [Lb Rb]. rewrite decide_True in Rb by done.
  destruct (Q lb) as [Ll Rl]. rewrite decide_False in Rl by done.
  destruct (install_copy (lg_blk s) A pid lb b)
    as (i & j & s1 & s2 & s3 & s4 & E1 & E2 & E3 & E4 & H3 & H4 & D1 & D2 & O4);
    [done|done|done|done|done|lia|lia|eapply quiet_room; [done|len]|left; lia|].
  erewrite bind_ok by (apply lift_ok, E1).
  erewrite bind_ok by (by apply log_block_ok). rewrite u32_small by lia.
  erewrite bind_ok by (apply lift_ok, E2). erewrite bind_ok by (apply lift_ok, E3).
  erewrite bind_ok by (apply lift_ok, E4).
  set (A3 := c_write b _ _) in *.
  destruct (bunpin_ok s4 A3 j b pid) as (s5 & E5 & O5 & H5);
    [apply O4|by eapply bop_running|done|unfold A3; csimp; lia|].
  erewrite bind_ok by (apply lift_ok, E5).
  assert (H5' : handle s5 i lb) by (apply (bo_kept _ _ _ _ _ O5); [done|unfold A3; csimp; lia]).
  set (A5 := c_pin b _ _) in *. pose proof (bo_dsk _ _ _ _ _ O5 : dsk s5 = dsk s4) as D5.
  destruct (brelse_ok s5 A5 i lb pid) as (s6 & E6 & O6 & _);
    [apply O5|by do 2 (eapply bop_running; [done|])|done|unfold A5, A3; by csimp
    |unfold A5, A3; csimp; lia|intros _; rewrite D5; unfold A5, A3; by csimp|].
  erewrite bind_ok by (apply lift_ok, E6).
  assert (H6 : handle s6 j b) by (apply (bo_kept _ _ _ _ _ O6); [done|unfold A5, A3; csimp; lia]).
  pose proof (bo_dsk _ _ _ _ _ O6 : dsk s6 = dsk s5) as D6.
  destruct (brelse_ok s6 (c_drop lb A5) j b pid) as (s7 & E7 & O7 & _);
    [apply O6|by do 3 (eapply bop_running; [done|])|done|unfold A5, A3; by csimp
    |unfold A5, A3; csimp; lia|intros _; rewrite D6, D5; unfold A5, A3; by csimp|].
  erewrite lift_ok by exact E7. exists s7. split; [by destruct s|].
  assert (EA : c_drop b (c_drop lb A5) ≡ c_write b (av A lb) (c_pin b (-1) A))
    by (unfold A5, A3; csolve).
  rewrite <- EA. unfold A5, A3 in *.
  change [(b, av A lb)] with ((([(b, av A lb)] ++ []) ++ []) ++ []).
  bop_last O7. bop_last O6. bop_last O5. exact O4.
Qed.

Lemma kprintf_lstate s A pid msg :
  lok start s A pid ->
  exists bs, lift (kprintf msg) s = Ok tt (s <| lg_blk := bs |>) /\ bop (lg_blk s) A bs A [].
Proof.
  intros [I R _ _]. eexists. split; [done|]. simpl. apply bop_mm; [done|].
  split_and!; try done. split; try done; simpl; [by eexists|by left].
Qed.

Lemma bop_lok s A pid bs A' w :
  lok start s A pid -> bop (lg_blk s) A bs A' w -> lok start (s <| lg_blk := bs |>) A' pid.
Proof. intros [I R Hd Hs] O. split; try done; [apply O|by eapply bop_running]. Qed.

Lemma recover_one_ok s A pid l t b :
  lok start s A pid -> quiet [] A -> good_log start l ->
  l !! t = Some b -> lh_block (lg s) !! t = Some b ->
  exists bs, install_one true (Z.of_nat t) s = Ok tt (s <| lg_blk := bs |>) /\
    bop (lg_blk s) A bs (c_write b (av A (start + Z.of_nat t + 1)) A)
      [(b, av A (start + Z.of_nat t + 1))].
Proof using Hstart.
  intros K Q G Ht Hb.
  destruct (good_log_at l t b G Ht) as (_ & Hr & Hne & Hin & Hnl & Hlt).
  unfold install_one. cbn [when negb].
  destruct (kprintf_lstate s A pid "recovering tail %d dst %d" K) as (bs & E0 & O0).
  erewrite bind_ok by exact E0. erewrite bind_ok by done.
  destruct (bop_lok _ _ _ _ _ _ K O0) as [I R Hdev Hst].
  rewrite Hdev, Hst, tail_block by done. set (lb := start + Z.of_nat t + 1) in *.
  destruct (Q b) as [Lb Rb], (Q lb) as [Ll Rl]. 
  rewrite decide_False in Rb by set_solver. rewrite decide_False in Rl by set_solver.
  destruct (install_copy bs A pid lb b)
    as (i & j & s1 & s2 & s3 & s4 & E1 & E2 & E3 & E4 & H3 & H4 & D1 & D2 & O4);
    [done|done|done|done|done|lia|lia|apply (quiet_room []); [done|by apply Nat.ltb_lt]|right|].
  { exists [lb]. split; [by apply Nat.ltb_lt|]. intros c. csimp. unfold insert, fn_insert.
    destruct (Q c) as [_ Rc]. rewrite decide_False in Rc by set_solver.
    case_decide; [set_solver|]. congruence. }
  erewrite bind_ok by (apply lift_ok, E1).
  erewrite bind_ok by (by apply log_block_ok). rewrite u32_small by lia.
  erewrite bind_ok by (apply lift_ok, E2). erewrite bind_ok by (apply lift_ok, E3).
  erewrite bind_ok by (apply lift_ok, E4). erewrite bind_ok by done.
  set (A3 := c_write b _ _) in *.
  destruct (brelse_ok s4 A3 i lb pid) as (s6 & E6 & O6 & _);
    [apply O4|by eapply bop_running|done|unfold A3; by csimp
    |unfold A3; csimp; lia|intros _; unfold A3; by csimp|].
  erewrite bind_ok by (apply lift_ok, E6).
  assert (H6 : handle s6 j b) by (apply (bo_kept _ _ _ _ _ O6); [done|unfold A3; csimp; lia]).
  pose proof (bo_dsk _ _ _ _ _ O6 : dsk s6 = dsk s4) as D6.
  destruct (brelse_ok s6 (c_drop lb A3) j b pid) as (s7 & E7 & O7 & _);
    [apply O6|by do 2 (eapply bop_running; [done|])|done|unfold A3; by csimp
    |unfold A3; csimp; lia|intros _; rewrite D6; unfold A3; by csimp|].
  erewrite lift_ok by exact E7. exists s7. split; [by destruct s|].
  assert (EA : c_drop b (c_drop lb A3) ≡ c_write b (av A lb) A) by (unfold A3; csolve).
  rewrite <- EA. unfold A3 in *.
  change [(b, av A lb)] with ((([] ++ [(b, av A lb)]) ++ []) ++ []).
  bop_last O7. bop_last O6. bop_last O4. exact O0.
Qed.

Lemma bres_lok s A pid bs A' w :
  lok start s A pid -> bres (lg_blk s) bs A' w -> lok start (s <| lg_blk := bs |>) A' pid.
Proof. intros [I R Hd Hs] O. split; try done; [apply O|by eapply bres_running]. Qed.

(** A loop over the logged blocks [l] that writes [w t b] for the block [b]
    at index [t]. *)
Section loop.
Context (f : Z -> M lstate unit) (w : nat -> Z -> Z * list Z) (l : list Z) (pid : Z) (g : logst).
Context (Inv : nat -> cache -> Prop).
Hypothesis step : forall t b s A, l !! t = Some b -> lok start s A pid -> lg s = g -> Inv t A ->
  exists bs A', f (Z.of_nat t) s = Ok tt (s <| lg_blk := bs |>) /\
    bres (lg_blk s) bs A' [w t b] /\ Inv (S t) A'.

Lemma loop_ok n k s A :
  (k + n = length l)%nat -> lok start s A pid -> lg s = g -> Inv k A ->
  exists bs A', mapM_ f (seqZ (Z.of_nat k) (Z.of_nat n)) s = Ok tt (s <| lg_blk := bs |>) /\
    bres (lg_blk s) bs A' (imap (fun i b => w (k + i)%nat b) (drop k l)) /\ Inv (length l) A'.
Proof using step.
  revert k s A. induction n as [|n IH]; intros k s A Hk K Hg Hi.
  - exists (lg_blk s), A. rewrite drop_ge by lia.
    rewrite <- Hk, Nat.add_0_r. split_and!; [by destruct s|apply bres_refl, K|done].
  - destruct (lookup_lt_is_Some_2 l k) as [b Hb]; [lia|].
    rewrite seqZ_cons by lia. cbn [mapM_].
    destruct (step k b s A) as (bs & A' & E & O & Hi'); try done.
    erewrite bind_ok by exact E.
    replace (Z.succ (Z.of_nat k)) with (Z.of_nat (S k)) by lia.
    replace (Z.pred (Z.of_nat (S n))) with (Z.of_nat n) by lia.
    destruct (IH (S k) (s <| lg_blk := bs |>) A') as (bs' & A'' & E' & O' & Hi'');
      [lia|by eapply bres_lok|done|done|].
    exists bs', A''. split_and!; [by rewrite E'|  |done].
    rewrite (drop_S _ b) by done. cbn [imap]. rewrite Nat.add_0_r.
    change (?x :: ?y) with ([x] ++ y). eapply bres_trans; [exact O|].
    erewrite imap_ext; [exact O'|]. intros i x _. simpl. by rewrite Nat.add_succ_r.
Qed.

Lemma loop_all s A :
  lh_n g = Z.of_nat (length l) -> lok start s A pid -> lg s = g -> Inv 0 A ->
  exists bs A', mapM_ f (seqZ 0 (lh_n g)) s = Ok tt (s <| lg_blk := bs |>) /\
    bres (lg_blk s) bs A' (imap w l) /\ Inv (length l) A'.
Proof using step. intros Hn. rewrite Hn. apply (loop_ok (length l) 0 s A). done. Qed.
End loop.

(** The blocks the in-memory header names. *)
Definition logged (g : logst) (l : list Z) : Prop :=
  lh_n g = Z.of_nat (length l) /\ forall t b, l !! t = Some b -> lh_block g !! t = Some b.

Lemma quiet_write l A b d : quiet l A -> quiet l (c_write b d A).
Proof. done. Qed.

Lemma take_S_apply (d : disk) (w : wlog) t b x c :
  w !! t = Some (b, x) ->
  apply_writes d (take (S t) w) c = <[b := x]> (apply_writes d (take t w)) c.
Proof. intros Hw. erewrite take_S_r by exact Hw. by rewrite apply_writes_app. Qed.

Lemma write_log_ok s A pid l :
  lok start s A pid -> quiet l A -> good_log start l -> (length l < NBUF)%nat ->
  logged (lg s) l ->
  exists bs A', write_log s = Ok tt (s <| lg_blk := bs |>) /\
    bres (lg_blk s) bs A' (log_writes start (av A) l) /\ quiet l A' /\
    forall b, av A' b = apply_writes (av A) (log_writes start (av A) l) b.
Proof using Hstart.
  intros K Q G Hlen [Hn Hl]. unfold write_log. erewrite bind_ok by done.
  destruct (loop_all write_log_one (fun t b => (start + Z.of_nat t + 1, av A b)) l pid (lg s)
    (fun t A' => quiet l A' /\
       forall b, av A' b = apply_writes (av A) (take t (log_writes start (av A) l)) b) )
    with (s := s) (A := A) as (bs & A' & E & O & Q' & V'); [|done|done|done|done|].
  - intros t b s1 A1 Ht K1 Hg [Q1 V1].
    destruct (write_log_one_ok s1 A1 pid l t b) as (bs & E & O); try done.
    { rewrite Hg. by apply Hl. }
    destruct (good_log_at l t b G Ht) as (Hh & _).
    assert (Eb : av A1 b = av A b).
    { rewrite V1. apply apply_writes_notin. rewrite fmap_take. intros (i & Hi & _)%elem_of_take.
      apply list_elem_of_lookup_2 in Hi.
      by apply (log_writes_blocks start (av A) l G) in Hi as [? _]. }
    eexists _, _. split_and!; [exact E|rewrite <- Eb; by eapply bop_bres|done|].
    intros c. erewrite take_S_apply.
    2: { unfold log_writes. rewrite list_lookup_imap, Ht. done. }
    rewrite Eb. csimp. unfold insert, fn_insert. case_decide; [done|apply V1].
  - exists bs, A'. split_and!; [done|done|done|]. intros b. rewrite V'.
    rewrite take_ge; [done|]. unfold log_writes. by rewrite length_imap.
Qed.

Lemma install_trans_ok s A pid l V :
  lok start s A pid -> quiet l A -> good_log start l -> (length l < NBUF)%nat ->
  logged (lg s) l ->
  (forall t b, l !! t = Some b -> av A (start + Z.of_nat t + 1) = V b) ->
  exists bs A', install_trans false s = Ok tt (s <| lg_blk := bs |>) /\
    bres (lg_blk s) bs A' (home_writes V l) /\ quiet [] A' /\
    forall b, av A' b = apply_writes (av A) (home_writes V l) b.
Proof using Hstart.
  intros K Q G Hlen [Hn Hl] HV. unfold install_trans. erewrite bind_ok by done.
  destruct (loop_all (install_one false) (fun t b => (b, V b)) l pid (lg s)
    (fun t A' => quiet (drop t l) A' /\
       forall b, av A' b = apply_writes (av A) (take t (home_writes V l)) b))
    with (s := s) (A := A) as (bs & A' & E & O & Q' & V'); [|done|done|done|done|].
  - intros t b s1 A1 Ht K1 Hg [Q1 V1].
    destruct (install_one_ok s1 A1 pid l t b) as (bs & E & O); try done.
    { rewrite Hg. by apply Hl. }
    destruct (good_log_at l t b G Ht) as (Hh & _ & _ & _ & _ & Hlt).
    assert (Eb : av A1 (start + Z.of_nat t + 1) = V b).
    { rewrite V1, <- (HV t b Ht). apply apply_writes_notin.
      intros [_ Hx]%(home_writes_blocks start V l G).
      by apply (log_area_block start t). }
    rewrite Eb in O. eexists _, _. split_and!; [exact E|by eapply bop_bres| |].
    + intros c. destruct (Q1 c) as [Lc Rc]. csimp. split; [done|].
      unfold insert, fn_insert. rewrite (drop_S _ b) in Rc by done.
      assert (Hnb : b ∉ drop (S t) l).
      { pose proof (gl_nodup _ _ G) as Hnd. rewrite <- (take_drop_middle l t b Ht) in Hnd.
        apply NoDup_app in Hnd as (_ & _ & Hnd). by apply NoDup_cons in Hnd as [? _]. }
      destruct (decide (b = c)) as [<-|Hne].
      * destruct (Q1 b) as [_ Rb]. rewrite (drop_S _ b), decide_True in Rb
          by (done || apply list_elem_of_here). rewrite Rb. by rewrite decide_False.
      * rewrite Rc. repeat case_decide; set_solver.
    + intros c. erewrite take_S_apply.
      2: { unfold home_writes. rewrite list_lookup_fmap, Ht. done. }
      csimp. unfold insert, fn_insert. case_decide; [done|apply V1].
  - exists bs, A'. rewrite drop_all in Q'. split_and!; [done| |done|].
    + unfold home_writes. by rewrite <- (imap_const (fun b => (b, V b))).
    + intros b. rewrite V', take_ge; [done|]. unfold home_writes. by rewrite length_fmap.
Qed.

Lemma recover_trans_ok s A pid l :
  lok start s A pid -> quiet [] A -> good_log start l -> logged (lg s) l ->
  exists bs A', install_trans true s = Ok tt (s <| lg_blk := bs |>) /\
    bres (lg_blk s) bs A' (replay_writes start (av A) l) /\ quiet [] A' /\
    forall b, av A' b = apply_writes (av A) (replay_writes start (av A) l) b.
Proof using Hstart.
  intros K Q G [Hn Hl]. unfold install_trans. erewrite bind_ok by done.
  destruct (loop_all (install_one true) (fun t b => (b, av A (start + Z.of_nat t + 1))) l pid (lg s)
    (fun t A' => quiet [] A' /\
       forall b, av A' b = apply_writes (av A) (take t (replay_writes start (av A) l)) b))
    with (s := s) (A := A) as (bs & A' & E & O & Q' & V'); [|done|done|done|done|].
  - intros t b s1 A1 Ht K1 Hg [Q1 V1].
    destruct (recover_one_ok s1 A1 pid l t b) as (bs & E & O); try done.
    { rewrite Hg. by apply Hl. }
    destruct (good_log_at l t b G Ht) as (Hh & _ & _ & _ & Hnl & Hlt).
    assert (Eb : av A1 (start + Z.of_nat t + 1) = av A (start + Z.of_nat t + 1)).
    { rewrite V1. apply apply_writes_notin. rewrite fmap_take, fst_replay_writes.
      intros (i & Hi & _)%elem_of_take. by apply list_elem_of_lookup_2 in Hi. }
    rewrite Eb in O. eexists _, _. split_and!; [exact E|by eapply bop_bres|done|].
    intros c. erewrite take_S_apply.
    2: { unfold replay_writes. rewrite list_lookup_imap, Ht. done. }
    csimp. unfold insert, fn_insert. case_decide; [done|apply V1].
  - exists bs, A'. split_and!; [done|done|done|]. intros b. rewrite V', take_ge; [done|].
    unfold replay_writes. by rewrite length_imap.
Qed.

Lemma u32_start : u32 start = start.
Proof using Hstart. unfold LOGBLOCKS, MAXOPBLOCKS in *. apply u32_small. lia. Qed.

(** The loop that stores the block numbers into the header's buffer. *)
Lemma head_loop_ok l' k s A i :
  binv (lg_blk s) A -> handle (lg_blk s) i start -> 0 < ar A start ->
  Z.of_nat k + Z.of_nat (length l') <= LOGBLOCKS ->
  (forall t b, l' !! t = Some b -> lh_block (lg s) !! (k + t)%nat = Some b) ->
  exists bs, mapM_ (fun i0 => v <- log_block i0 ;;
      lift (upd_buf i (fun b => b <| b_data := hb_set_block i0 v (b_data b) |>)))
      (seqZ (Z.of_nat k) (Z.of_nat (length l'))) s = Ok tt (s <| lg_blk := bs |>) /\
    bop (lg_blk s) A bs (c_write start (hdr_blocks (Z.of_nat k) l' (av A start)) A) [] /\
    handle bs i start.
Proof.
  revert k s A. induction l' as [|b l' IH]; intros k s A I H Hp Hk Hl.
  - exists (lg_blk s). split_and!; [by destruct s| |done].
    assert (EA : c_write start (hdr_blocks (Z.of_nat k) [] (av A start)) A ≡ A) by csolve.
    rewrite EA. by apply bop_refl.
  - cbn [length] in *. rewrite seqZ_cons by lia. cbn [mapM_].
    assert (Hb : lh_block (lg s) !! k = Some b) by (rewrite <- (Nat.add_0_r k); by apply Hl).
    destruct (upd_data_ok (lg_blk s) A i start (hb_set_block (Z.of_nat k) b))
      as (bs & E & O & H'); [done|done|done| |].
    { apply length_hb_set_block; [unfold fits; lia|apply (bi_len _ _ I)]. }
    erewrite bind_ok.
    2: { erewrite bind_ok by (by apply log_block_ok). apply lift_ok. exact E. }
    replace (Z.succ (Z.of_nat k)) with (Z.of_nat (S k)) by lia.
    replace (Z.pred (Z.of_nat (S (length l')))) with (Z.of_nat (length l')) by lia.
    destruct (IH (S k) (inj bs s) (c_write start (hb_set_block (Z.of_nat k) b (av A start)) A))
      as (bs' & E' & O' & H''); [apply O|done|done|lia| |].
    { intros t c Ht. rewrite Nat.add_succ_l, <- Nat.add_succ_r. by apply Hl. }
    exists bs'. split_and!; [by rewrite E'| |done].
    revert O'. csimp. intros O'.
    assert (EA : c_write start (hdr_blocks (Z.of_nat (S k)) l'
        (hb_set_block (Z.of_nat k) b (av A start)))
        (c_write start (hb_set_block (Z.of_nat k) b (av A start)) A) ≡
      c_write start (hdr_blocks (Z.of_nat k) (b :: l') (av A start)) A).
    { cbn [hdr_blocks]. replace (Z.of_nat k + 1) with (Z.of_nat (S k)) by lia. csolve. }
    rewrite <- EA. change (@nil (Z * list Z)) with (@nil (Z * list Z) ++ []).
    eapply bop_trans; [exact O|exact O'|done].
Qed.

Lemma write_head_ok s A pid l lq :
  lok start s A pid -> quiet lq A -> (length lq < NBUF)%nat -> start ∉ lq ->
  Z.of_nat (length l) <= LOGBLOCKS -> Forall (fun b => 0 <= b < 2 ^ 31) l ->
  logged (lg s) l ->
  exists bs, write_head s = Ok tt (s <| lg_blk := bs |>) /\
    bres (lg_blk s) bs (c_write start (hdr l (av A start)) A) [(start, hdr l (av A start))].
Proof using Hstart.
  intros [I R Hdev Hst] Q Hlq Hns Hll Hrange [Hn Hl]. unfold write_head.
  erewrite bind_ok by done. rewrite Hdev, Hst, u32_start.
  destruct (Q start) as [Ls Rs]. rewrite decide_False in Rs by done.
  destruct (bread_ok (lg_blk s) A pid start) as (i & s1 & E1 & O1 & H1);
    [done|done|done|lia|right; by eapply quiet_room|].
  erewrite bind_ok by (apply lift_ok, E1).
  destruct (upd_data_ok s1 (c_take pid start A) i start (hb_set_n (lh_n (lg s))))
    as (s2 & E2 & O2 & H2); [apply O1|done|csimp; lia| |].
  { apply length_hb_set_n, (bi_len _ _ I). }
  erewrite bind_ok by (apply lift_ok, E2).
  change (av (c_take pid start A) start) with (av A start) in O2.
  set (A2 := c_write start _ _) in *.
  destruct (head_loop_ok l 0 (inj s2 (inj s1 s)) A2 i) as (s3 & E3 & O3 & H3);
    [apply O2|done|unfold A2; csimp; lia|lia|done|].
  simpl Z.of_nat in E3. rewrite Hn. erewrite bind_ok by exact E3.
  assert (R3 : running (prj s3) pid).
  { eapply bop_running; [exact O3|]. eapply bop_running; [exact O2|]. by eapply bop_running. }
  set (A3 := c_write start _ A2) in *.
  assert (E3v : av A3 start = hdr l (av A start)).
  { unfold A3, A2. csimp. unfold hdr. by rewrite Hn. }
  destruct (bwrite_ok s3 A3 pid i start) as (s4 & E4 & O4 & H4);
    [apply O3|done|done|unfold A3, A2; by csimp|].
  erewrite bind_ok by (apply lift_ok, E4). rewrite E3v in O4.
  destruct (brelse_ok s4 A3 i start pid) as (s5 & E5 & O5 & _);
    [apply O4|by eapply bop_running|done|unfold A3, A2; by csimp|unfold A3, A2; csimp; lia
    |intros _; rewrite (bo_dsk _ _ _ _ _ O4), E3v; apply fn_insert_eq|].
  erewrite lift_ok by exact E5. exists s5. split; [by destruct s|].
  assert (EA : c_drop start A3 ≡ c_write start (hdr l (av A start)) A).
  { unfold A3, A2, hdr. rewrite <- Hn. csolve. }
  apply (bop_bres _ A). rewrite <- EA. unfold A3, A2 in *.
  change [(start, hdr l (av A start))]
    with (((([] ++ []) ++ []) ++ [(start, hdr l (av A start))]) ++ []).
  bop_last O5. bop_last O4. bop_last O3. bop_last O2. exact O1.
Qed.

(** The loop that loads the block numbers of a header. *)
Lemma read_loop_ok (f : Z -> Z) n k s :
  Z.of_nat (k + n) <= LOGBLOCKS -> length (lh_block (lg s)) = Z.to_nat LOGBLOCKS ->
  exists bl, mapM_ (fun i => set_log_block i (f i)) (seqZ (Z.of_nat k) (Z.of_nat n)) s =
      Ok tt (s <| lg := lg s <| lh_block := bl |> |>) /\
    length bl = Z.to_nat LOGBLOCKS /\
    forall j, bl !! j = if decide (k <= j < k + n)%nat then Some (f (Z.of_nat j))
                       else lh_block (lg s) !! j.
Proof.
  revert k s. induction n as [|n IH]; intros k s Hk Hl.
  { exists (lh_block (lg s)). split_and!; [by destruct s as [? []]|done|].
    intros j. by rewrite decide_False by lia. }
  rewrite seqZ_cons by lia. cbn [mapM_]. erewrite bind_ok.
  2: { unfold set_log_block. erewrite bind_ok by done.
       rewrite (proj2 (Z.leb_le _ _)), (proj2 (Z.ltb_lt _ _)) by lia. done. }
  replace (Z.succ (Z.of_nat k)) with (Z.of_nat (S k)) by lia.
  replace (Z.pred (Z.of_nat (S n))) with (Z.of_nat n) by lia. rewrite Nat2Z.id.
  match goal with |- context [mapM_ _ _ ?s1] => destruct (IH (S k) s1) as (bl & E & L & P) end;
    [lia|simpl; by rewrite length_insert|].
  exists bl. split_and!; [by rewrite E|done|]. intros j. rewrite P. simpl.
  destruct (decide (j = k)) as [->|Hne].
  - rewrite list_lookup_insert_eq by lia. by rewrite decide_False, decide_True by lia.
  - rewrite list_lookup_insert_ne by done. repeat case_decide; done || lia.
Qed.

Lemma read_head_ok s A pid :
  lok start s A pid -> quiet [] A -> length (lh_block (lg s)) = Z.to_nat LOGBLOCKS ->
  0 <= hb_n (av A start) <= LOGBLOCKS ->
  exists bs bl, read_head s =
      Ok tt (mklstate bs (lg s <| lh_n := hb_n (av A start) |> <| lh_block := bl |>)) /\
    bres (lg_blk s) bs A [] /\ length bl = Z.to_nat LOGBLOCKS /\
    logged (lg s <| lh_n := hb_n (av A start) |> <| lh_block := bl |>) (hdr_list (av A start)).
Proof using Hstart.
  intros [I R Hdev Hst] Q Hlb Hn. unfold read_head.
  erewrite bind_ok by done. rewrite Hdev, Hst, u32_start.
  destruct (Q start) as [Ls Rs]. rewrite decide_False in Rs by set_solver.
  destruct (bread_ok (lg_blk s) A pid start) as (i & s1 & E1 & O1 & H1);
    [done|done|done|lia|right; apply (quiet_room []); [done|by apply Nat.ltb_lt]|].
  erewrite bind_ok by (apply lift_ok, E1).
  destruct (get_data_ok s1 (c_take pid start A) i start) as (x & Ex & Hx & _); [apply O1|done|].
  change (av (c_take pid start A) start) with (av A start) in Hx.
  erewrite bind_ok by (apply lift_ok, Ex). rewrite Hx. erewrite bind_ok by done.
  set (h := av A start) in *.
  set (s2 := mklstate s1 (lg s <| lh_n := hb_n h |>)).
  destruct (read_loop_ok (fun i => hb_block i h) (Z.to_nat (hb_n h)) 0 s2)
    as (bl & E2 & L2 & P2); [lia|done|].
  rewrite Z2Nat.id in E2 by lia.
  match goal with |- context [bind (mapM_ _ _) _ ?s3] =>
    replace s3 with s2 by (by destruct s) end.
  erewrite bind_ok by exact E2.
  destruct (brelse_ok s1 (c_take pid start A) i start pid) as (s5 & E5 & O5 & _);
    [apply O1|by eapply bop_running|done|by csimp|csimp; lia| |].
  { intros _. rewrite (bo_dsk _ _ _ _ _ O1). by apply (bi_clean _ _ I). }
  erewrite lift_ok by exact E5.
  exists s5, bl. split_and!; [by destruct s| |done|].
  - assert (EA : c_drop start (c_take pid start A) ≡ A) by csolve.
    apply (bop_bres _ A). rewrite <- EA at 2.
    change (@nil (Z * list Z)) with (@nil (Z * list Z) ++ []).
    bop_last O5. exact O1.
  - unfold hdr_list. split; [simpl; rewrite length_fmap, length_seqZ; lia|].
    intros t b Ht. simpl. rewrite P2. rewrite list_lookup_fmap in Ht.
    destruct (seqZ 0 (hb_n h) !! t) as [z|] eqn:Ez; [|done]. injection Ht as <-.
    apply lookup_seqZ in Ez as [-> Hz]. rewrite decide_True by lia. done.
Qed.

Lemma home_writes_start d V l :
  good_log start l -> apply_writes d (home_writes V l) start = d start.
Proof.
  intros G. apply apply_writes_notin. rewrite <- (take_ge (home_writes V l) _ (Nat.le_refl _)).
  intros [_ Hx]%(home_writes_blocks start V l G). by apply (start_not_home start).
Qed.

Lemma log_writes_other d V l b :
  good_log start l -> home start b \/ b = start ->
  apply_writes d (log_writes start V l) b = d b.
Proof.
  intros G Hb. apply apply_writes_notin. intros Hx%(log_writes_blocks start V l G). tauto.
Qed.

Lemma commit_ok s A pid l :
  lok start s A pid -> quiet l A -> good_log start l -> (length l < NBUF)%nat ->
  logged (lg s) l -> l <> [] ->
  exists bs A', commit s = Ok tt (mklstate bs (lg s <| lh_n := 0 |>)) /\
    bres (lg_blk s) bs A' (commit_writes start (av A) l (av A start)) /\ quiet [] A' /\
    (forall b, home start b -> av A' b = av A b).
Proof using Hstart.
  intros K Q G Hlen Hl Hne. unfold commit. erewrite bind_ok by done.
  rewrite (proj1 Hl), (proj2 (Z.ltb_lt _ _)) by (destruct l; [done|simpl; lia]). cbn [when].
  assert (Hns : start ∉ l).
  { intros Hx. pose proof (gl_home _ _ G) as Hg. rewrite Forall_forall in Hg.
    by apply (start_not_home start), Hg. }
  destruct (write_log_ok s A pid l) as (s1 & A1 & E1 & O1 & Q1 & V1); try done.
  erewrite bind_ok by exact E1.
  pose proof (bres_lok _ _ _ _ _ _ K O1) as K1.
  destruct (write_head_ok (s <| lg_blk := s1 |>) A1 pid l l) as (s2 & E2 & O2);
    [done|done|done|done|apply G|apply G|done|].
  erewrite bind_ok by exact E2.
  pose proof (bres_lok _ _ _ _ _ _ K1 O2) as K2.
  assert (Es : av A1 start = av A start) by (rewrite V1; apply log_writes_other; auto).
  rewrite Es in O2, K2. set (A2 := c_write start _ A1) in *.
  destruct (install_trans_ok (s <| lg_blk := s1 |> <| lg_blk := s2 |>) A2 pid l (av A))
    as (s3 & A3 & E3 & O3 & Q3 & V3); [done|done|done|done|done| |].
  { intros t b Ht. unfold A2. csimp. rewrite V1. by apply log_writes_at. }
  erewrite bind_ok by exact E3. erewrite bind_ok by done.
  pose proof (bres_lok _ _ _ _ _ _ K2 O3) as [I3 R3 D3 S3].
  assert (Es3 : av A3 start = hdr l (av A start)).
  { rewrite V3, home_writes_start by done. unfold A2. by csimp. }
  match goal with |- context [write_head ?s4] =>
    destruct (write_head_ok s4 A3 pid [] []) as (s5 & E5 & O5) end;
    [done|done|by apply Nat.ltb_lt|set_solver|done|constructor|done|].
  rewrite Es3 in O5.
  eexists s5, _. split_and!.
  - rewrite E5. by destruct s.
  - unfold commit_writes. rewrite !app_assoc.
    eapply bres_trans; [|exact O5]. eapply bres_trans; [|exact O3].
    eapply bres_trans; [exact O1|exact O2].
  - done.
  - intros b Hb. assert (b <> start) by (intros ->; by apply (start_not_home start)).
    csimp. rewrite V3. destruct (decide (b ∈ l)) as [Hin|Hin]; [by apply home_writes_at|].
    rewrite apply_writes_notin by (by rewrite fst_home_writes).
    unfold A2. csimp. rewrite V1. apply log_writes_other; auto.
Qed.

(** A machine just booted on disk [d]: nothing cached yet. *)
Record booted (d : disk) (pid : Z) (s : lstate) : Prop := {
  bt_inv : binv (lg_blk s) (fresh_cache d);
  bt_dsk : dsk (lg_blk s) = d;
  bt_run : running (prj (lg_blk s)) pid;
  bt_len : length (lh_block (lg s)) = Z.to_nat LOGBLOCKS;
}.

Lemma hdr_list_len h : 0 <= hb_n h -> Z.of_nat (length (hdr_list h)) = hb_n h.
Proof. intros Hn. unfold hdr_list. rewrite length_fmap, length_seqZ. lia. Qed.

Lemma initlog_ok d H pid s :
  booted d pid s -> recovers_to start d H ->
  exists bs g A', initlog ROOTDEV start s = Ok tt (mklstate bs g) /\
    bres (lg_blk s) bs A' (recover_writes start d) /\ quiet [] A' /\
    lh_n g = 0 /\ lok start (mklstate bs g) A' pid /\ length (lh_block g) = Z.to_nat LOGBLOCKS /\
    lg_outstanding g = lg_outstanding (lg s) /\ lg_committing g = lg_committing (lg s).
Proof using Hstart.
  intros [I D R Hlb] (Hl & Hn & G & _). unfold initlog.
  replace (BSIZE <=? sizeof_logheader) with false by done. erewrite bind_ok by done.
  pose proof (gl_len _ _ G) as Hlen. rewrite (hdr_list_len _ Hn) in Hlen.
  set (s0 := mklstate (lg_blk s) (lg s <| lg_start := start |> <| lg_dev := ROOTDEV |>)).
  assert (Hs32 : s32 start = start) by (apply s32_small; unfold LOGBLOCKS, MAXOPBLOCKS in *; lia).
  rewrite Hs32. replace (s <| lg := _ |>) with s0 by (by destruct s).
  assert (K0 : lok start s0 (fresh_cache d) pid) by (by split).
  assert (Q0 : quiet [] (fresh_cache d)) by (intros b; by rewrite decide_False by set_solver).
  unfold recover_from_log.
  destruct (read_head_ok s0 (fresh_cache d) pid) as (s1 & bl & E1 & O1 & L1 & Hlg); try done.
  erewrite bind_ok by exact E1. cbn [av fresh_cache] in Hlg.
  set (g1 := lg s0 <| lh_n := hb_n (av (fresh_cache d) start) |> <| lh_block := bl |>) in *.
  assert (K1 : lok start (mklstate s1 g1) (fresh_cache d) pid).
  { split; [apply O1|by eapply bres_running|done|done]. }
  destruct (recover_trans_ok (mklstate s1 g1) (fresh_cache d) pid (hdr_list (d start)))
    as (s2 & A2 & E2 & O2 & Q2 & V2); try done.
  erewrite bind_ok by exact E2. erewrite bind_ok by done. cbn [av fresh_cache] in *.
  pose proof (bres_lok _ _ _ _ _ _ K1 O2) as K2.
  assert (Es : av A2 start = d start).
  { rewrite V2. apply apply_writes_notin. rewrite fst_replay_writes. intros Hx.
    pose proof (gl_home _ _ G) as Hg. rewrite Forall_forall in Hg.
    by apply (start_not_home start), Hg. }
  match goal with |- context [write_head ?s4] =>
    destruct (write_head_ok s4 A2 pid [] []) as (s5 & E5 & O5) end;
    [by destruct K2|done|by apply Nat.ltb_lt|set_solver|done|constructor|done|].
  rewrite Es in O5. rewrite E5. eexists s5, _, (c_write start (hdr [] (d start)) A2).
  split_and!; [done| |exact Q2|done| |done|done|done].
  - unfold recover_writes. eapply bres_trans; [|exact O5].
    rewrite <- (app_nil_l (replay_writes _ _ _)). by eapply bres_trans.
  - destruct K2 as [I2 R2 ? ?]. split; try done; [apply O5|].
    by eapply bres_running; [exact O5|].
Qed.
End program.

(** Blocks that are not logged are clean. *)
Lemma quiet_clean s A l b : binv s A -> quiet l A -> b ∉ l -> dsk s b = av A b.
Proof.
  intros I Q Hb. apply (bi_clean _ _ I). destruct (Q b) as [_ ->]. by rewrite decide_False.
Qed.
