(* ===== verification/LogOps.v ===== *)
(** * Operations of the log: reservation, absorption, the last [end_op]

    What the system calls see of [kernel/log.c]: [begin_op] reserves
    [MAXOPBLOCKS] slots or waits, [log_write] uses one of them at most and
    none for a block the transaction has already, and the [end_op] of the
    last operation puts the transaction on disk.  One behaviour is a defect:
    with as many buffers as log blocks, a full log leaves no buffer to commit
    it with. *)

From stdpp Require Import base numbers strings decidable sets gmap functions list.
From S2P Require Import Prelude.
From S2P Require Import CString.
From S2P Require Import Riscv.
From S2P Require Import Sched.
From S2P Require Import Kalloc.
From S2P Require Import Sleeplock.
From S2P Require Import Bio.
From S2P Require Import Log.
Open Scope Z_scope.
Open Scope xv6_scope.

Definition zsum (l : list Z) : Z := foldr Z.add 0 l.

Lemma zsum_app l1 l2 : zsum (l1 ++ l2) = zsum l1 + zsum l2.
Proof. induction l1; simpl in *; lia. Qed.

(** The slots of the log: the blocks in it, and for each operation that is
    executing the number [r] of blocks it may still add. *)
Record reserved (g : logst) (R : list Z) : Prop := {
  rs_out : lg_outstanding g = Z.of_nat (length R);
  rs_op : Forall (fun r => 0 <= r <= MAXOPBLOCKS) R;
  rs_n : 0 <= lh_n g;
  rs_sum : lh_n g + zsum R <= LOGBLOCKS;
}.

Lemma zsum_bound R : Forall (fun r => 0 <= r <= MAXOPBLOCKS) R ->
  0 <= zsum R <= Z.of_nat (length R) * MAXOPBLOCKS.
Proof. induction 1; simpl in *; [lia|]. unfold MAXOPBLOCKS in *. lia. Qed.

Definition begin_fits (g : logst) : bool :=
  (lg_committing g =? 0) &&
  negb (LOGBLOCKS <? lh_n g + (lg_outstanding g + 1) * MAXOPBLOCKS).

Lemma lg_inj (m : mach) s : lg (inj m s) = lg s.
Proof. done. Qed.

Lemma begin_op_loop_S fuel :
  begin_op_loop (S fuel) =
    (l <- get_log ;;
     if negb (lg_committing l =? 0) then lift (sleep ChLog LkLog) ;; begin_op_loop fuel
     else if LOGBLOCKS <? lh_n l + (lg_outstanding l + 1) * MAXOPBLOCKS then
       lift (sleep ChLog LkLog) ;; begin_op_loop fuel
     else
       upd_log (fun l => l <| lg_outstanding := s32 (lg_outstanding l + 1) |>) ;;
       lift (release LkLog)).
Proof. done. Qed.

Lemma begin_op_enter s :
  held (prj s) = [] -> begin_fits (lg s) = true ->
  begin_op s = Ok tt (s <| lg := lg s <| lg_outstanding := s32 (lg_outstanding (lg s) + 1) |> |>).
Proof.
  intros Hh Hf. unfold begin_op.
  erewrite bind_ok by (apply lift_ok, acquire_ok; rewrite Hh; set_solver).
  change wait_fuel with (S (pred wait_fuel)). rewrite begin_op_loop_S.
  generalize (pred wait_fuel). intros fuel. erewrite bind_ok by done.
  apply andb_true_iff in Hf as [H1 H2]. rewrite lg_inj, H1. apply negb_true_iff in H2.
  rewrite H2. cbn [negb]. erewrite bind_ok by done.
  erewrite lift_ok by (by apply release_ok). by destruct s as [[[[]]]].
Qed.

Lemma begin_op_waits s i p :
  held (prj s) = [] -> cur (prj s) = Some i -> procs (prj s) !! i = Some p ->
  begin_fits (lg s) = false ->
  exists k, begin_op s = Swtch (inj (asleep ChLog i p (prj s)) s) k.
Proof.
  intros Hh Hc Hp Hf. unfold begin_op.
  erewrite bind_ok by (apply lift_ok, acquire_ok; rewrite Hh; set_solver).
  rewrite Hh. set (m1 := prj s <| held := [LkLog] |>).
  destruct (sleep_ok ChLog LkLog m1 i p) as (k & E & _); try done.
  change wait_fuel with (S (pred wait_fuel)). rewrite begin_op_loop_S.
  generalize (pred wait_fuel). intros fuel. erewrite bind_ok by done. rewrite lg_inj.
  unfold begin_fits in Hf. destruct (lg_committing (lg s) =? 0); cbn [andb negb] in *.
  - apply negb_false_iff in Hf. rewrite Hf. eexists.
    erewrite bind_swtch by (apply lift_swtch; by rewrite prj_inj). by rewrite inj_inj.
  - eexists. erewrite bind_swtch by (apply lift_swtch; by rewrite prj_inj). by rewrite inj_inj.
Qed.

(** The search of [log_write]: the index of the block, or the length. *)
Fixpoint position (b : Z) (l : list Z) : nat :=
  match l with
  | [] => 0
  | x :: l' => if decide (x = b) then 0 else S (position b l')
  end.

Lemma position_in b l : b ∈ l -> (position b l < length l)%nat /\ l !! position b l = Some b.
Proof.
  induction l as [|x l IH]; intros Hb; [by apply elem_of_nil in Hb|]. simpl.
  case_decide as Hx; [subst; split; [lia|done]|].
  apply elem_of_cons in Hb as [->|Hb]; [done|]. destruct (IH Hb). simpl. split; [lia|done].
Qed.
Lemma position_out b l : b ∉ l -> position b l = length l.
Proof.
  induction l as [|x l IH]; intros Hb; [done|]. simpl.
  rewrite decide_False by set_solver. rewrite IH by set_solver. done.
Qed.

Lemma log_find_ok s l b k fuel :
  lh_n (lg s) = Z.of_nat (k + length l) ->
  (forall t x, l !! t = Some x -> lh_block (lg s) !! (k + t)%nat = Some x) ->
  Forall (fun x => 0 <= x < 2 ^ 31) l -> (length l < fuel)%nat ->
  log_find fuel (Z.of_nat k) b s = Ok (Z.of_nat (k + position b l)) s.
Proof.
  revert k fuel. induction l as [|x l IH]; intros k [|fuel] Hn Hl Hr Hf; simpl length in *; try lia.
  - simpl. erewrite bind_ok by done. rewrite (proj2 (Z.ltb_ge _ _)) by lia.
    by rewrite Nat.add_0_r.
  - cbn [log_find position]. erewrite bind_ok by done. rewrite (proj2 (Z.ltb_lt _ _)) by lia.
    apply Forall_cons_1 in Hr as [Hx Hr].
    erewrite bind_ok.
    2: { apply log_block_ok. rewrite <- (Nat.add_0_r k). by apply Hl. }
    rewrite u32_small by lia. destruct (decide (x = b)) as [->|Hne].
    + rewrite Z.eqb_refl. by rewrite Nat.add_0_r.
    + rewrite (proj2 (Z.eqb_neq _ _)) by done.
      replace (Z.of_nat k + 1) with (Z.of_nat (S k)) by lia.
      rewrite IH; [by rewrite Nat.add_succ_l, <- Nat.add_succ_r|lia| |done|lia].
      intros t y Ht. rewrite Nat.add_succ_l, <- Nat.add_succ_r. by apply Hl.
Qed.

(** [log_write] in one step. *)
Lemma log_write_eq s A pid l i b :
  binv (lg_blk s) A -> running (prj s) pid -> handle (lg_blk s) i b ->
  logged (lg s) l -> length (lh_block (lg s)) = Z.to_nat LOGBLOCKS ->
  Z.of_nat (length l) < LOGBLOCKS -> 1 <= lg_outstanding (lg s) ->
  Forall (fun x => 0 <= x < 2 ^ 31) l -> 0 <= b < 2 ^ 31 ->
  log_write i s = Ok tt
    (if decide (b ∈ l) then s
     else mklstate (pinned i (lg_blk s))
       (lg s <| lh_block := <[length l := b]> (lh_block (lg s)) |>
             <| lh_n := Z.of_nat (length l) + 1 |>)).
Proof.
  intros I (Hh & _) H [Hn Hl] Hlen Hlt Hout Hr Hb. unfold log_write.
  erewrite bind_ok by (apply lift_ok, acquire_ok; rewrite Hh; set_solver).
  erewrite bind_ok by done. rewrite lg_inj, Hn, (proj2 (Z.leb_gt _ _)), (proj2 (Z.ltb_ge _ _)) by lia.
  destruct H as (Hi & Hdev & Hbn). erewrite bind_ok by done.
  match goal with |- context [b_blockno ?x] => replace (b_blockno x) with b by (by symmetry) end.
  rewrite Nat2Z.id.
  erewrite bind_ok by (apply (log_find_ok _ l b 0); [done|done|done|lia]).
  rewrite s32_small, Nat.add_0_l by lia.
  assert (Hpos : (position b l <= length l)%nat).
  { destruct (decide (b ∈ l)) as [Hin|Hin];
      [destruct (position_in b l Hin); lia|by rewrite position_out]. }
  erewrite bind_ok.
  2: { unfold set_log_block. erewrite bind_ok by done. cbn [lg inj lift embed_mach_lstate embed_blk_lstate].
       match goal with |- context [length ?x] =>
         replace (length x) with (Z.to_nat LOGBLOCKS) by (by symmetry) end.
       rewrite (proj2 (Z.leb_le _ _)), (proj2 (Z.ltb_lt _ _)) by lia. done. }
  erewrite bind_ok by done. simpl lg. rewrite Nat2Z.id.
  destruct (decide (b ∈ l)) as [Hin|Hin].
  - destruct (position_in b l Hin) as [Hp1 Hp2].
    rewrite (proj2 (Z.eqb_neq _ _)) by (simpl; rewrite Hn; lia). cbn [when].
    erewrite bind_ok by done. erewrite lift_ok by (by apply release_ok).
    simpl. rewrite list_insert_id by (by apply Hl). by destruct s as [[[[]]] []].
  - rewrite position_out by done. simpl lh_n. rewrite Hn, Z.eqb_refl. cbn [when].
    erewrite bind_ok.
    2: { erewrite bind_ok.
         2: { apply lift_ok, bpin_eq. simpl. simpl in Hh. rewrite Hh. set_solver. }
         done. }
    erewrite lift_ok by (by apply release_ok). simpl. rewrite Hn.
    rewrite s32_small by (unfold LOGBLOCKS, MAXOPBLOCKS in *; lia).
    by destruct s as [[[[]]] []].
Qed.

(** A block read, modified, logged and released, as the comment above
    [log_write] describes its use. *)
Definition log_one (b : Z) (d : list Z) : M lstate unit :=
  i <- lift (bread ROOTDEV b) ;;
  lift (upd_buf i (fun x => x <| b_data := d |>)) ;;
  log_write i ;;
  lift (brelse i).

(** A log in use: between transactions' operations, when no buffer is
    locked, exactly the logged blocks are pinned. *)
Record log_inv (start : Z) (s : lstate) (A : cache) (l : list Z) (pid : Z) : Prop := {
  li_ok : lok start s A pid;
  li_quiet : quiet l A;
  li_good : good_log start l;
  li_logged : logged (lg s) l;
  li_len : length (lh_block (lg s)) = Z.to_nat LOGBLOCKS;
}.

Lemma good_log_snoc start l b :
  good_log start l -> b ∉ l -> home start b -> 0 <= b < 2 ^ 31 ->
  Z.of_nat (length l) < LOGBLOCKS -> good_log start (l ++ [b]).
Proof.
  intros [G1 G2 G3 G4] Hb Hh Hr Hl. split.
  - len.
  - apply NoDup_app. split_and!; [done|set_solver|apply NoDup_singleton].
  - apply Forall_app. by rewrite Forall_singleton.
  - apply Forall_app. by rewrite Forall_singleton.
Qed.

Lemma log_one_ok start s A l pid b d :
  log_inv start s A l pid -> b ∉ l -> home start b -> 0 <= b < 2 ^ 31 ->
  (length l < NBUF)%nat -> 1 <= lg_outstanding (lg s) -> length d = bsize ->
  exists s' A', log_one b d s = Ok tt s' /\ log_inv start s' A' (l ++ [b]) pid /\
    (forall c, av A' c = <[b := d]> (av A) c) /\
    lg_outstanding (lg s') = lg_outstanding (lg s) /\
    lg_committing (lg s') = lg_committing (lg s) /\
    dsk (lg_blk s') = dsk (lg_blk s).
Proof.
  intros [[I R Hdev Hst] Q G Hl Hlb] Hb Hh Hr Hlt Hout Hd. unfold log_one.
  assert (Hlt' : Z.of_nat (length l) < LOGBLOCKS) by (unfold NBUF, LOGBLOCKS in *; lia).
  destruct (Q b) as [Lb Rb]. rewrite decide_False in Rb by done.
  destruct (bread_ok (lg_blk s) A pid b) as (i & s1 & E1 & O1 & H1);
    [done|done|done|lia|right; by eapply quiet_room|].
  erewrite bind_ok by (apply lift_ok, E1).
  destruct (upd_data_ok s1 (c_take pid b A) i b (fun _ => d)) as (s2 & E2 & O2 & H2);
    [apply O1|done|csimp; lia|done|].
  erewrite bind_ok by (apply lift_ok, E2). set (A2 := c_write b d (c_take pid b A)) in *.
  pose proof (bop_running _ _ _ _ _ _ O2 (bop_running _ _ _ _ _ _ O1 R)) as R2.
  erewrite bind_ok.
  2: { apply (log_write_eq _ A2 pid l i b); try done; [apply O2|apply G]. }
  rewrite decide_False by done. cbn [inj lg_blk embed_blk_lstate].
  destruct (pinned_ok s2 A2 i b) as [O3 H3]; [apply O2|done|unfold A2; csimp; lia|].
  destruct (brelse_ok (pinned i s2) (c_pin b 1 A2) i b pid) as (s4 & E4 & O4 & _);
    [apply O3|by eapply bop_running|done|unfold A2; by csimp|unfold A2; csimp; lia
    |unfold A2; csimp; lia|].
  erewrite lift_ok by exact E4.
  eexists _, (c_drop b (c_pin b 1 A2)). split_and!; [done| | |done|done|].
  - split; [split| | | |].
    + apply O4.
    + eapply bop_running; [exact O4|]. by eapply bop_running.
    + done.
    + done.
    + intros c. destruct (Q c) as [Lc Rc]. unfold A2. csimp. unfold insert, fn_insert.
      destruct (decide (b = c)) as [<-|Hne].
      * rewrite Rb, decide_True by set_solver. done.
      * rewrite Lc, Rc. repeat case_decide; try done; set_solver.
    + by apply good_log_snoc.
    + destruct Hl as [Hn Hl]. split; [simpl; len|]. intros t c Ht. simpl.
      apply lookup_app_Some in Ht as [Ht|[Hge Ht]].
      * rewrite list_lookup_insert_ne; [by apply Hl|]. apply lookup_lt_Some in Ht. lia.
      * apply list_lookup_singleton_Some in Ht as [E <-].
        replace t with (length l) by lia. apply list_lookup_insert_eq. lia.
    + simpl. by rewrite length_insert.
  - intros c. unfold A2. by csimp.
  - simpl. by rewrite (bo_dsk _ _ _ _ _ O4), (bo_dsk _ _ _ _ _ O3), (bo_dsk _ _ _ _ _ O2),
      (bo_dsk _ _ _ _ _ O1).
Qed.

(** Many blocks logged one after the other. *)
Lemma log_many_ok start bs d s A l pid :
  log_inv start s A l pid -> NoDup (l ++ bs) -> Forall (home start) bs ->
  Forall (fun b => 0 <= b < 2 ^ 31) bs -> (length l + length bs <= NBUF)%nat ->
  1 <= lg_outstanding (lg s) -> length d = bsize ->
  exists s' A', mapM_ (fun b => log_one b d) bs s = Ok tt s' /\
    log_inv start s' A' (l ++ bs) pid /\
    (forall c, c ∈ bs -> av A' c = d) /\
    (forall c, c ∉ bs -> av A' c = av A c) /\
    lg_outstanding (lg s') = lg_outstanding (lg s) /\
    lg_committing (lg s') = lg_committing (lg s) /\
    dsk (lg_blk s') = dsk (lg_blk s).
Proof.
  revert s A l. induction bs as [|b bs IH]; intros s A l L Hn Hh Hr Hlen Hout Hd.
  { exists s, A. rewrite app_nil_r. split_and!; try done. set_solver. }
  apply Forall_cons_1 in Hh as [Hb Hh]. apply Forall_cons_1 in Hr as [Hbr Hr].
  simpl in Hlen. rewrite cons_middle, app_assoc in Hn. pose proof Hn as Hn'.
  apply NoDup_app in Hn' as (Hn1 & Hn2 & _). apply NoDup_app in Hn1 as (_ & Hn1 & _).
  destruct (log_one_ok start s A l pid b d) as (s1 & A1 & E1 & L1 & V1 & O1 & C1 & D1); try done;
    [set_solver|lia|].
  cbn [mapM_]. erewrite bind_ok by exact E1.
  destruct (IH s1 A1 (l ++ [b])) as (s2 & A2 & E2 & L2 & V2 & V2' & O2 & C2 & D2); try done;
    [len|by rewrite O1|].
  exists s2, A2. rewrite (cons_middle b l bs), app_assoc.
  split_and!; [done|done| | |congruence..].
  - intros c [->|Hc]%elem_of_cons; [|by apply V2]. rewrite V2'.
    + rewrite V1. apply fn_insert_eq.
    + set_solver.
  - intros c Hc. apply not_elem_of_cons in Hc as [Hne Hc]. rewrite V2', V1 by done.
    by rewrite fn_insert_ne.
Qed.

(** ** A full log *)

Lemma quiet_handle s A l b : binv s A -> quiet l A -> b ∈ l -> exists i, handle s i b.
Proof.
  intros I Q Hb. destruct (bi_lru _ _ I) as (o & _ & Hp).
  pose proof (find_handle s A b o I Hp) as Hf. destruct (List.find _ o) as [i|]; [by exists i|].
  pose proof (bi_none _ _ I b Hf) as Hz. destruct (Q b) as [_ E].
  rewrite decide_True in E by done. lia.
Qed.

Lemma choose_list {A B} (R : A -> B -> Prop) (l : list B) :
  (forall b, b ∈ l -> exists a, R a b) -> exists hs, Forall2 R hs l.
Proof.
  induction l as [|b l IH]; intros H; [exists []; constructor|].
  destruct (H b) as [a Ha]; [apply list_elem_of_here|].
  destruct IH as [hs Hs]; [intros; apply H; by apply list_elem_of_further|].
  exists (a :: hs). by constructor.
Qed.

(** As many pinned blocks as buffers: every buffer holds one of them. *)
Lemma all_pinned s A l :
  binv s A -> quiet l A -> NoDup l -> length l = NBUF ->
  forall i, (i < NBUF)%nat -> exists b, b ∈ l /\ handle s i b.
Proof.
  intros I Q Hn Hl i Hi.
  destruct (choose_list (handle s) l) as [hs Hs]; [intros b Hb; by eapply quiet_handle|].
  assert (Hnd : NoDup hs).
  { apply NoDup_alt. intros x y z Hx Hy.
    destruct (Forall2_lookup_l _ _ _ _ _ Hs Hx) as (b & Hb & Hxb).
    destruct (Forall2_lookup_l _ _ _ _ _ Hs Hy) as (c & Hc & Hyc).
    assert (b = c) as <- by (by eapply handle_fun). by eapply NoDup_lookup. }
  assert (Hp : hs ≡ₚ seq 0 NBUF).
  { apply submseteq_length_Permutation.
    - apply NoDup_submseteq; [done|]. intros x (k & Hk)%list_elem_of_lookup.
      destruct (Forall2_lookup_l _ _ _ _ _ Hs Hk) as (b & _ & Hb).
      apply elem_of_seq. apply handle_lt in Hb. lia.
    - rewrite (Forall2_length _ _ _ Hs). len. }
  assert (Hin : i ∈ hs) by (rewrite Hp; apply elem_of_seq; lia).
  apply list_elem_of_lookup in Hin as [k Hk].
  destruct (Forall2_lookup_l _ _ _ _ _ Hs Hk) as (b & Hb & Hh).
  exists b. split; [by eapply list_elem_of_lookup_2|done].
Qed.

Lemma find_all_false {A} (f : A -> bool) l : (forall x, x ∈ l -> f x = false) -> List.find f l = None.
Proof.
  induction l as [|x l IH]; intros H; [done|]. simpl.
  rewrite H by apply list_elem_of_here. apply IH. intros y Hy. apply H.
  by apply list_elem_of_further.
Qed.

(** C12: a full log cannot be committed.  A transaction may hold
    [LOGBLOCKS] blocks, but the cache has no more buffers than that and
    every block of the transaction is pinned in one, so [write_log] finds no
    buffer for the log's own block and the kernel panics. *)
Theorem commit_full_panics start s A l pid :
  0 <= start -> start + LOGBLOCKS < 2 ^ 31 -> log_inv start s A l pid ->
  Z.of_nat (length l) = LOGBLOCKS -> commit s = Panic "bget: no buffers".
Proof.
  intros Hs1 Hs2 [[I R Hdev Hst] Q G Hl Hlb] Hfull.
  assert (HN : length l = NBUF) by (unfold NBUF, LOGBLOCKS in *; lia).
  destruct (bi_lru _ _ I) as (o & Hlru & Hp).
  assert (Ho : (length o <= NBUF)%nat) by (rewrite Hp; len).
  assert (Hall : forall i, i ∈ o -> exists b, b ∈ l /\ handle (lg_blk s) i b).
  { intros i Hi. rewrite Hp in Hi. apply elem_of_seq in Hi.
    eapply all_pinned; try done; [apply G|lia]. }
  destruct l as [|b0 l0] eqn:El; [done|]. rewrite <- El in *.
  assert (Hb0 : l !! 0%nat = Some b0) by (by subst).
  destruct (good_log_at start (conj Hs1 Hs2) l 0 b0 G Hb0) as (_ & _ & _ & _ & Hnl & _).
  unfold commit. erewrite bind_ok by done. destruct Hl as [Hn Hl].
  rewrite Hn, Hfull. cbn [when Z.ltb Z.compare LOGBLOCKS MAXOPBLOCKS Z.mul Pos.mul].
  apply bind_panic. unfold write_log. erewrite bind_ok by done. rewrite Hn, Hfull.
  rewrite seqZ_cons by done. cbn [mapM_]. apply bind_panic.
  unfold write_log_one. erewrite bind_ok by done. rewrite Hdev, Hst.
  apply bind_panic, lift_panic. unfold bread. apply bind_panic.
  change (start + 0 + 1) with (start + Z.of_nat 0 + 1).
  rewrite (tail_block start (conj Hs1 Hs2) 0) by (by apply Nat.ltb_lt). cbn [prj embed_blk_lstate].
  eapply bget_full; [done|done|done| |].
  - apply find_all_false. intros i Hi. destruct (Hall i Hi) as (b & Hb & _ & _ & E).
    apply andb_false_intro2. apply Z.eqb_neq. rewrite E. intros ->. done.
  - apply find_all_false. intros i Hi. rewrite (reverse_Permutation o) in Hi.
    destruct (Hall i Hi) as (b & Hb & H). destruct (bi_buf _ _ I i b H) as (_ & E & _).
    destruct (Q b) as [_ Rb]. rewrite decide_True in Rb by done. apply Z.eqb_neq. lia.
Qed.

(** ** Reservation *)

(** C10: [begin_op] reserves space.  With the slots of the log
    accounted for by [R], [begin_op] either returns with [MAXOPBLOCKS] more
    slots set aside for its caller, or (during a commit, or when the slots
    would not fit) puts its caller to sleep on the log and changes no
    count. *)
Theorem begin_op_reserves s R pid :
  running (prj s) pid -> reserved (lg s) R -> (length R < NPROC)%nat ->
  if begin_fits (lg s) then
    exists s', begin_op s = Ok tt s' /\ reserved (lg s') (MAXOPBLOCKS :: R) /\
      lg_blk s' = lg_blk s
  else
    exists s1 k i p, begin_op s = Swtch s1 k /\ lg s1 = lg s /\ cur (prj s) = Some i /\
      procs (prj s1) !! i = Some p /\ p_state p = SLEEPING /\ p_chan p = ChLog.
Proof.
  intros (Hh & Hl & i & p & Hc & Hp & _) [Ho Hr Hn Hs] HR.
  destruct (begin_fits (lg s)) eqn:Ef.
  - rewrite begin_op_enter by done. eexists. split_and!; [done| |by destruct s].
    unfold begin_fits in Ef. apply andb_true_iff in Ef as [_ Ef]. apply negb_true_iff in Ef.
    pose proof (zsum_bound R Hr) as Hz. unfold NPROC in HR.
    split; cbn [lg lg_outstanding lh_n setf set_lg set_lg_outstanding length].
    + rewrite Ho, s32_small; lia.
    + constructor; [unfold MAXOPBLOCKS; lia|done].
    + done.
    + cbn [zsum foldr]. unfold zsum, MAXOPBLOCKS, LOGBLOCKS in *. lia.
  - destruct (begin_op_waits s i p) as (k & E); try done.
    eexists _, k, i, (p <| p_chan := ChLog |> <| p_state := SLEEPING |>).
    split_and!; [exact E|done|done| |done|done].
    simpl. apply list_lookup_insert_eq. by eapply lookup_lt_Some.
Qed.

(** C11: no transaction grows too big.  An operation that still has
    a slot may call [log_write] on a block it holds locked: the call returns
    (neither of its panics happens), the block is in the log afterwards and
    pinned, once however often it is written, and one slot at most is used. *)
Theorem log_write_reserved start s A l pid i b R1 r R2 :
  lok start s A pid -> logged (lg s) l -> good_log start l ->
  length (lh_block (lg s)) = Z.to_nat LOGBLOCKS ->
  reserved (lg s) (R1 ++ r :: R2) -> 0 < r ->
  handle (lg_blk s) i b -> al A b = Some pid -> ar A b < 2 ^ 31 ->
  home start b -> 0 <= b < 2 ^ 31 ->
  exists s' r' A', log_write i s = Ok tt s' /\ binv (lg_blk s') A' /\
    reserved (lg s') (R1 ++ r' :: R2) /\ r - 1 <= r' <= r /\
    (forall c, av A' c = av A c /\ al A' c = al A c) /\
    (if decide (b ∈ l) then logged (lg s') l /\ ar A' b = ar A b
     else logged (lg s') (l ++ [b]) /\ good_log start (l ++ [b]) /\ ar A' b = ar A b + 1).
Proof.
  intros [I R Hdev Hst] Hl G Hlb Rs Hr H Hal Har Hh Hb.
  pose proof (al_pos _ _ _ _ I Hal) as Hpos. destruct Rs as [Ho Hop Hn Hsum].
  rewrite zsum_app in Hsum. simpl in Hsum.
  pose proof Hop as Hop'. apply Forall_app in Hop' as [Hop1 Hop2].
  apply Forall_cons_1 in Hop2 as [Hopr Hop2].
  pose proof (zsum_bound R1 Hop1). pose proof (zsum_bound R2 Hop2).
  assert (Hlt : Z.of_nat (length l) < LOGBLOCKS) by (destruct Hl; lia).
  rewrite (log_write_eq s A pid l i b); try done; [|rewrite Ho; len|apply G].
  destruct (decide (b ∈ l)) as [Hin|Hin].
  - exists s, r, A. split_and!; try done; try lia. split; try done.
    rewrite zsum_app. simpl. lia.
  - destruct (pinned_ok (lg_blk s) A i b) as [O _]; [done|done|lia|].
    eexists _, (r - 1), (c_pin b 1 A). split_and!; [done|apply O| |lia|lia|done| | |by csimp].
    + split; simpl; [rewrite Ho; len| |destruct Hl; lia|].
      * apply Forall_app. split; [done|]. constructor; [lia|done].
      * rewrite zsum_app. destruct Hl. simpl. lia.
    + destruct Hl as [Hln Hl]. split; [simpl; len|]. intros t c Ht. simpl.
      apply lookup_app_Some in Ht as [Ht|[Hge Ht]].
      * rewrite list_lookup_insert_ne; [by apply Hl|]. apply lookup_lt_Some in Ht. lia.
      * apply list_lookup_singleton_Some in Ht as [E <-].
        replace t with (length l) by lia. apply list_lookup_insert_eq. lia.
    + by apply good_log_snoc.
Qed.

(** ** The end of an operation *)

(** The writes of the commit of [l], which does nothing for an empty log. *)
Definition end_writes (start : Z) (V : disk) (l : list Z) : wlog :=
  if decide (l = []) then [] else commit_writes start V l (V start).

Lemma commit_any start s A l pid :
  0 <= start /\ start + LOGBLOCKS < 2 ^ 31 -> log_inv start s A l pid -> (length l < NBUF)%nat ->
  exists bs A', commit s = Ok tt (mklstate bs (lg s <| lh_n := 0 |>)) /\
    bres (lg_blk s) bs A' (end_writes start (av A) l) /\ quiet [] A' /\
    (forall b, home start b -> av A' b = av A b).
Proof.
  intros Hs [K Q G Hl Hlb] Hlt. unfold end_writes. destruct (decide (l = [])) as [->|Hne].
  - exists (lg_blk s), A. destruct Hl as [Hn _]. split_and!; try done; [|by eapply bop_bres, bop_refl, K].
    unfold commit. erewrite bind_ok by done. rewrite Hn. simpl in Hn.
    by destruct s as [? []]; simpl in *; subst.
  - destruct (commit_ok start Hs s A pid l) as (bs & A' & E & O & Q' & V); try done.
    by exists bs, A'.
Qed.

Lemma log_inv_wake start s A l pid ch g :
  log_inv start s A l pid -> lh_n g = lh_n (lg s) -> lh_block g = lh_block (lg s) ->
  lg_start g = lg_start (lg s) -> lg_dev g = lg_dev (lg s) ->
  log_inv start (inj (wake ch (prj s)) (s <| lg := g |>)) A l pid.
Proof.
  intros [[I R Hd Hs] Q G [Hn Hl] Hlb] E1 E2 E3 E4. split; [split| | | |]; simpl.
  - by apply binv_mm.
  - eapply woke_running; [apply woke_wake|done].
  - congruence.
  - congruence.
  - done.
  - done.
  - split; [congruence|]. rewrite E2. done.
  - by rewrite E2.
Qed.

Lemma end_op_ok start s A l pid :
  0 <= start -> start + LOGBLOCKS < 2 ^ 31 -> log_inv start s A l pid -> (length l < NBUF)%nat ->
  1 <= lg_outstanding (lg s) < 2 ^ 31 -> lg_committing (lg s) = 0 ->
  exists s' A' l', end_op s = Ok tt s' /\ log_inv start s' A' l' pid /\
    lg_outstanding (lg s') = lg_outstanding (lg s) - 1 /\ lg_committing (lg s') = 0 /\
    (forall b, home start b -> av A' b = av A b) /\ mm_woke (blk_mm (lg_blk s)) (blk_mm (lg_blk s')) /\
    (exists w, wtrace (lg_blk s') = wtrace (lg_blk s) ++ w /\ dsk (lg_blk s') = apply_writes (dsk (lg_blk s)) w /\
       w = if decide (lg_outstanding (lg s) = 1) then end_writes start (av A) l else []) /\
    (if decide (lg_outstanding (lg s) = 1) then
       l' = [] /\ forall b, home start b -> dsk (lg_blk s') b = av A b
     else l' = l /\ dsk (lg_blk s') = dsk (lg_blk s)).
Proof.
  intros Hs1 Hs2 L Hlt Hout Hc. pose proof (li_ok _ _ _ _ _ L) as [I R Hdev Hst].
  pose proof R as (Hh & Hlp & _). unfold end_op.
  erewrite bind_ok by (apply lift_ok, acquire_ok; simpl in *; rewrite Hh; set_solver).
  erewrite bind_ok by done. erewrite bind_ok by done.
  match goal with |- context [lg_committing ?x] =>
    replace (lg_committing x) with 0 by (by symmetry) end.
  match goal with |- context [lg_outstanding ?x =? 0] =>
    replace (lg_outstanding x) with (lg_outstanding (lg s) - 1)
      by (symmetry; apply s32_small; lia) end.
  cbn [negb Z.eqb]. destruct (decide (lg_outstanding (lg s) = 1)) as [E1|E1].
  - rewrite E1. change (1 - 1 =? 0) with true. cbn [when].
    erewrite bind_ok by done. erewrite bind_ok by (by apply lift_ok, release_ok).
    set (s1 := s <| lg := lg s <| lg_outstanding := 0 |> <| lg_committing := 1 |> |>).
    match goal with |- context [bind commit _ ?s2] => replace s2 with s1 end.
    2: { unfold s1. destruct s as [[[[]]] []]; simpl in *; by subst. }
    assert (L1 : log_inv start s1 A l pid) by (by destruct L as [[] ? ? []]; split; [split|..]).
    destruct (commit_any start s1 A l pid (conj Hs1 Hs2) L1 Hlt) as (bs & A' & E & [I' W Tr Ds] & Q' & V).
    erewrite bind_ok by exact E.
    assert (R' : running (prj bs) pid) by (eapply woke_running; [apply W|done]).
    pose proof R' as (Hh' & Hlp' & _).
    erewrite bind_ok by (apply lift_ok, acquire_ok; simpl in *; rewrite Hh'; set_solver).
    erewrite bind_ok by done.
    erewrite bind_ok.
    2: { apply lift_ok. apply wakeup_ok; [|done]. intros j _. simpl in *. rewrite Hh'. set_solver. }
    erewrite lift_ok by (by apply release_ok).
    set (s3 := mklstate bs (lg s1 <| lh_n := 0 |>)).
    assert (L3 : log_inv start s3 A' [] pid).
    { destruct L1 as [[_ _ ? ?] _ _ _ ?]. split; [by split|done|apply good_nil| |done].
      by split. }
    exists (inj (wake ChLog (prj s3)) (s3 <| lg := lg s3 <| lg_committing := 0 |> |>)), A', [].
    split_and!; [|by apply log_inv_wake|done|done|done| |by eexists|done|].
    + clear -Hh'. unfold s3, s1. destruct bs as [[[]]]; simpl in *; by subst.
    + eapply mm_woke_trans; [exact W|]. split; [apply woke_wake|done].
    + intros b Hb. simpl. rewrite <- V by done. apply (quiet_clean bs A' []); [done|done|set_solver].
  - rewrite (proj2 (Z.eqb_neq _ _)) by lia.
    erewrite bind_ok.
    2: { apply lift_ok. apply wakeup_ok; [|done]. intros j _. simpl in *. rewrite Hh. set_solver. }
    erewrite bind_ok by (by apply lift_ok, release_ok).
    exists (inj (wake ChLog (prj s))
      (s <| lg := lg s <| lg_outstanding := lg_outstanding (lg s) - 1 |> |>)), A, l.
    split_and!; [|by apply log_inv_wake|done|done|done|by split; [apply woke_wake|]|exists []; by rewrite app_nil_r|done|done].
    rewrite <- (s32_small (lg_outstanding (lg s) - 1)) by lia.
    clear -Hh. destruct s as [[[[]]] []]; simpl in *; by subst.
Qed.

(** [end_op].  While other operations are executing it only
    gives up its reservation; the last one commits: the log is empty
    afterwards, every block is on disk as the transaction left it, and the
    processes waiting for the log have been woken. *)
Theorem end_op_spec start s A l pid :
  0 <= start -> start + LOGBLOCKS < 2 ^ 31 -> log_inv start s A l pid -> (length l < NBUF)%nat ->
  1 <= lg_outstanding (lg s) < 2 ^ 31 -> lg_committing (lg s) = 0 ->
  exists s' A' l', end_op s = Ok tt s' /\ log_inv start s' A' l' pid /\
    lg_outstanding (lg s') = lg_outstanding (lg s) - 1 /\ lg_committing (lg s') = 0 /\
    (forall b, home start b -> av A' b = av A b) /\
    (if decide (lg_outstanding (lg s) = 1) then
       l' = [] /\ forall b, home start b -> dsk (lg_blk s') b = av A b
     else l' = l /\ dsk (lg_blk s') = dsk (lg_blk s)).
Proof.
  intros Hs1 Hs2 L Hlt Hout Hc.
  destruct (end_op_ok start s A l pid Hs1 Hs2 L Hlt Hout Hc) as (s' & A' & l' & E & L' & Ho & Hc' & Hv & _ & _ & HR).
  by exists s', A', l'.
Qed.

(** ** The theorems on a concrete machine

    A booted machine with a log at block 2 and three operations executing,
    and the same machine after [n] blocks from block 50 on were logged. *)
Definition lstate_booted : lstate :=
  mklstate blk_booted (mklogst 2 3 0 ROOTDEV 0 (replicate (Z.to_nat LOGBLOCKS) 0)).
Definition ones_block : list Z := replicate bsize 1.
Definition log_demo (n : Z) : lstate :=
  after (mapM_ (fun b => log_one b ones_block) (seqZ 50 n)) lstate_booted.

Lemma quiet_fresh d : quiet [] (fresh_cache d).
Proof. intros b. by rewrite decide_False by set_solver. Qed.
Lemma logged_nil g : lh_n g = 0 -> logged g [].
Proof. intros H. split; [done|]. intros t b Ht. by rewrite lookup_nil in Ht. Qed.

Lemma lstate_booted_inv : log_inv 2 lstate_booted (fresh_cache (dsk blk_boot)) [] 7.
Proof.
  destruct blk_booted_ok as (_ & I & R & D & _). split.
  - split; [exact I|cbn [lg_blk lstate_booted]; rewrite R; apply two_procs_running
      |reflexivity|reflexivity].
  - apply quiet_fresh.
  - apply good_nil.
  - apply logged_nil. reflexivity.
  - reflexivity.
Qed.

Lemma log_demo_ok n :
  0 <= n <= 30 -> exists A, log_inv 2 (log_demo n) A (seqZ 50 n) 7 /\
    dsk (lg_blk (log_demo n)) = dsk blk_boot /\ lg_outstanding (lg (log_demo n)) = 3 /\
    lg_committing (lg (log_demo n)) = 0.
Proof.
  intros Hn. destruct blk_booted_ok as (_ & _ & _ & D & _).
  destruct (log_many_ok 2 (seqZ 50 n) ones_block lstate_booted (fresh_cache (dsk blk_boot)) [] 7)
    as (s' & A & E & L & _ & _ & O & C & D').
  - exact lstate_booted_inv.
  - apply NoDup_seqZ.
  - apply Forall_forall. intros b Hb. apply elem_of_seqZ in Hb.
    unfold home, LOGBLOCKS, MAXOPBLOCKS. lia.
  - apply Forall_forall. intros b Hb. apply elem_of_seqZ in Hb. lia.
  - rewrite length_seqZ. unfold NBUF, MAXOPBLOCKS. simpl length. lia.
  - cbn. lia.
  - apply length_replicate.
  - exists A. unfold log_demo, after. rewrite E. split_and!; [exact L| |exact O|exact C].
    rewrite D'. exact D.
Qed.

Lemma lstate_booted_booted : booted (dsk blk_boot) 7 lstate_booted.
Proof.
  destruct blk_booted_ok as (_ & I & R & D & _).
  split; [exact I|exact D| |reflexivity].
  cbn [lg_blk lstate_booted]. rewrite R. apply two_procs_running.
Qed.

Lemma lok_running start (s : lstate) A pid : lok start s A pid -> running (prj s) pid.
Proof. intros L. exact (lok_run _ _ _ _ L). Qed.
Lemma lstate_booted_reserved : reserved (lg lstate_booted) [10; 10; 10].
Proof. split; [reflexivity|repeat first [apply Forall_nil_2|apply Forall_cons_2; [unfold MAXOPBLOCKS; lia|]]|apply Z.leb_le; reflexivity|apply Z.leb_le; reflexivity]. Qed.
#[global] Opaque lstate_booted log_demo.

Lemma commit_full_panics_witness : commit (log_demo 30) = Panic "bget: no buffers".
Proof.
  destruct (log_demo_ok 30) as (A & L & _); [lia|].
  apply (commit_full_panics 2 (log_demo 30) A (seqZ 50 30) 7).
  - lia.
  - reflexivity.
  - exact L.
  - reflexivity.
Defined.

Lemma end_op_spec_witness :
  exists A s' A' l', end_op (log_demo 1) = Ok tt s' /\ log_inv 2 s' A' l' 7 /\
    lg_outstanding (lg s') = lg_outstanding (lg (log_demo 1)) - 1 /\ lg_committing (lg s') = 0 /\
    (forall b, home 2 b -> av A' b = av A b) /\
    (if decide (lg_outstanding (lg (log_demo 1)) = 1) then
       l' = [] /\ forall b, home 2 b -> dsk (lg_blk s') b = av A b
     else l' = seqZ 50 1 /\ dsk (lg_blk s') = dsk (lg_blk (log_demo 1))).
Proof.
  destruct (log_demo_ok 1) as (A & L & _ & O & C); [lia|]. exists A.
  apply (end_op_spec 2 (log_demo 1) A (seqZ 50 1) 7).
  - lia.
  - reflexivity.
  - exact L.
  - by apply Nat.ltb_lt.
  - rewrite O. lia.
  - exact C.
Defined.

Lemma begin_op_reserves_witness :
  if begin_fits (lg lstate_booted) then
    exists s', begin_op lstate_booted = Ok tt s' /\
      reserved (lg s') [MAXOPBLOCKS; 10; 10; 10] /\ lg_blk s' = lg_blk lstate_booted
  else
    exists s1 k i p, begin_op lstate_booted = Swtch s1 k /\ lg s1 = lg lstate_booted /\
      cur (prj lstate_booted) = Some i /\
      procs (prj s1) !! i = Some p /\ p_state p = SLEEPING /\ p_chan p = ChLog.
Proof.
  apply (begin_op_reserves lstate_booted [10; 10; 10] 7).
  - exact (lok_running _ _ _ _ (li_ok _ _ _ _ _ lstate_booted_inv)).
  - exact lstate_booted_reserved.
  - by apply Nat.ltb_lt.
Defined.

(** Block 5, read and locked by process 7, with a log at block 100. *)
Definition lstate_read : lstate :=
  mklstate blk_read (mklogst 100 1 0 ROOTDEV 0 (replicate (Z.to_nat LOGBLOCKS) 0)).

Lemma log_write_reserved_witness :
  exists i s' r' A', log_write i lstate_read = Ok tt s' /\ binv (lg_blk s') A' /\
    reserved (lg s') ([] ++ r' :: []) /\ 10 - 1 <= r' <= 10 /\
    (forall c, av A' c = av (c_take 7 5 (fresh_cache (dsk blk_boot))) c /\
               al A' c = al (c_take 7 5 (fresh_cache (dsk blk_boot))) c) /\
    (if decide (5 ∈ []) then logged (lg s') [] /\ ar A' 5 = 1
     else logged (lg s') ([] ++ [5]) /\ good_log 100 ([] ++ [5]) /\ ar A' 5 = 1 + 1).
Proof.
  destruct blk_read_ok as (i & _ & O & H). destruct blk_booted_ok as (_ & _ & R & _).
  exists i. apply (log_write_reserved 100 lstate_read
    (c_take 7 5 (fresh_cache (dsk blk_boot))) [] 7 i 5 [] 10 []).
  - split; [exact (bo_inv _ _ _ _ _ O)| |reflexivity|reflexivity].
    eapply bop_running; [exact O|]. rewrite R. apply two_procs_running.
  - apply logged_nil. reflexivity.
  - apply good_nil.
  - reflexivity.
  - split; [reflexivity|repeat first [apply Forall_nil_2|apply Forall_cons_2; [unfold MAXOPBLOCKS; lia|]]|apply Z.leb_le; reflexivity|apply Z.leb_le; reflexivity].
  - lia.
  - exact H.
  - reflexivity.
  - reflexivity.
  - unfold home. lia.
  - lia.
Defined.
