(* ===== verification/LogCrash.v ===== *)
(** * Crash safety of the log

    Commit and recovery seen across crashes: whatever prefix of the writes of
    a commit reached the disk and however often recovery is interrupted,
    recovery ends with all of the transaction or with none of it. *)

From stdpp Require Import base numbers strings decidable sets gmap functions list.
From S2P Require Import Prelude.
From S2P Require Import CString.
From S2P Require Import Riscv.
From S2P Require Import Sched.
From S2P Require Import Kalloc.
From S2P Require Import Sleeplock.
From S2P Require Import Bio.
From S2P Require Import Log.
From S2P Require Import LogOps.
Open Scope Z_scope.
Open Scope xv6_scope.

(** What restarting on disk [d] can lead to: a recovery runs to its end, or
    is cut off after some of its writes and started again. *)
Inductive recovered (start : Z) : disk -> disk -> Prop :=
| recovered_done d pid s s' :
    booted d pid s -> initlog ROOTDEV start s = Ok tt s' ->
    recovered start d (dsk (lg_blk s'))
| recovered_crash d pid s s' w k d' :
    booted d pid s -> initlog ROOTDEV start s = Ok tt s' ->
    wtrace (lg_blk s') = wtrace (lg_blk s) ++ w ->
    recovered start (apply_writes d (take k w)) d' ->
    recovered start d d'.

(** ** Crash safety *)

Lemma recovered_to start d H d' :
  0 <= start /\ start + LOGBLOCKS < 2 ^ 31 -> recovers_to start d H ->
  recovered start d d' -> forall b, home start b -> d' b = H b.
Proof.
  intros Hs Rt Rc. induction Rc as [d pid s s' B E|d pid s s' w k d' B E W _ IH].
  - destruct (initlog_ok start Hs d H pid s) as (bs & g & A' & E' & O & _); [done|done|].
    rewrite E in E'. injection E' as ->. simpl.
    rewrite (br_dsk _ _ _ _ O), (bt_dsk _ _ _ B). apply Rt.
  - destruct (initlog_ok start Hs d H pid s) as (bs & g & A' & E' & O & _); [done|done|].
    rewrite E in E'. injection E' as ->. simpl in W. rewrite (br_trace _ _ _ _ O) in W.
    apply app_inv_head in W. subst w. by apply IH, recover_prefix.
Qed.

(** A crash during the writes of a commit leaves the old blocks or the new
    ones. *)
Lemma commit_recovers start d V l k d' :
  0 <= start /\ start + LOGBLOCKS < 2 ^ 31 -> (forall b, length (d b) = bsize) -> (forall b, length (V b) = bsize) ->
  good_log start l -> hb_n (d start) = 0 -> (forall b, home start b -> b ∉ l -> d b = V b) ->
  recovered start (apply_writes d (take k (commit_writes start V l (d start)))) d' ->
  (forall b, home start b -> d' b = d b) \/ (forall b, home start b -> d' b = V b).
Proof.
  intros Hs Hd HV G H0 Hc Rc.
  destruct (commit_prefix start d V l) with (k := k) as [Rt|Rt]; try done; [left|right]; by eapply recovered_to.
Qed.

(** C9: crash atomicity.  Let the transaction hold the blocks [l],
    fewer than there are buffers, with the contents [av A] in the cache, and
    let the machine crash after any number [k] of the writes of [commit];
    let it then restart and recover, crashing during recovery any number of
    times.  Once a recovery completes, the blocks outside the log area are
    either all as they were on disk before the commit or all as the
    transaction left them. *)
Theorem commit_crash_atomic start s A pid l :
  0 <= start -> start + LOGBLOCKS < 2 ^ 31 ->
  lok start s A pid -> quiet l A -> good_log start l -> (length l < NBUF)%nat ->
  logged (lg s) l -> l <> [] ->
  (forall b, length (dsk (lg_blk s) b) = bsize) -> hb_n (dsk (lg_blk s) start) = 0 ->
  exists s' w, commit s = Ok tt s' /\ wtrace (lg_blk s') = wtrace (lg_blk s) ++ w /\
    dsk (lg_blk s') = apply_writes (dsk (lg_blk s)) w /\
    (forall b, home start b -> dsk (lg_blk s') b = av A b) /\
    forall k d', recovered start (apply_writes (dsk (lg_blk s)) (take k w)) d' ->
      (forall b, home start b -> d' b = dsk (lg_blk s) b) \/
      (forall b, home start b -> d' b = av A b).
Proof.
  intros Hs1 Hs2 K Q G Hlen Hl Hne Hd H0. pose proof (lok_inv _ _ _ _ K) as I.
  destruct (commit_ok start (conj Hs1 Hs2) s A pid l) as (bs & A' & E & O & Q' & V'); try done.
  eexists _, _. split_and!; [exact E|apply O|apply O| |].
  - intros b Hb. simpl. rewrite (quiet_clean _ A' [] b); [by apply V'|apply O|done|set_solver].
  - assert (Hns : start ∉ l).
    { intros Hx. pose proof (gl_home _ _ G) as Hg. rewrite Forall_forall in Hg.
      by apply (start_not_home start), Hg. }
    rewrite <- (quiet_clean _ _ _ start I Q Hns). intros k d' Rc.
    eapply commit_recovers; [done|done|apply (bi_len _ _ I)|done|done| |exact Rc].
    intros b _ Hb. by apply (quiet_clean _ _ l).
Qed.

(** recovery.  From any disk [d] whose log header is readable
    (the state a crash leaves), [initlog] succeeds: it installs exactly the
    blocks the header names, clears the header, and leaves the log empty
    and ready. *)
Theorem initlog_recovers start d H pid s :
  0 <= start -> start + LOGBLOCKS < 2 ^ 31 -> booted d pid s -> recovers_to start d H ->
  exists s', initlog ROOTDEV start s = Ok tt s' /\ lh_n (lg s') = 0 /\
    hb_n (dsk (lg_blk s') start) = 0 /\
    wtrace (lg_blk s') = wtrace (lg_blk s) ++ recover_writes start d /\
    forall b, home start b -> dsk (lg_blk s') b = H b.
Proof.
  intros Hs1 Hs2 B Rt.
  destruct (initlog_ok start (conj Hs1 Hs2) d H pid s) as (bs & g & A' & E & O & Q & N & _);
    [done|done|].
  exists (mklstate bs g). split_and!; [done|done| |apply O|]; simpl;
    rewrite (br_dsk _ _ _ _ O), (bt_dsk _ _ _ B).
  - unfold recover_writes. rewrite apply_writes_app. simpl. rewrite fn_insert_eq.
    apply (hdr_spec []); [done|apply Rt|constructor].
  - apply Rt.
Qed.

(** ** The theorems on a concrete machine *)

Lemma recovers_to_witness_disk : recovers_to 2 (dsk blk_boot) (dsk blk_boot).
Proof.
  apply recovers_to_empty; [apply zero_block_len|by vm_compute|done].
Qed.

Lemma initlog_recovers_witness :
  exists s', initlog ROOTDEV 2 lstate_booted = Ok tt s' /\ lh_n (lg s') = 0 /\
    hb_n (dsk (lg_blk s') 2) = 0 /\
    wtrace (lg_blk s') = wtrace (lg_blk lstate_booted) ++ recover_writes 2 (dsk blk_boot) /\
    forall b, home 2 b -> dsk (lg_blk s') b = dsk blk_boot b.
Proof.
  apply (initlog_recovers 2 (dsk blk_boot) (dsk blk_boot) 7 lstate_booted).
  - lia.
  - reflexivity.
  - exact lstate_booted_booted.
  - exact recovers_to_witness_disk.
Defined.

Lemma commit_crash_atomic_witness :
  exists A s' w, commit (log_demo 2) = Ok tt s' /\
    wtrace (lg_blk s') = wtrace (lg_blk (log_demo 2)) ++ w /\
    dsk (lg_blk s') = apply_writes (dsk (lg_blk (log_demo 2))) w /\
    (forall b, home 2 b -> dsk (lg_blk s') b = av A b) /\
    forall k d', recovered 2 (apply_writes (dsk (lg_blk (log_demo 2))) (take k w)) d' ->
      (forall b, home 2 b -> d' b = dsk (lg_blk (log_demo 2)) b) \/
      (forall b, home 2 b -> d' b = av A b).
Proof.
  destruct (log_demo_ok 2) as (A & [K Q G Hl _] & D & _); [lia|]. exists A.
  apply (commit_crash_atomic 2 (log_demo 2) A 7 (seqZ 50 2)).
  - lia.
  - reflexivity.
  - exact K.
  - exact Q.
  - exact G.
  - by apply Nat.ltb_lt.
  - exact Hl.
  - discriminate.
  - intros b. rewrite D. apply zero_block_len.
  - rewrite D. by vm_compute.
Defined.
