(* ===== verification/Fs.v ===== *)
(** * The file system, [kernel/fs.c]

    Blocks, inodes, file contents, directories and path names, over the
    transactions of [Log.v] and the user memory of [Vm.v].  A pointer to an
    in-memory inode is an index into [itable], [None] the null pointer.  A
    data block is a list of bytes; the structures on disk ([struct
    superblock], [struct dinode], [struct dirent]) are read from it and
    stored into it at their offsets.

    The destination of [readi] is a user address, a physical address or a
    variable of the kernel ([Local]), whose new bytes are part of the result;
    the source of [writei] is a user address or the bytes of a kernel
    variable. *)

From stdpp Require Import base numbers strings decidable sets gmap functions list.
From S2P Require Import Prelude.
From S2P Require Import CString.
From S2P Require Import Riscv.
From S2P Require Import Sched.
From S2P Require Import Kalloc.
From S2P Require Import Vm.
From S2P Require Import Sleeplock.
From S2P Require Import Bio.
From S2P Require Import Log.
Open Scope Z_scope.
Open Scope xv6_scope.

(** ** On-disk format, [kernel/fs.h] and [kernel/stat.h] *)

Definition ROOTINO : Z := 1.
Definition FSMAGIC : Z := 0x10203040.
Definition NDIRECT : Z := 12.
Definition NINDIRECT : Z := BSIZE / 4.
Definition MAXFILE : Z := NDIRECT + NINDIRECT.
Definition sizeof_dinode : Z := 64.
(** Inodes per block, bitmap bits per block. *)
Definition IPB : Z := BSIZE / sizeof_dinode.
Definition BPB : Z := BSIZE * 8.
Definition DIRSIZ : nat := 14.
Definition T_DIR : Z := 1.
Definition T_FILE : Z := 2.
Definition T_DEVICE : Z := 3.
Definition T_SYMLINK : Z := 4.

Record superblock : Type := mksuperblock {
  sb_magic : Z;  (** must be FSMAGIC *)
  sb_size : Z;  (** size of file system image (blocks) *)
  sb_nblocks : Z;  (** number of data blocks *)
  sb_ninodes : Z;  (** number of inodes *)
  sb_nlog : Z;  (** number of log blocks *)
  sb_logstart : Z;  (** block number of first log block *)
  sb_inodestart : Z;  (** block number of first inode block *)
  sb_bmapstart : Z;  (** block number of first free map block *)
}.
#[export] Instance set_sb_magic : Setter sb_magic := fun v r => mksuperblock v (sb_size r) (sb_nblocks r) (sb_ninodes r) (sb_nlog r) (sb_logstart r) (sb_inodestart r) (sb_bmapstart r).
#[export] Instance set_sb_size : Setter sb_size := fun v r => mksuperblock (sb_magic r) v (sb_nblocks r) (sb_ninodes r) (sb_nlog r) (sb_logstart r) (sb_inodestart r) (sb_bmapstart r).
#[export] Instance set_sb_nblocks : Setter sb_nblocks := fun v r => mksuperblock (sb_magic r) (sb_size r) v (sb_ninodes r) (sb_nlog r) (sb_logstart r) (sb_inodestart r) (sb_bmapstart r).
#[export] Instance set_sb_ninodes : Setter sb_ninodes := fun v r => mksuperblock (sb_magic r) (sb_size r) (sb_nblocks r) v (sb_nlog r) (sb_logstart r) (sb_inodestart r) (sb_bmapstart r).
#[export] Instance set_sb_nlog : Setter sb_nlog := fun v r => mksuperblock (sb_magic r) (sb_size r) (sb_nblocks r) (sb_ninodes r) v (sb_logstart r) (sb_inodestart r) (sb_bmapstart r).
#[export] Instance set_sb_logstart : Setter sb_logstart := fun v r => mksuperblock (sb_magic r) (sb_size r) (sb_nblocks r) (sb_ninodes r) (sb_nlog r) v (sb_inodestart r) (sb_bmapstart r).
#[export] Instance set_sb_inodestart : Setter sb_inodestart := fun v r => mksuperblock (sb_magic r) (sb_size r) (sb_nblocks r) (sb_ninodes r) (sb_nlog r) (sb_logstart r) v (sb_bmapstart r).
#[export] Instance set_sb_bmapstart : Setter sb_bmapstart := fun v r => mksuperblock (sb_magic r) (sb_size r) (sb_nblocks r) (sb_ninodes r) (sb_nlog r) (sb_logstart r) (sb_inodestart r) v.

(** Block containing inode [i]; block of the free map containing the bit for
    block [b]. *)
Definition IBLOCK (i : Z) (sb : superblock) : Z := u32 (i / IPB + sb_inodestart sb).
Definition BBLOCK (b : Z) (sb : superblock) : Z := u32 (b / BPB + sb_bmapstart sb).

Definition dec_sb (d : list Z) : superblock :=
  mksuperblock (get_le 4 0 d) (get_le 4 4 d) (get_le 4 8 d) (get_le 4 12 d)
    (get_le 4 16 d) (get_le 4 20 d) (get_le 4 24 d) (get_le 4 28 d).

(** [struct dinode], at offset [off] of a block. *)
Record dinode : Type := mkdinode {
  di_type : Z;
  di_major : Z;
  di_minor : Z;
  di_nlink : Z;
  di_size : Z;
  di_addrs : list Z;  (** data block addresses *)
}.
#[export] Instance set_di_type : Setter di_type := fun v r => mkdinode v (di_major r) (di_minor r) (di_nlink r) (di_size r) (di_addrs r).
#[export] Instance set_di_major : Setter di_major := fun v r => mkdinode (di_type r) v (di_minor r) (di_nlink r) (di_size r) (di_addrs r).
#[export] Instance set_di_minor : Setter di_minor := fun v r => mkdinode (di_type r) (di_major r) v (di_nlink r) (di_size r) (di_addrs r).
#[export] Instance set_di_nlink : Setter di_nlink := fun v r => mkdinode (di_type r) (di_major r) (di_minor r) v (di_size r) (di_addrs r).
#[export] Instance set_di_size : Setter di_size := fun v r => mkdinode (di_type r) (di_major r) (di_minor r) (di_nlink r) v (di_addrs r).
#[export] Instance set_di_addrs : Setter di_addrs := fun v r => mkdinode (di_type r) (di_major r) (di_minor r) (di_nlink r) (di_size r) v.

Definition naddrs : nat := Z.to_nat NDIRECT + 1.
Definition dinode_off (inum : Z) : nat := Z.to_nat (inum mod IPB * sizeof_dinode).
Definition get_short (off : nat) (d : list Z) : Z := s16 (get_le 2 off d).
Definition get_addrs (off : nat) (d : list Z) : list Z :=
  (fun k => get_le 4 (off + 4 * k) d) <$> seq 0 naddrs.
Fixpoint put_addrs (off : nat) (l : list Z) (d : list Z) : list Z :=
  match l with
  | [] => d
  | a :: l' => put_addrs (off + 4) l' (put_le 4 off a d)
  end.
Definition get_dinode (off : nat) (d : list Z) : dinode :=
  mkdinode (get_short off d) (get_short (off + 2) d) (get_short (off + 4) d)
    (get_short (off + 6) d) (get_le 4 (off + 8) d) (get_addrs (off + 12) d).
Definition put_dinode (off : nat) (di : dinode) (d : list Z) : list Z :=
  put_addrs (off + 12) (di_addrs di)
    (put_le 4 (off + 8) (di_size di)
      (put_le 2 (off + 6) (di_nlink di)
        (put_le 2 (off + 4) (di_minor di)
          (put_le 2 (off + 2) (di_major di)
            (put_le 2 off (di_type di) d))))).

(** ** In-memory inodes, [kernel/file.h] *)

Record inode : Type := mkinode {
  i_dev : Z;
  i_inum : Z;
  i_ref : Z;  (** reference count *)
  i_lock : sleeplock;  (** protects everything below here *)
  i_valid : Z;  (** inode has been read from disk? *)
  i_type : Z;
  i_major : Z;
  i_minor : Z;
  i_nlink : Z;
  i_size : Z;
  i_addrs : list Z;
}.
#[export] Instance set_i_dev : Setter i_dev := fun v r => mkinode v (i_inum r) (i_ref r) (i_lock r) (i_valid r) (i_type r) (i_major r) (i_minor r) (i_nlink r) (i_size r) (i_addrs r).
#[export] Instance set_i_inum : Setter i_inum := fun v r => mkinode (i_dev r) v (i_ref r) (i_lock r) (i_valid r) (i_type r) (i_major r) (i_minor r) (i_nlink r) (i_size r) (i_addrs r).
#[export] Instance set_i_ref : Setter i_ref := fun v r => mkinode (i_dev r) (i_inum r) v (i_lock r) (i_valid r) (i_type r) (i_major r) (i_minor r) (i_nlink r) (i_size r) (i_addrs r).
#[export] Instance set_i_lock : Setter i_lock := fun v r => mkinode (i_dev r) (i_inum r) (i_ref r) v (i_valid r) (i_type r) (i_major r) (i_minor r) (i_nlink r) (i_size r) (i_addrs r).
#[export] Instance set_i_valid : Setter i_valid := fun v r => mkinode (i_dev r) (i_inum r) (i_ref r) (i_lock r) v (i_type r) (i_major r) (i_minor r) (i_nlink r) (i_size r) (i_addrs r).
#[export] Instance set_i_type : Setter i_type := fun v r => mkinode (i_dev r) (i_inum r) (i_ref r) (i_lock r) (i_valid r) v (i_major r) (i_minor r) (i_nlink r) (i_size r) (i_addrs r).
#[export] Instance set_i_major : Setter i_major := fun v r => mkinode (i_dev r) (i_inum r) (i_ref r) (i_lock r) (i_valid r) (i_type r) v (i_minor r) (i_nlink r) (i_size r) (i_addrs r).
#[export] Instance set_i_minor : Setter i_minor := fun v r => mkinode (i_dev r) (i_inum r) (i_ref r) (i_lock r) (i_valid r) (i_type r) (i_major r) v (i_nlink r) (i_size r) (i_addrs r).
#[export] Instance set_i_nlink : Setter i_nlink := fun v r => mkinode (i_dev r) (i_inum r) (i_ref r) (i_lock r) (i_valid r) (i_type r) (i_major r) (i_minor r) v (i_size r) (i_addrs r).
#[export] Instance set_i_size : Setter i_size := fun v r => mkinode (i_dev r) (i_inum r) (i_ref r) (i_lock r) (i_valid r) (i_type r) (i_major r) (i_minor r) (i_nlink r) v (i_addrs r).
#[export] Instance set_i_addrs : Setter i_addrs := fun v r => mkinode (i_dev r) (i_inum r) (i_ref r) (i_lock r) (i_valid r) (i_type r) (i_major r) (i_minor r) (i_nlink r) (i_size r) v.

Definition blank_inode : inode :=
  mkinode 0 0 0 (mksleeplock 0 0) 0 0 0 0 0 0 (replicate naddrs 0).
#[export] Instance inode_inhabited : Inhabited inode := populate blank_inode.

Record fs : Type := mkfs {
  fs_log : lstate;
  sb : superblock;
  itable : list inode;
}.
#[export] Instance set_fs_log : Setter fs_log := fun v r => mkfs v (sb r) (itable r).
#[export] Instance set_sb : Setter sb := fun v r => mkfs (fs_log r) v (itable r).
#[export] Instance set_itable : Setter itable := fun v r => mkfs (fs_log r) (sb r) v.

#[export] Instance embed_lstate_fs : Embed lstate fs := {|
  prj := fs_log;
  inj := fun l s => s <| fs_log := l |>;
|}.
#[export] Instance embed_lstate_fs_laws : EmbedLaws lstate fs.
Proof. by split; intros; try destruct t. Qed.
#[export] Instance embed_blk_fs : Embed blk fs := {|
  prj := fun s => lg_blk (fs_log s);
  inj := fun b s => s <| fs_log := fs_log s <| lg_blk := b |> |>;
|}.
#[export] Instance embed_blk_fs_laws : EmbedLaws blk fs.
Proof. split; intros; try destruct t as [[]]; done. Qed.
#[export] Instance embed_mm_fs : Embed mm fs := {|
  prj := fun s => blk_mm (lg_blk (fs_log s));
  inj := fun m s => s <| fs_log := fs_log s <| lg_blk := lg_blk (fs_log s) <| blk_mm := m |> |> |>;
|}.
#[export] Instance embed_mm_fs_laws : EmbedLaws mm fs.
Proof. split; intros; try destruct t as [[[]]]; done. Qed.
#[export] Instance embed_mach_fs : Embed mach fs := {|
  prj := fun s => mm_mach (blk_mm (lg_blk (fs_log s)));
  inj := fun m s =>
    s <| fs_log := fs_log s <| lg_blk := lg_blk (fs_log s)
           <| blk_mm := blk_mm (lg_blk (fs_log s)) <| mm_mach := m |> |> |> |>;
|}.
#[export] Instance embed_mach_fs_laws : EmbedLaws mach fs.
Proof. split; intros; try destruct t as [[[[]]]]; done. Qed.

Definition get_inode (i : nat) : M fs inode := gets (fun s => itable s !!! i).
Definition upd_inode (i : nat) (f : inode -> inode) : M fs unit :=
  modify (fun s => s <| itable := <[i := f (itable s !!! i)]> (itable s) |>).
Definition get_sb : M fs superblock := gets sb.
(** The bytes of buffer [bp], and a store into them. *)
Definition buf_data (bp : nat) : M fs (list Z) := b <- lift (get_buf bp) ;; ret (b_data b).
Definition upd_data (bp : nat) (f : list Z -> list Z) : M fs unit :=
  lift (upd_buf bp (fun b => b <| b_data := f (b_data b) |>)).

Definition inode_lock (i : nat) : sleepref fs := mksleepref fs
  (LkInodeSleep i) (ChInodeLock i) (fun s => i_lock (itable s !!! i))
  (fun l s => s <| itable := <[i := (itable s !!! i) <| i_lock := l |>]> (itable s) |>).

(** ** Blocks *)

Definition readsb (dev : Z) : M fs unit :=
  bp <- lift (bread dev 1) ;;
  d <- buf_data bp ;;
  modify (fun s => s <| sb := dec_sb d |>) ;;
  lift (brelse bp).

Definition bzero (dev bno : Z) : M fs unit :=
  bp <- lift (bread dev bno) ;;
  upd_data bp (fun _ => zero_block) ;;
  lift (log_write bp) ;;
  lift (brelse bp).

(** The bit of block [bi] in a block of the free map. *)
Definition bit_clear (d : list Z) (bi : Z) : bool :=
  Z.land (d !!! Z.to_nat (bi / 8)) (Z.shiftl 1 (bi mod 8)) =? 0.
Definition bit_set (bi : Z) (d : list Z) : list Z :=
  <[Z.to_nat (bi / 8) := u8 (Z.lor (d !!! Z.to_nat (bi / 8)) (Z.shiftl 1 (bi mod 8)))]> d.
Definition bit_reset (bi : Z) (d : list Z) : list Z :=
  <[Z.to_nat (bi / 8) :=
      u8 (Z.land (d !!! Z.to_nat (bi / 8)) (Z.lnot (Z.shiftl 1 (bi mod 8))))]> d.

(** The inner loop of [balloc]: the first clear bit from [bi] on. *)
Fixpoint balloc_scan (fuel : nat) (d : list Z) (b bi size : Z) : option Z :=
  match fuel with
  | O => None
  | S fuel' =>
    if (bi <? BPB) && (b + bi <? size) then
      if bit_clear d bi then Some bi else balloc_scan fuel' d b (bi + 1) size
    else None
  end.

Fixpoint balloc_loop (fuel : nat) (dev b : Z) : M fs Z :=
  match fuel with
  | O => out_of_fuel
  | S fuel' =>
    sb <- get_sb ;;
    if b <? sb_size sb then
      bp <- lift (bread dev (BBLOCK b sb)) ;;
      d <- buf_data bp ;;
      match balloc_scan (S (Z.to_nat BPB)) d b 0 (sb_size sb) with
      | Some bi =>
        upd_data bp (bit_set bi) ;;
        lift (log_write bp) ;;
        lift (brelse bp) ;;
        bzero dev (b + bi) ;;
        ret (b + bi)
      | None =>
        lift (brelse bp) ;;
        balloc_loop fuel' dev (b + BPB)
      end
    else
      lift (kprintf "balloc: out of blocks") ;;
      ret 0
  end.
Definition balloc (dev : Z) : M fs Z :=
  sb <- get_sb ;; balloc_loop (S (Z.to_nat (sb_size sb / BPB + 1))) dev 0.

Definition bfree (dev b : Z) : M fs unit :=
  sb <- get_sb ;;
  bp <- lift (bread dev (BBLOCK b sb)) ;;
  let bi := b mod BPB in
  d <- buf_data bp ;;
  if bit_clear d bi then panic "freeing free block"
  else
    upd_data bp (bit_reset bi) ;;
    lift (log_write bp) ;;
    lift (brelse bp).

(** ** Inodes *)

Definition iinit : M fs unit :=
  mapM_ (fun i => initsleeplock (inode_lock i)) (seq 0 NINODE).

(** The loop of [iget]: the entry for the inode if there is one, and the
    first unused entry. *)
Fixpoint iget_scan (l : list inode) (i : nat) (empty : option nat) (dev inum : Z)
    : option nat * option nat :=
  match l with
  | [] => (None, empty)
  | ip :: l' =>
    if (0 <? i_ref ip) && (i_dev ip =? dev) && (i_inum ip =? inum) then (Some i, empty)
    else
      let empty := match empty with
                   | None => if i_ref ip =? 0 then Some i else None
                   | Some _ => empty
                   end in
      iget_scan l' (S i) empty dev inum
  end.

Definition iget (dev inum : Z) : M fs nat :=
  lift (acquire LkItable) ;;
  t <- gets itable ;;
  match iget_scan t 0 None dev inum with
  | (Some i, _) =>
    upd_inode i (fun ip => ip <| i_ref := s32 (i_ref ip + 1) |>) ;;
    lift (release LkItable) ;;
    ret i
  | (None, Some i) =>
    upd_inode i (fun ip => ip <| i_dev := dev |> <| i_inum := inum |>
                              <| i_ref := 1 |> <| i_valid := 0 |>) ;;
    lift (release LkItable) ;;
    ret i
  | (None, None) => panic "iget: no inodes"
  end.

Fixpoint ialloc_loop (fuel : nat) (dev type inum : Z) : M fs (option nat) :=
  match fuel with
  | O => out_of_fuel
  | S fuel' =>
    sb <- get_sb ;;
    if inum <? sb_ninodes sb then
      bp <- lift (bread dev (IBLOCK inum sb)) ;;
      d <- buf_data bp ;;
      let off := dinode_off inum in
      if get_short off d =? 0 then
        upd_data bp (splice off (replicate (Z.to_nat sizeof_dinode) 0)) ;;
        upd_data bp (put_le 2 off type) ;;
        lift (log_write bp) ;;
        lift (brelse bp) ;;
        i <- iget dev inum ;;
        ret (Some i)
      else
        lift (brelse bp) ;;
        ialloc_loop fuel' dev type (inum + 1)
    else
      lift (kprintf "ialloc: no inodes") ;;
      ret None
  end.
Definition ialloc (dev type : Z) : M fs (option nat) :=
  sb <- get_sb ;; ialloc_loop (S (Z.to_nat (sb_ninodes sb))) dev type 1.

Definition to_dinode (ip : inode) : dinode :=
  mkdinode (i_type ip) (i_major ip) (i_minor ip) (i_nlink ip) (i_size ip) (i_addrs ip).

Definition iupdate (i : nat) : M fs unit :=
  ip <- get_inode i ;;
  sb <- get_sb ;;
  bp <- lift (bread (i_dev ip) (IBLOCK (i_inum ip) sb)) ;;
  upd_data bp (put_dinode (dinode_off (i_inum ip)) (to_dinode ip)) ;;
  lift (log_write bp) ;;
  lift (brelse bp).

Definition idup (i : nat) : M fs nat :=
  lift (acquire LkItable) ;;
  upd_inode i (fun ip => ip <| i_ref := s32 (i_ref ip + 1) |>) ;;
  lift (release LkItable) ;;
  ret i.

Definition ilock (p : option nat) : M fs unit :=
  match p with
  | None => panic "ilock"
  | Some i =>
    ip <- get_inode i ;;
    if i_ref ip <? 1 then panic "ilock"
    else
      acquiresleep (inode_lock i) ;;
      ip <- get_inode i ;;
      when (i_valid ip =? 0)
        (sb <- get_sb ;;
         bp <- lift (bread (i_dev ip) (IBLOCK (i_inum ip) sb)) ;;
         d <- buf_data bp ;;
         let di := get_dinode (dinode_off (i_inum ip)) d in
         upd_inode i (fun ip =>
           ip <| i_type := di_type di |> <| i_major := di_major di |> <| i_minor := di_minor di |>
              <| i_nlink := di_nlink di |> <| i_size := di_size di |> <| i_addrs := di_addrs di |>) ;;
         lift (brelse bp) ;;
         upd_inode i (fun ip => ip <| i_valid := 1 |>) ;;
         ip <- get_inode i ;;
         when (i_type ip =? 0) (panic "ilock: no type"))
  end.

Definition iunlock (p : option nat) : M fs unit :=
  match p with
  | None => panic "iunlock"
  | Some i =>
    h <- holdingsleep (inode_lock i) ;;
    ip <- get_inode i ;;
    if negb h || (i_ref ip <? 1) then panic "iunlock"
    else releasesleep (inode_lock i)
  end.

(** ** Inode contents *)

(** [ip->addrs[k]] and a store into it. *)
Definition addr_of (ip : inode) (k : Z) : Z := i_addrs ip !!! Z.to_nat k.
Definition set_addr (i : nat) (k a : Z) : M fs unit :=
  upd_inode i (fun ip => ip <| i_addrs := <[Z.to_nat k := a]> (i_addrs ip) |>).

Definition bmap (i : nat) (bn : Z) : M fs Z :=
  ip <- get_inode i ;;
  if bn <? NDIRECT then
    if addr_of ip bn =? 0 then
      addr <- balloc (i_dev ip) ;;
      if addr =? 0 then ret 0
      else set_addr i bn addr ;; ret addr
    else ret (addr_of ip bn)
  else
    let bn := bn - NDIRECT in
    if bn <? NINDIRECT then
      addr <- (if addr_of ip NDIRECT =? 0 then
                 addr <- balloc (i_dev ip) ;;
                 when (negb (addr =? 0)) (set_addr i NDIRECT addr) ;;
                 ret addr
               else ret (addr_of ip NDIRECT)) ;;
      if addr =? 0 then ret 0
      else
        bp <- lift (bread (i_dev ip) addr) ;;
        d <- buf_data bp ;;
        let a := get_le 4 (4 * Z.to_nat bn) d in
        addr <- (if a =? 0 then
                   addr <- balloc (i_dev ip) ;;
                   when (negb (addr =? 0))
                     (upd_data bp (put_le 4 (4 * Z.to_nat bn) addr) ;; lift (log_write bp)) ;;
                   ret addr
                 else ret a) ;;
        lift (brelse bp) ;;
        ret addr
    else panic "bmap: out of range".

Definition itrunc (i : nat) : M fs unit :=
  mapM_ (fun k =>
    ip <- get_inode i ;;
    when (negb (addr_of ip k =? 0))
      (bfree (i_dev ip) (addr_of ip k) ;; set_addr i k 0)) (seqZ 0 NDIRECT) ;;
  ip <- get_inode i ;;
  when (negb (addr_of ip NDIRECT =? 0))
    (bp <- lift (bread (i_dev ip) (addr_of ip NDIRECT)) ;;
     mapM_ (fun j : nat =>
       d <- buf_data bp ;;
       let a := get_le 4 (4 * j) d in
       when (negb (a =? 0)) (bfree (i_dev ip) a)) (seq 0 (Z.to_nat NINDIRECT)) ;;
     lift (brelse bp) ;;
     bfree (i_dev ip) (addr_of ip NDIRECT) ;;
     set_addr i NDIRECT 0) ;;
  upd_inode i (fun ip => ip <| i_size := 0 |>) ;;
  iupdate i.

Definition iput (i : nat) : M fs unit :=
  lift (acquire LkItable) ;;
  ip <- get_inode i ;;
  when ((i_ref ip =? 1) && negb (i_valid ip =? 0) && (i_nlink ip =? 0))
    (acquiresleep (inode_lock i) ;;
     lift (release LkItable) ;;
     itrunc i ;;
     upd_inode i (fun ip => ip <| i_type := 0 |>) ;;
     iupdate i ;;
     upd_inode i (fun ip => ip <| i_valid := 0 |>) ;;
     releasesleep (inode_lock i) ;;
     lift (acquire LkItable)) ;;
  upd_inode i (fun ip => ip <| i_ref := s32 (i_ref ip - 1) |>) ;;
  lift (release LkItable).

Definition iunlockput (i : nat) : M fs unit := iunlock (Some i) ;; iput i.

(** One iteration of [ireclaim]. *)
Definition ireclaim_one (dev inum : Z) : M fs unit :=
  sb <- get_sb ;;
  bp <- lift (bread dev (IBLOCK inum sb)) ;;
  d <- buf_data bp ;;
  let di := get_dinode (dinode_off inum) d in
  o <- (if negb (di_type di =? 0) && (di_nlink di =? 0) then
          lift (kprintf "ireclaim: orphaned inode %d") ;;
          i <- iget dev inum ;;
          ret (Some i)
        else ret None) ;;
  lift (brelse bp) ;;
  match o with
  | None => ret tt
  | Some i =>
    lift begin_op ;;
    ilock (Some i) ;;
    iunlock (Some i) ;;
    iput i ;;
    lift end_op
  end.
Definition ireclaim (dev : Z) : M fs unit :=
  sb <- get_sb ;; mapM_ (ireclaim_one dev) (seqZ 1 (sb_ninodes sb - 1)).

Definition fsinit (dev : Z) : M fs unit :=
  readsb dev ;;
  sb <- get_sb ;;
  if negb (sb_magic sb =? FSMAGIC) then panic "invalid file system"
  else
    lift (initlog dev (sb_logstart sb)) ;;
    ireclaim dev.

Record stat : Type := mkstat {
  st_dev : Z;
  st_ino : Z;
  st_type : Z;
  st_nlink : Z;
  st_size : Z;
}.
#[export] Instance set_st_dev : Setter st_dev := fun v r => mkstat v (st_ino r) (st_type r) (st_nlink r) (st_size r).
#[export] Instance set_st_ino : Setter st_ino := fun v r => mkstat (st_dev r) v (st_type r) (st_nlink r) (st_size r).
#[export] Instance set_st_type : Setter st_type := fun v r => mkstat (st_dev r) (st_ino r) v (st_nlink r) (st_size r).
#[export] Instance set_st_nlink : Setter st_nlink := fun v r => mkstat (st_dev r) (st_ino r) (st_type r) v (st_size r).
#[export] Instance set_st_size : Setter st_size := fun v r => mkstat (st_dev r) (st_ino r) (st_type r) (st_nlink r) v.
Definition stati (i : nat) : M fs stat :=
  ip <- get_inode i ;;
  ret (mkstat (s32 (i_dev ip)) (i_inum ip) (i_type ip) (i_nlink ip) (i_size ip)).

(** ** Reading and writing *)

(** The loop of [readi]; [acc] are the bytes delivered so far. *)
Fixpoint readi_loop (fuel : nat) (i : nat) (dst : place) (tot off n : Z) (acc : list Z)
    : M fs (Z * list Z) :=
  match fuel with
  | O => out_of_fuel
  | S fuel' =>
    if tot <? n then
      ip <- get_inode i ;;
      addr <- bmap i (off / BSIZE) ;;
      if addr =? 0 then ret (s32 tot, acc)
      else
        bp <- lift (bread (i_dev ip) addr) ;;
        let m := Z.min (n - tot) (BSIZE - off mod BSIZE) in
        d <- buf_data bp ;;
        let bs := take (Z.to_nat m) (drop (Z.to_nat (off mod BSIZE)) d) in
        r <- lift (either_copyout dst bs) ;;
        if r =? -1 then lift (brelse bp) ;; ret (-1, acc)
        else
          lift (brelse bp) ;;
          readi_loop fuel' i (place_add dst m) (tot + m) (u32 (off + m)) n (acc ++ bs)
    else ret (s32 tot, acc)
  end.
Definition readi (i : nat) (dst : place) (off n : Z) : M fs (Z * list Z) :=
  ip <- get_inode i ;;
  if (i_size ip <? off) || (u32 (off + n) <? off) then ret (0, [])
  else
    let n := if i_size ip <? u32 (off + n) then i_size ip - off else n in
    readi_loop (S (S (Z.to_nat (n / BSIZE + 1)))) i dst 0 off n [].

(** The loop of [writei] gives [tot] and [off] when it ends.  What
    [either_copyin] stored before it failed stays in the buffer. *)
Fixpoint writei_loop (fuel : nat) (i : nat) (src : source) (tot off n : Z) : M fs (Z * Z) :=
  match fuel with
  | O => out_of_fuel
  | S fuel' =>
    if tot <? n then
      ip <- get_inode i ;;
      addr <- bmap i (off / BSIZE) ;;
      if addr =? 0 then ret (tot, off)
      else
        bp <- lift (bread (i_dev ip) addr) ;;
        let m := Z.min (n - tot) (BSIZE - off mod BSIZE) in
        '(r, bs) <- lift (either_copyin src (Z.to_nat m)) ;;
        upd_data bp (splice (Z.to_nat (off mod BSIZE)) bs) ;;
        if r =? -1 then lift (brelse bp) ;; ret (tot, off)
        else
          lift (log_write bp) ;;
          lift (brelse bp) ;;
          writei_loop fuel' i (source_add src m) (tot + m) (u32 (off + m)) n
    else ret (tot, off)
  end.
Definition writei (i : nat) (src : source) (off n : Z) : M fs Z :=
  ip <- get_inode i ;;
  if (i_size ip <? off) || (u32 (off + n) <? off) then ret (-1)
  else if MAXFILE * BSIZE <? u32 (off + n) then ret (-1)
  else
    '(tot, off) <- writei_loop (S (S (Z.to_nat (n / BSIZE + 1)))) i src 0 off n ;;
    ip <- get_inode i ;;
    when (i_size ip <? off) (upd_inode i (fun ip => ip <| i_size := off |>)) ;;
    iupdate i ;;
    ret (s32 tot).

(** ** Directories *)

Definition namecmp (s t : cptr) : Z := strncmp s t DIRSIZ.

(** [struct dirent] as the bytes of a directory. *)
Definition sizeof_dirent : Z := 16.
Definition de_inum (de : list Z) : Z := get_le 2 0 de.
Definition de_name (de : list Z) : list Z := drop 2 de.
Definition mkdirent (inum : Z) (name : list Z) : list Z := le_enc 2 inum ++ name.

(** The inode found, and the offset of its entry. *)
Fixpoint dirlookup_loop (fuel : nat) (dp : nat) (name : cptr) (off : Z) : M fs (option (nat * Z)) :=
  match fuel with
  | O => out_of_fuel
  | S fuel' =>
    ip <- get_inode dp ;;
    if off <? i_size ip then
      '(r, de) <- readi dp Local off sizeof_dirent ;;
      if negb (r =? sizeof_dirent) then panic "dirlookup read"
      else if de_inum de =? 0 then dirlookup_loop fuel' dp name (u32 (off + sizeof_dirent))
      else if namecmp name (of_list (de_name de)) =? 0 then
        i <- iget (i_dev ip) (de_inum de) ;;
        ret (Some (i, off))
      else dirlookup_loop fuel' dp name (u32 (off + sizeof_dirent))
    else ret None
  end.
Definition dirlookup (dp : nat) (name : cptr) : M fs (option (nat * Z)) :=
  ip <- get_inode dp ;;
  if negb (i_type ip =? T_DIR) then panic "dirlookup not DIR"
  else dirlookup_loop (S (Z.to_nat (i_size ip / sizeof_dirent + 1))) dp name 0.

(** The search of [dirlink] for an empty entry: its offset, or the size. *)
Fixpoint dirlink_loop (fuel : nat) (dp : nat) (off : Z) : M fs Z :=
  match fuel with
  | O => out_of_fuel
  | S fuel' =>
    ip <- get_inode dp ;;
    if off <? i_size ip then
      '(r, de) <- readi dp Local off sizeof_dirent ;;
      if negb (r =? sizeof_dirent) then panic "dirlink read"
      else if de_inum de =? 0 then ret off
      else dirlink_loop fuel' dp (s32 (off + sizeof_dirent))
    else ret off
  end.
Definition dirlink (dp : nat) (name : cptr) (inum : Z) : M fs Z :=
  found <- dirlookup dp name ;;
  match found with
  | Some (i, _) => iput i ;; ret (-1)
  | None =>
    ip <- get_inode dp ;;
    off <- dirlink_loop (S (Z.to_nat (i_size ip / sizeof_dirent + 1))) dp 0 ;;
    let de := mkdirent inum (strncpy name DIRSIZ) in
    r <- writei dp (FromBytes de) off sizeof_dirent ;;
    if negb (r =? sizeof_dirent) then ret (-1) else ret 0
  end.

(** ** Paths

    A path is the list of its characters, without the terminating nul. *)

Definition slash : Z := 47.
Fixpoint skip_slashes (path : list Z) : list Z :=
  match path with
  | c :: p => if c =? slash then skip_slashes p else path
  | [] => []
  end.
Fixpoint span_elem (path : list Z) : list Z * list Z :=
  match path with
  | c :: p =>
    if c =? slash then ([], path) else let '(s, r) := span_elem p in (c :: s, r)
  | [] => ([], [])
  end.
(** The rest of the path and the new contents of the buffer [name]. *)
Definition skipelem (path name : list Z) : option (list Z * list Z) :=
  match skip_slashes path with
  | [] => None
  | path =>
    let '(s, rest) := span_elem path in
    let name := if Nat.leb DIRSIZ (length s) then splice 0 (take DIRSIZ s) name
                else splice 0 (s ++ [0]) name in
    Some (skip_slashes rest, name)
  end.

(** The loop of [namex], with the inode reached and the buffer [name]. *)
Fixpoint namex_loop (fuel : nat) (path : list Z) (parent : bool) (ip : nat) (name : list Z)
    : M fs (option nat * list Z) :=
  match fuel with
  | O => out_of_fuel
  | S fuel' =>
    match skipelem path name with
    | None => if parent then iput ip ;; ret (None, name) else ret (Some ip, name)
    | Some (path, name) =>
      ilock (Some ip) ;;
      dp <- get_inode ip ;;
      if negb (i_type dp =? T_DIR) then iunlockput ip ;; ret (None, name)
      else if parent && Nat.eqb (length path) 0 then iunlock (Some ip) ;; ret (Some ip, name)
      else
        next <- dirlookup ip (of_list name) ;;
        match next with
        | None => iunlockput ip ;; ret (None, name)
        | Some (next, _) => iunlockput ip ;; namex_loop fuel' path parent next name
        end
    end
  end.

Definition namex (path : list Z) (parent : bool) (name : list Z) : M fs (option nat * list Z) :=
  ip <- (match path with
         | c :: _ => if c =? slash then iget ROOTDEV ROOTINO
                     else
                       i <- lift myproc ;; p <- lift (get_proc i) ;;
                       match p_cwd p with Some d => idup d | None => undefined "null cwd" end
         | [] =>
           i <- lift myproc ;; p <- lift (get_proc i) ;;
           match p_cwd p with Some d => idup d | None => undefined "null cwd" end
         end) ;;
  namex_loop (S (length path)) path parent ip name.

(** The local buffer of [namei] is only read after [skipelem] has set it. *)
Definition namei (path : list Z) : M fs (option nat) :=
  '(ip, _) <- namex path false (replicate DIRSIZ 0) ;; ret ip.
Definition nameiparent (path name : list Z) : M fs (option nat * list Z) :=
  namex path true name.
