(* ===== verification/Transfer.v ===== *)
(** * Moving bytes between the kernel and whoever asked for them

    [readi] and [writei] of [kernel/fs.c] hand bytes to [either_copyout] and
    take them from [either_copyin] block by block, without knowing whether
    the other side is the memory of the process or a variable of the kernel.
    The classes below are what they need of it: [Sink] of a destination that
    receives bytes in pieces, [Supply] of a source that gives them.  The
    instances are the process's memory ([User], [FromUser]) and the kernel's
    ([Local], [FromBytes]). *)

From stdpp Require Import base numbers strings decidable sets gmap functions list.
From S2P Require Import Prelude.
From S2P Require Import CString.
From S2P Require Import Riscv.
From S2P Require Import Sched.
From S2P Require Import Kalloc.
From S2P Require Import Vm.
From S2P Require Import VmInv.
From S2P Require Import Uvm.
From S2P Require Import VmCopy.
From S2P Require Import UserByte.
From S2P Require Import Sleeplock.
From S2P Require Import Bio.
Open Scope Z_scope.
Open Scope xv6_scope.

(** [P d acc m]: the bytes [acc] have been delivered and [d] is where the
    next go, at most [N] in all.  [E acc m]: delivery has failed after
    [acc]. *)
Class Sink (pid : Z) (N : nat) (P : place -> list Z -> mm -> Prop) (E : list Z -> mm -> Prop) : Prop := {
  sk_woke d acc m m' : P d acc m -> mm_woke m m' -> P d acc m';
  sk_fail_woke acc m m' : E acc m -> mm_woke m m' -> E acc m';
  sk_put d acc bs m : P d acc m -> running (mm_mach m) pid -> (length acc + length bs <= N)%nat ->
    exists r m', either_copyout d bs m = Ok r m' /\ running (mm_mach m') pid /\
      ((r = 0 /\ P (place_add d (Z.of_nat (length bs))) (acc ++ bs) m') \/ (r = -1 /\ E acc m'));
}.

(** [Q src bs m]: [src] will give the bytes [bs]. *)
Class Supply (pid : Z) (Q : source -> list Z -> mm -> Prop) : Prop := {
  sp_woke src bs m m' : Q src bs m -> mm_woke m m' -> Q src bs m';
  sp_get src bs m k : Q src bs m -> running (mm_mach m) pid -> (k <= length bs)%nat ->
    exists m', either_copyin src k m = Ok (0, take k bs) m' /\ running (mm_mach m') pid /\
      Q (source_add src (Z.of_nat k)) (drop k bs) m';
}.

(** ** Variables of the kernel *)

Definition local_sink (d : place) (acc : list Z) (m : mm) : Prop := d = Local.
Definition never (acc : list Z) (m : mm) : Prop := False.
#[export] Instance sink_local pid N : Sink pid N local_sink never.
Proof.
  split; [done|done|]. intros d acc bs m -> (Hh & Hl & i & p & Hc & Hp & Hpid) Hn.
  exists 0, m. split_and!; [|by split_and!; [..|exists i, p]|by left].
  unfold either_copyout. erewrite bind_ok by (by apply lift_read, myproc_ok).
  by erewrite bind_ok by (by apply lift_read, get_proc_ok).
Qed.

Definition bytes_supply (src : source) (bs : list Z) (m : mm) : Prop := src = FromBytes bs.
#[export] Instance supply_bytes pid : Supply pid bytes_supply.
Proof.
  split; [done|]. intros src bs m k -> (Hh & Hl & i & p & Hc & Hp & Hpid) Hn.
  exists m. split_and!; [|by split_and!; [..|exists i, p]|simpl; by rewrite Nat2Z.id].
  unfold either_copyin. erewrite bind_ok by (by apply lift_read, myproc_ok).
  by erewrite bind_ok by (by apply lift_read, get_proc_ok).
Qed.

(** ** The memory of the process *)

Section user.
Context (pr : nat) (root sz : Z) (F : leaves) (O : gset Z) (R W : Z -> Prop).
Notation "'ctx' s V h" := (uctx s pr root sz F O V R W h) (at level 10, s, V, h at level 9).

(** Another process made runnable is no concern of this one. *)
Lemma uspace_woke m m' V :
  uspace m root sz F O V R W -> mm_woke m m' -> uspace m' root sz F O V R W.
Proof using.
  intros Hs (Wk & Em & Ef & Ee).
  replace m' with (m <| mm_mach := mm_mach m' |>) by (destruct m, m'; simpl in *; by subst).
  apply uspace_mach; [done|rewrite (wk_held _ _ Wk); by eapply uspace_nolock|].
  destruct (us_proc _ _ _ _ _ _ _ _ Hs) as [(i & p & Hc & Hp & ? & ?)]. split. exists i, p.
  split_and!; [by rewrite (wk_cur _ _ Wk)| |done..].
  destruct (wk_procs _ _ Wk i) as [->|(q & _ & _ & Hne & _)]; [done|congruence].
Qed.
Lemma uctx_woke m m' V h : ctx m V h -> mm_woke m m' -> ctx m' V h.
Proof using.
  intros [Hs Hh (p & Hc & Hp & ?) Hn Hf] Hw. pose proof Hw as (Wk & _). split.
  - by eapply uspace_woke.
  - by rewrite (wk_held _ _ Wk).
  - exists p. split_and!; [by rewrite (wk_cur _ _ Wk)| |naive_solver..].
    destruct (wk_procs _ _ Wk pr) as [->|(q & _ & _ & Hne & _)]; [done|congruence].
  - by rewrite (woke_length _ _ Wk).
  - done.
Qed.

Lemma either_out_bytes s V h a cs :
  ctx s V h -> 0 <= a < 2 ^ 64 ->
  exists r s' n, either_copyout (User a) cs s = Ok r s' /\ mm_mach s' = mm_mach s /\
    ctx s' (write_bytes V a (take n cs)) h /\
    ((r = 0 /\ n = length cs) \/
     (r = -1 /\ (n < length cs)%nat /\ ~ forall k : nat, (k < length cs)%nat -> W (a + Z.of_nat k))).
Proof using.
  intros Hx Ha. destruct (ux_cur _ _ _ _ _ _ _ _ _ _ Hx) as (p & Hc & Hp & Hr & _).
  unfold either_copyout. erewrite bind_ok by (by apply lift_read, myproc_ok).
  erewrite bind_ok by (by apply lift_read, get_proc_ok). rewrite Hr.
  destruct (put_bytes root sz F O R W s V a cs) as (r & s' & n & E & Fr & Hs & H); [apply Hx|done|].
  exists r, s', n. split_and!; [done|apply Fr|by eapply uctx_mm|done].
Qed.

Lemma either_in_bytes s V h a n :
  ctx s V h -> 0 <= a -> a + Z.of_nat n <= MAXVA ->
  exists r bs s', either_copyin (FromUser a) n s = Ok (r, bs) s' /\ mm_mach s' = mm_mach s /\ ctx s' V h /\
    ((r = 0 /\ bs = read_bytes V a n) \/
     (r = -1 /\ (length bs < n)%nat /\ ~ forall k : nat, (k < n)%nat -> R (a + Z.of_nat k))).
Proof using.
  intros Hx Ha Hn. destruct (ux_cur _ _ _ _ _ _ _ _ _ _ Hx) as (p & Hc & Hp & Hr & _).
  unfold either_copyin. erewrite bind_ok by (by apply lift_read, myproc_ok).
  erewrite bind_ok by (by apply lift_read, get_proc_ok). rewrite Hr.
  destruct (get_bytes root sz F O R W s V a n) as (r & bs & s' & E & Fr & Hs & H); [apply Hx|done|done|].
  exists r, bs, s'. split_and!; [done|apply Fr|by eapply uctx_mm|done].
Qed.

(** A buffer of the process at [va], its memory [V] before the transfer. *)
Section buffer.
Context (V : Z -> Z) (va : Z) (N : nat).

Definition user_sink (d : place) (acc : list Z) (m : mm) : Prop :=
  d = User (va + Z.of_nat (length acc)) /\ 0 <= va /\ va + Z.of_nat N < 2 ^ 64 /\
  ctx m (write_bytes V va acc) [].
(** It has failed at an address that is not known to be writable. *)
Definition user_short (acc : list Z) (m : mm) : Prop :=
  exists rest, ctx m (write_bytes V va (acc ++ rest)) [] /\ (length acc + length rest < N)%nat /\
    ~ forall k : nat, (k < N)%nat -> W (va + Z.of_nat k).

#[export] Instance sink_user pid : Sink pid N user_sink user_short.
Proof using.
  split.
  - intros d acc m m' (-> & ? & ? & Hx) Hw. split_and!; try done. by eapply uctx_woke.
  - intros acc m m' (rest & Hx & ?) Hw. exists rest. split; [by eapply uctx_woke|done].
  - intros d acc bs m (-> & Hva & HN & Hx) Hr Hl.
    destruct (either_out_bytes m _ [] (va + Z.of_nat (length acc)) bs Hx) as (r & m' & n & E & Em & Hx' & H); [lia|].
    exists r, m'. rewrite Em. split_and!; [done|done|].
    destruct H as [[-> ->]|(-> & Hn & Hw)]; [left|right]; (split; [done|]).
    + rewrite firstn_all in Hx'. simpl. split_and!; try done.
      * f_equal. rewrite length_app. unfold u64. rewrite Z.mod_small by lia. lia.
      * by rewrite write_bytes_app.
    + exists (take n bs). rewrite write_bytes_app. split_and!; [done|len|].
      intros Hall. apply Hw. intros k Hk. rewrite <- Z.add_assoc, <- Nat2Z.inj_add. apply Hall. lia.
Qed.

Definition user_supply (src : source) (bs : list Z) (m : mm) : Prop :=
  exists a, src = FromUser a /\ 0 <= a /\ a + Z.of_nat (length bs) <= MAXVA /\ ctx m V [] /\
    bs = read_bytes V a (length bs) /\ forall k : nat, (k < length bs)%nat -> R (a + Z.of_nat k).
#[export] Instance supply_user pid : Supply pid user_supply.
Proof using.
  split.
  - intros src bs m m' (a & ? & ? & ? & Hx & ?) Hw. exists a. split_and!; try naive_solver. by eapply uctx_woke.
  - intros src bs m k (a & -> & Ha & Hb & Hx & Hbs & HR) Hr Hk.
    destruct (either_in_bytes m V [] a k Hx) as (r & cs & m' & E & Em & Hx' & H); [lia|lia|].
    exists m'. rewrite Em. destruct H as [[-> ->]|(-> & _ & Hn)].
    2: { destruct Hn. intros j Hj. apply HR. lia. }
    assert (Es : bs = read_bytes V a k ++ read_bytes V (a + Z.of_nat k) (length bs - k)).
    { rewrite <- read_bytes_app. replace (k + (length bs - k))%nat with (length bs) by lia. done. }
    split_and!; [|done|].
    + rewrite Es at 1. rewrite take_app_length'; [done|]. len.
    + exists (a + Z.of_nat k). rewrite length_drop. split_and!; [|lia|lia|done| |].
      * simpl. f_equal. unfold u64. rewrite Z.mod_small; [lia|]. change MAXVA with (2 ^ 38) in Hb. lia.
      * rewrite Es at 1. rewrite drop_app_length'; [done|]. len.
      * intros j Hj. rewrite <- Z.add_assoc, <- Nat2Z.inj_add. apply HR. lia.
Qed.
End buffer.
End user.
