(* ===== verification/Txn.v ===== *)
(** * A transaction as the file system sees it

    Inside [begin_op] .. [end_op] the file system reads and modifies blocks
    through the buffer cache and the log.  [tx start pid s V l H D] hides
    both: in state [s] of a thread of process [pid] the blocks have the
    contents [V], the transaction has logged the blocks [l], the thread has
    the buffers [H] (index and block) locked, and of these the blocks [D]
    have been changed and not logged yet.  No other process has a buffer
    locked. *)

From stdpp Require Import base numbers strings decidable sets gmap functions list.
From S2P Require Import Prelude.
From S2P Require Import CString.
From S2P Require Import Riscv.
From S2P Require Import Sched.
From S2P Require Import Kalloc.
From S2P Require Import Vm.
From S2P Require Import Sleeplock.
From S2P Require Import Bio.
From S2P Require Import Log.
From S2P Require Import LogOps.
From S2P Require Import Fs.
Open Scope Z_scope.
Open Scope xv6_scope.

Definition tcache (pid : Z) (V : disk) (l : list Z) (H : list (nat * Z)) : cache :=
  mkcache V
    (fun b => (if decide (b ∈ l) then 1 else 0) + (if decide (b ∈ H.*2) then 1 else 0))
    (fun b => if decide (b ∈ H.*2) then Some pid else None).

Lemma tcache_take pid V l H i b :
  b ∉ H.*2 -> c_take pid b (tcache pid V l H) ≡ tcache pid V l ((i, b) :: H).
Proof.
  intros Hb c. cbn [c_take tcache av ar al fmap list_fmap snd]. unfold insert, fn_insert.
  destruct (decide (b = c)) as [<-|Hne].
  - rewrite !(decide_False (P := b ∈ H.*2)), !(decide_True (P := b ∈ b :: H.*2)) by set_solver.
    split_and!; [done|lia|done].
  - rewrite !(decide_ext (c ∈ b :: H.*2) (c ∈ H.*2)) by set_solver. done.
Qed.
Lemma tcache_drop pid V l H i b :
  b ∉ H.*2 -> c_drop b (tcache pid V l ((i, b) :: H)) ≡ tcache pid V l H.
Proof.
  intros Hb c. cbn [c_drop tcache av ar al fmap list_fmap snd]. unfold insert, fn_insert.
  destruct (decide (b = c)) as [<-|Hne].
  - rewrite !(decide_False (P := b ∈ H.*2)), !(decide_True (P := b ∈ b :: H.*2)) by set_solver.
    split_and!; [done|lia|done].
  - rewrite !(decide_ext (c ∈ b :: H.*2) (c ∈ H.*2)) by set_solver. done.
Qed.

Record tx (start pid : Z) (s : fs) (V : disk) (l : list Z) (H : list (nat * Z)) (D : list Z) : Prop := {
  tx_lok : lok start (fs_log s) (tcache pid V l H) pid;
  tx_good : good_log start l;
  tx_logged : logged (lg (fs_log s)) l;
  tx_size : length (lh_block (lg (fs_log s))) = Z.to_nat LOGBLOCKS;
  tx_held : forall i b, (i, b) ∈ H -> handle (lg_blk (fs_log s)) i b;
  tx_nodup : NoDup H.*2;
  tx_clean : forall b, b ∉ l -> b ∉ D -> dsk (lg_blk (fs_log s)) b = V b;
}.

(** How many operations are executing, and whether a commit is under way. *)
Definition ops (s : fs) : Z * Z := (lg_outstanding (lg (fs_log s)), lg_committing (lg (fs_log s))).

(** The disk, and the writes it has seen. *)
Definition drive (s : fs) : disk * wlog := (dsk (lg_blk (fs_log s)), wtrace (lg_blk (fs_log s))).
Lemma drive_bop s A bs A' :
  bop (lg_blk (fs_log s)) A bs A' [] -> drive (inj bs s) = drive s.
Proof. intros B. unfold drive. simpl. by rewrite (bo_dsk _ _ _ _ _ B), (bo_trace _ _ _ _ _ B), app_nil_r. Qed.

(** What the operations on blocks leave alone. *)
Record fstep (s s' : fs) : Prop := {
  fs_sb : sb s' = sb s;
  fs_itable : itable s' = itable s;
  fs_mm : mm_woke (blk_mm (lg_blk (fs_log s))) (blk_mm (lg_blk (fs_log s')));
  fs_dsk : drive s' = drive s;
  fs_out : ops s' = ops s;
}.
Lemma fstep_refl s : fstep s s.
Proof. by split. Qed.
Lemma fstep_trans s1 s2 s3 : fstep s1 s2 -> fstep s2 s3 -> fstep s1 s3.
Proof. intros [] []. split; try congruence. by eapply mm_woke_trans. Qed.
#[export] Hint Resolve fstep_refl : core.

(** Inside a transaction: what the blocks are written under. *)
Definition in_op (s : fs) : Prop := 1 <= (ops s).1.
Lemma fstep_op s s' : fstep s s' -> in_op s -> in_op s'.
Proof. unfold in_op. by intros [_ _ _ _ ->]. Qed.
Create HintDb txn.
#[export] Hint Resolve fstep_op : txn.

(** The log after [log_write] of block [b]. *)
Definition add (b : Z) (l : list Z) : list Z := if decide (b ∈ l) then l else l ++ [b].
Lemma elem_of_add b l : b ∈ add b l.
Proof. unfold add. case_decide; set_solver. Qed.
Lemma elem_of_add_1 b c l : c ∈ l -> c ∈ add b l.
Proof. unfold add. case_decide; set_solver. Qed.
Lemma elem_of_add_2 b c l : c ∈ add b l -> c = b \/ c ∈ l.
Proof. unfold add. case_decide; set_solver. Qed.
Lemma length_add b l : (length l <= length (add b l) <= length l + 1)%nat.
Proof. unfold add. case_decide; len. Qed.

Section tx.
Context (start pid : Z).
Notation TX := (tx start pid).

Lemma tx_block_len s V l H D b : TX s V l H D -> length (V b) = bsize.
Proof using. intros T. apply (bi_len _ _ (lok_inv _ _ _ _ (tx_lok _ _ _ _ _ _ _ T))). Qed.

Lemma tx_running s V l H D : TX s V l H D -> running (prj s) pid.
Proof using. intros T. apply (lok_run _ _ _ _ (tx_lok _ _ _ _ _ _ _ T)). Qed.

Lemma tx_bread s V l H D b :
  TX s V l H D -> b ∉ H.*2 -> b ∈ l \/ (length l + length H < NBUF)%nat ->
  exists i s', lift (bread ROOTDEV b) s = Ok i s' /\ TX s' V l ((i, b) :: H) D /\ fstep s s'.
Proof using.
  intros [[I R Hd Hs] G L Z Hh N C] Hb Hroom.
  destruct (bread_ok (lg_blk (fs_log s)) (tcache pid V l H) pid b) as (i & bs & E & B & Hi); try done.
  - simpl. by rewrite decide_False.
  - simpl. repeat case_decide; lia.
  - destruct Hroom as [Hl|Hl]; [left; simpl; rewrite decide_True by done; case_decide; lia|right].
    exists (l ++ H.*2). split; [len|]. intros c Hc. simpl in Hc. apply elem_of_app.
    destruct (decide (c ∈ l)); [by left|]. destruct (decide (c ∈ H.*2)); [by right|]. lia.
  - eexists i, _. split; [by apply lift_ok|].
    pose proof (tcache_take pid V l H i b Hb) as Eq.
    split.
    + split; try done.
      * split; try done; [|by eapply bop_running]. rewrite <- Eq. apply B.
      * intros j c [[= -> ->]|Hin]%elem_of_cons; [done|].
        apply (bo_kept _ _ _ _ _ B); [by apply Hh|]. simpl.
        rewrite (decide_True (P := c ∈ H.*2)); [case_decide; lia|].
        apply list_elem_of_fmap. by exists (j, c).
      * apply NoDup_cons. by split.
      * intros c Hc Hc'. simpl. rewrite (bo_dsk _ _ _ _ _ B). by apply C.
    + split; try done; [apply B|]. by eapply drive_bop.
Qed.

Lemma tx_data s V l H D i b : TX s V l H D -> (i, b) ∈ H -> buf_data i s = Ok (V b) s.
Proof using.
  intros [[I R Hd Hs] G L Z Hh N C] Hi. unfold buf_data.
  destruct (get_data_ok (lg_blk (fs_log s)) (tcache pid V l H) i b) as (x & E & Ex & _); [done|by apply Hh|].
  erewrite bind_ok by (by apply lift_read). by rewrite Ex.
Qed.

Lemma held_pos V l H (i : nat) b : (i, b) ∈ H -> 0 < ar (tcache pid V l H) b /\ al (tcache pid V l H) b = Some pid.
Proof using.
  intros Hi. assert (b ∈ H.*2) by (apply list_elem_of_fmap; by exists (i, b)).
  simpl. rewrite !(decide_True (P := b ∈ H.*2)) by done. split; [case_decide; lia|done].
Qed.
Lemma tcache_small V l H b : ar (tcache pid V l H) b < 2 ^ 30.
Proof using. simpl. repeat case_decide; lia. Qed.

Lemma tx_upd s V l H D i b f :
  TX s V l H D -> (i, b) ∈ H -> length (f (V b)) = bsize ->
  exists s', upd_data i f s = Ok tt s' /\ TX s' (<[b := f (V b)]> V) l H (b :: D) /\ fstep s s'.
Proof using.
  intros [[I R Hd Hs] G L Z Hh N C] Hi Hf. destruct (held_pos V l H i b Hi) as [Hp Hl].
  destruct (upd_data_ok (lg_blk (fs_log s)) (tcache pid V l H) i b f) as (bs & E & B & _);
    [done|by apply Hh|done|done|].
  eexists. split; [by apply lift_ok|]. split.
  - split; try done.
    + split; try done; [|by eapply bop_running]. apply B.
    + intros j c Hin. apply (bo_kept _ _ _ _ _ B); [by apply Hh|]. by apply (held_pos V l H j c).
    + intros c Hc Hc'. apply not_elem_of_cons in Hc' as [Hne Hc']. simpl.
      rewrite (bo_dsk _ _ _ _ _ B), fn_insert_ne by done. by apply C.
  - split; try done; [apply B|]. by eapply drive_bop.
Qed.

Lemma tx_logw s V l H D D' i b :
  TX s V l H D -> in_op s -> (i, b) ∈ H -> home start b -> 0 <= b < 2 ^ 31 -> (length l < NBUF)%nat ->
  (forall c, c ∈ D -> c = b \/ c ∈ D') ->
  exists s', lift (log_write i) s = Ok tt s' /\ TX s' V (add b l) H D' /\ fstep s s'.
Proof using.
  intros [[I R Hd Hs] G L Z Hh N C] O Hi Hhome Hb Hl HD. pose proof (Hh _ _ Hi) as Hhi.
  destruct (held_pos V l H i b Hi) as [Hp Hlk].
  eexists. split.
  { apply lift_ok. apply (log_write_eq (fs_log s) (tcache pid V l H) pid l i b); try done.
    - unfold NBUF, LOGBLOCKS in *. lia.
    - apply G. }
  unfold add. destruct (decide (b ∈ l)) as [Hin|Hin].
  - split; [|by destruct s as [[]]]. split; try done. intros c Hc Hc'. apply C; [done|].
    intros [->|?]%HD; done.
  - destruct (pinned_ok (lg_blk (fs_log s)) (tcache pid V l H) i b) as [B _]; [done|done| |].
    { pose proof (tcache_small V l H b). lia. }
    assert (Eq : c_pin b 1 (tcache pid V l H) ≡ tcache pid V (l ++ [b]) H).
    { intros c. simpl. unfold insert, fn_insert. split_and!; [done| |done].
      destruct (decide (b = c)) as [<-|Hne].
      - rewrite (decide_False (P := b ∈ l)), (decide_True (P := b ∈ l ++ [b])) by set_solver. lia.
      - rewrite (decide_ext (c ∈ l ++ [b]) (c ∈ l)) by set_solver. done. }
    split.
    + split; simpl; try done.
      * split; try done. rewrite <- Eq. apply B.
      * apply good_log_snoc; try done. unfold NBUF, LOGBLOCKS in *. lia.
      * destruct L as [L1 L2]. split; [simpl; len|]. intros t c [Ht|[Hge Ht]]%lookup_app_Some; simpl.
        -- rewrite list_lookup_insert_ne; [by apply L2|]. apply lookup_lt_Some in Ht. lia.
        -- apply list_lookup_singleton_Some in Ht as [E <-].
           replace t with (length l) by lia. apply list_lookup_insert_eq.
           unfold NBUF, LOGBLOCKS in *. lia.
      * by rewrite length_insert.
      * intros j c Hjc. apply (bo_kept _ _ _ _ _ B); [by apply Hh|]. by apply (held_pos V l H j c).
      * intros c Hc Hc'. apply C; [set_solver|]. intros [->|?]%HD; set_solver.
    + by split.
Qed.

Lemma tx_brelse s V l H D i b :
  TX s V l ((i, b) :: H) D -> b ∉ D ->
  exists s', lift (brelse i) s = Ok tt s' /\ TX s' V l H D /\ fstep s s'.
Proof using.
  intros [[I R Hd Hs] G L Z Hh N C] HD. cbn [fmap list_fmap] in N. apply NoDup_cons in N as [Nb N].
  destruct (held_pos V l ((i, b) :: H) i b) as [Hp Hlk]; [apply list_elem_of_here|].
  destruct (brelse_ok (lg_blk (fs_log s)) (tcache pid V l ((i, b) :: H)) i b pid) as (bs & E & B & _); try done.
  - apply Hh, list_elem_of_here.
  - pose proof (tcache_small V l ((i, b) :: H) b). lia.
  - intros E1. apply C; [|done]. intros Hin. simpl in E1.
    rewrite !decide_True in E1 by set_solver. lia.
  - pose proof (tcache_drop pid V l H i b Nb) as Eq.
    eexists. split; [by apply lift_ok|]. split.
    + split; try done.
      * split; try done; [|by eapply bop_running]. rewrite <- Eq. apply B.
      * intros j c Hjc. apply (bo_kept _ _ _ _ _ B); [apply Hh; by apply list_elem_of_further|].
        apply (held_pos V l _ j c). by apply list_elem_of_further.
      * intros c Hc Hc'. simpl. rewrite (bo_dsk _ _ _ _ _ B). by apply C.
    + split; try done; [apply B|]. by eapply drive_bop.
Qed.

(** Nothing of this depends on the memory, the inode table or the messages
    on the console. *)
Lemma tx_mm s V l H D m :
  TX s V l H D -> running (mm_mach m) pid -> TX (inj m s) V l H D.
Proof using.
  intros [[I R Hd Hs] G L Z Hh N C] Hm. split; try done. split; try done. by apply binv_mm.
Qed.
Lemma tx_itable s V l H D t : TX s V l H D -> TX (s <| itable := t |>) V l H D.
Proof using. by intros []. Qed.
Lemma tx_view s V W l H D : TX s V l H D -> (forall b, W b = V b) -> TX s W l H D.
Proof using.
  intros [[I R Hd Hs] G L Z Hh N C] HV. split; try done.
  - split; try done. assert (Eq : tcache pid W l H ≡ tcache pid V l H) by (intros c; simpl; by rewrite HV).
    by rewrite Eq.
  - intros b ? ?. rewrite HV. by apply C.
Qed.

(** A block changed and logged: the usual pair. *)
Lemma tx_store s V l H i b f :
  TX s V l H [] -> in_op s -> (i, b) ∈ H -> length (f (V b)) = bsize ->
  home start b -> 0 <= b < 2 ^ 31 -> (length l < NBUF)%nat ->
  exists s', (upd_data i f ;; lift (log_write i)) s = Ok tt s' /\
    TX s' (<[b := f (V b)]> V) (add b l) H [] /\ fstep s s'.
Proof using.
  intros T O Hi Hf Hh Hb Hl. destruct (tx_upd s V l H [] i b f T Hi Hf) as (s1 & E1 & T1 & F1).
  destruct (tx_logw s1 _ l H [b] [] i b T1) as (s2 & E2 & T2 & F2); try done; [by eapply fstep_op|set_solver|].
  exists s2. split_and!; [|done|by eapply fstep_trans]. by erewrite bind_ok by exact E1.
Qed.

Lemma tx_modify {A} s V l H i b f (k : M fs A) :
  TX s V l H [] -> in_op s -> (i, b) ∈ H -> length (f (V b)) = bsize ->
  home start b -> 0 <= b < 2 ^ 31 -> (length l < NBUF)%nat ->
  exists s', (upd_data i f ;; lift (log_write i) ;; k) s = k s' /\
    TX s' (<[b := f (V b)]> V) (add b l) H [] /\ fstep s s'.
Proof using.
  intros T O Hi Hf Hh Hb Hl. destruct (tx_store s V l H i b f T O Hi Hf Hh Hb Hl) as (s' & E & T' & F).
  exists s'. split_and!; try done. unfold bind in E |- *. destruct (upd_data i f s); cbn [bind_res] in *; try done. by rewrite E.
Qed.

Lemma tx_kprintf s V l H D msg :
  TX s V l H D -> exists s', lift (kprintf msg) s = Ok tt s' /\ TX s' V l H D /\ fstep s s'.
Proof using.
  intros T. eexists. split; [by apply lift_ok|].
  assert (W : woke (prj s) (prj s <| klog := klog (prj s) ++ [msg] |>)).
  { split; try done; [by exists [msg]|by left]. }
  split.
  - destruct T as [[I R Hd Hs] G L Z Hh N C]. split; try done. split; try done. by apply binv_mm.
  - by split.
Qed.
End tx.
