(* ===== verification/FsBlocks.v ===== *)
(** * Allocation of blocks

    The free map of the file system as a set of used blocks, and what
    [balloc] and [bfree] of [kernel/fs.c] do to it. *)

From stdpp Require Import base numbers strings decidable sets gmap functions list.
From S2P Require Import Prelude.
From S2P Require Import Riscv.
From S2P Require Import Sched.
From S2P Require Import Kalloc.
From S2P Require Import Vm.
From S2P Require Import Sleeplock.
From S2P Require Import Bio.
From S2P Require Import Log.
From S2P Require Import LogOps.
From S2P Require Import Fs.
From S2P Require Import Txn.
Open Scope Z_scope.
Open Scope xv6_scope.

(** The number of blocks before the data. *)
Definition nmeta (sb : superblock) : Z := sb_size sb - sb_nblocks sb.

(** Arithmetic with the constants of the layout. *)
Ltac fslia :=
  unfold nmeta in *;
  change IPB with 16 in *; change BPB with 8192 in *; change BSIZE with 1024 in *;
  change LOGBLOCKS with 30 in *;
  Z.to_euclidean_division_equations; lia.

(** ** Bits *)

Lemma land_bit x k : 0 <= k -> (Z.land x (Z.shiftl 1 k) =? 0) = negb (Z.testbit x k).
Proof.
  intros Hk. rewrite Z.shiftl_1_l. apply eq_bool_prop_intro.
  rewrite Is_true_true, Z.eqb_eq, negb_True. split.
  - intros E Ht. apply Is_true_true in Ht. apply (f_equal (fun z => Z.testbit z k)) in E.
    rewrite Z.land_spec, Z.pow2_bits_true, Z.bits_0, Ht in E by done. done.
  - intros Ht. apply Z.bits_inj. intros j. rewrite Z.land_spec, Z.bits_0.
    destruct (decide (j = k)) as [->|Hne].
    + destruct (Z.testbit x k); [by destruct Ht|done].
    + rewrite Z.pow2_bits_false by done. apply andb_false_r.
Qed.

Lemma u8_bit x k : 0 <= k < 8 -> Z.testbit (u8 x) k = Z.testbit x k.
Proof. intros Hk. unfold u8. apply Z.mod_pow2_bits_low. lia. Qed.

Section bits.
Context (d : list Z).
Hypothesis Hd : length d = bsize.

Lemma byte_lt bi : 0 <= bi < BPB -> (Z.to_nat (bi / 8) < length d)%nat.
Proof using Hd. intros H. rewrite Hd, bsize_val. fslia. Qed.

(** Storing a byte changes only its eight bits. *)
Lemma bit_clear_other bi bj x :
  0 <= bi < BPB -> 0 <= bj < BPB -> bi <> bj ->
  (bi / 8 = bj / 8 -> Z.testbit x (bj mod 8) = Z.testbit (d !!! Z.to_nat (bi / 8)) (bj mod 8)) ->
  bit_clear (<[Z.to_nat (bi / 8) := x]> d) bj = bit_clear d bj.
Proof using Hd.
  intros Hi Hj Hne Hx. unfold bit_clear. rewrite !land_bit by (apply Z.mod_pos_bound; lia). f_equal.
  destruct (decide (bi / 8 = bj / 8)) as [E|E].
  - rewrite <- E, list_lookup_total_insert_eq by (by apply byte_lt). by apply Hx.
  - rewrite list_lookup_total_insert_ne; [done|]. intros E'. apply E. apply Z2Nat.inj in E'; divlia.
Qed.

Lemma bit_set_clear bi bj :
  0 <= bi < BPB -> 0 <= bj < BPB ->
  bit_clear (bit_set bi d) bj = if decide (bi = bj) then false else bit_clear d bj.
Proof using Hd.
  intros Hi Hj. pose proof (Z.mod_pos_bound bi 8 ltac:(lia)). pose proof (Z.mod_pos_bound bj 8 ltac:(lia)).
  unfold bit_set. destruct (decide (bi = bj)) as [<-|Hne].
  - unfold bit_clear. rewrite land_bit, list_lookup_total_insert_eq by (by apply byte_lt || lia).
    rewrite u8_bit, Z.lor_spec, Z.shiftl_1_l, Z.pow2_bits_true by lia. by rewrite orb_true_r.
  - apply bit_clear_other; try done. intros E. rewrite u8_bit, Z.lor_spec, Z.shiftl_1_l by lia.
    rewrite Z.pow2_bits_false; [apply orb_false_r|]. intros E'. apply Hne.
    rewrite (Z.div_mod bi 8), (Z.div_mod bj 8) by lia. lia.
Qed.

Lemma bit_reset_clear bi bj :
  0 <= bi < BPB -> 0 <= bj < BPB ->
  bit_clear (bit_reset bi d) bj = if decide (bi = bj) then true else bit_clear d bj.
Proof using Hd.
  intros Hi Hj. pose proof (Z.mod_pos_bound bi 8 ltac:(lia)). pose proof (Z.mod_pos_bound bj 8 ltac:(lia)).
  unfold bit_reset. destruct (decide (bi = bj)) as [<-|Hne].
  - unfold bit_clear. rewrite land_bit, list_lookup_total_insert_eq by (by apply byte_lt || lia).
    rewrite u8_bit, Z.land_spec, Z.lnot_spec, Z.shiftl_1_l, Z.pow2_bits_true by lia. by rewrite andb_false_r.
  - apply bit_clear_other; try done. intros E. rewrite u8_bit, Z.land_spec, Z.lnot_spec, Z.shiftl_1_l by lia.
    rewrite Z.pow2_bits_false; [apply andb_true_r|]. intros E'. apply Hne.
    rewrite (Z.div_mod bi 8), (Z.div_mod bj 8) by lia. lia.
Qed.
End bits.

Lemma length_bit_set bi d : length (bit_set bi d) = length d.
Proof. apply length_insert. Qed.
Lemma length_bit_reset bi d : length (bit_reset bi d) = length d.
Proof. apply length_insert. Qed.

(** ** The layout of the disk

    boot block, super block, log, inode blocks, free map, data blocks, as
    the comment of [kernel/fs.h] draws it. *)

Record layout (start : Z) (sb : superblock) : Prop := {
  ly_start : 1 < start;
  ly_log : start + LOGBLOCKS < sb_inodestart sb;
  ly_inodes : sb_inodestart sb + sb_ninodes sb / IPB < sb_bmapstart sb;
  ly_ninodes : 0 < sb_ninodes sb < 2 ^ 16;
  ly_bmap : sb_bmapstart sb + sb_size sb / BPB < nmeta sb;
  ly_data : nmeta sb <= sb_size sb;
  ly_size : sb_size sb < 2 ^ 30;
}.

(** Is block [b] marked in the free map? *)
Definition used (sb : superblock) (V : disk) (b : Z) : bool :=
  negb (bit_clear (V (BBLOCK b sb)) (b mod BPB)).
Definition mark (sb : superblock) (b : Z) (V : disk) : disk :=
  <[BBLOCK b sb := bit_set (b mod BPB) (V (BBLOCK b sb))]> V.
Definition unmark (sb : superblock) (b : Z) (V : disk) : disk :=
  <[BBLOCK b sb := bit_reset (b mod BPB) (V (BBLOCK b sb))]> V.

(** Super block, log, inodes and the free map itself are marked. *)
Definition meta_used (sb : superblock) (V : disk) : Prop :=
  forall b, 0 <= b < nmeta sb -> used sb V b = true.

Section layout.
Context (start : Z) (sb : superblock).
Hypothesis L : layout start sb.

Lemma BBLOCK_eq b : 0 <= b < sb_size sb -> BBLOCK b sb = b / BPB + sb_bmapstart sb.
Proof using L.
  intros Hb. destruct L as [Hs Hl Hi Hn Hm Hd Hz]. unfold BBLOCK. apply u32_small.
  fslia.
Qed.

Lemma BBLOCK_range b : 0 <= b < sb_size sb -> sb_bmapstart sb <= BBLOCK b sb < nmeta sb.
Proof using L.
  intros Hb. rewrite BBLOCK_eq by done. destruct L as [Hs Hl Hi Hn Hm Hd Hz].
  fslia.
Qed.

Lemma meta_home b : sb_inodestart sb <= b < 2 ^ 30 -> home start b /\ 0 <= b < 2 ^ 31.
Proof using L.
  intros Hb. destruct L as [Hs Hl Hi Hn Hm Hd Hz]. unfold home. fslia.
Qed.

Lemma bmapstart_pos : 0 < sb_inodestart sb < sb_bmapstart sb.
Proof using L.
  destruct L as [Hs Hl Hi Hn Hm Hd Hz].
  fslia.
Qed.

Lemma BBLOCK_home b : 0 <= b < sb_size sb -> home start (BBLOCK b sb) /\ 0 <= BBLOCK b sb < 2 ^ 31.
Proof using L.
  intros Hb. pose proof (BBLOCK_range b Hb). pose proof bmapstart_pos. apply meta_home.
  destruct L as [_ _ _ _ _ ? ?]. lia.
Qed.

Lemma data_home b : nmeta sb <= b < sb_size sb -> home start b /\ 0 <= b < 2 ^ 31.
Proof using L.
  intros Hb. pose proof (BBLOCK_range 0) as H. pose proof bmapstart_pos. apply meta_home.
  destruct L as [_ _ _ _ Hm Hd Hz]. fslia.
Qed.

Lemma bmod b : 0 <= b mod BPB < BPB.
Proof using. apply Z.mod_pos_bound. fslia. Qed.

(** Two blocks share a bit of the map only if they are the same. *)
Lemma bit_of_inj b c :
  0 <= b < sb_size sb -> 0 <= c < sb_size sb ->
  BBLOCK b sb = BBLOCK c sb -> b mod BPB = c mod BPB -> b = c.
Proof using L.
  intros Hb Hc E1 E2. rewrite !BBLOCK_eq in E1 by done. fslia.
Qed.

Lemma used_mark V b c :
  (forall x, length (V x) = bsize) -> 0 <= b < sb_size sb -> 0 <= c < sb_size sb ->
  used sb (mark sb b V) c = if decide (c = b) then true else used sb V c.
Proof using L.
  intros Hl Hb Hc. unfold used, mark. destruct (decide (BBLOCK b sb = BBLOCK c sb)) as [E|E].
  - rewrite <- E, fn_insert_eq, (bit_set_clear _ (Hl _)) by apply bmod.
    destruct (decide (c = b)) as [->|Hne]; [by rewrite decide_True|].
    rewrite decide_False; [done|]. intros E'. apply Hne. symmetry. by apply bit_of_inj.
  - rewrite fn_insert_ne by done. rewrite decide_False; [done|]. by intros ->.
Qed.

Lemma used_unmark V b c :
  (forall x, length (V x) = bsize) -> 0 <= b < sb_size sb -> 0 <= c < sb_size sb ->
  used sb (unmark sb b V) c = if decide (c = b) then false else used sb V c.
Proof using L.
  intros Hl Hb Hc. unfold used, unmark. destruct (decide (BBLOCK b sb = BBLOCK c sb)) as [E|E].
  - rewrite <- E, fn_insert_eq, (bit_reset_clear _ (Hl _)) by apply bmod.
    destruct (decide (c = b)) as [->|Hne]; [by rewrite decide_True|].
    rewrite decide_False; [done|]. intros E'. apply Hne. symmetry. by apply bit_of_inj.
  - rewrite fn_insert_ne by done. rewrite decide_False; [done|]. by intros ->.
Qed.

(** Writing a data block does not change the map. *)
Lemma used_data V b d c :
  nmeta sb <= b -> 0 <= c < sb_size sb -> used sb (<[b := d]> V) c = used sb V c.
Proof using L.
  intros Hb Hc. unfold used. rewrite fn_insert_ne; [done|]. pose proof (BBLOCK_range c Hc). lia.
Qed.
End layout.

(** ** [balloc] and [bfree] *)

(** The scan of one block of the map. *)
Lemma balloc_scan_ok fuel d b bi size :
  0 <= bi <= BPB -> (Z.to_nat (BPB - bi) < fuel)%nat ->
  match balloc_scan fuel d b bi size with
  | Some bj => bi <= bj < BPB /\ b + bj < size /\ bit_clear d bj = true /\
               forall bk, bi <= bk < bj -> bit_clear d bk = false
  | None => forall bk, bi <= bk < BPB -> b + bk < size -> bit_clear d bk = false
  end.
Proof.
  revert bi. induction fuel as [|fuel IH]; intros bi Hbi Hf; [lia|]. cbn [balloc_scan].
  destruct ((bi <? BPB) && (b + bi <? size)) eqn:E.
  - apply andb_true_iff in E as [E1%Z.ltb_lt E2%Z.ltb_lt]. destruct (bit_clear d bi) eqn:Ec.
    + split_and!; try done; lia.
    + specialize (IH (bi + 1) ltac:(lia) ltac:(lia)).
      destruct (balloc_scan fuel d b (bi + 1) size) as [bj|].
      * destruct IH as (H1 & H2 & H3 & H4). split_and!; try done; try lia.
        intros bk Hk. destruct (decide (bk = bi)) as [->|]; [done|apply H4; lia].
      * intros bk Hk Hs. destruct (decide (bk = bi)) as [->|]; [done|apply IH; lia].
  - intros bk Hk Hs. apply andb_false_iff in E as [E%Z.ltb_ge|E%Z.ltb_ge]; lia.
Qed.

Section alloc.
Context (start pid : Z).
Notation TX := (tx start pid).

Lemma bzero_ok s V l H b :
  TX s V l H [] -> in_op s -> b ∉ H.*2 -> home start b -> 0 <= b < 2 ^ 31 -> (length l + length H < NBUF)%nat ->
  exists s', bzero ROOTDEV b s = Ok tt s' /\ TX s' (<[b := zero_block]> V) (add b l) H [] /\ fstep s s'.
Proof using.
  intros T O Hb Hh Hr Hl. unfold bzero.
  destruct (tx_bread start pid s V l H [] b T Hb) as (i & s1 & E1 & T1 & F1); [by right|].
  erewrite bind_ok by exact E1.
  destruct (tx_modify start pid s1 V l ((i, b) :: H) i b (fun _ => zero_block) (lift (brelse i)) T1)
    as (s2 & E2 & T2 & F2); try done; [by eapply fstep_op|apply list_elem_of_here|lia|].
  rewrite E2. destruct (tx_brelse start pid s2 _ _ _ _ _ _ T2) as (s3 & E3 & T3 & F3); [set_solver|].
  exists s3. split_and!; [done|done|]. by eapply fstep_trans, fstep_trans.
Qed.

(** The buffers a caller of [balloc] and [bfree] may hold are those of data
    blocks in use. *)
Definition data_held (sb : superblock) (V : disk) (H : list (nat * Z)) : Prop :=
  forall b, b ∈ H.*2 -> nmeta sb <= b < sb_size sb /\ used sb V b = true.

(** The bits of the map block that covers [k * BPB] and following. *)
Lemma map_bits sb V k bk :
  layout start sb -> 0 <= k -> 0 <= bk < BPB -> k * BPB + bk < sb_size sb ->
  used sb V (k * BPB + bk) = negb (bit_clear (V (BBLOCK (k * BPB) sb)) bk) /\
  BBLOCK (k * BPB + bk) sb = BBLOCK (k * BPB) sb /\ (k * BPB + bk) mod BPB = bk.
Proof using.
  intros L Hk Hbk Hs. assert (E : BBLOCK (k * BPB + bk) sb = BBLOCK (k * BPB) sb).
  { rewrite !(BBLOCK_eq start) by (done || fslia). f_equal. fslia. }
  assert (Em : (k * BPB + bk) mod BPB = bk) by fslia.
  unfold used. by rewrite E, Em.
Qed.

(** A clear bit found: the block is marked and zeroed. *)
Lemma balloc_take_ok s V l H i k bi :
  let bb := BBLOCK (k * BPB) (sb s) in let b := k * BPB + bi in
  TX s V l ((i, bb) :: H) [] -> in_op s -> layout start (sb s) -> meta_used (sb s) V -> data_held (sb s) V H ->
  (length l + length H + 2 < NBUF)%nat -> 0 <= k -> 0 <= bi < BPB -> b < sb_size (sb s) ->
  bit_clear (V bb) bi = true ->
  exists s', (upd_data i (bit_set bi) ;; lift (log_write i) ;; lift (brelse i) ;;
              bzero ROOTDEV b ;; ret b) s = Ok b s' /\ fstep s s' /\
    nmeta (sb s) <= b < sb_size (sb s) /\ used (sb s) V b = false /\
    TX s' (<[b := zero_block]> (mark (sb s) b V)) (add b (add (BBLOCK b (sb s)) l)) H [].
Proof using.
  intros bb b T O L Mu Dh Hl Hk Hbi Hs Hc.
  destruct (map_bits (sb s) V k bi L Hk Hbi Hs) as (Hu & HBB & Hm). fold bb b in Hu, HBB, Hm.
  rewrite Hc in Hu. simpl in Hu. assert (Hb0 : 0 <= k * BPB < sb_size (sb s)) by fslia.
  destruct (tx_modify start pid s V l ((i, bb) :: H) i bb (bit_set bi)
    (lift (brelse i) ;; bzero ROOTDEV b ;; ret b) T) as (s2 & E2 & T2 & F2);
    [done|apply list_elem_of_here|rewrite length_bit_set; by eapply tx_block_len|by apply (BBLOCK_home start)
    |by apply (BBLOCK_home start)|lia|].
  destruct (tx_brelse start pid s2 _ _ _ _ _ _ T2) as (s3 & E3 & T3 & F3); [set_solver|].
  pose proof (length_add bb l) as La.
  assert (Hmeta : nmeta (sb s) <= b < sb_size (sb s)).
  { split; [|done]. apply Z.nlt_ge. intros Hx. rewrite Mu in Hu; [done|unfold b in *; fslia]. }
  destruct (data_home start (sb s) L b) as [Hh Hr]; [done|].
  destruct (bzero_ok s3 _ _ H b T3) as (s4 & E4 & T4 & F4); [eauto with txn| |done|done|lia|].
  { intros Hin. destruct (Dh _ Hin) as [_ Hx]. by rewrite Hx in Hu. }
  exists s4. rewrite E2. erewrite bind_ok by exact E3. erewrite bind_ok by exact E4.
  split; [done|]. split; [by eapply fstep_trans, fstep_trans|]. split_and!; try lia; try done.
  unfold mark. by rewrite HBB, Hm.
Qed.

Lemma balloc_loop_ok fuel s V l H b0 k :
  TX s V l H [] -> in_op s -> layout start (sb s) -> meta_used (sb s) V -> data_held (sb s) V H ->
  (length l + length H + 2 < NBUF)%nat ->
  b0 = k * BPB -> 0 <= k -> (forall c, 0 <= c < b0 -> c < sb_size (sb s) -> used (sb s) V c = true) ->
  (Z.to_nat (sb_size (sb s) / BPB + 1 - k) < fuel)%nat ->
  exists b s', balloc_loop fuel ROOTDEV b0 s = Ok b s' /\ fstep s s' /\
    ((b = 0 /\ (forall c, 0 <= c < sb_size (sb s) -> used (sb s) V c = true) /\ TX s' V l H []) \/
     (nmeta (sb s) <= b < sb_size (sb s) /\ used (sb s) V b = false /\
      (forall c, 0 <= c < b -> used (sb s) V c = true) /\
      TX s' (<[b := zero_block]> (mark (sb s) b V)) (add b (add (BBLOCK b (sb s)) l)) H [])).
Proof using.
  revert s b0 k. induction fuel as [|fuel IH]; intros s b0 k T O L Mu Dh Hl -> Hk Hall Hf; [lia|].
  cbn [balloc_loop]. erewrite bind_ok by done. destruct (Z.ltb_spec (k * BPB) (sb_size (sb s))) as [Hlt|Hge].
  2: { destruct (tx_kprintf start pid s V l H [] "balloc: out of blocks" T) as (s1 & E1 & T1 & F1).
       erewrite bind_ok by exact E1. exists 0, s1. split_and!; [done|done|]. left. split_and!; [done| |done].
       intros c Hc. apply Hall; lia. }
  assert (Hb0 : 0 <= k * BPB < sb_size (sb s)) by fslia.
  assert (HB : BBLOCK (k * BPB) (sb s) ∉ H.*2).
  { intros Hin. destruct (Dh _ Hin) as [Hx _]. pose proof (BBLOCK_range start (sb s) L _ Hb0). lia. }
  destruct (tx_bread start pid s V l H [] (BBLOCK (k * BPB) (sb s)) T HB) as (i & s1 & E1 & T1 & F1); [right; lia|].
  erewrite bind_ok by exact E1. pose proof (fs_sb _ _ F1) as Esb.
  erewrite bind_ok by (eapply tx_data; [exact T1|apply list_elem_of_here]).
  pose proof (balloc_scan_ok (S (Z.to_nat BPB)) (V (BBLOCK (k * BPB) (sb s))) (k * BPB) 0 (sb_size (sb s))
    ltac:(fslia) ltac:(lia)) as Hscan.
  assert (Before : forall n, n <= BPB ->
    (forall bk, 0 <= bk < n -> k * BPB + bk < sb_size (sb s) ->
       bit_clear (V (BBLOCK (k * BPB) (sb s))) bk = false) ->
    forall c, 0 <= c < k * BPB + n -> c < sb_size (sb s) -> used (sb s) V c = true).
  { intros n Hn Hbits c Hc Hcs. destruct (decide (c < k * BPB)); [apply Hall; lia|].
    replace c with (k * BPB + (c - k * BPB)) by lia.
    destruct (map_bits (sb s) V k (c - k * BPB) L Hk ltac:(lia) ltac:(lia)) as [-> _].
    by rewrite Hbits by lia. }
  destruct (balloc_scan _ _ _ _ _) as [bi|].
  - destruct Hscan as (Hbi & Hs & Hc & Hbefore).
    destruct (balloc_take_ok s1 V l H i k bi) as (s2 & E2 & F2 & Hm & Hu & T2);
      rewrite ?Esb; try done; try lia; [by eapply fstep_op|]. rewrite Esb in Hm, Hu, T2.
    exists (k * BPB + bi), s2. split; [exact E2|]. split; [by eapply fstep_trans|]. right.
    split; [done|]. split; [done|]. split; [|exact T2]. intros c Hcc.
    apply (Before bi); try lia. intros bk Hbk _. by apply Hbefore.
  - destruct (tx_brelse start pid s1 _ _ _ _ _ _ T1) as (s2 & E2 & T2 & F2); [set_solver|].
    erewrite bind_ok by exact E2. pose proof (fstep_trans _ _ _ F1 F2) as F12. clear Esb.
    pose proof (fs_sb _ _ F12) as Esb.
    destruct (IH s2 (k * BPB + BPB) (k + 1) T2) as (b & s3 & E3 & F3 & HR);
      rewrite ?Esb; try done; try lia; [by eapply fstep_op|by apply (Before BPB)|fslia|].
    exists b, s3. rewrite Esb in HR. split_and!; [done|by eapply fstep_trans|done].
Qed.

Lemma balloc_ok s V l H :
  TX s V l H [] -> in_op s -> layout start (sb s) -> meta_used (sb s) V -> data_held (sb s) V H ->
  (length l + length H + 2 < NBUF)%nat ->
  exists b s', balloc ROOTDEV s = Ok b s' /\ fstep s s' /\
    ((b = 0 /\ (forall c, 0 <= c < sb_size (sb s) -> used (sb s) V c = true) /\ TX s' V l H []) \/
     (nmeta (sb s) <= b < sb_size (sb s) /\ used (sb s) V b = false /\
      (forall c, 0 <= c < b -> used (sb s) V c = true) /\
      TX s' (<[b := zero_block]> (mark (sb s) b V)) (add b (add (BBLOCK b (sb s)) l)) H [])).
Proof using.
  intros T O L Mu Dh Hl. unfold balloc. erewrite bind_ok by done.
  apply (balloc_loop_ok _ s V l H 0 0); try done; lia.
Qed.

Lemma bfree_ok s V l H b :
  TX s V l H [] -> in_op s -> layout start (sb s) -> data_held (sb s) V H ->
  0 <= b < sb_size (sb s) -> (length l + length H < NBUF)%nat ->
  if used (sb s) V b then
    exists s', bfree ROOTDEV b s = Ok tt s' /\ fstep s s' /\
      TX s' (unmark (sb s) b V) (add (BBLOCK b (sb s)) l) H []
  else bfree ROOTDEV b s = Panic "freeing free block".
Proof using.
  intros T O L Dh Hb Hl. unfold bfree. erewrite bind_ok by done.
  assert (HB : BBLOCK b (sb s) ∉ H.*2).
  { intros Hin. destruct (Dh _ Hin) as [Hx _]. pose proof (BBLOCK_range start (sb s) L _ Hb). lia. }
  destruct (tx_bread start pid s V l H [] (BBLOCK b (sb s)) T HB) as (i & s1 & E1 & T1 & F1); [right; lia|].
  erewrite bind_ok by exact E1. cbv zeta.
  erewrite bind_ok by (eapply tx_data; [exact T1|apply list_elem_of_here]).
  unfold used. destruct (bit_clear (V (BBLOCK b (sb s))) (b mod BPB)); simpl; [done|].
  destruct (tx_modify start pid s1 V l ((i, BBLOCK b (sb s)) :: H) i (BBLOCK b (sb s)) (bit_reset (b mod BPB))
    (lift (brelse i)) T1) as (s2 & E2 & T2 & F2);
    [by eapply fstep_op|apply list_elem_of_here|rewrite length_bit_reset; by eapply tx_block_len|by apply (BBLOCK_home start)
    |by apply (BBLOCK_home start)|lia|].
  destruct (tx_brelse start pid s2 _ _ _ _ _ _ T2) as (s3 & E3 & T3 & F3); [set_solver|].
  exists s3. rewrite E2. split_and!; [done| |done]. by eapply fstep_trans, fstep_trans.
Qed.
End alloc.
