(* ===== verification/FsFile.v ===== *)
(** * The blocks of a file

    [blk_of] is the block that holds block number [bn] of a file, 0 if it
    has none, and [fbyte] the byte at an offset; [bmap] of [kernel/fs.c]
    finds or allocates the former without changing the latter. *)

From stdpp Require Import base numbers strings decidable sets gmap functions list.
From S2P Require Import Prelude.
From S2P Require Import Riscv.
From S2P Require Import Sched.
From S2P Require Import Kalloc.
From S2P Require Import Vm.
From S2P Require Import Sleeplock.
From S2P Require Import Bio.
From S2P Require Import Log.
From S2P Require Import LogOps.
From S2P Require Import Fs.
From S2P Require Import Txn.
From S2P Require Import FsBlocks.
Open Scope Z_scope.
Open Scope xv6_scope.

(** The indirect block, and the entry of block [bn] in it. *)
Definition ind_of (addrs : list Z) : Z := addrs !!! Z.to_nat NDIRECT.
Definition ind_off (bn : Z) : nat := 4 * Z.to_nat (bn - NDIRECT).
Definition blk_of (V : disk) (addrs : list Z) (bn : Z) : Z :=
  if bn <? NDIRECT then addrs !!! Z.to_nat bn
  else if ind_of addrs =? 0 then 0
  else get_le 4 (ind_off bn) (V (ind_of addrs)).
Definition fbyte (V : disk) (addrs : list Z) (o : Z) : Z :=
  let a := blk_of V addrs (o / BSIZE) in
  if a =? 0 then 0 else V a !!! Z.to_nat (o mod BSIZE).

(** A data block in use. *)
Definition data (sb : superblock) (V : disk) (b : Z) : Prop :=
  nmeta sb <= b < sb_size sb /\ used sb V b = true.

(** The addresses of an inode: data blocks in use, all different. *)
Record inode_ok (sb : superblock) (V : disk) (addrs : list Z) : Prop := {
  io_len : length addrs = naddrs;
  io_ind : ind_of addrs <> 0 -> data sb V (ind_of addrs);
  io_blk : forall bn, 0 <= bn < MAXFILE -> blk_of V addrs bn <> 0 ->
    data sb V (blk_of V addrs bn) /\ blk_of V addrs bn <> ind_of addrs;
  io_inj : forall bn bm, 0 <= bn < MAXFILE -> 0 <= bm < MAXFILE -> blk_of V addrs bn <> 0 ->
    blk_of V addrs bn = blk_of V addrs bm -> bn = bm;
}.

(** A data block in use that belongs to something else. *)
Definition foreign (sb : superblock) (V : disk) (addrs : list Z) (c : Z) : Prop :=
  data sb V c /\ c <> ind_of addrs /\ forall bn, 0 <= bn < MAXFILE -> blk_of V addrs bn <> c.

(** The file has gained blocks or contents, and nothing else has changed. *)
Record evolves (sb : superblock) (V : disk) (addrs : list Z) (V' : disk) (addrs' : list Z) : Prop := {
  ev_ok : inode_ok sb V' addrs';
  ev_meta : meta_used sb V';
  ev_map : forall bn, 0 <= bn < MAXFILE -> blk_of V addrs bn <> 0 -> blk_of V' addrs' bn = blk_of V addrs bn;
  ev_ind : ind_of addrs <> 0 -> ind_of addrs' = ind_of addrs;
  ev_low : forall c, 0 <= c < sb_bmapstart sb -> V' c = V c;
  ev_foreign : forall c, foreign sb V addrs c -> foreign sb V' addrs' c /\ V' c = V c;
}.

Lemma evolves_refl sb V addrs : inode_ok sb V addrs -> meta_used sb V -> evolves sb V addrs V addrs.
Proof. by split. Qed.

Lemma evolves_trans sb V1 a1 V2 a2 V3 a3 :
  evolves sb V1 a1 V2 a2 -> evolves sb V2 a2 V3 a3 -> evolves sb V1 a1 V3 a3.
Proof.
  intros [O1 M1 B1 I1 L1 F1] [O2 M2 B2 I2 L2 F2]. split; try done.
  - intros bn Hbn Hne. rewrite B2, B1; [done|done|done|done|]. by rewrite B1.
  - intros Hne. rewrite I2, I1; [done|done|]. by rewrite I1.
  - intros c Hc. by rewrite L2, L1.
  - intros c Hc. destruct (F1 c Hc) as [Hc1 E1]. destruct (F2 c Hc1) as [Hc2 E2].
    split; [done|]. by rewrite E2.
Qed.

Lemma MAXFILE_val : MAXFILE = 268.
Proof. done. Qed.
Lemma naddrs_val : naddrs = 13%nat.
Proof. done. Qed.

Lemma blk_direct V addrs bn : 0 <= bn < NDIRECT -> blk_of V addrs bn = addrs !!! Z.to_nat bn.
Proof. intros H. unfold blk_of. by rewrite (proj2 (Z.ltb_lt _ _)) by lia. Qed.
Lemma blk_indirect V addrs bn :
  NDIRECT <= bn -> ind_of addrs <> 0 -> blk_of V addrs bn = get_le 4 (ind_off bn) (V (ind_of addrs)).
Proof.
  intros H Hi. unfold blk_of. rewrite (proj2 (Z.ltb_ge _ _)) by lia.
  by rewrite (proj2 (Z.eqb_neq _ _)).
Qed.
Lemma blk_no_indirect V addrs bn : NDIRECT <= bn -> ind_of addrs = 0 -> blk_of V addrs bn = 0.
Proof. intros H Hi. unfold blk_of. rewrite (proj2 (Z.ltb_ge _ _)) by lia. by rewrite Hi. Qed.

Lemma get_le_zero n off : (off + n <= bsize)%nat -> get_le n off zero_block = 0.
Proof.
  intros H. unfold get_le, zero_block. rewrite drop_replicate, take_replicate.
  generalize (n `min` (bsize - off))%nat. intros k. induction k; simpl; lia.
Qed.
Lemma ind_off_fits bn : NDIRECT <= bn < MAXFILE -> (ind_off bn + 4 <= bsize)%nat.
Proof. rewrite MAXFILE_val, bsize_val. unfold ind_off, NDIRECT. lia. Qed.
Lemma ind_off_apart bn bm :
  NDIRECT <= bn -> NDIRECT <= bm -> bn <> bm ->
  (ind_off bm + 4 <= ind_off bn \/ ind_off bn + 4 <= ind_off bm)%nat.
Proof. unfold ind_off, NDIRECT. lia. Qed.

(** ** A block allocated *)

(** [V1] is [V] after [balloc] gave out block [b]. *)
Record fresh (sb : superblock) (V : disk) (b : Z) (V1 : disk) : Prop := {
  fr_range : nmeta sb <= b < sb_size sb;
  fr_free : used sb V b = false;
  fr_at : V1 b = zero_block;
  fr_data : forall c, nmeta sb <= c -> c <> b -> V1 c = V c;
  fr_low : forall c, 0 <= c < sb_bmapstart sb -> V1 c = V c;
  fr_used : forall c, 0 <= c < sb_size sb -> used sb V1 c = if decide (c = b) then true else used sb V c;
}.

Lemma nmeta_pos start sb : layout start sb -> sb_bmapstart sb < nmeta sb /\ 0 < sb_bmapstart sb.
Proof.
  intros L. pose proof (bmapstart_pos start sb L). destruct L as [_ _ _ _ Hm Hd Hz]. fslia.
Qed.

Lemma fresh_alloc start sb V b :
  layout start sb -> (forall c, length (V c) = bsize) -> nmeta sb <= b < sb_size sb -> used sb V b = false ->
  fresh sb V b (<[b := zero_block]> (mark sb b V)).
Proof.
  intros L Vlen Hr Hu. pose proof (nmeta_pos start sb L). pose proof (BBLOCK_range start sb L b) as HB.
  split; try done.
  - apply fn_insert_eq.
  - intros c Hc Hne. rewrite fn_insert_ne by done. unfold mark. rewrite fn_insert_ne; [done|]. lia.
  - intros c Hc. rewrite fn_insert_ne by lia. unfold mark. rewrite fn_insert_ne; [done|]. lia.
  - intros c Hc. rewrite (used_data start) by (done || lia). rewrite (used_mark start); try done. lia.
Qed.

Section fresh.
Context (start : Z) (sb : superblock).
Hypothesis L : layout start sb.
Context (V V1 : disk) (b : Z).
Hypothesis Hb : fresh sb V b V1.

Lemma fresh_mono c : data sb V c -> data sb V1 c /\ c <> b.
Proof using Hb L.
  intros [Hr Hu]. pose proof (nmeta_pos start sb L). assert (c <> b).
  { intros ->. pose proof (fr_free _ _ _ _ Hb). congruence. }
  split; [|done]. split; [done|]. rewrite (fr_used _ _ _ _ Hb) by lia. by rewrite decide_False.
Qed.
Lemma fresh_is_data : data sb V1 b.
Proof using Hb L.
  pose proof (nmeta_pos start sb L). pose proof (fr_range _ _ _ _ Hb). split; [done|].
  rewrite (fr_used _ _ _ _ Hb) by lia. by rewrite decide_True.
Qed.
Lemma fresh_meta : meta_used sb V -> meta_used sb V1.
Proof using Hb L.
  intros M c Hc. pose proof (nmeta_pos start sb L). destruct L as [_ _ _ _ _ Hd _].
  rewrite (fr_used _ _ _ _ Hb) by lia. rewrite M by done. by case_decide.
Qed.
Lemma fresh_nonzero : b <> 0.
Proof using Hb L. pose proof (nmeta_pos start sb L). pose proof (fr_range _ _ _ _ Hb). lia. Qed.

(** The file seen after the allocation, its own addresses unchanged. *)
Lemma fresh_blk addrs bn :
  inode_ok sb V addrs -> blk_of V1 addrs bn = blk_of V addrs bn.
Proof using Hb L.
  intros O. unfold blk_of. destruct (bn <? NDIRECT); [done|].
  destruct (Z.eqb_spec (ind_of addrs) 0) as [|Hne]; [done|].
  destruct (fresh_mono _ (io_ind _ _ _ O Hne)) as [_ Hn]. destruct (io_ind _ _ _ O Hne) as [[Hr _] _].
  by rewrite (fr_data _ _ _ _ Hb) by done.
Qed.
Lemma fresh_not_blk addrs bn : inode_ok sb V addrs -> 0 <= bn < MAXFILE -> blk_of V addrs bn <> b.
Proof using Hb L.
  intros O Hbn E. destruct (io_blk _ _ _ O bn Hbn) as [Hd _]; [rewrite E; apply fresh_nonzero|].
  destruct (fresh_mono _ Hd) as [_ Hn]. done.
Qed.

(** The block becomes block [bn] of the file, or its indirect block. *)
Section assign.
Context (addrs addrs' : list Z) (V' : disk) (bn : Z).
Hypothesis O : inode_ok sb V addrs.
Hypothesis Hlen : length addrs' = naddrs.
Hypothesis Hmap : forall bm, 0 <= bm < MAXFILE ->
  blk_of V' addrs' bm = if decide (bm = bn) then b else blk_of V addrs bm.
Hypothesis Hold : 0 <= bn < MAXFILE -> blk_of V addrs bn = 0.
Hypothesis Hind : ind_of addrs' = ind_of addrs \/
  (ind_of addrs = 0 /\ ind_of addrs' = b /\ ~ 0 <= bn < MAXFILE).
Hypothesis Hdata : forall c, nmeta sb <= c -> c <> ind_of addrs -> V' c = V1 c.
Hypothesis Hlow : forall c, 0 <= c < sb_bmapstart sb -> V' c = V1 c.
Hypothesis Hused : forall c, 0 <= c < sb_size sb -> used sb V' c = used sb V1 c.

Lemma assign_data c : data sb V1 c -> data sb V' c.
Proof using Hused L.
  intros [Hr Hu]. split; [done|]. pose proof (nmeta_pos start sb L) as Hnm.
  rewrite Hused; [done|]. clear -Hr Hnm. lia.
Qed.

Lemma assign_ok : inode_ok sb V' addrs'.
Proof using All.
  assert (Hd : forall bm, 0 <= bm < MAXFILE -> blk_of V addrs bm <> 0 ->
    data sb V' (blk_of V addrs bm) /\ blk_of V addrs bm <> b /\ blk_of V addrs bm <> ind_of addrs).
  { intros bm Hbm Hne. destruct (io_blk _ _ _ O bm Hbm Hne) as [Hx Hy].
    destruct (fresh_mono _ Hx) as [Hx1 Hx2]. split_and!; try done. by apply assign_data. }
  split; [done| | |].
  - intros Hne. destruct Hind as [E|(_ & -> & _)]; [|apply assign_data, fresh_is_data].
    rewrite E in *. apply assign_data. by apply fresh_mono, (io_ind _ _ _ O).
  - intros bm Hbm. rewrite Hmap by done. case_decide as Ebm; intros Hne.
    + split; [apply assign_data, fresh_is_data|].
      destruct Hind as [->|(_ & _ & Hx)]; [|by subst]. intros E.
      destruct (fresh_mono _ (io_ind _ _ _ O ltac:(congruence))) as [_ Hn]. by apply Hn.
    + destruct (Hd bm Hbm Hne) as (H1 & H2 & H3). split; [done|].
      by destruct Hind as [->|(_ & -> & _)].
  - intros bm bk Hbm Hbk. rewrite !Hmap by done. intros Hne E.
    destruct (decide (bm = bn)) as [->|Nm], (decide (bk = bn)) as [->|Nk]; try done.
    + destruct (Hd bk Hbk) as (_ & Hx & _); [by rewrite <- E|]. by rewrite E in Hx.
    + by destruct (Hd bm Hbm Hne) as (_ & Hx & _).
    + by apply (io_inj _ _ _ O).
Qed.

Lemma assign_evolves : meta_used sb V -> evolves sb V addrs V' addrs'.
Proof using All.
  intros M. pose proof (nmeta_pos start sb L) as Hnm. split; [apply assign_ok| | | | |].
  - intros c Hc. destruct L as [_ _ _ _ _ Hd _]. rewrite Hused by lia. by apply fresh_meta.
  - intros bm Hbm Hne. rewrite Hmap by done. case_decide as E; [|done]. subst. by rewrite Hold in Hne.
  - intros Hne. by destruct Hind as [|(? & _)].
  - intros c Hc. rewrite Hlow by done. by apply (fr_low _ _ _ _ Hb).
  - intros c (Hc & Hi & Hn). destruct (fresh_mono _ Hc) as [Hc1 Hb1]. destruct Hc as [Hr _].
    split; [|rewrite Hdata by (done || lia); apply (fr_data _ _ _ _ Hb); [lia|done]].
    split; [by apply assign_data|]. split.
    + by destruct Hind as [->|(_ & -> & _)].
    + intros bm Hbm. rewrite Hmap by done. case_decide; [done|by apply Hn].
Qed.

Lemma assign_fbyte o : 0 <= o < MAXFILE * BSIZE -> fbyte V' addrs' o = fbyte V addrs o.
Proof using All.
  intros Ho. unfold fbyte. pose proof (nmeta_pos start sb L) as Hnm.
  assert (Hq : 0 <= o / BSIZE < MAXFILE) by (rewrite MAXFILE_val in *; fslia).
  rewrite Hmap by done. case_decide as E.
  - rewrite E in Hq. rewrite <- E in Hold. rewrite Hold by (by rewrite E).
    rewrite (proj2 (Z.eqb_neq b 0)) by apply fresh_nonzero. pose proof (fr_range _ _ _ _ Hb) as Hr.
    assert (V' b = zero_block) as ->.
    { rewrite Hdata; [apply Hb|lia|]. intros Ei.
      destruct (fresh_mono _ (io_ind _ _ _ O ltac:(rewrite <- Ei; apply fresh_nonzero))) as [_ Hn]. by apply Hn. }
    unfold zero_block. rewrite list_lookup_total_alt, lookup_replicate_2; [done|].
    rewrite bsize_val. fslia.
  - destruct (Z.eqb_spec (blk_of V addrs (o / BSIZE)) 0) as [|Hne]; [done|].
    destruct (io_blk _ _ _ O _ Hq Hne) as [Hx Hy]. destruct (fresh_mono _ Hx) as [_ Hn].
    destruct Hx as [[Hx1 Hx2] _]. rewrite Hdata by (done || lia). by rewrite (fr_data _ _ _ _ Hb).
Qed.
End assign.
End fresh.

(** ** Changing the contents of a block of the file *)

Lemma write_evolves start sb V addrs bn d :
  layout start sb -> inode_ok sb V addrs -> meta_used sb V -> 0 <= bn < MAXFILE ->
  blk_of V addrs bn <> 0 ->
  let V' := <[blk_of V addrs bn := d]> V in
  evolves sb V addrs V' addrs /\ (forall bm, 0 <= bm < MAXFILE -> blk_of V' addrs bm = blk_of V addrs bm).
Proof.
  intros L O M Hbn Hne V'. destruct (io_blk _ _ _ O bn Hbn Hne) as [[Hr Hu] Hi].
  pose proof (nmeta_pos start sb L) as Hnm.
  assert (Hmap : forall bm, blk_of V' addrs bm = blk_of V addrs bm).
  { intros bm. unfold blk_of. destruct (bm <? NDIRECT); [done|]. destruct (ind_of addrs =? 0); [done|].
    unfold V'. by rewrite fn_insert_ne. }
  assert (Hused : forall c, 0 <= c < sb_size sb -> used sb V' c = used sb V c).
  { intros c Hc. apply (used_data start); [done|lia|done]. }
  assert (Hdata : forall c, data sb V c -> data sb V' c).
  { intros c [H1 H2]. split; [done|]. by rewrite Hused by lia. }
  split; [|by intros; apply Hmap]. split.
  - split; [apply O| | |].
    + intros H. by apply Hdata, O.
    + intros bm Hbm. rewrite Hmap. intros H. destruct (io_blk _ _ _ O bm Hbm H). split; [by apply Hdata|done].
    + intros bm bk Hbm Hbk. rewrite !Hmap. by apply O.
  - intros c Hc. destruct L as [_ _ _ _ _ Hd _]. rewrite Hused by lia. by apply M.
  - intros bm Hbm H. by rewrite Hmap.
  - done.
  - intros c Hc. unfold V'. rewrite fn_insert_ne by lia. done.
  - intros c (Hc & Hci & Hcn). split.
    + split; [by apply Hdata|]. split; [done|]. intros bm Hbm. rewrite Hmap. by apply Hcn.
    + unfold V'. rewrite fn_insert_ne; [done|by apply Hcn].
Qed.

Lemma write_fbyte sb V addrs bn d o :
  inode_ok sb V addrs -> 0 <= bn < MAXFILE -> blk_of V addrs bn <> 0 -> 0 <= o < MAXFILE * BSIZE ->
  (forall bm, 0 <= bm < MAXFILE -> blk_of (<[blk_of V addrs bn := d]> V) addrs bm = blk_of V addrs bm) ->
  fbyte (<[blk_of V addrs bn := d]> V) addrs o =
    if decide (o / BSIZE = bn) then d !!! Z.to_nat (o mod BSIZE) else fbyte V addrs o.
Proof.
  intros O Hbn Hne Ho Hmap. assert (Hq : 0 <= o / BSIZE < MAXFILE) by (rewrite MAXFILE_val in *; fslia).
  unfold fbyte. rewrite Hmap by done. case_decide as E.
  - rewrite E, (proj2 (Z.eqb_neq _ 0)) by done. by rewrite fn_insert_eq.
  - destruct (Z.eqb_spec (blk_of V addrs (o / BSIZE)) 0) as [|Hne']; [done|].
    rewrite fn_insert_ne; [done|]. intros E'. apply E. symmetry. by apply (io_inj _ _ _ O).
Qed.

(** ** [bmap] *)

(** The addresses of inode [i] have become [addrs], and blocks may have been
    written. *)
Record bstep (i : nat) (addrs : list Z) (s s' : fs) : Prop := {
  bs_sb : sb s' = sb s;
  bs_itable : itable s' = <[i := (itable s !!! i) <| i_addrs := addrs |>]> (itable s);
  bs_mm : mm_woke (blk_mm (lg_blk (fs_log s))) (blk_mm (lg_blk (fs_log s')));
  bs_dsk : drive s' = drive s;
  bs_out : ops s' = ops s;
}.

Lemma itable_same (t : list inode) i :
  (i < length t)%nat -> <[i := (t !!! i) <| i_addrs := i_addrs (t !!! i) |>]> t = t.
Proof.
  intros Hi. apply list_insert_id. destruct (lookup_lt_is_Some_2 t i Hi) as [ip E].
  rewrite (list_lookup_total_correct _ _ _ E). rewrite E. by destruct ip.
Qed.
Lemma fstep_bstep i s s' :
  (i < length (itable s))%nat -> fstep s s' -> bstep i (i_addrs (itable s !!! i)) s s'.
Proof. intros Hi []. split; try done. by rewrite itable_same. Qed.
Lemma bstep_inode i addrs s s' :
  bstep i addrs s s' -> (i < length (itable s))%nat ->
  itable s' !!! i = (itable s !!! i) <| i_addrs := addrs |> /\ (i < length (itable s'))%nat.
Proof.
  intros [] Hi. rewrite bs_itable0. split; [by apply list_lookup_total_insert_eq|by rewrite length_insert].
Qed.
Lemma bstep_trans i a1 a2 s1 s2 s3 :
  bstep i a1 s1 s2 -> bstep i a2 s2 s3 -> (i < length (itable s1))%nat -> bstep i a2 s1 s3.
Proof.
  intros B1 B2 Hi. destruct (bstep_inode _ _ _ _ B1 Hi) as [E _]. destruct B1, B2. split; try congruence.
  - rewrite bs_itable1, E, bs_itable0, list_insert_insert_eq. by destruct (itable s1 !!! i).
  - by eapply mm_woke_trans.
Qed.
Lemma bstep_fstep i a s1 s2 s3 : bstep i a s1 s2 -> fstep s2 s3 -> bstep i a s1 s3.
Proof. intros [] []. split; try congruence. by eapply mm_woke_trans. Qed.
Lemma fstep_then i a s1 s2 s3 : fstep s1 s2 -> bstep i a s2 s3 -> bstep i a s1 s3.
Proof. intros [] []. split; try congruence. by eapply mm_woke_trans. Qed.

Lemma bstep_op i a s s' : bstep i a s s' -> in_op s -> in_op s'.
Proof. unfold in_op. by intros [_ _ _ _ ->]. Qed.
#[export] Hint Resolve bstep_op : txn.

Section bmap.
Context (start pid : Z).
Notation TX := (tx start pid).

(** The state of an inode the file system works on inside a transaction. *)
Record open_inode (s : fs) (V : disk) (l : list Z) (i : nat) : Prop := {
  oi_tx : TX s V l [] [];
  oi_layout : layout start (sb s);
  oi_meta : meta_used (sb s) V;
  oi_lt : (i < length (itable s))%nat;
  oi_dev : i_dev (itable s !!! i) = ROOTDEV;
  oi_ok : inode_ok (sb s) V (i_addrs (itable s !!! i));
}.

Lemma open_bstep s V l i s' V' l' addrs' :
  open_inode s V l i -> TX s' V' l' [] [] -> bstep i addrs' s s' ->
  evolves (sb s) V (i_addrs (itable s !!! i)) V' addrs' -> open_inode s' V' l' i.
Proof using.
  intros [T L M Hi Hd O] T' B E. destruct (bstep_inode _ _ _ _ B Hi) as [Ei Hi'].
  split; rewrite ?(bs_sb _ _ _ _ B), ?Ei; try done; apply E.
Qed.

Lemma set_addr_ok s i k a addrs V l :
  TX s V l [] [] -> (i < length (itable s))%nat ->
  addrs = <[Z.to_nat k := a]> (i_addrs (itable s !!! i)) ->
  exists s', set_addr i k a s = Ok tt s' /\ TX s' V l [] [] /\ bstep i addrs s s'.
Proof using.
  intros T Hi ->. eexists. split; [done|]. split; [by apply tx_itable|]. by split.
Qed.

Lemma tx_len s V l H D : TX s V l H D -> forall c, length (V c) = bsize.
Proof using. intros T c. by eapply tx_block_len. Qed.

(** A fresh block put in the inode's own table, as block [bn] or as the
    indirect block. *)
Lemma assign_own sb V V1 b addrs bn k :
  layout start sb -> (forall c, length (V c) = bsize) -> fresh sb V b V1 -> inode_ok sb V addrs -> meta_used sb V ->
  (0 <= bn < NDIRECT /\ k = bn /\ blk_of V addrs bn = 0) \/ (k = NDIRECT /\ bn = -1 /\ ind_of addrs = 0) ->
  evolves sb V addrs V1 (<[Z.to_nat k := b]> addrs) /\
  (forall o, 0 <= o < MAXFILE * BSIZE -> fbyte V1 (<[Z.to_nat k := b]> addrs) o = fbyte V addrs o).
Proof using.
  intros L Vl Hf O M Hk. pose proof (io_len _ _ _ O) as Hlen. rewrite naddrs_val in Hlen.
  assert (Hk' : 0 <= k <= NDIRECT) by (destruct Hk as [(? & -> & _)|(-> & _)]; unfold NDIRECT in *; lia).
  assert (Hmap : forall bm, 0 <= bm < MAXFILE ->
    blk_of V1 (<[Z.to_nat k := b]> addrs) bm = if decide (bm = bn) then b else blk_of V addrs bm).
  { intros bm Hbm. destruct (Z.ltb_spec bm NDIRECT) as [Hlt|Hge].
    - rewrite !blk_direct by lia. case_decide as E.
      + destruct Hk as [(? & -> & _)|(_ & -> & _)]; [|lia]. subst bm.
        apply list_lookup_total_insert_eq. unfold NDIRECT in *. lia.
      + rewrite list_lookup_total_insert_ne; [done|]. unfold NDIRECT in *. destruct Hk as [(? & -> & _)|(-> & _)]; lia.
    - rewrite decide_False by (destruct Hk as [(? & _)|(_ & -> & _)]; lia).
      destruct Hk as [(? & -> & _)|(-> & _ & Hz)].
      + rewrite <- (fresh_blk start sb L V V1 b Hf addrs bm O).
        assert (E : ind_of (<[Z.to_nat bn := b]> addrs) = ind_of addrs).
        { unfold ind_of. rewrite list_lookup_total_insert_ne; [done|]. unfold NDIRECT in *. lia. }
        unfold blk_of. by rewrite (proj2 (Z.ltb_ge _ _)), E by lia.
      + rewrite (blk_no_indirect V) by done.
        assert (E : ind_of (<[Z.to_nat NDIRECT := b]> addrs) = b).
        { unfold ind_of. apply list_lookup_total_insert_eq. unfold NDIRECT. lia. }
        pose proof (fresh_nonzero start sb L V V1 b Hf). rewrite blk_indirect by (by rewrite ?E).
        rewrite E, (fr_at _ _ _ _ Hf). apply get_le_zero, ind_off_fits. lia. }
  assert (Hind : ind_of (<[Z.to_nat k := b]> addrs) = ind_of addrs \/
    (ind_of addrs = 0 /\ ind_of (<[Z.to_nat k := b]> addrs) = b /\ ~ 0 <= bn < MAXFILE)).
  { destruct Hk as [(? & -> & _)|(-> & -> & Hz)]; [left|right].
    - unfold ind_of. rewrite list_lookup_total_insert_ne; [done|]. unfold NDIRECT in *. lia.
    - split_and!; [done| |lia]. unfold ind_of. apply list_lookup_total_insert_eq. unfold NDIRECT. lia. }
  split.
  - eapply (assign_evolves start sb L V V1 b Hf addrs _ V1 bn); try done; [by rewrite length_insert, naddrs_val|].
    intros Hr. destruct Hk as [(? & -> & ?)|(_ & -> & _)]; [done|lia].
  - eapply (assign_fbyte start sb L V V1 b Hf addrs _ V1 bn); try done; [by rewrite length_insert, naddrs_val|].
    intros Hr. destruct Hk as [(? & -> & ?)|(_ & -> & _)]; [done|lia].
Qed.

(** A fresh block entered in the indirect block. *)
Lemma assign_entry sb V V1 b addrs bn :
  layout start sb -> (forall c, length (V c) = bsize) -> fresh sb V b V1 -> inode_ok sb V addrs -> meta_used sb V ->
  NDIRECT <= bn < MAXFILE -> ind_of addrs <> 0 -> blk_of V addrs bn = 0 ->
  let V2 := <[ind_of addrs := put_le 4 (ind_off bn) b (V1 (ind_of addrs))]> V1 in
  evolves sb V addrs V2 addrs /\ blk_of V2 addrs bn = b /\
  (forall o, 0 <= o < MAXFILE * BSIZE -> fbyte V2 addrs o = fbyte V addrs o).
Proof using.
  intros L Vl Hf O M Hbn Hi Hz V2. pose proof (io_ind _ _ _ O Hi) as Hdi.
  destruct (fresh_mono start sb L V V1 b Hf _ Hdi) as [_ Hnb]. destruct Hdi as [Hri Hui].
  assert (E1 : V1 (ind_of addrs) = V (ind_of addrs)) by (apply (fr_data _ _ _ _ Hf); [lia|done]).
  assert (E2 : V2 (ind_of addrs) = put_le 4 (ind_off bn) b (V (ind_of addrs))).
  { unfold V2. by rewrite fn_insert_eq, E1. }
  pose proof (nmeta_pos start sb L) as Hnm. destruct (fr_range _ _ _ _ Hf) as [Hb1 Hb2]. pose proof (ly_size _ _ L) as Hsz.
  assert (Hmap : forall bm, 0 <= bm < MAXFILE ->
    blk_of V2 addrs bm = if decide (bm = bn) then b else blk_of V addrs bm).
  { intros bm Hbm. destruct (Z.ltb_spec bm NDIRECT) as [Hlt|Hge].
    - rewrite !blk_direct by lia. by rewrite decide_False by lia.
    - rewrite !blk_indirect, E2 by done. case_decide as E.
      + subst. rewrite get_put_le by (rewrite Vl; by apply ind_off_fits).
        apply Z.mod_small. change (256 ^ Z.of_nat 4) with (2 ^ 32). lia.
      + apply get_put_le_other; [rewrite Vl; by apply ind_off_fits|].
        destruct (ind_off_apart bn bm); [lia|lia|congruence|lia|lia]. }
  split; [|split].
  - eapply (assign_evolves start sb L V V1 b Hf addrs addrs V2 bn); try done; [apply O|by left| | |].
    + intros c Hc Hne. unfold V2. by rewrite fn_insert_ne.
    + intros c Hc. unfold V2. rewrite fn_insert_ne by lia. done.
    + intros c Hc. apply (used_data start); [done|lia|done].
  - rewrite Hmap by (unfold NDIRECT in *; lia). by rewrite decide_True.
  - eapply (assign_fbyte start sb L V V1 b Hf addrs addrs V2 bn); try done; [apply O|by left| | |].
    + intros c Hc Hne. unfold V2. by rewrite fn_insert_ne.
    + intros c Hc. unfold V2. rewrite fn_insert_ne by lia. done.
    + intros c Hc. apply (used_data start); [done|lia|done].
Qed.

(** No block is free. *)
Definition full (sb : superblock) (V : disk) : Prop := forall c, 0 <= c < sb_size sb -> used sb V c = true.

(** What an operation on the blocks of file [i] may do without changing its
    contents: allocate, logging bitmap blocks and the blocks of [X]. *)
Record mapped (s : fs) (V : disk) (l : list Z) (i : nat) (s' : fs) (V' : disk) (l' : list Z)
    (addrs' : list Z) (X : list Z) : Prop := {
  mp_tx : TX s' V' l' [] [];
  mp_step : bstep i addrs' s s';
  mp_ev : evolves (sb s) V (i_addrs (itable s !!! i)) V' addrs';
  mp_bytes : forall o, 0 <= o < MAXFILE * BSIZE -> fbyte V' addrs' o = fbyte V (i_addrs (itable s !!! i)) o;
  mp_log : forall c, c ∈ l' -> c ∈ l \/ sb_bmapstart (sb s) <= c < nmeta (sb s) \/ (c ∈ X /\ c <> 0);
  mp_len : (length l' <= length l + 5)%nat;
}.

Lemma mapped_same s V l i s' X :
  open_inode s V l i -> TX s' V l [] [] -> fstep s s' ->
  mapped s V l i s' V l (i_addrs (itable s !!! i)) X.
Proof using.
  intros [T L M Hi Hd O] T' F. split; [done|by apply fstep_bstep|by apply evolves_refl|done|by left|lia].
Qed.

Lemma mapped_open s V l i s' V' l' addrs' X :
  open_inode s V l i -> mapped s V l i s' V' l' addrs' X ->
  open_inode s' V' l' i /\ i_addrs (itable s' !!! i) = addrs' /\ sb s' = sb s.
Proof using.
  intros O []. split; [by eapply open_bstep|].
  destruct (bstep_inode _ _ _ _ mp_step0 (oi_lt _ _ _ _ O)) as [-> _]. by destruct mp_step0.
Qed.

(** [balloc] for block [bn] or the indirect block of the inode. *)
Lemma own_block s V l i bn k :
  open_inode s V l i -> in_op s -> (length l + 2 < NBUF)%nat ->
  let addrs := i_addrs (itable s !!! i) in
  (0 <= bn < NDIRECT /\ k = bn /\ blk_of V addrs bn = 0) \/ (k = NDIRECT /\ bn = -1 /\ ind_of addrs = 0) ->
  exists b s1, balloc ROOTDEV s = Ok b s1 /\
    ((b = 0 /\ full (sb s) V /\ forall X, mapped s V l i s1 V l addrs X) \/
     (b <> 0 /\ exists s2 V2 l2, set_addr i k b s1 = Ok tt s2 /\
        mapped s V l i s2 V2 l2 (<[Z.to_nat k := b]> addrs) [b] /\ (length l2 <= length l + 2)%nat)).
Proof using.
  intros Op Ho Hl addrs Hk. pose proof Op as [T L M Hi Hd O].
  destruct (balloc_ok start pid s V l [] T Ho L M) as (b & s1 & E & F & HR); [intros c Hc; by apply elem_of_nil in Hc|simpl; lia|].
  exists b, s1. split; [done|]. destruct HR as [(-> & Hfl & T1)|(Hr & Hu & _ & T1)]; [left|right].
  { split; [done|]. split; [done|]. intros X. by apply mapped_same. }
  pose proof (tx_len _ _ _ _ _ T) as Vl.
  assert (Hf : fresh (sb s) V b (<[b := zero_block]> (mark (sb s) b V))) by (by eapply fresh_alloc).
  pose proof (fresh_nonzero start (sb s) L V _ b Hf) as Hb0. split; [done|].
  destruct (set_addr_ok s1 i k b (<[Z.to_nat k := b]> addrs) _ _ T1) as (s2 & E2 & T2 & B2).
  { by rewrite (fs_itable _ _ F). } { by rewrite (fs_itable _ _ F). }
  set (l2 := add b (add (BBLOCK b (sb s)) l)) in *. eexists s2, _, l2. split; [done|].
  assert (Hl2 : (length l2 <= length l + 2)%nat).
  { unfold l2. pose proof (length_add b (add (BBLOCK b (sb s)) l)). pose proof (length_add (BBLOCK b (sb s)) l). lia. }
  destruct (assign_own (sb s) V _ b addrs bn k L Vl Hf O M Hk) as [Ev Eb].
  split; [|done]. split; [done|by eapply fstep_then|done|done| |lia].
  intros c [->|[->|]%elem_of_add_2]%elem_of_add_2; [right; right; split; [apply list_elem_of_here|done]| |by left].
  right; left. pose proof (nmeta_pos start (sb s) L). apply (BBLOCK_range start); [done|lia].
Qed.

Lemma bmap_direct s V l i bn :
  open_inode s V l i -> in_op s -> 0 <= bn < NDIRECT -> (length l + 2 < NBUF)%nat ->
  exists a s' V' l' addrs', bmap i bn s = Ok a s' /\ a = blk_of V' addrs' bn /\
    mapped s V l i s' V' l' addrs' [blk_of V' addrs' bn] /\ (a = 0 -> full (sb s) V') /\
    (blk_of V (i_addrs (itable s !!! i)) bn <> 0 -> V' = V /\ l' = l).
Proof using.
  intros Op Ho Hbn Hl. unfold bmap. erewrite bind_ok by done. rewrite (proj2 (Z.ltb_lt _ _)) by lia.
  unfold addr_of. rewrite <- (blk_direct V) by done. set (addrs := i_addrs (itable s !!! i)).
  rewrite (oi_dev _ _ _ _ Op). destruct (Z.eqb_spec (blk_of V addrs bn) 0) as [Hz|Hz].
  - destruct (own_block s V l i bn bn Op Ho Hl) as (b & s1 & E & HR); [left; split; [done|by split]|].
    erewrite bind_ok by exact E. destruct HR as [(-> & Hfl & Mp)|(Hne & s2 & V2 & l2 & E2 & Mp & _)].
    + exists 0, s1, V, l, addrs. by split_and!.
    + rewrite (proj2 (Z.eqb_neq b 0)) by done. erewrite bind_ok by exact E2.
      assert (Eb : blk_of V2 (<[Z.to_nat bn := b]> addrs) bn = b).
      { rewrite blk_direct by done. apply list_lookup_total_insert_eq.
        pose proof (io_len _ _ _ (oi_ok _ _ _ _ Op)) as Hlen. rewrite naddrs_val in Hlen. subst addrs.
        rewrite Hlen. unfold NDIRECT in *. lia. }
      exists b, s2, V2, l2, (<[Z.to_nat bn := b]> addrs). by rewrite Eb.
  - exists (blk_of V addrs bn), s, V, l, addrs. split_and!; try done.
    apply mapped_same; [done|apply Op|done].
Qed.

(** The part of [bmap] that works on the indirect block [addr]. *)
Definition bmap_entry (bn addr : Z) : M fs Z :=
  bp <- lift (bread ROOTDEV addr) ;;
  d <- buf_data bp ;;
  let a := get_le 4 (ind_off bn) d in
  addr <- (if a =? 0 then
             addr <- balloc ROOTDEV ;;
             when (negb (addr =? 0))
               (upd_data bp (put_le 4 (ind_off bn) addr) ;; lift (log_write bp)) ;;
             ret addr
           else ret a) ;;
  lift (brelse bp) ;;
  ret addr.

Lemma bmap_entry_ok s V l i bn :
  let addrs := i_addrs (itable s !!! i) in
  open_inode s V l i -> in_op s -> NDIRECT <= bn < MAXFILE -> ind_of addrs <> 0 -> (length l + 3 < NBUF)%nat ->
  exists a s' V' l', bmap_entry bn (ind_of addrs) s = Ok a s' /\ a = blk_of V' addrs bn /\
    mapped s V l i s' V' l' addrs [ind_of addrs; blk_of V' addrs bn] /\ (length l' <= length l + 3)%nat /\
    (a = 0 -> full (sb s) V') /\
    (blk_of V addrs bn <> 0 -> V' = V /\ l' = l).
Proof using.
  intros addrs Op Ho Hbn Hi Hl. pose proof Op as [T L M Hlt Hd O]. unfold bmap_entry.
  destruct (tx_bread start pid s V l [] [] (ind_of addrs) T) as (bp & s1 & E1 & T1 & F1); [set_solver|right; simpl; lia|].
  erewrite bind_ok by exact E1.
  erewrite bind_ok by (eapply tx_data; [exact T1|apply list_elem_of_here]). cbv zeta.
  rewrite <- (blk_indirect V addrs bn) by (done || lia).
  pose proof (tx_len _ _ _ _ _ T) as Vl. pose proof (fs_sb _ _ F1) as Esb.
  destruct (Z.eqb_spec (blk_of V addrs bn) 0) as [Hz|Hz].
  - destruct (balloc_ok start pid s1 V l [(bp, ind_of addrs)] T1) as (b & s2 & E2 & F2 & HR);
      rewrite ?Esb; try done; [by eapply fstep_op| |simpl; lia|].
    { intros c Hc. apply list_elem_of_singleton in Hc as ->. apply (io_ind _ _ _ O Hi). }
    pose proof (fstep_trans _ _ _ F1 F2) as F12. rewrite Esb in HR.
    destruct HR as [(-> & Hfl & T2)|(Hr & Hu & _ & T2)].
    + erewrite bind_ok.
      2: { erewrite bind_ok by exact E2. by erewrite bind_ok by done. }
      destruct (tx_brelse start pid s2 _ _ _ _ _ _ T2) as (s3 & E3 & T3 & F3); [set_solver|].
      erewrite bind_ok by exact E3. exists 0, s3, V, l. split_and!; try done; [|lia].
      apply mapped_same; [done|done|by eapply fstep_trans].
    + assert (Hf : fresh (sb s) V b (<[b := zero_block]> (mark (sb s) b V))) by (by eapply fresh_alloc).
      set (V1 := <[b := zero_block]> (mark (sb s) b V)) in *.
      pose proof (fresh_nonzero start (sb s) L V V1 b Hf) as Hb0.
      set (l1 := add b (add (BBLOCK b (sb s)) l)) in *.
      assert (Hl1 : (length l1 <= length l + 2)%nat).
      { unfold l1. pose proof (length_add b (add (BBLOCK b (sb s)) l)). pose proof (length_add (BBLOCK b (sb s)) l). lia. }
      destruct (io_ind _ _ _ O Hi) as [Hri _]. destruct (data_home start (sb s) L _ Hri) as [Hh Hr'].
      destruct (tx_store start pid s2 V1 l1 [(bp, ind_of addrs)] bp (ind_of addrs) (put_le 4 (ind_off bn) b) T2)
        as (s3 & E3 & T3 & F3); try done; [by eapply fstep_op|apply list_elem_of_here| |lia|].
      { rewrite length_put_le; [by eapply tx_block_len|]. rewrite (tx_block_len _ _ _ _ _ _ _ _ T2). by apply ind_off_fits. }
      destruct (tx_brelse start pid s3 _ _ _ _ _ _ T3) as (s4 & E4 & T4 & F4); [set_solver|].
      erewrite bind_ok.
      2: { erewrite bind_ok by exact E2. rewrite (proj2 (Z.eqb_neq b 0)) by done. cbn [negb when].
           by erewrite bind_ok by exact E3. }
      erewrite bind_ok by exact E4.
      destruct (assign_entry (sb s) V V1 b addrs bn L Vl Hf O M Hbn Hi Hz) as (Ev & Eb & Ef).
      pose proof (length_add (ind_of addrs) l1).
      eexists b, s4, _, (add (ind_of addrs) l1). split_and!; [done|done| |lia|done|done]. split; [done| |done|done| |lia].
      * apply fstep_bstep; [done|]. eapply fstep_trans; [exact F12|]. by eapply fstep_trans.
      * rewrite Eb. intros c [->|[->|[->|]%elem_of_add_2]%elem_of_add_2]%elem_of_add_2; [set_solver..| |by left].
        right; left. pose proof (nmeta_pos start (sb s) L). apply (BBLOCK_range start); [done|lia].
  - erewrite bind_ok by done.
    destruct (tx_brelse start pid s1 _ _ _ _ _ _ T1) as (s2 & E2 & T2 & F2); [set_solver|].
    erewrite bind_ok by exact E2. exists (blk_of V addrs bn), s2, V, l. split_and!; try done; [|lia].
    apply mapped_same; [done|done|by eapply fstep_trans].
Qed.

Lemma bmap_ok s V l i bn :
  let addrs := i_addrs (itable s !!! i) in
  open_inode s V l i -> in_op s -> 0 <= bn < MAXFILE -> (length l + 5 < NBUF)%nat ->
  exists a s' V' l' addrs', bmap i bn s = Ok a s' /\ a = blk_of V' addrs' bn /\
    mapped s V l i s' V' l' addrs' [ind_of addrs'; blk_of V' addrs' bn] /\ (a = 0 -> full (sb s) V') /\
    (blk_of V addrs bn <> 0 -> V' = V /\ l' = l).
Proof using.
  intros addrs Op Ho Hbn Hl. destruct (Z.ltb_spec bn NDIRECT) as [Hd|Hd].
  { destruct (bmap_direct s V l i bn Op Ho) as (a & s' & V' & l' & addrs' & E & Ea & Mp & Hfl & Hs); [lia|lia|].
    exists a, s', V', l', addrs'. split_and!; try done. destruct Mp. split; try done.
    intros c Hc. destruct (mp_log0 c Hc) as [|[|]]; set_solver. }
  assert (Hge : (bn <? NDIRECT) = false) by (by apply Z.ltb_ge).
  unfold bmap. erewrite bind_ok by done. rewrite Hge. cbv zeta.
  rewrite (proj2 (Z.ltb_lt _ _)) by (rewrite MAXFILE_val in Hbn; unfold NDIRECT, NINDIRECT in *; fslia).
  change (addr_of (itable s !!! i) NDIRECT) with (ind_of addrs). rewrite (oi_dev _ _ _ _ Op).
  destruct (Z.eqb_spec (ind_of addrs) 0) as [Hz|Hz].
  - destruct (own_block s V l i (-1) NDIRECT Op Ho) as (b & s1 & E & HR); [lia|by right|].
    rewrite (blk_no_indirect V addrs bn) by done.
    destruct HR as [(-> & Hfl & Mp)|(Hne & s2 & V2 & l2 & E2 & Mp & Hl2)].
    + erewrite bind_ok by (erewrite bind_ok by exact E; by erewrite bind_ok by done).
      exists 0, s1, V, l, addrs. split_and!; try done. symmetry. by apply blk_no_indirect.
    + erewrite bind_ok.
      2: { erewrite bind_ok by exact E. rewrite (proj2 (Z.eqb_neq b 0)) by done. cbn [negb when].
           by erewrite bind_ok by exact E2. }
      rewrite (proj2 (Z.eqb_neq b 0)) by done.
      destruct (mapped_open _ _ _ _ _ _ _ _ _ Op Mp) as (Op2 & Ea2 & Esb).
      fold addrs in Mp, Ea2. set (addrs2 := <[Z.to_nat NDIRECT := b]> addrs) in *.
      assert (Eb : ind_of addrs2 = b).
      { apply list_lookup_total_insert_eq. pose proof (io_len _ _ _ (oi_ok _ _ _ _ Op)) as Hlen.
        rewrite naddrs_val in Hlen. subst addrs. rewrite Hlen. unfold NDIRECT. lia. }
      destruct (bmap_entry_ok s2 V2 l2 i bn Op2) as (a & s' & V' & l' & E' & Ea & Mp' & Hl' & Hfl & _); rewrite ?Ea2, ?Eb; try done; [by eapply bstep_op; [apply Mp|]|lia|lia|].
      rewrite Ea2, Eb in *. exists a, s', V', l', addrs2. rewrite Esb in Hfl. split_and!; try done.
      destruct Mp as [T1 B1 Ev1 By1 Lg1 _], Mp' as [T2 B2 Ev2 By2 Lg2 _]. rewrite Ea2, Esb in *.
      split; [done|eapply bstep_trans; try done; apply Op|by eapply evolves_trans| | |lia].
      * intros o Hoo. by rewrite By2, By1.
      * rewrite Eb. intros c Hc. destruct (Lg2 c Hc) as [Hc'|[|]]; [|by auto..].
        destruct (Lg1 c Hc') as [|[|]]; [by auto..|set_solver].
  - erewrite bind_ok by done. rewrite (proj2 (Z.eqb_neq _ 0)) by done.
    destruct (bmap_entry_ok s V l i bn Op Ho) as (a & s' & V' & l' & E' & Ea & Mp' & Hl' & Hfl & Hs); [lia|done|lia|].
    by exists a, s', V', l', addrs.
Qed.

(** A block that is there is found, inside a transaction or not. *)
Lemma bmap_found s V l i bn :
  let addrs := i_addrs (itable s !!! i) in
  TX s V l [] [] -> i_dev (itable s !!! i) = ROOTDEV -> 0 <= bn < MAXFILE -> (length l < NBUF)%nat ->
  blk_of V addrs bn <> 0 ->
  exists s', bmap i bn s = Ok (blk_of V addrs bn) s' /\ TX s' V l [] [] /\ fstep s s'.
Proof using.
  intros addrs T Hdev Hbn Hl Hne. unfold bmap. erewrite bind_ok by done. rewrite Hdev. cbv zeta.
  destruct (Z.ltb_spec bn NDIRECT) as [Hd|Hd].
  { unfold addr_of. rewrite <- (blk_direct V) by lia. rewrite (proj2 (Z.eqb_neq _ 0)) by done. by exists s. }
  rewrite (proj2 (Z.ltb_lt _ _)) by (rewrite MAXFILE_val in Hbn; unfold NDIRECT, NINDIRECT in *; fslia).
  change (addr_of (itable s !!! i) NDIRECT) with (ind_of addrs).
  destruct (Z.eqb_spec (ind_of addrs) 0) as [Hz|Hz]; [by rewrite blk_no_indirect in Hne|].
  erewrite bind_ok by done. rewrite (proj2 (Z.eqb_neq _ 0)) by done.
  destruct (tx_bread start pid s V l [] [] (ind_of addrs) T) as (bp & s1 & E1 & T1 & F1); [set_solver|right; simpl; lia|].
  erewrite bind_ok by exact E1.
  erewrite bind_ok by (eapply tx_data; [exact T1|apply list_elem_of_here]). cbv zeta.
  change (4 * Z.to_nat (bn - NDIRECT))%nat with (ind_off bn).
  rewrite <- (blk_indirect V addrs bn) by (done || lia). rewrite (proj2 (Z.eqb_neq _ 0)) by done.
  erewrite bind_ok by done.
  destruct (tx_brelse start pid s1 _ _ _ _ _ _ T1) as (s2 & E2 & T2 & F2); [set_solver|].
  erewrite bind_ok by exact E2. exists s2. split_and!; [done|done|by eapply fstep_trans].
Qed.
End bmap.
