(* ===== verification/FsInode.v ===== *)
(** * Inodes on the disk

    [struct dinode] as the bytes of an inode block, [iupdate] and [ilock] of
    [kernel/fs.c]: what the one writes the other reads back, and the inodes
    that share the block keep theirs. *)

From stdpp Require Import base numbers strings decidable sets gmap functions list.
From S2P Require Import Prelude.
From S2P Require Import Riscv.
From S2P Require Import Sched.
From S2P Require Import Kalloc.
From S2P Require Import Vm.
From S2P Require Import Sleeplock.
From S2P Require Import Bio.
From S2P Require Import Log.
From S2P Require Import LogOps.
From S2P Require Import Fs.
From S2P Require Import Txn.
From S2P Require Import FsBlocks.
From S2P Require Import FsFile.
Open Scope Z_scope.
Open Scope xv6_scope.

(** ** [struct dinode] in a block *)

Definition word (z : Z) : Prop := 0 <= z < 2 ^ 32.
Definition short (z : Z) : Prop := - 2 ^ 15 <= z < 2 ^ 15.
(** Fields of a struct dinode within the widths they have on disk. *)
Record dinode_fits (di : dinode) : Prop := {
  df_type : short (di_type di);
  df_major : short (di_major di);
  df_minor : short (di_minor di);
  df_nlink : short (di_nlink di);
  df_size : word (di_size di);
  df_addrs : Forall word (di_addrs di);
  df_len : length (di_addrs di) = naddrs;
}.

Lemma length_put_addrs off l d :
  (off + 4 * length l <= length d)%nat -> length (put_addrs off l d) = length d.
Proof.
  revert off d. induction l as [|a l IH]; intros off d H; simpl in *; [done|].
  rewrite IH; rewrite length_put_le; lia.
Qed.
Lemma get_put_addrs_other n off' off l d :
  (off + 4 * length l <= length d)%nat -> (off' + n <= off \/ off + 4 * length l <= off')%nat ->
  get_le n off' (put_addrs off l d) = get_le n off' d.
Proof.
  revert off d. induction l as [|a l IH]; intros off d H Ho; simpl in *; [done|].
  rewrite IH by (rewrite ?length_put_le; lia). apply get_put_le_other; lia.
Qed.
Lemma get_put_addrs off l d k a :
  (off + 4 * length l <= length d)%nat -> l !! k = Some a ->
  get_le 4 (off + 4 * k) (put_addrs off l d) = a mod 2 ^ 32.
Proof.
  revert off d k. induction l as [|b l IH]; intros off d k H Hk; [done|]. simpl in H. cbn [put_addrs].
  destruct k as [|k]; simpl in Hk.
  - simplify_eq. rewrite Nat.mul_0_r, Nat.add_0_r.
    rewrite get_put_addrs_other by (rewrite ?length_put_le; lia). rewrite get_put_le by lia. done.
  - replace (off + 4 * S k)%nat with (off + 4 + 4 * k)%nat by lia.
    apply IH; [|done]. rewrite length_put_le; lia.
Qed.

Lemma s16_mod z : short z -> s16 (z mod 2 ^ 16) = z.
Proof.
  intros Hz. unfold s16. rewrite Zplus_mod_idemp_l. fold (s16 z). by apply s16_small.
Qed.

(** The field read is the one some [put_le] under others wrote. *)
Ltac fld := repeat (rewrite get_put_le_other by (repeat rewrite length_put_le; lia));
  rewrite get_put_le by (repeat rewrite length_put_le; lia).

Section put.
Context (off : nat) (di : dinode) (d : list Z).
Hypothesis Hfit : (off + 64 <= length d)%nat.
Hypothesis Hlen : length (di_addrs di) = naddrs.

Lemma length_put_dinode : length (put_dinode off di d) = length d.
Proof using All.
  unfold put_dinode. rewrite length_put_addrs; repeat rewrite length_put_le; rewrite ?Hlen, ?naddrs_val; lia.
Qed.

(** What lies outside the struct is kept. *)
Lemma get_put_dinode_other n off' :
  (off' + n <= off \/ off + 64 <= off')%nat -> get_le n off' (put_dinode off di d) = get_le n off' d.
Proof using All.
  intros Ho. unfold put_dinode.
  rewrite get_put_addrs_other by (repeat rewrite length_put_le; rewrite ?Hlen, ?naddrs_val; lia).
  repeat rewrite get_put_le_other by (repeat rewrite length_put_le; lia). done.
Qed.

Lemma get_put_dinode : dinode_fits di -> get_dinode off (put_dinode off di d) = di.
Proof using All.
  intros [Ht Hmj Hmn Hnl Hsz Had _]. unfold get_dinode, get_short.
  assert (Hh : forall n o, (o + n <= off + 12)%nat -> get_le n o (put_dinode off di d) =
    get_le n o (put_le 4 (off + 8) (di_size di) (put_le 2 (off + 6) (di_nlink di)
      (put_le 2 (off + 4) (di_minor di) (put_le 2 (off + 2) (di_major di) (put_le 2 off (di_type di) d)))))).
  { intros n o Ho. apply get_put_addrs_other; [|lia]. repeat rewrite length_put_le; rewrite ?Hlen, ?naddrs_val; lia. }
  rewrite !Hh by lia. clear Hh.
  assert (E1 : get_addrs (off + 12) (put_dinode off di d) = di_addrs di).
  { unfold get_addrs. apply list_eq. intros k. rewrite list_lookup_fmap.
    destruct (decide (k < naddrs)%nat) as [Hk|Hk].
    - rewrite lookup_seq_lt by done. simpl. destruct (lookup_lt_is_Some_2 (di_addrs di) k) as [a Ha]; [by rewrite Hlen|].
      rewrite Ha. f_equal. change (k + (k + (k + (k + 0))))%nat with (4 * k)%nat. unfold put_dinode.
      erewrite get_put_addrs; [|repeat rewrite length_put_le; rewrite ?Hlen, ?naddrs_val; lia|exact Ha].
      apply Z.mod_small. by apply (proj1 (Forall_lookup _ _) Had k).
    - rewrite lookup_seq_ge, (lookup_ge_None_2 (di_addrs di)) by lia. done. }
  rewrite E1. destruct di as [t mj mn nl sz ad]. simpl in *. f_equal.
  - fld. by apply s16_mod.
  - fld. by apply s16_mod.
  - fld. by apply s16_mod.
  - fld. by apply s16_mod.
  - fld. by apply Z.mod_small.
Qed.
End put.

(** ** Inode [inum] on the disk *)

Definition dinode_at (sb : superblock) (V : disk) (inum : Z) : dinode :=
  get_dinode (dinode_off inum) (V (IBLOCK inum sb)).
Definition put_dinode_at (sb : superblock) (inum : Z) (di : dinode) (V : disk) : disk :=
  <[IBLOCK inum sb := put_dinode (dinode_off inum) di (V (IBLOCK inum sb))]> V.

Section disk.
Context (start : Z) (sb : superblock).
Hypothesis L : layout start sb.

Lemma IBLOCK_eq k : 0 <= k < sb_ninodes sb -> IBLOCK k sb = k / IPB + sb_inodestart sb.
Proof using L.
  intros Hk. destruct L as [? ? ? ? ? ? ?]. unfold IBLOCK. apply u32_small. unfold LOGBLOCKS, MAXOPBLOCKS in *. fslia.
Qed.
Lemma IBLOCK_range k : 0 <= k < sb_ninodes sb -> sb_inodestart sb <= IBLOCK k sb < sb_bmapstart sb.
Proof using L. intros Hk. rewrite IBLOCK_eq by done. destruct L as [? ? ? ? ? ? ?]. fslia. Qed.
Lemma IBLOCK_home k : 0 <= k < sb_ninodes sb -> home start (IBLOCK k sb) /\ 0 <= IBLOCK k sb < 2 ^ 31.
Proof using L.
  intros Hk. apply (meta_home start sb L). pose proof (IBLOCK_range k Hk). destruct L as [? ? ? ? ? ? ?].
  split; [lia|]. fslia.
Qed.
Lemma dinode_off_fits k : (dinode_off k + 64 <= bsize)%nat.
Proof using. unfold dinode_off, sizeof_dinode. rewrite bsize_val. fslia. Qed.
Lemma dinode_apart k j :
  0 <= k < sb_ninodes sb -> 0 <= j < sb_ninodes sb -> k <> j -> IBLOCK k sb = IBLOCK j sb ->
  (dinode_off j + 64 <= dinode_off k \/ dinode_off k + 64 <= dinode_off j)%nat.
Proof using L.
  intros Hk Hj Hne E. rewrite !IBLOCK_eq in E by done. unfold dinode_off, sizeof_dinode.
  assert (k mod IPB <> j mod IPB) by fslia. fslia.
Qed.

Section put.
Context (V : disk) (inum : Z) (di : dinode).
Hypothesis Vl : forall b, length (V b) = bsize.
Hypothesis Hi : 0 <= inum < sb_ninodes sb.
Hypothesis Hdi : dinode_fits di.

Lemma dinode_at_put k :
  0 <= k < sb_ninodes sb ->
  dinode_at sb (put_dinode_at sb inum di V) k = if decide (k = inum) then di else dinode_at sb V k.
Proof using All.
  intros Hk. unfold dinode_at, put_dinode_at. pose proof (dinode_off_fits inum) as Hf. rewrite <- (Vl (IBLOCK inum sb)) in Hf.
  case_decide as E; [subst k; rewrite fn_insert_eq; apply get_put_dinode; [done|apply Hdi|done]|].
  destruct (decide (IBLOCK inum sb = IBLOCK k sb)) as [Eb|Eb]; [|by rewrite fn_insert_ne].
  rewrite <- Eb, fn_insert_eq. destruct (dinode_apart inum k Hi Hk) as [Ha|Ha]; [congruence|done|..];
    unfold get_dinode, get_short, get_addrs;
    (repeat rewrite get_put_dinode_other by (done || apply Hdi || lia)); f_equal;
    apply list_fmap_ext; intros j x [-> Hx]%lookup_seq; (rewrite get_put_dinode_other; [done|done|apply Hdi|]);
    rewrite naddrs_val in Hx; lia.
Qed.

(** Nothing but the inode changes. *)
Lemma put_dinode_at_other b : b <> IBLOCK inum sb -> put_dinode_at sb inum di V b = V b.
Proof using. intros. unfold put_dinode_at. by rewrite fn_insert_ne. Qed.
Lemma put_dinode_at_high b : sb_bmapstart sb <= b -> put_dinode_at sb inum di V b = V b.
Proof using L Hi. intros Hb. apply put_dinode_at_other. pose proof (IBLOCK_range inum Hi). lia. Qed.
End put.
End disk.

(** ** Disks that differ in inode blocks only *)

Definition agree (sb : superblock) (V V' : disk) : Prop := forall b, sb_bmapstart sb <= b -> V' b = V b.

Lemma nmeta_bmap start sb : layout start sb -> sb_bmapstart sb < nmeta sb.
Proof. intros L. pose proof (nmeta_pos start sb L). destruct L as [? ? ? ? ? ? ?]. fslia. Qed.

Section agree.
Context (start : Z) (sb : superblock) (V V' : disk).
Hypothesis L : layout start sb.
Hypothesis A : agree sb V V'.

Lemma agree_used c : 0 <= c < sb_size sb -> used sb V' c = used sb V c.
Proof using All. intros Hc. unfold used. rewrite A; [done|]. by apply (BBLOCK_range start). Qed.
Lemma agree_meta : meta_used sb V -> meta_used sb V'.
Proof using All. intros M c Hc. destruct L as [? ? ? ? ? ? ?]. rewrite agree_used by lia. by apply M. Qed.
Lemma agree_full : full sb V -> full sb V'.
Proof using All. intros H c Hc. rewrite agree_used by done. by apply H. Qed.
Lemma agree_data c : data sb V c -> data sb V' c /\ V' c = V c.
Proof using All.
  pose proof (nmeta_bmap start sb L) as Hb. intros [[H1 H2] H3]. pose proof (nmeta_pos start sb L).
  split; [|apply A; lia]. split; [done|]. by rewrite agree_used by lia.
Qed.

Section file.
Context (addrs : list Z).
Hypothesis O : inode_ok sb V addrs.
Lemma agree_blk bn : blk_of V' addrs bn = blk_of V addrs bn.
Proof using All.
  unfold blk_of. destruct (bn <? NDIRECT); [done|]. destruct (Z.eqb_spec (ind_of addrs) 0) as [|Hne]; [done|].
  by destruct (agree_data _ (io_ind _ _ _ O Hne)) as [_ ->].
Qed.
Lemma agree_fbyte o : 0 <= o < MAXFILE * BSIZE -> fbyte V' addrs o = fbyte V addrs o.
Proof using All.
  intros Ho. unfold fbyte. rewrite agree_blk. destruct (Z.eqb_spec (blk_of V addrs (o / BSIZE)) 0) as [|Hne]; [done|].
  assert (Hq : 0 <= o / BSIZE < MAXFILE) by (rewrite MAXFILE_val in *; fslia).
  by destruct (agree_data _ (proj1 (io_blk _ _ _ O _ Hq Hne))) as [_ ->].
Qed.
Lemma agree_ok : inode_ok sb V' addrs.
Proof using All.
  split; [apply O| | |].
  - intros H. by apply agree_data, O.
  - intros bn Hbn. rewrite agree_blk. intros H. destruct (io_blk _ _ _ O bn Hbn H). split; [by apply agree_data|done].
  - intros bn bm Hbn Hbm. rewrite !agree_blk. by apply O.
Qed.
End file.
End agree.

(** ** [iupdate] *)

Section iupdate.
Context (start pid : Z).
Notation TX := (tx start pid).

Lemma iupdate_ok s V l i :
  let ip := itable s !!! i in
  TX s V l [] [] -> in_op s -> layout start (sb s) -> i_dev ip = ROOTDEV ->
  0 <= i_inum ip < sb_ninodes (sb s) -> length (i_addrs ip) = naddrs -> (length l < NBUF)%nat ->
  exists s', iupdate i s = Ok tt s' /\
    TX s' (put_dinode_at (sb s) (i_inum ip) (to_dinode ip) V) (add (IBLOCK (i_inum ip) (sb s)) l) [] [] /\ fstep s s'.
Proof using.
  intros ip T Ho L Hdev Hi Ha Hl. unfold iupdate. erewrite bind_ok by done. fold ip. rewrite Hdev.
  erewrite bind_ok by done.
  destruct (tx_bread start pid s V l [] [] (IBLOCK (i_inum ip) (sb s)) T) as (bp & s1 & E1 & T1 & F1); [set_solver|right; simpl; lia|].
  erewrite bind_ok by exact E1. destruct (IBLOCK_home start (sb s) L _ Hi) as [Hh Hr].
  destruct (tx_modify start pid s1 V l [(bp, IBLOCK (i_inum ip) (sb s))] bp (IBLOCK (i_inum ip) (sb s))
    (put_dinode (dinode_off (i_inum ip)) (to_dinode ip)) (lift (brelse bp)) T1) as (s2 & E2 & T2 & F2);
    [by eapply fstep_op|apply list_elem_of_here| |done|done|lia|].
  { pose proof (tx_block_len _ _ _ _ _ _ _ (IBLOCK (i_inum ip) (sb s)) T1) as Hb.
    rewrite length_put_dinode; [done|rewrite Hb; apply dinode_off_fits|done]. }
  rewrite E2. destruct (tx_brelse start pid s2 _ _ _ _ _ _ T2) as (s3 & E3 & T3 & F3); [set_solver|].
  exists s3. split_and!; [done|done|]. eapply fstep_trans; [exact F1|]. by eapply fstep_trans.
Qed.
End iupdate.
