(* ===== verification/FsData.v ===== *)
(** * Reading and writing files

    [readi] and [writei] of [kernel/fs.c] on a file whose blocks are all
    there ([filled]), for a destination or a source in the kernel: reading
    delivers the bytes of the file, writing changes the bytes it says and no
    others.  Proved on the block contents of a transaction ([Txn]), with the
    blocks of a file as [FsFile] gives them. *)
From stdpp Require Import base numbers strings decidable sets gmap functions list.
From S2P Require Import Prelude.
From S2P Require Import Sched.
From S2P Require Import Spinlock.
From S2P Require Import Kalloc.
From S2P Require Import Vm.
From S2P Require Import Sleeplock.
From S2P Require Import Bio.
From S2P Require Import Transfer.
From S2P Require Import Log.
From S2P Require Import LogOps.
From S2P Require Import Fs.
From S2P Require Import Txn.
From S2P Require Import FsBlocks.
From S2P Require Import FsFile.

Set Default Proof Using "All".
Open Scope Z_scope.
Open Scope xv6_scope.

(** The blocks that hold bytes [lo] to [hi] are there. *)
Definition filled (V : disk) (addrs : list Z) (lo hi : Z) : Prop :=
  forall o, lo <= o < hi -> blk_of V addrs (o / BSIZE) <> 0.

(** [n] bytes from [off] on. *)
Definition fbytes (V : disk) (addrs : list Z) (off n : Z) : list Z := fbyte V addrs <$> seqZ off n.

Lemma fbytes_app V addrs off n m :
  0 <= n -> 0 <= m -> fbytes V addrs off (n + m) = fbytes V addrs off n ++ fbytes V addrs (off + n) m.
Proof. intros Hn Hm. unfold fbytes. by rewrite seqZ_app, fmap_app. Qed.

(** The bytes of one block. *)
Lemma fbytes_slice V addrs size off n :
  0 <= off -> 0 <= n -> n = 0 \/ off + n <= size ->
  fbytes V addrs off n = take (Z.to_nat n) (drop (Z.to_nat off) (fbytes V addrs 0 size)).
Proof.
  intros Ho Hn [->|Hs]; [done|].
  replace size with (off + (n + (size - off - n))) by lia. rewrite !fbytes_app by lia.
  rewrite drop_app_length', take_app_length'; [done|..]; unfold fbytes; by rewrite length_fmap, length_seqZ.
Qed.

Lemma fbytes_block V addrs off m :
  (forall b, length (V b) = bsize) -> 0 <= off -> 0 <= m <= BSIZE - off mod BSIZE ->
  blk_of V addrs (off / BSIZE) <> 0 ->
  take (Z.to_nat m) (drop (Z.to_nat (off mod BSIZE)) (V (blk_of V addrs (off / BSIZE)))) = fbytes V addrs off m.
Proof.
  intros Vl Ho Hm Hne. pose proof bsize_val as Hb. assert (Hr : 0 <= off mod BSIZE < BSIZE) by fslia.
  change BSIZE with 1024 in Hm, Hr. set (d := V (blk_of V addrs (off / BSIZE))).
  assert (Hd : length d = 1024%nat) by (unfold d; by rewrite Vl).
  apply list_eq. intros k. unfold fbytes. rewrite list_lookup_fmap.
  destruct (decide (k < Z.to_nat m)%nat) as [Hk|Hk].
  - rewrite lookup_take_lt, lookup_drop by done. rewrite lookup_seqZ_lt by lia. simpl. unfold fbyte.
    assert (Eq : (off + Z.of_nat k) / BSIZE = off / BSIZE /\ (off + Z.of_nat k) mod BSIZE = off mod BSIZE + Z.of_nat k).
    { change BSIZE with 1024 in *. clear Hd. Z.to_euclidean_division_equations. lia. }
    destruct Eq as [-> ->]. rewrite (proj2 (Z.eqb_neq _ 0)) by done. fold d.
    rewrite list_lookup_lookup_total_lt by (rewrite Hd; change BSIZE with 1024 in *; lia).
    f_equal. f_equal. change BSIZE with 1024 in *. lia.
  - rewrite lookup_take_ge by lia. rewrite lookup_seqZ_ge by lia. done.
Qed.

(** Iterations left: the blocks that [rem] bytes at [off] touch. *)
Definition touched (off rem : Z) : Z :=
  if rem =? 0 then 0 else (off mod BSIZE + rem + BSIZE - 1) / BSIZE.

Lemma touched_next off rem :
  0 <= off -> 0 < rem ->
  let m := Z.min rem (BSIZE - off mod BSIZE) in
  0 < m /\ (off + m) / BSIZE <= off / BSIZE + 1 /\
  (rem - m = 0 \/ (off + m) mod BSIZE = 0) /\
  touched (off + m) (rem - m) < touched off rem.
Proof.
  intros Ho Hr. unfold touched. change BSIZE with 1024. cbv zeta.
  destruct (Z.eqb_spec rem 0); [lia|].
  destruct (Z.min_spec rem (1024 - off mod 1024)) as [[Hc ->]|[Hc ->]].
  - rewrite Z.sub_diag. change (0 =? 0) with true. cbv iota. Z.to_euclidean_division_equations; lia.
  - destruct (Z.eqb_spec (rem - (1024 - off mod 1024)) 0); Z.to_euclidean_division_equations; lia.
Qed.
Lemma touched_fuel off n : 0 <= n -> 0 <= touched off n <= n / BSIZE + 2.
Proof.
  intros Hn. unfold touched. change BSIZE with 1024.
  destruct (Z.eqb_spec n 0); Z.to_euclidean_division_equations; lia.
Qed.

(** The mm of the file system's state. *)
Notation fmm s := (blk_mm (lg_blk (fs_log s))).

(** What reading leaves alone. *)
Record fsame (s s' : fs) : Prop := {
  fe_sb : sb s' = sb s;
  fe_itable : itable s' = itable s;
  fe_dsk : drive s' = drive s;
  fe_out : ops s' = ops s;
}.
Lemma fsame_refl s : fsame s s.
Proof. done. Qed.
Lemma fsame_trans s1 s2 s3 : fsame s1 s2 -> fsame s2 s3 -> fsame s1 s3.
Proof. intros [] []. split; congruence. Qed.
Lemma fstep_fsame s s' : fstep s s' -> fsame s s'.
Proof. by intros []. Qed.
Lemma fsame_mm (m : mm) s : fsame s (inj m s).
Proof. done. Qed.

Section readi.
Context (start pid : Z) (N : nat) (P : place -> list Z -> mm -> Prop) (E : list Z -> mm -> Prop).
Context `{!Sink pid N P E}.
Notation TX := (tx start pid).

(** One piece to the destination. *)
Lemma deliver s V l H D d acc bs :
  TX s V l H D -> P d acc (fmm s) -> (length acc + length bs <= N)%nat ->
  exists r s', lift (either_copyout d bs) s = Ok r s' /\ TX s' V l H D /\ fsame s s' /\
    ((r = 0 /\ P (place_add d (Z.of_nat (length bs))) (acc ++ bs) (fmm s')) \/ (r = -1 /\ E acc (fmm s'))).
Proof.
  intros T Hp Hl. pose proof (tx_running _ _ _ _ _ _ _ T) as Hr.
  destruct (sk_put d acc bs (fmm s) Hp Hr Hl) as (r & m & Eo & Hr' & HR).
  exists r, (inj m s). split_and!; [by apply lift_ok|by apply tx_mm|by apply fsame_mm|done].
Qed.

Lemma readi_loop_ok fuel s V l i dst tot off n acc :
  let addrs := i_addrs (itable s !!! i) in
  TX s V l [] [] -> i_dev (itable s !!! i) = ROOTDEV -> (length l < NBUF)%nat ->
  0 <= off -> tot = Z.of_nat (length acc) -> tot <= n <= Z.of_nat N -> n < 2 ^ 31 ->
  off + (n - tot) <= MAXFILE * BSIZE -> filled V addrs off (off + (n - tot)) ->
  P dst acc (fmm s) -> (Z.to_nat (touched off (n - tot)) < fuel)%nat ->
  exists r out s', readi_loop fuel i dst tot off n acc s = Ok (r, out) s' /\
    TX s' V l [] [] /\ fsame s s' /\
    ((r = n /\ out = acc ++ fbytes V addrs off (n - tot) /\ exists d, P d out (fmm s')) \/
     (r = -1 /\ exists k, 0 <= k < n - tot /\ out = acc ++ fbytes V addrs off k /\ E out (fmm s'))).
Proof.
  revert s dst tot off acc. induction fuel as [|fuel IH];
    intros s dst tot off acc addrs T Hdev Hl Ho Ht Hn Hn31 Hmax Hfil Hp Hf; [lia|].
  cbn [readi_loop]. destruct (Z.ltb_spec tot n) as [Hlt|Hge].
  2: { assert (tot = n) as -> by lia. exists (s32 n), acc, s. split_and!; [done|done|apply fsame_refl|]. left.
       rewrite Z.sub_diag. unfold fbytes. rewrite seqZ_nil, app_nil_r by lia.
       split_and!; [|done|by exists dst]. apply s32_small. lia. }
  erewrite bind_ok by done.
  assert (Hbn : 0 <= off / BSIZE < MAXFILE) by (rewrite MAXFILE_val in *; fslia).
  assert (Hne : blk_of V addrs (off / BSIZE) <> 0) by (apply Hfil; lia).
  destruct (bmap_found start pid s V l i (off / BSIZE) T Hdev Hbn Hl Hne) as (s1 & E1 & T1 & F1).
  erewrite bind_ok by exact E1. fold addrs. rewrite (proj2 (Z.eqb_neq _ 0)) by done. rewrite Hdev.
  destruct (tx_bread start pid s1 V l [] [] (blk_of V addrs (off / BSIZE)) T1) as (bp & s2 & E2 & T2 & F2);
    [set_solver|right; simpl; lia|].
  erewrite bind_ok by exact E2.
  erewrite bind_ok by (eapply tx_data; [exact T2|apply list_elem_of_here]). cbv zeta.
  destruct (touched_next off (n - tot) Ho ltac:(lia)) as (Hm & Hq & Hal & Hd).
  set (m := Z.min (n - tot) (BSIZE - off mod BSIZE)) in *.
  assert (Hm2 : 0 <= m <= BSIZE - off mod BSIZE) by lia.
  rewrite fbytes_block by (try done; by eapply tx_len).
  set (bs := fbytes V addrs off m). assert (Hbs : length bs = Z.to_nat m).
  { unfold bs, fbytes. by rewrite length_fmap, length_seqZ. }
  destruct (deliver s2 V l _ [] dst acc bs T2) as (r & s3 & E3 & T3 & F3 & HR).
  { eapply sk_woke; [eapply sk_woke; [exact Hp|apply F1]|apply F2]. } { lia. }
  erewrite bind_ok by exact E3.
  destruct (tx_brelse start pid s3 _ _ _ _ _ _ T3) as (s4 & E4 & T4 & F4); [set_solver|].
  assert (F : fsame s s4).
  { eapply fsame_trans; [apply fstep_fsame; exact F1|]. eapply fsame_trans; [apply fstep_fsame; exact F2|].
    eapply fsame_trans; [exact F3|]. by apply fstep_fsame. }
  destruct HR as [[-> Hp']|[-> HE]].
  2: { exists (-1), acc, s4. change (-1 =? -1) with true. cbv iota. erewrite bind_ok by exact E4. split_and!; [done|done|done|]. right. split; [done|].
       exists 0. split_and!; [lia|lia| |].
       - unfold fbytes. rewrite seqZ_nil, app_nil_r by lia. done.
       - eapply sk_fail_woke; [exact HE|apply F4]. }
  change (0 =? -1) with false. cbv iota. erewrite bind_ok by exact E4.
  assert (Hu : u32 (off + m) = off + m).
  { unfold u32. apply Z.mod_small. rewrite MAXFILE_val in Hmax. change BSIZE with 1024 in Hmax. lia. }
  rewrite Hu. assert (Em : Z.of_nat (length bs) = m) by lia. rewrite Em in Hp'.
  destruct (IH s4 (place_add dst m) (tot + m) (off + m) (acc ++ bs)) as (r & out & s5 & E5 & T5 & F5 & HR);
    rewrite ?(fe_itable _ _ F); try done; try lia.
  - len.
  - intros o Hr. apply Hfil. lia.
  - eapply sk_woke; [exact Hp'|apply F4].
  - pose proof (touched_fuel (off + m) (n - tot - m)). replace (n - (tot + m)) with (n - tot - m) by lia. lia.
  - exists r, out, s5. fold addrs in HR. split_and!; [done|done|by eapply fsame_trans|].
    rewrite (fe_itable _ _ F) in HR. fold addrs in HR.
    destruct HR as [(-> & -> & Hd')|(-> & k & Hk & -> & HE)]; [left|right]; (split; [done|]).
    + split; [|done]. unfold bs. rewrite <- app_assoc, <- fbytes_app by lia. by replace (m + (n - (tot + m))) with (n - tot) by lia.
    + exists (m + k). split; [lia|]. split; [|done]. unfold bs. by rewrite <- app_assoc, <- fbytes_app by lia.
Qed.

(** The bytes [readi] has to deliver. *)
Definition readable (size off n : Z) : Z :=
  if off + n <? 2 ^ 32 then Z.max 0 (Z.min n (size - off)) else 0.

Lemma readi_ok s V l i dst off n :
  let ip := itable s !!! i in let len := readable (i_size ip) off n in
  TX s V l [] [] -> i_dev ip = ROOTDEV -> (length l < NBUF)%nat ->
  0 <= off < 2 ^ 32 -> 0 <= n < 2 ^ 32 -> n <= Z.of_nat N ->
  0 <= i_size ip <= MAXFILE * BSIZE -> filled V (i_addrs ip) 0 (i_size ip) -> P dst [] (fmm s) ->
  exists r out s', readi i dst off n s = Ok (r, out) s' /\ TX s' V l [] [] /\ fsame s s' /\
    ((r = len /\ out = fbytes V (i_addrs ip) off len /\ exists d, P d out (fmm s')) \/
     (r = -1 /\ exists k, 0 <= k < len /\ out = fbytes V (i_addrs ip) off k /\ E out (fmm s'))).
Proof.
  intros ip len T Hdev Hl Ho Hn HN Hsz Hfil Hp. unfold readi. erewrite bind_ok by done. fold ip.
  assert (Eu : u32 (off + n) = if off + n <? 2 ^ 32 then off + n else off + n - 2 ^ 32).
  { unfold u32. destruct (Z.ltb_spec (off + n) (2 ^ 32)); [by apply Z.mod_small; lia|].
    symmetry. apply Z.mod_unique with 1; lia. }
  rewrite Eu. change (MAXFILE * BSIZE) with 274432 in Hsz.
  assert (Hnone : (i_size ip <? off) || ((if off + n <? 2 ^ 32 then off + n else off + n - 2 ^ 32) <? off) = true -> len = 0).
  { unfold len, readable. destruct (Z.ltb_spec (off + n) (2 ^ 32)); [|done].
    rewrite (proj2 (Z.ltb_ge (off + n) off)), orb_false_r by lia. intros ?%Z.ltb_lt. lia. }
  destruct (_ || _) eqn:Ec.
  { exists 0, [], s. split_and!; [done|done|apply fsame_refl|]. left. rewrite Hnone by done.
    unfold fbytes. rewrite seqZ_nil by lia. split_and!; [done|done|by exists dst]. }
  apply orb_false_iff in Ec as [E1 E2]. apply Z.ltb_ge in E1. unfold len, readable.
  destruct (Z.ltb_spec (off + n) (2 ^ 32)) as [Hov|Hov]; [|apply Z.ltb_ge in E2; lia].
  set (k := if i_size ip <? off + n then i_size ip - off else n).
  assert (Ek : k = Z.max 0 (Z.min n (i_size ip - off))).
  { unfold k. destruct (Z.ltb_spec (i_size ip) (off + n)); lia. }
  rewrite <- Ek. pose proof (touched_fuel off k ltac:(lia)).
  destruct (readi_loop_ok (S (S (Z.to_nat (k / BSIZE + 1)))) s V l i dst 0 off k [])
    as (r & out & s' & Er & T' & F & HR); try done; try lia.
  - change (MAXFILE * BSIZE) with 274432. lia.
  - intros o Hr. apply Hfil. lia.
  - rewrite Z.sub_0_r. assert (0 <= k / BSIZE) by (apply Z.div_pos; [lia|done]). lia.
  - exists r, out, s'. rewrite Z.sub_0_r in HR. by split_and!.
Qed.
End readi.
