(* ===== verification/FsWrite.v ===== *)
(** * Writing files

    [writei] of [kernel/fs.c], for any source that has the bytes
    ([Transfer.Supply]): the bytes of the file change where it says and
    nowhere else, the blocks and inodes of others stay as they are, and the
    log grows by no more than the blocks the write touches. *)
From stdpp Require Import base numbers strings decidable sets gmap functions list.
From S2P Require Import Prelude.
From S2P Require Import Sched.
From S2P Require Import Spinlock.
From S2P Require Import Kalloc.
From S2P Require Import Vm.
From S2P Require Import Sleeplock.
From S2P Require Import Bio.
From S2P Require Import Transfer.
From S2P Require Import Log.
From S2P Require Import LogOps.
From S2P Require Import Fs.
From S2P Require Import Txn.
From S2P Require Import FsBlocks.
From S2P Require Import FsFile.
From S2P Require Import FsInode.
From S2P Require Import FsData.

Set Default Proof Using "All".
Open Scope Z_scope.
Open Scope xv6_scope.

(** ** The log of a write *)

(** Blocks from number [lo] on that hold bytes before [hi]. *)
Definition nblk (lo hi : Z) : nat := Z.to_nat ((hi + BSIZE - 1) / BSIZE - lo).
(** Blocks of the free map. *)
Definition nbitmap (sb : superblock) : nat := Z.to_nat (nmeta sb - sb_bmapstart sb).

(** [l] is [l0] with blocks of the free map, the indirect block and blocks of
    that range added. *)
Definition grown (sb : superblock) (V : disk) (addrs : list Z) (l0 : list Z) (lo hi : Z) (l : list Z) : Prop :=
  forall c, c ∈ l -> c ∈ l0 \/ sb_bmapstart sb <= c < nmeta sb \/
    (c <> 0 /\ (c = ind_of addrs \/ exists bn, lo <= bn /\ bn * BSIZE < hi /\ c = blk_of V addrs bn)).

Lemma grown_len sb V addrs l0 lo hi l :
  NoDup l -> grown sb V addrs l0 lo hi l ->
  (length l <= length l0 + nbitmap sb + 1 + nblk lo hi)%nat.
Proof.
  intros Hn G.
  set (u := l0 ++ seqZ (sb_bmapstart sb) (nmeta sb - sb_bmapstart sb) ++ [ind_of addrs] ++
    (blk_of V addrs <$> seqZ lo ((hi + BSIZE - 1) / BSIZE - lo))).
  assert (Hu : length u = (length l0 + nbitmap sb + 1 + nblk lo hi)%nat).
  { unfold u. rewrite !length_app, length_fmap, !length_seqZ. simpl. unfold nbitmap, nblk. lia. }
  rewrite <- Hu. apply submseteq_length. apply NoDup_submseteq; [done|]. intros c Hc. unfold u.
  rewrite !elem_of_app, elem_of_seqZ, list_elem_of_singleton.
  destruct (G c Hc) as [?|[?|[_ [?|(bn & Hlo & Hhi & ->)]]]]; [by left|right; left; lia|by right; right; left|].
  right; right; right. apply list_elem_of_fmap. exists bn. split; [done|]. apply elem_of_seqZ. split; [done|].
  revert Hhi. change BSIZE with 1024. Z.to_euclidean_division_equations; lia.
Qed.

Lemma grown_from sb V addrs l0 lo lo' hi l :
  lo' <= lo -> grown sb V addrs l0 lo hi l -> grown sb V addrs l0 lo' hi l.
Proof.
  intros Hlo G c Hc. destruct (G c Hc) as [|[|[Hne [|(bn & ? & ? & ?)]]]]; [by auto..|].
  right; right. split; [done|]. right. exists bn. split_and!; [lia|done|done].
Qed.

Lemma grown_step sb V addrs V' addrs' l0 lo hi l l' :
  0 <= lo -> hi <= MAXFILE * BSIZE -> evolves sb V addrs V' addrs' -> grown sb V addrs l0 lo hi l ->
  grown sb V' addrs' l lo hi l' -> grown sb V' addrs' l0 lo hi l'.
Proof.
  intros Hlo Hhi Ev G G' c Hc. destruct (G' c Hc) as [H|[|]]; [|by auto..].
  destruct (G c H) as [|[|[Hne Hb]]]; [by auto..|]. right; right. split; [done|].
  destruct Hb as [->|(bn & H1 & H2 & ->)].
  - left. symmetry. by apply (ev_ind _ _ _ _ _ Ev).
  - right. exists bn. split_and!; [done|done|]. symmetry. apply (ev_map _ _ _ _ _ Ev); [|done].
    rewrite MAXFILE_val in *. fslia.
Qed.

(** ** A step that changes file [i] and user memory *)

Record istep (i : nat) (addrs : list Z) (s s' : fs) : Prop := {
  is_sb : sb s' = sb s;
  is_itable : itable s' = <[i := (itable s !!! i) <| i_addrs := addrs |>]> (itable s);
  is_dsk : drive s' = drive s;
  is_out : ops s' = ops s;
}.
Lemma bstep_istep i a s s' : bstep i a s s' -> istep i a s s'.
Proof. by intros []. Qed.
Lemma istep_fsame i a s1 s2 s3 : istep i a s1 s2 -> fsame s2 s3 -> istep i a s1 s3.
Proof. intros [] []. split; congruence. Qed.
Lemma istep_inode i a s s' :
  istep i a s s' -> (i < length (itable s))%nat ->
  itable s' !!! i = (itable s !!! i) <| i_addrs := a |> /\ (i < length (itable s'))%nat.
Proof.
  intros [] Hi. rewrite is_itable0. split; [by apply list_lookup_total_insert_eq|by rewrite length_insert].
Qed.
Lemma istep_trans i a1 a2 s1 s2 s3 :
  istep i a1 s1 s2 -> istep i a2 s2 s3 -> (i < length (itable s1))%nat -> istep i a2 s1 s3.
Proof.
  intros B1 B2 Hi. destruct (istep_inode _ _ _ _ B1 Hi) as [E _]. destruct B1, B2. split; try congruence.
  rewrite is_itable1, E, is_itable0, list_insert_insert_eq. by destruct (itable s1 !!! i).
Qed.
Lemma istep_same i s : (i < length (itable s))%nat -> istep i (i_addrs (itable s !!! i)) s s.
Proof. intros Hi. split; try done. by rewrite itable_same. Qed.
Lemma istep_op i a s s' : istep i a s s' -> in_op s -> in_op s'.
Proof. unfold in_op. by intros [_ _ _ ->]. Qed.

(** ** The bytes of a write *)

Lemma agree_fbytes start sb V V' addrs n :
  layout start sb -> agree sb V V' -> inode_ok sb V addrs -> n <= MAXFILE * BSIZE ->
  fbytes V' addrs 0 n = fbytes V addrs 0 n.
Proof.
  intros L A O Hn. unfold fbytes. apply list_fmap_ext. intros j x Hx. apply lookup_seqZ in Hx as [-> Hj].
  apply (agree_fbyte start sb); [done|done|done|lia].
Qed.

(** The file with addresses [addrs] gets the first [k] bytes of [bs] at [off]
    and nothing else changes. *)
Record extends (sb : superblock) (V : disk) (addrs : list Z) (off : Z) (bs : list Z) (k : Z)
    (V' : disk) (addrs' : list Z) : Prop := {
  ex_ev : evolves sb V addrs V' addrs';
  ex_bytes : forall o, 0 <= o < MAXFILE * BSIZE ->
    fbyte V' addrs' o = if decide (off <= o < off + k) then bs !!! Z.to_nat (o - off) else fbyte V addrs o;
  ex_filled : filled V' addrs' off (off + k);
}.
Lemma extends_refl sb V addrs off bs :
  inode_ok sb V addrs -> meta_used sb V -> extends sb V addrs off bs 0 V addrs.
Proof.
  intros O M. split; [by apply evolves_refl| |].
  - intros o Ho. by rewrite decide_False by lia.
  - intros o Ho. lia.
Qed.
Lemma extends_trans sb V addrs off bs m V2 a2 k V3 a3 :
  0 <= off -> off + m + k <= MAXFILE * BSIZE -> 0 <= m <= Z.of_nat (length bs) -> 0 <= k ->
  extends sb V addrs off bs m V2 a2 -> extends sb V2 a2 (off + m) (drop (Z.to_nat m) bs) k V3 a3 ->
  extends sb V addrs off bs (m + k) V3 a3.
Proof.
  intros Hoff Hmax Hm Hk [Ev1 By1 Fi1] [Ev2 By2 Fi2]. split; [by eapply evolves_trans| |].
  - intros o Ho. rewrite By2 by done. destruct (decide (off + m <= o < off + m + k)) as [Hx|Hx].
    + rewrite decide_True by lia. rewrite !list_lookup_total_alt, lookup_drop. do 2 f_equal. lia.
    + rewrite By1 by done. destruct (decide (off <= o < off + m)).
      * by rewrite decide_True by lia.
      * by rewrite decide_False by lia.
  - intros o Ho. destruct (decide (o < off + m)); [|apply Fi2; lia].
    pose proof (Fi1 o ltac:(lia)) as Hne. rewrite (ev_map _ _ _ _ _ Ev2); [done| |done].
    rewrite MAXFILE_val in *. fslia.
Qed.

Section writei.
Context (start pid : Z) (Q : source -> list Z -> mm -> Prop) `{!Supply pid Q}.
Notation TX := (tx start pid).

(** What writing the first [k] bytes of [bs] at [off] does. *)
Record wrote (s : fs) (V : disk) (l : list Z) (i : nat) (off : Z) (bs : list Z) (hi : Z) (k : Z)
    (s' : fs) (V' : disk) (l' addrs' : list Z) : Prop := {
  wr_tx : TX s' V' l' [] [];
  wr_step : istep i addrs' s s';
  wr_ev : evolves (sb s) V (i_addrs (itable s !!! i)) V' addrs';
  wr_bytes : forall o, 0 <= o < MAXFILE * BSIZE ->
    fbyte V' addrs' o = if decide (off <= o < off + k) then bs !!! Z.to_nat (o - off)
                        else fbyte V (i_addrs (itable s !!! i)) o;
  wr_filled : filled V' addrs' off (off + k);
  wr_log : grown (sb s) V' addrs' l (off / BSIZE) hi l';
}.

Lemma open_istep s V l i s' V' l' addrs' :
  open_inode start pid s V l i -> TX s' V' l' [] [] -> istep i addrs' s s' ->
  evolves (sb s) V (i_addrs (itable s !!! i)) V' addrs' ->
  open_inode start pid s' V' l' i /\ i_addrs (itable s' !!! i) = addrs'.
Proof using.
  intros [T L M Hi Hd O] T' B Ev. destruct (istep_inode _ _ _ _ B Hi) as [Ei Hi']. split; [|by rewrite Ei].
  split; rewrite ?(is_sb _ _ _ _ B), ?Ei; try done; apply Ev.
Qed.

(** The bytes of a block with some of them replaced. *)
Lemma splice_total (off : nat) (xs d : list Z) (k : nat) :
  (off + length xs <= length d)%nat -> (k < length d)%nat ->
  splice off xs d !!! k = if decide (off <= k < off + length xs)%nat then xs !!! (k - off)%nat else d !!! k.
Proof using.
  intros Hf Hk. rewrite !list_lookup_total_alt. case_decide.
  - by rewrite lookup_splice_in by lia.
  - by rewrite lookup_splice_out by lia.
Qed.

Lemma block_fbyte sb V addrs off m bs o :
  inode_ok sb V addrs -> (forall b, length (V b) = bsize) -> 0 <= off -> off / BSIZE < MAXFILE ->
  0 <= m <= BSIZE - off mod BSIZE -> m <= Z.of_nat (length bs) ->
  let a := blk_of V addrs (off / BSIZE) in
  let V' := <[a := splice (Z.to_nat (off mod BSIZE)) (take (Z.to_nat m) bs) (V a)]> V in
  a <> 0 -> (forall bm, 0 <= bm < MAXFILE -> blk_of V' addrs bm = blk_of V addrs bm) ->
  0 <= o < MAXFILE * BSIZE ->
  fbyte V' addrs o = if decide (off <= o < off + m) then bs !!! Z.to_nat (o - off) else fbyte V addrs o.
Proof using.
  intros O Vl Hoff Hq Hm Hbs a V' Ha Hmap Ho. unfold V'. unfold a in *.
  assert (0 <= off / BSIZE) by fslia.
  rewrite (write_fbyte sb) by (done || lia). pose proof bsize_val as Hb.
  assert (Hlen : length (take (Z.to_nat m) bs) = Z.to_nat m) by len.
  case_decide as E.
  - rewrite splice_total; rewrite ?Vl, ?Hlen, ?Hb; [|fslia|fslia].
    destruct (decide (off <= o < off + m)) as [Hi|Hi].
    + rewrite decide_True by fslia. rewrite !list_lookup_total_alt, lookup_take_lt by fslia. do 2 f_equal. fslia.
    + rewrite decide_False by fslia. unfold fbyte. rewrite E. by rewrite (proj2 (Z.eqb_neq _ 0)).
  - rewrite decide_False; [done|]. fslia.
Qed.

(** The part of the loop of [writei] that follows [bmap]. *)
Lemma write_block {A} s V l i off src bs m hi (fail : M fs A) (k : M fs A) :
  let addrs := i_addrs (itable s !!! i) in let a := blk_of V addrs (off / BSIZE) in
  open_inode start pid s V l i -> in_op s -> 0 <= off -> off / BSIZE < MAXFILE -> a <> 0 ->
  0 < m <= BSIZE - off mod BSIZE -> m <= Z.of_nat (length bs) -> off < hi ->
  Q src bs (fmm s) -> (length l < NBUF)%nat ->
  exists s' V', (bp <- lift (bread ROOTDEV a) ;;
     '(r, bs) <- lift (either_copyin src (Z.to_nat m)) ;;
     upd_data bp (splice (Z.to_nat (off mod BSIZE)) bs) ;;
     if r =? -1 then lift (brelse bp) ;; fail
     else lift (log_write bp) ;; lift (brelse bp) ;; k) s = k s' /\
    wrote s V l i off bs hi m s' V' (add a l) addrs /\
    Q (source_add src m) (drop (Z.to_nat m) bs) (fmm s').
Proof.
  intros addrs a Op Hop Hoff Hq Ha Hm Hbs Hhi HQ Hl. pose proof Op as [T L M Hi Hd O].
  destruct (tx_bread start pid s V l [] [] a T) as (bp & s1 & E1 & T1 & F1); [set_solver|right; simpl; lia|].
  erewrite bind_ok by exact E1.
  destruct (sp_get src bs (fmm s1) (Z.to_nat m)) as (mm' & Ec & Hr & HQ'); [by eapply sp_woke; [|apply F1]|by eapply tx_running|lia|].
  erewrite bind_ok by (apply lift_ok; exact Ec). cbv beta iota. change (0 =? -1) with false. cbv iota.
  set (s2 := inj mm' s1).
  assert (T2 : TX s2 V l [(bp, a)] []) by (by apply tx_mm).
  assert (Hab : 0 <= off / BSIZE < MAXFILE) by (split; [fslia|done]).
  destruct (io_blk _ _ _ O (off / BSIZE) Hab Ha) as [[Hra _] _].
  destruct (data_home start (sb s) L a Hra) as [Hh Hr'].
  destruct (tx_modify start pid s2 V l [(bp, a)] bp a (splice (Z.to_nat (off mod BSIZE)) (take (Z.to_nat m) bs))
    (lift (brelse bp) ;; k) T2) as (s3 & E3 & T3 & F3); [|apply list_elem_of_here| |done|done|lia|].
  { change (in_op s1). by eapply fstep_op. }
  { rewrite length_splice; [by eapply tx_block_len|]. rewrite (tx_block_len _ _ _ _ _ _ _ _ T2), bsize_val.
    rewrite length_take. fslia. }
  rewrite E3. destruct (tx_brelse start pid s3 _ _ _ _ _ _ T3) as (s4 & E4 & T4 & F4); [set_solver|].
  erewrite bind_ok by exact E4. eexists s4, _. split; [done|].
  destruct (write_evolves start (sb s) V addrs (off / BSIZE) (splice (Z.to_nat (off mod BSIZE)) (take (Z.to_nat m) bs) (V a)))
    as [Ev Hmap]; try done.
  assert (F : fsame s s4).
  { eapply fsame_trans; [apply fstep_fsame; exact F1|]. eapply fsame_trans; [apply (fsame_mm mm')|].
    eapply fsame_trans; apply fstep_fsame; [exact F3|exact F4]. }
  split.
  - split; [done| |done| | |].
    + eapply istep_fsame; [by apply istep_same|done].
    + intros o Ho'. apply (block_fbyte (sb s)); try done; [by eapply tx_len|lia].
    + intros o Hr2. replace (o / BSIZE) with (off / BSIZE) by fslia. by rewrite Hmap.
    + intros c [->|]%elem_of_add_2; [|by left]. right; right. split; [done|]. right. exists (off / BSIZE).
      split_and!; [done|fslia|]. symmetry. by apply Hmap.
  - rewrite Z2Nat.id in HQ' by lia. eapply sp_woke; [|apply F4]. by eapply sp_woke; [|apply F3].
Qed.

Lemma wrote_trans s V l i off bs hi m s2 V2 l2 a2 k s3 V3 l3 a3 :
  (i < length (itable s))%nat -> i_addrs (itable s2 !!! i) = a2 ->
  0 <= off -> hi <= MAXFILE * BSIZE -> off + m + k <= hi -> 0 <= m <= Z.of_nat (length bs) -> 0 <= k ->
  wrote s V l i off bs hi m s2 V2 l2 a2 ->
  wrote s2 V2 l2 i (off + m) (drop (Z.to_nat m) bs) hi k s3 V3 l3 a3 ->
  wrote s V l i off bs hi (m + k) s3 V3 l3 a3.
Proof using.
  intros Hi Ea Hoff Hmax Hhi Hm Hk [T1 B1 Ev1 By1 Fi1 Lg1] [T2 B2 Ev2 By2 Fi2 Lg2].
  rewrite Ea, (is_sb _ _ _ _ B1) in *.
  destruct (extends_trans (sb s) V (i_addrs (itable s !!! i)) off bs m V2 a2 k V3 a3) as [Ev By Fi]; try done; [lia|].
  split; [done|by eapply istep_trans|done|done|done|].
  - eapply (grown_step _ V2 a2); try done; [fslia|]. eapply grown_from; [|exact Lg2].
    apply Z.div_le_mono; [done|lia].
Qed.

Lemma writei_loop_ok fuel s V l i src tot off n bs hi l0 lo :
  let addrs := i_addrs (itable s !!! i) in
  open_inode start pid s V l i -> in_op s -> 0 <= off -> 0 <= tot <= n -> n < 2 ^ 31 ->
  hi = off + (n - tot) -> hi <= MAXFILE * BSIZE ->
  Z.of_nat (length bs) = n - tot -> Q src bs (fmm s) ->
  0 <= lo <= off / BSIZE -> NoDup l -> grown (sb s) V addrs l0 lo hi l ->
  (length l0 + nbitmap (sb s) + nblk lo hi + 6 < NBUF)%nat ->
  (Z.to_nat (touched off (n - tot)) < fuel)%nat ->
  exists k s' V' l' addrs', writei_loop fuel i src tot off n s = Ok (tot + k, off + k) s' /\
    0 <= k <= n - tot /\ wrote s V l i off bs hi k s' V' l' addrs' /\
    (k < n - tot -> full (sb s) V') /\ exists src', Q src' (drop (Z.to_nat k) bs) (fmm s').
Proof.
  revert s V l src tot off bs. induction fuel as [|fuel IH];
    intros s V l src tot off bs addrs Op Hop Hoff Htot Hn31 Hhi Hmax Hbs HQ Hlo Hnd Hg Hroom Hf; [lia|].
  pose proof Op as [T L M Hi Hd O].
  assert (Hz : istep i addrs s s) by (by apply istep_same).
  assert (Hev : evolves (sb s) V addrs V addrs) by (by apply evolves_refl).
  cbn [writei_loop]. destruct (Z.ltb_spec tot n) as [Hlt|Hge].
  2: { exists 0, s, V, l, addrs. rewrite !Z.add_0_r. split_and!; [done|lia|lia| |lia|by exists src].
       split; try done; [..|by left]; [intros o Ho; by rewrite decide_False by lia|].
       intros o Ho. lia. }
  erewrite bind_ok by done. rewrite Hd.
  assert (Hbn : 0 <= off / BSIZE < MAXFILE) by (rewrite MAXFILE_val in *; fslia).
  pose proof (grown_len _ _ _ _ _ _ _ Hnd Hg) as Hlen.
  destruct (bmap_ok start pid s V l i (off / BSIZE) Op Hop Hbn) as (a & s1 & V1 & l1 & addrs1 & E1 & Ea & Mp & Hfl & _);
    [lia|].
  erewrite bind_ok by exact E1.
  destruct (mapped_open start pid _ _ _ _ _ _ _ _ _ Op Mp) as (Op1 & Ea1 & Esb).
  destruct Mp as [T1 B1 Ev1 By1 Lg1 Ln1]. fold addrs in Ev1, By1.
  assert (G1 : grown (sb s) V1 addrs1 l (off / BSIZE) hi l1).
  { intros c Hc. destruct (Lg1 c Hc) as [|[|[Hx Hne]]]; [by auto..|]. right; right. split; [done|].
    apply elem_of_cons in Hx as [->|Hx]; [by left|apply list_elem_of_singleton in Hx as ->; right].
    exists (off / BSIZE). split_and!; [lia|fslia|done]. }
  destruct (Z.eqb_spec a 0) as [Haz|Haz].
  { exists 0, s1, V1, l1, addrs1. rewrite !Z.add_0_r. split_and!; [done|lia|lia| |by intros _; apply Hfl|].
    2: { exists src. eapply sp_woke; [exact HQ|apply B1]. }
    split; [done|by apply bstep_istep|done| | |done].
    - intros o Ho. rewrite decide_False by lia. by apply By1.
    - intros o Ho. lia. }
  destruct (touched_next off (n - tot) Hoff ltac:(lia)) as (Hm & Hq & Hal & Hdec).
  set (m := Z.min (n - tot) (BSIZE - off mod BSIZE)) in *.
  assert (Hop1 : in_op s1) by (by eapply bstep_op).
  assert (Hl1 : NoDup l1) by apply T1.
  pose proof (grown_step _ _ _ _ _ _ _ _ _ _ (proj1 Hlo) Hmax Ev1 Hg (grown_from _ _ _ _ _ lo _ _ (proj2 Hlo) G1)) as G01.
  pose proof (grown_len _ _ _ _ _ _ _ Hl1 G01) as Hlen1.
  assert (HQ1 : Q src bs (fmm s1)) by (eapply sp_woke; [exact HQ|apply B1]).
  set (next := writei_loop fuel i (source_add src m) (tot + m) (u32 (off + m)) n).
  destruct (write_block s1 V1 l1 i off src bs m hi (ret (tot, off)) next) as (s2 & V2 & E2 & Wr & HQ2);
    rewrite ?Ea1, <- ?Ea; try done; try lia.
  rewrite Ea1, <- Ea in E2, Wr. rewrite E2. unfold next.
  rewrite u32_small by (rewrite MAXFILE_val in Hmax; change BSIZE with 1024 in Hmax; lia).
  destruct Wr as [T2 B2 Ev2 By2 Fi2 Lg2]. rewrite Ea1, Esb in *.
  destruct (open_istep s1 V1 l1 i s2 V2 _ addrs1 Op1 T2 B2) as [Op2 Ea2]; [by rewrite Ea1, Esb|].
  pose proof (istep_trans _ _ _ _ _ _ (bstep_istep _ _ _ _ B1) B2 Hi) as B12.
  pose proof (evolves_trans _ _ _ _ _ _ _ Ev1 Ev2) as Ev12.
  pose proof (grown_step _ _ _ _ _ _ _ _ _ _ (proj1 Hbn) Hmax Ev2 G1 Lg2) as Lg12.
  destruct (IH s2 V2 (add a l1) (source_add src m) (tot + m) (off + m) (drop (Z.to_nat m) bs))
    as (k & s3 & V3 & l3 & addrs3 & E3 & Hk & Wr3 & Hfull & src' & HQ3); rewrite ?(is_sb _ _ _ _ B12), ?Ea2; try done; try lia.
  - by eapply istep_op.
  - len.
  - split; [lia|]. etrans; [exact (proj2 Hlo)|]. apply Z.div_le_mono; [done|lia].
  - apply T2.
  - eapply (grown_step _ V1 addrs1); try done; [lia|]. eapply grown_from; [|exact Lg2]. lia.
  - pose proof (touched_fuel (off + m) (n - tot - m)). replace (n - (tot + m)) with (n - tot - m) by lia. lia.
  - exists (m + k), s3, V3, l3, addrs3. split_and!; [|lia|lia| | |].
    + rewrite E3. do 2 f_equal; lia.
    + eapply wrote_trans; try done; try lia. split; try done. intros o Ho. rewrite By2 by done.
      by rewrite By1 by done.
    + intros Hx. rewrite (is_sb _ _ _ _ B12) in Hfull. apply Hfull. lia.
    + exists src'. rewrite drop_drop in HQ3. by replace (Z.to_nat (m + k)) with (Z.to_nat m + Z.to_nat k)%nat by lia.
Qed.

(** ** A file in memory *)

Record file (s : fs) (V : disk) (l : list Z) (i : nat) : Prop := {
  fl_open : open_inode start pid s V l i;
  fl_inum : 0 <= i_inum (itable s !!! i) < sb_ninodes (sb s);
  fl_size : 0 <= i_size (itable s !!! i) <= MAXFILE * BSIZE;
  fl_filled : filled V (i_addrs (itable s !!! i)) 0 (i_size (itable s !!! i));
  fl_short : Forall short [i_type (itable s !!! i); i_major (itable s !!! i); i_minor (itable s !!! i); i_nlink (itable s !!! i)];
}.

Lemma ok_words sb V addrs : layout start sb -> inode_ok sb V addrs -> Forall word addrs.
Proof using.
  intros L O. apply Forall_lookup. intros k a Hk. pose proof (lookup_lt_Some _ _ _ Hk) as Hlt.
  rewrite (io_len _ _ _ O), naddrs_val in Hlt. pose proof (nmeta_pos start sb L). pose proof (ly_size _ _ L).
  assert (Hw : forall c, c = 0 \/ data sb V c -> word c) by (intros c [->|[? _]]; unfold word; lia).
  apply Hw. destruct (decide (a = 0)); [by left|right]. destruct (decide (k = 12)%nat) as [->|Hk12].
  - assert (E : ind_of addrs = a) by (by apply list_lookup_total_correct). rewrite <- E. apply (io_ind _ _ _ O). congruence.
  - assert (E : blk_of V addrs (Z.of_nat k) = a).
    { rewrite blk_direct by (unfold NDIRECT; lia). rewrite Nat2Z.id. by apply list_lookup_total_correct. }
    rewrite <- E. apply (io_blk _ _ _ O); [rewrite MAXFILE_val; lia|congruence].
Qed.

Lemma file_fits s V l i : file s V l i -> dinode_fits (to_dinode (itable s !!! i)).
Proof using.
  intros [[T L M Hi Hd O] ? Hsz Hf Hs]. repeat rewrite Forall_cons in Hs. destruct Hs as (? & ? & ? & ? & _).
  split; try done; [|by eapply ok_words|apply O]. change (MAXFILE * BSIZE) with 274432 in Hsz. unfold word. simpl. lia.
Qed.

(** The contents of a file. *)
Definition contents (V : disk) (ip : inode) : list Z := fbytes V (i_addrs ip) 0 (i_size ip).

Lemma lookup_fbytes V addrs n j :
  fbytes V addrs 0 n !! j = if decide (Z.of_nat j < n) then Some (fbyte V addrs (Z.of_nat j)) else None.
Proof using.
  unfold fbytes. rewrite list_lookup_fmap. case_decide.
  - by rewrite lookup_seqZ_lt by lia.
  - by rewrite lookup_seqZ_ge by lia.
Qed.
Lemma lookup_splice_ext {A} (off : nat) (xs l : list A) j :
  (off <= length l)%nat ->
  splice off xs l !! j = if decide (off <= j < off + length xs)%nat then xs !! (j - off)%nat else l !! j.
Proof using.
  intros Hl. unfold splice. destruct (decide (j < off)%nat) as [H|H].
  - rewrite decide_False by lia. rewrite lookup_app_l by len. by rewrite lookup_take_lt.
  - rewrite lookup_app_r by len. case_decide.
    + rewrite lookup_app_l by len. f_equal. len.
    + rewrite lookup_app_r by len. rewrite lookup_drop. f_equal. len.
Qed.

Lemma contents_splice V addrs V' addrs' size off k bs :
  0 <= off <= size -> 0 <= k <= Z.of_nat (length bs) -> Z.max size (off + k) <= MAXFILE * BSIZE ->
  (forall o, 0 <= o < MAXFILE * BSIZE -> fbyte V' addrs' o =
    if decide (off <= o < off + k) then bs !!! Z.to_nat (o - off) else fbyte V addrs o) ->
  fbytes V' addrs' 0 (Z.max size (off + k)) = splice (Z.to_nat off) (take (Z.to_nat k) bs) (fbytes V addrs 0 size).
Proof using.
  intros Hoff Hk Hmax Hb. apply list_eq. intros j.
  assert (Hlen : length (fbytes V addrs 0 size) = Z.to_nat size).
  { unfold fbytes. by rewrite length_fmap, length_seqZ. }
  rewrite lookup_splice_ext by lia. rewrite !lookup_fbytes, length_take.
  destruct (decide (off <= Z.of_nat j < off + k)) as [Hi|Hi].
  - rewrite (decide_True (P := Z.of_nat j < _)), (decide_True (P := (Z.to_nat off <= j < _)%nat)) by lia.
    rewrite Hb, decide_True by lia. rewrite lookup_take_lt by lia.
    rewrite list_lookup_lookup_total_lt by lia. do 2 f_equal. lia.
  - rewrite (decide_False (P := (Z.to_nat off <= j < _)%nat)) by lia.
    rewrite (decide_ext (Z.of_nat j < Z.max size (off + k)) (Z.of_nat j < size)) by lia.
    case_decide; [|done]. by rewrite Hb, decide_False by lia.
Qed.

Lemma set_size s1 V1 l1 i size :
  TX s1 V1 l1 [] [] -> (i < length (itable s1))%nat ->
  let ip := itable s1 !!! i in
  exists s2, when (i_size ip <? size) (upd_inode i (fun ip => ip <| i_size := size |>)) s1 = Ok tt s2 /\
    TX s2 V1 l1 [] [] /\ itable s2 = <[i := ip <| i_size := Z.max (i_size ip) size |>]> (itable s1) /\
    sb s2 = sb s1 /\ fs_log s2 = fs_log s1.
Proof using.
  intros T Hi ip. destruct (Z.ltb_spec (i_size ip) size).
  - eexists. split; [done|]. rewrite Z.max_r by lia. split; [by apply tx_itable|done].
  - exists s1. rewrite Z.max_l by lia. split_and!; try done. symmetry. apply list_insert_id.
    rewrite list_lookup_lookup_total_lt by done. fold ip. by destruct ip.
Qed.

(** The end of [writei]: the new size, and the inode to the disk. *)
Lemma writei_end s V l i off bs hi k s1 V1 l1 addrs1 :
  file s V l i -> in_op s -> 0 <= off <= i_size (itable s !!! i) -> 0 <= k <= Z.of_nat (length bs) ->
  off + k <= MAXFILE * BSIZE -> wrote s V l i off bs hi k s1 V1 l1 addrs1 -> (length l1 < NBUF)%nat ->
  let size := Z.max (i_size (itable s !!! i)) (off + k) in
  let ip := (itable s !!! i) <| i_addrs := addrs1 |> <| i_size := size |> in
  exists s', (ip <- get_inode i ;;
     when (i_size ip <? off + k) (upd_inode i (fun ip => ip <| i_size := off + k |>)) ;;
     iupdate i ;; ret (s32 k)) s1 = Ok (s32 k) s' /\
    let V' := put_dinode_at (sb s) (i_inum ip) (to_dinode ip) V1 in
    let l' := add (IBLOCK (i_inum ip) (sb s)) l1 in
    file s' V' l' i /\ itable s' = <[i := ip]> (itable s) /\ sb s' = sb s /\ ops s' = ops s /\ drive s' = drive s /\
    contents V' ip = splice (Z.to_nat off) (take (Z.to_nat k) bs) (contents V (itable s !!! i)) /\
    mm_woke (fmm s1) (fmm s').
Proof using.
  intros Hfl Hop Hoff Hk Hmax [T1 B1 Ev1 By1 Fi1 Lg1] Hl1 size ip. pose proof Hfl as [[T L M Hi Hd O] Hin Hsz Hfil Hsh].
  destruct (istep_inode _ _ _ _ B1 Hi) as [Ei Hi1]. erewrite bind_ok by done.
  destruct (set_size s1 V1 l1 i (off + k) T1 Hi1) as (s2 & E2 & T2 & It2 & Sb2 & Lg2).
  erewrite bind_ok by exact E2. rewrite Ei, (is_itable _ _ _ _ B1), list_insert_insert_eq in It2.
  assert (Eip : itable s2 !!! i = ip).
  { rewrite It2, list_lookup_total_insert_eq by done. by destruct (itable s !!! i). }
  assert (Eit : itable s2 = <[i := ip]> (itable s)).
  { by rewrite It2. }
  assert (Esb : sb s2 = sb s) by (rewrite Sb2; apply B1).
  assert (Hop2 : in_op s2).
  { unfold in_op, ops. rewrite Lg2. fold (ops s1). by rewrite (is_out _ _ _ _ B1). }
  assert (Ed : i_dev ip = ROOTDEV /\ i_inum ip = i_inum (itable s !!! i) /\ i_addrs ip = addrs1 /\ i_size ip = size)
    by (by destruct (itable s !!! i)).
  destruct Ed as (Ed & En & Ea & Es).
  destruct (iupdate_ok start pid s2 V1 l1 i T2 Hop2) as (s3 & E3 & T3 & F3);
    rewrite ?Esb, ?Eip, ?En, ?Ea; try done; [apply Ev1|].
  erewrite bind_ok by exact E3. exists s3. split; [done|]. rewrite Eip, Esb in T3. cbv zeta.
  set (V' := put_dinode_at (sb s) (i_inum ip) (to_dinode ip) V1) in *.
  assert (A : agree (sb s) V1 V').
  { intros b Hb. unfold V'. apply (put_dinode_at_high start); [done|by rewrite En|done]. }
  assert (Ei3 : itable s3 = <[i := ip]> (itable s)) by (by rewrite (fs_itable _ _ F3)).
  assert (Ep3 : itable s3 !!! i = ip) by (by rewrite (fs_itable _ _ F3)).
  assert (Es3 : sb s3 = sb s) by (by rewrite (fs_sb _ _ F3)).
  assert (Hsize : 0 <= size <= MAXFILE * BSIZE) by (unfold size; lia).
  split_and!; [|done|done| | | |].
  - split; rewrite ?Ep3, ?Es3, ?En, ?Ea, ?Es; try done.
    + split; rewrite ?Ep3, ?Es3, ?Ea; try done.
      * eapply (agree_meta start); [done|exact A|apply Ev1].
      * rewrite (fs_itable _ _ F3), Eit, length_insert. done.
      * eapply (agree_ok start); [done|exact A|apply Ev1].
    + intros o Ho. rewrite (agree_blk start (sb s) V1 V' L A) by apply Ev1.
      destruct (decide (off <= o < off + k)); [by apply Fi1|].
      rewrite (ev_map _ _ _ _ _ Ev1); [apply Hfil; unfold size in Ho; lia| |apply Hfil; unfold size in Ho; lia].
      rewrite MAXFILE_val in *. fslia.
  - rewrite (fs_out _ _ F3). unfold ops. rewrite Lg2. apply B1.
  - rewrite (fs_dsk _ _ F3). unfold drive. rewrite Lg2. apply B1.
  - unfold contents. rewrite Ea, Es.
    etrans; [apply (agree_fbytes start (sb s) V1); [done|done|apply Ev1|lia]|]. apply contents_splice; try done. lia.
  - rewrite <- Lg2. apply F3.
Qed.

(** What a write of which [k] bytes fit leaves behind. *)
Record wfile (s : fs) (V : disk) (l : list Z) (i : nat) (off : Z) (bs : list Z) (k : Z)
    (s' : fs) (V' : disk) (l' : list Z) : Prop := {
  wf_file : file s' V' l' i;
  wf_contents : contents V' (itable s' !!! i) =
    splice (Z.to_nat off) (take (Z.to_nat k) bs) (contents V (itable s !!! i));
  wf_inode : exists addrs, itable s' =
    <[i := (itable s !!! i) <| i_addrs := addrs |> <| i_size := Z.max (i_size (itable s !!! i)) (off + k) |>]> (itable s);
  wf_sb : sb s' = sb s;
  wf_op : ops s' = ops s;
  wf_drive : drive s' = drive s;
  (** The inodes on the disk. *)
  wf_disk : forall j, 0 <= j < sb_ninodes (sb s) -> dinode_at (sb s) V' j =
    if decide (j = i_inum (itable s !!! i)) then to_dinode (itable s' !!! i) else dinode_at (sb s) V j;
  (** The blocks of other files. *)
  wf_foreign : forall c, foreign (sb s) V (i_addrs (itable s !!! i)) c ->
    foreign (sb s) V' (i_addrs (itable s' !!! i)) c /\ V' c = V c;
  wf_log : (length l' <= length l + nbitmap (sb s) + nblk (off / BSIZE) (off + Z.of_nat (length bs)) + 2)%nat;
}.

Lemma writei_ok s V l i src off n bs :
  let ip := itable s !!! i in
  file s V l i -> in_op s -> Q src bs (fmm s) -> n = Z.of_nat (length bs) ->
  0 <= off < 2 ^ 32 -> 0 <= n < 2 ^ 32 ->
  (length l + nbitmap (sb s) + nblk (off / BSIZE) (off + n) + 6 < NBUF)%nat ->
  if decide (off <= i_size ip /\ off + n <= MAXFILE * BSIZE) then
    exists k s' V' l', writei i src off n s = Ok k s' /\ 0 <= k <= n /\ wfile s V l i off bs k s' V' l' /\
      (k < n -> full (sb s) V') /\ exists src', Q src' (drop (Z.to_nat k) bs) (fmm s')
  else writei i src off n s = Ok (-1) s.
Proof.
  intros ip Hfl Hop HQ En Hoff Hn Hroom. pose proof Hfl as [[T L M Hi Hd O] Hin Hsz Hfil Hsh].
  unfold writei. erewrite bind_ok by done. fold ip. change (MAXFILE * BSIZE) with 274432 in *.
  assert (Eu : u32 (off + n) = if off + n <? 2 ^ 32 then off + n else off + n - 2 ^ 32).
  { unfold u32. destruct (Z.ltb_spec (off + n) (2 ^ 32)); [by apply Z.mod_small; lia|].
    symmetry. apply Z.mod_unique with 1; lia. }
  rewrite Eu. destruct (decide (off <= i_size ip /\ off + n <= 274432)) as [[Hs Hm]|Hno].
  2: { destruct (Z.ltb_spec (i_size ip) off); [done|]. destruct (Z.ltb_spec (off + n) (2 ^ 32)).
       - rewrite (proj2 (Z.ltb_ge (off + n) off)) by lia. rewrite (proj2 (Z.ltb_lt 274432 (off + n))) by lia. done.
       - rewrite (proj2 (Z.ltb_lt (off + n - 2 ^ 32) off)) by lia. done. }
  rewrite (proj2 (Z.ltb_lt (off + n) (2 ^ 32))) by lia. rewrite (proj2 (Z.ltb_ge (i_size ip) off)) by done.
  rewrite (proj2 (Z.ltb_ge (off + n) off)) by lia. rewrite (proj2 (Z.ltb_ge 274432 (off + n))) by done. cbn [orb].
  pose proof (touched_fuel off n ltac:(lia)). assert (0 <= n / BSIZE) by (apply Z.div_pos; [lia|done]).
  assert (Hnd : NoDup l) by apply T. assert (Hq : 0 <= off / BSIZE) by fslia.
  destruct (writei_loop_ok (S (S (Z.to_nat (n / BSIZE + 1)))) s V l i src 0 off n bs (off + n) l (off / BSIZE))
    as (k & s1 & V1 & l1 & addrs1 & E1 & Hk & Wr & Hfull & src' & HQ1); rewrite ?Z.sub_0_r; try done; try lia.
  { intros c Hc. by left. }
  rewrite Z.sub_0_r in *. erewrite bind_ok by exact E1. cbv beta iota. rewrite Z.add_0_l.
  pose proof Wr as [T1 B1 Ev1 By1 Fi1 Lg1].
  pose proof (grown_len _ _ _ _ _ _ _ ltac:(apply T1) Lg1) as Hl1.
  destruct (writei_end s V l i off bs (off + n) k s1 V1 l1 addrs1) as (s2 & E2 & Hf2 & It2 & Sb2 & Op2 & Dr2 & Co2 & Wk2);
    try done; try lia; [fold ip; lia|change (MAXFILE * BSIZE) with 274432; lia|].
  rewrite s32_small in E2 by lia. cbv zeta in Hf2, It2, Co2. fold ip in Hf2, It2, Co2. set (ip2 := ip <| i_addrs := addrs1 |> <| i_size := Z.max (i_size ip) (off + k) |>) in *.
  assert (Ep2 : itable s2 !!! i = ip2) by (by rewrite It2, list_lookup_total_insert_eq).
  exists k, s2, (put_dinode_at (sb s) (i_inum ip2) (to_dinode ip2) V1), (add (IBLOCK (i_inum ip2) (sb s)) l1).
  split; [by rewrite s32_small by lia|]. split; [lia|].
  assert (En2 : i_inum ip2 = i_inum ip) by (by destruct ip).
  assert (Ea2 : i_addrs ip2 = addrs1) by (by destruct ip).
  assert (A : agree (sb s) V1 (put_dinode_at (sb s) (i_inum ip2) (to_dinode ip2) V1)).
  { intros b Hb. apply (put_dinode_at_high start); [done|by rewrite En2|done]. }
  split_and!.
  - split; rewrite ?Ep2; try done.
    + by exists addrs1.
    + intros j Hj. rewrite (dinode_at_put start); [|done|by eapply tx_len|by rewrite En2| |done].
      2: { rewrite <- Ep2. by eapply file_fits. }
      rewrite En2. fold ip. case_decide; [done|]. unfold dinode_at.
      rewrite (ev_low _ _ _ _ _ Ev1); [done|]. pose proof (IBLOCK_range start (sb s) L j Hj).
      pose proof (bmapstart_pos start (sb s) L). lia.
    + rewrite Ea2. intros c Hc. destruct (ev_foreign _ _ _ _ _ Ev1 c Hc) as [(Hd1 & Hi1 & Hb1) E].
      destruct (agree_data start (sb s) V1 _ L A c Hd1) as [Hd2 E2']. split; [|congruence].
      split; [done|]. split; [done|]. intros bn Hbn. rewrite (agree_blk start (sb s) V1); [by apply Hb1|done|done|apply Ev1].
    + pose proof (length_add (IBLOCK (i_inum ip2) (sb s)) l1). rewrite <- En. lia.
  - intros Hlt. eapply (agree_full start); [done|exact A|]. apply Hfull. lia.
  - exists src'. by eapply sp_woke.
Qed.
End writei.
