(* ===== verification/FsDisk.v ===== *)
(** * The file system on the disk

    The files the blocks of a disk describe: [dcontents] is what inode [j]
    holds, [fs_wf] that every inode in use is sound and that no two share a
    block.  A write keeps it and changes no other file. *)
From stdpp Require Import base numbers strings decidable sets gmap functions list.
From S2P Require Import Prelude.
From S2P Require Import Kalloc.
From S2P Require Import Vm.
From S2P Require Import Bio.
From S2P Require Import Log.
From S2P Require Import Fs.
From S2P Require Import Txn.
From S2P Require Import FsBlocks.
From S2P Require Import FsFile.
From S2P Require Import FsInode.
From S2P Require Import FsData.
From S2P Require Import FsWrite.
Open Scope Z_scope.
Open Scope xv6_scope.

Notation daddrs sb V j := (di_addrs (dinode_at sb V j)).
Notation dsize sb V j := (di_size (dinode_at sb V j)).

Definition dcontents (sb : superblock) (V : disk) (j : Z) : list Z := fbytes V (daddrs sb V j) 0 (dsize sb V j).

(** A sound file: blocks in use and different, none missing below its size. *)
Record dfile (sb : superblock) (V : disk) (j : Z) : Prop := {
  dl_ok : inode_ok sb V (daddrs sb V j);
  dl_size : 0 <= dsize sb V j <= MAXFILE * BSIZE;
  dl_filled : filled V (daddrs sb V j) 0 (dsize sb V j);
}.

Definition live (sb : superblock) (V : disk) (j : Z) : Prop :=
  0 <= j < sb_ninodes sb /\ di_type (dinode_at sb V j) <> 0.

(** Block [c] is part of the file with addresses [addrs]. *)
Definition owns (V : disk) (addrs : list Z) (c : Z) : Prop :=
  c <> 0 /\ (c = ind_of addrs \/ exists bn, 0 <= bn < MAXFILE /\ c = blk_of V addrs bn).

Record fs_wf (sb : superblock) (V : disk) : Prop := {
  fw_meta : meta_used sb V;
  fw_file : forall j, live sb V j -> dfile sb V j;
  fw_apart : forall j k c, live sb V j -> live sb V k ->
    owns V (daddrs sb V j) c -> owns V (daddrs sb V k) c -> j = k;
}.

Lemma owns_data sb V addrs c : inode_ok sb V addrs -> owns V addrs c -> data sb V c.
Proof.
  intros O [Hne [->|(bn & Hbn & ->)]]; [by apply (io_ind _ _ _ O)|by apply (io_blk _ _ _ O)].
Qed.

(** What does not belong to a file is foreign to it. *)
Lemma not_owns_foreign sb V addrs c : data sb V c -> c <> 0 -> ~ owns V addrs c -> foreign sb V addrs c.
Proof.
  intros Hd Hne Hn. split; [done|]. split.
  - intros E. apply Hn. split; [done|by left].
  - intros bn Hbn E. apply Hn. split; [done|]. right. by exists bn.
Qed.
Lemma foreign_not_owns sb V addrs c : foreign sb V addrs c -> ~ owns V addrs c.
Proof. intros (_ & Hi & Hb) [_ [->|(bn & Hbn & ->)]]; [done|by apply (Hb bn)]. Qed.

(** ** A file whose blocks did not change *)

Section kept.
Context (sb : superblock) (V V' : disk) (addrs : list Z).
Hypothesis O : inode_ok sb V addrs.
Hypothesis Hsame : forall c, owns V addrs c -> data sb V' c /\ V' c = V c.

Lemma kept_blk bn : blk_of V' addrs bn = blk_of V addrs bn.
Proof using All.
  unfold blk_of. destruct (bn <? NDIRECT); [done|]. destruct (Z.eqb_spec (ind_of addrs) 0) as [|Hne]; [done|].
  destruct (Hsame (ind_of addrs)) as [_ ->]; [|done]. split; [done|by left].
Qed.
Lemma kept_owns c : owns V' addrs c <-> owns V addrs c.
Proof using All.
  split; intros [Hne [->|(bn & Hbn & ->)]]; (split; [done|]); [by left| |by left|]; right; exists bn;
    by rewrite kept_blk in *.
Qed.
Lemma kept_ok : inode_ok sb V' addrs.
Proof using All.
  split; [apply O| | |].
  - intros H. apply Hsame. split; [done|by left].
  - intros bn Hbn. rewrite kept_blk. intros H. split; [|by apply (io_blk _ _ _ O)].
    apply Hsame. split; [done|]. right. by exists bn.
  - intros bn bm Hbn Hbm. rewrite !kept_blk. by apply O.
Qed.
Lemma kept_fbyte o : 0 <= o < MAXFILE * BSIZE -> fbyte V' addrs o = fbyte V addrs o.
Proof using All.
  intros Ho. unfold fbyte. rewrite kept_blk. destruct (Z.eqb_spec (blk_of V addrs (o / BSIZE)) 0) as [|Hne]; [done|].
  destruct (Hsame (blk_of V addrs (o / BSIZE))) as [_ ->]; [|done]. split; [done|]. right.
  exists (o / BSIZE). split; [|done]. rewrite MAXFILE_val in *. fslia.
Qed.
Lemma kept_filled hi : filled V addrs 0 hi -> filled V' addrs 0 hi.
Proof using All. intros H o Ho. rewrite kept_blk. by apply H. Qed.
Lemma kept_fbytes n : n <= MAXFILE * BSIZE -> fbytes V' addrs 0 n = fbytes V addrs 0 n.
Proof using All.
  intros Hn. unfold fbytes. apply list_fmap_ext. intros j x Hx. apply lookup_seqZ in Hx as [-> Hj].
  apply kept_fbyte. lia.
Qed.
End kept.

Lemma kept_dfile sb V V' j :
  dfile sb V j -> dinode_at sb V' j = dinode_at sb V j ->
  (forall c, owns V (daddrs sb V j) c -> data sb V' c /\ V' c = V c) ->
  dfile sb V' j /\ dcontents sb V' j = dcontents sb V j.
Proof.
  intros [O Hs Hf] E Hk. split; [split|]; rewrite ?E.
  - by eapply kept_ok.
  - done.
  - by eapply kept_filled.
  - unfold dcontents. rewrite E. eapply kept_fbytes; [done|done|lia].
Qed.

(** ** One file changes *)

(** The disk goes from [V] to [V'] by a change to inode [j] alone. *)
Record one_file (sb : superblock) (V V' : disk) (j : Z) : Prop := {
  of_inodes : forall k, 0 <= k < sb_ninodes sb -> k <> j -> dinode_at sb V' k = dinode_at sb V k;
  of_foreign : forall c, foreign sb V (daddrs sb V j) c -> foreign sb V' (daddrs sb V' j) c /\ V' c = V c;
}.

(** The blocks of the others are as they were. *)
Lemma one_file_kept start sb V V' j k c :
  layout start sb -> fs_wf sb V -> live sb V j -> one_file sb V V' j -> live sb V k -> k <> j ->
  owns V (daddrs sb V k) c -> foreign sb V' (daddrs sb V' j) c /\ V' c = V c.
Proof.
  intros L [M F A] Hj [Hin Hfor] Hk Hne Hc. apply Hfor.
  pose proof (owns_data _ _ _ _ (dl_ok _ _ _ (F k Hk)) Hc) as Hd. apply not_owns_foreign; [done| |].
  - destruct Hd as [Hr _]. intros ->. pose proof (nmeta_pos start sb L). lia.
  - intros Hc'. by apply Hne, (A k j c).
Qed.

Lemma one_file_wf start sb V V' j :
  layout start sb -> fs_wf sb V -> live sb V j -> one_file sb V V' j -> meta_used sb V' -> dfile sb V' j ->
  fs_wf sb V' /\
  forall k, live sb V k -> k <> j -> live sb V' k /\ dcontents sb V' k = dcontents sb V k.
Proof.
  intros L W Hj One M' F'. pose proof (one_file_kept start sb V V' j) as Hkeep.
  pose proof W as [M F A]. pose proof One as [Hin Hfor].
  assert (Hold : forall k, live sb V' k -> k <> j -> live sb V k).
  { intros k [Hk Ht] Hne. rewrite Hin in Ht by done. done. }
  assert (Hk2 : forall k, live sb V k -> k <> j -> forall c, owns V (daddrs sb V k) c -> data sb V' c /\ V' c = V c).
  { intros k Hk Hne c Hc. by destruct (Hkeep k c L W Hj One Hk Hne Hc) as [[Hd _] E]. }
  assert (Hown : forall k, live sb V k -> k <> j -> forall c, owns V' (daddrs sb V' k) c <-> owns V (daddrs sb V k) c).
  { intros k Hk Hne c. rewrite (Hin k) by (done || apply Hk). apply (kept_owns sb); [by apply F|by apply Hk2]. }
  split.
  - split; [done| |].
    + intros k Hk. destruct (decide (k = j)) as [->|Hne]; [done|]. pose proof (Hold k Hk Hne) as Hk'.
      apply (kept_dfile sb V); [by apply F|apply Hin; [apply Hk|done]|by apply Hk2].
    + intros k1 k2 c H1 H2 O1 O2. destruct (decide (k1 = j)) as [->|N1], (decide (k2 = j)) as [->|N2]; [done|..].
      * exfalso. pose proof (Hold k2 H2 N2) as H2'. apply (Hown k2 H2' N2) in O2.
        destruct (Hkeep k2 c L W Hj One H2' N2 O2) as [Hf _]. by apply (foreign_not_owns _ _ _ _ Hf).
      * exfalso. pose proof (Hold k1 H1 N1) as H1'. apply (Hown k1 H1' N1) in O1.
        destruct (Hkeep k1 c L W Hj One H1' N1 O1) as [Hf _]. by apply (foreign_not_owns _ _ _ _ Hf).
      * pose proof (Hold k1 H1 N1) as H1'. pose proof (Hold k2 H2 N2) as H2'.
        exact (A k1 k2 c H1' H2' (proj1 (Hown k1 H1' N1 c) O1) (proj1 (Hown k2 H2' N2 c) O2)).
  - intros k Hk Hne. split; [split; [apply Hk|rewrite Hin; [apply Hk|apply Hk|done]]|].
    apply (kept_dfile sb V); [by apply F|apply Hin; [apply Hk|done]|by apply Hk2].
Qed.

(** The disk changes outside the file system, in the log or the boot block. *)
Definition same_fs (sb : superblock) (V V' : disk) : Prop := forall b, sb_inodestart sb <= b -> V' b = V b.

Section same.
Context (start : Z) (sb : superblock) (V V' : disk).
Hypothesis L : layout start sb.
Hypothesis S : same_fs sb V V'.

Lemma same_agree : agree sb V V'.
Proof using L S. intros b Hb. apply S. pose proof (bmapstart_pos start sb L). lia. Qed.
Lemma same_dinode j : 0 <= j < sb_ninodes sb -> dinode_at sb V' j = dinode_at sb V j.
Proof using L S. intros Hj. unfold dinode_at. rewrite S; [done|]. by apply (IBLOCK_range start). Qed.
Lemma same_live j : live sb V' j <-> live sb V j.
Proof using L S. unfold live. split; intros [Hj Ht]; (split; [done|]); by rewrite same_dinode in *. Qed.

Lemma same_dfile j : live sb V j -> dfile sb V j -> dfile sb V' j /\ dcontents sb V' j = dcontents sb V j.
Proof using L S.
  intros [Hj _] F. apply kept_dfile; [done|by apply same_dinode|].
  intros c Hc. eapply (agree_data start); [done|apply same_agree|]. by eapply owns_data; [apply F|].
Qed.
Lemma same_owns addrs c : inode_ok sb V addrs -> owns V' addrs c <-> owns V addrs c.
Proof using L S.
  intros O. unfold owns. split; intros [Hne [->|(bn & Hbn & ->)]]; (split; [done|]); [by left| |by left|];
    right; exists bn; by rewrite (agree_blk start sb V V' L same_agree _ O) in *.
Qed.
Lemma same_wf : fs_wf sb V -> fs_wf sb V'.
Proof using L S.
  intros [M F A]. split.
  - by apply (agree_meta start sb V); [|apply same_agree|].
  - intros j Hj%same_live. by apply same_dfile, F.
  - intros j k c Hj%same_live Hk%same_live. rewrite !same_dinode by (apply Hj || apply Hk).
    rewrite !same_owns by (by apply F). by apply A.
Qed.
End same.

(** ** What a write leaves on the disk *)

Lemma get_short_range off d : short (get_short off d).
Proof. unfold get_short, short, s16. pose proof (Z.mod_pos_bound (get_le 2 off d + 2 ^ 15) (2 ^ 16)). lia. Qed.

Lemma wfile_disk start pid s V l i off bs k s' V' l' :
  let j := i_inum (itable s !!! i) in
  fs_wf (sb s) V -> live (sb s) V j -> file start pid s V l i ->
  to_dinode (itable s !!! i) = dinode_at (sb s) V j ->
  wfile start pid s V l i off bs k s' V' l' ->
  fs_wf (sb s) V' /\ to_dinode (itable s' !!! i) = dinode_at (sb s) V' j /\ live (sb s) V' j /\
  dcontents (sb s) V' j = splice (Z.to_nat off) (take (Z.to_nat k) bs) (dcontents (sb s) V j) /\
  forall j', live (sb s) V j' -> j' <> j -> live (sb s) V' j' /\ dcontents (sb s) V' j' = dcontents (sb s) V j'.
Proof.
  intros j W Hj Hfl Ed Wf. pose proof Hfl as [[T L M Hi Hd O] Hin Hsz Hfil Hsh].
  pose proof (wf_file _ _ _ _ _ _ _ _ _ _ _ _ Wf) as [[T' L' M' Hi' Hd' O'] Hin' Hsz' Hfil' Hsh'].
  destruct (wf_inode _ _ _ _ _ _ _ _ _ _ _ _ Wf) as [addrs Eit].
  assert (Ed' : to_dinode (itable s' !!! i) = dinode_at (sb s) V' j).
  { rewrite (wf_disk _ _ _ _ _ _ _ _ _ _ _ _ Wf) by done. by rewrite decide_True. }
  assert (Et : i_type (itable s' !!! i) = i_type (itable s !!! i)).
  { rewrite Eit, list_lookup_total_insert_eq by done. by destruct (itable s !!! i). }
  rewrite (wf_sb _ _ _ _ _ _ _ _ _ _ _ _ Wf) in *.
  assert (Ea : daddrs (sb s) V j = i_addrs (itable s !!! i)) by (by rewrite <- Ed).
  assert (Ea' : daddrs (sb s) V' j = i_addrs (itable s' !!! i)) by (by rewrite <- Ed').
  assert (Es : dsize (sb s) V j = i_size (itable s !!! i)) by (by rewrite <- Ed).
  assert (Es' : dsize (sb s) V' j = i_size (itable s' !!! i)) by (by rewrite <- Ed').
  assert (Hlive : live (sb s) V' j).
  { split; [done|]. rewrite <- Ed'. cbn. rewrite Et. destruct Hj as [_ Hj]. by rewrite <- Ed in Hj. }
  destruct (one_file_wf start (sb s) V V' j) as [W' Hk]; try done.
  - split.
    + intros k' Hk' Hne. rewrite (wf_disk _ _ _ _ _ _ _ _ _ _ _ _ Wf) by done. by rewrite decide_False.
    + rewrite Ea, Ea'. by apply (wf_foreign _ _ _ _ _ _ _ _ _ _ _ _ Wf).
  - split; by rewrite ?Ea', ?Es'.
  - split_and!; try done. unfold dcontents. rewrite Ea, Ea', Es, Es'. apply (wf_contents _ _ _ _ _ _ _ _ _ _ _ _ Wf).
Qed.
