(* ===== verification/FsOp.v ===== *)
(** * File-system operations between [begin_op] and [end_op]

    The state between operations ([idle]), what [begin_op] and [end_op] do
    to it, and [ilock] and [iunlock] of [kernel/fs.c] on an inode no other
    process has locked. *)
From stdpp Require Import base numbers strings decidable sets gmap functions list.
From S2P Require Import Prelude.
From S2P Require Import Riscv.
From S2P Require Import Sched.
From S2P Require Import Kalloc.
From S2P Require Import Vm.
From S2P Require Import Sleeplock.
From S2P Require Import Bio.
From S2P Require Import Log.
From S2P Require Import LogOps.
From S2P Require Import LogCrash.
From S2P Require Import Fs.
From S2P Require Import Txn.
From S2P Require Import FsBlocks.
From S2P Require Import FsFile.
From S2P Require Import FsInode.
From S2P Require Import FsData.
From S2P Require Import FsWrite.
From S2P Require Import FsDisk.
Open Scope Z_scope.
Open Scope xv6_scope.

(** ** The lock of an inode *)

Definition with_ilock (s : fs) (i : nat) (l : sleeplock) : fs :=
  s <| itable := <[i := (itable s !!! i) <| i_lock := l |>]> (itable s) |>.

Lemma acquiresleep_entry s i j p :
  LkInodeSleep i ∉ held (prj s) -> cur (prj s) = Some j -> procs (prj s) !! j = Some p ->
  (i < length (itable s))%nat -> sl_locked (i_lock (itable s !!! i)) = 0 ->
  acquiresleep (inode_lock i) s = Ok tt (with_ilock s i (mksleeplock 1 (p_pid p))).
Proof.
  intros Hh Hc Hp Hi Hf. unfold acquiresleep.
  erewrite bind_ok by (apply lift_ok, acquire_ok; exact Hh).
  erewrite (bind_ok (sleep_while_locked _ _)).
  2: { change wait_fuel with (S 63). generalize 63%nat. intros n. cbn [sleep_while_locked].
       erewrite bind_ok by done. change (itable (inj _ s)) with (itable s).
       cbn [sr_get inode_lock]. change (itable (inj _ s)) with (itable s). rewrite Hf. done. }
  erewrite bind_ok by done.
  erewrite bind_ok by (apply lift_ok, (mypid_ok j); [exact Hc|exact Hp]).
  erewrite bind_ok by done.
  erewrite lift_ok by (by apply release_ok).
  unfold with_ilock. destruct s as [[[[[]]]] ? t]. setf_cbn.
  rewrite list_lookup_total_insert_eq by done. rewrite list_insert_insert_eq. by destruct (t !!! i).
Qed.

Section inode_lock.
Context (s : fs) (i : nat) (pid : Z).
Hypothesis Hr : running (prj s) pid.
Hypothesis Hi : (i < length (itable s))%nat.

Lemma acquiresleep_inode :
  sl_locked (i_lock (itable s !!! i)) = 0 ->
  acquiresleep (inode_lock i) s = Ok tt (with_ilock s i (mksleeplock 1 pid)).
Proof using All.
  destruct Hr as (Hh & Hl & j & p & Hc & Hp & <-). intros Hf. apply (acquiresleep_entry s i j p); try done.
  rewrite Hh. apply not_elem_of_nil.
Qed.

Lemma holdingsleep_inode :
  holdingsleep (inode_lock i) s =
    Ok (negb (sl_locked (i_lock (itable s !!! i)) =? 0) && (sl_pid (i_lock (itable s !!! i)) =? pid)) s.
Proof using All.
  destruct Hr as (Hh & Hl & j & p & Hc & Hp & <-). unfold holdingsleep.
  erewrite bind_ok by (apply lift_ok, acquire_ok; rewrite Hh; set_solver).
  erewrite bind_ok by done.
  erewrite bind_ok by (apply lift_ok, (mypid_ok j); [exact Hc|exact Hp]).
  erewrite bind_ok by (by apply lift_ok, release_ok).
  unfold ret. f_equal. destruct s as [[[[[]]]] ? t]. setf_cbn. by subst.
Qed.

Lemma releasesleep_inode :
  releasesleep (inode_lock i) s =
    Ok tt (inj (wake (ChInodeLock i) (prj s)) (with_ilock s i (mksleeplock 0 0))).
Proof using All.
  destruct Hr as (Hh & Hl & j & p & Hc & Hp & <-). unfold releasesleep.
  erewrite bind_ok by (apply lift_ok, acquire_ok; rewrite Hh; set_solver).
  do 2 erewrite bind_ok by done.
  erewrite bind_ok.
  2: { apply lift_ok, wakeup_ok; [|exact Hl]. intros k _. simpl in *. rewrite Hh. set_solver. }
  erewrite lift_ok by (by apply release_ok).
  unfold with_ilock, wake. destruct s as [[[[[]]]] ? t]. setf_cbn. subst.
  rewrite list_lookup_total_insert_eq by done. rewrite list_insert_insert_eq. by destruct (t !!! i).
Qed.
End inode_lock.

(** ** [ilock] and [iunlock] *)

(** The table entry [ip] with the fields of the inode on disk. *)
Definition load (di : dinode) (ip : inode) : inode :=
  ip <| i_type := di_type di |> <| i_major := di_major di |> <| i_minor := di_minor di |>
     <| i_nlink := di_nlink di |> <| i_size := di_size di |> <| i_addrs := di_addrs di |>.
Lemma load_same di ip : to_dinode ip = di -> load di ip = ip.
Proof. intros <-. by destruct ip. Qed.

(** Entry [i] of the table has become [ip]; processes may have been woken. *)
Record ichange (i : nat) (ip : inode) (s s' : fs) : Prop := {
  ic_sb : sb s' = sb s;
  ic_itable : itable s' = <[i := ip]> (itable s);
  ic_mm : mm_woke (fmm s) (fmm s');
  ic_dsk : drive s' = drive s;
  ic_out : ops s' = ops s;
}.
Lemma ichange_at i ip s s' :
  ichange i ip s s' -> (i < length (itable s))%nat ->
  itable s' !!! i = ip /\ length (itable s') = length (itable s).
Proof.
  intros [_ E _ _ _] Hi. rewrite E. split; [by apply list_lookup_total_insert_eq|apply length_insert].
Qed.
Lemma ichange_trans i ip1 ip2 s1 s2 s3 : ichange i ip1 s1 s2 -> ichange i ip2 s2 s3 -> ichange i ip2 s1 s3.
Proof.
  intros [] []. split; try congruence; [|by eapply mm_woke_trans].
  by rewrite ic_itable1, ic_itable0, list_insert_insert_eq.
Qed.
Lemma ichange_upd i ip s : ichange i ip s (s <| itable := <[i := ip]> (itable s) |>).
Proof. by split. Qed.
Lemma fstep_ichange i ip s1 s2 s3 : fstep s1 s2 -> ichange i ip s2 s3 -> ichange i ip s1 s3.
Proof. intros [] []. split; try congruence. by eapply mm_woke_trans. Qed.
Lemma ichange_fstep i ip s1 s2 s3 : ichange i ip s1 s2 -> fstep s2 s3 -> ichange i ip s1 s3.
Proof. intros [] []. split; try congruence. by eapply mm_woke_trans. Qed.

Section lock.
Context (start pid : Z).
Notation TX := (tx start pid).

(** An entry of the inode table in use. *)
Record iref (s : fs) (i : nat) : Prop := {
  ir_lt : (i < length (itable s))%nat;
  ir_dev : i_dev (itable s !!! i) = ROOTDEV;
  ir_inum : 0 <= i_inum (itable s !!! i) < sb_ninodes (sb s);
  ir_ref : 1 <= i_ref (itable s !!! i);
}.

(** A valid entry agrees with the disk. *)
Definition coherent (s : fs) (V : disk) (i : nat) : Prop :=
  i_valid (itable s !!! i) <> 0 ->
  to_dinode (itable s !!! i) = dinode_at (sb s) V (i_inum (itable s !!! i)).

Definition locked_entry (di : dinode) (ip : inode) : inode :=
  load di ip <| i_lock := mksleeplock 1 pid |> <| i_valid := if i_valid ip =? 0 then 1 else i_valid ip |>.

Lemma ilock_ok s V l i :
  let ip := itable s !!! i in let di := dinode_at (sb s) V (i_inum ip) in
  TX s V l [] [] -> layout start (sb s) -> (length l < NBUF)%nat -> iref s i -> coherent s V i ->
  sl_locked (i_lock ip) = 0 -> di_type di <> 0 ->
  exists s', ilock (Some i) s = Ok tt s' /\ TX s' V l [] [] /\ ichange i (locked_entry di ip) s s'.
Proof using.
  intros ip di T L Hl [Hi Hdev Hin Href] Co Hfree Ht. fold ip in Hdev, Hin, Href. unfold ilock. erewrite bind_ok by done. fold ip.
  rewrite (proj2 (Z.ltb_ge _ 1)) by done.
  erewrite bind_ok by (eapply acquiresleep_inode; [by eapply tx_running|done|done]).
  set (s1 := with_ilock s i (mksleeplock 1 pid)).
  assert (T1 : TX s1 V l [] []) by (by apply tx_itable).
  assert (E1 : itable s1 !!! i = ip <| i_lock := mksleeplock 1 pid |>).
  { unfold s1, with_ilock. cbn. by rewrite list_lookup_total_insert_eq. }
  erewrite bind_ok by done. rewrite E1. change (i_valid (ip <| i_lock := _ |>)) with (i_valid ip).
  unfold locked_entry. destruct (Z.eqb_spec (i_valid ip) 0) as [Hv|Hv]; cbn [when].
  2: { exists s1. split_and!; [done|done|]. rewrite load_same by (by apply Co).
       replace (ip <| i_lock := _ |> <| i_valid := i_valid ip |>) with (ip <| i_lock := mksleeplock 1 pid |>)
         by (by destruct ip).
       apply ichange_upd. }
  erewrite bind_ok by done. change (i_dev (ip <| i_lock := _ |>)) with (i_dev ip).
  change (i_inum (ip <| i_lock := _ |>)) with (i_inum ip). rewrite Hdev. change (sb s1) with (sb s).
  destruct (tx_bread start pid s1 V l [] [] (IBLOCK (i_inum ip) (sb s)) T1) as (bp & s2 & E2 & T2 & F2); [set_solver|right; simpl; lia|].
  erewrite bind_ok by exact E2.
  erewrite bind_ok by (eapply tx_data; [exact T2|apply list_elem_of_here]). cbv zeta.
  change (get_dinode (dinode_off (i_inum ip)) (V (IBLOCK (i_inum ip) (sb s)))) with di.
  erewrite bind_ok by done. set (s3 := s2 <| itable := _ |>).
  assert (Ei2 : itable s2 = itable s1) by apply F2.
  assert (Hi1 : (i < length (itable s1))%nat) by (unfold s1, with_ilock; cbn; by rewrite length_insert).
  assert (C3 : ichange i (load di (ip <| i_lock := mksleeplock 1 pid |>)) s s3).
  { eapply ichange_trans; [exact (ichange_upd i _ s)|]. eapply fstep_ichange; [exact F2|].
    unfold s3. rewrite Ei2, E1. rewrite <- Ei2. apply ichange_upd. }
  destruct (tx_brelse start pid s3 _ _ _ _ _ _ (tx_itable _ _ _ _ _ _ _ _ T2)) as (s4 & E4 & T4 & F4); [set_solver|].
  erewrite bind_ok by exact E4. erewrite bind_ok by done. set (s5 := s4 <| itable := _ |>).
  pose proof (ichange_fstep _ _ _ _ _ C3 F4) as C4. destruct (ichange_at _ _ _ _ C4 Hi) as [E4i L4].
  erewrite bind_ok by done.
  assert (E5 : itable s5 !!! i = locked_entry di ip).
  { unfold s5. cbn. rewrite list_lookup_total_insert_eq by lia. rewrite E4i. unfold locked_entry.
    rewrite (proj2 (Z.eqb_eq (i_valid ip) 0) Hv). reflexivity. }
  rewrite E5. change (i_type (locked_entry di ip)) with (di_type di).
  rewrite (proj2 (Z.eqb_neq _ 0)) by done. exists s5. split_and!; [done|by apply tx_itable|].
  eapply ichange_trans; [exact C4|]. unfold s5. rewrite E4i. apply ichange_upd.
Qed.

Lemma iunlock_ok s V l H i :
  let ip := itable s !!! i in
  TX s V l H [] -> (i < length (itable s))%nat -> 1 <= i_ref ip -> i_lock ip = mksleeplock 1 pid ->
  exists s', iunlock (Some i) s = Ok tt s' /\ TX s' V l H [] /\
    ichange i (ip <| i_lock := mksleeplock 0 0 |>) s s'.
Proof using.
  intros ip T Hi Href Hlk. unfold iunlock. pose proof (tx_running _ _ _ _ _ _ _ T) as Hr.
  erewrite bind_ok by (by eapply holdingsleep_inode). fold ip. rewrite Hlk. cbn [sl_locked sl_pid].
  rewrite Z.eqb_refl. change (1 =? 0) with false. erewrite bind_ok by done. fold ip. rewrite (proj2 (Z.ltb_ge _ 1)) by done. cbn [negb andb orb].
  erewrite releasesleep_inode by done. eexists. split; [done|]. split.
  - apply tx_mm; [by apply tx_itable|]. by apply (woke_running (prj s)); [apply woke_wake|].
  - split; try done. split; [apply woke_wake|done].
Qed.
End lock.

(** ** Between operations *)

Section op.
Context (start pid : Z).
Notation TX := (tx start pid).

(** No operation is executing and the log is empty: the disk is [V]. *)
Record idle (s : fs) (V : disk) : Prop := {
  id_tx : TX s V [] [] [];
  id_ops : ops s = (0, 0);
  id_hdr : hb_n (V start) = 0;
}.

Lemma idle_disk s V : idle s V -> forall b, dsk (lg_blk (fs_log s)) b = V b.
Proof using. intros [T _ _] b. apply (tx_clean _ _ _ _ _ _ _ T); set_solver. Qed.

Lemma begin_op_idle s V :
  idle s V -> exists s', lift begin_op s = Ok tt s' /\ TX s' V [] [] [] /\ ops s' = (1, 0) /\
    sb s' = sb s /\ itable s' = itable s /\ fmm s' = fmm s /\ drive s' = drive s.
Proof using.
  intros [T O _]. pose proof (tx_running _ _ _ _ _ _ _ T) as (Hh & _). unfold ops in O. injection O as O1 O2.
  pose proof (tx_logged _ _ _ _ _ _ _ T) as [Hn _]. simpl in Hn.
  eexists. split.
  { apply lift_ok. apply begin_op_enter; [exact Hh|]. unfold begin_fits. cbn [prj embed_lstate_fs].
    rewrite O1, O2. replace (lh_n _) with 0 by (symmetry; exact Hn). done. }
  split; [|split_and!; try done].
  - destruct T as [[I R Hd Hs] G L Z Hhd N C]. by split.
  - unfold ops. cbn. rewrite O1, O2. done.
Qed.

(** The last operation ends: the log is written to the disk.  [w] are the
    writes of the commit; a crash among them leaves all of the transaction
    or none of it. *)
Definition atomic (d V : disk) (w : wlog) : Prop :=
  forall k d', recovered start (apply_writes d (take k w)) d' ->
    (forall b, home start b -> d' b = d b) \/ (forall b, home start b -> d' b = V b).

Lemma tx_log_inv s V l : TX s V l [] [] -> log_inv start (fs_log s) (tcache pid V l []) l pid.
Proof using.
  intros [K G L Z Hh N C]. split; try done. intros b. cbn [tcache al ar fmap list_fmap].
  rewrite !(decide_False (P := b ∈ [])) by set_solver. split; [done|lia].
Qed.
Lemma log_inv_tx s A :
  log_inv start (fs_log s) A [] pid -> TX s (av A) [] [] [].
Proof using.
  intros [[I R Hd Hs] Q G L Z]. split; try done.
  - split; try done. assert (Eq : tcache pid (av A) [] [] ≡ A).
    { intros b. destruct (Q b) as [-> ->]. cbn [tcache al ar av fmap list_fmap].
      rewrite !(decide_False (P := b ∈ [])) by set_solver. done. }
    by rewrite Eq.
  - set_solver.
  - apply NoDup_nil_2.
  - intros b _ _. apply (quiet_clean _ A []); [done|done|set_solver].
Qed.

Lemma end_op_idle s V l :
  TX s V l [] [] -> ops s = (1, 0) -> (length l < NBUF)%nat -> layout start (sb s) ->
  (forall b, length (dsk (lg_blk (fs_log s)) b) = bsize) -> hb_n (dsk (lg_blk (fs_log s)) start) = 0 ->
  exists s' V' w, lift end_op s = Ok tt s' /\ idle s' V' /\ (forall b, home start b -> V' b = V b) /\
    sb s' = sb s /\ itable s' = itable s /\ mm_woke (fmm s) (fmm s') /\
    drive s' = (apply_writes (drive s).1 w, (drive s).2 ++ w) /\ atomic (drive s).1 V w.
Proof using.
  intros T O Hl L Hd H0. unfold ops in O. injection O as O1 O2. pose proof (tx_log_inv _ _ _ T) as LI.
  assert (Hs : 0 <= start /\ start + LOGBLOCKS < 2 ^ 31).
  { pose proof (nmeta_bmap start (sb s) L). destruct L as [? ? ? ? ? ? ?]. unfold LOGBLOCKS, MAXOPBLOCKS in *. fslia. }
  destruct (end_op_ok start (fs_log s) _ l pid (proj1 Hs) (proj2 Hs) LI Hl) as
    (t & A' & l' & E & L' & Ho & Hc & Hv & Wk & (w & Ew & Ed & Hw) & HR); [lia|done|].
  rewrite decide_True in HR by done. rewrite decide_True in Hw by done. destruct HR as [-> Hdsk].
  set (s' := inj t s). assert (T' : TX s' (av A') [] [] []) by (by apply log_inv_tx).
  assert (Hns : start ∉ l).
  { intros Hx. pose proof (gl_home _ _ (tx_good _ _ _ _ _ _ _ T)) as Hg. rewrite Forall_forall in Hg.
    by apply (start_not_home start), Hg. }
  assert (Est : dsk (lg_blk (fs_log s)) start = V start) by (apply (tx_clean _ _ _ _ _ _ _ T); [done|set_solver]).
  exists s', (av A'), w. split_and!; try done.
  - by apply lift_ok.
  - split; [done| |].
    + unfold ops. cbn. rewrite Ho, Hc, O1. done.
    + rewrite <- (tx_clean _ _ _ _ _ _ _ T') by set_solver. cbn. rewrite Ed, Hw. unfold end_writes.
      destruct (decide (l = [])); [done|]. unfold commit_writes. rewrite !apply_writes_app. simpl.
      rewrite fn_insert_eq. apply (hdr_spec []); [done| |constructor].
      apply hdr_spec; [apply T|by eapply tx_block_len|apply T].
  - unfold drive. cbn. by rewrite Ed, Ew.
  - intros k d' Rc. cbn in Rc. rewrite Hw in Rc. unfold end_writes in Rc. destruct (decide (l = [])) as [->|Hne].
    + rewrite take_nil in Rc. eapply (commit_recovers start _ V [] 0); try done; [by eapply tx_len|apply T|].
      intros b _ Hb. apply (tx_clean _ _ _ _ _ _ _ T); [done|set_solver].
    + cbn [tcache av] in Rc. rewrite <- Est in Rc.
      eapply (commit_recovers start _ V l); try done; [by eapply tx_len|apply T|].
      intros b _ Hb. apply (tx_clean _ _ _ _ _ _ _ T); [done|set_solver].
Qed.

(** ** A file between operations *)

Record ready (s : fs) (V : disk) (i : nat) : Prop := {
  rd_idle : idle s V;
  rd_layout : layout start (sb s);
  rd_map : Z.of_nat (nbitmap (sb s)) <= MAXOPBLOCKS;
  rd_wf : fs_wf (sb s) V;
  rd_ref : iref s i;
  rd_coherent : coherent s V i;
  rd_lock : i_lock (itable s !!! i) = mksleeplock 0 0;
  rd_live : live (sb s) V (i_inum (itable s !!! i));
}.

(** The inode locked, the blocks [l] logged. *)
Record inside (s : fs) (V : disk) (l : list Z) (i : nat) : Prop := {
  in_file : file start pid s V l i;
  in_ref : iref s i;
  in_lock : i_lock (itable s !!! i) = mksleeplock 1 pid;
  in_same : to_dinode (itable s !!! i) = dinode_at (sb s) V (i_inum (itable s !!! i));
}.

Lemma home_high sb b : layout start sb -> sb_inodestart sb <= b -> home start b.
Proof using. intros [] Hb. unfold home. lia. Qed.

Lemma lock_inside s V l i :
  TX s V l [] [] -> (length l < NBUF)%nat -> layout start (sb s) -> fs_wf (sb s) V -> iref s i -> coherent s V i ->
  i_lock (itable s !!! i) = mksleeplock 0 0 -> live (sb s) V (i_inum (itable s !!! i)) ->
  exists s', ilock (Some i) s = Ok tt s' /\ inside s' V l i /\
    mm_woke (fmm s) (fmm s') /\ drive s' = drive s /\ sb s' = sb s /\ ops s' = ops s /\
    itable s' = <[i := locked_entry pid (dinode_at (sb s) V (i_inum (itable s !!! i))) (itable s !!! i)]> (itable s).
Proof using.
  intros T Hl L W R Co Lk Lv.
  destruct (ilock_ok start pid s V l i T L Hl) as (s' & E & T' & C); try done; [by rewrite Lk|apply Lv|].
  exists s'. set (ip := itable s !!! i) in *. set (di := dinode_at (sb s) V (i_inum ip)) in *.
  destruct R as [Hi Hdev Hin Href]. fold ip in Hdev, Hin, Href, Lv.
  destruct (ichange_at _ _ _ _ C Hi) as [Ei Li]. destruct C as [Esb Eit Emm Edr Eop].
  destruct (fw_file _ _ W (i_inum ip) Lv) as [Ok Sz Fi]. fold di in Ok, Sz, Fi.
  assert (Hi2 : (i < length (itable s'))%nat) by (by rewrite Li).
  split_and!; try done; []. split.
  - split; rewrite ?Ei, ?Esb; try done; [split; rewrite ?Ei, ?Esb; try done; apply W|].
    repeat constructor; apply get_short_range.
  - split; rewrite ?Ei, ?Esb; done.
  - by rewrite Ei.
  - rewrite Ei, Esb. cbn. fold di. by destruct di.
Qed.

Lemma lock_ok s V l i :
  TX s V l [] [] -> (length l < NBUF)%nat -> layout start (sb s) -> fs_wf (sb s) V -> iref s i -> coherent s V i ->
  i_lock (itable s !!! i) = mksleeplock 0 0 -> live (sb s) V (i_inum (itable s !!! i)) ->
  exists s', ilock (Some i) s = Ok tt s' /\ inside s' V l i /\
    mm_woke (fmm s) (fmm s') /\ drive s' = drive s /\ sb s' = sb s /\ ops s' = ops s /\
    exists ip, itable s' = <[i := ip]> (itable s) /\ i_inum ip = i_inum (itable s !!! i).
Proof using.
  intros T Hl L W R Co Lk Lv. destruct (lock_inside s V l i T Hl L W R Co Lk Lv) as (s' & E & In & Mm & Dr & Sb & Op & It).
  exists s'. split_and!; try done. eexists. split; [exact It|done].
Qed.

Lemma enter_ok s V i :
  ready s V i ->
  exists s1 s2, lift begin_op s = Ok tt s1 /\ ilock (Some i) s1 = Ok tt s2 /\ inside s2 V [] i /\
    mm_woke (fmm s) (fmm s2) /\ drive s2 = drive s /\ sb s2 = sb s /\ ops s2 = (1, 0) /\
    exists ip, itable s2 = <[i := ip]> (itable s) /\ i_inum ip = i_inum (itable s !!! i).
Proof using.
  intros [Id L Hm W R Co Lk Lv]. destruct (begin_op_idle s V Id) as (s1 & E1 & T1 & O1 & Sb1 & It1 & Mm1 & Dr1).
  destruct (lock_ok s1 V [] i T1) as (s2 & E2 & In2 & Mm2 & Dr2 & Sb2 & Op2 & Ip2); rewrite ?Sb1, ?It1; try done.
  - by apply Nat.ltb_lt.
  - destruct R. split; by rewrite ?Sb1, ?It1.
  - unfold coherent. by rewrite Sb1, It1.
  - exists s1, s2. rewrite Sb1, It1, Dr1, O1, Mm1 in *. by split_and!.
Qed.

(** The lock given back: the entry still agrees with the disk. *)
Lemma unlock_ok s V l i :
  inside s V l i ->
  exists s', iunlock (Some i) s = Ok tt s' /\ TX s' V l [] [] /\ iref s' i /\ coherent s' V i /\
    i_lock (itable s' !!! i) = mksleeplock 0 0 /\ sb s' = sb s /\ ops s' = ops s /\ drive s' = drive s /\
    mm_woke (fmm s) (fmm s') /\
    exists ip, itable s' = <[i := ip]> (itable s) /\ i_inum ip = i_inum (itable s !!! i).
Proof using.
  intros [Fl R Lk Sm]. pose proof Fl as [[T L M Hi Hdv Ok] Hin Hsz Hfil Hsh].
  destruct (iunlock_ok start pid s V l [] i T Hi (ir_ref _ _ R) Lk) as (s1 & E1 & T1 & C1).
  destruct (ichange_at _ _ _ _ C1 Hi) as [Ei1 Li1]. set (ip := itable s !!! i) in *.
  destruct C1 as [Esb Eit Emm Edr Eop]. exists s1. split_and!; try done.
  - destruct R as [? Hdev Hinum Href]. split; rewrite ?Esb, ?Ei1; try done. by rewrite Li1.
  - intros _. rewrite Ei1, Esb. done.
  - by rewrite Ei1.
  - by exists (ip <| i_lock := mksleeplock 0 0 |>).
Qed.

Lemma leave_ok s V l i :
  inside s V l i -> ops s = (1, 0) -> Z.of_nat (nbitmap (sb s)) <= MAXOPBLOCKS -> fs_wf (sb s) V ->
  live (sb s) V (i_inum (itable s !!! i)) -> (length l < NBUF)%nat ->
  (forall b, length ((drive s).1 b) = bsize) -> hb_n ((drive s).1 start) = 0 ->
  exists s1 s2 V' w, iunlock (Some i) s = Ok tt s1 /\ lift end_op s1 = Ok tt s2 /\ ready s2 V' i /\
    same_fs (sb s) V V' /\ sb s2 = sb s /\ mm_woke (fmm s) (fmm s2) /\
    drive s2 = (apply_writes (drive s).1 w, (drive s).2 ++ w) /\ atomic (drive s).1 V w /\
    exists ip, itable s2 = <[i := ip]> (itable s) /\ i_inum ip = i_inum (itable s !!! i).
Proof using.
  intros In O Hm W Lv Hl Hd H0. pose proof (oi_layout _ _ _ _ _ _ (fl_open _ _ _ _ _ _ (in_file _ _ _ _ In))) as L.
  destruct (unlock_ok s V l i In) as (s1 & E1 & T1 & R1 & Co1 & Lk1 & Sb1 & Op1 & Dr1 & Mm1 & ip & It1 & Nm1).
  assert (Ed : dsk (lg_blk (fs_log s1)) = (drive s).1) by (by rewrite <- Dr1).
  destruct (end_op_idle s1 V l) as (s2 & V' & w & E2 & Id2 & Hh2 & Sb2 & It2 & Mm2 & Dr2 & At2); rewrite ?Sb1, ?Ed; try done.
  { by rewrite Op1. }
  assert (Sf : same_fs (sb s) V V') by (intros b Hb; by eapply Hh2, home_high).
  assert (Esb : sb s2 = sb s) by congruence.
  assert (Eip : itable s1 !!! i = ip).
  { rewrite It1. apply list_lookup_total_insert_eq. destruct R1 as [Hi _ _ _]. by rewrite It1, length_insert in Hi. }
  exists s1, s2, V', w. split_and!; try done.
  - destruct R1 as [Hi Hdev Hinum Href]. rewrite Eip, Sb1 in *.
    split; rewrite ?Esb, ?It2, ?Eip; try done.
    + by eapply same_wf.
    + split; rewrite ?Esb, ?It2, ?Eip; done.
    + intros Hv. rewrite It2, Eip, Esb in *. rewrite (same_dinode start (sb s) V) by done.
      unfold coherent in Co1. rewrite Eip, Sb1 in Co1. by apply Co1.
    + eapply same_live; [done|done|]. by rewrite Nm1.
  - by eapply mm_woke_trans.
  - by rewrite <- Dr1.
  - by rewrite <- Dr1.
  - exists ip. split; [|done]. by rewrite It2.
Qed.

(** A restart between operations changes nothing. *)
Lemma idle_recovers s V d :
  idle s V -> layout start (sb s) -> recovered start (drive s).1 d -> same_fs (sb s) V d.
Proof using.
  intros Id L Rc b Hb. pose proof (idle_disk _ _ Id) as Hd.
  assert (Hs : 0 <= start /\ start + LOGBLOCKS < 2 ^ 31).
  { pose proof (nmeta_bmap start (sb s) L). destruct L as [? ? ? ? ? ? ?]. unfold LOGBLOCKS, MAXOPBLOCKS in *. fslia. }
  destruct (commit_recovers start (drive s).1 V [] 0 d) as [H|H]; try done.
  - intros c. cbn. rewrite Hd. by eapply tx_len, Id.
  - intros c. by eapply tx_len, Id.
  - apply Id.
  - cbn. rewrite Hd. apply Id.
  - intros c _ _. apply Hd.
  - rewrite H by (by eapply home_high). cbn. apply Hd.
  - apply H. by eapply home_high.
Qed.

Lemma inside_fsame s V l i s' : inside s V l i -> TX s' V l [] [] -> fsame s s' -> inside s' V l i.
Proof using.
  intros [[[T L M Hi Hdv Ok] Hin Hsz Hfil Hsh] [? ? ? ?] Lk Sm] T' [Sb It Dr Op].
  split; rewrite ?It, ?Sb; try done; split; rewrite ?It, ?Sb; try done. split; rewrite ?It, ?Sb; done.
Qed.
End op.

(** ** Writes in pieces *)

Lemma splice_nil {A} off (c : list A) : splice off [] c = c.
Proof. unfold splice. simpl. rewrite Nat.add_0_r. apply take_drop. Qed.
Lemma splice_app {A} off (xs ys c : list A) :
  splice (off + length xs) ys (splice off xs c) = splice off (xs ++ ys) c.
Proof.
  unfold splice. destruct (decide (off <= length c)%nat) as [H|H].
  - rewrite (app_assoc (take off c) xs). rewrite take_app_length' by len.
    rewrite drop_app_ge by len. rewrite drop_drop, <- !app_assoc. do 3 f_equal.
    f_equal. len.
  - rewrite !(take_ge c), !(drop_ge c) by (rewrite ?length_app; lia). rewrite !app_nil_r.
    rewrite take_ge, drop_ge by len. by rewrite app_nil_r, app_assoc.
Qed.

(** Disk [d] after the first [m] bytes of [bs] were written to inode [j] of
    disk [V] at [off]. *)
Record holds (sb : superblock) (V : disk) (j off : Z) (bs : list Z) (m : Z) (d : disk) : Prop := {
  hd_wf : fs_wf sb d;
  hd_live : live sb d j;
  hd_contents : dcontents sb d j = splice (Z.to_nat off) (take (Z.to_nat m) bs) (dcontents sb V j);
  hd_others : forall k, live sb V k -> k <> j -> live sb d k /\ dcontents sb d k = dcontents sb V k;
}.

Lemma holds_none sb V j off bs : fs_wf sb V -> live sb V j -> holds sb V j off bs 0 V.
Proof. intros W Lv. split; try done. by rewrite take_0, splice_nil. Qed.
Lemma holds_same start sb V j off bs m d d' :
  layout start sb -> same_fs sb d d' -> holds sb V j off bs m d -> holds sb V j off bs m d'.
Proof.
  intros L S [W Lv C Ot]. split.
  - by eapply same_wf.
  - by eapply same_live.
  - destruct (same_dfile start sb d d' L S j Lv) as [_ ->]; [by apply W|done].
  - intros k Hk Hne. destruct (Ot k Hk Hne) as [Lk Ek]. split; [by eapply same_live|].
    destruct (same_dfile start sb d d' L S k Lk) as [_ ->]; [by apply W|done].
Qed.
Lemma holds_trans sb V j off bs m V1 m' V2 :
  0 <= off -> 0 <= m <= Z.of_nat (length bs) -> 0 <= m' ->
  holds sb V j off bs m V1 -> holds sb V1 j (off + m) (drop (Z.to_nat m) bs) m' V2 ->
  holds sb V j off bs (m + m') V2.
Proof.
  intros Ho Hm Hm' [W1 L1 C1 O1] [W2 L2 C2 O2]. split; try done.
  - rewrite C2, C1. replace (Z.to_nat (off + m)) with (Z.to_nat off + length (take (Z.to_nat m) bs))%nat by len.
    rewrite splice_app. f_equal. replace (Z.to_nat (m + m')) with (Z.to_nat m + Z.to_nat m')%nat by lia.
    by rewrite take_take_drop.
  - intros k Hk Hne. destruct (O1 k Hk Hne) as [Lk1 <-]. by apply O2.
Qed.

Lemma inside_wfile start pid s V l i off bs k s' V' l' :
  let j := i_inum (itable s !!! i) in
  inside start pid s V l i -> fs_wf (sb s) V -> live (sb s) V j ->
  wfile start pid s V l i off bs k s' V' l' ->
  inside start pid s' V' l' i /\ holds (sb s) V j off bs k V' /\ i_inum (itable s' !!! i) = j.
Proof.
  intros j [Fl Rf Lk Sm] Wf Lv Wr.
  destruct (wfile_disk start pid s V l i off bs k s' V' l' Wf Lv Fl Sm Wr) as (Wf' & Sm' & Lv' & Co' & Ot').
  destruct (wf_inode _ _ _ _ _ _ _ _ _ _ _ _ Wr) as [addrs Eit].
  set (ip' := (itable s !!! i) <| i_addrs := addrs |> <| i_size := Z.max (i_size (itable s !!! i)) (off + k) |>) in *.
  assert (Ei : itable s' !!! i = ip') by (rewrite Eit; apply list_lookup_total_insert_eq, Rf).
  assert (En : i_inum ip' = j) by (by unfold ip', j; destruct (itable s !!! i)).
  pose proof (wf_sb _ _ _ _ _ _ _ _ _ _ _ _ Wr) as Esb.
  split_and!; [|by split|by rewrite Ei].
  split.
  - apply Wr.
  - destruct Rf as [Hi Hd Hn Hr]. split; rewrite ?Ei, ?Esb, ?En; try done.
    rewrite Eit, length_insert. done.
  - by rewrite Ei.
  - rewrite Esb, Ei, En, <- Ei. done.
Qed.
