(* ===== verification/ITable.v ===== *)
(** * The inode table

    [iget], [idup] and [iput] of [kernel/fs.c] keep reference counts in the
    entries of the inode table.  The abstract state is the multiset of the
    references held: [iget] and [idup] add one, [iput] takes one away; no
    inode has two entries. *)

From stdpp Require Import base numbers strings decidable sets gmap functions gmultiset list.
From S2P Require Import Prelude.
From S2P Require Import CString.
From S2P Require Import Riscv.
From S2P Require Import Sched.
From S2P Require Import Kalloc.
From S2P Require Import Vm.
From S2P Require Import Sleeplock.
From S2P Require Import Bio.
From S2P Require Import Log.
From S2P Require Import LogOps.
From S2P Require Import Fs.
From S2P Require Import Txn.
From S2P Require Import FsBlocks.
From S2P Require Import FsFile.
From S2P Require Import FsInode.
From S2P Require Import FsData.
From S2P Require Import FsOp.
Open Scope Z_scope.
Open Scope xv6_scope.

(** Which inode an entry is for. *)
Definition ikey (ip : inode) : Z * Z := (i_dev ip, i_inum ip).

(** The table holds the references [R]. *)
Record itab (t : list inode) (R : gmultiset (Z * Z)) : Prop := {
  it_len : length t = NINODE;
  it_ref : forall i ip, t !! i = Some ip -> 0 <= i_ref ip;
  it_count : forall i ip, t !! i = Some ip -> 0 < i_ref ip -> i_ref ip = Z.of_nat (multiplicity (ikey ip) R);
  it_have : forall k, k ∈ R -> exists i ip, t !! i = Some ip /\ 0 < i_ref ip /\ ikey ip = k;
  it_uniq : forall i j ip jp, t !! i = Some ip -> t !! j = Some jp -> 0 < i_ref ip -> 0 < i_ref jp ->
    ikey ip = ikey jp -> i = j;
}.

(** ** Finding an entry *)

Lemma iget_scan_found t n empty dev inum i e :
  iget_scan t n empty dev inum = (Some i, e) ->
  exists j ip, i = (n + j)%nat /\ t !! j = Some ip /\ 0 < i_ref ip /\ ikey ip = (dev, inum).
Proof.
  revert n empty. induction t as [|ip t IH]; intros n empty; cbn [iget_scan]; [done|].
  destruct ((0 <? i_ref ip) && (i_dev ip =? dev) && (i_inum ip =? inum)) eqn:E.
  - intros [= <- <-]. apply andb_true_iff in E as [[H1 H2]%andb_true_iff H3].
    exists 0%nat, ip. split_and!; [lia|done|lia|]. unfold ikey. f_equal; lia.
  - intros H. destruct (IH _ _ H) as (j & jp & -> & Hj & Hr & Hk). exists (S j), jp. split_and!; [lia|done|done|done].
Qed.
Lemma iget_scan_none t n empty dev inum e :
  iget_scan t n empty dev inum = (None, e) ->
  (forall j ip, t !! j = Some ip -> 0 < i_ref ip -> ikey ip <> (dev, inum)) /\
  match empty with
  | Some i => e = Some i
  | None => match e with
            | Some i => exists j ip, i = (n + j)%nat /\ t !! j = Some ip /\ i_ref ip = 0
            | None => forall j ip, t !! j = Some ip -> i_ref ip <> 0
            end
  end.
Proof.
  revert n empty. induction t as [|ip t IH]; intros n empty; cbn [iget_scan].
  { intros [= <-]. split; [by intros j ip|]. destruct empty; [done|]. by intros j ip. }
  destruct ((0 <? i_ref ip) && (i_dev ip =? dev) && (i_inum ip =? inum)) eqn:E; [done|].
  intros H. destruct (IH _ _ H) as [H1 H2]. split.
  - intros [|j] jp; cbn; [|by apply H1]. intros [= <-] Hr [= Hd Hn]. lia.
  - destruct empty as [i|]; [done|]. destruct (Z.eqb_spec (i_ref ip) 0) as [Hz|Hz].
    + subst e. exists 0%nat, ip. split_and!; [lia|done|done].
    + destruct e as [i|].
      * destruct H2 as (j & jp & -> & Hj & Hr). exists (S j), jp. split_and!; [lia|done|done].
      * intros [|j] jp; cbn; [by intros [= <-]|by apply H2].
Qed.

(** ** Changing one entry *)

Section entry.
Context (t : list inode) (R : gmultiset (Z * Z)) (i : nat) (ip ip' : inode) (R' : gmultiset (Z * Z)).
Hypothesis T : itab t R.
Hypothesis Hi : t !! i = Some ip.

(** Entry [i] now counts the references to its inode. *)
Lemma itab_insert :
  0 < i_ref ip' -> i_ref ip' = Z.of_nat (multiplicity (ikey ip') R') ->
  (forall k, k <> ikey ip' -> multiplicity k R' = multiplicity k R) ->
  (forall j jp, t !! j = Some jp -> j <> i -> 0 < i_ref jp -> ikey jp <> ikey ip') ->
  (0 < i_ref ip -> ikey ip = ikey ip') ->
  itab (<[i := ip']> t) R'.
Proof using T Hi.
  intros Hp Hc Hm Ho Hk. destruct T as [Hl Hr Hcn Hh Hu]. pose proof (lookup_lt_Some _ _ _ Hi) as Hlt.
  assert (Hat : forall j jp, <[i := ip']> t !! j = Some jp -> (j = i /\ jp = ip') \/ (j <> i /\ t !! j = Some jp)).
  { intros j jp. rewrite list_lookup_insert_Some. intros [(-> & <- & _)|[? ?]]; auto. }
  split.
  - by rewrite length_insert.
  - intros j jp [[-> ->]|[_ Hj]]%Hat; [lia|by eapply Hr].
  - intros j jp [[-> ->]|[Hne Hj]]%Hat Hrj; [done|]. rewrite Hm by (by eapply Ho). by eapply Hcn.
  - intros k Hin. destruct (decide (k = ikey ip')) as [->|Hne].
    + exists i, ip'. split_and!; [by apply list_lookup_insert_eq|done|done].
    + destruct (Hh k) as (j & jp & Hj & Hrj & <-).
      { apply elem_of_multiplicity. rewrite <- Hm by done. by apply elem_of_multiplicity. }
      exists j, jp. split_and!; [|done|done]. rewrite list_lookup_insert_ne; [done|]. intros <-.
      rewrite Hi in Hj. injection Hj as <-. by apply Hne, Hk.
  - intros j1 j2 p1 p2 [[-> ->]|[N1 H1]]%Hat [[-> ->]|[N2 H2]]%Hat R1 R2 E; [done|..].
    + by destruct (Ho j2 p2 H2 N2 R2).
    + by destruct (Ho j1 p1 H1 N1 R1).
    + by eapply Hu.
Qed.
(** Entry [i] is free again. *)
Lemma itab_free :
  0 < i_ref ip -> i_ref ip' = 0 -> multiplicity (ikey ip) R' = 0%nat ->
  (forall k, k <> ikey ip -> multiplicity k R' = multiplicity k R) ->
  itab (<[i := ip']> t) R'.
Proof using T Hi.
  intros Hp Hz Hc Hm. destruct T as [Hl Hr Hcn Hh Hu]. pose proof (lookup_lt_Some _ _ _ Hi) as Hlt.
  assert (Hat : forall j jp, <[i := ip']> t !! j = Some jp -> 0 < i_ref jp -> j <> i /\ t !! j = Some jp).
  { intros j jp. rewrite list_lookup_insert_Some. intros [(-> & <- & _)|[? ?]] ?; [lia|auto]. }
  assert (Hne : forall j jp, t !! j = Some jp -> j <> i -> 0 < i_ref jp -> ikey jp <> ikey ip).
  { intros j jp Hj Hji Hrj E. apply Hji. by eapply (Hu j i). }
  split.
  - by rewrite length_insert.
  - intros j jp. rewrite list_lookup_insert_Some. intros [(-> & <- & _)|[_ Hj]]; [lia|by eapply Hr].
  - intros j jp Hj Hrj. destruct (Hat j jp Hj Hrj) as [Hji Hj']. rewrite Hm by (by eapply Hne). by eapply Hcn.
  - intros k Hin. assert (Hk : k <> ikey ip) by (intros ->; rewrite elem_of_multiplicity in Hin; lia).
    destruct (Hh k) as (j & jp & Hj & Hrj & <-).
    { apply elem_of_multiplicity. rewrite <- Hm by done. by apply elem_of_multiplicity. }
    exists j, jp. split_and!; [|done|done]. rewrite list_lookup_insert_ne; [done|]. intros <-.
    rewrite Hi in Hj. by injection Hj as <-.
  - intros j1 j2 p1 p2 H1 H2 R1 R2 E. destruct (Hat j1 p1 H1 R1) as [_ H1']. destruct (Hat j2 p2 H2 R2) as [_ H2']. by eapply Hu.
Qed.
End entry.

(** ** The operations *)

Lemma running_free m pid lk : running m pid -> lk ∉ held m.
Proof. intros (-> & _). apply not_elem_of_nil. Qed.

Section ops.
Context (s : fs).
Hypothesis Hr : LkItable ∉ held (prj s).

Definition with_entry (i : nat) (ip : inode) : fs := s <| itable := <[i := ip]> (itable s) |>.
Definition table_locked : fs := inj (prj s <| held := LkItable :: held (prj s) |>) s.

Lemma lock_table {A} (k : M fs A) : (lift (acquire LkItable) ;; k) s = k table_locked.
Proof using Hr.
  by erewrite bind_ok by (apply lift_ok, acquire_ok, Hr).
Qed.
(** An entry changed and the lock of the table given back. *)
Lemma release_entry i ip :
  lift (release LkItable) (table_locked <| itable := <[i := ip]> (itable s) |>) = Ok tt (with_entry i ip).
Proof using Hr.
  erewrite lift_ok by (by apply release_ok). f_equal. unfold with_entry, table_locked. by destruct s as [[[[[]]]] ? t].
Qed.
Lemma update_release {A} i f (k : M fs A) :
  (upd_inode i f ;; lift (release LkItable) ;; k) table_locked = k (with_entry i (f (itable s !!! i))).
Proof using Hr. erewrite bind_ok by done. by erewrite bind_ok by apply release_entry. Qed.

Lemma iget_eq dev inum :
  iget dev inum s =
    match iget_scan (itable s) 0 None dev inum with
    | (Some i, _) => Ok i (with_entry i ((itable s !!! i) <| i_ref := s32 (i_ref (itable s !!! i) + 1) |>))
    | (None, Some i) =>
      Ok i (with_entry i ((itable s !!! i) <| i_dev := dev |> <| i_inum := inum |> <| i_ref := 1 |> <| i_valid := 0 |>))
    | (None, None) => Panic "iget: no inodes"
    end.
Proof using Hr.
  unfold iget. rewrite lock_table. erewrite bind_ok by done. change (itable table_locked) with (itable s).
  destruct (iget_scan (itable s) 0 None dev inum) as [[i|] [e|]]; try done; by rewrite update_release.
Qed.
Lemma idup_eq i :
  idup i s = Ok i (with_entry i ((itable s !!! i) <| i_ref := s32 (i_ref (itable s !!! i) + 1) |>)).
Proof using Hr. unfold idup. by rewrite lock_table, update_release. Qed.
(** The last reference to an inode without links aside, [iput] only counts. *)
Lemma iput_eq i :
  let ip := itable s !!! i in
  i_ref ip <> 1 \/ i_valid ip = 0 \/ i_nlink ip <> 0 ->
  iput i s = Ok tt (with_entry i (ip <| i_ref := s32 (i_ref ip - 1) |>)).
Proof using Hr.
  intros ip Hk. unfold iput. rewrite lock_table. erewrite bind_ok by done. change (itable table_locked) with (itable s). fold ip.
  assert (E : (i_ref ip =? 1) && negb (i_valid ip =? 0) && (i_nlink ip =? 0) = false).
  { destruct (Z.eqb_spec (i_ref ip) 1), (Z.eqb_spec (i_valid ip) 0), (Z.eqb_spec (i_nlink ip) 0); try done; lia. }
  rewrite E. erewrite bind_ok by done.
  erewrite bind_ok by done. apply release_entry.
Qed.
End ops.

(** ** The operations on the references *)

Section refine.
Context (s : fs) (R : gmultiset (Z * Z)).
Hypothesis Hr : LkItable ∉ held (prj s).
Hypothesis T : itab (itable s) R.

Lemma itab_at i : (i < NINODE)%nat -> itable s !! i = Some (itable s !!! i).
Proof using T. intros Hi. apply list_lookup_lookup_total_lt. by rewrite (it_len _ _ T). Qed.

(** One more reference in an entry in use. *)
Lemma itab_more i :
  let ip := itable s !!! i in
  (i < NINODE)%nat -> 0 < i_ref ip -> i_ref ip + 1 < 2 ^ 31 ->
  itab (<[i := ip <| i_ref := s32 (i_ref ip + 1) |>]> (itable s)) (R ⊎ {[+ ikey ip +]}).
Proof using T.
  intros ip Hi Hp Hb. pose proof (itab_at i Hi) as Hat. fold ip in Hat. rewrite s32_small by lia.
  eapply itab_insert; [exact T|exact Hat|..]; setf_cbn; cbn [i_ref].
  - lia.
  - change (ikey (set_i_ref (i_ref ip + 1) ip)) with (ikey ip).
    pose proof (it_count _ _ T i ip Hat Hp). rewrite multiplicity_disj_union, multiplicity_singleton, decide_True by done. lia.
  - intros k Hk. rewrite multiplicity_disj_union, multiplicity_singleton_ne by done. lia.
  - intros j jp Hj Hji Hrj E. apply Hji. by eapply (it_uniq _ _ T).
  - done.
Qed.

(** A key that no entry in use has is not referenced. *)
Lemma itab_absent k :
  (forall j ip, itable s !! j = Some ip -> 0 < i_ref ip -> ikey ip <> k) -> k ∉ R.
Proof using T. intros Hn Hin. destruct (it_have _ _ T k Hin) as (j & ip & Hj & Hp & E). by eapply Hn. Qed.

(** A table without a free entry holds as many inodes as it has entries. *)
Lemma itab_full :
  (forall j ip, itable s !! j = Some ip -> i_ref ip <> 0) -> size (dom R) = NINODE.
Proof using T.
  intros Hn. assert (Hp : forall j ip, itable s !! j = Some ip -> 0 < i_ref ip).
  { intros j ip Hj. pose proof (it_ref _ _ T j ip Hj). specialize (Hn j ip Hj). lia. }
  assert (E : dom R = list_to_set (C := gset (Z * Z)) (ikey <$> itable s)).
  { apply set_eq. intros k. rewrite gmultiset_elem_of_dom, elem_of_list_to_set, list_elem_of_fmap. split.
    - intros Hin. destruct (it_have _ _ T k Hin) as (j & ip & Hj & _ & <-). exists ip. split; [done|]. by eapply list_elem_of_lookup_2.
    - intros (ip & -> & [j Hj]%list_elem_of_lookup_1). apply elem_of_multiplicity.
      pose proof (it_count _ _ T j ip Hj (Hp j ip Hj)). specialize (Hp j ip Hj). lia. }
  rewrite E, size_list_to_set, length_fmap; [apply (it_len _ _ T)|].
  apply NoDup_alt. intros i j k. rewrite !list_lookup_fmap_Some. intros (ip & -> & Hi) (jp & Ek & Hj).
  eapply (it_uniq _ _ T); eauto.
Qed.

(** An entry that is free becomes the entry of an inode nobody referenced. *)
Lemma itab_recycle i dev inum :
  let ip := itable s !!! i in
  (i < NINODE)%nat -> i_ref ip = 0 -> (forall j jp, itable s !! j = Some jp -> 0 < i_ref jp -> ikey jp <> (dev, inum)) ->
  itab (<[i := ip <| i_dev := dev |> <| i_inum := inum |> <| i_ref := 1 |> <| i_valid := 0 |>]> (itable s))
    (R ⊎ {[+ (dev, inum) +]}).
Proof using T.
  intros ip Hi Hz Hn. pose proof (itab_absent _ Hn) as Hab. rewrite not_elem_of_multiplicity in Hab.
  set (ip' := ip <| i_dev := dev |> <| i_inum := inum |> <| i_ref := 1 |> <| i_valid := 0 |>).
  assert (Hk' : ikey ip' = (dev, inum)) by done. assert (H1 : i_ref ip' = 1) by done.
  eapply itab_insert; [exact T|exact (itab_at i Hi)|..]; rewrite ?Hk', ?H1.
  - lia.
  - rewrite multiplicity_disj_union, multiplicity_singleton, decide_True by done. lia.
  - intros k Hk. rewrite multiplicity_disj_union, multiplicity_singleton_ne by done. lia.
  - intros j jp Hj _ Hrj. by apply (Hn j).
  - fold ip. lia.
Qed.
(** One reference less. *)
Lemma itab_less i ip' :
  let ip := itable s !!! i in
  (i < NINODE)%nat -> 0 < i_ref ip < 2 ^ 31 -> ikey ip' = ikey ip -> i_ref ip' = s32 (i_ref ip - 1) ->
  itab (<[i := ip']> (itable s)) (R ∖ {[+ ikey ip +]}).
Proof using T.
  intros ip Hi Hp Hk E. rewrite s32_small in E by lia. pose proof (itab_at i Hi) as Hat. fold ip in Hat.
  pose proof (it_count _ _ T i ip Hat ltac:(lia)) as Hc.
  assert (Hm : forall k, k <> ikey ip -> multiplicity k (R ∖ {[+ ikey ip +]}) = multiplicity k R).
  { intros k Hne. rewrite multiplicity_difference, multiplicity_singleton_ne by done. lia. }
  assert (Hd : multiplicity (ikey ip) (R ∖ {[+ ikey ip +]}) = (multiplicity (ikey ip) R - 1)%nat).
  { by rewrite multiplicity_difference, multiplicity_singleton, decide_True. }
  destruct (decide (i_ref ip = 1)) as [H1|H1].
  - eapply itab_free; [exact T|exact Hat|lia|lia|lia|exact Hm].
  - eapply itab_insert; [exact T|exact Hat|lia|rewrite Hk, Hd; lia|rewrite Hk; exact Hm| |by rewrite Hk].
    rewrite Hk. intros j jp Hj Hji Hrj Ej. apply Hji. eapply (it_uniq _ _ T); eauto. lia.
Qed.

(** What [iget] leaves when it finds or makes an entry. *)
Definition got (dev inum : Z) (i : nat) (s' : fs) : Prop :=
  exists ip, s' = s <| itable := <[i := ip]> (itable s) |> /\ itab (itable s') (R ⊎ {[+ (dev, inum) +]}) /\
    (i < NINODE)%nat /\ ikey ip = (dev, inum) /\ i_ref ip = Z.of_nat (multiplicity (dev, inum) R) + 1 /\
    if decide ((dev, inum) ∈ R) then ip = (itable s !!! i) <| i_ref := i_ref ip |> /\ ikey (itable s !!! i) = (dev, inum) /\ 0 < i_ref (itable s !!! i)
    else i_valid ip = 0 /\ i_ref (itable s !!! i) = 0 /\ i_lock ip = i_lock (itable s !!! i).
Lemma iget_ok dev inum :
  Z.of_nat (multiplicity (dev, inum) R) + 1 < 2 ^ 31 ->
  match iget dev inum s with
  | Ok i s' => got dev inum i s'
  | Panic m => m = "iget: no inodes" /\ (dev, inum) ∉ R /\ size (dom R) = NINODE
  | _ => False
  end.
Proof using Hr T.
  intros Hb. rewrite (iget_eq s Hr). pose proof (it_len _ _ T) as Hl.
  destruct (iget_scan (itable s) 0 None dev inum) as [[i|] e] eqn:E.
  - destruct (iget_scan_found _ _ _ _ _ _ _ E) as (j & ip & -> & Hj & Hp & Hk). rewrite Nat.add_0_l.
    pose proof (it_count _ _ T j ip Hj Hp) as Hc. rewrite (list_lookup_total_correct _ _ _ Hj). rewrite Hk in Hc.
    assert (Hjn : (j < NINODE)%nat) by (rewrite <- Hl; by eapply lookup_lt_Some).
    eexists. split; [reflexivity|]. split.
    { pose proof (itab_more j Hjn) as Hm. rewrite (list_lookup_total_correct _ _ _ Hj) in Hm.
      rewrite <- Hk. apply Hm; lia. }
    split; [done|]. split; [exact Hk|]. split; [setf_cbn; cbn [i_ref]; rewrite s32_small; lia|].
    rewrite decide_True; [by rewrite (list_lookup_total_correct _ _ _ Hj)|]. apply elem_of_multiplicity. lia.
  - destruct (iget_scan_none _ _ _ _ _ _ E) as [Hn He]. pose proof (itab_absent _ Hn) as Hab.
    destruct e as [i|]; [|split; [done|split; [done|by apply itab_full]]].
    destruct He as (j & ip & -> & Hj & Hz). rewrite Nat.add_0_l.
    assert (Hjn : (j < NINODE)%nat) by (rewrite <- Hl; by eapply lookup_lt_Some).
    eexists. split; [reflexivity|]. split.
    { apply itab_recycle; [done|by rewrite (list_lookup_total_correct _ _ _ Hj)|exact Hn]. }
    split; [done|]. split; [done|]. split; [rewrite not_elem_of_multiplicity in Hab; by rewrite Hab|].
    rewrite decide_False by done. by rewrite (list_lookup_total_correct _ _ _ Hj).
Qed.

(** C19: [iget] adds a reference: to the entry the inode has, whose contents
    it keeps, or to a free entry, which it marks as not read yet.  It panics
    exactly when the inode has no entry and the table holds [NINODE] others. *)
Theorem iget_refines dev inum :
  Z.of_nat (multiplicity (dev, inum) R) + 1 < 2 ^ 31 ->
  match iget dev inum s with
  | Ok i s' =>
    exists ip, s' = s <| itable := <[i := ip]> (itable s) |> /\ itab (itable s') (R ⊎ {[+ (dev, inum) +]}) /\
      (i < NINODE)%nat /\ ikey ip = (dev, inum) /\ i_ref ip = Z.of_nat (multiplicity (dev, inum) R) + 1 /\
      if decide ((dev, inum) ∈ R) then ip = (itable s !!! i) <| i_ref := i_ref ip |> else i_valid ip = 0
  | Panic m => m = "iget: no inodes" /\ (dev, inum) ∉ R /\ size (dom R) = NINODE
  | _ => False
  end.
Proof using Hr T.
  intros Hb. pose proof (iget_ok dev inum Hb) as H. destruct (iget dev inum s) as [i s'| | | |]; try done.
  destruct H as (ip & Es & Tb & Hi & Hk & Hf & HR). exists ip. do 5 (split; [done|]). by destruct (decide _); destruct HR.
Qed.

(** [idup] adds a reference to an entry in use. *)
Lemma idup_refines i :
  let ip := itable s !!! i in
  (i < NINODE)%nat -> 0 < i_ref ip -> i_ref ip + 1 < 2 ^ 31 ->
  exists s', idup i s = Ok i s' /\ itab (itable s') (R ⊎ {[+ ikey ip +]}).
Proof using Hr T.
  intros ip Hi Hp Hb. rewrite (idup_eq s Hr). eexists. split; [reflexivity|]. by apply itab_more.
Qed.
(** [iput] takes one away. *)
Lemma iput_counts i :
  let ip := itable s !!! i in
  (i < NINODE)%nat -> 0 < i_ref ip < 2 ^ 31 -> i_ref ip <> 1 \/ i_valid ip = 0 \/ i_nlink ip <> 0 ->
  exists s', iput i s = Ok tt s' /\ s' = with_entry s i (ip <| i_ref := i_ref ip - 1 |>) /\
    itab (itable s') (R ∖ {[+ ikey ip +]}).
Proof using Hr T.
  intros ip Hi Hp Hk. rewrite (iput_eq s Hr) by done. fold ip. eexists. split; [reflexivity|].
  split; [by rewrite s32_small by lia|]. apply itab_less; auto.
Qed.
End refine.

(** A table with one entry in use. *)
Lemma itab_one ip t :
  length (ip :: t) = NINODE -> i_ref ip = 1 -> Forall (fun jp => i_ref jp = 0) t -> itab (ip :: t) {[+ ikey ip +]}.
Proof.
  intros Hl H1 Hf. rewrite Forall_lookup in Hf.
  assert (Hat : forall i jp, (ip :: t) !! i = Some jp -> (i = 0%nat /\ jp = ip) \/ i_ref jp = 0).
  { intros [|i] jp; cbn; [intros [= <-]; by left|]. intros Hi. right. by eapply Hf. }
  split; [done|..].
  - intros i jp [[_ ->]|?]%Hat; lia.
  - intros i jp [[_ ->]|?]%Hat Hp; [|lia]. by rewrite multiplicity_singleton, decide_True.
  - intros k ->%gmultiset_elem_of_singleton. exists 0%nat, ip. split_and!; [done|lia|done].
  - intros i j p q [[-> _]|?]%Hat [[-> _]|?]%Hat; [done|lia|lia|lia].
Qed.
