(* ===== verification/FsDir.v ===== *)
(** * Directories

    A directory is a file of 16-byte entries, an inode number and a name.
    [dirlookup] and [dirlink] of [kernel/fs.c] implement a finite map from
    names to inode numbers on it: the first entry in use with the name counts,
    and a new entry goes to the first slot that is free. *)

From stdpp Require Import base numbers strings decidable sets gmap functions gmultiset list.
From S2P Require Import Prelude.
From S2P Require Import CString.
From S2P Require Import Riscv.
From S2P Require Import Sched.
From S2P Require Import Kalloc.
From S2P Require Import Vm.
From S2P Require Import Sleeplock.
From S2P Require Import Bio.
From S2P Require Import Log.
From S2P Require Import LogOps.
From S2P Require Import Fs.
From S2P Require Import Transfer.
From S2P Require Import Txn.
From S2P Require Import FsBlocks.
From S2P Require Import FsFile.
From S2P Require Import FsInode.
From S2P Require Import FsData.
From S2P Require Import FsWrite.
From S2P Require Import FsDisk.
From S2P Require Import FsOp.
From S2P Require Import ITable.
Open Scope Z_scope.
Open Scope xv6_scope.

(** ** Names

    Two names are the same to the file system when [strncpy] stores the same
    14 bytes for them. *)

Definition fname (p : cptr) : list Z := strncpy p DIRSIZ.

Lemma strncpy_loop_eq p q n i :
  strncpy_loop n i p = strncpy_loop n i q <->
  forall j, (i <= j < i + n)%nat -> (forall h, (i <= h < j)%nat -> p h <> 0) -> p j = q j.
Proof.
  revert i. induction n as [|n IH]; intros i; cbn [strncpy_loop]; [split; [lia|done]|].
  assert (Hi : (forall j, (i <= j < i + S n)%nat -> (forall h, (i <= h < j)%nat -> p h <> 0) -> p j = q j) -> p i = q i)
    by (intros H; apply H; lia).
  destruct (Z.eqb_spec (p i) 0) as [Pz|Pz], (Z.eqb_spec (q i) 0) as [Qz|Qz].
  - split; [|done]. intros _ j Hj Hh. destruct (decide (j = i)) as [->|]; [congruence|]. destruct (Hh i); [lia|done].
  - split; [intros [= E _]; congruence|]. intros H%Hi. congruence.
  - split; [intros [= E _]; congruence|]. intros H%Hi. congruence.
  - split.
    + intros [= E1 E2] j Hj Hh. destruct (decide (j = i)) as [->|]; [done|].
      apply (proj1 (IH (S i)) E2); [lia|]. intros h Hh'. apply Hh. lia.
    + intros H. f_equal; [by apply Hi|]. apply IH. intros j Hj Hh. apply H; [lia|]. intros h Hh'.
      destruct (decide (h = i)) as [->|]; [done|]. apply Hh. lia.
Qed.
Lemma namecmp_fname p q : bytes_ptr p -> bytes_ptr q -> namecmp p q = 0 <-> fname p = fname q.
Proof.
  intros Bp Bq. unfold namecmp, strncmp, fname. unfold strncpy.
  by rewrite strncmp_loop_zero, strncpy_loop_eq.
Qed.
(** A name stored in an entry is the name. *)
Lemma fname_stored p : fname (of_list (fname p)) = fname p.
Proof.
  symmetry. apply strncpy_loop_eq. intros j Hj Hh. unfold of_list, fname.
  destruct (strncpy_loop_spec DIRSIZ 0 p j) as (x & Hx & H1 & H2); [lia|]. unfold strncpy. rewrite (nth_lookup_Some _ _ _ _ Hx).
  destruct (decide (p j = 0)) as [Hz|Hz]; [rewrite H2; [done|by exists j; split; [lia|]]|].
  symmetry. apply H1. intros h Hlt. destruct (decide (h = j)) as [->|]; [done|]. apply Hh. lia.
Qed.

(** ** Entries *)

Definition dent : Type := Z * list Z.
Definition dent_of (de : list Z) : dent := (de_inum de, fname (of_list (de_name de))).
Definition nent : nat := Z.to_nat sizeof_dirent.
Definition chunk (c : list Z) (k : nat) : list Z := take nent (drop (nent * k) c).
Definition dents (c : list Z) : list dent := (fun k => dent_of (chunk c k)) <$> seq 0 (length c / nent).

(** A directory: whole entries, of bytes. *)
Record dir_ok (c : list Z) : Prop := {
  dk_len : length c = (nent * (length c / nent))%nat;
  dk_bytes : Forall is_byte c;
}.

Definition named (nm : list Z) (e : dent) : Prop := e.1 <> 0 /\ e.2 = nm.
#[export] Instance named_dec nm e : Decision (named nm e).
Proof. unfold named. apply _. Defined.
(** The map a directory stands for. *)
Fixpoint dlookup (es : list dent) (nm : list Z) : option Z :=
  match es with
  | [] => None
  | e :: es' => if decide (named nm e) then Some e.1 else dlookup es' nm
  end.

Lemma nent_val : nent = 16%nat.
Proof. done. Qed.
Lemma length_contents V ip : 0 <= i_size ip -> Z.of_nat (length (contents V ip)) = i_size ip.
Proof. intros H. unfold contents, fbytes. rewrite length_fmap, length_seqZ. lia. Qed.
Lemma length_dents c : length (dents c) = (length c / nent)%nat.
Proof. unfold dents. by rewrite length_fmap, length_seq. Qed.
Lemma dents_lookup c k : (k < length c / nent)%nat -> dents c !! k = Some (dent_of (chunk c k)).
Proof. intros Hk. unfold dents. rewrite list_lookup_fmap, lookup_seq_lt by done. done. Qed.
Lemma chunk_bytes c k : Forall is_byte c -> bytes_ptr (of_list (de_name (chunk c k))).
Proof.
  intros H i. unfold of_list. destruct (decide (i < length (de_name (chunk c k)))%nat) as [Hi|Hi].
  - destruct (lookup_lt_is_Some_2 _ _ Hi) as [x Hx]. rewrite (nth_lookup_Some _ _ _ _ Hx).
    apply (Forall_lookup_1 is_byte (de_name (chunk c k)) i x); [|done]. by apply Forall_drop, Forall_take, Forall_drop.
  - rewrite nth_overflow by lia. unfold is_byte. lia.
Qed.

(** ** An entry written *)

Lemma length_mkdirent inum name : length (mkdirent inum (fname name)) = nent.
Proof. unfold mkdirent, fname. by rewrite length_app, length_le_enc, length_strncpy. Qed.
Lemma dent_mkdirent inum name : 0 <= inum < 2 ^ 16 -> dent_of (mkdirent inum (fname name)) = (inum, fname name).
Proof.
  intros Hi. unfold dent_of, mkdirent, de_inum, de_name. f_equal.
  - unfold get_le. rewrite drop_0, take_app_length' by (by rewrite length_le_enc). rewrite le_dec_enc.
    by apply Z.mod_small.
  - rewrite drop_app_length' by (by rewrite length_le_enc). apply fname_stored.
Qed.
Lemma mkdirent_bytes inum name : bytes_ptr name -> Forall is_byte (mkdirent inum (fname name)).
Proof.
  intros Hb. unfold mkdirent. apply Forall_app. split; [apply le_enc_bytes|]. apply Forall_lookup. intros k x Hx.
  pose proof (lookup_lt_Some _ _ _ Hx) as Hk. unfold fname in Hk, Hx. rewrite length_strncpy in Hk.
  destruct (strncpy_loop_spec DIRSIZ 0 name k Hk) as (y & Hy & H1 & H2). unfold strncpy in Hx. rewrite Hy in Hx. injection Hx as <-.
  destruct (nul_within name k) as [D|D]; [rewrite H2 by (destruct D as (h & ? & ?); exists h; split; [lia|done])|rewrite H1 by (intros h Hh; apply D; lia)]; [unfold is_byte; lia|apply Hb].
Qed.

Lemma chunk_splice c de k m :
  length de = nent -> (nent * k <= length c)%nat ->
  chunk (splice (nent * k) de c) m = if decide (m = k) then de else chunk c m.
Proof.
  intros Hd Hk. unfold chunk, splice. rewrite nent_val in *. destruct (decide (m = k)) as [->|Hne].
  - rewrite drop_app_length' by len. by rewrite take_app_length' by lia.
  - destruct (decide (m < k)%nat) as [Hlt|Hge].
    + rewrite drop_app_le by len. rewrite take_app_le by len.
      rewrite !take_drop_commute, take_take. by rewrite Nat.min_l by lia.
    + rewrite app_assoc, drop_app_ge by len. rewrite drop_drop. do 2 f_equal. len.
Qed.

Section written.
Context (c de : list Z) (k : nat).
Hypothesis Dk : dir_ok c.
Hypothesis Hd : length de = nent.
Hypothesis Hk : (k <= length c / nent)%nat.
Notation c' := (splice (nent * k) de c).

Lemma slot_fits : (nent * k <= length c)%nat.
Proof using All. rewrite (dk_len _ Dk). rewrite nent_val in *. lia. Qed.
Lemma length_written : length c' = (nent * Nat.max (length c / nent) (S k))%nat.
Proof using All.
  pose proof slot_fits. pose proof (dk_len _ Dk). unfold splice. rewrite nent_val in *. rewrite !length_app, length_take, length_drop, Hd. lia.
Qed.
Lemma written_count : (length c' / nent)%nat = Nat.max (length c / nent) (S k).
Proof using All. rewrite length_written, Nat.mul_comm. by apply Nat.div_mul. Qed.
Lemma written_ok : Forall is_byte de -> dir_ok c'.
Proof using All.
  intros Hb. split.
  - rewrite written_count. apply length_written.
  - pose proof (dk_bytes _ Dk). unfold splice. rewrite !Forall_app. split_and!; [by apply Forall_take|done|by apply Forall_drop].
Qed.
Lemma dents_written : dents c' = splice k [dent_of de] (dents c).
Proof using All.
  apply list_eq. intros m. pose proof (chunk_splice c de k m Hd slot_fits) as Hc. pose proof (length_dents c) as Hl.
  unfold splice at 2. cbn [length]. destruct (decide (m < Nat.max (length c / nent) (S k))%nat) as [Hm|Hm].
  - rewrite dents_lookup by (by rewrite written_count). rewrite Hc. destruct (decide (m = k)) as [->|Hne].
    + rewrite lookup_app_r by (rewrite length_take; lia). rewrite length_take, Hl, Nat.min_l, Nat.sub_diag by lia. done.
    + rewrite <- dents_lookup by lia. destruct (decide (m < k)%nat) as [Hlt|Hge].
      * rewrite lookup_app_l by (rewrite length_take; lia). by rewrite lookup_take_lt.
      * rewrite app_assoc, lookup_app_r by (rewrite length_app, length_take; simpl; lia).
        rewrite lookup_drop, length_app, length_take. simpl. f_equal. lia.
  - rewrite lookup_ge_None_2 by (rewrite length_dents, written_count; lia).
    rewrite lookup_ge_None_2; [done|]. rewrite !length_app, length_take, length_drop. simpl. lia.
Qed.
End written.

(** The map gains the entry, in a slot that was free. *)
Lemma dlookup_app es fs nm : dlookup (es ++ fs) nm = match dlookup es nm with Some i => Some i | None => dlookup fs nm end.
Proof. induction es as [|e es IH]; cbn; [done|]. by case_decide. Qed.
Lemma dlookup_written (es : list dent) k inum nm nm' :
  (forall e : dent, es !! k = Some e -> e.1 = 0) -> inum <> 0 -> dlookup es nm = None ->
  dlookup (splice k [(inum, nm) : dent] es) nm' = if decide (nm' = nm) then Some inum else dlookup es nm'.
Proof.
  intros Hf Hi Hn. unfold splice. cbn [length].
  assert (Eq : forall n, dlookup es n = match dlookup (take k es) n with Some i => Some i | None => dlookup (drop (k + 1) es) n end).
  { intros n. rewrite <- (take_drop k es) at 1. rewrite dlookup_app. destruct (dlookup (take k es) n); [done|].
    destruct (es !! k) as [e|] eqn:E.
    - rewrite (drop_S _ _ _ E), Nat.add_1_r. cbn. rewrite decide_False; [done|]. intros [Hz _]. by apply Hz, Hf.
    - apply lookup_ge_None in E. by rewrite !drop_ge by lia. }
  rewrite dlookup_app, (Eq nm'). cbn [app dlookup]. rewrite (Eq nm) in Hn. destruct (decide (nm' = nm)) as [->|Hc].
  - destruct (dlookup (take k es) nm); [done|]. by rewrite decide_True.
  - rewrite (decide_False (P := named nm' (inum, nm))) by (intros [_ ?]; by apply Hc). done.
Qed.
(** What [dirlookup] finds. *)
Lemma dlookup_find es nm : dlookup es nm = match list_find (named nm) es with Some (_, e) => Some e.1 | None => None end.
Proof.
  induction es as [|e es IH]; cbn; [done|]. case_decide; [done|]. rewrite IH. by destruct (list_find _ es) as [[]|].
Qed.

(** Where the search for [nm] from entry [k] on ends. *)
Definition find_from (nm : list Z) (k : nat) (es : list dent) : option (nat * dent) :=
  match list_find (named nm) (drop k es) with Some (m, e) => Some ((k + m)%nat, e) | None => None end.
Lemma find_from_step nm k es (e : dent) :
  es !! k = Some e -> find_from nm k es = if decide (named nm e) then Some (k, e) else find_from nm (S k) es.
Proof.
  intros H. unfold find_from. rewrite (drop_S _ _ _ H). cbn [list_find]. case_decide; [by rewrite Nat.add_0_r|].
  destruct (list_find (named nm) (drop (S k) es)) as [[m x]|]; cbn; [do 2 f_equal; lia|done].
Qed.
Lemma find_from_end nm k es : (length es <= k)%nat -> find_from nm k es = None.
Proof. intros H. unfold find_from. by rewrite drop_ge. Qed.

(** The first free entry from [k] on, or the end. *)
Definition free_from (k : nat) (es : list dent) : nat :=
  match list_find (fun e : dent => e.1 = 0) (drop k es) with Some (m, _) => (k + m)%nat | None => length es end.
Lemma free_from_step k es (e : dent) :
  es !! k = Some e -> free_from k es = if decide (e.1 = 0) then k else free_from (S k) es.
Proof.
  intros H. unfold free_from. rewrite (drop_S _ _ _ H). cbn [list_find]. case_decide; [lia|].
  destruct (list_find (fun e : dent => e.1 = 0) (drop (S k) es)) as [[m x]|]; cbn; [lia|done].
Qed.

Section dir.
Context (start pid : Z).
Notation TX := (tx start pid).

Section lookup.
Context (V : disk) (l : list Z) (i : nat) (c : list Z).
Hypothesis Hl : (length l < NBUF)%nat.
Hypothesis Dk : dir_ok c.

(** The directory in entry [i] of the table holds [c]. *)
Definition holds_dir (s : fs) : Prop :=
  file start pid s V l i /\ contents V (itable s !!! i) = c.

Lemma holds_dir_same s s' : holds_dir s -> TX s' V l [] [] -> fsame s s' -> holds_dir s'.
Proof using.
  intros [[[T L M Hi Hd O] Hin Hsz Hfil Hsh] Ec] T' [Sb It Dr Op].
  split; [|by rewrite It]. split; rewrite ?Sb, ?It; try done. split; rewrite ?Sb, ?It; done.
Qed.
Lemma dir_size s : holds_dir s -> i_size (itable s !!! i) = Z.of_nat (nent * (length c / nent)).
Proof using Dk.
  intros [Fl Ec]. rewrite <- (length_contents V) by apply Fl. rewrite Ec. f_equal. apply Dk.
Qed.
Lemma dir_small s : holds_dir s -> Z.of_nat (nent * (length c / nent)) <= 274432.
Proof using Dk. intros D. rewrite <- (dir_size s D). apply D. Qed.

Lemma read_dent s k :
  holds_dir s -> (k < length c / nent)%nat ->
  exists s', readi i Local (Z.of_nat (nent * k)) sizeof_dirent s = Ok (sizeof_dirent, chunk c k) s' /\
    TX s' V l [] [] /\ fsame s s' /\ holds_dir s'.
Proof using Hl Dk.
  intros D Hk. pose proof (dir_size s D) as Hsz. pose proof (dir_small s D) as Hsm. destruct D as [Fl Ec] eqn:ED. clear ED.
  pose proof Fl as [[T L M Hi Hd O] Hin Hs Hfil Hsh].
  assert (Hb : (nent * S k <= nent * (length c / nent))%nat) by (apply Nat.mul_le_mono_l; lia).
  rewrite nent_val in *. change sizeof_dirent with 16 in *.
  assert (El : readable (i_size (itable s !!! i)) (Z.of_nat (16 * k)) 16 = 16).
  { unfold readable. rewrite (proj2 (Z.ltb_lt _ _)) by lia. lia. }
  destruct (readi_ok start pid 16 local_sink never s V l i Local (Z.of_nat (16 * k)) 16) as (r & out & s' & E & T' & Fs & HR);
    try done; try lia.
  rewrite El in HR. destruct HR as [(-> & -> & _)|(-> & n & _ & _ & [])]. exists s'. split; [|split; [done|split; [done|]]].
  - rewrite E. do 2 f_equal. rewrite (fbytes_slice V _ (i_size (itable s !!! i))) by lia.
    fold (contents V (itable s !!! i)). rewrite Ec. unfold chunk. rewrite nent_val. rewrite Nat2Z.id. done.
  - eapply holds_dir_same; [split; [exact Fl|exact Ec]|done|done].
Qed.

Lemma dirlookup_loop_ok fuel s name k :
  holds_dir s -> bytes_ptr name -> (k <= length c / nent)%nat -> (length c / nent - k < fuel)%nat ->
  exists s', TX s' V l [] [] /\ fsame s s' /\ holds_dir s' /\
    dirlookup_loop fuel i name (Z.of_nat (nent * k)) s =
      match find_from (fname name) k (dents c) with
      | Some (m, e) => (x <- iget ROOTDEV e.1 ;; ret (Some (x, Z.of_nat (nent * m)))) s'
      | None => Ok None s'
      end.
Proof using Hl Dk.
  revert s k. induction fuel as [|fuel IH]; intros s k D Bn Hk Hf; [lia|]. cbn [dirlookup_loop].
  pose proof (dir_size s D) as Hsz. pose proof (dir_small s D) as Hsm. erewrite bind_ok by done. rewrite Hsz.
  destruct (Z.ltb_spec (Z.of_nat (nent * k)) (Z.of_nat (nent * (length c / nent)))) as [Hlt|Hge].
  2: { rewrite find_from_end by (rewrite length_dents; rewrite nent_val in *; lia).
       exists s. split_and!; try done. apply D. }
  assert (Hkn : (k < length c / nent)%nat) by (rewrite nent_val in *; lia).
  destruct (read_dent s k D Hkn) as (s1 & E1 & T1 & F1 & D1). erewrite bind_ok by exact E1. cbv beta iota.
  rewrite Z.eqb_refl. cbn [negb].
  rewrite (find_from_step _ _ _ _ (dents_lookup c k Hkn)).
  assert (Hnext : exists s', TX s' V l [] [] /\ fsame s s' /\ holds_dir s' /\
    dirlookup_loop fuel i name (u32 (Z.of_nat (nent * k) + sizeof_dirent)) s1 =
      match find_from (fname name) (S k) (dents c) with
      | Some (m, e) => (x <- iget ROOTDEV e.1 ;; ret (Some (x, Z.of_nat (nent * m)))) s'
      | None => Ok None s'
      end).
  { replace (u32 _) with (Z.of_nat (nent * S k)).
    2: { rewrite nent_val in *. change sizeof_dirent with 16. rewrite u32_small by lia. lia. }
    destruct (IH s1 (S k) D1 Bn) as (s2 & T2 & F2 & D2 & E2); [lia|lia|]. exists s2. split_and!; try done. by eapply fsame_trans. }
  destruct (Z.eqb_spec (de_inum (chunk c k)) 0) as [Hz|Hz].
  { rewrite decide_False by (intros [H _]; by apply H). exact Hnext. }
  destruct (Z.eqb_spec (namecmp name (of_list (de_name (chunk c k)))) 0) as [Hn|Hn];
    rewrite (namecmp_fname _ _ Bn (chunk_bytes c k (dk_bytes _ Dk))) in Hn.
  - rewrite decide_True by (by split). exists s1. split_and!; try done.
    destruct D as [[[_ _ _ _ Hd _] _ _ _ _] _]. by rewrite Hd.
  - rewrite decide_False by (intros [_ H]; by apply Hn). exact Hnext.
Qed.

Lemma dirlookup_ok s name :
  holds_dir s -> bytes_ptr name -> i_type (itable s !!! i) = T_DIR ->
  exists s', TX s' V l [] [] /\ fsame s s' /\ holds_dir s' /\
    dirlookup i name s =
      match find_from (fname name) 0 (dents c) with
      | Some (m, e) => (x <- iget ROOTDEV e.1 ;; ret (Some (x, Z.of_nat (nent * m)))) s'
      | None => Ok None s'
      end.
Proof using Hl Dk.
  intros D Bn Ht. unfold dirlookup. erewrite bind_ok by done. rewrite Ht, Z.eqb_refl. cbn [negb].
  apply (dirlookup_loop_ok _ s name 0 D Bn); [lia|]. rewrite (dir_size s D). rewrite nent_val.
  change sizeof_dirent with 16. Z.to_euclidean_division_equations. lia.
Qed.

Lemma dirlink_loop_ok fuel s k :
  holds_dir s -> (k <= length c / nent)%nat -> (length c / nent - k < fuel)%nat ->
  exists s', TX s' V l [] [] /\ fsame s s' /\ holds_dir s' /\
    dirlink_loop fuel i (Z.of_nat (nent * k)) s = Ok (Z.of_nat (nent * free_from k (dents c))) s'.
Proof using Hl Dk.
  revert s k. induction fuel as [|fuel IH]; intros s k D Hk Hf; [lia|]. cbn [dirlink_loop].
  pose proof (dir_size s D) as Hsz. pose proof (dir_small s D) as Hsm. erewrite bind_ok by done. rewrite Hsz.
  destruct (Z.ltb_spec (Z.of_nat (nent * k)) (Z.of_nat (nent * (length c / nent)))) as [Hlt|Hge].
  2: { unfold free_from. rewrite drop_ge by (rewrite length_dents; rewrite nent_val in *; lia). cbn [list_find].
       exists s. split_and!; try done; [apply D|]. unfold ret. do 2 f_equal. rewrite length_dents. rewrite nent_val in *. lia. }
  assert (Hkn : (k < length c / nent)%nat) by (rewrite nent_val in *; lia).
  destruct (read_dent s k D Hkn) as (s1 & E1 & T1 & F1 & D1). erewrite bind_ok by exact E1. cbv beta iota.
  rewrite Z.eqb_refl. cbn [negb]. rewrite (free_from_step _ _ _ (dents_lookup c k Hkn)). cbn [dent_of fst].
  destruct (Z.eqb_spec (de_inum (chunk c k)) 0) as [Hz|Hz]; [rewrite decide_True by done; by exists s1|].
  rewrite decide_False by done. replace (s32 _) with (Z.of_nat (nent * S k)).
  2: { rewrite nent_val in *. change sizeof_dirent with 16. rewrite s32_small by lia. lia. }
  destruct (IH s1 (S k) D1) as (s2 & T2 & F2 & D2 & E2); [lia|lia|]. exists s2. split_and!; try done. by eapply fsame_trans.
Qed.
End lookup.

(** Bytes that lie in one block are written all or not at all. *)
Lemma writei_loop_block fuel i src off n s t o s' :
  0 < n <= BSIZE - off mod BSIZE ->
  writei_loop (S (S fuel)) i src 0 off n s = Ok (t, o) s' -> t = 0 \/ t = n.
Proof using.
  intros Hn. cbn [writei_loop]. rewrite (proj2 (Z.ltb_lt 0 n)) by lia.
  intros (ip & s1 & _ & H)%bind_ok_inv. apply bind_ok_inv in H as (addr & s2 & _ & H).
  destruct (addr =? 0); [injection H as <- _ _; by left|].
  apply bind_ok_inv in H as (bp & s3 & _ & H). cbv zeta in H. apply bind_ok_inv in H as ([r bs] & s4 & _ & H).
  cbv beta iota in H. apply bind_ok_inv in H as ([] & s5 & _ & H). destruct (r =? -1).
  { apply bind_ok_inv in H as ([] & s6 & _ & H). injection H as <- _ _. by left. }
  apply bind_ok_inv in H as ([] & s6 & _ & H). apply bind_ok_inv in H as ([] & s7 & _ & H).
  rewrite Z.sub_0_r, Z.min_l, Z.add_0_l, Z.ltb_irrefl in H by lia. injection H as <- _ _. by right.
Qed.
Lemma writei_block i src off n s k s' :
  0 < n <= BSIZE - off mod BSIZE -> writei i src off n s = Ok k s' -> k = -1 \/ k = 0 \/ k = s32 n.
Proof using.
  intros Hn H. unfold writei in H. apply bind_ok_inv in H as (ip & s1 & _ & H).
  destruct (_ || _); [injection H as <- _; by left|]. destruct (_ <? _); [injection H as <- _; by left|].
  apply bind_ok_inv in H as ([t o] & s2 & H1 & H). apply writei_loop_block in H1; [|done]. cbv beta iota in H.
  apply bind_ok_inv in H as (ip2 & s3 & _ & H). apply bind_ok_inv in H as ([] & s4 & _ & H).
  apply bind_ok_inv in H as ([] & s5 & _ & H). injection H as <- _. destruct H1 as [->| ->]; [right; by left|by right; right].
Qed.

(** ** [dirlink] of a name the directory does not have *)

Lemma free_slot es k : free_from 0 es = k -> (k <= length es)%nat /\ forall e : dent, es !! k = Some e -> e.1 = 0.
Proof using.
  intros <-. unfold free_from. rewrite drop_0. destruct (list_find _ es) as [[m e]|] eqn:E.
  - apply list_find_Some in E as (Hm & Hz & _). rewrite Nat.add_0_l. split; [apply lookup_lt_Some in Hm; lia|].
    intros e' He. rewrite Hm in He. by injection He as <-.
  - split; [done|]. intros e He. apply lookup_lt_Some in He. lia.
Qed.

(** The entry written, which lies in one block. *)
Lemma write_dent s V l i off de :
  let j := i_inum (itable s !!! i) in
  inside start pid s V l i -> in_op s -> fs_wf (sb s) V -> live (sb s) V j ->
  0 <= off -> off mod 16 = 0 -> off <= i_size (itable s !!! i) -> length de = nent ->
  (length l + nbitmap (sb s) + 7 < NBUF)%nat ->
  exists r m s' V' l', (r <- writei i (FromBytes de) off sizeof_dirent ;; if negb (r =? sizeof_dirent) then ret (-1) else ret 0) s = Ok r s' /\
    inside start pid s' V' l' i /\ sb s' = sb s /\ ops s' = ops s /\ drive s' = drive s /\ i_inum (itable s' !!! i) = j /\
    holds (sb s) V j off de m V' /\
    ((r = 0 /\ m = sizeof_dirent) \/ (r = -1 /\ m = 0 /\ (full (sb s) V' \/ dsize (sb s) V j = MAXFILE * BSIZE))).
Proof using.
  intros j In O W Lv H0 H16 Hsz Hd Hl. change sizeof_dirent with 16. pose proof (in_file _ _ _ _ _ _ In) as Fl.
  pose proof (fl_size _ _ _ _ _ _ Fl) as Hs. change (MAXFILE * BSIZE) with 274432 in *.
  assert (Hde : Z.of_nat (length de) = 16) by (by rewrite Hd).
  assert (Hblk : (nblk (off / BSIZE) (off + 16) <= 1)%nat) by (unfold nblk; fslia).
  assert (Hfit : 0 < 16 <= BSIZE - off mod BSIZE) by fslia.
  pose proof (writei_ok start pid bytes_supply s V l i (FromBytes de) off 16 de Fl O eq_refl (eq_sym Hde)
    ltac:(lia) ltac:(lia) ltac:(lia)) as Hw.
  change (MAXFILE * BSIZE) with 274432 in Hw. destruct (decide _) as [[_ Hm]|Hno].
  - destruct Hw as (k & s1 & V1 & l1 & E & Hk & Wr & Hfull & _). erewrite bind_ok by exact E.
    destruct (inside_wfile start pid s V l i off de k s1 V1 l1 In W Lv Wr) as (In1 & Ho1 & Nm1).
    exists (if negb (k =? 16) then -1 else 0), k, s1, V1, l1.
    split; [by destruct (negb (k =? 16))|]. split; [done|]. split; [apply Wr|]. split; [apply Wr|]. split; [apply Wr|].
    split; [done|]. split; [done|].
    destruct (writei_block i _ off 16 s k s1 Hfit E) as [->|[->| ->]]; [lia| |by left].
    right. split; [done|]. split; [done|]. left. apply Hfull. lia.
  - erewrite bind_ok by exact Hw. exists (-1), 0, s, V, l. split; [done|]. split_and!; try done; [by apply holds_none|].
    right. split; [done|]. split; [done|]. right. change (dsize (sb s) V j) with (di_size (dinode_at (sb s) V j)).
    unfold j. rewrite <- (in_same _ _ _ _ _ _ In). change (di_size (to_dinode ?x)) with (i_size x).
    clear - H0 H16 Hsz Hs Hno. Z.to_euclidean_division_equations. lia.
Qed.

Lemma dirlink_ok s V l i name inum :
  let j := i_inum (itable s !!! i) in let c := dcontents (sb s) V j in let k := free_from 0 (dents c) in
  inside start pid s V l i -> in_op s -> fs_wf (sb s) V -> live (sb s) V j ->
  i_type (itable s !!! i) = T_DIR -> dir_ok c -> bytes_ptr name -> 0 < inum < 2 ^ 16 ->
  dlookup (dents c) (fname name) = None -> (length l + nbitmap (sb s) + 7 < NBUF)%nat ->
  exists r m s' V' l', dirlink i name inum s = Ok r s' /\ inside start pid s' V' l' i /\ sb s' = sb s /\ ops s' = ops s /\
    drive s' = drive s /\ i_inum (itable s' !!! i) = j /\
    holds (sb s) V j (Z.of_nat (nent * k)) (mkdirent inum (fname name)) m V' /\
    ((r = 0 /\ m = sizeof_dirent) \/ (r = -1 /\ m = 0 /\ (full (sb s) V' \/ dsize (sb s) V j = MAXFILE * BSIZE))).
Proof using.
  intros j c k In O W Lv Ht Dk Bn Hi Hno Hl. unfold dirlink. assert (Hl' : (length l < NBUF)%nat) by lia.
  assert (Ec : contents V (itable s !!! i) = c).
  { unfold contents, c, dcontents, j. by rewrite <- (in_same _ _ _ _ _ _ In). }
  assert (D : holds_dir V l i c s) by (split; [apply In|done]).
  destruct (dirlookup_ok V l i c Hl' Dk s name D Bn Ht) as (s1 & T1 & F1 & D1 & E1).
  rewrite dlookup_find in Hno. unfold find_from in E1. rewrite drop_0 in E1.
  destruct (list_find _ (dents c)) as [[? ?]|]; [done|]. erewrite bind_ok by exact E1.
  cbv beta iota. erewrite bind_ok by done. pose proof (dir_size V l i c Dk s1 D1) as Hsz1.
  destruct (dirlink_loop_ok V l i c Hl' Dk (S (Z.to_nat (i_size (itable s1 !!! i) / sizeof_dirent + 1))) s1 0 D1)
    as (s2 & T2 & F2 & D2 & E2); [lia| |].
  { rewrite Hsz1, nent_val. change sizeof_dirent with 16. Z.to_euclidean_division_equations. lia. }
  fold k in E2. erewrite bind_ok by exact E2. cbv zeta. fold (fname name). set (de := mkdirent inum (fname name)).
  pose proof (fsame_trans _ _ _ F1 F2) as F. pose proof (inside_fsame start pid _ _ _ _ _ In T2 F) as In2.
  destruct F as [Sb2 It2 Dr2 Op2].
  destruct (free_slot (dents c) k eq_refl) as [Hk _]. rewrite length_dents in Hk. pose proof (dir_size V l i c Dk s2 D2) as Hsz.
  pose proof (dir_small V l i c Dk s2 D2) as Hsm. set (off := Z.of_nat (nent * k)).
  assert (Hoff : 0 <= off /\ off mod 16 = 0 /\ off <= i_size (itable s2 !!! i)).
  { unfold off. rewrite Hsz. rewrite nent_val in *. split_and!; [lia| |lia]. rewrite Nat2Z.inj_mul, Z.mul_comm. apply Z.mod_mul. lia. }
  destruct Hoff as (Ho1 & Ho2 & Ho3).
  destruct (write_dent s2 V l i off de In2) as (r & m & s3 & V3 & l3 & HR); rewrite ?Sb2, ?It2; try done.
  { unfold in_op. by rewrite Op2. }
  { by rewrite <- It2. }
  { apply length_mkdirent. }
  rewrite Sb2, It2, Op2, Dr2 in HR. exists r, m, s3, V3, l3. exact HR.
Qed.

(** C6: linking.  [dirlink] of a name that the directory does not have, in a
    transaction with room in the log, returns 0, and the map the directory
    stands for has gained the name; or it returns -1 and the directory is as
    it was, the disk being full or the directory at the size limit of files.
    The directory consists of whole entries, the file system stays sound and
    no other file changes. *)
Theorem dirlink_maps s V l i name inum :
  let j := i_inum (itable s !!! i) in let c := dcontents (sb s) V j in
  inside start pid s V l i -> in_op s -> fs_wf (sb s) V -> live (sb s) V j ->
  i_type (itable s !!! i) = T_DIR -> dir_ok c -> bytes_ptr name -> 0 < inum < 2 ^ 16 ->
  dlookup (dents c) (fname name) = None -> (length l + nbitmap (sb s) + 7 < NBUF)%nat ->
  exists r s' V' l', dirlink i name inum s = Ok r s' /\ inside start pid s' V' l' i /\ fs_wf (sb s) V' /\
    (forall k, live (sb s) V k -> k <> j -> live (sb s) V' k /\ dcontents (sb s) V' k = dcontents (sb s) V k) /\
    let c' := dcontents (sb s) V' j in dir_ok c' /\
    ((r = 0 /\ forall nm, dlookup (dents c') nm = if decide (nm = fname name) then Some inum else dlookup (dents c) nm) \/
     (r = -1 /\ c' = c /\ (full (sb s) V' \/ dsize (sb s) V j = MAXFILE * BSIZE))).
Proof using.
  intros j c In O W Lv Ht Dk Bn Hi Hno Hl.
  destruct (dirlink_ok s V l i name inum In O W Lv Ht Dk Bn Hi Hno Hl)
    as (r & m & s' & V' & l' & E & In' & _ & _ & _ & _ & [W' _ Co Ot] & HR). fold j c in Co, HR, Ot.
  exists r, s', V', l'. split; [done|]. split; [done|]. split; [done|]. split; [done|]. cbv zeta.
  set (k := free_from 0 (dents c)) in *. destruct (free_slot (dents c) k eq_refl) as [Hk Hfree]. rewrite length_dents in Hk.
  rewrite Nat2Z.id in Co. destruct HR as [[-> ->]|(-> & -> & Hf)].
  - rewrite firstn_all2 in Co by (rewrite length_mkdirent; done). rewrite Co. split.
    + apply written_ok; [done|apply length_mkdirent|done|by apply mkdirent_bytes].
    + left. split; [done|]. intros nm. rewrite dents_written by (done || apply length_mkdirent).
      rewrite dent_mkdirent by lia. apply dlookup_written; [done|lia|done].
  - rewrite take_0, splice_nil in Co. rewrite Co. split; [done|]. right. done.
Qed.
End dir.
