(* ===== verification/FsPath.v ===== *)
(** * Path names

    [namex] of [kernel/fs.c] walks a path: [skipelem] takes the next element,
    the directory reached is locked and searched, and the reference to it is
    exchanged for one to the inode found.  [resolve] is the same walk through
    the directories as the disk describes them. *)

From stdpp Require Import base numbers strings decidable sets gmap functions gmultiset list.
From S2P Require Import Prelude.
From S2P Require Import CString.
From S2P Require Import Riscv.
From S2P Require Import Sched.
From S2P Require Import Kalloc.
From S2P Require Import Vm.
From S2P Require Import Sleeplock.
From S2P Require Import Bio.
From S2P Require Import Log.
From S2P Require Import LogOps.
From S2P Require Import Fs.
From S2P Require Import Transfer.
From S2P Require Import Txn.
From S2P Require Import FsBlocks.
From S2P Require Import FsFile.
From S2P Require Import FsInode.
From S2P Require Import FsData.
From S2P Require Import FsWrite.
From S2P Require Import FsDisk.
From S2P Require Import FsOp.
From S2P Require Import ITable.
From S2P Require Import FsDir.
Open Scope Z_scope.
Open Scope xv6_scope.

(** ** The elements of a path *)

(** The pieces between the slashes. *)
Fixpoint pieces (path : list Z) : list (list Z) :=
  match path with
  | [] => [[]]
  | c :: p => if c =? slash then [] :: pieces p
              else match pieces p with w :: ws => (c :: w) :: ws | [] => [[c]] end
  end.
Definition elems (path : list Z) : list (list Z) := filter (fun w => w <> []) (pieces path).

Lemma pieces_cons path : exists w ws, pieces path = w :: ws.
Proof. destruct path as [|c p]; cbn; [by eexists _, _|]. case_match; [by eexists _, _|]. by destruct (pieces p); eexists _, _. Qed.
Lemma elems_skip path : elems (skip_slashes path) = elems path.
Proof.
  induction path as [|c p IH]; cbn [skip_slashes]; [done|]. destruct (Z.eqb_spec c slash) as [->|]; [|done].
  rewrite IH. unfold elems. cbn [pieces]. rewrite Z.eqb_refl, filter_cons_False by (intros H; by apply H). done.
Qed.
(** A path that starts with an element. *)
Lemma pieces_span path : let '(e, rest) := span_elem path in
  path = e ++ rest /\ Forall (fun c => c <> slash) e /\
  exists ws, pieces path = e :: ws /\ elems rest = filter (fun w => w <> []) ws.
Proof.
  induction path as [|c p IH]; cbn [span_elem]; [split_and!; [done|done|by exists []]|].
  destruct (Z.eqb_spec c slash) as [->|Hne].
  - split; [done|]. split; [done|]. cbn [pieces]. rewrite Z.eqb_refl. exists (pieces p). split; [done|].
    unfold elems. cbn [pieces]. rewrite Z.eqb_refl, filter_cons_False by (intros H; by apply H). done.
  - destruct (span_elem p) as [e rest]. destruct IH as (-> & He & ws & Hp & Hr). split; [done|]. split; [by constructor|].
    cbn [pieces]. rewrite (proj2 (Z.eqb_neq c slash) Hne), Hp. by exists ws.
Qed.
Lemma skip_slashes_head path : match skip_slashes path with c :: _ => c <> slash | [] => True end.
Proof. induction path as [|c p IH]; cbn; [done|]. by destruct (Z.eqb_spec c slash). Qed.
Lemma skip_slashes_suffix path : exists pre, path = pre ++ skip_slashes path.
Proof.
  induction path as [|c p [pre IH]]; cbn; [by exists []|]. destruct (c =? slash); [|by exists []].
  exists (c :: pre). cbn. by f_equal.
Qed.

Lemma elems_head c p : c <> slash -> exists e rest, span_elem (c :: p) = (c :: e, rest) /\ elems (c :: p) = (c :: e) :: elems rest.
Proof.
  intros Hc. pose proof (pieces_span (c :: p)) as H. cbn [span_elem] in *. rewrite (proj2 (Z.eqb_neq c slash) Hc) in *.
  destruct (span_elem p) as [e rest]. destruct H as (_ & _ & ws & Hp & Hr). exists e, rest. split; [done|].
  unfold elems at 1. rewrite Hp, filter_cons_True by done. by rewrite Hr.
Qed.
Lemma skip_slashes_nil path : length (skip_slashes path) = 0%nat <-> elems (skip_slashes path) = [].
Proof.
  pose proof (skip_slashes_head path) as H. destruct (skip_slashes path) as [|c p]; [done|]. split; [done|].
  by destruct (elems_head c p H) as (e & rest & _ & ->).
Qed.

(** A path of a system call has no nul in it. *)
Definition path_ok (path : list Z) : Prop := Forall (fun c => 0 < c < 256) path.

(** The buffer holds the name of an element. *)
Lemma fname_elem e rest :
  path_ok e -> fname (of_list (if Nat.leb DIRSIZ (length e) then take DIRSIZ e ++ rest else e ++ 0 :: rest)) = fname (of_list e).
Proof.
  intros He. apply strncpy_loop_eq. intros j Hj Hh. unfold of_list in *. destruct (Nat.leb_spec DIRSIZ (length e)) as [Hl|Hl].
  - rewrite app_nth1 by (rewrite length_take; lia). rewrite <- (take_drop DIRSIZ e) at 2.
    rewrite app_nth1 by (rewrite length_take; lia). done.
  - destruct (decide (j < length e)%nat) as [Hlt|Hge]; [by rewrite app_nth1|].
    rewrite (nth_overflow e) by lia. destruct (decide (j = length e)) as [->|Hne]; [by rewrite app_nth2, Nat.sub_diag by lia|].
    destruct (Hh (length e)); [lia|]. by rewrite app_nth2, Nat.sub_diag by lia.
Qed.

Lemma skipelem_ok path name :
  path_ok path -> length name = DIRSIZ ->
  match skipelem path name with
  | None => elems path = []
  | Some (path', name') =>
    exists e, elems path = e :: elems path' /\ fname (of_list name') = fname (of_list e) /\ path_ok path' /\
      (length path' < length path)%nat /\ length name' = DIRSIZ /\ (length path' = 0%nat <-> elems path' = []) /\
      (Forall is_byte name -> Forall is_byte name')
  end.
Proof.
  intros Hp Hn. unfold skipelem. rewrite <- (elems_skip path). pose proof (skip_slashes_head path) as Hh.
  destruct (skip_slashes_suffix path) as [pre Epre]. destruct (skip_slashes path) as [|c p]; [done|].
  destruct (elems_head c p Hh) as (e & rest & Es & Ee). pose proof (pieces_span (c :: p)) as Hps.
  rewrite Es in Hps |- *. destruct Hps as (Ep & _ & _). cbv zeta. assert (Hlen : length path = (length pre + S (length e) + length rest)%nat).
  { rewrite Epre, Ep. rewrite !length_app. cbn [length]. lia. }
  assert (Hpr : path_ok (c :: e) /\ path_ok rest).
  { rewrite Epre, Ep in Hp. unfold path_ok in *. rewrite !Forall_app in Hp. tauto. }
  destruct Hpr as [He Hr]. destruct (skip_slashes_suffix rest) as [pre2 Epre2].
  exists (c :: e). rewrite elems_skip. split; [done|].
  assert (Hbuf : exists tl, (if Nat.leb DIRSIZ (length (c :: e)) then splice 0 (take DIRSIZ (c :: e)) name else splice 0 ((c :: e) ++ [0]) name)
      = (if Nat.leb DIRSIZ (length (c :: e)) then take DIRSIZ (c :: e) ++ tl else (c :: e) ++ 0 :: tl) /\
      (Forall is_byte name -> Forall is_byte tl)).
  { destruct (Nat.leb DIRSIZ (length (c :: e))); eexists; (split; [unfold splice; rewrite take_0, ?app_nil_l, <- ?app_assoc; reflexivity|]); by apply Forall_drop. }
  destruct Hbuf as (tl & Et & Hb).
  assert (Hl : length (if Nat.leb DIRSIZ (length (c :: e)) then splice 0 (take DIRSIZ (c :: e)) name else splice 0 ((c :: e) ++ [0]) name) = DIRSIZ).
  { destruct (Nat.leb_spec DIRSIZ (length (c :: e))); rewrite length_splice; rewrite ?length_take, ?length_app; cbn [length] in *; lia. }
  assert (Hbe : Forall is_byte (c :: e)) by (eapply Forall_impl; [exact He|]; unfold is_byte; cbn; lia).
  split_and!.
  - rewrite Et. by apply fname_elem.
  - rewrite Epre2 in Hr. unfold path_ok in *. by apply Forall_app in Hr as [_ ?].
  - rewrite Hlen. apply (f_equal length) in Epre2. rewrite length_app in Epre2. lia.
  - exact Hl.
  - rewrite <- elems_skip. apply skip_slashes_nil.
  - intros Hnb. rewrite Et. destruct (Nat.leb DIRSIZ (length (c :: e))).
    + apply Forall_app. split; [by apply Forall_take|by apply Hb].
    + apply Forall_app. split; [done|]. constructor; [unfold is_byte; lia|by apply Hb].
Qed.

(** ** The inode table during a walk *)

(** Entry [i] is in use for the inode [key]. *)
Definition at_key (s : fs) (i : nat) (key : Z * Z) : Prop :=
  exists ip, itable s !! i = Some ip /\ 0 < i_ref ip /\ ikey ip = key.

(** An entry of the file system [V]. *)
Record entry_ok (sb : superblock) (V : disk) (ip : inode) : Prop := {
  en_dev : i_dev ip = ROOTDEV;
  en_live : live sb V (i_inum ip);
  en_same : i_valid ip <> 0 -> to_dinode ip = dinode_at sb V (i_inum ip);
}.

Section walk.
Context (start pid : Z).
Notation TX := (tx start pid).

Definition lock_of (h : option nat) (i : nat) : sleeplock :=
  if decide (h = Some i) then mksleeplock 1 pid else mksleeplock 0 0.

(** The table holds the references [R] and agrees with the disk; the lock of
    entry [h], if any, is held. *)
Record walk (s : fs) (V : disk) (l : list Z) (R : gmultiset (Z * Z)) (h : option nat) : Prop := {
  wk_tx : TX s V l [] [];
  wk_room : (length l < NBUF)%nat;
  wk_layout : layout start (sb s);
  wk_wf : fs_wf (sb s) V;
  wk_tab : itab (itable s) R;
  wk_lock : forall i ip, itable s !! i = Some ip -> i_lock ip = lock_of h i;
  wk_use : forall i ip, itable s !! i = Some ip -> 0 < i_ref ip -> entry_ok (sb s) V ip;
}.

(** Nothing but the table, the cache and the scheduler changed. *)
Record stays (s s' : fs) : Prop := {
  sy_sb : sb s' = sb s;
  sy_drive : drive s' = drive s;
  sy_ops : ops s' = ops s;
}.
Lemma stays_trans s1 s2 s3 : stays s1 s2 -> stays s2 s3 -> stays s1 s3.
Proof using. intros [] []. split; congruence. Qed.

(** Entry [i] becomes [ip]. *)
Lemma walk_insert s s' V l R R' h h' i ip :
  walk s V l R h -> TX s' V l [] [] -> stays s s' -> itable s' = <[i := ip]> (itable s) ->
  itab (<[i := ip]> (itable s)) R' -> i_lock ip = lock_of h' i -> (0 < i_ref ip -> entry_ok (sb s) V ip) ->
  (forall k, k <> i -> lock_of h' k = lock_of h k) -> walk s' V l R' h'.
Proof using.
  intros [T Hr L W Tb Lk Us] T' [Sb _ _] It Tb' Li Ui Ho.
  assert (Hat : forall k jp, itable s' !! k = Some jp -> (k = i /\ jp = ip) \/ (k <> i /\ itable s !! k = Some jp)).
  { intros k jp. rewrite It, list_lookup_insert_Some. intros [(-> & <- & _)|[? ?]]; auto. }
  split; rewrite ?Sb; try done.
  - by rewrite It.
  - intros k jp [[-> ->]|[Hne Hk]]%Hat; [done|]. rewrite Ho by done. by eapply Lk.
  - intros k jp [[-> ->]|[Hne Hk]]%Hat; [done|]. by eapply Us.
Qed.
(** The same reference and inode, other contents. *)
Lemma itab_same t R i ip ip' :
  itab t R -> t !! i = Some ip -> i_ref ip' = i_ref ip -> ikey ip' = ikey ip -> 0 < i_ref ip -> itab (<[i := ip']> t) R.
Proof using.
  intros T Hi Hr Hk Hp. eapply itab_insert; [exact T|exact Hi|lia| |done| |done].
  - rewrite Hr, Hk. by eapply (it_count _ _ T).
  - intros j jp Hj Hne Hpj. rewrite Hk. intros E. apply Hne. by eapply (it_uniq _ _ T).
Qed.
Lemma at_key_in s V l R h i key : walk s V l R h -> at_key s i key -> key ∈ R.
Proof using.
  intros W (ip & Hi & Hp & <-). apply elem_of_multiplicity.
  pose proof (it_count _ _ (wk_tab _ _ _ _ _ W) i ip Hi Hp). lia.
Qed.
Lemma at_key_total s i key : at_key s i key -> itable s !! i = Some (itable s !!! i) /\ 0 < i_ref (itable s !!! i) /\ ikey (itable s !!! i) = key.
Proof using. intros (ip & Hi & Hp & Hk). by rewrite (list_lookup_total_correct _ _ _ Hi). Qed.

Lemma walk_iref s V l R h i key :
  walk s V l R h -> at_key s i key -> iref s i /\ entry_ok (sb s) V (itable s !!! i) /\ i_lock (itable s !!! i) = lock_of h i.
Proof using.
  intros [T Hr L W Tb Lk Us] (Hi & Hp & Hk)%at_key_total. pose proof (Us i _ Hi Hp) as [Hd Hlv Hs].
  split; [|by split; [|apply Lk]]. split; [by eapply lookup_lt_Some|done|apply Hlv|lia].
Qed.

Lemma walk_ilock s V l R i key :
  walk s V l R None -> at_key s i key ->
  exists s', ilock (Some i) s = Ok tt s' /\ walk s' V l R (Some i) /\ inside start pid s' V l i /\ stays s s' /\
    at_key s' i key.
Proof using.
  intros Wk Ak. destruct (walk_iref _ _ _ _ _ _ _ Wk Ak) as (Rf & [Hd Hlv Hs] & Hlk).
  pose proof (at_key_total _ _ _ Ak) as (Hi & Hp & Hk). pose proof Wk as [T Hr L W Tb Lk Us].
  destruct (lock_inside start pid s V l i T Hr L W Rf Hs Hlk Hlv) as (s' & E & In & Mm & Dr & Sb & Op & It).
  set (ip := locked_entry pid _ _) in It. exists s'. split; [done|].
  assert (Sy : stays s s') by done. split; [|split; [done|split; [done|]]].
  - eapply (walk_insert s s' V l R R None (Some i) i ip Wk); try done.
    + apply In.
    + by eapply itab_same.
    + unfold lock_of. by rewrite decide_True.
    + intros k Hk'. unfold lock_of. rewrite !decide_False; congruence.
  - exists ip. split; [|by split]. rewrite It. apply list_lookup_insert_eq, Rf.
Qed.

Lemma walk_iunlock s V l R i key :
  walk s V l R (Some i) -> at_key s i key ->
  exists s', iunlock (Some i) s = Ok tt s' /\ walk s' V l R None /\ stays s s' /\ forall k key, at_key s k key -> at_key s' k key.
Proof using.
  intros Wk Ak. destruct (walk_iref _ _ _ _ _ _ _ Wk Ak) as (Rf & [Hd Hlv Hs] & Hlk).
  pose proof (at_key_total _ _ _ Ak) as (Hi & Hp & Hk). pose proof Wk as [T Hr L W Tb Lk Us].
  unfold lock_of in Hlk. rewrite decide_True in Hlk by done.
  destruct (iunlock_ok start pid s V l [] i T (ir_lt _ _ Rf)) as (s' & E & T' & [Sb It Mm Dr Op]); [lia|done|].
  set (ip := itable s !!! i) in *. set (ip' := ip <| i_lock := mksleeplock 0 0 |>) in It.
  exists s'. split; [done|]. assert (Sy : stays s s') by done. split; [|split; [done|]].
  - eapply (walk_insert s s' V l R R (Some i) None i ip' Wk); try done; [by eapply itab_same|].
    intros k Hne. unfold lock_of. rewrite !decide_False; congruence.
  - intros k key' (jp & Hj & Hpj & Hkj). destruct (decide (k = i)) as [->|Hne].
    + rewrite Hi in Hj. injection Hj as <-. exists ip'. split; [|by split]. rewrite It. apply list_lookup_insert_eq, Rf.
    + exists jp. split; [|done]. rewrite It. by rewrite list_lookup_insert_ne.
Qed.

(** [iget] of an inode of the file system, with room in the table. *)
Lemma walk_iget s V l R h j :
  walk s V l R h -> live (sb s) V j -> Z.of_nat (multiplicity (ROOTDEV, j) R) + 1 < 2 ^ 31 -> (size (dom R) < NINODE)%nat ->
  exists x s', iget ROOTDEV j s = Ok x s' /\ walk s' V l (R ⊎ {[+ (ROOTDEV, j) +]}) h /\ stays s s' /\
    at_key s' x (ROOTDEV, j) /\ forall k key, at_key s k key -> at_key s' k key.
Proof using.
  intros Wk Hj Hm Hs. pose proof Wk as [T Hr L W Tb Lk Us].
  pose proof (iget_ok s R (running_free _ _ _ (tx_running _ _ _ _ _ _ _ T)) Tb ROOTDEV j Hm) as H.
  destruct (iget ROOTDEV j s) as [x s'|m| | |]; try done; [|destruct H as (_ & _ & H); lia].
  destruct H as (ip & -> & Tb' & Hx & Hk & Hrf & Hcase). assert (Hp : 0 < i_ref ip) by lia.
  set (s' := s <| itable := _ |>). exists x, s'. split; [done|]. assert (Sy : stays s s') by done.
  pose proof (itab_at s R Tb x Hx) as Hxt. set (ox := itable s !!! x) in *.
  assert (Hlock : i_lock ip = i_lock ox) by (destruct (decide _); [destruct Hcase as [-> _]; done|apply Hcase]).
  assert (Hnew : at_key s' x (ROOTDEV, j)).
  { exists ip. split; [|by split]. apply list_lookup_insert_eq. by eapply lookup_lt_Some. }
  split; [|split; [done|split; [done|]]].
  - eapply (walk_insert s s' V l R _ h h x ip Wk); try done; [by apply tx_itable|by rewrite Hlock; apply Lk|].
    intros _. injection Hk as Hk1 Hk2. destruct (decide _) as [Hin|Hin].
    + destruct Hcase as (Eip & _ & Hpo). destruct (Us x ox Hxt Hpo) as [Ud Ul Uv]. rewrite Eip. by split.
    + destruct Hcase as (Hv & _). split; [done|by rewrite Hk2|]. by intros ?.
  - intros k key (kp & Hkp & Hpk & Hkk). destruct (decide (k = x)) as [->|Hne].
    + rewrite Hxt in Hkp. injection Hkp as <-. destruct (decide _); [|destruct Hcase as (_ & Hz & _); lia].
      destruct Hcase as (_ & Hko & _). by rewrite <- Hkk, Hko.
    + exists kp. split; [|done]. unfold s'. cbn. by rewrite list_lookup_insert_ne.
Qed.

(** [iput] of a reference to an inode with links. *)
Lemma walk_iput s V l R i key :
  walk s V l R None -> at_key s i key -> di_nlink (dinode_at (sb s) V key.2) <> 0 ->
  Z.of_nat (multiplicity key R) < 2 ^ 31 ->
  exists s', iput i s = Ok tt s' /\ walk s' V l (R ∖ {[+ key +]}) None /\ stays s s' /\
    forall k key', at_key s k key' -> key' ∈ R ∖ {[+ key +]} -> at_key s' k key'.
Proof using.
  intros Wk Ak Hn Hm. destruct (walk_iref _ _ _ _ _ _ _ Wk Ak) as (Rf & [Hd Hlv Hs] & Hlk).
  pose proof (at_key_total _ _ _ Ak) as (Hi & Hp & Hk). pose proof Wk as [T Hr L W Tb Lk Us].
  set (ip := itable s !!! i) in *. pose proof (it_count _ _ Tb i ip Hi Hp) as Hc. rewrite Hk in Hc.
  assert (Hlt : (i < NINODE)%nat) by (rewrite <- (it_len _ _ Tb); apply Rf).
  assert (Hkeep : i_ref ip <> 1 \/ i_valid ip = 0 \/ i_nlink ip <> 0).
  { destruct (decide (i_valid ip = 0)) as [|Hv]; [by right; left|right; right].
    change (i_nlink ip) with (di_nlink (to_dinode ip)). rewrite Hs by done. by rewrite <- Hk in Hn. }
  destruct (iput_counts s R (running_free _ _ _ (tx_running _ _ _ _ _ _ _ T)) Tb i Hlt) as (s' & E & Es & Tb'); [fold ip; lia|done|].
  fold ip in Es, Tb'. rewrite Hk in Tb'. set (ip' := ip <| i_ref := i_ref ip - 1 |>) in Es.
  assert (It : itable s' = <[i := ip']> (itable s)) by (by rewrite Es).
  exists s'. split; [done|]. assert (Sy : stays s s') by (by rewrite Es). split; [|split; [done|]].
  - eapply (walk_insert s s' V l R _ None None i ip' Wk); try done.
    + rewrite Es. by apply tx_itable.
    + by rewrite <- It.
  - intros k key' (jp & Hj & Hpj & Hkj) Hin. destruct (decide (k = i)) as [->|Hne].
    + rewrite Hi in Hj. injection Hj as <-. assert (key' = key) as -> by congruence.
      exists ip'. split; [rewrite It; apply list_lookup_insert_eq, Rf|]. split; [|done].
      rewrite elem_of_multiplicity, multiplicity_difference, multiplicity_singleton, decide_True in Hin by done.
      change (0 < i_ref ip - 1). lia.
    + exists jp. split; [|done]. rewrite It. by rewrite list_lookup_insert_ne.
Qed.

Lemma walk_fsame s s' V l R h : walk s V l R h -> TX s' V l [] [] -> fsame s s' -> walk s' V l R h /\ stays s s' /\ forall k key, at_key s k key -> at_key s' k key.
Proof using.
  intros [T Hr L W Tb Lk Us] T' [Sb It Dr Op]. split; [split; by rewrite ?Sb, ?It|]. split; [done|].
  intros k key. unfold at_key. by rewrite It.
Qed.
(** [iunlockput] *)
Lemma walk_unlockput s V l R i key :
  walk s V l R (Some i) -> at_key s i key -> di_nlink (dinode_at (sb s) V key.2) <> 0 -> Z.of_nat (multiplicity key R) < 2 ^ 31 ->
  exists s', iunlockput i s = Ok tt s' /\ walk s' V l (R ∖ {[+ key +]}) None /\ stays s s' /\
    forall k key', at_key s k key' -> key' ∈ R ∖ {[+ key +]} -> at_key s' k key'.
Proof using.
  intros Wk Ak Hn Hm. destruct (walk_iunlock s V l R i key Wk Ak) as (s1 & E1 & Wk1 & Sy1 & K1).
  destruct (walk_iput s1 V l R i key Wk1 (K1 _ _ Ak)) as (s2 & E2 & Wk2 & Sy2 & K2); [by rewrite (sy_sb _ _ Sy1)|done|].
  exists s2. split; [unfold iunlockput; by erewrite bind_ok by exact E1|]. split; [done|].
  split; [by eapply stays_trans|]. intros k key' Hk Hin. by apply K2; [apply K1|].
Qed.

(** ** The walk *)

(** The directories of the file system: whole entries that name inodes in
    use; every inode in use is named somewhere. *)
Record tree (sb : superblock) (V : disk) : Prop := {
  tr_dir : forall j, live sb V j -> di_type (dinode_at sb V j) = T_DIR -> dir_ok (dcontents sb V j);
  tr_entry : forall j nm k, live sb V j -> di_type (dinode_at sb V j) = T_DIR ->
    dlookup (dents (dcontents sb V j)) nm = Some k -> live sb V k;
  tr_links : forall j, live sb V j -> di_nlink (dinode_at sb V j) <> 0;
}.

(** The inode the elements [ns] lead to from inode [j], or its directory. *)
Fixpoint resolve (sb : superblock) (V : disk) (parent : bool) (j : Z) (ns : list (list Z)) : option Z :=
  match ns with
  | [] => if parent then None else Some j
  | nm :: ns' =>
    if decide (di_type (dinode_at sb V j) = T_DIR) then
      if parent && bool_decide (ns' = []) then Some j
      else match dlookup (dents (dcontents sb V j)) nm with
           | Some k => resolve sb V parent k ns'
           | None => None
           end
    else None
  end.
Definition names (path : list Z) : list (list Z) := (fun e => fname (of_list e)) <$> elems path.

Section loop.
Context (V : disk) (l : list Z) (R0 : gmultiset (Z * Z)).
Notation R j := (R0 ⊎ {[+ (ROOTDEV, j) +]}).

Lemma refs_bound j key : Z.of_nat (multiplicity key (R j)) <= Z.of_nat (multiplicity key R0) + 1.
Proof using.
  rewrite multiplicity_disj_union. destruct (decide (key = (ROOTDEV, j))) as [->|Hne].
  - rewrite multiplicity_singleton, decide_True by done. lia.
  - rewrite multiplicity_singleton_ne by done. lia.
Qed.
Lemma refs_swap j k : (R j ⊎ {[+ (ROOTDEV, k) +]}) ∖ {[+ (ROOTDEV, j) +]} = R k.
Proof using. clear V l. multiset_solver. Qed.
Lemma refs_drop j : R j ∖ {[+ (ROOTDEV, j) +]} = R0.
Proof using. clear V l. multiset_solver. Qed.
Lemma refs_room j : (size (dom R0) + 1 < NINODE)%nat -> (size (dom (R j)) < NINODE)%nat.
Proof using.
  intros Hroom.
  assert (E : dom (R j) = dom R0 ∪ {[ (ROOTDEV, j) ]}).
  { apply set_eq. intros x. rewrite gmultiset_elem_of_dom, gmultiset_elem_of_disj_union, gmultiset_elem_of_singleton, elem_of_union, gmultiset_elem_of_dom, elem_of_singleton. done. }
  rewrite E. pose proof (size_union_alt (dom R0) {[ (ROOTDEV, j) ]}) as Hu.
  assert (Hd : (size ({[ (ROOTDEV, j) ]} ∖ dom R0) <= 1)%nat).
  { rewrite <- (size_singleton (C := gset (Z * Z)) (ROOTDEV, j)). apply subseteq_size. set_solver. }
  lia.
Qed.
Hypothesis Hroom : (size (dom R0) + 1 < NINODE)%nat.
Hypothesis Hsmall : forall key, Z.of_nat (multiplicity key R0) + 3 < 2 ^ 31.
(** A locked directory searched: a reference to the inode found is added. *)
Lemma search_ok s i j name :
  walk s V l (R j) (Some i) -> inside start pid s V l i -> at_key s i (ROOTDEV, j) -> tree (sb s) V ->
  Forall is_byte name -> di_type (dinode_at (sb s) V j) = T_DIR ->
  match dlookup (dents (dcontents (sb s) V j)) (fname (of_list name)) with
  | Some k => exists x off s2, dirlookup i (of_list name) s = Ok (Some (x, off)) s2 /\
      walk s2 V l (R j ⊎ {[+ (ROOTDEV, k) +]}) (Some i) /\ stays s s2 /\ at_key s2 i (ROOTDEV, j) /\ at_key s2 x (ROOTDEV, k)
  | None => exists s2, dirlookup i (of_list name) s = Ok None s2 /\
      walk s2 V l (R j) (Some i) /\ stays s s2 /\ at_key s2 i (ROOTDEV, j)
  end.
Proof using Hroom Hsmall.
  intros Wk In Ak Tr Hb Ht. pose proof Wk as [T Hr L W Tb Lk Us]. pose proof (at_key_total _ _ _ Ak) as (Hi & Hp & Hk).
  destruct (Us i _ Hi Hp) as [Hd Hlv Hs]. injection Hk as _ Hj. rewrite Hj in Hlv, Hs.
  pose proof (in_same _ _ _ _ _ _ In) as Hsm. rewrite Hj in Hsm.
  set (c := dcontents (sb s) V j). pose proof (tr_dir _ _ Tr j Hlv Ht) as Dk. fold c in Dk.
  assert (D : holds_dir start pid V l i c s).
  { split; [apply In|]. unfold contents, c, dcontents. by rewrite <- Hsm. }
  assert (Bn : bytes_ptr (of_list name)).
  { intros k. unfold of_list. destruct (decide (k < length name)%nat) as [Hlt|Hge].
    - destruct (lookup_lt_is_Some_2 _ _ Hlt) as [x Hx]. rewrite (nth_lookup_Some _ _ _ _ Hx). by eapply Forall_lookup_1.
    - rewrite nth_overflow by lia. unfold is_byte. lia. }
  destruct (dirlookup_ok start pid V l i c Hr Dk s (of_list name) D Bn) as (s1 & T1 & F1 & D1 & E1).
  { change (i_type ?x) with (di_type (to_dinode x)). by rewrite Hsm. }
  destruct (walk_fsame s s1 V l _ _ Wk T1 F1) as (Wk1 & Sy1 & K1).
  unfold find_from in E1. rewrite drop_0 in E1. pose proof (dlookup_find (dents c) (fname (of_list name))) as Ef.
  destruct (list_find _ (dents c)) as [[m e]|]; rewrite Ef.
  - destruct (walk_iget s1 V l (R j) (Some i) e.1 Wk1) as (x & s2 & E2 & Wk2 & Sy2 & A2 & K2).
    + rewrite (sy_sb _ _ Sy1). by eapply (tr_entry _ _ Tr j).
    + pose proof (refs_bound j (ROOTDEV, e.1)). pose proof (Hsmall (ROOTDEV, e.1)). lia.
    + by apply refs_room.
    + exists x, (Z.of_nat (nent * (0 + m))), s2. rewrite E1. erewrite bind_ok by exact E2. split; [done|]. split; [done|].
      split; [by eapply stays_trans|]. split; [by apply K2, K1|done].
  - exists s1. rewrite E1. split; [done|]. split; [done|]. split; [done|by apply K1].
Qed.

(** The reference to directory [j] given up. *)
Lemma leave_dir s i j R' :
  walk s V l R' (Some i) -> at_key s i (ROOTDEV, j) -> tree (sb s) V ->
  (forall key, Z.of_nat (multiplicity key R') <= Z.of_nat (multiplicity key R0) + 2) ->
  exists s', iunlockput i s = Ok tt s' /\ walk s' V l (R' ∖ {[+ (ROOTDEV, j) +]}) None /\ stays s s' /\
    forall k key', at_key s k key' -> key' ∈ R' ∖ {[+ (ROOTDEV, j) +]} -> at_key s' k key'.
Proof using Hroom Hsmall.
  intros Wk Ak Tr Hb. apply walk_unlockput; [done|done| |].
  - destruct (walk_iref _ _ _ _ _ _ _ Wk Ak) as (_ & [_ Hlv _] & _). pose proof (at_key_total _ _ _ Ak) as (_ & _ & Hk).
    injection Hk as _ Hj. rewrite Hj in Hlv. by apply (tr_links _ _ Tr).
  - pose proof (Hb (ROOTDEV, j)). pose proof (Hsmall (ROOTDEV, j)). lia.
Qed.

(** The reference to the start of an empty path given up. *)
Lemma drop_root s i j :
  walk s V l (R j) None -> at_key s i (ROOTDEV, j) -> tree (sb s) V ->
  exists s', iput i s = Ok tt s' /\ walk s' V l R0 None /\ stays s s'.
Proof using Hroom Hsmall.
  intros Wk Ak Tr. destruct (walk_iref _ _ _ _ _ _ _ Wk Ak) as (_ & [_ Hlv _] & _). pose proof (at_key_total _ _ _ Ak) as (_ & _ & Hk).
  injection Hk as _ Hj. rewrite Hj in Hlv.
  destruct (walk_iput s V l (R j) i (ROOTDEV, j) Wk Ak) as (s1 & E1 & Wk1 & Sy1 & _); [by apply (tr_links _ _ Tr)| |].
  { pose proof (refs_bound j (ROOTDEV, j)). pose proof (Hsmall (ROOTDEV, j)). lia. }
  rewrite refs_drop in Wk1. by exists s1.
Qed.

Lemma namex_loop_ok fuel path parent name s i j :
  walk s V l (R j) None -> at_key s i (ROOTDEV, j) -> tree (sb s) V -> path_ok path ->
  length name = DIRSIZ -> Forall is_byte name -> (length path < fuel)%nat ->
  exists s' name', stays s s' /\
    match resolve (sb s) V parent j (names path) with
    | Some k => exists x, namex_loop fuel path parent i name s = Ok (Some x, name') s' /\
        walk s' V l (R k) None /\ at_key s' x (ROOTDEV, k) /\
        (parent = true -> last (names path) = Some (fname (of_list name')))
    | None => namex_loop fuel path parent i name s = Ok (None, name') s' /\ walk s' V l R0 None
    end.
Proof using Hroom Hsmall.
  revert path name s i j. induction fuel as [|fuel IH]; intros path name s i j Wk Ak Tr Hp Hn Hnb Hf; [lia|].
  cbn [namex_loop]. pose proof (skipelem_ok path name Hp Hn) as Hs. unfold names.
  destruct (skipelem path name) as [[path' name']|].
  2: { rewrite Hs. cbn [fmap list_fmap resolve]. destruct parent.
       - destruct (drop_root s i j Wk Ak Tr) as (s1 & E1 & Wk1 & Sy1). exists s1, name. split; [done|].
         erewrite bind_ok by exact E1. done.
       - exists s, name. split; [done|]. by exists i. }
  destruct Hs as (e & Ee & Hfn & Hp' & Hlen & Hn' & Hend & Hnb'). specialize (Hnb' Hnb). rewrite Ee. cbn [fmap list_fmap resolve].
  fold (names path'). destruct (walk_ilock s V l _ i _ Wk Ak) as (s1 & E1 & Wk1 & In1 & Sy1 & Ak1). erewrite bind_ok by exact E1.
  erewrite bind_ok by done. pose proof (sy_sb _ _ Sy1) as Sb1. rewrite <- Sb1 in Tr.
  assert (Ht : i_type (itable s1 !!! i) = di_type (dinode_at (sb s) V j)).
  { change (i_type ?x) with (di_type (to_dinode x)). rewrite (in_same _ _ _ _ _ _ In1), Sb1.
    pose proof (at_key_total _ _ _ Ak1) as (_ & _ & Hk). by injection Hk as _ ->. }
  rewrite Ht. destruct (Z.eqb_spec (di_type (dinode_at (sb s) V j)) T_DIR) as [Hd|Hd]; cbn [negb].
  2: { rewrite decide_False by done. destruct (leave_dir s1 i j (R j) Wk1 Ak1 Tr) as (s2 & E2 & Wk2 & Sy2 & _).
       { intros key. pose proof (refs_bound j key). lia. }
       rewrite refs_drop in Wk2. exists s2, name'. split; [by eapply stays_trans|]. by erewrite bind_ok by exact E2. }
  rewrite decide_True by done.
  assert (Hlast : bool_decide (names path' = []) = Nat.eqb (length path') 0).
  { unfold names. destruct (Nat.eqb_spec (length path') 0) as [Hz|Hz].
    - rewrite (proj1 Hend Hz). done.
    - apply bool_decide_eq_false. intros Hnil. apply Hz, Hend. by destruct (elems path'). }
  rewrite Hlast. destruct (parent && Nat.eqb (length path') 0) eqn:Epar.
  { destruct (walk_iunlock s1 V l _ i _ Wk1 Ak1) as (s2 & E2 & Wk2 & Sy2 & K2). exists s2, name'.
    split; [by eapply stays_trans|]. exists i. erewrite bind_ok by exact E2. split; [done|]. split; [done|]. split; [by apply K2|].
    intros _. apply andb_true_iff in Epar as [_ Hz%Nat.eqb_eq]. rewrite Hfn. unfold names. by rewrite (proj1 Hend Hz). }
  pose proof (search_ok s1 i j name' Wk1 In1 Ak1 Tr Hnb') as Hsr. rewrite Sb1, Hfn in Hsr. specialize (Hsr Hd).
  destruct (dlookup (dents (dcontents (sb s) V j)) (fname (of_list e))) as [k|].
  2: { destruct Hsr as (s2 & E2 & Wk2 & Sy2 & Ak2). erewrite bind_ok by exact E2. cbv beta iota.
       destruct (leave_dir s2 i j (R j) Wk2 Ak2) as (s3 & E3 & Wk3 & Sy3 & _).
       { by rewrite (sy_sb _ _ Sy2). }
       { intros key. pose proof (refs_bound j key). lia. }
       rewrite refs_drop in Wk3. exists s3, name'. split; [eapply stays_trans; [done|]; by eapply stays_trans|]. by erewrite bind_ok by exact E3. }
  destruct Hsr as (x & off & s2 & E2 & Wk2 & Sy2 & Ak2 & Ax2). erewrite bind_ok by exact E2. cbv beta iota.
  destruct (leave_dir s2 i j _ Wk2 Ak2) as (s3 & E3 & Wk3 & Sy3 & K3).
  { by rewrite (sy_sb _ _ Sy2). }
  { intros key. pose proof (refs_bound j key). rewrite multiplicity_disj_union. pose proof (refs_bound k key) as Hk.
    rewrite multiplicity_disj_union in Hk. lia. }
  erewrite bind_ok by exact E3. rewrite refs_swap in Wk3, K3.
  assert (Sy : stays s s3) by (eapply stays_trans; [done|]; by eapply stays_trans).
  destruct (IH path' name' s3 x k Wk3) as (s4 & name4 & Sy4 & HR); rewrite ?(sy_sb _ _ Sy) in *; try done.
  { apply K3; [done|]. multiset_solver. }
  { by rewrite Sb1 in Tr. }
  { lia. }
  exists s4, name4. split; [by eapply stays_trans|]. destruct (resolve (sb s) V parent k (names path')) as [k'|]; [|done].
  destruct HR as (y & E4 & Wk4 & Ay & Hl4). exists y. split; [done|]. split; [done|]. split; [done|].
  intros Hpar. rewrite last_cons, (Hl4 Hpar). done.
Qed.
End loop.

(** ** Where a walk starts *)

Lemma walk_idup s V l R h i key :
  walk s V l R h -> at_key s i key -> Z.of_nat (multiplicity key R) + 1 < 2 ^ 31 ->
  exists s', idup i s = Ok i s' /\ walk s' V l (R ⊎ {[+ key +]}) h /\ stays s s' /\ at_key s' i key.
Proof using.
  intros Wk Ak Hm. pose proof (at_key_total _ _ _ Ak) as (Hi & Hp & Hk). pose proof Wk as [T Hr L W Tb Lk Us].
  destruct (walk_iref _ _ _ _ _ _ _ Wk Ak) as (Rf & En & Hlk). set (ip := itable s !!! i) in *.
  pose proof (it_count _ _ Tb i ip Hi Hp) as Hc. rewrite Hk in Hc.
  assert (Hlt : (i < NINODE)%nat) by (rewrite <- (it_len _ _ Tb); apply Rf).
  rewrite (idup_eq s (running_free _ _ _ (tx_running _ _ _ _ _ _ _ T))). fold ip. set (ip' := ip <| i_ref := s32 (i_ref ip + 1) |>).
  assert (Hr' : i_ref ip' = i_ref ip + 1) by (change (s32 (i_ref ip + 1) = i_ref ip + 1); apply s32_small; lia).
  eexists. split; [done|]. assert (Sy : stays s (with_entry s i ip')) by done. split; [|split; [done|]].
  - eapply (walk_insert s _ V l R _ h h i ip' Wk); try done; [by apply tx_itable| |intros _; destruct En; by split].
    rewrite <- Hk. apply itab_more; [done|done|done|fold ip; lia].
  - exists ip'. split; [apply list_lookup_insert_eq, Rf|]. split; [lia|done].
Qed.

(** Inode [j] is where [path] starts: the root, or the directory of the
    process that runs. *)
Definition starts (s : fs) (V : disk) (path : list Z) (j : Z) : Prop :=
  match path with
  | c :: _ => if c =? slash then j = ROOTINO /\ live (sb s) V ROOTINO
              else forall i p, cur (prj s) = Some i -> procs (prj s) !! i = Some p ->
                exists d, p_cwd p = Some d /\ at_key s d (ROOTDEV, j)
  | [] => forall i p, cur (prj s) = Some i -> procs (prj s) !! i = Some p ->
            exists d, p_cwd p = Some d /\ at_key s d (ROOTDEV, j)
  end.

Section namex.
Context (s : fs) (V : disk) (l : list Z) (R : gmultiset (Z * Z)).
Hypothesis Wk : walk s V l R None.
Hypothesis Hroom : (size (dom R) + 1 < NINODE)%nat.
Hypothesis Hsmall : forall key, Z.of_nat (multiplicity key R) + 3 < 2 ^ 31.

Lemma start_cwd j :
  (forall i p, cur (prj s) = Some i -> procs (prj s) !! i = Some p -> exists d, p_cwd p = Some d /\ at_key s d (ROOTDEV, j)) ->
  exists x s', (i <- lift myproc ;; p <- lift (get_proc i) ;;
      match p_cwd p with Some d => idup d | None => undefined "null cwd" end) s = Ok x s' /\
    walk s' V l (R ⊎ {[+ (ROOTDEV, j) +]}) None /\ stays s s' /\ at_key s' x (ROOTDEV, j).
Proof using All.
  intros H. destruct (tx_running _ _ _ _ _ _ _ (wk_tx _ _ _ _ _ Wk)) as (_ & _ & i & p & Hc & Hp & _).
  destruct (H i p Hc Hp) as (d & Hd & Ak). erewrite bind_ok by (by apply lift_read, myproc_ok).
  erewrite bind_ok by (by apply lift_read, get_proc_ok). rewrite Hd. exists d.
  pose proof (Hsmall (ROOTDEV, j)). apply walk_idup; [done|done|lia].
Qed.
Lemma start_ok path j :
  starts s V path j ->
  exists x s', (match path with
     | c :: _ => if c =? slash then iget ROOTDEV ROOTINO
                 else i <- lift myproc ;; p <- lift (get_proc i) ;;
                   match p_cwd p with Some d => idup d | None => undefined "null cwd" end
     | [] => i <- lift myproc ;; p <- lift (get_proc i) ;;
         match p_cwd p with Some d => idup d | None => undefined "null cwd" end
     end) s = Ok x s' /\
    walk s' V l (R ⊎ {[+ (ROOTDEV, j) +]}) None /\ stays s s' /\ at_key s' x (ROOTDEV, j).
Proof using All.
  unfold starts. destruct path as [|c p]; [apply start_cwd|]. destruct (c =? slash); [|apply start_cwd].
  intros [-> Hlv]. destruct (walk_iget s V l R None ROOTINO Wk Hlv) as (x & s' & E & Wk' & Sy & Ak & _).
  - pose proof (Hsmall (ROOTDEV, ROOTINO)). lia.
  - lia.
  - by exists x, s'.
Qed.

Lemma namex_ok path parent name j :
  starts s V path j -> tree (sb s) V -> path_ok path -> length name = DIRSIZ -> Forall is_byte name ->
  exists s' name', stays s s' /\
    match resolve (sb s) V parent j (names path) with
    | Some k => exists x, namex path parent name s = Ok (Some x, name') s' /\
        walk s' V l (R ⊎ {[+ (ROOTDEV, k) +]}) None /\ at_key s' x (ROOTDEV, k) /\
        (parent = true -> last (names path) = Some (fname (of_list name')))
    | None => namex path parent name s = Ok (None, name') s' /\ walk s' V l R None
    end.
Proof using All.
  intros St Tr Hp Hn Hb. destruct (start_ok path j St) as (x & s1 & E1 & Wk1 & Sy1 & Ak1).
  unfold namex. rewrite (bind_ok _ _ _ _ _ E1). pose proof (sy_sb _ _ Sy1) as Sb1.
  destruct (namex_loop_ok V l R Hroom Hsmall (S (length path)) path parent name s1 x j) as (s2 & name2 & Sy2 & HR);
    rewrite ?Sb1 in *; try done; [lia|].
  exists s2, name2. split; [by eapply stays_trans|done].
Qed.

(** C5: path names.  [namex] follows the directories on the disk: from the
    root, when the path starts with a slash, or from the working directory it
    returns the inode the elements of the path lead to, with one more
    reference in the table and every lock released, or null, with the table
    as it was, where an element is missing or is not in a directory.  For
    [nameiparent] it stops one element early and leaves the last element in
    [name]. *)
Theorem namex_resolves path parent name j :
  starts s V path j -> tree (sb s) V -> path_ok path -> length name = DIRSIZ -> Forall is_byte name ->
  exists s' name', stays s s' /\
    match resolve (sb s) V parent j (names path) with
    | Some k => exists x, namex path parent name s = Ok (Some x, name') s' /\
        walk s' V l (R ⊎ {[+ (ROOTDEV, k) +]}) None /\ at_key s' x (ROOTDEV, k) /\
        (parent = true -> last (names path) = Some (fname (of_list name')))
    | None => namex path parent name s = Ok (None, name') s' /\ walk s' V l R None
    end.
Proof using All. apply namex_ok. Qed.
End namex.
End walk.
