(* ===== verification/FsTrunc.v ===== *)
(** * Giving blocks back

    [itrunc] of [kernel/fs.c] frees every block of a file, and [iput] of the
    last reference to a file without links frees the inode too.  The free map
    loses exactly the blocks of the file; every other file keeps its own. *)

From stdpp Require Import base numbers strings decidable sets gmap functions list.
From S2P Require Import Prelude.
From S2P Require Import CString.
From S2P Require Import Riscv.
From S2P Require Import Sched.
From S2P Require Import Kalloc.
From S2P Require Import Vm.
From S2P Require Import Sleeplock.
From S2P Require Import Bio.
From S2P Require Import Log.
From S2P Require Import LogOps.
From S2P Require Import Fs.
From S2P Require Import Txn.
From S2P Require Import FsBlocks.
From S2P Require Import FsFile.
From S2P Require Import FsInode.
From S2P Require Import FsData.
From S2P Require Import FsWrite.
From S2P Require Import FsDisk.
From S2P Require Import FsOp.
From S2P Require Import ITable.
Open Scope Z_scope.
Open Scope xv6_scope.

(** ** Blocks freed *)

(** The blocks [bs] are free in [V'], and nothing outside the map changed. *)
Record freed (sb : superblock) (V : disk) (bs : list Z) (V' : disk) : Prop := {
  fr_used : forall c, 0 <= c < sb_size sb -> used sb V' c = if decide (c ∈ bs) then false else used sb V c;
  fr_other : forall c, c < sb_bmapstart sb \/ nmeta sb <= c -> V' c = V c;
}.

Lemma freed_nil sb V : freed sb V [] V.
Proof. split; [|done]. intros c _. by rewrite decide_False by set_solver. Qed.
Lemma freed_app sb V bs V1 cs V2 : freed sb V bs V1 -> freed sb V1 cs V2 -> freed sb V (bs ++ cs) V2.
Proof.
  intros [U1 O1] [U2 O2]. split.
  - intros c Hc. rewrite U2, U1 by done. rewrite (decide_ext (c ∈ bs ++ cs) (c ∈ bs \/ c ∈ cs)) by apply elem_of_app.
    repeat case_decide; tauto.
  - intros c Hc. by rewrite O2, O1.
Qed.
Lemma freed_data sb V bs V' c : freed sb V bs V' -> data sb V c -> 0 <= nmeta sb -> c ∉ bs -> data sb V' c /\ V' c = V c.
Proof.
  intros [U O] [Hr Hu] Hn Hc. split; [|apply O; lia]. split; [done|]. rewrite U by lia. by rewrite decide_False.
Qed.
Lemma freed_meta start sb V bs V' :
  layout start sb -> freed sb V bs V' -> (forall c, c ∈ bs -> nmeta sb <= c) -> meta_used sb V -> meta_used sb V'.
Proof.
  intros L [U O] Hb M c Hc. destruct L as [? ? ? ? ? ? ?]. rewrite U by lia.
  rewrite decide_False; [by apply M|]. intros Hin%Hb. lia.
Qed.

(** Only blocks of the free map were added to the log. *)
Definition map_logged (sb : superblock) (l0 l : list Z) : Prop :=
  forall c, c ∈ l -> c ∈ l0 \/ sb_bmapstart sb <= c < nmeta sb.
Lemma map_logged_len sb l0 l : NoDup l -> map_logged sb l0 l -> (length l <= length l0 + nbitmap sb)%nat.
Proof.
  intros Hn G. set (u := l0 ++ seqZ (sb_bmapstart sb) (nmeta sb - sb_bmapstart sb)).
  assert (Hu : length u = (length l0 + nbitmap sb)%nat) by (unfold u, nbitmap; by rewrite length_app, length_seqZ).
  rewrite <- Hu. apply submseteq_length, NoDup_submseteq; [done|]. intros c Hc. unfold u.
  rewrite elem_of_app, elem_of_seqZ. destruct (G c Hc); [by left|right; lia].
Qed.

Lemma add_nodup b l : NoDup (add b l) -> NoDup l.
Proof. unfold add. case_decide; [done|]. by intros (? & _ & _)%NoDup_app. Qed.
Lemma add_twice b l : add b (add b l) = add b l.
Proof. unfold add at 1. by rewrite decide_True by apply elem_of_add. Qed.

(** The addresses in use among [l]. *)
Definition nonzero (l : list Z) : list Z := filter (fun a => a <> 0) l.

Section free.
Context (start pid : Z).
Notation TX := (tx start pid).

(** One block freed, in a log that started as [l0]. *)
Lemma free_ok s V l l0 H b :
  TX s V l H [] -> in_op s -> layout start (sb s) -> data_held (sb s) V H -> data (sb s) V b -> b ∉ H.*2 ->
  map_logged (sb s) l0 l -> (length l0 + nbitmap (sb s) + length H < NBUF)%nat ->
  exists s' V' l', bfree ROOTDEV b s = Ok tt s' /\ fstep s s' /\ TX s' V' l' H [] /\
    freed (sb s) V [b] V' /\ map_logged (sb s) l0 l' /\ data_held (sb s) V' H.
Proof using.
  intros T O L Dh [Hb Hu] HbH Ml Hl. pose proof (nmeta_pos start _ L) as Hn.
  pose proof (map_logged_len _ _ _ (gl_nodup _ _ (tx_good _ _ _ _ _ _ _ T)) Ml) as Hll.
  pose proof (bfree_ok start pid s V l H b T O L Dh) as F. rewrite Hu in F.
  destruct F as (s' & E & Fs & T'); [lia|lia|]. exists s', (unmark (sb s) b V), (add (BBLOCK b (sb s)) l).
  assert (Fr : freed (sb s) V [b] (unmark (sb s) b V)).
  { split.
    - intros c Hc. rewrite (used_unmark start (sb s) L) by (done || lia || by eapply tx_len).
      rewrite (decide_ext (c ∈ [b]) (c = b)) by apply list_elem_of_singleton. done.
    - intros c Hc. unfold unmark. rewrite fn_insert_ne; [done|].
      pose proof (BBLOCK_range start (sb s) L b ltac:(lia)). lia. }
  split_and!; try done.
  - intros c [->|Hc]%elem_of_add_2; [right|by apply Ml]. apply (BBLOCK_range start (sb s) L). lia.
  - intros c Hc. destruct (Dh c Hc) as [Hr Hcu]. split; [done|]. rewrite (fr_used _ _ _ _ Fr) by lia.
    rewrite decide_False; [done|]. set_solver.
Qed.

(** The first loop of [itrunc]: the direct blocks. *)
Definition trunc_direct (i : nat) (k : Z) : M fs unit :=
  ip <- get_inode i ;;
  when (negb (addr_of ip k =? 0)) (bfree (i_dev ip) (addr_of ip k) ;; set_addr i k 0).

Lemma trunc_direct_ok s V l l0 i k :
  let ip := itable s !!! i in let a := i_addrs ip !!! k in
  TX s V l [] [] -> in_op s -> layout start (sb s) -> (i < length (itable s))%nat -> i_dev ip = ROOTDEV ->
  map_logged (sb s) l0 l -> (length l0 + nbitmap (sb s) < NBUF)%nat -> (a <> 0 -> data (sb s) V a) ->
  (k < length (i_addrs ip))%nat ->
  exists s' V' l', trunc_direct i (Z.of_nat k) s = Ok tt s' /\ TX s' V' l' [] [] /\
    bstep i (<[k := 0]> (i_addrs ip)) s s' /\ freed (sb s) V (nonzero [a]) V' /\ map_logged (sb s) l0 l'.
Proof using.
  intros ip a T O L Hi Hd Ml Hl Ha Hk. unfold trunc_direct. erewrite bind_ok by done. fold ip.
  unfold addr_of. rewrite Nat2Z.id. fold a. rewrite Hd. unfold nonzero. rewrite filter_cons, filter_nil.
  destruct (Z.eqb_spec a 0) as [Hz|Hz]; cbn [negb when].
  - rewrite decide_False by (by intros ?). exists s, V, l. split_and!; try done; [].
    replace (<[k := 0]> (i_addrs ip)) with (i_addrs ip); [by apply fstep_bstep|].
    symmetry. apply list_insert_id. rewrite list_lookup_lookup_total_lt by done. by f_equal.
  - rewrite decide_True by done.
    destruct (free_ok s V l l0 [] a T O L) as (s1 & V1 & l1 & E1 & F1 & T1 & Fr & Ml1 & _);
      [by intros b Hb%elem_of_nil|by apply Ha|apply not_elem_of_nil|done|simpl; lia|].
    erewrite bind_ok by exact E1.
    destruct (set_addr_ok start pid s1 i (Z.of_nat k) 0 (<[k := 0]> (i_addrs ip)) V1 l1 T1) as (s2 & E2 & T2 & B2);
      rewrite ?(fs_itable _ _ F1); try done; [by rewrite Nat2Z.id|].
    exists s2, V1, l1. split_and!; try done. by eapply fstep_then.
Qed.

Lemma trunc_direct_loop n s V l l0 i k :
  let ip := itable s !!! i in let bs := nonzero (take n (drop k (i_addrs ip))) in
  TX s V l [] [] -> in_op s -> layout start (sb s) -> (i < length (itable s))%nat -> i_dev ip = ROOTDEV ->
  map_logged (sb s) l0 l -> (length l0 + nbitmap (sb s) < NBUF)%nat -> NoDup bs -> Forall (data (sb s) V) bs ->
  (k + n <= length (i_addrs ip))%nat ->
  exists s' V' l', mapM_ (trunc_direct i) (seqZ (Z.of_nat k) (Z.of_nat n)) s = Ok tt s' /\ TX s' V' l' [] [] /\
    bstep i (list_inserts k (replicate n 0) (i_addrs ip)) s s' /\ freed (sb s) V bs V' /\ map_logged (sb s) l0 l'.
Proof using.
  revert s V l k. induction n as [|n IH]; intros s V l k ip bs T O L Hi Hd Ml Hl Hnd Hall Hk.
  { exists s, V, l. split_and!; try done. cbn. by apply fstep_bstep. }
  rewrite Nat2Z.inj_succ, seqZ_cons, Z.pred_succ, <- Nat2Z.inj_succ by lia. cbn [mapM_].
  assert (Ek : drop k (i_addrs ip) = (i_addrs ip !!! k) :: drop (S k) (i_addrs ip)).
  { apply drop_S, list_lookup_lookup_total_lt. lia. }
  assert (Eb : bs = nonzero [i_addrs ip !!! k] ++ nonzero (take n (drop (S k) (i_addrs ip)))).
  { unfold bs, nonzero. rewrite Ek, <- filter_app. done. }
  rewrite Eb in Hnd, Hall |- *. apply NoDup_app in Hnd as (_ & Hdis & Hnd). apply Forall_app in Hall as [Hd1 Hd2].
  destruct (trunc_direct_ok s V l l0 i k) as (s1 & V1 & l1 & E1 & T1 & B1 & F1 & Ml1); try done; [|fold ip; lia|].
  { intros Ha. rewrite Forall_forall in Hd1. apply Hd1. unfold nonzero. apply list_elem_of_filter. split; [done|set_solver]. }
  erewrite bind_ok by exact E1. destruct (bstep_inode _ _ _ _ B1 Hi) as [Ei Hi1]. fold ip in Ei.
  assert (Ea : i_addrs (itable s1 !!! i) = <[k := 0]> (i_addrs ip)) by (by rewrite Ei).
  assert (Edrop : drop (S k) (<[k := 0]> (i_addrs ip)) = drop (S k) (i_addrs ip)) by (apply drop_insert_lt; lia).
  destruct (IH s1 V1 l1 (S k)) as (s2 & V2 & l2 & E2 & T2 & B2 & F2 & Ml2);
    rewrite ?(bs_sb _ _ _ _ B1), ?Ea, ?Edrop in *; try done; eauto with txn.
  - by rewrite Ei.
  - apply Forall_forall. intros c Hc. rewrite Forall_forall in Hd2. pose proof (nmeta_pos start _ L).
    eapply (freed_data _ V); [exact F1|by apply Hd2|lia|]. intros Hc'. by apply (Hdis c).
  - rewrite length_insert. lia.
  - exists s2, V2, l2. split_and!; try done; [|by eapply freed_app].
    eapply bstep_trans; [exact B1| |done]. cbn [replicate list_inserts]. by rewrite list_insert_inserts_lt by lia.
Qed.

(** The second loop: the entries of the indirect block, whose buffer is held. *)
Definition trunc_entry (dev : Z) (bp j : nat) : M fs unit :=
  d <- buf_data bp ;;
  let a := get_le 4 (4 * j) d in
  when (negb (a =? 0)) (bfree dev a).
Definition entries (d : list Z) (js : list nat) : list Z := (fun j : nat => get_le 4 (4 * j) d) <$> js.

Lemma trunc_entry_loop js s V l l0 bp b :
  let bs := nonzero (entries (V b) js) in
  TX s V l [(bp, b)] [] -> in_op s -> layout start (sb s) -> data (sb s) V b -> b ∉ bs ->
  map_logged (sb s) l0 l -> (length l0 + nbitmap (sb s) + 1 < NBUF)%nat -> NoDup bs -> Forall (data (sb s) V) bs ->
  exists s' V' l', mapM_ (trunc_entry ROOTDEV bp) js s = Ok tt s' /\ TX s' V' l' [(bp, b)] [] /\
    fstep s s' /\ freed (sb s) V bs V' /\ map_logged (sb s) l0 l'.
Proof using.
  revert s V l. induction js as [|j js IH]; intros s V l bs T O L Hb Hbn Ml Hl Hnd Hall.
  { exists s, V, l. split_and!; done. }
  cbn [mapM_]. unfold trunc_entry at 1.
  set (a := get_le 4 (4 * j) (V b)). assert (Eb : bs = nonzero [a] ++ nonzero (entries (V b) js)).
  { unfold bs, nonzero. by rewrite <- filter_app. }
  rewrite Eb in Hnd, Hall, Hbn |- *. apply NoDup_app in Hnd as (_ & Hdis & Hnd). apply Forall_app in Hall as [Hd1 Hd2].
  apply not_elem_of_app in Hbn as [Hb1 Hb2]. pose proof (nmeta_pos start _ L) as Hn.
  assert (Step : exists s' V' l', (d <- buf_data bp ;; when (negb (get_le 4 (4 * j) d =? 0)) (bfree ROOTDEV (get_le 4 (4 * j) d))) s = Ok tt s' /\
    TX s' V' l' [(bp, b)] [] /\ fstep s s' /\ freed (sb s) V (nonzero [a]) V' /\ map_logged (sb s) l0 l').
  { erewrite bind_ok by (eapply tx_data; [exact T|apply list_elem_of_here]). fold a. unfold nonzero in *.
    rewrite filter_cons, filter_nil in *. destruct (Z.eqb_spec a 0) as [Hz|Hz]; cbn [negb when].
    - rewrite decide_False by (by intros ?). exists s, V, l. split_and!; done.
    - rewrite decide_True in * by done. rewrite Forall_singleton in Hd1.
      destruct (free_ok s V l l0 [(bp, b)] a T O L) as (s1 & V1 & l1 & E1 & F1 & T1 & Fr & Ml1 & _); try done.
      + intros c Hc. cbn in Hc. apply list_elem_of_singleton in Hc as ->. exact Hb.
      + cbn. set_solver.
      + by exists s1, V1, l1. }
  destruct Step as (s1 & V1 & l1 & E1 & T1 & F1 & Fr1 & Ml1). erewrite bind_ok by exact E1.
  destruct (freed_data _ _ _ _ b Fr1 Hb ltac:(lia) Hb1) as [Hb' Vb'].
  destruct (IH s1 V1 l1) as (s2 & V2 & l2 & E2 & T2 & F2 & Fr2 & Ml2);
    rewrite ?(fs_sb _ _ F1), ?Vb'; try done; eauto with txn.
  - apply Forall_forall. intros c Hc. rewrite Forall_forall in Hd2.
    eapply (freed_data _ V); [exact Fr1|by apply Hd2|lia|]. intros Hc'. by apply (Hdis c).
  - rewrite (fs_sb _ _ F1), Vb' in *. exists s2, V2, l2. split_and!; try done; [by eapply fstep_trans|by eapply freed_app].
Qed.

(** ** [itrunc] *)

(** The blocks of a file, in the order [itrunc] frees them. *)
Definition file_blocks (V : disk) (addrs : list Z) : list Z :=
  nonzero (take (Z.to_nat NDIRECT) addrs) ++
  if decide (ind_of addrs = 0) then []
  else nonzero (entries (V (ind_of addrs)) (seq 0 (Z.to_nat NINDIRECT))) ++ [ind_of addrs].

Lemma elem_of_nonzero a l : a ∈ nonzero l <-> a <> 0 /\ a ∈ l.
Proof using. unfold nonzero. by rewrite list_elem_of_filter. Qed.
Lemma nonzero_nodup {A} (f : A -> Z) l :
  NoDup l -> (forall x y, x ∈ l -> y ∈ l -> f x <> 0 -> f x = f y -> x = y) -> NoDup (nonzero (f <$> l)).
Proof using.
  induction 1 as [|x l Hx Hnd IH]; intros Hf; [apply NoDup_nil_2|]. cbn [fmap list_fmap]. unfold nonzero. rewrite filter_cons.
  case_decide as Hz; [|by apply IH; set_solver]. apply NoDup_cons. split; [|by apply IH; set_solver].
  rewrite list_elem_of_filter. intros [_ (y & E & Hy)%list_elem_of_fmap].
  assert (x = y) as -> by (apply Hf; set_solver). done.
Qed.

Section blocks.
Context (sb : superblock) (V : disk) (addrs : list Z).
Hypothesis Ok : inode_ok sb V addrs.

Lemma direct_blocks : take (Z.to_nat NDIRECT) addrs = blk_of V addrs <$> seqZ 0 NDIRECT.
Proof using Ok.
  pose proof (io_len _ _ _ Ok) as Hl. rewrite naddrs_val in Hl.
  apply list_eq_same_length with (n := 12%nat); [by rewrite length_fmap, length_seqZ|by rewrite length_take, Hl|].
  intros i x y Hi Hx Hy. rewrite list_lookup_fmap_Some in Hy. destruct Hy as (z & -> & [-> Hz]%lookup_seqZ).
  rewrite lookup_take_lt in Hx by (unfold NDIRECT; lia). rewrite blk_direct by (unfold NDIRECT in *; lia).
  rewrite Z.add_0_l, Nat2Z.id. symmetry. by apply list_lookup_total_correct.
Qed.
Lemma indirect_blocks :
  ind_of addrs <> 0 ->
  entries (V (ind_of addrs)) (seq 0 (Z.to_nat NINDIRECT)) = blk_of V addrs <$> seqZ NDIRECT NINDIRECT.
Proof using.
  intros Hz. unfold entries, seqZ. rewrite <- list_fmap_compose. apply list_fmap_ext. intros j x _.
  cbn [compose]. rewrite blk_indirect by (done || (unfold NDIRECT; lia)). f_equal. unfold ind_off, NDIRECT. lia.
Qed.
Lemma elem_of_blocks lo n a :
  a ∈ nonzero (blk_of V addrs <$> seqZ lo n) <-> a <> 0 /\ exists bn, lo <= bn < lo + n /\ a = blk_of V addrs bn.
Proof using.
  rewrite elem_of_nonzero, list_elem_of_fmap. split; intros [Hz (bn & H1 & H2)]; (split; [done|]); exists bn;
    rewrite elem_of_seqZ in *; auto.
Qed.
Lemma blocks_data lo n :
  0 <= lo -> lo + n <= MAXFILE -> Forall (data sb V) (nonzero (blk_of V addrs <$> seqZ lo n)).
Proof using Ok.
  intros Hlo Hn. apply Forall_forall. intros c (Hz & bn & Hbn & ->)%elem_of_blocks. by apply (io_blk _ _ _ Ok); [lia|].
Qed.
Lemma blocks_nodup lo n : 0 <= lo -> lo + n <= MAXFILE -> NoDup (nonzero (blk_of V addrs <$> seqZ lo n)).
Proof using Ok.
  intros Hlo Hn. apply nonzero_nodup; [apply NoDup_seqZ|]. intros x y Hx%elem_of_seqZ Hy%elem_of_seqZ Hz E.
  by apply (io_inj _ _ _ Ok); [lia|lia|..].
Qed.
Lemma blocks_apart lo n : 0 <= lo -> lo + n <= MAXFILE -> ind_of addrs ∉ nonzero (blk_of V addrs <$> seqZ lo n).
Proof using Ok. intros Hlo Hn (Hz & bn & Hbn & E)%elem_of_blocks. rewrite E in Hz. apply (io_blk _ _ _ Ok bn) in Hz as [_ Hz]; [|lia]. by apply Hz. Qed.

(** They are the blocks the file owns. *)
Lemma elem_of_file_blocks c : c ∈ file_blocks V addrs <-> owns V addrs c.
Proof using Ok.
  unfold file_blocks, owns. rewrite elem_of_app, direct_blocks, elem_of_blocks. rewrite MAXFILE_val. unfold NDIRECT at 1.
  destruct (decide (ind_of addrs = 0)) as [Hi|Hi].
  - split.
    + intros [(Hz & bn & Hbn & ->)|H]; [|by apply elem_of_nil in H]. split; [done|]. right. exists bn. split; [lia|done].
    + intros [Hz [->|(bn & Hbn & ->)]]; [done|left]. split; [done|]. exists bn. split; [|done].
      destruct (decide (NDIRECT <= bn)) as [H|H]; [by rewrite blk_no_indirect in Hz|]. unfold NDIRECT in H. lia.
  - rewrite elem_of_app, indirect_blocks, elem_of_blocks, list_elem_of_singleton by done.
    change NINDIRECT with 256. unfold NDIRECT. split.
    + intros [(Hz & bn & Hbn & ->)|[(Hz & bn & Hbn & ->)| ->]];
        [split; [done|right; exists bn; split; [lia|done]]..|split; [done|by left]].
    + intros [Hz [->|(bn & Hbn & ->)]]; [by right; right|]. destruct (decide (12 <= bn)) as [H|H].
      * right. left. split; [done|]. exists bn. split; [lia|done].
      * left. split; [done|]. exists bn. split; [lia|done].
Qed.
(** The indirect block and its entries once the direct blocks are free. *)
Lemma indirect_after V1 :
  0 <= nmeta sb -> freed sb V (nonzero (take (Z.to_nat NDIRECT) addrs)) V1 -> ind_of addrs <> 0 ->
  let es := nonzero (entries (V1 (ind_of addrs)) (seq 0 (Z.to_nat NINDIRECT))) in
  V1 (ind_of addrs) = V (ind_of addrs) /\
  data sb V1 (ind_of addrs) /\ ind_of addrs ∉ es /\ NoDup es /\ Forall (data sb V1) es.
Proof using Ok.
  intros Hn F Hz. assert (Hb : NDIRECT + NINDIRECT <= MAXFILE) by done. rewrite direct_blocks in F.
  destruct (freed_data _ _ _ _ _ F (io_ind _ _ _ Ok Hz) Hn) as [Hd E]; [by apply blocks_apart|].
  rewrite E, (indirect_blocks Hz). split; [done|]. split; [done|]. split; [by apply blocks_apart|]. split; [by apply blocks_nodup|].
  pose proof (blocks_data NDIRECT NINDIRECT ltac:(done) Hb) as Hall. rewrite Forall_forall in Hall |- *. intros c Hc.
  eapply freed_data; [exact F|by apply Hall|done|]. intros (_ & bm & Hbm & Eq)%elem_of_blocks.
  apply elem_of_blocks in Hc as (Hc & bn & Hbn & ->). unfold NDIRECT in *. change NINDIRECT with 256 in Hbn.
  assert (bn = bm) by (apply (io_inj _ _ _ Ok); rewrite ?MAXFILE_val; [lia|lia|done|done]). lia.
Qed.
End blocks.

Definition trunc_indirect (i : nat) : M fs unit :=
  ip <- get_inode i ;;
  when (negb (addr_of ip NDIRECT =? 0))
    (bp <- lift (bread (i_dev ip) (addr_of ip NDIRECT)) ;;
     mapM_ (trunc_entry (i_dev ip) bp) (seq 0 (Z.to_nat NINDIRECT)) ;;
     lift (brelse bp) ;;
     bfree (i_dev ip) (addr_of ip NDIRECT) ;;
     set_addr i NDIRECT 0).
Lemma trunc_indirect_ok s V l l0 i :
  let ip := itable s !!! i in let b := ind_of (i_addrs ip) in
  let es := nonzero (entries (V b) (seq 0 (Z.to_nat NINDIRECT))) in
  TX s V l [] [] -> in_op s -> layout start (sb s) -> (i < length (itable s))%nat -> i_dev ip = ROOTDEV ->
  map_logged (sb s) l0 l -> (length l0 + nbitmap (sb s) + 1 < NBUF)%nat -> length (i_addrs ip) = naddrs ->
  (b <> 0 -> data (sb s) V b /\ b ∉ es /\ NoDup es /\ Forall (data (sb s) V) es) ->
  exists s' V' l', trunc_indirect i s = Ok tt s' /\ TX s' V' l' [] [] /\
    bstep i (<[Z.to_nat NDIRECT := 0]> (i_addrs ip)) s s' /\
    freed (sb s) V (if decide (b = 0) then [] else es ++ [b]) V' /\ map_logged (sb s) l0 l'.
Proof using.
  intros ip b es T O L Hi Hd Ml Hl Hn Hb. unfold trunc_indirect. erewrite bind_ok by done. fold ip.
  change (addr_of ip NDIRECT) with b. rewrite Hd. destruct (Z.eqb_spec b 0) as [Hz|Hz]; cbn [negb when].
  { rewrite decide_True by done. exists s, V, l. split_and!; try done. rewrite list_insert_id; [by apply fstep_bstep|].
    rewrite list_lookup_lookup_total_lt by (rewrite Hn; by apply Nat.ltb_lt). by f_equal. }
  rewrite decide_False by done. destruct (Hb Hz) as (Hdb & Hnb & Hnd & Hall). pose proof (nmeta_pos start _ L) as Hnm.
  pose proof (map_logged_len _ _ _ (gl_nodup _ _ (tx_good _ _ _ _ _ _ _ T)) Ml) as Hll.
  destruct (tx_bread start pid s V l [] [] b T) as (bp & s1 & E1 & T1 & F1); [apply not_elem_of_nil|right; simpl; lia|].
  erewrite bind_ok by exact E1.
  destruct (trunc_entry_loop (seq 0 (Z.to_nat NINDIRECT)) s1 V l l0 bp b T1) as (s2 & V2 & l2 & E2 & T2 & F2 & Fr2 & Ml2);
    rewrite ?(fs_sb _ _ F1); try done; eauto with txn.
  erewrite bind_ok by exact E2. rewrite (fs_sb _ _ F1) in Fr2, Ml2.
  destruct (tx_brelse start pid s2 _ _ _ _ _ _ T2) as (s3 & E3 & T3 & F3); [apply not_elem_of_nil|].
  erewrite bind_ok by exact E3. assert (F : fstep s s3) by (eapply fstep_trans; [exact F1|]; by eapply fstep_trans).
  destruct (free_ok s3 V2 l2 l0 [] b T3) as (s4 & V4 & l4 & E4 & F4 & T4 & Fr4 & Ml4 & _);
    rewrite ?(fs_sb _ _ F); try done; eauto with txn; [by intros c Hc%elem_of_nil|by eapply freed_data; [..|lia|]|apply not_elem_of_nil|simpl; lia|].
  erewrite bind_ok by exact E4. rewrite (fs_sb _ _ F) in *. pose proof (fstep_trans _ _ _ F F4) as F'.
  destruct (set_addr_ok start pid s4 i NDIRECT 0 (<[Z.to_nat NDIRECT := 0]> (i_addrs ip)) V4 l4 T4) as (s5 & E5 & T5 & B5);
    rewrite ?(fs_itable _ _ F'); try done.
  exists s5, V4, l4. split_and!; try done; [by eapply fstep_then|by eapply freed_app].
Qed.

Definition truncated (ip : inode) : inode := ip <| i_addrs := replicate naddrs 0 |> <| i_size := 0 |>.

Lemma zero_addrs addrs :
  length addrs = naddrs -> <[Z.to_nat NDIRECT := 0]> (list_inserts 0 (replicate 12 0) addrs) = replicate naddrs 0.
Proof using. rewrite naddrs_val. intros H. do 14 (destruct addrs as [|? addrs]; try discriminate H). reflexivity. Qed.
Lemma ind_after_direct addrs : length addrs = naddrs -> ind_of (list_inserts 0 (replicate 12 0) addrs) = ind_of addrs.
Proof using. rewrite naddrs_val. intros H. do 14 (destruct addrs as [|? addrs]; try discriminate H). reflexivity. Qed.

Lemma bstep_ichange i a s s' : bstep i a s s' -> ichange i ((itable s !!! i) <| i_addrs := a |>) s s'.
Proof using. intros []. by split. Qed.

Lemma itrunc_ok s V l i :
  let ip := itable s !!! i in
  open_inode start pid s V l i -> in_op s -> 0 <= i_inum ip < sb_ninodes (sb s) ->
  (length l + nbitmap (sb s) + 1 < NBUF)%nat ->
  exists s' V' l', itrunc i s = Ok tt s' /\ ichange i (truncated ip) s s' /\
    TX s' (put_dinode_at (sb s) (i_inum ip) (to_dinode (truncated ip)) V') (add (IBLOCK (i_inum ip) (sb s)) l') [] [] /\
    freed (sb s) V (file_blocks V (i_addrs ip)) V' /\ map_logged (sb s) l l'.
Proof using.
  intros ip [T L M Hi Hd Ok] O Hin Hl. fold ip in Hd, Ok. pose proof (io_len _ _ _ Ok) as Hn.
  pose proof (direct_blocks _ _ _ Ok) as Ed. unfold itrunc.
  assert (Hb : 0 + NDIRECT <= MAXFILE) by done. assert (Hb' : NDIRECT + NINDIRECT <= MAXFILE) by done.
  destruct (trunc_direct_loop 12 s V l l i 0) as (s1 & V1 & l1 & E1 & T1 & B1 & F1 & M1); fold ip; try done.
  { by intros c Hc; left. }
  { lia. }
  { rewrite drop_0. change 12%nat with (Z.to_nat NDIRECT). rewrite Ed. by apply (blocks_nodup (sb s)). }
  { rewrite drop_0. change 12%nat with (Z.to_nat NDIRECT). rewrite Ed. by apply blocks_data. }
  { rewrite Hn. by apply Nat.leb_le. }
  fold ip in B1, F1. rewrite drop_0 in F1. set (a1 := list_inserts 0 (replicate 12 0) (i_addrs ip)) in *.
  erewrite bind_ok by exact E1. destruct (bstep_inode _ _ _ _ B1 Hi) as [Ei1 Hi1]. fold ip in Ei1.
  assert (Ea1 : i_addrs (itable s1 !!! i) = a1) by (by rewrite Ei1).
  assert (Eind : ind_of a1 = ind_of (i_addrs ip)) by (by apply ind_after_direct).
  pose proof (nmeta_pos start _ L) as Hnm.
  pose proof (indirect_after _ _ _ Ok V1 ltac:(lia) F1) as Hind. cbv zeta in Hind.
  erewrite bind_ok by done.
  destruct (trunc_indirect_ok s1 V1 l1 l i) as (s2 & V2 & l2 & E2 & T2 & B2 & F2 & M2);
    rewrite ?(bs_sb _ _ _ _ B1), ?Ea1, ?Eind; try done; eauto with txn.
  { by rewrite Ei1. }
  { unfold a1. by rewrite length_inserts. }
  { intros Hz. by apply Hind. }
  rewrite (bs_sb _ _ _ _ B1), Ea1, ?Eind in *.
  erewrite bind_ok by exact E2. erewrite bind_ok by done. set (s3 := s2 <| itable := _ |>).
  pose proof (bstep_ichange _ _ _ _ (bstep_trans _ _ _ _ _ _ B1 B2 Hi)) as C2. fold ip in C2.
  unfold a1 in C2. rewrite zero_addrs in C2 by done. destruct (ichange_at _ _ _ _ C2 Hi) as [Ei2 Li2].
  assert (C3 : ichange i (truncated ip) s s3).
  { eapply ichange_trans; [exact C2|]. unfold s3. rewrite Ei2. apply ichange_upd. }
  destruct (ichange_at _ _ _ _ C3 Hi) as [Ei3 Li3]. pose proof (ic_sb _ _ _ _ C3) as Sb3.
  pose proof (map_logged_len _ _ _ (gl_nodup _ _ (tx_good _ _ _ _ _ _ _ T2)) M2) as Hll.
  destruct (iupdate_ok start pid s3 V2 l2 i) as (s4 & E4 & T4 & F4); rewrite ?Sb3, ?Ei3 in *; try done.
  { by apply tx_itable. }
  { unfold in_op. by rewrite (ic_out _ _ _ _ C3). }
  { lia. }
  exists s4, V2, l2. split; [exact E4|]. split; [by eapply ichange_fstep|]. split; [exact T4|]. split; [|done].
  unfold file_blocks. eapply freed_app; [exact F1|]. destruct (decide (ind_of (i_addrs ip) = 0)) as [Hz|Hz]; [done|].
  by destruct (Hind Hz) as [<- _].
Qed.
End free.

(** ** The disk without the file *)

Lemma zero_blk V bn : 0 <= bn < MAXFILE -> blk_of V (replicate naddrs 0) bn = 0.
Proof.
  intros Hbn. destruct (decide (NDIRECT <= bn)) as [H|H]; [by apply blk_no_indirect|].
  rewrite blk_direct by lia. apply lookup_total_replicate_2. rewrite naddrs_val. unfold NDIRECT in H. lia.
Qed.
Lemma zero_inode_ok sb V : inode_ok sb V (replicate naddrs 0).
Proof.
  split; [apply length_replicate|done|..]; intros bn; [intros Hbn|intros bm Hbn _]; by rewrite zero_blk.
Qed.

(** The blocks of inode [j] given back and its inode emptied. *)
Record emptied (sb : superblock) (V V' : disk) (j : Z) : Prop := {
  em_inodes : forall k, 0 <= k < sb_ninodes sb -> k <> j -> dinode_at sb V' k = dinode_at sb V k;
  em_addrs : daddrs sb V' j = replicate naddrs 0;
  em_size : dsize sb V' j = 0;
  em_blocks : exists V1, freed sb V (file_blocks V (daddrs sb V j)) V1 /\ agree sb V1 V';
}.

(** Inode [j] on a disk [V1] whose map has given the blocks back. *)
Lemma emptied_put start sb V V1 V2 j di :
  layout start sb -> 0 <= j < sb_ninodes sb -> (forall b, length (V2 b) = bsize) ->
  freed sb V (file_blocks V (daddrs sb V j)) V1 -> agree sb V1 V2 ->
  (forall k, 0 <= k < sb_ninodes sb -> k <> j -> dinode_at sb V2 k = dinode_at sb V1 k) ->
  dinode_fits di -> di_addrs di = replicate naddrs 0 -> di_size di = 0 ->
  emptied sb V (put_dinode_at sb j di V2) j /\ dinode_at sb (put_dinode_at sb j di V2) j = di.
Proof.
  intros L Hj Hl Fr Ag Hk Hdi Ha Hs. pose proof (dinode_at_put start sb L V2 j di Hl Hj Hdi) as Hp.
  assert (Ej : dinode_at sb (put_dinode_at sb j di V2) j = di) by (rewrite Hp by done; by rewrite decide_True).
  split; [|done]. split; rewrite ?Ej; try done.
  - intros k Hkr Hne. rewrite Hp, decide_False, Hk by done. unfold dinode_at. rewrite (fr_other _ _ _ _ Fr); [done|left].
    by apply (IBLOCK_range start).
  - exists V1. split; [done|]. intros b Hb. rewrite (put_dinode_at_high start sb L) by done. by apply Ag.
Qed.
(** The blocks keep their size. *)
Lemma freed_len sb V bs V1 start j di :
  layout start sb -> 0 <= j < sb_ninodes sb -> freed sb V bs V1 -> (forall b, length (V b) = bsize) ->
  (forall b, length (put_dinode_at sb j di V1 b) = bsize) -> forall b, length (V1 b) = bsize.
Proof.
  intros L Hj Fr Hl Hp b. destruct (decide (b = IBLOCK j sb)) as [->|Hne].
  - rewrite (fr_other _ _ _ _ Fr); [done|left]. by apply (IBLOCK_range start).
  - rewrite <- (Hp b). by rewrite put_dinode_at_other.
Qed.

Section emptied.
Context (start : Z) (sb : superblock) (V V' : disk) (j : Z).
Hypothesis L : layout start sb.
Hypothesis W : fs_wf sb V.
Hypothesis Hj : live sb V j.
Hypothesis E : emptied sb V V' j.

(** The free map loses the blocks of the file and no other. *)
Lemma emptied_used c :
  0 <= c < sb_size sb -> used sb V' c = true <-> used sb V c = true /\ ~ owns V (daddrs sb V j) c.
Proof using All.
  intros Hc. destruct E as [_ _ _ (V1 & Fr & Ag)]. rewrite (agree_used start sb V1 V' L Ag) by done.
  rewrite (fr_used _ _ _ _ Fr) by done. pose proof (elem_of_file_blocks sb V _ (dl_ok _ _ _ (fw_file _ _ W j Hj)) c).
  case_decide; intuition congruence.
Qed.
Lemma emptied_one_file : one_file sb V V' j.
Proof using All.
  pose proof (dl_ok _ _ _ (fw_file _ _ W j Hj)) as Ok. pose proof (nmeta_pos start sb L) as Hn.
  destruct E as [Hin Ha Hs (V1 & Fr & Ag)]. split; [done|]. intros c Hf.
  pose proof (foreign_not_owns _ _ _ _ Hf) as Hno. destruct Hf as (Hd & _ & _).
  assert (Hd' : data sb V' c /\ V' c = V1 c).
  { apply (agree_data start sb V1 V' L Ag). eapply freed_data; [exact Fr|done|lia|]. by rewrite (elem_of_file_blocks sb). }
  destruct Hd' as [Hd' ->]. destruct Hd as [Hr _]. split; [|apply (fr_other _ _ _ _ Fr); lia].
  rewrite Ha. split; [done|]. split; [change (ind_of (replicate naddrs 0)) with 0; lia|].
  intros bn Hbn. rewrite zero_blk by done. lia.
Qed.
Lemma emptied_wf :
  fs_wf sb V' /\ forall k, live sb V k -> k <> j -> live sb V' k /\ dcontents sb V' k = dcontents sb V k.
Proof using All.
  pose proof (dl_ok _ _ _ (fw_file _ _ W j Hj)) as Ok. pose proof emptied_used as Hu. pose proof emptied_one_file as One.
  destruct E as [_ Ha Hs _]. apply (one_file_wf start); try done.
  - intros c Hc. apply Hu; [destruct L; lia|]. split; [by apply W|]. intros Ho.
    destruct (owns_data _ _ _ _ Ok Ho) as [Hr _]. lia.
  - split; rewrite ?Ha, ?Hs; [apply zero_inode_ok|done|]. intros o Ho. lia.
Qed.
Lemma emptied_owns k c :
  live sb V k -> k <> j -> owns V' (daddrs sb V' k) c <-> owns V (daddrs sb V k) c.
Proof using All.
  intros Hk Hne. pose proof emptied_one_file as One. rewrite (em_inodes _ _ _ _ E k) by (done || apply Hk).
  apply (kept_owns sb); [by apply (fw_file _ _ W)|]. intros b Hb.
  destruct (one_file_kept start sb V V' j k b L W Hj One Hk Hne Hb) as [[Hd _] Hv]. done.
Qed.
Lemma emptied_contents : dcontents sb V' j = [].
Proof using E. unfold dcontents. by rewrite (em_size _ _ _ _ E). Qed.
End emptied.

(** ** [iput] of the last reference *)

(** What [iput] does under the lock of the inode. *)
Definition iput_last (i : nat) : M fs unit :=
  acquiresleep (inode_lock i) ;;
  lift (release LkItable) ;;
  itrunc i ;;
  upd_inode i (fun ip => ip <| i_type := 0 |>) ;;
  iupdate i ;;
  upd_inode i (fun ip => ip <| i_valid := 0 |>) ;;
  releasesleep (inode_lock i) ;;
  lift (acquire LkItable).

Section last.
Context (start pid : Z).
Notation TX := (tx start pid).

Definition dead_entry (ip : inode) : inode :=
  truncated ip <| i_type := 0 |> <| i_valid := 0 |> <| i_lock := mksleeplock 0 0 |>.

Lemma lock_last {A} s i (k : M fs A) :
  running (prj s) pid -> (i < length (itable s))%nat -> sl_locked (i_lock (itable s !!! i)) = 0 ->
  (acquiresleep (inode_lock i) ;; lift (release LkItable) ;; k) (table_locked s) = k (with_ilock s i (mksleeplock 1 pid)).
Proof using.
  intros Hr Hi Hf. pose proof Hr as (Hh & Hl & j & p & Hc & Hp & Hpid).
  erewrite bind_ok.
  2: { apply (acquiresleep_entry (table_locked s) i j p); [|exact Hc|exact Hp|exact Hi|exact Hf].
       change (LkInodeSleep i ∉ LkItable :: held (prj s)). rewrite Hh. by intros ?%list_elem_of_singleton. }
  rewrite Hpid. by erewrite bind_ok by exact (release_entry s (running_free _ _ _ Hr) i _).
Qed.

Lemma truncated_fits sb V j ip t :
  to_dinode ip = dinode_at sb V j -> short t -> dinode_fits (to_dinode (truncated ip <| i_type := t |>)).
Proof using.
  intros E Ht. assert (Hma : i_major ip = di_major (to_dinode ip)) by done. assert (Hmi : i_minor ip = di_minor (to_dinode ip)) by done.
  assert (Hnl : i_nlink ip = di_nlink (to_dinode ip)) by done. rewrite E in Hma, Hmi, Hnl.
  split; setf_cbn; rewrite ?Hma, ?Hmi, ?Hnl; try apply get_short_range; try done.
  by repeat constructor.
Qed.

Lemma dead_disk sb V V2 j ip :
  layout start sb -> 0 <= j < sb_ninodes sb -> to_dinode ip = dinode_at sb V j ->
  freed sb V (file_blocks V (i_addrs ip)) V2 -> (forall b, length (V b) = bsize) ->
  (forall b, length (put_dinode_at sb j (to_dinode (truncated ip)) V2 b) = bsize) ->
  let V' := put_dinode_at sb j (to_dinode (truncated ip <| i_type := 0 |>)) (put_dinode_at sb j (to_dinode (truncated ip)) V2) in
  emptied sb V V' j /\ di_type (dinode_at sb V' j) = 0.
Proof using.
  intros L Hj Co Fr Vl Pl V'. assert (V2l : forall b, length (V2 b) = bsize) by (by eapply freed_len).
  assert (Ea : i_addrs ip = daddrs sb V j) by (by rewrite <- Co). rewrite Ea in Fr.
  assert (Hf1 : dinode_fits (to_dinode (truncated ip))).
  { apply (truncated_fits sb V j ip (i_type ip) Co). change (i_type ip) with (di_type (to_dinode ip)). rewrite Co. apply get_short_range. }
  destruct (emptied_put start sb V V2 (put_dinode_at sb j (to_dinode (truncated ip)) V2) j
    (to_dinode (truncated ip <| i_type := 0 |>)) L Hj Pl Fr) as [E E'].
  - intros b Hb. by rewrite (put_dinode_at_high start sb L).
  - intros k Hk Hne. rewrite (dinode_at_put start sb L) by done. by rewrite decide_False.
  - by apply (truncated_fits sb V j ip 0 Co).
  - reflexivity.
  - reflexivity.
  - split; [exact E|]. unfold V'. by rewrite E'.
Qed.

Lemma release_last s V l i :
  let ip := itable s !!! i in
  TX s V l [] [] -> (i < length (itable s))%nat ->
  exists s', (releasesleep (inode_lock i) ;; lift (acquire LkItable)) s = Ok tt (table_locked s') /\ TX s' V l [] [] /\
    ichange i (ip <| i_lock := mksleeplock 0 0 |>) s s'.
Proof using.
  intros ip T Hi. pose proof (tx_running _ _ _ _ _ _ _ T) as Hr.
  erewrite bind_ok by (eapply releasesleep_inode; [exact Hr|exact Hi]). set (s' := inj (wake _ _) _).
  assert (T' : TX s' V l [] []).
  { apply tx_mm; [by apply tx_itable|]. by apply (woke_running (prj s)); [apply woke_wake|]. }
  exists s'. split; [|split; [done|split; try done; split; [apply woke_wake|done]]].
  destruct (tx_running _ _ _ _ _ _ _ T') as (Hh & _). unfold table_locked. erewrite lift_ok; [done|].
  rewrite acquire_ok; rewrite Hh; [done|apply not_elem_of_nil].
Qed.

(** The table while the last reference is dropped, and the disk after it. *)
Lemma iput_last_ok s V l i :
  let ip := itable s !!! i in let j := i_inum ip in
  TX s V l [] [] -> in_op s -> layout start (sb s) -> fs_wf (sb s) V -> iref s i ->
  to_dinode ip = dinode_at (sb s) V j -> sl_locked (i_lock ip) = 0 -> live (sb s) V j ->
  (length l + nbitmap (sb s) + 1 < NBUF)%nat ->
  exists s' V' l', iput_last i (table_locked s) = Ok tt (table_locked s') /\ TX s' V' l' [] [] /\
    ichange i (dead_entry ip) s s' /\ emptied (sb s) V V' j /\ di_type (dinode_at (sb s) V' j) = 0 /\
    (length l' <= length l + nbitmap (sb s) + 1)%nat.
Proof using.
  intros ip j T O L W [Hi Hdev Hin Href] Co Hf Lv Hl. unfold iput_last. fold ip in Hdev, Hin, Href.
  rewrite lock_last by (done || by eapply tx_running).
  set (s1 := with_ilock s i (mksleeplock 1 pid)). set (ip1 := ip <| i_lock := mksleeplock 1 pid |>).
  assert (C1 : ichange i ip1 s s1) by apply ichange_upd. destruct (ichange_at _ _ _ _ C1 Hi) as [Ei1 Li1].
  pose proof (dl_ok _ _ _ (fw_file _ _ W j Lv)) as Ok. assert (Ea : daddrs (sb s) V j = i_addrs ip) by (by rewrite <- Co).
  destruct (itrunc_ok start pid s1 V l i) as (s2 & V2 & l2 & E2 & C2 & T2 & Fr & Ml); rewrite ?Ei1; try done.
  { split; rewrite ?Ei1, ?Li1; try done; [by apply tx_itable|apply W|]. rewrite Ea in Ok. exact Ok. }
  rewrite Ei1 in C2, T2, Fr. change (sb s1) with (sb s) in *. erewrite bind_ok by exact E2.
  erewrite bind_ok by done. set (s3 := s2 <| itable := _ |>). set (ip3 := truncated ip1 <| i_type := 0 |>).
  pose proof (ichange_trans _ _ _ _ _ _ C1 C2) as C2'. destruct (ichange_at _ _ _ _ C2' Hi) as [Ei2 Li2].
  assert (C3 : ichange i ip3 s s3).
  { eapply ichange_trans; [exact C2'|]. unfold s3. rewrite Ei2. apply ichange_upd. }
  destruct (ichange_at _ _ _ _ C3 Hi) as [Ei3 Li3]. pose proof (ic_sb _ _ _ _ C3) as Sb3.
  pose proof (map_logged_len _ _ _ (add_nodup _ _ (gl_nodup _ _ (tx_good _ _ _ _ _ _ _ T2))) Ml) as Hll.
  pose proof (length_add (IBLOCK j (sb s)) l2) as Hla.
  destruct (iupdate_ok start pid s3 _ _ i (tx_itable _ _ _ _ _ _ _ _ T2)) as (s4 & E4 & T4 & F4); rewrite ?Sb3, ?Ei3; try done.
  { unfold in_op. by rewrite (ic_out _ _ _ _ C3). }
  { change (i_inum ip1) with j. lia. }
  rewrite Ei3, Sb3 in T4. erewrite bind_ok by exact E4. erewrite bind_ok by done. set (s5 := s4 <| itable := _ |>).
  pose proof (ichange_fstep _ _ _ _ _ C3 F4) as C4. destruct (ichange_at _ _ _ _ C4 Hi) as [Ei4 Li4].
  assert (C5 : ichange i (ip3 <| i_valid := 0 |>) s s5).
  { eapply ichange_trans; [exact C4|]. unfold s5. rewrite Ei4. apply ichange_upd. }
  destruct (ichange_at _ _ _ _ C5 Hi) as [Ei5 Li5].
  destruct (release_last s5 _ _ i (tx_itable _ _ _ _ _ _ _ _ T4)) as (s6 & E6 & T6 & C6); [by rewrite Li5|].
  rewrite Ei5 in C6. eexists s6, _, _. split; [exact E6|]. split; [exact T6|].
  split; [by eapply ichange_trans|].
  change (i_inum ip1) with j. change (i_inum ip3) with j. rewrite add_twice. apply (and_assoc (emptied _ _ _ _)). split; [|lia].
  apply (dead_disk (sb s) V V2 j ip1 L Hin Co Fr); by eapply tx_len.
Qed.

(** Does [iput] free the inode? *)
Definition drops (ip : inode) : bool := (i_ref ip =? 1) && negb (i_valid ip =? 0) && (i_nlink ip =? 0).

Lemma iput_drop_ok s V l i :
  let ip := itable s !!! i in let j := i_inum ip in
  TX s V l [] [] -> in_op s -> layout start (sb s) -> fs_wf (sb s) V -> iref s i -> coherent s V i ->
  i_lock ip = mksleeplock 0 0 -> live (sb s) V j -> (length l + nbitmap (sb s) + 1 < NBUF)%nat -> drops ip = true ->
  exists s' V' l', iput i s = Ok tt s' /\ TX s' V' l' [] [] /\ ichange i (dead_entry ip <| i_ref := 0 |>) s s' /\
    emptied (sb s) V V' j /\ di_type (dinode_at (sb s) V' j) = 0 /\ (length l' <= length l + nbitmap (sb s) + 1)%nat.
Proof using.
  intros ip j T O L W R Co Lk Lv Hl Hd. pose proof (tx_running _ _ _ _ _ _ _ T) as Hr.
  pose proof (ir_lt _ _ R) as Hi. pose proof Hd as [[H1 Hv]%andb_true_iff _]%andb_true_iff. apply Z.eqb_eq in H1.
  apply negb_true_iff, Z.eqb_neq in Hv.
  unfold iput. rewrite (lock_table s (running_free _ _ _ Hr)). erewrite bind_ok by done. change (itable (table_locked s)) with (itable s).
  fold ip. fold (drops ip). rewrite Hd. cbn [when].
  destruct (iput_last_ok s V l i T O L W R) as (s1 & V1 & l1 & E1 & T1 & C1 & Em & Ty & Hl1); [by apply Co|fold ip; by rewrite Lk|done|done|].
  erewrite bind_ok by exact E1. destruct (ichange_at _ _ _ _ C1 Hi) as [Ei1 Li1]. fold ip in Ei1.
  erewrite bind_ok by done. change (itable (table_locked s1)) with (itable s1).
  rewrite (release_entry s1 (running_free _ _ _ (tx_running _ _ _ _ _ _ _ T1))). eexists _, V1, l1. split; [done|].
  split; [by apply tx_itable|]. split; [|done]. eapply ichange_trans; [exact C1|]. rewrite Ei1.
  change (i_ref (dead_entry ip)) with (i_ref ip). rewrite H1. apply ichange_upd.
Qed.

(** What [iput] leaves of the file system, on each of its branches. *)
Record put_back (s : fs) (V : disk) (i : nat) (s' : fs) (V' : disk) : Prop := {
  pb_entry : exists ip, ichange i ip s s' /\ ikey ip = ikey (itable s !!! i) /\
    i_ref ip = s32 (i_ref (itable s !!! i) - 1) /\ i_lock ip = i_lock (itable s !!! i);
  pb_coherent : coherent s' V' i;
  pb_wf : fs_wf (sb s) V';
  pb_others : forall k, live (sb s) V k -> k <> i_inum (itable s !!! i) ->
    live (sb s) V' k /\ dcontents (sb s) V' k = dcontents (sb s) V k;
  pb_inode : if drops (itable s !!! i) then emptied (sb s) V V' (i_inum (itable s !!! i)) /\
      di_type (dinode_at (sb s) V' (i_inum (itable s !!! i))) = 0
    else V' = V;
}.

Lemma iput_ok s V l i :
  let ip := itable s !!! i in
  TX s V l [] [] -> in_op s -> layout start (sb s) -> fs_wf (sb s) V -> iref s i -> coherent s V i ->
  i_lock ip = mksleeplock 0 0 -> live (sb s) V (i_inum ip) -> (length l + nbitmap (sb s) + 1 < NBUF)%nat ->
  exists s' V' l', iput i s = Ok tt s' /\ TX s' V' l' [] [] /\ put_back s V i s' V' /\
    (length l' <= length l + nbitmap (sb s) + 1)%nat.
Proof using.
  intros ip T O L W R Co Lk Lv Hl. pose proof (ir_lt _ _ R) as Hi. destruct (drops ip) eqn:Hd.
  - destruct (iput_drop_ok s V l i T O L W R Co Lk Lv Hl Hd) as (s' & V' & l' & E & T' & C & Em & Ty & Hl').
    destruct (emptied_wf start (sb s) V V' _ L W Lv Em) as [W' Ot]. destruct (ichange_at _ _ _ _ C Hi) as [Ei _].
    pose proof Hd as [[H1 Hv]%andb_true_iff _]%andb_true_iff. apply Z.eqb_eq in H1. fold ip in C, Ei.
    exists s', V', l'. split; [done|]. split; [done|]. split; [|done]. split; try done.
    + eexists. split; [exact C|]. fold ip. rewrite H1, Lk. by split_and!.
    + intros Hv'. by rewrite Ei in Hv'.
    + fold ip. by rewrite Hd.
  - assert (Hk : i_ref ip <> 1 \/ i_valid ip = 0 \/ i_nlink ip <> 0).
    { unfold drops in Hd. destruct (Z.eqb_spec (i_ref ip) 1), (Z.eqb_spec (i_valid ip) 0), (Z.eqb_spec (i_nlink ip) 0); try done; lia. }
    eexists _, V, l. split; [by apply (iput_eq s (running_free _ _ _ (tx_running _ _ _ _ _ _ _ T)))|]. split; [by apply tx_itable|].
    split; [|lia]. pose proof (ichange_upd i (ip <| i_ref := s32 (i_ref ip - 1) |>) s) as C.
    destruct (ichange_at _ _ _ _ C Hi) as [Ei _]. split; try done.
    + eexists. split; [exact C|]. by split_and!.
    + intros Hv. unfold with_entry in Hv |- *. fold ip in Hv |- *. rewrite Ei in Hv |- *. by apply Co.
    + fold ip. by rewrite Hd.
Qed.
End last.
