(* ===== verification/FsRemove.v ===== *)
(** * Removing files

    A file goes when the last reference to an inode without links is dropped:
    [begin_op]; [iput]; [end_op], in [fileclose] of [kernel/file.c] and, for
    the inodes a crash left in use without links, in [ireclaim] of
    [kernel/fs.c].  The removal is one transaction. *)

From stdpp Require Import base numbers strings decidable sets gmap functions list.
From S2P Require Import Prelude.
From S2P Require Import CString.
From S2P Require Import Riscv.
From S2P Require Import Sched.
From S2P Require Import Kalloc.
From S2P Require Import Vm.
From S2P Require Import Sleeplock.
From S2P Require Import Bio.
From S2P Require Import Log.
From S2P Require Import LogOps.
From S2P Require Import LogCrash.
From S2P Require Import Fs.
From S2P Require Import Txn.
From S2P Require Import FsBlocks.
From S2P Require Import FsFile.
From S2P Require Import FsInode.
From S2P Require Import FsData.
From S2P Require Import FsWrite.
From S2P Require Import FsDisk.
From S2P Require Import FsOp.
From S2P Require Import ITable.
From S2P Require Import FsTrunc.
Open Scope Z_scope.
Open Scope xv6_scope.

(** Disk [d] is [V] without inode [j]: its blocks are free, every other file
    is as it was. *)
Record gone (sb : superblock) (V : disk) (j : Z) (d : disk) : Prop := {
  gn_wf : fs_wf sb d;
  gn_dead : di_type (dinode_at sb d j) = 0;
  gn_inodes : forall k, 0 <= k < sb_ninodes sb -> k <> j -> dinode_at sb d k = dinode_at sb V k;
  gn_contents : forall k, live sb V k -> k <> j -> dcontents sb d k = dcontents sb V k;
  gn_owns : forall k c, live sb V k -> k <> j -> owns d (daddrs sb d k) c <-> owns V (daddrs sb V k) c;
  gn_used : forall c, 0 <= c < sb_size sb -> used sb d c = true <-> used sb V c = true /\ ~ owns V (daddrs sb V j) c;
}.

Section gone.
Context (start : Z) (sb : superblock) (V d : disk) (j : Z).
Hypothesis L : layout start sb.
Hypothesis W : fs_wf sb V.
Hypothesis Lv : live sb V j.

Lemma emptied_gone : emptied sb V d j -> di_type (dinode_at sb d j) = 0 -> gone sb V j d.
Proof using All.
  intros Em Ty. destruct (emptied_wf start sb V d j L W Lv Em) as [W' Ot]. split; try done.
  - apply Em.
  - intros k Hk Hne. by apply Ot.
  - intros k c Hk Hne. by apply (emptied_owns start _ _ _ j).
  - intros c Hc. by apply (emptied_used start).
Qed.
Lemma gone_same d' : gone sb V j d -> same_fs sb d d' -> gone sb V j d'.
Proof using All.
  intros [W' Dd In Co Ow Us] S. pose proof (same_dinode start sb d d' L S) as Ei.
  assert (Hlive : forall k, live sb V k -> k <> j -> live sb d k).
  { intros k [Hk Ht] Hne. split; [done|]. by rewrite In. }
  split.
  - by eapply same_wf.
  - rewrite Ei; [done|apply Lv].
  - intros k Hk Hne. by rewrite Ei, In.
  - intros k Hk Hne. rewrite <- Co by done. apply (same_dfile start sb d d' L S); [by apply Hlive|]. by apply W', Hlive.
  - intros k c Hk Hne. rewrite Ei by apply Hk. rewrite <- Ow by done.
    apply (same_owns start sb d d' L S). by apply W', Hlive.
  - intros c Hc. rewrite (agree_used start sb d d' L (same_agree start sb d d' L S)) by done. by apply Us.
Qed.
(** The other files survive, in their blocks. *)
Lemma gone_live k : gone sb V j d -> live sb d k <-> live sb V k /\ k <> j.
Proof using Lv.
  intros [W' Dd In Co Ow Us]. split.
  - intros [Hk Ht]. destruct (decide (k = j)) as [->|Hne]; [done|]. rewrite In in Ht by done. split; [by split|done].
  - intros [[Hk Ht] Hne]. split; [done|]. by rewrite In.
Qed.
End gone.

(** ** The transaction *)

Section op.
Context (start pid : Z).
Notation TX := (tx start pid).

(** The state between [begin_op] and [iput], and what [end_op] makes of it:
    [V] without the file when [iput] drops the inode, [V] otherwise. *)
Lemma drop_op_ok s V i :
  let ip := itable s !!! i in let j := i_inum ip in
  TX s V [] [] [] -> ops s = (1, 0) -> layout start (sb s) -> Z.of_nat (nbitmap (sb s)) <= MAXOPBLOCKS ->
  fs_wf (sb s) V -> iref s i -> coherent s V i -> i_lock ip = mksleeplock 0 0 -> live (sb s) V j ->
  (forall b, dsk (lg_blk (fs_log s)) b = V b) -> hb_n (V start) = 0 ->
  exists s1 s2 V1 V2 w, iput i s = Ok tt s1 /\ lift end_op s1 = Ok tt s2 /\ idle start pid s2 V2 /\
    put_back s V i s1 V1 /\ same_fs (sb s) V1 V2 /\ sb s2 = sb s /\ itable s2 = itable s1 /\
    mm_woke (fmm s) (fmm s2) /\ drive s2 = (apply_writes (drive s).1 w, (drive s).2 ++ w) /\
    atomic start (drive s).1 V1 w.
Proof using.
  intros ip j T O L Hm W R Co Lk Lv Hd Hh. unfold MAXOPBLOCKS in Hm.
  destruct (iput_ok start pid s V [] i T) as (s1 & V1 & l1 & E1 & T1 & Pb & Hl1); try done.
  { unfold in_op. by rewrite O. }
  { simpl. change NBUF with 30%nat. lia. }
  destruct (pb_entry _ _ _ _ _ Pb) as (ip' & [Sb1 It1 Mm1 Dr1 Op1] & _).
  assert (Ed : dsk (lg_blk (fs_log s1)) = dsk (lg_blk (fs_log s))) by (unfold drive in Dr1; congruence).
  destruct (end_op_idle start pid s1 V1 l1 T1) as (s2 & V2 & w & E2 & Id2 & Hh2 & Sb2 & It2 & Mm2 & Dr2 & At2); rewrite ?Sb1, ?Ed; try done.
  { by rewrite Op1. }
  { simpl in Hl1. change NBUF with 30%nat. lia. }
  { intros b. rewrite Hd. by eapply tx_len. }
  { by rewrite Hd. }
  exists s1, s2, V1, V2, w. rewrite Dr1 in Dr2, At2. split_and!; try done.
  - intros b Hb. by eapply Hh2, home_high.
  - congruence.
  - by eapply mm_woke_trans.
Qed.
End op.

(** ** Orphans *)

(** In use and without links. *)
Definition orphan (sb : superblock) (V : disk) (j : Z) : bool :=
  negb (di_type (dinode_at sb V j) =? 0) && (di_nlink (dinode_at sb V j) =? 0).

(** No entry of the table is in use. *)
Definition unreferenced (t : list inode) : Prop :=
  length t = NINODE /\ Forall (fun ip => i_ref ip = 0 /\ i_lock ip = mksleeplock 0 0) t.

Lemma unreferenced_insert t i ip :
  unreferenced t -> i_ref ip = 0 -> i_lock ip = mksleeplock 0 0 -> unreferenced (<[i := ip]> t).
Proof. intros [Hl Hf] H1 H2. split; [by rewrite length_insert|]. by apply Forall_insert. Qed.
Lemma unreferenced_at t i : unreferenced t -> (i < NINODE)%nat -> i_ref (t !!! i) = 0 /\ i_lock (t !!! i) = mksleeplock 0 0.
Proof.
  intros [Hl Hf] Hi. rewrite Forall_forall in Hf. apply Hf. eapply list_elem_of_lookup_2, list_lookup_lookup_total_lt. by rewrite Hl.
Qed.

Definition fresh_entry (dev inum : Z) (ip : inode) : inode :=
  ip <| i_dev := dev |> <| i_inum := inum |> <| i_ref := 1 |> <| i_valid := 0 |>.

Lemma iget_unreferenced s dev inum :
  LkItable ∉ held (prj s) -> unreferenced (itable s) ->
  iget dev inum s = Ok 0%nat (with_entry s 0 (fresh_entry dev inum (itable s !!! 0%nat))).
Proof.
  intros Hr [Hl Hf]. rewrite (iget_eq s Hr).
  destruct (iget_scan (itable s) 0 None dev inum) as [[i|] e] eqn:E.
  - apply iget_scan_found in E as (j & ip & -> & Hj & Hp & _). rewrite Forall_lookup in Hf.
    destruct (Hf j ip Hj) as [Hz _]. lia.
  - destruct (itable s) as [|ip t]; [done|]. apply Forall_cons in Hf as [[Hz _] _]. cbn [iget_scan] in E.
    rewrite Hz in E. cbn [Z.ltb Z.compare andb Z.eqb] in E. apply iget_scan_none in E as [_ ->]. done.
Qed.

Section reclaim.
Context (start pid : Z).
Notation TX := (tx start pid).

(** The part of an iteration that works on an orphan. *)
Lemma reclaim_drop_ok s V j :
  let ip := itable s !!! 0%nat in
  idle start pid s V -> layout start (sb s) -> Z.of_nat (nbitmap (sb s)) <= MAXOPBLOCKS -> fs_wf (sb s) V ->
  length (itable s) = NINODE -> ip = fresh_entry ROOTDEV j ip -> i_lock ip = mksleeplock 0 0 ->
  live (sb s) V j -> di_nlink (dinode_at (sb s) V j) = 0 ->
  exists s' V' V2 w ip', (lift begin_op ;; ilock (Some 0%nat) ;; iunlock (Some 0%nat) ;; iput 0 ;; lift end_op) s = Ok tt s' /\
    idle start pid s' V2 /\ gone (sb s) V j V' /\ same_fs (sb s) V' V2 /\ sb s' = sb s /\
    itable s' = <[0%nat := ip']> (itable s) /\ i_ref ip' = 0 /\ i_lock ip' = mksleeplock 0 0 /\
    mm_woke (fmm s) (fmm s') /\ drive s' = (apply_writes (drive s).1 w, (drive s).2 ++ w) /\ atomic start (drive s).1 V' w.
Proof using.
  intros ip Id L Hm W Hlen Eip Lk Lv Hn. pose proof (idle_disk _ _ _ _ Id) as Hd.
  assert (H0 : (0 < length (itable s))%nat) by (rewrite Hlen; by apply Nat.ltb_lt).
  destruct (begin_op_idle start pid s V Id) as (s1 & E1 & T1 & O1 & Sb1 & It1 & Mm1 & Dr1). erewrite bind_ok by exact E1.
  assert (Hip : i_dev ip = ROOTDEV /\ i_inum ip = j /\ i_ref ip = 1 /\ i_valid ip = 0) by (by rewrite Eip).
  destruct Hip as (Hdv & Hnum & Hrf & Hvl).
  destruct (ilock_ok start pid s1 V [] 0 T1) as (s2 & E2 & T2 & C2); rewrite ?Sb1, ?It1; fold ip; try done.
  { by apply Nat.ltb_lt. }
  { split; rewrite ?It1, ?Sb1; fold ip; rewrite ?Hdv, ?Hnum, ?Hrf; try done. apply Lv. }
  { intros Hv. rewrite It1 in Hv. by fold ip in Hv. }
  { by rewrite Lk. }
  { rewrite Hnum. apply Lv. }
  erewrite bind_ok by exact E2. rewrite It1, Sb1 in C2. fold ip in C2. rewrite Hnum in C2.
  set (ip2 := locked_entry pid _ ip) in C2. destruct (ichange_at _ _ _ _ C2) as [Ei2 Li2]; [by rewrite It1|].
  destruct (iunlock_ok start pid s2 V [] [] 0 T2) as (s3 & E3 & T3 & C3); rewrite ?Ei2, ?Li2, ?It1; try done.
  { unfold ip2. change (i_ref _) with (i_ref ip). lia. }
  erewrite bind_ok by exact E3. rewrite Ei2 in C3. pose proof (ichange_trans _ _ _ _ _ _ C2 C3) as C.
  set (ip3 := ip2 <| i_lock := mksleeplock 0 0 |>) in C. destruct (ichange_at _ _ _ _ C) as [Ei3 Li3]; [by rewrite It1|].
  destruct C as [Sb3 It3 Mm3 Dr3 Op3]. rewrite Sb1 in Sb3. rewrite Dr1 in Dr3. rewrite It1 in It3, Li3. rewrite O1 in Op3.
  assert (Ej : i_inum ip3 = j) by exact Hnum.
  assert (Edi : to_dinode ip3 = dinode_at (sb s) V j) by (unfold ip3, ip2; cbn; by destruct (dinode_at (sb s) V j)).
  assert (Hdrop : drops ip3 = true).
  { unfold drops. change (i_ref ip3) with (i_ref ip). change (i_nlink ip3) with (di_nlink (dinode_at (sb s) V j)).
    unfold ip3, ip2, locked_entry. setf_cbn. rewrite Hrf, Hn, Hvl. done. }
  destruct (drop_op_ok start pid s3 V 0 T3) as (s4 & s5 & V1 & V2 & w & E4 & E5 & Id5 & Pb & Sf & Sb5 & It5 & Mm5 & Dr5 & At5);
    rewrite ?Sb3, ?Ei3, ?Ej; try done.
  { split; rewrite ?Sb3, ?Ei3, ?Ej, ?Li3; try done; [apply Lv|]. change (i_ref ip3) with (i_ref ip). lia. }
  { intros _. by rewrite Ei3, Sb3, Ej. }
  { intros b. rewrite <- Hd. change ((drive s3).1 b = (drive s).1 b). by rewrite Dr3. }
  { apply Id. }
  erewrite bind_ok by exact E4. destruct Pb as [(ip4 & C4 & _ & Rf4 & Lk4) _ W4 Ot4 In4]. rewrite Ei3, Hdrop, Sb3, Ej in *.
  destruct In4 as [Em Ty]. exists s5, V1, V2, w, ip4. split_and!; try done.
  - by apply (emptied_gone start).
  - rewrite It5, (ic_itable _ _ _ _ C4), It3. apply list_insert_insert_eq.
  - rewrite Rf4. change (i_ref ip3) with (i_ref ip). by rewrite Hrf.
  - rewrite <- Mm1. by eapply mm_woke_trans.
  - by rewrite Dr5, Dr3.
  - by rewrite <- Dr3.
Qed.

(** A machine whose inode table is not in use, between operations. *)
Record booting (s : fs) (V : disk) : Prop := {
  bo_idle : idle start pid s V;
  bo_layout : layout start (sb s);
  bo_map : Z.of_nat (nbitmap (sb s)) <= MAXOPBLOCKS;
  bo_wf : fs_wf (sb s) V;
  bo_table : unreferenced (itable s);
}.

(** What the scan leaves, having written [w]. *)
Record reclaims (s s' : fs) (V' : disk) (w : wlog) : Prop := {
  rc_boot : booting s' V';
  rc_sb : sb s' = sb s;
  rc_mm : mm_woke (fmm s) (fmm s');
  rc_drive : drive s' = (apply_writes (drive s).1 w, (drive s).2 ++ w);
}.

(** An orphan found: a message and an entry of the table. *)
Lemma reclaim_found s V j bp b :
  TX s V [] [(bp, b)] [] -> unreferenced (itable s) ->
  exists s', (lift (kprintf "ireclaim: orphaned inode %d") ;; i <- iget ROOTDEV j ;; ret (Some i)) s =
    Ok (Some 0%nat) (with_entry s' 0 (fresh_entry ROOTDEV j (itable s' !!! 0%nat))) /\
    TX s' V [] [(bp, b)] [] /\ fstep s s'.
Proof using.
  intros T U. destruct (tx_kprintf start pid s V [] [(bp, b)] [] "ireclaim: orphaned inode %d" T) as (s1 & E1 & T1 & F1).
  erewrite bind_ok by exact E1. erewrite bind_ok by
    (apply iget_unreferenced; [by eapply running_free, tx_running|by rewrite (fs_itable _ _ F1)]).
  by exists s1.
Qed.

(** An inode that is none. *)
Lemma ireclaim_one_skip s V j :
  idle start pid s V -> orphan (sb s) V j = false ->
  exists s', ireclaim_one ROOTDEV j s = Ok tt s' /\ idle start pid s' V /\ fstep s s'.
Proof using.
  intros [T Ho Hh] Eo. unfold ireclaim_one. erewrite bind_ok by done.
  destruct (tx_bread start pid s V [] [] [] (IBLOCK j (sb s)) T) as (bp & s1 & E1 & T1 & F1);
    [apply not_elem_of_nil|right; by apply Nat.ltb_lt|].
  erewrite bind_ok by exact E1. erewrite bind_ok by (eapply tx_data; [exact T1|apply list_elem_of_here]).
  cbv zeta. fold (dinode_at (sb s) V j). fold (orphan (sb s) V j). rewrite Eo. erewrite bind_ok by done.
  destruct (tx_brelse start pid s1 _ _ _ _ _ _ T1) as (s2 & E2 & T2 & F2); [apply not_elem_of_nil|].
  erewrite bind_ok by exact E2. exists s2. split; [done|]. pose proof (fstep_trans _ _ _ F1 F2) as F.
  split; [|done]. split; [done|by rewrite (fs_out _ _ F)|done].
Qed.

Lemma ireclaim_one_ok s V j :
  booting s V -> 0 <= j < sb_ninodes (sb s) ->
  exists s' V' w, ireclaim_one ROOTDEV j s = Ok tt s' /\ reclaims s s' V' w /\
    (if orphan (sb s) V j then gone (sb s) V j V' else V' = V /\ w = [] /\ itable s' = itable s) /\
    forall k d, recovered start (apply_writes (drive s).1 (take k w)) d -> same_fs (sb s) V d \/ same_fs (sb s) V' d.
Proof using.
  intros [Id L Hm W U] Hj. destruct (orphan (sb s) V j) eqn:Eo.
  2: { destruct (ireclaim_one_skip s V j Id Eo) as (s2 & E2 & Id2 & [Sb It Mm Dr Op]).
    exists s2, V, []. split; [done|]. split; [|split; [done|]].
    - split; [split; by rewrite ?Sb, ?It|done|done|]. rewrite Dr, app_nil_r. by destruct (drive s).
    - intros k d Rc. rewrite take_nil in Rc. left. by apply (idle_recovers start pid s). }
  pose proof Id as [T Ho Hh]. unfold ireclaim_one. erewrite bind_ok by done.
  destruct (tx_bread start pid s V [] [] [] (IBLOCK j (sb s)) T) as (bp & s1 & E1 & T1 & F1);
    [apply not_elem_of_nil|right; by apply Nat.ltb_lt|].
  erewrite bind_ok by exact E1. erewrite bind_ok by (eapply tx_data; [exact T1|apply list_elem_of_here]).
  cbv zeta. fold (dinode_at (sb s) V j). fold (orphan (sb s) V j). rewrite Eo.
  apply andb_true_iff in Eo as [Ht Hn]. apply negb_true_iff, Z.eqb_neq in Ht. apply Z.eqb_eq in Hn.
  destruct (reclaim_found s1 V j bp (IBLOCK j (sb s)) T1) as (s2 & E2 & T2 & F2); [by rewrite (fs_itable _ _ F1)|].
  erewrite bind_ok by exact E2. set (s3 := with_entry s2 0 _).
  destruct (tx_brelse start pid s3 _ _ _ _ _ _ (tx_itable _ _ _ _ _ _ _ _ T2)) as (s4 & E4 & T4 & F4); [apply not_elem_of_nil|].
  erewrite bind_ok by exact E4. pose proof (fstep_trans _ _ _ F1 F2) as [Sb It Mm Dr Op].
  destruct F4 as [Sb4 It4 Mm4 Dr4 Op4]. change (sb s3) with (sb s2) in Sb4. change (drive s3) with (drive s2) in Dr4.
  change (ops s3) with (ops s2) in Op4. rewrite Sb in Sb4. rewrite Dr in Dr4. rewrite Op in Op4.
  assert (Et : itable s4 = <[0%nat := fresh_entry ROOTDEV j (itable s !!! 0%nat)]> (itable s)).
  { rewrite It4. unfold s3, with_entry. cbn. by rewrite It. }
  destruct U as [Ul Uf] eqn:EU. clear EU. assert (H0 : (0 < length (itable s))%nat) by (rewrite Ul; by apply Nat.ltb_lt).
  assert (E0 : itable s4 !!! 0%nat = fresh_entry ROOTDEV j (itable s !!! 0%nat)) by (rewrite Et; by apply list_lookup_total_insert_eq).
  destruct (reclaim_drop_ok s4 V j) as (s5 & V5 & V6 & w & ip' & E5 & Id5 & Gn & Sf & Sb5 & It5 & Rf5 & Lk5 & Mm5 & Dr5 & At5);
    rewrite ?Sb4, ?E0, ?Et, ?length_insert; try done.
  { split; [done|by rewrite Op4|done]. }
  { by apply (unreferenced_at (itable s) 0); [|apply Nat.ltb_lt]. }
  rewrite Sb4, Dr4 in *. assert (Gn' : gone (sb s) V j V6) by (by apply (gone_same start (sb s) V V5 j L W)).
  exists s5, V6, w. split; [exact E5|]. split; [|split; [done|]].
  - split; [split; rewrite ?Sb5, ?It5, ?Et, ?list_insert_insert_eq; try done; [apply Gn'|by apply unreferenced_insert]|done| |done].
    eapply mm_woke_trans; [exact Mm|]. by eapply mm_woke_trans.
  - intros k d Rc. destruct (At5 k d Rc) as [Hd|Hd]; [left|right]; intros b Hb; rewrite (Hd b) by (by eapply home_high).
    + apply (idle_disk _ _ _ _ Id).
    + symmetry. by apply Sf.
Qed.

(** ** The scan *)

(** [V'] is [V] without those of the inodes [P] that are orphans. *)
Record swept (sb : superblock) (V : disk) (P : list Z) (V' : disk) : Prop := {
  sw_wf : fs_wf sb V';
  sw_live : forall k, live sb V' k <-> live sb V k /\ ~ (k ∈ P /\ orphan sb V k = true);
  sw_inode : forall k, live sb V' k -> dinode_at sb V' k = dinode_at sb V k;
  sw_contents : forall k, live sb V' k -> dcontents sb V' k = dcontents sb V k;
  sw_owns : forall k c, live sb V' k -> owns V' (daddrs sb V' k) c <-> owns V (daddrs sb V k) c;
  sw_used : forall c, 0 <= c < sb_size sb -> used sb V' c = true <->
    used sb V c = true /\ forall k, k ∈ P -> live sb V k -> orphan sb V k = true -> ~ owns V (daddrs sb V k) c;
}.

Section swept.
Context (sb : superblock) (V : disk).
Hypothesis L : layout start sb.
Hypothesis W : fs_wf sb V.

Lemma swept_nil : swept sb V [] V.
Proof using W.
  split; try done.
  - intros k. split; [|tauto]. intros Hk. split; [done|]. by intros [?%elem_of_nil _].
  - intros c Hc. split; [|tauto]. intros Hu. split; [done|]. by intros k ?%elem_of_nil.
Qed.
Lemma swept_same P V1 V2 : swept sb V P V1 -> same_fs sb V1 V2 -> swept sb V P V2.
Proof using L.
  intros [W1 Lv In Co Ow Us] S. pose proof (same_dinode start sb V1 V2 L S) as Ei. pose proof (same_live start sb V1 V2 L S) as El.
  split.
  - by eapply same_wf.
  - intros k. by rewrite El.
  - intros k Hk%El. rewrite Ei by apply Hk. by apply In.
  - intros k Hk%El. rewrite <- Co by done. apply (same_dfile start sb V1 V2 L S); [done|]. by apply W1.
  - intros k c Hk%El. rewrite Ei by apply Hk. rewrite <- Ow by done. apply (same_owns start sb V1 V2 L S). by apply W1.
  - intros c Hc. rewrite (agree_used start sb V1 V2 L (same_agree start sb V1 V2 L S)) by done. by apply Us.
Qed.
Lemma orphan_live j : 0 <= j < sb_ninodes sb -> orphan sb V j = true -> live sb V j.
Proof using. intros Hj [Ht _]%andb_true_iff. split; [done|]. by apply negb_true_iff, Z.eqb_neq in Ht. Qed.

(** The scan goes on to inode [j]: an orphan, *)
Lemma swept_gone P V1 j V2 :
  swept sb V P V1 -> live sb V1 j -> orphan sb V1 j = true -> gone sb V1 j V2 -> swept sb V (P ++ [j]) V2.
Proof using.
  intros [W1 Lv In Co Ow Us] Hj Ho Gn. pose proof (fun k => gone_live sb V1 V2 j Hj k Gn) as El. destruct Gn as [W2 Dd In2 Co2 Ow2 Us2].
  assert (HoV : live sb V j /\ orphan sb V j = true).
  { split; [by apply Lv|]. unfold orphan in *. by rewrite In in Ho. }
  split; [done|..].
  - intros k. rewrite El, Lv, elem_of_app, list_elem_of_singleton. split; [|naive_solver].
    intros [[Hk Hn] Hne]. split; [done|]. intros [[?| ->] ?]; [by apply Hn|done].
  - intros k [Hk Hne]%El. rewrite In2 by (done || apply Hk). by apply In.
  - intros k [Hk Hne]%El. rewrite Co2 by done. by apply Co.
  - intros k c [Hk Hne]%El. rewrite Ow2 by done. by apply Ow.
  - intros c Hc. rewrite Us2, Us by done. setoid_rewrite elem_of_app. setoid_rewrite list_elem_of_singleton.
    rewrite (Ow j c Hj). split.
    + intros [[Hu Hn] Hnj]. split; [done|]. intros k [Hk| ->]; [by apply Hn|done].
    + intros [Hu Hn]. split; [split; [done|]|]; [intros k Hk; apply Hn; by left|apply Hn; [by right|apply HoV..]].
Qed.
(** or not. *)
Lemma swept_skip P V1 j :
  swept sb V P V1 -> 0 <= j < sb_ninodes sb -> orphan sb V1 j = false -> swept sb V (P ++ [j]) V1.
Proof using.
  intros [W1 Lv In Co Ow Us] Hj Ho.
  assert (HoV : live sb V j -> orphan sb V j = true -> j ∈ P).
  { intros Hl HoV. destruct (decide (j ∈ P)) as [|Hn]; [done|exfalso].
    assert (Hl1 : live sb V1 j) by (apply Lv; split; [done|]; tauto). unfold orphan in *. rewrite In in Ho by done. congruence. }
  split; [done|..|done|done|done|].
  - intros k. rewrite Lv, elem_of_app, list_elem_of_singleton. split; [|naive_solver].
    intros [Hk Hn]. split; [done|]. intros [[?| ->] ?]; [by apply Hn|]. apply Hn. by split; [apply HoV|].
  - intros c Hc. rewrite Us by done. setoid_rewrite elem_of_app. setoid_rewrite list_elem_of_singleton. split; [|naive_solver].
    intros [Hu Hn]. split; [done|]. intros k [Hk| ->]; [by apply Hn|]. intros Hl Hk. apply Hn; [by apply HoV|done|done].
Qed.
End swept.

Lemma ireclaim_loop s V V0 P l :
  booting s V -> fs_wf (sb s) V0 -> swept (sb s) V0 P V -> Forall (fun j => 0 <= j < sb_ninodes (sb s)) l ->
  exists s' V' w, mapM_ (ireclaim_one ROOTDEV) l s = Ok tt s' /\ reclaims s s' V' w /\ swept (sb s) V0 (P ++ l) V' /\
    forall k d, recovered start (apply_writes (drive s).1 (take k w)) d -> exists m, swept (sb s) V0 (P ++ take m l) d.
Proof using.
  revert s V P. induction l as [|j l IH]; intros s V P B W0 Sw Hl; cbn [mapM_].
  { exists s, V, []. split; [done|]. split; [|split; [by rewrite app_nil_r|]].
    - split; try done. rewrite app_nil_r. by destruct (drive s).
    - intros k d Rc. exists 0%nat. rewrite app_nil_r. rewrite take_nil in Rc.
      eapply swept_same; [apply B|exact Sw|]. eapply idle_recovers; [apply B|apply B|done]. }
  apply Forall_cons in Hl as [Hj Hl]. pose proof (bo_layout _ _ B) as L.
  destruct (ireclaim_one_ok s V j B Hj) as (s1 & V1 & w1 & E1 & R1 & Cs & Cr1). erewrite bind_ok by exact E1.
  assert (Sw1 : swept (sb s) V0 (P ++ [j]) V1).
  { destruct (orphan (sb s) V j) eqn:Eo; [by eapply swept_gone; [|apply orphan_live| |]|]. destruct Cs as (-> & _ & _). by apply swept_skip. }
  destruct R1 as [B1 Sb1 Mm1 Dr1]. destruct (IH s1 V1 (P ++ [j])) as (s2 & V2 & w2 & E2 & [B2 Sb2 Mm2 Dr2] & Sw2 & Cr2);
    rewrite ?Sb1 in *; try done. rewrite <- app_assoc in Sw2.
  exists s2, V2, (w1 ++ w2). split; [done|]. split; [|split; [done|]].
  - split; [done|congruence|by eapply mm_woke_trans|]. rewrite Dr2, Dr1. cbn. by rewrite apply_writes_app, app_assoc.
  - intros k d Rc. rewrite take_app in Rc. destruct (decide (k <= length w1)%nat) as [Hk|Hk].
    + rewrite (proj2 (Nat.sub_0_le _ _) Hk), take_0, app_nil_r in Rc. destruct (Cr1 k d Rc) as [S|S].
      * exists 0%nat. rewrite app_nil_r. by eapply swept_same.
      * exists 1%nat. cbn [take]. by eapply swept_same.
    + rewrite (take_ge w1), apply_writes_app in Rc by lia. rewrite Dr1 in Cr2. cbn in Cr2.
      destruct (Cr2 _ _ Rc) as [m Hm]. exists (S m). cbn [take]. by rewrite <- app_assoc in Hm.
Qed.
End reclaim.
