(* ===== verification/Mkfs.v ===== *)
(** * The image builder, [mkfs/mkfs.c]

    The host program that writes the initial disk image.  The image is a
    function from sectors to their bytes; a file of the host is its name and
    the pieces in which [read] returns its contents.  An [assert] that fails
    and [die] end the program. *)

From stdpp Require Import base numbers strings decidable sets gmap functions list.
From S2P Require Import Prelude.
From S2P Require Import CString.
From S2P Require Import Riscv.
From S2P Require Import Sched.
From S2P Require Import Kalloc.
From S2P Require Import Bio.
From S2P Require Import Log.
From S2P Require Import LogOps.
From S2P Require Import Fs.
From S2P Require Import Txn.
From S2P Require Import FsBlocks.
Open Scope Z_scope.
Open Scope xv6_scope.

Module Mkfs.
Definition NINODES : Z := 200.
Definition nbitmap : Z := FSSIZE / BPB + 1.
Definition ninodeblocks : Z := NINODES / IPB + 1.
(** Header followed by LOGBLOCKS data blocks. *)
Definition nlog : Z := LOGBLOCKS + 1.
Definition nmeta : Z := 2 + nlog + ninodeblocks + nbitmap.
Definition nblocks : Z := FSSIZE - nmeta.
Definition sb : superblock :=
  mksuperblock FSMAGIC FSSIZE nblocks NINODES nlog 2 (2 + nlog) (2 + nlog + ninodeblocks).

Record image : Type := mkimage {
  img : disk;
  freeinode : Z;
  freeblock : Z;
}.
#[export] Instance set_img : Setter img := fun v r => mkimage v (freeinode r) (freeblock r).
#[export] Instance set_freeinode : Setter freeinode := fun v r => mkimage (img r) v (freeblock r).
#[export] Instance set_freeblock : Setter freeblock := fun v r => mkimage (img r) (freeinode r) v.

Definition assert_ (b : bool) : M image unit := if b then ret tt else panic "assertion failed".

Definition wsect (sec : Z) (buf : list Z) : M image unit :=
  modify (fun s => s <| img := <[sec := buf]> (img s) |>).
(** The image has [FSSIZE] sectors by the time one is read; reading past its
    end is an error, and [die] ends the program. *)
Definition rsect (sec : Z) : M image (list Z) :=
  if sec <? FSSIZE then gets (fun s => img s sec) else panic "read".

Definition winode (inum : Z) (ip : dinode) : M image unit :=
  let bn := IBLOCK inum sb in
  buf <- rsect bn ;;
  wsect bn (put_dinode (dinode_off inum) ip buf).
Definition rinode (inum : Z) : M image dinode :=
  buf <- rsect (IBLOCK inum sb) ;;
  ret (get_dinode (dinode_off inum) buf).

Definition ialloc (type : Z) : M image Z :=
  inum <- gets freeinode ;;
  modify (fun s => s <| freeinode := u32 (freeinode s + 1) |>) ;;
  winode inum (mkdinode type 0 0 1 0 (replicate naddrs 0)) ;;
  ret inum.

Definition balloc (used : Z) : M image unit :=
  assert_ (used <? BPB) ;;
  wsect (sb_bmapstart sb) (foldl (fun buf i => bit_set i buf) zero_block (seqZ 0 used)).

(** [freeblock++] *)
Definition next_block : M image Z :=
  b <- gets freeblock ;;
  modify (fun s => s <| freeblock := u32 (freeblock s + 1) |>) ;;
  ret b.

(** The sector of block [fbn] of the file, allocated if it has none. *)
Definition sector_of (din : dinode) (fbn : Z) : M image (dinode * Z) :=
  if fbn <? NDIRECT then
    din <- (if di_addrs din !!! Z.to_nat fbn =? 0 then
              b <- next_block ;;
              ret (din <| di_addrs := <[Z.to_nat fbn := b]> (di_addrs din) |>)
            else ret din) ;;
    ret (din, di_addrs din !!! Z.to_nat fbn)
  else
    din <- (if di_addrs din !!! Z.to_nat NDIRECT =? 0 then
              b <- next_block ;;
              ret (din <| di_addrs := <[Z.to_nat NDIRECT := b]> (di_addrs din) |>)
            else ret din) ;;
    let ind := di_addrs din !!! Z.to_nat NDIRECT in
    let k := (4 * Z.to_nat (fbn - NDIRECT))%nat in
    indirect <- rsect ind ;;
    indirect <- (if get_le 4 k indirect =? 0 then
                   b <- next_block ;;
                   wsect ind (put_le 4 k b indirect) ;;
                   ret (put_le 4 k b indirect)
                 else ret indirect) ;;
    ret (din, get_le 4 k indirect).

Fixpoint iappend_loop (fuel : nat) (p : list Z) (off : Z) (din : dinode) : M image (dinode * Z) :=
  match fuel with
  | O => out_of_fuel
  | S fuel' =>
    if Nat.eqb (length p) 0 then ret (din, off)
    else
      let fbn := off / BSIZE in
      assert_ (fbn <? MAXFILE) ;;
      '(din, x) <- sector_of din fbn ;;
      let n1 := Z.to_nat (Z.min (Z.of_nat (length p)) ((fbn + 1) * BSIZE - off)) in
      buf <- rsect x ;;
      wsect x (splice (Z.to_nat (off - fbn * BSIZE)) (take n1 p) buf) ;;
      iappend_loop fuel' (drop n1 p) (u32 (off + Z.of_nat n1)) din
  end.
Definition iappend (inum : Z) (p : list Z) : M image unit :=
  din <- rinode inum ;;
  '(din, off) <- iappend_loop (S (length p)) p (di_size din) din ;;
  winode inum (din <| di_size := off |>).

(** The name under which a file of the host is stored. *)
Definition user_dir : list Z := [117; 115; 101; 114; 47].
Definition shortname (arg : list Z) : list Z :=
  if decide (take 5 arg = user_dir) then drop 5 arg else arg.
Definition skip_underscore (name : list Z) : list Z :=
  match name with c :: l => if c =? 95 then l else name | [] => [] end.

Definition dirent (inum : Z) (name : list Z) : list Z := mkdirent inum (strncpy (of_list name) DIRSIZ).

(** One file of the command line. *)
Definition add_file (rootino : Z) (f : list Z * list (list Z)) : M image unit :=
  let name := shortname (fst f) in
  assert_ (bool_decide (slash ∉ name)) ;;
  let name := skip_underscore name in
  assert_ (Nat.leb (length name) DIRSIZ) ;;
  inum <- ialloc T_FILE ;;
  iappend rootino (dirent inum name) ;;
  mapM_ (iappend inum) (snd f).

Definition main (files : list (list Z * list (list Z))) : M image unit :=
  modify (fun s => s <| freeblock := nmeta |>) ;;
  mapM_ (fun i => wsect i zero_block) (seqZ 0 FSSIZE) ;;
  wsect 1 (splice 0
    (le_enc 4 (sb_magic sb) ++ le_enc 4 (sb_size sb) ++ le_enc 4 (sb_nblocks sb) ++ le_enc 4 (sb_ninodes sb) ++
     le_enc 4 (sb_nlog sb) ++ le_enc 4 (sb_logstart sb) ++ le_enc 4 (sb_inodestart sb) ++
     le_enc 4 (sb_bmapstart sb)) zero_block) ;;
  rootino <- ialloc T_DIR ;;
  assert_ (rootino =? ROOTINO) ;;
  iappend rootino (dirent rootino [46]) ;;
  iappend rootino (dirent rootino [46; 46]) ;;
  mapM_ (add_file rootino) files ;;
  din <- rinode rootino ;;
  winode rootino (din <| di_size := u32 ((di_size din / BSIZE + 1) * BSIZE) |>) ;;
  b <- gets freeblock ;;
  balloc b.

(** The program starts with an empty file and inode 1. *)
Definition blank : image := mkimage (fun _ => zero_block) 1 0.
Definition mkfs (files : list (list Z * list (list Z))) : res image unit := main files blank.
End Mkfs.
