(* ===== verification/MkfsSpec.v ===== *)
(** * The disk image is a file system

    What [mkfs/mkfs.c] builds: an image with the superblock and the empty log
    the kernel expects, on which [FsDisk.fs_wf] holds, whose root directory
    lists the files given and whose files have their contents. *)

From stdpp Require Import base numbers strings decidable sets gmap functions list.
From S2P Require Import Prelude.
From S2P Require Import CString.
From S2P Require Import Riscv.
From S2P Require Import Sched.
From S2P Require Import Kalloc.
From S2P Require Import Vm.
From S2P Require Import Bio.
From S2P Require Import Log.
From S2P Require Import LogOps.
From S2P Require Import Fs.
From S2P Require Import Txn.
From S2P Require Import FsBlocks.
From S2P Require Import FsFile.
From S2P Require Import FsInode.
From S2P Require Import FsData.
From S2P Require Import FsWrite.
From S2P Require Import FsDisk.
From S2P Require Import Mkfs.
Open Scope Z_scope.
Open Scope xv6_scope.

Module MkfsSpec.
Import Mkfs.
#[local] Arguments sb_bmapstart : simpl never.
#[local] Arguments sb_size : simpl never.
#[local] Arguments sb_ninodes : simpl never.

Lemma mkfs_layout : layout 2 sb.
Proof. by split. Qed.
Lemma sb_vals : FsBlocks.nmeta sb = 47 /\ sb_size sb = 2000 /\ sb_bmapstart sb = 46 /\ sb_inodestart sb = 33 /\
  sb_ninodes sb = 200 /\ BPB = 8192 /\ FSSIZE = 2000 /\ NINODES = 200 /\ nmeta = 47.
Proof. done. Qed.

(** ** The free map *)

Definition bitmap (n : Z) : list Z := foldl (fun buf i => bit_set i buf) zero_block (seqZ 0 n).

Lemma bitmap_spec (n : nat) :
  length (bitmap (Z.of_nat n)) = bsize /\
  (Z.of_nat n <= BPB -> forall c, 0 <= c < BPB -> bit_clear (bitmap (Z.of_nat n)) c = negb (c <? Z.of_nat n)).
Proof.
  induction n as [|n [IHl IH]].
  - split; [done|]. intros _ c Hc. rewrite (proj2 (Z.ltb_ge _ _)) by lia.
    unfold bitmap. simpl. unfold bit_clear, zero_block.
    rewrite list_lookup_total_alt, lookup_replicate_2; [done|]. rewrite bsize_val. fslia.
  - assert (E : bitmap (Z.of_nat (S n)) = bit_set (Z.of_nat n) (bitmap (Z.of_nat n))).
    { unfold bitmap. rewrite Nat2Z.inj_succ, <- Z.add_1_r, seqZ_app, foldl_app by lia. done. }
    rewrite E. split; [by rewrite length_bit_set|]. intros Hn c Hc.
    rewrite (bit_set_clear _ IHl), IH by lia. case_decide as Ec.
    + rewrite (proj2 (Z.ltb_lt _ _)) by lia. done.
    + destruct (Z.ltb_spec c (Z.of_nat n)), (Z.ltb_spec c (Z.of_nat (S n))); try done; lia.
Qed.
Lemma length_bitmap n : 0 <= n -> length (bitmap n) = bsize.
Proof. intros H. rewrite <- (Z2Nat.id n) by done. apply bitmap_spec. Qed.

Lemma BBLOCK_one c : 0 <= c < FSSIZE -> BBLOCK c sb = sb_bmapstart sb.
Proof.
  intros Hc. rewrite (BBLOCK_eq 2 sb mkfs_layout) by (by change (sb_size sb) with FSSIZE).
  change FSSIZE with 2000 in Hc. rewrite Z.div_small; [done|]. change BPB with 8192. lia.
Qed.
(** [V] is the image as it would be if the program wrote the free map now. *)
Record shows (im : image) (V : disk) : Prop := {
  sh_len : forall b, length (V b) = bsize;
  sh_free : nmeta <= freeblock im <= FSSIZE;
  sh_map : V (sb_bmapstart sb) = bitmap (freeblock im);
  sh_img : forall b, b <> sb_bmapstart sb -> img im b = V b;
  sh_zero : forall b, freeblock im <= b -> V b = zero_block;
}.

Lemma shows_used im V c : shows im V -> 0 <= c < FSSIZE -> used sb V c = (c <? freeblock im).
Proof.
  intros [_ Hf Hm _ _] Hc. unfold used. rewrite BBLOCK_one, Hm by done.
  change FSSIZE with 2000 in *. change nmeta with 47 in *. change BPB with 8192. rewrite Z.mod_small by lia.
  rewrite <- (Z2Nat.id (freeblock im)) by lia. rewrite (proj2 (bitmap_spec _)); [by rewrite negb_involutive|..];
    change BPB with 8192; lia.
Qed.

Lemma shows_data im V x : shows im V -> data sb V x -> x <> sb_bmapstart sb /\ x < freeblock im.
Proof.
  intros S [Hr Hu]. change (FsBlocks.nmeta sb) with 47 in Hr. change (sb_size sb) with FSSIZE in Hr.
  rewrite (shows_used _ _ _ S) in Hu by lia. apply Z.ltb_lt in Hu. change (sb_bmapstart sb) with 46. lia.
Qed.

(** Writing a block below the free ones, other than the free map. *)
Lemma shows_insert im V x d :
  shows im V -> x <> sb_bmapstart sb -> x < freeblock im -> length d = bsize ->
  shows (im <| img := <[x := d]> (img im) |>) (<[x := d]> V).
Proof.
  intros [Hl Hf Hm Hi Hz] Hx Hlt Hd. split; cbn.
  - intros b. destruct (decide (b = x)) as [->|]; [by rewrite fn_insert_eq|by rewrite fn_insert_ne].
  - done.
  - by rewrite fn_insert_ne.
  - intros b Hb. destruct (decide (b = x)) as [->|]; [by rewrite !fn_insert_eq|]. rewrite !fn_insert_ne by done. by apply Hi.
  - intros b Hb. rewrite fn_insert_ne by lia. by apply Hz.
Qed.

(** ** Allocating blocks *)

Lemma next_block_ok im :
  0 <= freeblock im <= FSSIZE -> next_block im = Ok (freeblock im) (im <| freeblock := freeblock im + 1 |>).
Proof.
  intros Hf. unfold next_block. cbn. rewrite u32_small; [done|]. change FSSIZE with 2000 in Hf. lia.
Qed.
Lemma next_fresh im V :
  shows im V -> freeblock im < FSSIZE ->
  let V1 := <[sb_bmapstart sb := bitmap (freeblock im + 1)]> V in
  shows (im <| freeblock := freeblock im + 1 |>) V1 /\ fresh sb V (freeblock im) V1.
Proof.
  intros S Hlt V1. pose proof S as [Hl Hf Hm Hi Hz].
  assert (Hn : sb_bmapstart sb < nmeta /\ 0 <= nmeta) by done.
  assert (S1 : shows (im <| freeblock := freeblock im + 1 |>) V1).
  { split; cbn.
    - intros b. unfold V1. destruct (decide (b = sb_bmapstart sb)) as [->|]; [|by rewrite fn_insert_ne].
      rewrite fn_insert_eq. apply length_bitmap. lia.
    - lia.
    - apply fn_insert_eq.
    - intros b Hb. unfold V1. rewrite fn_insert_ne by done. by apply Hi.
    - intros b Hb. unfold V1. rewrite fn_insert_ne by lia. apply Hz. lia. }
  split; [done|]. change (FsBlocks.nmeta sb) with nmeta in *. split.
  - change (FsBlocks.nmeta sb) with nmeta. change (sb_size sb) with FSSIZE. lia.
  - rewrite (shows_used im) by (done || lia). by apply Z.ltb_irrefl.
  - unfold V1. rewrite fn_insert_ne by lia. by apply Hz.
  - change (FsBlocks.nmeta sb) with nmeta. intros c Hc _. unfold V1. by rewrite fn_insert_ne by lia.
  - intros c Hc. unfold V1. by rewrite fn_insert_ne by lia.
  - change (sb_size sb) with FSSIZE. intros c Hc. rewrite (shows_used _ _ _ S1), (shows_used _ _ _ S) by done. cbn.
    case_decide; [apply Z.ltb_lt; lia|]. destruct (Z.ltb_spec c (freeblock im + 1)), (Z.ltb_spec c (freeblock im)); try done; lia.
Qed.

(** The program ends normally in a state [Q] holds of, or an [assert] fails or
    it runs out of disk; it does not loop. *)
Definition safe {A} (m : M image A) (Q : A -> image -> Prop) (im : image) : Prop :=
  match m im with Ok a im' => Q a im' | Panic _ => True | _ => False end.

Lemma safe_bind {A B} (m : M image A) (k : A -> M image B) Q im :
  safe m (fun a => safe (k a) Q) im -> safe (bind m k) Q im.
Proof. unfold safe, bind. by destruct (m im). Qed.
Lemma safe_mono {A} (m : M image A) (P Q : A -> image -> Prop) im :
  safe m P im -> (forall a im', P a im' -> Q a im') -> safe m Q im.
Proof. unfold safe. destruct (m im); auto. Qed.
Lemma safe_ok {A} (m : M image A) Q im a im' : m im = Ok a im' -> Q a im' -> safe m Q im.
Proof. unfold safe. by intros ->. Qed.
Lemma safe_ret {A} (a : A) (Q : A -> image -> Prop) im : Q a im -> safe (ret a) Q im.
Proof. done. Qed.
Lemma safe_assert b (Q : unit -> image -> Prop) im : (b = true -> Q tt im) -> safe (assert_ b) Q im.
Proof. destruct b; cbn; auto. Qed.
Lemma safe_rsect sec (Q : list Z -> image -> Prop) im : (sec < FSSIZE -> Q (img im sec) im) -> safe (rsect sec) Q im.
Proof. unfold rsect. intros H. destruct (Z.ltb_spec sec FSSIZE); [by apply H|done]. Qed.
Lemma safe_wsect sec d (Q : unit -> image -> Prop) im : Q tt (im <| img := <[sec := d]> (img im) |>) -> safe (wsect sec d) Q im.
Proof. done. Qed.

(** The blocks of file [din] may grow, not its contents. *)
Record allocs (im : image) (V : disk) (din : dinode) (im' : image) (V' : disk) (din' : dinode) : Prop := {
  al_shows : shows im' V';
  al_inode : freeinode im' = freeinode im;
  al_din : din' = din <| di_addrs := di_addrs din' |>;
  al_ev : evolves sb V (di_addrs din) V' (di_addrs din');
  al_bytes : forall o, 0 <= o < MAXFILE * BSIZE -> fbyte V' (di_addrs din') o = fbyte V (di_addrs din) o;
}.

Lemma allocs_refl im V din :
  shows im V -> inode_ok sb V (di_addrs din) -> meta_used sb V -> allocs im V din im V din.
Proof. intros S O M. split; [done|done|by destruct din|by apply evolves_refl|done]. Qed.
Lemma allocs_trans im1 V1 d1 im2 V2 d2 im3 V3 d3 :
  allocs im1 V1 d1 im2 V2 d2 -> allocs im2 V2 d2 im3 V3 d3 -> allocs im1 V1 d1 im3 V3 d3.
Proof.
  intros [S1 I1 D1 E1 B1] [S2 I2 D2 E2 B2]. split; [done|congruence| |by eapply evolves_trans|].
  - rewrite D2, D1. by destruct d1.
  - intros o Ho. by rewrite B2, B1.
Qed.

(** A pointer in the inode: the block it has, or the next free one. *)
Lemma own_ok im V din bn k :
  shows im V -> inode_ok sb V (di_addrs din) -> meta_used sb V ->
  (0 <= bn < NDIRECT /\ k = bn) \/ (k = NDIRECT /\ bn = -1) ->
  safe (if di_addrs din !!! Z.to_nat k =? 0 then
          b <- next_block ;;
          ret (din <| di_addrs := <[Z.to_nat k := b]> (di_addrs din) |>)
        else ret din)
    (fun din' im' => FSSIZE <= di_addrs din' !!! Z.to_nat k \/
      di_addrs din' !!! Z.to_nat k <> 0 /\ exists V', allocs im V din im' V' din') im.
Proof.
  intros S O M Hk. destruct (Z.eqb_spec (di_addrs din !!! Z.to_nat k) 0) as [Hz|Hnz].
  2: { apply (safe_ok _ _ _ din im); [done|]. right. split; [done|]. exists V. by apply allocs_refl. }
  pose proof (sh_free _ _ S) as Hf. change nmeta with 47 in Hf.
  assert (Hn : next_block im = Ok (freeblock im) (im <| freeblock := freeblock im + 1 |>)) by (apply next_block_ok; lia).
  eapply safe_ok; [erewrite bind_ok by exact Hn; done|]. cbn.
  assert (Hlt : (Z.to_nat k < length (di_addrs din))%nat).
  { rewrite (io_len _ _ _ O), naddrs_val. unfold NDIRECT in *. lia. }
  rewrite list_lookup_total_insert_eq by done.
  destruct (decide (freeblock im = FSSIZE)) as [E|E]; [left; lia|right]. split; [lia|].
  destruct (next_fresh im V S) as [S1 Fr]; [lia|]. eexists. 
  destruct (assign_own 2 sb V _ (freeblock im) (di_addrs din) bn k mkfs_layout (sh_len _ _ S) Fr O M) as [Ev By].
  { destruct Hk as [(? & ->)|(-> & ->)]; [left|by right]. split; [done|]. split; [done|]. by rewrite blk_direct by lia. }
  by split.
Qed.

Lemma sector_of_ok im V din fbn :
  shows im V -> inode_ok sb V (di_addrs din) -> meta_used sb V -> 0 <= fbn < MAXFILE ->
  safe (sector_of din fbn) (fun '(din', x) im' => FSSIZE <= x \/
    x <> 0 /\ exists V', allocs im V din im' V' din' /\ x = blk_of V' (di_addrs din') fbn) im.
Proof.
  intros S O M Hb. unfold sector_of. destruct (Z.ltb_spec fbn NDIRECT) as [Hlt|Hge].
  { apply safe_bind. eapply safe_mono; [apply (own_ok im V din fbn fbn S O M); left; by (split; [lia|])|]. cbv beta.
    intros din' im' [Hx|(Hx & V' & A)]; [by left|right]. split; [done|]. exists V'. split; [done|].
    rewrite blk_direct by lia. done. }
  apply safe_bind. eapply safe_mono; [apply (own_ok im V din (-1) NDIRECT S O M); by right|]. cbv beta zeta.
  intros d1 im1 H1. apply safe_bind, safe_rsect. intros Hlt. destruct H1 as [?|(Hi & V1 & A1)]; [lia|].
  pose proof A1 as [S1 I1 D1 E1 B1]. pose proof (ev_ok _ _ _ _ _ E1) as O1. pose proof (ev_meta _ _ _ _ _ E1) as M1.
  fold (ind_of (di_addrs d1)) in *. fold (ind_off fbn). destruct (shows_data _ _ _ S1 (io_ind _ _ _ O1 Hi)) as [Hib Hif].
  rewrite (sh_img _ _ S1 _ Hib). set (ind := ind_of (di_addrs d1)) in *.
  assert (Eb : forall W, blk_of W (di_addrs d1) fbn = get_le 4 (ind_off fbn) (W ind)).
  { intros W. unfold blk_of. fold ind. rewrite (proj2 (Z.ltb_ge fbn NDIRECT)), (proj2 (Z.eqb_neq ind 0)) by done. done. }
  assert (Hoff : (ind_off fbn + 4 <= length (V1 ind))%nat).
  { rewrite (sh_len _ _ S1), bsize_val. unfold ind_off, NDIRECT. rewrite MAXFILE_val in Hb. lia. }
  apply safe_bind. destruct (Z.eqb_spec (get_le 4 (ind_off fbn) (V1 ind)) 0) as [Hz|Hnz].
  2: { right. split; [done|]. exists V1. by rewrite Eb. }
  pose proof (sh_free _ _ S1) as Hf. change nmeta with 47 in Hf.
  apply safe_bind. eapply safe_ok; [apply next_block_ok; lia|]. apply safe_bind, safe_wsect, safe_ret, safe_ret.
  cbv beta iota. destruct (decide (freeblock im1 = FSSIZE)) as [E|E].
  { left. by rewrite get_put_le, E. }
  right. destruct (next_fresh im1 V1 S1) as [S2 Fr]; [lia|]. set (Vf := <[sb_bmapstart sb := _]> V1) in *.
  assert (Ei : Vf ind = V1 ind) by (unfold Vf; by rewrite fn_insert_ne).
  destruct (assign_entry 2 sb V1 Vf (freeblock im1) (di_addrs d1) fbn mkfs_layout (sh_len _ _ S1) Fr O1 M1) as (E2 & X2 & B2);
    [lia|done|by rewrite Eb|].
  fold ind in E2, X2, B2. rewrite Ei in E2, X2, B2. set (V2 := <[ind := _]> Vf) in *.
  assert (Ex : get_le 4 (ind_off fbn) (put_le 4 (ind_off fbn) (freeblock im1) (V1 ind)) = blk_of V2 (di_addrs d1) fbn).
  { rewrite Eb. unfold V2. by rewrite fn_insert_eq. }
  rewrite Ex. split; [rewrite X2; lia|]. exists V2. split; [|done]. eapply allocs_trans; [exact A1|].
  split; [|done|by destruct d1|done|done]. apply (shows_insert _ _ _ _ S2); [done|cbn; lia|].
  by rewrite length_put_le; [apply (sh_len _ _ S1)|].
Qed.

(** ** Appending to a file *)

Record appends (im : image) (V : disk) (din : dinode) (off : Z) (p : list Z) (im' : image) (V' : disk) (din' : dinode)
    : Prop := {
  ap_shows : shows im' V';
  ap_inode : freeinode im' = freeinode im;
  ap_din : din' = din <| di_addrs := di_addrs din' |>;
  ap_ext : extends sb V (di_addrs din) off p (Z.of_nat (length p)) V' (di_addrs din');
}.

(** The block found or allocated, part of it is written. *)
Lemma sector_write im V din off p im1 V1 d1 m :
  allocs im V din im1 V1 d1 -> 0 <= off -> off / BSIZE < MAXFILE ->
  0 <= m <= BSIZE - off mod BSIZE -> m <= Z.of_nat (length p) ->
  let x := blk_of V1 (di_addrs d1) (off / BSIZE) in
  let d := splice (Z.to_nat (off mod BSIZE)) (take (Z.to_nat m) p) (img im1 x) in
  x <> 0 ->
  exists V2, shows (im1 <| img := <[x := d]> (img im1) |>) V2 /\
    extends sb V (di_addrs din) off p m V2 (di_addrs d1).
Proof.
  intros [S1 _ _ E1 B1] Hoff Hq Hm Hp x d Hx.
  pose proof (ev_ok _ _ _ _ _ E1) as O1. pose proof (ev_meta _ _ _ _ _ E1) as M1.
  assert (Hb : 0 <= off / BSIZE < MAXFILE) by (split; [fslia|done]).
  destruct (shows_data im1 V1 x S1) as [Hxb Hxf]; [by apply (io_blk _ _ _ O1)|].
  assert (Ed : d = splice (Z.to_nat (off mod BSIZE)) (take (Z.to_nat m) p) (V1 x)) by (unfold d; by rewrite (sh_img _ _ S1 _ Hxb)).
  destruct (write_evolves 2 sb V1 (di_addrs d1) (off / BSIZE) d mkfs_layout O1 M1 Hb Hx) as [E2 Hmap].
  fold x in E2, Hmap. exists (<[x := d]> V1). split.
  - apply shows_insert; [done|done|done|].
    rewrite Ed, length_splice; [apply (sh_len _ _ S1)|]. rewrite (sh_len _ _ S1), bsize_val, length_take. fslia.
  - split; [by eapply evolves_trans| |].
    + intros o Ho. rewrite <- (B1 o Ho), Ed. unfold x.
      apply (block_fbyte sb); try done; [apply (sh_len _ _ S1)|]. fold x. by rewrite <- Ed.
    + intros o Ho. replace (o / BSIZE) with (off / BSIZE) by fslia. rewrite Hmap by done. done.
Qed.

Lemma iappend_loop_ok fuel im V din off p :
  shows im V -> inode_ok sb V (di_addrs din) -> meta_used sb V -> 0 <= off <= MAXFILE * BSIZE ->
  (length p < fuel)%nat ->
  safe (iappend_loop fuel p off din) (fun '(din', off') im' =>
    off' = off + Z.of_nat (length p) /\ off' <= MAXFILE * BSIZE /\
    exists V', appends im V din off p im' V' din') im.
Proof.
  revert im V din off p. induction fuel as [|fuel IH]; intros im V din off p S O M Hoff Hf; [lia|].
  cbn [iappend_loop]. destruct (Nat.eqb_spec (length p) 0) as [Hz|Hnz].
  { apply safe_ret. rewrite Hz. cbn. split; [lia|]. split; [lia|]. exists V.
    split; [done|done|by destruct din|]. rewrite Hz. by apply extends_refl. }
  apply safe_bind, safe_assert. intros Hlt%Z.ltb_lt.
  assert (Hb : 0 <= off / BSIZE < MAXFILE) by (split; [fslia|done]).
  apply safe_bind. eapply safe_mono; [exact (sector_of_ok im V din _ S O M Hb)|]. intros [d1 x] im1 H1.
  apply safe_bind, safe_rsect. intros Hxr. destruct H1 as [?|(Hx & V1 & A1 & ->)]; [lia|].
  set (m := Z.min (Z.of_nat (length p)) ((off / BSIZE + 1) * BSIZE - off)).
  assert (Hm : 0 < m <= BSIZE - off mod BSIZE /\ m <= Z.of_nat (length p)) by (unfold m; fslia).
  replace (off - off / BSIZE * BSIZE) with (off mod BSIZE) by fslia.
  apply safe_bind, safe_wsect. rewrite Z2Nat.id by lia.
  assert (Hmax : off + m <= MAXFILE * BSIZE) by (rewrite MAXFILE_val in *; fslia).
  rewrite u32_small by (change (MAXFILE * BSIZE) with 274432 in Hmax; lia).
  destruct (sector_write im V din off p im1 V1 d1 m A1) as (V2 & S2 & X2); [lia|lia|lia|lia|done|].
  eapply safe_mono; [apply (IH _ V2 d1 (off + m) (drop (Z.to_nat m) p) S2); [apply X2|apply X2|lia|len]|].
  intros [d3 off3] im3 (Eo & Ho & V3 & A3). 
  assert (Hlen : Z.of_nat (length (drop (Z.to_nat m) p)) = Z.of_nat (length p) - m) by len.
  rewrite Hlen in Eo. split; [lia|]. split; [done|]. exists V3. destruct A3 as [S3 I3 D3 X3]. destruct A1 as [_ I1 D1 _ _].
  split; [done|by rewrite I3|rewrite D3, D1; by destruct din|]. rewrite Hlen in X3.
  replace (Z.of_nat (length p)) with (m + (Z.of_nat (length p) - m)) by lia.
  eapply extends_trans; [| | | |exact X2|exact X3]; lia.
Qed.

(** ** Inodes *)

Lemma splice_end {A} (xs l : list A) : splice (length l) xs l = l ++ xs.
Proof. unfold splice. rewrite take_ge, (drop_ge l) by lia. by rewrite app_nil_r. Qed.

Lemma ninodes_range inum : 0 <= inum < NINODES -> sb_inodestart sb <= IBLOCK inum sb < sb_bmapstart sb.
Proof. intros H. by apply (IBLOCK_range 2 sb mkfs_layout). Qed.

Lemma rinode_ok im V inum :
  shows im V -> 0 <= inum < NINODES -> rinode inum im = Ok (dinode_at sb V inum) im.
Proof.
  intros S Hi. pose proof (ninodes_range inum Hi) as HI. unfold rinode, rsect.
  rewrite (proj2 (Z.ltb_lt _ _)) by (change (sb_bmapstart sb) with 46 in HI; change FSSIZE with 2000; lia).
  erewrite bind_ok by done. rewrite (sh_img _ _ S) by lia. done.
Qed.
Lemma winode_ok im V inum di :
  shows im V -> 0 <= inum < NINODES -> length (di_addrs di) = naddrs ->
  exists im', winode inum di im = Ok tt im' /\ shows im' (put_dinode_at sb inum di V) /\ freeinode im' = freeinode im.
Proof.
  intros S Hi Ha. pose proof (ninodes_range inum Hi) as HI. unfold winode, rsect.
  rewrite (proj2 (Z.ltb_lt _ _)) by (change (sb_bmapstart sb) with 46 in HI; change FSSIZE with 2000; lia).
  erewrite bind_ok by done. eexists. split; [done|]. rewrite (sh_img _ _ S) by lia. split; [|done].
  pose proof (sh_free _ _ S) as Hf. apply shows_insert; [done|lia| |].
  - change (sb_bmapstart sb) with 46 in HI. change nmeta with 47 in Hf. lia.
  - rewrite length_put_dinode; [apply (sh_len _ _ S)| |done]. rewrite (sh_len _ _ S). apply dinode_off_fits.
Qed.

(** File [j] alone goes from [V] to [V'], where it is sound. *)
Record changes (V V' : disk) (j : Z) : Prop := {
  ch_wf : fs_wf sb V';
  ch_live : live sb V' j;
  ch_inodes : forall k, 0 <= k < NINODES -> k <> j -> dinode_at sb V' k = dinode_at sb V k;
  ch_files : forall k, live sb V k -> k <> j -> live sb V' k /\
    forall o, 0 <= o < MAXFILE * BSIZE -> fbyte V' (daddrs sb V' k) o = fbyte V (daddrs sb V k) o;
  ch_low : forall c, 0 <= c < sb_inodestart sb -> V' c = V c;
}.

(** Writing back the inode of a file whose blocks have changed. *)
Lemma changes_put V V1 j di :
  fs_wf sb V -> live sb V j -> (forall b, length (V1 b) = bsize) ->
  evolves sb V (daddrs sb V j) V1 (di_addrs di) ->
  0 <= di_size di <= MAXFILE * BSIZE -> filled V1 (di_addrs di) 0 (di_size di) ->
  di = dinode_at sb V j <| di_addrs := di_addrs di |> <| di_size := di_size di |> ->
  let V' := put_dinode_at sb j di V1 in
  changes V V' j /\ dinode_at sb V' j = di /\
  forall o, 0 <= o < MAXFILE * BSIZE -> fbyte V' (di_addrs di) o = fbyte V1 (di_addrs di) o.
Proof.
  intros W Hj Vl Ev Hmax Fi Ed V'.
  assert (Hin : forall k, 0 <= k < NINODES -> dinode_at sb V' k = if decide (k = j) then di else dinode_at sb V1 k).
  { intros k Hk. apply (dinode_at_put 2); [apply mkfs_layout|done|apply Hj| |done].
    rewrite Ed. split; try apply get_short_range; cbn; [|eapply (ok_words 2); [apply mkfs_layout|]|]; try apply Ev.
    change (MAXFILE * BSIZE) with 274432 in Hmax. unfold word. lia. }
  assert (Ej : dinode_at sb V' j = di) by (rewrite Hin by apply Hj; by rewrite decide_True).
  assert (A : agree sb V1 V').
  { intros b Hb. unfold V'. apply (put_dinode_at_high 2); [apply mkfs_layout|apply Hj|done]. }
  assert (Hold : forall k, 0 <= k < NINODES -> k <> j -> dinode_at sb V' k = dinode_at sb V k).
  { intros k Hk Hne. rewrite Hin, decide_False by done. unfold dinode_at.
    rewrite (ev_low _ _ _ _ _ Ev); [done|]. pose proof (ninodes_range k Hk). change (sb_inodestart sb) with 33 in *. lia. }
  assert (One : one_file sb V V' j).
  { split; [done|]. rewrite Ej. intros c Hc. destruct (ev_foreign _ _ _ _ _ Ev c Hc) as [(Hd & Hi & Hb) Ec].
    destruct (agree_data 2 sb V1 V' mkfs_layout A c Hd) as [Hd' Ec']. split; [|by rewrite Ec'].
    split; [done|]. split; [done|]. intros bn Hbn. rewrite (agree_blk 2 sb V1 V' mkfs_layout A) by apply Ev. by apply Hb. }
  destruct (one_file_wf 2 sb V V' j mkfs_layout W Hj One) as [W' Hk].
  { eapply (agree_meta 2); [apply mkfs_layout|exact A|apply Ev]. }
  { split; rewrite Ej; [eapply (agree_ok 2); [apply mkfs_layout|exact A|apply Ev]|done|].
    intros o Ho. rewrite (agree_blk 2 sb V1 V' mkfs_layout A) by apply Ev. by apply Fi. }
  split; [|split; [done|]].
  - split; try done.
    + split; [apply Hj|]. rewrite Ej, Ed. apply Hj.
    + intros k Hkl Hne. split; [by apply Hk|]. rewrite Hold by (done || apply Hkl).
      eapply (kept_fbyte sb); [apply (fw_file _ _ W k Hkl)|].
      intros c Hc. by destruct (one_file_kept 2 sb V V' j k c mkfs_layout W Hj One Hkl Hne Hc) as [[? _] ?].
    + intros c Hc. unfold V'. pose proof (ninodes_range j (proj1 Hj)). rewrite put_dinode_at_other by lia.
      apply (ev_low _ _ _ _ _ Ev). change (sb_bmapstart sb) with 46. change (sb_inodestart sb) with 33 in Hc. lia.
  - intros o. apply (agree_fbyte 2 sb); [apply mkfs_layout|done|apply Ev].
Qed.

Lemma extends_filled sb V addrs off p n V1 addrs1 :
  inode_ok sb V addrs -> filled V addrs 0 off -> off <= MAXFILE * BSIZE ->
  extends sb V addrs off p n V1 addrs1 -> filled V1 addrs1 0 (off + n).
Proof.
  intros O Hf Hoff [Ev _ Fi] o Ho. destruct (decide (o < off)); [|apply Fi; lia].
  rewrite (ev_map _ _ _ _ _ Ev); [apply Hf; lia| |apply Hf; lia]. rewrite MAXFILE_val in *. fslia.
Qed.
(** File [j] has type [type], one link, and the bytes [bs]; what its blocks
    have past its end is zero. *)
Record stores (V : disk) (j type : Z) (bs : list Z) : Prop := {
  st_live : live sb V j;
  st_type : di_type (dinode_at sb V j) = type;
  st_link : di_nlink (dinode_at sb V j) = 1;
  st_size : dsize sb V j = Z.of_nat (length bs);
  st_bytes : forall o, 0 <= o < MAXFILE * BSIZE -> fbyte V (daddrs sb V j) o = default 0 (bs !! Z.to_nat o);
}.
Lemma stores_contents V j type bs :
  Z.of_nat (length bs) <= MAXFILE * BSIZE -> stores V j type bs -> dcontents sb V j = bs.
Proof.
  intros Hm [_ _ _ Hs Hb]. unfold dcontents. rewrite Hs. apply list_eq. intros i. rewrite lookup_fbytes. case_decide.
  - rewrite Hb, Nat2Z.id by lia. by rewrite list_lookup_lookup_total_lt by lia.
  - symmetry. apply lookup_ge_None_2. lia.
Qed.
Lemma changes_stores V V' j k type bs : changes V V' j -> k <> j -> stores V k type bs -> stores V' k type bs.
Proof.
  intros C Hne [Hl Ht Hn Hs Hb]. destruct (ch_files _ _ _ C k Hl Hne) as [Hl' Hb'].
  pose proof (ch_inodes _ _ _ C k (proj1 Hl) Hne) as E. split; rewrite ?E; try done.
  intros o Ho. rewrite <- Hb by done. by rewrite <- Hb', E.
Qed.

Lemma iappend_ok im V j type bs p :
  shows im V -> fs_wf sb V -> stores V j type bs ->
  safe (iappend j p) (fun _ im' => exists V', shows im' V' /\ freeinode im' = freeinode im /\ changes V V' j /\
    stores V' j type (bs ++ p)) im.
Proof.
  intros S W [Hj Ht Hn Hsz Hb]. destruct (fw_file _ _ W j Hj) as [O Hs Hfil]. unfold iappend.
  apply safe_bind. eapply safe_ok; [by apply rinode_ok; [|apply Hj]|]. apply safe_bind.
  eapply safe_mono; [apply (iappend_loop_ok _ im V _ _ p S O (fw_meta _ _ W)); lia|].
  intros [d1 off1] im1 (-> & Hmax & V1 & [S1 I1 D1 X1]).
  set (di := d1 <| di_size := _ |>).
  assert (Es : di_size di = dsize sb V j + Z.of_nat (length p)) by done.
  destruct (changes_put V V1 j di W Hj (sh_len _ _ S1)) as (C & Ej & Eb).
  - apply X1.
  - rewrite Es. lia.
  - rewrite Es. eapply extends_filled; [exact O|done|lia|exact X1].
  - unfold di. rewrite D1. by destruct (dinode_at sb V j).
  - destruct (winode_ok im1 V1 j di S1) as (im2 & E2 & S2 & I2); [apply Hj|apply (io_len _ _ _ (ev_ok _ _ _ _ _ (ex_ev _ _ _ _ _ _ _ _ X1)))|].
    eapply safe_ok; [exact E2|]. exists (put_dinode_at sb j di V1). split; [done|]. split; [congruence|].
    split; [done|]. split; rewrite ?Ej; [apply C|unfold di; by rewrite D1|unfold di; by rewrite D1|..].
    + rewrite Es, Hsz, length_app. lia.
    + intros o Ho. rewrite Eb by done. change (di_addrs di) with (di_addrs d1). rewrite (ex_bytes _ _ _ _ _ _ _ _ X1) by done.
      rewrite Hsz in *. case_decide.
      * rewrite lookup_app_r by lia. rewrite list_lookup_lookup_total_lt by lia. cbn. f_equal. lia.
      * rewrite Hb by done. destruct (decide (o < Z.of_nat (length bs))).
        -- by rewrite lookup_app_l by lia.
        -- rewrite !lookup_ge_None_2; [done| |lia]. rewrite length_app. lia.
Qed.

(** ** A new inode *)

Notation no_addrs := (replicate naddrs 0).
Lemma blk_none V bn : blk_of V no_addrs bn = 0.
Proof.
  unfold blk_of. destruct (Z.ltb_spec bn NDIRECT); [|done].
  rewrite list_lookup_total_alt, lookup_replicate_2; [done|]. rewrite naddrs_val. unfold NDIRECT in *. lia.
Qed.
Lemma owns_none V c : ~ owns V no_addrs c.
Proof. intros [Hne [->|(bn & _ & ->)]]; [by apply Hne|]. apply Hne, blk_none. Qed.
Lemma none_ok sb V : inode_ok sb V no_addrs.
Proof. split; [done|done|..]; intros bn; intros; rewrite ?blk_none in *; done. Qed.

Lemma changes_new V j type :
  fs_wf sb V -> 0 <= j < NINODES -> di_type (dinode_at sb V j) = 0 -> (forall b, length (V b) = bsize) ->
  short type -> type <> 0 ->
  let di := mkdinode type 0 0 1 0 no_addrs in let V' := put_dinode_at sb j di V in
  changes V V' j /\ stores V' j type [].
Proof.
  intros W Hj Hdead Vl Hty Ht di V'. pose proof W as [M F Ap].
  assert (Hin : forall k, 0 <= k < NINODES -> dinode_at sb V' k = if decide (k = j) then di else dinode_at sb V k).
  { intros k Hk. apply (dinode_at_put 2); [apply mkfs_layout|done|apply Hj| |done].
    split; try done. cbn. apply Forall_replicate. done. }
  assert (Ej : dinode_at sb V' j = di) by (rewrite Hin by apply Hj; by rewrite decide_True).
  assert (Hne : forall k, 0 <= k < NINODES -> k <> j -> dinode_at sb V' k = dinode_at sb V k).
  { intros k Hk Hkj. by rewrite Hin, decide_False. }
  assert (A : agree sb V V').
  { intros b Hb. unfold V'. apply (put_dinode_at_high 2); [apply mkfs_layout|apply Hj|done]. }
  assert (Hold : forall k, live sb V' k -> k <> j -> live sb V k).
  { intros k [Hk Hl] Hkj. split; [done|]. by rewrite <- Hne. }
  assert (Hd : forall k c, live sb V k -> owns V (daddrs sb V k) c -> data sb V' c /\ V' c = V c).
  { intros k c Hk Ho. apply (agree_data 2 sb V V' mkfs_layout A). eapply owns_data; [apply (F k Hk)|done]. }
  assert (Hfile : forall k, live sb V k -> k <> j -> dfile sb V' k).
  { intros k Hk Hkj. apply (kept_dfile sb V); [by apply F|apply Hne; [apply Hk|done]|by intros c; apply Hd]. }
  assert (Hown : forall k c, live sb V' k -> owns V' (daddrs sb V' k) c -> live sb V k /\ owns V (daddrs sb V k) c).
  { intros k c Hk Ho. destruct (decide (k = j)) as [->|Hkj].
    - rewrite Ej in Ho. by apply owns_none in Ho.
    - pose proof (Hold k Hk Hkj) as Hk'. split; [done|]. rewrite Hne in Ho by (done || apply Hk).
      eapply (kept_owns sb V V'); [apply (F k Hk')|by intros c'; apply Hd|done]. }
  assert (Hl : live sb V' j) by (split; [done|by rewrite Ej]).
  split; [|split; [done|by rewrite Ej..|]]; [split|].
  - split; [by eapply (agree_meta 2 sb V); [apply mkfs_layout|..]| |].
    + intros k Hk. destruct (decide (k = j)) as [->|Hkj]; [|by apply Hfile; [apply Hold|]].
      split; rewrite Ej; [apply none_ok|done|]. intros o Ho. cbn in Ho. lia.
    + intros k1 k2 c H1 H2 O1 O2. apply Hown in O1 as [L1 O1], O2 as [L2 O2]; [|done|done]. by apply (Ap k1 k2 c).
  - done.
  - done.
  - intros k Hk Hkj. split; [split; [apply Hk|rewrite Hne; [apply Hk|apply Hk|done]]|].
    rewrite Hne by (done || apply Hk). apply (kept_fbyte sb); [apply (F k Hk)|by intros c; apply Hd].
  - intros c Hc. unfold V'. pose proof (ninodes_range j Hj). rewrite put_dinode_at_other by lia. done.
  - intros o _. unfold fbyte. rewrite Ej. cbn [di_addrs di]. by rewrite blk_none.
Qed.

Lemma ialloc_ok im V type :
  shows im V -> fs_wf sb V -> 0 <= freeinode im < NINODES -> di_type (dinode_at sb V (freeinode im)) = 0 ->
  short type -> type <> 0 ->
  exists im' V', ialloc type im = Ok (freeinode im) im' /\ shows im' V' /\ freeinode im' = freeinode im + 1 /\
    changes V V' (freeinode im) /\ stores V' (freeinode im) type [].
Proof.
  intros S W Hj Hd Hs Ht. unfold ialloc. erewrite bind_ok by done. erewrite bind_ok by done.
  rewrite u32_small by (change NINODES with 200 in Hj; lia).
  destruct (winode_ok (im <| freeinode := freeinode im + 1 |>) V (freeinode im) (mkdinode type 0 0 1 0 no_addrs)) as (im' & E & S' & I');
    [by destruct S|done|done|].
  erewrite bind_ok by exact E. eexists im', _. split; [done|]. split; [done|]. split; [done|].
  by apply changes_new; try apply (sh_len _ _ S).
Qed.

(** ** The files of the image *)

Lemma changes_refl V j : fs_wf sb V -> live sb V j -> changes V V j.
Proof. by split. Qed.
Lemma changes_trans V1 V2 V3 j : changes V1 V2 j -> changes V2 V3 j -> changes V1 V3 j.
Proof.
  intros [W1 L1 I1 F1 O1] [W2 L2 I2 F2 O2]. split; try done.
  - intros k Hk Hne. by rewrite I2, I1.
  - intros k Hk Hne. destruct (F1 k Hk Hne) as [H1 B1]. destruct (F2 k H1 Hne) as [H2 B2].
    split; [done|]. intros o Ho. by rewrite B2, B1.
  - intros c Hc. by rewrite O2, O1.
Qed.

Lemma append_all im V j type bs ps :
  shows im V -> fs_wf sb V -> stores V j type bs ->
  safe (mapM_ (iappend j) ps) (fun _ im' => exists V', shows im' V' /\ freeinode im' = freeinode im /\ changes V V' j /\
    stores V' j type (bs ++ concat ps)) im.
Proof.
  revert im V bs. induction ps as [|p ps IH]; intros im V bs S W St; cbn [mapM_ concat].
  { apply safe_ret. exists V. rewrite app_nil_r. split; [done|]. split; [done|].
    split; [|done]. apply changes_refl; [done|apply St]. }
  apply safe_bind. eapply safe_mono; [apply (iappend_ok im V j type bs p S W St)|].
  intros _ im1 (V1 & S1 & I1 & C1 & St1).
  eapply safe_mono; [apply (IH im1 V1 (bs ++ p)); [done|apply C1|done]|].
  intros _ im2 (V2 & S2 & I2 & C2 & St2). exists V2. split; [done|]. split; [congruence|].
  split; [by eapply changes_trans|]. by rewrite <- app_assoc in St2.
Qed.

(** The image holds the root directory [r] and files with contents [fcs]. *)
Record populated (V0 : disk) (im : image) (V : disk) (r : list Z) (fcs : list (list Z)) : Prop := {
  po_shows : shows im V;
  po_wf : fs_wf sb V;
  po_next : freeinode im = 2 + Z.of_nat (length fcs);
  po_dead : forall j, 0 <= j < NINODES -> j = 0 \/ freeinode im <= j -> di_type (dinode_at sb V j) = 0;
  po_root : stores V ROOTINO T_DIR r;
  po_files : forall i bs, fcs !! i = Some bs -> stores V (2 + Z.of_nat i) T_FILE bs;
  po_low : forall c, 0 <= c < sb_inodestart sb -> V c = V0 c;
}.

Lemma grow_root V0 im V r fcs p :
  populated V0 im V r fcs ->
  safe (iappend ROOTINO p) (fun _ im' => exists V', populated V0 im' V' (r ++ p) fcs) im.
Proof.
  intros [S W Nx De Ro Fi Lo]. eapply safe_mono; [apply (iappend_ok im V _ _ _ p S W Ro)|].
  intros _ im1 (V1 & S1 & I1 & C & St). exists V1. split; [done|apply C|congruence| |done| |].
  - intros j Hj Hd. rewrite I1 in Hd. rewrite (ch_inodes _ _ _ C) by (done || unfold ROOTINO; lia). by apply De.
  - intros i bs Hi. eapply changes_stores; [done| |by apply Fi]. unfold ROOTINO. lia.
  - intros c Hc. rewrite (ch_low _ _ _ C) by done. by apply Lo.
Qed.

(** The name a file of the command line gets. *)
Definition stored_name (f : list Z * list (list Z)) : list Z := skip_underscore (shortname (fst f)).

Lemma add_file_ok V0 im V r fcs f :
  populated V0 im V r fcs -> 2 + Z.of_nat (length fcs) < NINODES ->
  safe (add_file ROOTINO f) (fun _ im' => exists V',
    populated V0 im' V' (r ++ dirent (2 + Z.of_nat (length fcs)) (stored_name f)) (fcs ++ [concat (snd f)])) im.
Proof.
  intros [S W Nx De Ro Fi Lo] Hroom. unfold add_file. apply safe_bind, safe_assert. intros _.
  apply safe_bind, safe_assert. intros _. fold (stored_name f).
  destruct (ialloc_ok im V T_FILE S W) as (im1 & V1 & E1 & S1 & I1 & C1 & St1);
    [lia|apply De; [lia|by right]|done|done|].
  apply safe_bind. eapply safe_ok; [exact E1|]. rewrite Nx in *. set (j := 2 + Z.of_nat (length fcs)) in *.
  apply safe_bind. eapply safe_mono.
  { apply (iappend_ok im1 V1 ROOTINO T_DIR r (dirent j (stored_name f)) S1 (ch_wf _ _ _ C1)).
    eapply changes_stores; [exact C1| |done]. unfold ROOTINO. lia. }
  intros _ im2 (V2 & S2 & I2 & C2 & St2). eapply safe_mono.
  { apply (append_all im2 V2 j T_FILE [] (snd f) S2 (ch_wf _ _ _ C2)).
    apply (changes_stores _ _ _ _ _ _ C2); [unfold ROOTINO; lia|done]. }
  intros _ im3 (V3 & S3 & I3 & C3 & St3). exists V3. split; [done|apply C3| | | | |].
  - rewrite I3, I2, I1, length_app. cbn. lia.
  - intros k Hk Hd. rewrite I3, I2, I1 in Hd.
    rewrite (ch_inodes _ _ _ C3), (ch_inodes _ _ _ C2), (ch_inodes _ _ _ C1) by (done || unfold ROOTINO; lia).
    apply De; [done|]. lia.
  - eapply changes_stores; [exact C3|unfold ROOTINO; lia|done].
  - intros i bs Hi. destruct (decide (i < length fcs)%nat) as [Hlt|Hge].
    + rewrite lookup_app_l in Hi by done.
      apply (changes_stores _ _ _ _ _ _ C3); [lia|]. apply (changes_stores _ _ _ _ _ _ C2); [unfold ROOTINO; lia|].
      apply (changes_stores _ _ _ _ _ _ C1); [lia|by apply Fi].
    + rewrite lookup_app_r in Hi by lia. apply list_lookup_singleton_Some in Hi as [Hi <-].
      by replace (2 + Z.of_nat i) with j by lia.
  - intros c Hc. by rewrite (ch_low _ _ _ C3), (ch_low _ _ _ C2), (ch_low _ _ _ C1), Lo.
Qed.

(** The entries of the root directory for the files from inode [j] on. *)
Fixpoint entries (j : Z) (files : list (list Z * list (list Z))) : list Z :=
  match files with
  | [] => []
  | f :: l => dirent j (stored_name f) ++ entries (j + 1) l
  end.

Lemma add_files_ok V0 im V r fcs files :
  populated V0 im V r fcs -> 2 + Z.of_nat (length fcs + length files) <= NINODES ->
  safe (mapM_ (add_file ROOTINO) files) (fun _ im' => exists V',
    populated V0 im' V' (r ++ entries (2 + Z.of_nat (length fcs)) files) (fcs ++ ((fun f => concat (snd f)) <$> files))) im.
Proof.
  revert im V r fcs. induction files as [|f files IH]; intros im V r fcs P Hroom; cbn [mapM_ entries fmap list_fmap].
  { apply safe_ret. exists V. by rewrite !app_nil_r. }
  cbn [length] in Hroom.
  apply safe_bind. eapply safe_mono; [apply (add_file_ok V0 im V r fcs f P); lia|]. intros _ im1 (V1 & P1).
  eapply safe_mono; [apply (IH _ _ _ _ P1); rewrite length_app; cbn; lia|]. intros _ im2 (V2 & P2). exists V2.
  rewrite <- !app_assoc, length_app in P2. cbn [length] in P2.
  by replace (2 + Z.of_nat (length fcs + 1)) with (2 + Z.of_nat (length fcs) + 1) in P2 by lia.
Qed.

(** ** The program *)

(** Disks with the same blocks. *)
Lemma stores_ext V V' j type bs : (forall b, V' b = V b) -> stores V j type bs -> stores V' j type bs.
Proof.
  intros E [Hl Ht Hn Hs Hb].
  assert (Ej : dinode_at sb V' j = dinode_at sb V j) by (unfold dinode_at; by rewrite E).
  split; rewrite ?Ej; try done; [split; [apply Hl|rewrite Ej; apply Hl]|].
  intros o Ho. rewrite <- Hb by done. unfold fbyte, blk_of. by rewrite !E.
Qed.

Lemma erase l im :
  (forall b, img im b = zero_block) ->
  exists im', mapM_ (fun i => wsect i zero_block) l im = Ok tt im' /\ (forall b, img im' b = zero_block) /\
    freeinode im' = freeinode im /\ freeblock im' = freeblock im.
Proof.
  revert im. induction l as [|i l IH]; intros im Hz; cbn [mapM_]; [by eexists|].
  erewrite bind_ok by done. destruct (IH (im <| img := <[i := zero_block]> (img im) |>)) as (im' & E & H); [|by exists im'].
  intros b. cbn. destruct (decide (b = i)) as [->|]; [by rewrite fn_insert_eq|by rewrite fn_insert_ne].
Qed.

Definition sb_block : list Z := splice 0
    (le_enc 4 (sb_magic sb) ++ le_enc 4 (sb_size sb) ++ le_enc 4 (sb_nblocks sb) ++ le_enc 4 (sb_ninodes sb) ++
     le_enc 4 (sb_nlog sb) ++ le_enc 4 (sb_logstart sb) ++ le_enc 4 (sb_inodestart sb) ++
     le_enc 4 (sb_bmapstart sb)) zero_block.
(** The disk before the first file. *)
Definition bare : disk := <[sb_bmapstart sb := bitmap nmeta]> (<[1 := sb_block]> (fun _ => zero_block)).

Lemma bare_dead j : 0 <= j < NINODES -> di_type (dinode_at sb bare j) = 0.
Proof.
  intros Hj. pose proof (ninodes_range j Hj) as HI. change (sb_inodestart sb) with 33 in HI.
  unfold dinode_at, bare. rewrite !fn_insert_ne by lia. unfold get_dinode, get_short. cbn [di_type].
  assert (E : get_le 2 (dinode_off j) zero_block = 0); [|by rewrite E].
  pose proof (dinode_off_fits j) as Hf. unfold zero_block. generalize dependent (dinode_off j). intros o Ho.
  unfold get_le. rewrite drop_replicate, take_replicate. replace (2 `min` (bsize - o))%nat with 2%nat by lia. done.
Qed.
Lemma bare_shows im :
  freeblock im = nmeta -> (forall b, img im b = (<[1 := sb_block]> (fun _ => zero_block)) b) -> shows im bare.
Proof.
  intros Hf Hi. split.
  - intros b. unfold bare. destruct (decide (b = sb_bmapstart sb)) as [->|]; [rewrite fn_insert_eq; by apply length_bitmap|].
    rewrite fn_insert_ne by done. destruct (decide (b = 1)) as [->|]; [by rewrite fn_insert_eq|by rewrite fn_insert_ne].
  - by rewrite Hf.
  - rewrite Hf. apply fn_insert_eq.
  - intros b Hb. rewrite Hi. unfold bare. by rewrite (fn_insert_ne _ (sb_bmapstart sb)).
  - intros b Hb. rewrite Hf in Hb. change nmeta with 47 in Hb. unfold bare. rewrite !fn_insert_ne; [done|lia|].
    change (sb_bmapstart sb) with 46. lia.
Qed.
Lemma bare_wf im : shows im bare -> fs_wf sb bare.
Proof.
  intros S. assert (Hno : forall j, ~ live sb bare j).
  { intros j [Hj Ht]. by apply Ht, bare_dead. }
  split; [|by intros j ?%Hno|by intros j k c ?%Hno].
  intros c Hc. change (FsBlocks.nmeta sb) with 47 in Hc. rewrite (shows_used im) by (done || change FSSIZE with 2000; lia).
  apply Z.ltb_lt. pose proof (sh_free _ _ S) as Hf. change nmeta with 47 in Hf. lia.
Qed.

(** The size of the root directory becomes the next multiple of [BSIZE]. *)
Definition round_up (n : Z) : Z := (n / BSIZE + 1) * BSIZE.
Definition padded (r : list Z) : list Z := r ++ replicate (Z.to_nat (round_up (Z.of_nat (length r))) - length r) 0.

Lemma round_root V0 im V r fcs :
  populated V0 im V r fcs -> Z.of_nat (length r) mod BSIZE <> 0 ->
  exists im' V', rinode ROOTINO im = Ok (dinode_at sb V ROOTINO) im /\
    winode ROOTINO (dinode_at sb V ROOTINO <| di_size := u32 (round_up (dsize sb V ROOTINO)) |>) im = Ok tt im' /\
    populated V0 im' V' (padded r) fcs.
Proof.
  intros [S W Nx De Ro Fi Lo] Hr. pose proof Ro as [Hj Ht Hn Hsz Hb].
  destruct (fw_file _ _ W ROOTINO Hj) as [O Hs Hfil].
  set (di := _ <| di_size := _ |>).
  assert (Hru : dsize sb V ROOTINO <= round_up (dsize sb V ROOTINO) <= MAXFILE * BSIZE).
  { rewrite Hsz in *. rewrite MAXFILE_val in *. unfold round_up. fslia. }
  assert (Es : di_size di = round_up (Z.of_nat (length r))).
  { rewrite <- Hsz. change (di_size di) with (u32 (round_up (dsize sb V ROOTINO))). apply u32_small.
    change (MAXFILE * BSIZE) with 274432 in Hru. lia. }
  rewrite Hsz in Hru. destruct (changes_put V V ROOTINO di W Hj (sh_len _ _ S)) as (C & Ej & Eb).
  - apply evolves_refl; [done|apply W].
  - rewrite Es. lia.
  - rewrite Es. intros o Ho. change (di_addrs di) with (daddrs sb V ROOTINO).
    destruct (decide (o < Z.of_nat (length r))); [apply Hfil; lia|].
    replace (o / BSIZE) with ((Z.of_nat (length r) - 1) / BSIZE) by (unfold round_up in Ho; fslia). apply Hfil. rewrite Hsz. fslia.
  - unfold di. by destruct (dinode_at sb V ROOTINO).
  - destruct (winode_ok im V ROOTINO di S) as (im1 & E1 & S1 & I1); [apply Hj|apply O|].
    eexists im1, _. split; [apply rinode_ok; [done|apply Hj]|]. split; [exact E1|].
    split; [done|apply C|congruence| | | |].
    + intros j Hj' Hd. rewrite I1 in Hd. rewrite (ch_inodes _ _ _ C) by (done || unfold ROOTINO; lia). by apply De.
    + split; rewrite ?Ej; [apply C|done|done| |].
      * rewrite Es. unfold padded. rewrite length_app, length_replicate. lia.
      * intros o Ho. rewrite Eb by done. change (di_addrs di) with (daddrs sb V ROOTINO). rewrite Hb by done. unfold padded.
        destruct (decide (o < Z.of_nat (length r))); [by rewrite lookup_app_l by lia|].
        rewrite lookup_app_r, (lookup_ge_None_2 r) by lia. cbn.
        destruct (replicate _ 0 !! _) as [x|] eqn:E; [|done]. by apply lookup_replicate in E as [-> _].
    + intros i bs Hi. eapply changes_stores; [done| |by apply Fi]. unfold ROOTINO. lia.
    + intros c Hc. rewrite (ch_low _ _ _ C) by done. by apply Lo.
Qed.

(** The root directory: itself, its parent, which it is too, and the files. *)
Definition root_dir (files : list (list Z * list (list Z))) : list Z :=
  dirent ROOTINO [46] ++ dirent ROOTINO [46; 46] ++ entries 2 files.
Lemma length_dirent j name : length (dirent j name) = 16%nat.
Proof. unfold dirent, mkdirent. rewrite length_app, length_le_enc, length_strncpy. done. Qed.
Lemma length_root_dir files : Z.of_nat (length (root_dir files)) = 16 * (Z.of_nat (length files) + 2).
Proof.
  unfold root_dir. rewrite !length_app, !length_dirent.
  assert (H : forall j, length (entries j files) = (16 * length files)%nat); [|rewrite H; lia].
  induction files as [|f l IH]; intros j; cbn [entries]; [done|]. rewrite length_app, length_dirent, IH. cbn [length]. lia.
Qed.

(** What the kernel finds on the disk. *)
Record formatted (files : list (list Z * list (list Z))) (V : disk) : Prop := {
  fm_len : forall b, length (V b) = bsize;
  fm_sb : dec_sb (V 1) = sb;
  fm_log : hb_n (V (sb_logstart sb)) = 0;
  fm_wf : fs_wf sb V;
  fm_root : stores V ROOTINO T_DIR (padded (root_dir files));
  fm_files : forall i f, files !! i = Some f -> stores V (2 + Z.of_nat i) T_FILE (concat (snd f));
  fm_free : forall j, 0 <= j < NINODES -> j = 0 \/ 2 + Z.of_nat (length files) <= j -> di_type (dinode_at sb V j) = 0;
}.

Lemma populated_formatted im V files :
  populated bare im V (padded (root_dir files)) ((fun f => concat (snd f)) <$> files) ->
  safe (balloc (freeblock im)) (fun _ im' => formatted files (img im')) im.
Proof.
  intros [S W Nx De Ro Fi Lo]. unfold balloc. apply safe_bind, safe_assert. intros _. apply safe_wsect.
  set (im' := im <| img := _ |>).
  assert (E : forall b, img im' b = V b).
  { intros b. change (img im' b) with ((<[sb_bmapstart sb := bitmap (freeblock im)]> (img im)) b).
    destruct (decide (b = sb_bmapstart sb)) as [->|]; [rewrite fn_insert_eq; symmetry; apply S|].
    rewrite fn_insert_ne by done. by apply S. }
  split.
  - intros b. rewrite E. apply S.
  - rewrite E, Lo by done. vm_compute. reflexivity.
  - rewrite E, Lo by done. vm_compute. reflexivity.
  - apply (same_wf 2 sb V); [apply mkfs_layout|by intros b _|done].
  - by eapply stores_ext.
  - intros i f Hf. eapply stores_ext; [done|]. apply Fi. by rewrite list_lookup_fmap, Hf.
  - intros j Hj Hd. unfold dinode_at. rewrite E. apply De; [done|]. rewrite Nx, length_fmap. done.
Qed.

Lemma main_ok files :
  Z.of_nat (length files) + 2 <= NINODES -> (Z.of_nat (length files) + 2) mod 64 <> 0 ->
  safe (main files) (fun _ im => formatted files (img im)) blank.
Proof.
  intros Hn H64.  unfold main. apply safe_bind. eapply safe_ok; [done|].
  destruct (erase (seqZ 0 FSSIZE) (blank <| freeblock := nmeta |>)) as (im1 & E1 & Z1 & I1 & F1); [done|].
  apply safe_bind. eapply safe_ok; [exact E1|]. apply safe_bind, safe_wsect. fold sb_block.
  set (im2 := im1 <| img := _ |>).
  assert (S2 : shows im2 bare).
  { apply bare_shows; [done|]. intros b. change (img im2 b) with ((<[1 := sb_block]> (img im1)) b).
    destruct (decide (b = 1)) as [->|]; [by rewrite !fn_insert_eq|by rewrite !fn_insert_ne]. }
  change (freeinode (blank <| freeblock := nmeta |>)) with 1 in I1.
  assert (I2 : freeinode im2 = 1) by done.
  destruct (ialloc_ok im2 bare T_DIR S2 (bare_wf _ S2)) as (im3 & V3 & E3 & S3 & I3 & C3 & St3); rewrite ?I2 in *;
    [done|by apply bare_dead|done|done|].
  apply safe_bind. eapply safe_ok; [exact E3|]. apply safe_bind, safe_assert. intros _.
  assert (P : populated bare im3 V3 [] []).
  { split; [done|apply C3|done| |done|by intros i bs ?|apply C3].
    intros j Hj Hd. rewrite (ch_inodes _ _ _ C3) by (done || lia). by apply bare_dead. }
  apply safe_bind. eapply safe_mono; [apply (grow_root _ _ _ _ _ _ P)|]. intros _ im4 (V4 & P4).
  apply safe_bind. eapply safe_mono; [apply (grow_root _ _ _ _ _ _ P4)|]. intros _ im5 (V5 & P5).
  apply safe_bind. eapply safe_mono; [apply (add_files_ok _ _ _ _ _ _ P5); cbn [length]; lia|]. intros _ im6 (V6 & P6).
  rewrite !app_nil_l, <- app_assoc in P6.
  change (populated bare im6 V6 (root_dir files) ((fun f => concat (snd f)) <$> files)) in P6.
  destruct (round_root _ _ _ _ _ P6) as (im7 & V7 & E7 & E8 & P7).
  { rewrite length_root_dir. fslia. }
  apply safe_bind. eapply safe_ok; [exact E7|]. apply safe_bind. eapply safe_ok; [exact E8|].
  apply safe_bind. eapply safe_ok; [done|]. by apply (populated_formatted _ V7).
Qed.
Lemma mkfs_main files : mkfs files = main files blank.
Proof. reflexivity. Qed.
Lemma safe_match {A} (m : M image A) (Q : A -> image -> Prop) im :
  safe m Q im -> match m im with Ok a im' => Q a im' | Panic _ => True | _ => False end.
Proof. done. Qed.

(** C7: the image.  Given files that fit the inodes, and not filling the
    blocks of the root directory exactly, [mkfs] either stops at an assertion
    or at the end of the disk, or leaves a formatted disk: the superblock the
    kernel expects, an empty log, a free map in which every block in use is marked,
    inodes sound and sharing no block, the root directory with an entry for
    itself, its parent and every file, and every file with the contents given.
    It always terminates. *)
Theorem mkfs_spec files :
  Z.of_nat (length files) + 2 <= NINODES -> (Z.of_nat (length files) + 2) mod 64 <> 0 ->
  match mkfs files with
  | Ok _ im => formatted files (img im)
  | Panic _ => True
  | _ => False
  end.
Proof.
  intros Hn H64. rewrite mkfs_main. exact (safe_match _ _ _ (main_ok files Hn H64)).
Qed.

(** ** The theorem on a concrete image

    An image made from one file, [README], of two bytes. *)
Definition demo_files : list (list Z * list (list Z)) := [([82; 69; 65; 68; 77; 69], [[104; 105]])].
Definition demo_im : image := match mkfs demo_files with Ok _ im => im | _ => blank end.

Lemma demo_mkfs : mkfs demo_files = Ok tt demo_im.
Proof.
  assert (H : match mkfs demo_files with Ok _ _ => true | _ => false end = true) by (vm_compute; reflexivity).
  unfold demo_im. destruct (mkfs demo_files) as [[] im| | | |]; [reflexivity|discriminate H..].
Qed.

Lemma mkfs_spec_witness : exists im, mkfs demo_files = Ok tt im /\ formatted demo_files (img im).
Proof.
  pose proof (mkfs_spec demo_files) as H. exists demo_im. split; [exact demo_mkfs|].
  rewrite demo_mkfs in H. apply H; [by apply Z.leb_le|by vm_compute].
Defined.

#[global] Opaque demo_im.
End MkfsSpec.
