(* ===== verification/FsMount.v ===== *)
(** * Mounting a file system

    [fsinit] of [kernel/fs.c]: the superblock is read, the log recovered and
    the inodes scanned.  What a crash or [mkfs] left on the disk becomes a
    file system the operations of [FsOp] can work on. *)

From stdpp Require Import base numbers strings decidable sets gmap functions gmultiset list.
From S2P Require Import Prelude.
From S2P Require Import CString.
From S2P Require Import Riscv.
From S2P Require Import Sched.
From S2P Require Import Kalloc.
From S2P Require Import Vm.
From S2P Require Import Uvm.
From S2P Require Import UserByte.
From S2P Require Import Sleeplock.
From S2P Require Import Bio.
From S2P Require Import Log.
From S2P Require Import LogOps.
From S2P Require Import LogCrash.
From S2P Require Import Fs.
From S2P Require Import Transfer.
From S2P Require Import Txn.
From S2P Require Import FsBlocks.
From S2P Require Import FsFile.
From S2P Require Import FsInode.
From S2P Require Import FsData.
From S2P Require Import FsWrite.
From S2P Require Import FsDisk.
From S2P Require Import FsOp.
From S2P Require Import ITable.
From S2P Require Import FsTrunc.
From S2P Require Import FsRemove.
From S2P Require Import Mkfs.
From S2P Require Import MkfsSpec.
Open Scope Z_scope.
Open Scope xv6_scope.

Lemma readsb_ok d pid s :
  booted d pid (fs_log s) ->
  exists s', readsb ROOTDEV s = Ok tt s' /\ booted d pid (fs_log s') /\ sb s' = dec_sb (d 1) /\
    itable s' = itable s /\ lg (fs_log s') = lg (fs_log s) /\ mm_woke (fmm s) (fmm s') /\ drive s' = drive s.
Proof.
  intros [I D R Hl]. unfold readsb.
  destruct (bread_ok (lg_blk (fs_log s)) (fresh_cache d) pid 1) as (i & b1 & E1 & O1 & H1); try done.
  { right. apply room_fresh. }
  erewrite bind_ok by (apply lift_ok; exact E1). set (s1 := inj b1 s).
  destruct (get_data_ok b1 (c_take pid 1 (fresh_cache d)) i 1) as (x & Ex & Hx & _); [apply O1|done|].
  assert (E2 : buf_data i s1 = Ok (d 1) s1).
  { unfold buf_data. erewrite bind_ok by (apply lift_read; exact Ex). by rewrite Hx. }
  erewrite bind_ok by exact E2. erewrite bind_ok by done. set (s2 := s1 <| sb := dec_sb (d 1) |>).
  destruct (brelse_ok b1 (c_take pid 1 (fresh_cache d)) i 1 pid) as (b3 & E3 & O3 & _); try done.
  - apply O1.
  - by eapply bop_running.
  - intros _. rewrite (bo_dsk _ _ _ _ _ O1). cbn. by rewrite D.
  - exists (inj b3 s2). split; [by apply lift_ok|]. split; [|split_and!; try done].
    + split; [| | |done].
      * assert (Eq : c_drop 1 (c_take pid 1 (fresh_cache d)) ≡ fresh_cache d).
        { intros b. cbn [c_drop c_take av ar al fresh_cache]. unfold insert, fn_insert. by destruct (decide (1 = b)). }
        cbn. rewrite <- Eq. apply O3.
      * cbn. rewrite (bo_dsk _ _ _ _ _ O3), (bo_dsk _ _ _ _ _ O1). done.
      * cbn. eapply bop_running; [exact O3|]. by eapply bop_running.
    + cbn. eapply mm_woke_trans; [apply O1|apply O3].
    + unfold drive. cbn. rewrite (bo_dsk _ _ _ _ _ O3), (bo_dsk _ _ _ _ _ O1), (bo_trace _ _ _ _ _ O3), (bo_trace _ _ _ _ _ O1).
      by rewrite !app_nil_r.
Qed.

(** Up to the scan of the inodes: the log is recovered, by the writes [w]. *)
Lemma fsinit_log_ok start d H pid s :
  booted d pid (fs_log s) -> ops s = (0, 0) ->
  let sbk := dec_sb (d 1) in
  sb_magic sbk = FSMAGIC -> sb_logstart sbk = start -> layout start sbk -> recovers_to start d H ->
  exists s' V w, fsinit ROOTDEV s = ireclaim ROOTDEV s' /\ idle start pid s' V /\ sb s' = sbk /\ itable s' = itable s /\
    mm_woke (fmm s) (fmm s') /\ same_fs sbk H V /\ drive s' = (apply_writes d w, (drive s).2 ++ w) /\
    forall k d', recovered start (apply_writes d (take k w)) d' -> same_fs sbk H d'.
Proof.
  intros B Ho sbk Hmag Hst L Rt. unfold fsinit.
  destruct (readsb_ok d pid s B) as (s1 & E1 & B1 & Sb1 & It1 & Lg1 & Mm1 & Dr1).
  erewrite bind_ok by exact E1. erewrite bind_ok by done. rewrite Sb1. fold sbk. rewrite Hmag, Z.eqb_refl. cbn [negb].
  assert (Hs : 0 <= start /\ start + LOGBLOCKS < 2 ^ 31).
  { pose proof (nmeta_bmap start sbk L). destruct L as [? ? ? ? ? ? ?]. unfold LOGBLOCKS, MAXOPBLOCKS in *. fslia. }
  rewrite Hst. destruct (initlog_ok start Hs d H pid (fs_log s1) B1 Rt) as (b2 & g & A & E2 & O2 & Q2 & N2 & K2 & Z2 & Ot2 & Cm2).
  erewrite bind_ok by (apply lift_ok; exact E2). set (s2 := inj (mklstate b2 g) s1).
  assert (Ed : forall b, av A b = apply_writes d (recover_writes start d) b).
  { intros b. rewrite <- (quiet_clean b2 A [] b); [|apply O2|done|set_solver]. by rewrite (br_dsk _ _ _ _ O2), (bt_dsk _ _ _ B1). }
  exists s2, (av A), (recover_writes start d). split; [done|]. split; [|split; [done|split; [done|split; [|split; [|split]]]]].
  - split.
    + apply log_inv_tx. split; [done|done|apply good_nil|by apply logged_nil|done].
    + unfold ops in *. cbn. rewrite Ot2, Cm2, Lg1. done.
    + rewrite Ed. unfold recover_writes. rewrite apply_writes_app. simpl. rewrite fn_insert_eq.
      apply (hdr_spec []); [done|apply Rt|constructor].
  - eapply mm_woke_trans; [exact Mm1|apply O2].
  - intros b Hb. rewrite Ed. apply Rt. by eapply home_high.
  - unfold drive in *. cbn. injection Dr1 as _ Dt. by rewrite (br_dsk _ _ _ _ O2), (br_trace _ _ _ _ O2), (bt_dsk _ _ _ B1), Dt.
  - intros k d' Rc b Hb. eapply (recovered_to start d H); [done|done| |by eapply home_high].
    eapply recovered_crash; [exact B1|exact E2|apply O2|exact Rc].
Qed.

(** C8: mounting.  On any disk [d] that recovers to a sound file system [H]
    whose superblock is right, [fsinit] succeeds: the log is empty, no
    operation is under way, and the file system is [H] without its orphans,
    the inodes in use that no directory names, whose blocks are free again;
    every other file is in place with its contents.  A crash after any of the
    disk writes [w] leaves a disk that recovers to [H] with the first of the
    inodes scanned. *)
Theorem fsinit_mounts start d H pid s :
  booted d pid (fs_log s) -> ops s = (0, 0) -> unreferenced (itable s) ->
  let sbk := dec_sb (d 1) in let inums := seqZ 1 (sb_ninodes sbk - 1) in
  sb_magic sbk = FSMAGIC -> sb_logstart sbk = start -> layout start sbk -> Z.of_nat (nbitmap sbk) <= MAXOPBLOCKS ->
  recovers_to start d H -> fs_wf sbk H ->
  exists s' V w, fsinit ROOTDEV s = Ok tt s' /\ booting start pid s' V /\ sb s' = sbk /\ swept sbk H inums V /\
    drive s' = (apply_writes d w, (drive s).2 ++ w) /\
    forall k d', recovered start (apply_writes d (take k w)) d' -> exists m, swept sbk H (take m inums) d'.
Proof.
  intros B Ho U sbk inums Hmag Hst L Hm Rt Wf.
  destruct (fsinit_log_ok start d H pid s B Ho Hmag Hst L Rt) as (s1 & V1 & w1 & E1 & Id1 & Sb1 & It1 & Mm1 & Sm & Dr1 & Cr1).
  fold sbk in Sb1, Sm, Cr1. assert (Sw0 : swept sbk H [] V1) by (by eapply swept_same, Sm; [|apply swept_nil]).
  rewrite E1. unfold ireclaim. erewrite bind_ok by done.
  destruct (ireclaim_loop start pid s1 V1 H [] inums) as (s2 & V2 & w2 & E2 & [B2 Sb2 Mm2 Dr2] & Sw2 & Cr2); rewrite ?Sb1; try done.
  { split; rewrite ?Sb1, ?It1; try done. by eapply same_wf. }
  { apply Forall_forall. intros j Hj. apply elem_of_seqZ in Hj. lia. }
  rewrite Sb1 in *. exists s2, V2, (w1 ++ w2). split; [done|]. split; [done|]. split; [done|]. split; [done|].
  rewrite Dr1 in Dr2, Cr2. cbn in Dr2, Cr2. split; [by rewrite Dr2, apply_writes_app, app_assoc|].
  intros k d' Rc. rewrite take_app in Rc. destruct (decide (k <= length w1)%nat) as [Hk|Hk].
  - rewrite (proj2 (Nat.sub_0_le _ _) Hk), take_0, app_nil_r in Rc. exists 0%nat. rewrite take_0.
    eapply swept_same; [done|by apply swept_nil|by eapply Cr1].
  - rewrite (take_ge w1), apply_writes_app in Rc by lia. by eapply Cr2.
Qed.

(** Without orphans the scan changes nothing. *)
Definition no_orphans (sb : superblock) (V : disk) : Prop := forall j, 0 <= j < sb_ninodes sb -> orphan sb V j = false.

Lemma ireclaim_skip start pid s V l :
  idle start pid s V -> Forall (fun j => 0 <= j < sb_ninodes (sb s)) l -> no_orphans (sb s) V ->
  exists s', mapM_ (ireclaim_one ROOTDEV) l s = Ok tt s' /\ idle start pid s' V /\ fstep s s'.
Proof.
  revert s. induction l as [|j l IH]; intros s Id Hl No; cbn [mapM_]; [by exists s|].
  apply Forall_cons in Hl as [Hj Hl].
  destruct (ireclaim_one_skip start pid s V j Id (No j Hj)) as (s1 & E1 & Id1 & F1). erewrite bind_ok by exact E1.
  destruct (IH s1 Id1) as (s2 & E2 & Id2 & F2); rewrite ?(fs_sb _ _ F1); try done.
  exists s2. split; [done|]. split; [done|]. by eapply fstep_trans.
Qed.
Lemma fsinit_clean start d H pid s :
  booted d pid (fs_log s) -> ops s = (0, 0) ->
  let sbk := dec_sb (d 1) in
  sb_magic sbk = FSMAGIC -> sb_logstart sbk = start -> layout start sbk ->
  recovers_to start d H -> no_orphans sbk H ->
  exists s' V, fsinit ROOTDEV s = Ok tt s' /\ idle start pid s' V /\ sb s' = sbk /\ itable s' = itable s /\
    mm_woke (fmm s) (fmm s') /\ same_fs sbk H V.
Proof.
  intros B Ho sbk Hmag Hst L Rt No.
  destruct (fsinit_log_ok start d H pid s B Ho Hmag Hst L Rt) as (s1 & V1 & w1 & E1 & Id1 & Sb1 & It1 & Mm1 & Sm & _).
  fold sbk in Sb1, Sm. rewrite E1. unfold ireclaim. erewrite bind_ok by done.
  destruct (ireclaim_skip start pid s1 V1 (seqZ 1 (sb_ninodes (sb s1) - 1)) Id1) as (s2 & E2 & Id2 & [Sb2 It2 Mm2 _ _]).
  { apply Forall_forall. intros j Hj. apply elem_of_seqZ in Hj. lia. }
  { rewrite Sb1. intros j Hj. unfold orphan. rewrite (same_dinode start sbk H V1 L Sm j Hj). by apply No. }
  exists s2, V1. split; [done|]. split; [done|]. split; [congruence|]. split; [congruence|]. split; [by eapply mm_woke_trans|done].
Qed.

(** a disk without the magic number is refused. *)
Theorem fsinit_refuses d pid s :
  booted d pid (fs_log s) -> sb_magic (dec_sb (d 1)) <> FSMAGIC ->
  fsinit ROOTDEV s = Panic "invalid file system".
Proof.
  intros B Hm. unfold fsinit. destruct (readsb_ok d pid s B) as (s1 & E1 & _ & Sb1 & _).
  erewrite bind_ok by exact E1. erewrite bind_ok by done. rewrite Sb1. by rewrite (proj2 (Z.eqb_neq _ _) Hm).
Qed.

(** ** A formatted disk *)

Section formatted.
Import MkfsSpec.

Lemma stores_same V V' j type bs : same_fs Mkfs.sb V V' -> fs_wf Mkfs.sb V -> stores V j type bs -> stores V' j type bs.
Proof.
  intros Sm Wf [Hl Ht Hn Hs Hb]. pose proof (same_dinode 2 Mkfs.sb V V' mkfs_layout Sm j (proj1 Hl)) as E.
  split; rewrite ?E; try done; [by eapply same_live; [apply mkfs_layout|..]|].
  intros o Ho. rewrite <- Hb by done. apply (agree_fbyte 2 Mkfs.sb); [apply mkfs_layout| |by apply Wf|done].
  eapply same_agree; [apply mkfs_layout|done].
Qed.

Lemma formatted_no_orphans files V : formatted files V -> no_orphans Mkfs.sb V.
Proof.
  intros [_ _ _ _ Ro Fi Fr] j Hj. unfold orphan.
  destruct (Z.eqb_spec (di_type (dinode_at Mkfs.sb V j)) 0) as [|Ht]; [done|]. apply Z.eqb_neq.
  destruct (decide (j = 0 \/ 2 + Z.of_nat (length files) <= j)) as [Hd|Hd]; [by destruct Ht; apply Fr|].
  destruct (decide (j = ROOTINO)) as [->|Hne]; [by rewrite (st_link _ _ _ _ Ro)|].
  destruct (lookup_lt_is_Some_2 files (Z.to_nat (j - 2))) as [f Hf]; [unfold ROOTINO in Hne; lia|].
  specialize (Fi _ _ Hf). replace (2 + Z.of_nat (Z.to_nat (j - 2))) with j in Fi by (unfold ROOTINO in Hne; lia).
  by rewrite (st_link _ _ _ _ Fi).
Qed.

Lemma mount_ok files d pid s :
  formatted files d -> booted d pid (fs_log s) -> ops s = (0, 0) ->
  exists s' V, fsinit ROOTDEV s = Ok tt s' /\ idle 2 pid s' V /\ sb s' = Mkfs.sb /\ itable s' = itable s /\
    mm_woke (fmm s) (fmm s') /\ same_fs Mkfs.sb d V /\ fs_wf Mkfs.sb V /\
    stores V ROOTINO T_DIR (padded (root_dir files)) /\
    forall i f, files !! i = Some f -> stores V (2 + Z.of_nat i) T_FILE (concat (snd f)).
Proof.
  intros Fm B Ho. pose proof Fm as [Hlen Hsb Hlog Wf Ro Fi Fr].
  destruct (fsinit_clean 2 d d pid s B Ho) as (s' & V & E & Id & Sb & It & Mm & Sm); rewrite ?Hsb in *; try done.
  - apply recovers_to_empty; [apply (bi_len _ _ (bt_inv _ _ _ B))|exact Hlog|done].
  - by eapply formatted_no_orphans.
  - exists s', V. split_and!; try done; [by eapply same_wf; [apply mkfs_layout|..]|by eapply stores_same|].
    intros i f Hf. eapply stores_same; [done|done|by apply Fi].
Qed.

(** what [mkfs] makes the kernel mounts.  [fsinit], on a machine booted
    with the image, succeeds: the root directory and every file the image was
    made from are there, with their contents. *)
Theorem mkfs_mounts files im pid s :
  Z.of_nat (length files) + 2 <= Mkfs.NINODES -> (Z.of_nat (length files) + 2) mod 64 <> 0 ->
  Mkfs.mkfs files = Ok tt im -> booted (Mkfs.img im) pid (fs_log s) -> ops s = (0, 0) ->
  exists s' V, fsinit ROOTDEV s = Ok tt s' /\ idle 2 pid s' V /\ sb s' = Mkfs.sb /\ itable s' = itable s /\
    fs_wf Mkfs.sb V /\ stores V ROOTINO T_DIR (padded (root_dir files)) /\
    forall i f, files !! i = Some f -> stores V (2 + Z.of_nat i) T_FILE (concat (snd f)).
Proof.
  intros Hn H64 E B Ho. pose proof (main_ok files Hn H64) as H. apply safe_match in H.
  rewrite <- mkfs_main, E in H.
  destruct (mount_ok files (Mkfs.img im) pid s H B Ho) as (s' & V & E1 & Id & Sb & It & _ & _ & R).
  exists s', V. split; [exact E1|]. split; [exact Id|]. split; [exact Sb|]. split; [exact It|]. exact R.
Qed.
End formatted.

(** ** The theorems on a concrete machine

    A machine booted with the image of [MkfsSpec], on which process 3, pid 7,
    has ten bytes in its memory. *)
Definition blk_image : blk := mkblk mm_seven ∅ (Mkfs.img MkfsSpec.demo_im) [].
Definition unused_inode : inode := mkinode 0 0 0 (mksleeplock 0 0) 0 0 0 0 0 0 (replicate naddrs 0).
Definition fs_boot : fs :=
  mkfs (mklstate (after binit blk_image) (mklogst 0 0 0 0 0 (replicate (Z.to_nat LOGBLOCKS) 0)))
    (dec_sb zero_block) (replicate NINODE unused_inode).

Lemma mach_user_running : running mach_user 7.
Proof. split; [reflexivity|]. split; [reflexivity|]. eexists 3%nat, _. split; [reflexivity|]. by split. Qed.
Lemma demo_formatted : MkfsSpec.formatted MkfsSpec.demo_files (Mkfs.img MkfsSpec.demo_im).
Proof.
  pose proof (MkfsSpec.main_ok MkfsSpec.demo_files) as H.
  apply MkfsSpec.safe_match in H; [|by apply Z.leb_le|by vm_compute].
  by rewrite <- MkfsSpec.mkfs_main, MkfsSpec.demo_mkfs in H.
Qed.

Lemma fs_boot_booted :
  booted (Mkfs.img MkfsSpec.demo_im) 7 (fs_log fs_boot) /\ fmm fs_boot = mm_seven /\
  ops fs_boot = (0, 0) /\ itable fs_boot = replicate NINODE unused_inode.
Proof.
  destruct (binit_ok blk_image eq_refl (MkfsSpec.fm_len _ _ demo_formatted)) as (B & E & _ & _ & I).
  unfold fs_boot, after. rewrite E. split; [|split; [reflexivity|split; reflexivity]]. split; [exact I|reflexivity| |reflexivity].
  change (running (mm_mach mm_seven) 7). destruct mm_seven_ok as [_ ->]. exact mach_user_running.
Qed.
#[global] Opaque fs_boot.

(** The same machine with the file system mounted and inode [n] open. *)
Definition first_entry (n : Z) : inode := unused_inode <| i_dev := ROOTDEV |> <| i_inum := n |> <| i_ref := 1 |>.
Definition fs_at (n : Z) : fs :=
  after (fsinit ROOTDEV) fs_boot <| itable := first_entry n :: replicate 49 unused_inode |>.
Lemma fs_at_ok :
  exists V, (forall n, live Mkfs.sb V n -> ready 2 7 (fs_at n) V 0) /\ same_fs Mkfs.sb (Mkfs.img MkfsSpec.demo_im) V /\
    MkfsSpec.stores V ROOTINO T_DIR (MkfsSpec.padded (MkfsSpec.root_dir MkfsSpec.demo_files)) /\
    MkfsSpec.stores V 2 T_FILE [104; 105] /\ forall n, sb (fs_at n) = Mkfs.sb /\
    uctx (fmm (fs_at n)) 3 demo_root (4 * PGSIZE) ∅ (uown (reverse demo_pages) {[ [] := demo_root ]} ∅)
      (write_bytes (fun _ => 0) 4090 sevens) (span 4090 10) (span 4090 10) [].
Proof.
  destruct fs_boot_booted as (B & Mm & Ho & It).
  destruct (mount_ok _ _ 7 fs_boot demo_formatted B Ho) as (s' & V & E & [T Op Hd] & Sb & It' & Wk & Sm & Wf & Ro & St).
  specialize (St 0%nat _ eq_refl). change (2 + Z.of_nat 0) with 2 in St. exists V. unfold fs_at, after. rewrite E.
  split; [|split; [exact Sm|split; [exact Ro|split; [exact St|]]]].
  - intros n Lv. set (s := s' <| itable := _ |>). assert (Es : sb s = Mkfs.sb) by exact Sb.
    assert (Ei : itable s !!! 0%nat = first_entry n) by reflexivity. split; rewrite ?Es, ?Ei.
    + split; [by apply tx_itable|exact Op|exact Hd].
    + apply MkfsSpec.mkfs_layout.
    + apply Z.leb_le. vm_compute. reflexivity.
    + exact Wf.
    + split; rewrite ?Ei, ?Es; [apply Nat.ltb_lt; reflexivity|reflexivity| |apply Z.leb_le; reflexivity]. apply Lv.
    + intros Hv. rewrite Ei in Hv. exfalso. apply Hv. reflexivity.
    + reflexivity.
    + apply Lv.
  - intros n. split; [exact Sb|]. eapply uctx_woke; [exact mm_seven_ctx|]. rewrite <- Mm. exact Wk.
Qed.
Lemma fs_at_table n : itable (fs_at n) = first_entry n :: replicate 49 unused_inode.
Proof. reflexivity. Qed.
#[global] Opaque fs_at.
Lemma fs_at_entry n : itable (fs_at n) !!! 0%nat = first_entry n.
Proof. rewrite fs_at_table. reflexivity. Qed.
Lemma fs_at_tab n : itab (itable (fs_at n)) {[+ (ROOTDEV, n) +]}.
Proof.
  rewrite fs_at_table. change (ROOTDEV, n) with (ikey (first_entry n)).
  apply itab_one; [reflexivity|reflexivity|by apply Forall_replicate].
Qed.

(** Inode 2 is a file of two bytes. *)
Definition fs_open : fs := fs_at 2.
Lemma fs_open_ok :
  exists V, ready 2 7 fs_open V 0 /\ MkfsSpec.stores V 2 T_FILE [104; 105] /\ i_inum (itable fs_open !!! 0%nat) = 2 /\
    sb fs_open = Mkfs.sb /\
    uctx (fmm fs_open) 3 demo_root (4 * PGSIZE) ∅ (uown (reverse demo_pages) {[ [] := demo_root ]} ∅)
      (write_bytes (fun _ => 0) 4090 sevens) (span 4090 10) (span 4090 10) [].
Proof.
  destruct fs_at_ok as (V & Rd & _ & _ & St & H). destruct (H 2) as [Es Us]. exists V.
  split; [apply Rd, St|]. split; [exact St|]. split; [unfold fs_open; by rewrite fs_at_entry|]. split; [exact Es|exact Us].
Qed.
Definition fs_open_entry : itable fs_open !!! 0%nat = first_entry 2 := fs_at_entry 2.
Definition fs_open_tab : itab (itable fs_open) {[+ (ROOTDEV, 2) +]} := fs_at_tab 2.

Lemma iget_refines_witness :
  exists i s' ip, iget ROOTDEV 2 fs_open = Ok i s' /\ itab (itable s') ({[+ (ROOTDEV, 2) +]} ⊎ {[+ (ROOTDEV, 2) +]}) /\
    itable s' = <[i := ip]> (itable fs_open) /\ ikey ip = (ROOTDEV, 2) /\ i_ref ip = 2.
Proof.
  destruct fs_open_ok as (V & Rd & _). pose proof (tx_running _ _ _ _ _ _ _ (id_tx _ _ _ _ (rd_idle _ _ _ _ _ Rd))) as Hr.
  assert (H1 : multiplicity (ROOTDEV, 2) {[+ (ROOTDEV, 2) +]} = 1%nat) by (by rewrite multiplicity_singleton, decide_True).
  pose proof (iget_refines fs_open {[+ (ROOTDEV, 2) +]} (running_free _ _ _ Hr) fs_open_tab ROOTDEV 2) as H. rewrite H1 in H.
  specialize (H ltac:(by apply Z.ltb_lt)). destruct (iget ROOTDEV 2 fs_open) as [i s'|m| | |] eqn:E; try contradiction H.
  - destruct H as (ip & -> & Tb & _ & Ky & Rf & _). eexists i, _, ip.
    split; [reflexivity|]. split; [exact Tb|]. split; [reflexivity|]. split; [exact Ky|exact Rf].
  - destruct H as (_ & Hn & _). exfalso. apply Hn. by apply gmultiset_elem_of_singleton.
Defined.


Lemma fsinit_mounts_witness :
  exists s' V w, fsinit ROOTDEV fs_boot = Ok tt s' /\ booting 2 7 s' V /\ sb s' = Mkfs.sb /\
    swept Mkfs.sb (Mkfs.img MkfsSpec.demo_im) (seqZ 1 199) V /\
    drive s' = (apply_writes (Mkfs.img MkfsSpec.demo_im) w, (drive fs_boot).2 ++ w) /\
    forall k d', recovered 2 (apply_writes (Mkfs.img MkfsSpec.demo_im) (take k w)) d' ->
      exists m, swept Mkfs.sb (Mkfs.img MkfsSpec.demo_im) (take m (seqZ 1 199)) d'.
Proof.
  destruct fs_boot_booted as (B & _ & Ho & It). pose proof demo_formatted as Fm.
  pose proof (fsinit_mounts 2 (Mkfs.img MkfsSpec.demo_im) (Mkfs.img MkfsSpec.demo_im) 7 fs_boot B Ho) as H. cbv zeta in H.
  rewrite (MkfsSpec.fm_sb _ _ Fm), It in H. apply H.
  - split; [reflexivity|]. apply Forall_replicate. by split.
  - reflexivity.
  - reflexivity.
  - apply MkfsSpec.mkfs_layout.
  - apply Z.leb_le. vm_compute. reflexivity.
  - apply recovers_to_empty; [apply Fm|apply Fm|reflexivity].
  - apply Fm.
Defined.

Definition fs_blank : fs := mkfs lstate_booted (dec_sb zero_block) (replicate NINODE unused_inode).
Lemma fsinit_refuses_witness : fsinit ROOTDEV fs_blank = Panic "invalid file system".
Proof.
  apply (fsinit_refuses (dsk blk_boot) 7 fs_blank lstate_booted_booted). by vm_compute.
Defined.

Lemma mkfs_mounts_witness :
  exists s' V, fsinit ROOTDEV fs_boot = Ok tt s' /\ idle 2 7 s' V /\ sb s' = Mkfs.sb /\ itable s' = itable fs_boot /\
    fs_wf Mkfs.sb V /\ MkfsSpec.stores V ROOTINO T_DIR (MkfsSpec.padded (MkfsSpec.root_dir MkfsSpec.demo_files)) /\
    forall i f, MkfsSpec.demo_files !! i = Some f -> MkfsSpec.stores V (2 + Z.of_nat i) T_FILE (concat (snd f)).
Proof.
  destruct fs_boot_booted as (B & _ & Ho & _).
  apply (mkfs_mounts MkfsSpec.demo_files MkfsSpec.demo_im 7 fs_boot).
  - by apply Z.leb_le.
  - by vm_compute.
  - exact MkfsSpec.demo_mkfs.
  - exact B.
  - exact Ho.
Defined.
