(* ===== verification/FsBoot.v ===== *)
(** * From the image to a path name

    The files given to [mkfs] are found by their names: a machine booted with
    the image mounts it, and [namei] of [kernel/fs.c] leads from the path
    [/name] to the inode that holds the contents of the file. *)

From stdpp Require Import base numbers strings decidable sets gmap functions gmultiset list.
From S2P Require Import Prelude.
From S2P Require Import CString.
From S2P Require Import Riscv.
From S2P Require Import Sched.
From S2P Require Import Kalloc.
From S2P Require Import Vm.
From S2P Require Import Sleeplock.
From S2P Require Import Bio.
From S2P Require Import Log.
From S2P Require Import LogOps.
From S2P Require Import LogCrash.
From S2P Require Import Fs.
From S2P Require Import Transfer.
From S2P Require Import Txn.
From S2P Require Import FsBlocks.
From S2P Require Import FsFile.
From S2P Require Import FsInode.
From S2P Require Import FsData.
From S2P Require Import FsWrite.
From S2P Require Import FsDisk.
From S2P Require Import FsOp.
From S2P Require Import ITable.
From S2P Require Import FsDir.
From S2P Require Import FsPath.
From S2P Require Import FsTrunc.
From S2P Require Import FsRemove.
From S2P Require Import Mkfs.
From S2P Require Import MkfsSpec.
From S2P Require Import FsMount.
Open Scope Z_scope.
Open Scope xv6_scope.

(** ** The entries of a directory written one after the other *)

Lemma dents_cons de c : length de = nent -> dents (de ++ c) = dent_of de :: dents c.
Proof.
  intros Hd. unfold dents. rewrite length_app, Hd.
  replace ((nent + length c) / nent)%nat with (S (length c / nent)).
  2: { pose proof (Nat.div_add (length c) 1 nent ltac:(done)) as H. rewrite Nat.mul_1_l in H. rewrite Nat.add_comm, H. lia. }
  cbn [seq fmap list_fmap]. f_equal.
  - unfold chunk. rewrite Nat.mul_0_r, drop_0. by rewrite take_app_length' by lia.
  - rewrite <- fmap_S_seq, <- list_fmap_compose. apply list_fmap_ext. intros k x _. cbn. unfold chunk. do 2 f_equal.
    rewrite drop_app_ge by (rewrite nent_val in *; lia). f_equal. rewrite nent_val in *. lia.
Qed.
Lemma whole_entries c n : length c = (nent * n)%nat -> Forall is_byte c -> dir_ok c.
Proof. intros Hl Hb. split; [|done]. rewrite Hl. rewrite (Nat.mul_comm nent n) at 2. by rewrite Nat.div_mul. Qed.
Lemma dir_ok_app c1 c2 : dir_ok c1 -> dir_ok c2 -> dir_ok (c1 ++ c2).
Proof.
  intros [L1 B1] [L2 B2]. apply (whole_entries _ (length c1 / nent + length c2 / nent)); [rewrite length_app; lia|by apply Forall_app].
Qed.
(** What is past the last entry counts for nothing. *)
Lemma dlookup_zeros m nm : dlookup (dents (replicate (nent * m) 0)) nm = None.
Proof.
  induction m as [|m IH]; [done|]. replace (nent * S m)%nat with (nent + nent * m)%nat by lia.
  rewrite replicate_add, dents_cons by apply length_replicate. cbn [dlookup]. rewrite decide_False; [done|]. intros [H _]. by apply H.
Qed.
Lemma dents_app c1 c2 : length c1 = (nent * (length c1 / nent))%nat -> dents (c1 ++ c2) = dents c1 ++ dents c2.
Proof.
  remember (length c1 / nent)%nat as n eqn:En. clear En. revert c1. induction n as [|n IH]; intros c1 Hl.
  { rewrite Nat.mul_0_r in Hl. by destruct c1. }
  rewrite <- (take_drop nent c1). assert (Ht : length (take nent c1) = nent) by (rewrite length_take; lia).
  rewrite <- app_assoc, (dents_cons _ (drop nent c1 ++ c2)), (dents_cons _ (drop nent c1)) by done. cbn. f_equal. apply IH. rewrite length_drop. lia.
Qed.

Lemma dlookup_in es nm k : dlookup es nm = Some k -> exists e, e ∈ es /\ e.1 = k.
Proof.
  induction es as [|e es IH]; cbn; [done|]. case_decide; [intros [= <-]; exists e; split; [apply list_elem_of_here|done]|].
  intros (e' & He & Hk)%IH. exists e'. split; [by apply list_elem_of_further|done].
Qed.
(** Names that are all different are all found. *)
Lemma dlookup_nodup (es : list dent) i e : NoDup es.*2 -> es !! i = Some e -> e.1 <> 0 -> dlookup es e.2 = Some e.1.
Proof.
  revert i. induction es as [|x es IH]; intros i Hnd Hi Hz; [done|]. cbn in Hnd |- *. apply NoDup_cons in Hnd as [Hx Hnd].
  destruct i as [|i]; cbn in Hi.
  - injection Hi as ->. by rewrite decide_True.
  - rewrite decide_False; [by eapply IH|]. intros [_ E]. apply Hx. rewrite E. apply list_elem_of_fmap. exists e. split; [done|].
    by eapply list_elem_of_lookup_2.
Qed.

(** ** The directories of an image *)

Notation stored_name := MkfsSpec.stored_name.
Notation entries := MkfsSpec.entries.
Definition file_name (f : list Z * list (list Z)) : list Z := fname (of_list (stored_name f)).

Lemma path_bytes nm : path_ok nm -> bytes_ptr (of_list nm).
Proof.
  intros H i. unfold of_list. destruct (decide (i < length nm)%nat) as [Hi|Hi].
  - destruct (lookup_lt_is_Some_2 _ _ Hi) as [x Hx]. rewrite (nth_lookup_Some _ _ _ _ Hx).
    pose proof (Forall_lookup_1 _ _ _ _ H Hx). unfold is_byte. cbn in *. lia.
  - rewrite nth_overflow by lia. unfold is_byte. lia.
Qed.
Lemma dirent_ok j nm rest :
  path_ok nm -> 0 < j < 2 ^ 16 -> dir_ok rest ->
  dir_ok (Mkfs.dirent j nm ++ rest) /\ dents (Mkfs.dirent j nm ++ rest) = (j, fname (of_list nm)) :: dents rest.
Proof.
  intros Hp Hj Ok. assert (Hd : length (Mkfs.dirent j nm) = nent) by apply MkfsSpec.length_dirent. split.
  - apply dir_ok_app; [|done]. apply (whole_entries _ 1); [by rewrite Hd|]. apply mkdirent_bytes. by apply path_bytes.
  - rewrite dents_cons by done. f_equal. apply dent_mkdirent. lia.
Qed.
(** The entries of the files from number [k] on. *)
Lemma entries_ok fs j :
  Forall (fun f => path_ok (stored_name f)) fs -> 0 < j -> j + Z.of_nat (length fs) <= 2 ^ 16 ->
  dir_ok (entries j fs) /\ dents (entries j fs) = imap (fun i f => (j + Z.of_nat i, file_name f)) fs.
Proof.
  revert j. induction fs as [|f fs IH]; intros j Hc Hj Hm; cbn [MkfsSpec.entries imap]; [done|].
  apply Forall_cons in Hc as [Hf Hc]. cbn [length] in Hm. destruct (IH (j + 1) Hc) as [Ok E]; [lia|lia|].
  destruct (dirent_ok j (stored_name f) _ Hf ltac:(lia) Ok) as [Ok' E']. split; [done|]. rewrite E', E.
  cbn. f_equal; [f_equal; lia|]. apply imap_ext. intros i g _. cbn. f_equal. lia.
Qed.

Lemma stored_contents V j type bs : fs_wf Mkfs.sb V -> MkfsSpec.stores V j type bs -> dcontents Mkfs.sb V j = bs.
Proof. intros W St. eapply MkfsSpec.stores_contents; [|exact St]. rewrite <- (MkfsSpec.st_size _ _ _ _ St). apply (fw_file _ _ W), St. Qed.

Section image.
Context (files : list (list Z * list (list Z))).

(** Names a path can have: bytes other than nul and the slash, all different
    and none of them [.] or [..]. *)
Record names_ok : Prop := {
  no_chars : Forall (fun f => path_ok (stored_name f) /\ slash ∉ stored_name f /\ stored_name f <> []) files;
  no_nodup : NoDup ([fname (of_list [46]); fname (of_list [46; 46])] ++ (file_name <$> files));
}.
Hypothesis No : names_ok.
Hypothesis Hn : Z.of_nat (length files) + 2 <= Mkfs.NINODES.

Notation root := (MkfsSpec.padded (MkfsSpec.root_dir files)).
Definition root_ents : list dent :=
  (ROOTINO, fname (of_list [46])) :: (ROOTINO, fname (of_list [46; 46])) :: imap (fun i f => (2 + Z.of_nat i, file_name f)) files.

Lemma root_ok : dir_ok root /\ forall nm, dlookup (dents root) nm = dlookup root_ents nm.
Proof using No Hn.
  destruct No as [Hc _]. assert (Hc' : Forall (fun f => path_ok (stored_name f)) files) by (by eapply Forall_impl; [exact Hc|intros f (? & _)]).
  assert (Hm : Z.of_nat (length files) + 2 <= 2 ^ 16) by (unfold Mkfs.NINODES in Hn; lia).
  destruct (entries_ok files 2 Hc' ltac:(lia) ltac:(lia)) as [Ok1 E1].
  destruct (dirent_ok ROOTINO [46; 46] _ ltac:(repeat constructor) ltac:(unfold ROOTINO; lia) Ok1) as [Ok2 E2].
  destruct (dirent_ok ROOTINO [46] _ ltac:(repeat constructor) ltac:(unfold ROOTINO; lia) Ok2) as [Ok3 E3].
  fold (MkfsSpec.root_dir files) in Ok3, E3.
  assert (Hpad : exists m, root = MkfsSpec.root_dir files ++ replicate (nent * m) 0).
  { unfold MkfsSpec.padded. rewrite MkfsSpec.length_root_dir. set (n := Z.of_nat (length files) + 2).
    exists (Z.to_nat ((16 * n / BSIZE + 1) * 64 - n)). do 2 f_equal. unfold MkfsSpec.round_up. rewrite nent_val.
    pose proof (MkfsSpec.length_root_dir files). fold n in H. change BSIZE with 1024. Z.to_euclidean_division_equations. lia. }
  destruct Hpad as [m Em]. rewrite Em. split.
  - apply dir_ok_app; [done|]. apply (whole_entries _ m); [apply length_replicate|]. by apply Forall_replicate.
  - intros nm. rewrite dents_app by apply Ok3. rewrite dlookup_app, dlookup_zeros, E3, E2, E1. by destruct (dlookup _ nm).
Qed.

Lemma root_found i f : files !! i = Some f -> dlookup (dents root) (file_name f) = Some (2 + Z.of_nat i).
Proof using No Hn.
  intros Hf. destruct root_ok as [_ ->]. destruct No as [_ Hnd].
  assert (Es : root_ents.*2 = [fname (of_list [46]); fname (of_list [46; 46])] ++ (file_name <$> files)).
  { unfold root_ents. cbn. do 2 f_equal. rewrite fmap_imap. apply list_eq. intros k.
    rewrite list_lookup_imap, list_lookup_fmap. by destruct (files !! k). }
  rewrite <- Es in Hnd. assert (Hi : root_ents !! S (S i) = Some (2 + Z.of_nat i, file_name f)).
  { etransitivity; [apply (list_lookup_imap _ files i)|]. by rewrite Hf. }
  apply (dlookup_nodup _ _ _ Hnd Hi). cbn. lia.
Qed.
Lemma root_names nm k : dlookup (dents root) nm = Some k -> k = ROOTINO \/ exists i f, files !! i = Some f /\ k = 2 + Z.of_nat i.
Proof using No Hn.
  destruct root_ok as [_ ->]. intros ([k' nm'] & He & <-)%dlookup_in. unfold root_ents in He.
  apply elem_of_cons in He as [[= -> _]|He]; [by left|]. apply elem_of_cons in He as [[= -> _]|He]; [by left|]. right.
  apply list_elem_of_lookup_1 in He as [i Hi]. pose proof (eq_trans (eq_sym (list_lookup_imap _ files i)) Hi) as He.
  destruct (files !! i) as [f|] eqn:Hf; [|done]. injection He as <- _. by exists i, f.
Qed.

(** The inodes in use are the root and the files. *)
Lemma formatted_live V j :
  MkfsSpec.formatted files V -> live Mkfs.sb V j -> j = ROOTINO \/ exists i f, files !! i = Some f /\ j = 2 + Z.of_nat i.
Proof using.
  intros [_ _ _ _ _ _ Fr] [Hj Ht]. destruct (decide (j = 0 \/ 2 + Z.of_nat (length files) <= j)) as [Hd|Hd]; [by destruct Ht; apply Fr|].
  destruct (decide (j = ROOTINO)) as [->|Hne]; [by left|right].
  destruct (lookup_lt_is_Some_2 files (Z.to_nat (j - 2))) as [f Hf]; [unfold ROOTINO in Hne; lia|].
  exists (Z.to_nat (j - 2)), f. split; [done|]. unfold ROOTINO in Hne. lia.
Qed.
Lemma formatted_tree V : MkfsSpec.formatted files V -> tree Mkfs.sb V.
Proof using No Hn.
  intros Fm. pose proof (formatted_live V) as Hl. destruct root_ok as [Rk _]. pose proof Fm as [_ _ _ Wf Ro Fi _].
  pose proof (stored_contents _ _ _ _ Wf Ro) as Hroot.
  assert (Hdir : forall j, live Mkfs.sb V j -> di_type (dinode_at Mkfs.sb V j) = T_DIR -> j = ROOTINO).
  { intros j Lv Ht. destruct (Hl j Fm Lv) as [|(i & f & Hf & ->)]; [done|]. by rewrite (MkfsSpec.st_type _ _ _ _ (Fi i f Hf)) in Ht. }
  split.
  - intros j Lv Ht. rewrite (Hdir j Lv Ht), Hroot. done.
  - intros j nm k Lv Ht. rewrite (Hdir j Lv Ht), Hroot. intros [->|(i & f & Hf & ->)]%root_names; [apply Ro|by apply (Fi i f)].
  - intros j Lv. destruct (Hl j Fm Lv) as [->|(i & f & Hf & ->)]; [by rewrite (MkfsSpec.st_link _ _ _ _ Ro)|].
    by rewrite (MkfsSpec.st_link _ _ _ _ (Fi i f Hf)).
Qed.
End image.

Lemma tree_same start sb V V' : layout start sb -> fs_wf sb V -> same_fs sb V V' -> tree sb V -> tree sb V'.
Proof.
  intros L W S [Dr En Li]. pose proof (same_dinode start sb V V' L S) as Ei. pose proof (same_live start sb V V' L S) as El.
  assert (Ec : forall j, live sb V j -> dcontents sb V' j = dcontents sb V j).
  { intros j Lv. apply (same_dfile start sb V V' L S j Lv). by apply W. }
  split.
  - intros j Lv%El. rewrite Ei, Ec by (done || apply Lv). by apply Dr.
  - intros j nm k Lv%El. rewrite Ei, Ec by (done || apply Lv). intros Ht Hk. apply El. by eapply En.
  - intros j Lv%El. rewrite Ei by apply Lv. by apply Li.
Qed.

(** ** Files found by their names *)

(** A table without references. *)
Lemma itab_empty t : unreferenced t -> itab t ∅.
Proof.
  intros [Hl Hf]. assert (H0 : forall i ip, t !! i = Some ip -> i_ref ip = 0) by (intros i ip Hi; by apply (Forall_lookup_1 _ _ _ _ Hf Hi)).
  split; [done|..].
  - intros i ip Hi. rewrite (H0 i ip Hi). done.
  - intros i ip Hi. rewrite (H0 i ip Hi). done.
  - intros k Hk. by apply gmultiset_not_elem_of_empty in Hk.
  - intros i j ip jp Hi _. rewrite (H0 i ip Hi). done.
Qed.
Lemma walk_fresh start pid s V :
  tx start pid s V [] [] [] -> layout start (sb s) -> fs_wf (sb s) V -> unreferenced (itable s) -> walk start pid s V [] ∅ None.
Proof.
  intros T L W [Hl Hf]. split; try done; [vm_compute; lia|by apply itab_empty|..].
  - intros i ip Hi. by apply (Forall_lookup_1 _ _ _ _ Hf Hi).
  - intros i ip Hi. by rewrite (proj1 (Forall_lookup_1 _ _ _ _ Hf Hi)).
Qed.

Lemma elems_one nm : slash ∉ nm -> nm <> [] -> elems (slash :: nm) = [nm].
Proof.
  intros Hs Hn. unfold elems. cbn [pieces]. rewrite Z.eqb_refl, filter_cons_False by (intros H; by apply H).
  assert (E : pieces nm = [nm]).
  { clear Hn. induction nm as [|c p IH]; [done|]. apply not_elem_of_cons in Hs as [Hc Hp]. cbn [pieces].
    rewrite (proj2 (Z.eqb_neq _ _)), IH by done. done. }
  by rewrite E, filter_cons_True, filter_nil.
Qed.
Lemma resolve_file sb V nm k :
  slash ∉ nm -> nm <> [] -> di_type (dinode_at sb V ROOTINO) = T_DIR ->
  dlookup (dents (dcontents sb V ROOTINO)) (fname (of_list nm)) = Some k ->
  resolve sb V false ROOTINO (names (slash :: nm)) = Some k.
Proof. intros Hs Hn Ht Hk. unfold names. rewrite elems_one by done. cbn [fmap list_fmap resolve]. rewrite decide_True by done. cbn [andb]. by rewrite Hk. Qed.

(** The first look-up after the mount. *)
Lemma namei_fresh pid s V nm k :
  idle 2 pid s V -> sb s = Mkfs.sb -> fs_wf Mkfs.sb V -> tree Mkfs.sb V -> live Mkfs.sb V ROOTINO -> unreferenced (itable s) ->
  path_ok nm -> resolve Mkfs.sb V false ROOTINO (names (slash :: nm)) = Some k ->
  exists x s', (lift begin_op ;; namei (slash :: nm)) s = Ok (Some x) s' /\ at_key s' x (ROOTDEV, k) /\ ops s' = (1, 0) /\
    sb s' = Mkfs.sb /\ walk 2 pid s' V [] {[+ (ROOTDEV, k) +]} None.
Proof.
  intros Id Sb W Tr Lv Un Hp Hr. destruct (begin_op_idle 2 pid s V Id) as (s1 & E1 & T1 & O1 & Sb1 & It1 & _).
  rewrite <- It1 in Un. rewrite Sb in Sb1.
  assert (Wk : walk 2 pid s1 V [] ∅ None) by (apply walk_fresh; rewrite ?Sb1; try done; apply MkfsSpec.mkfs_layout).
  destruct (namex_ok 2 pid s1 V [] ∅ Wk) with (path := slash :: nm) (parent := false) (name := replicate DIRSIZ 0) (j := ROOTINO)
    as (s2 & name2 & [Sb2 _ O2] & HR); rewrite ?Sb1; try done.
  - vm_compute. lia.
  - cbn. by rewrite Sb1.
  - constructor; [done|done].
  - apply Forall_replicate. unfold is_byte. lia.
  - rewrite Sb1, Hr in HR. destruct HR as (x & E2 & Wk2 & Ak & _). exists x, s2. rewrite (left_id_L ∅ (⊎)) in Wk2.
    split; [|split; [done|split; [congruence|split; [congruence|done]]]].
    erewrite bind_ok by exact E1. unfold namei. by erewrite bind_ok by exact E2.
Qed.

(** [ilock] and one [readi] of the whole file. *)
Lemma read_whole start pid s V R x j :
  walk start pid s V [] R None -> at_key s x (ROOTDEV, j) ->
  let c := dcontents (sb s) V j in
  exists s', (ilock (Some x) ;; readi x Local 0 (Z.of_nat (length c))) s = Ok (Z.of_nat (length c), c) s'.
Proof.
  intros Wk Ak c. destruct (walk_ilock start pid s V [] R x _ Wk Ak) as (s1 & E1 & Wk1 & [Fl _ _ Di] & Sy & Ak1).
  pose proof (at_key_total _ _ _ Ak1) as (_ & _ & Hk). injection Hk as Hd Hj. rewrite Hj in Di.
  pose proof Fl as [[T L M Hi _ O] _ Hs Hfil _]. pose proof (sy_sb _ _ Sy) as Sb. rewrite Sb in Di.
  assert (Ec : fbytes V (i_addrs (itable s1 !!! x)) 0 (i_size (itable s1 !!! x)) = c) by (unfold c, dcontents, daddrs, dsize; by rewrite <- Di).
  assert (El : Z.of_nat (length c) = i_size (itable s1 !!! x)) by (rewrite <- Ec; unfold fbytes; rewrite length_fmap, length_seqZ; lia).
  change (MAXFILE * BSIZE) with 274432 in Hs. erewrite bind_ok by exact E1. rewrite El.
  destruct (readi_ok start pid (length c) local_sink never s1 V [] x Local 0 (i_size (itable s1 !!! x)))
    as (r & out & s' & E & _ & _ & HR); try done; try lia; [vm_compute; lia|].
  assert (Er : readable (i_size (itable s1 !!! x)) 0 (i_size (itable s1 !!! x)) = i_size (itable s1 !!! x)).
  { unfold readable. rewrite (proj2 (Z.ltb_lt _ _)) by lia. lia. }
  rewrite Er in HR. destruct HR as [(-> & -> & _)|(_ & n & _ & _ & [])]. exists s'. by rewrite E, Ec.
Qed.

Lemma files_found_ok files d pid s :
  names_ok files -> Z.of_nat (length files) + 2 <= Mkfs.NINODES -> MkfsSpec.formatted files d ->
  booted d pid (fs_log s) -> ops s = (0, 0) -> unreferenced (itable s) ->
  exists s1, fsinit ROOTDEV s = Ok tt s1 /\
    forall i f, files !! i = Some f ->
      let n := Z.of_nat (length (concat f.2)) in
      exists x s2 s3, (lift begin_op ;; namei (slash :: stored_name f)) s1 = Ok (Some x) s2 /\
        at_key s2 x (ROOTDEV, 2 + Z.of_nat i) /\
        (ilock (Some x) ;; readi x Local 0 n) s2 = Ok (n, concat f.2) s3.
Proof.
  intros No Hn Fm B Ho Un. pose proof Fm as [_ Hsb Hlog Wf Ro Fi _].
  destruct (fsinit_clean 2 d d pid s B Ho) as (s1 & V & E1 & Id & Sb & It & _ & Sm); rewrite ?Hsb in *; try done.
  { apply recovers_to_empty; [apply (bi_len _ _ (bt_inv _ _ _ B))|exact Hlog|done]. }
  { by eapply formatted_no_orphans. }
  pose proof (same_wf 2 Mkfs.sb _ _ MkfsSpec.mkfs_layout Sm Wf) as W'.
  pose proof (tree_same 2 _ _ _ MkfsSpec.mkfs_layout Wf Sm (formatted_tree files No Hn _ Fm)) as Tr.
  pose proof (stores_same _ _ _ _ _ Sm Wf Ro) as Ro'. pose proof (stored_contents _ _ _ _ W' Ro') as Er.
  rewrite <- It in Un. exists s1. split; [done|]. intros i f Hf n.
  pose proof (stores_same _ _ _ _ _ Sm Wf (Fi i f Hf)) as Sf. pose proof (stored_contents _ _ _ _ W' Sf) as Ef.
  destruct (Forall_lookup_1 _ _ _ _ (no_chars _ No) Hf) as (Hp & Hs & Hne).
  destruct (namei_fresh pid s1 V (stored_name f) (2 + Z.of_nat i) Id Sb W' Tr) as (x & s2 & E2 & Ak & _ & Sb2 & Wk); [apply Ro'|done|done| |].
  { apply resolve_file; [done|done|apply Ro'|]. rewrite Er. by apply root_found. }
  destruct (read_whole 2 pid s2 V _ x _ Wk Ak) as [s3 E3]. rewrite Sb2, Ef in E3.
  exists x, s2, s3. done.
Qed.

(** C4: an image is read back.  When [mkfs] has made an image of some files,
    the kernel that boots with it mounts it, and then every one of the files
    is found under its name in the root directory: [namei] returns its inode
    and [readi] all of its bytes. *)
Theorem mkfs_files_found files im pid s :
  names_ok files -> Z.of_nat (length files) + 2 <= Mkfs.NINODES -> (Z.of_nat (length files) + 2) mod 64 <> 0 ->
  Mkfs.mkfs files = Ok tt im -> booted (Mkfs.img im) pid (fs_log s) -> ops s = (0, 0) -> unreferenced (itable s) ->
  exists s1, fsinit ROOTDEV s = Ok tt s1 /\
    forall i f, files !! i = Some f ->
      let n := Z.of_nat (length (concat f.2)) in
      exists x s2 s3, (lift begin_op ;; namei (slash :: stored_name f)) s1 = Ok (Some x) s2 /\
        at_key s2 x (ROOTDEV, 2 + Z.of_nat i) /\
        (ilock (Some x) ;; readi x Local 0 n) s2 = Ok (n, concat f.2) s3.
Proof.
  intros No Hn H64 E B Ho Un. pose proof (MkfsSpec.main_ok files Hn H64) as Fm. apply MkfsSpec.safe_match in Fm.
  rewrite <- MkfsSpec.mkfs_main, E in Fm. by apply (files_found_ok files (Mkfs.img im) pid s).
Qed.

(** ** The theorems on a concrete machine *)

Lemma demo_names : names_ok MkfsSpec.demo_files.
Proof.
  split.
  - constructor; [|constructor]. split; [|split; [|discriminate]].
    + repeat constructor; by apply Z.leb_le || by apply Z.ltb_lt.
    + apply (bool_decide_unpack _). vm_compute. exact I.
  - apply (bool_decide_unpack _). vm_compute. exact I.
Qed.
Lemma demo_fresh : unreferenced (itable fs_boot).
Proof.
  destruct fs_boot_booted as (_ & _ & _ & ->). split; [reflexivity|]. apply Forall_replicate. split; reflexivity.
Qed.
Lemma mkfs_files_found_witness :
  exists s1 x s2 s3, fsinit ROOTDEV fs_boot = Ok tt s1 /\
    (lift begin_op ;; namei [47; 82; 69; 65; 68; 77; 69]) s1 = Ok (Some x) s2 /\ at_key s2 x (ROOTDEV, 2) /\
    (ilock (Some x) ;; readi x Local 0 2) s2 = Ok (2, [104; 105]) s3.
Proof.
  destruct fs_boot_booted as (B & _ & Ho & _).
  destruct (mkfs_files_found MkfsSpec.demo_files MkfsSpec.demo_im 7 fs_boot demo_names) as (s1 & E1 & H);
    [by apply Z.leb_le|discriminate|exact MkfsSpec.demo_mkfs|exact B|exact Ho|exact demo_fresh|].
  destruct (H 0%nat _ eq_refl) as (x & s2 & s3 & E2 & Ak & E3). exists s1, x, s2, s3.
  split; [exact E1|]. split; [exact E2|]. split; [exact Ak|exact E3].
Defined.

(** Mounted, with the root directory open. *)
Lemma demo_tree :
  exists V, ready 2 7 (fs_at ROOTINO) V 0 /\ sb (fs_at ROOTINO) = Mkfs.sb /\ fs_wf Mkfs.sb V /\ tree Mkfs.sb V /\
    dcontents Mkfs.sb V ROOTINO = MkfsSpec.padded (MkfsSpec.root_dir MkfsSpec.demo_files) /\
    live Mkfs.sb V ROOTINO /\ di_type (dinode_at Mkfs.sb V ROOTINO) = T_DIR.
Proof.
  destruct fs_at_ok as (V & Rd & Sm & Ro & _ & H). destruct (H ROOTINO) as [Sb _].
  pose proof (same_wf 2 Mkfs.sb _ _ MkfsSpec.mkfs_layout Sm (MkfsSpec.fm_wf _ _ demo_formatted)) as W.
  exists V. split; [apply Rd, Ro|]. split; [exact Sb|]. split; [exact W|]. split.
  - apply (tree_same 2 _ _ _ MkfsSpec.mkfs_layout (MkfsSpec.fm_wf _ _ demo_formatted) Sm).
    apply (formatted_tree MkfsSpec.demo_files demo_names); [by apply Z.leb_le|exact demo_formatted].
  - split; [exact (stored_contents _ _ _ _ W Ro)|]. split; apply Ro.
Qed.
Lemma demo_walk V : ready 2 7 (fs_at ROOTINO) V 0 -> walk 2 7 (fs_at ROOTINO) V [] {[+ (ROOTDEV, ROOTINO) +]} None.
Proof.
  intros [[T _ _] L _ W _ _ _ Lv]. rewrite fs_at_entry in Lv. split; [exact T|by apply Nat.ltb_lt|exact L|exact W|apply fs_at_tab|..].
  - rewrite fs_at_table. intros i ip Hi. change (itable _) with (first_entry ROOTINO :: replicate 49 unused_inode) in Hi.
    apply list_elem_of_lookup_2 in Hi. apply elem_of_cons in Hi as [->|Hi]; [reflexivity|].
    apply elem_of_replicate in Hi as [-> _]. reflexivity.
  - rewrite fs_at_table. intros i ip Hi Hp. apply list_elem_of_lookup_2 in Hi. apply elem_of_cons in Hi as [->|Hi].
    + split; [reflexivity|exact Lv|]. intros Hv. exfalso. apply Hv. reflexivity.
    + apply elem_of_replicate in Hi as [-> _]. discriminate Hp.
Qed.

Lemma namex_resolves_witness :
  exists x name s', namex [47; 82; 69; 65; 68; 77; 69] false (replicate DIRSIZ 0) (fs_at ROOTINO) = Ok (Some x, name) s' /\
    at_key s' x (ROOTDEV, 2).
Proof.
  destruct demo_tree as (V & Rd & Sb & W & Tr & Hc & Lv & Ht).
  pose proof (namex_resolves 2 7 (fs_at ROOTINO) V [] _ (demo_walk V Rd)) as H.
  specialize (H ltac:(by apply Nat.ltb_lt)).
  destruct (H ltac:(intros key; rewrite multiplicity_singleton; by case_decide) [47; 82; 69; 65; 68; 77; 69] false (replicate DIRSIZ 0) ROOTINO)
    as (s' & name' & _ & HR).
  - rewrite <- Sb in Lv. split; [reflexivity|exact Lv].
  - rewrite Sb. exact Tr.
  - repeat constructor; by apply Z.leb_le || by apply Z.ltb_lt.
  - reflexivity.
  - apply Forall_replicate. split; [by apply Z.leb_le|by apply Z.ltb_lt].
  - rewrite Sb in HR. change 47 with slash in HR at 1. rewrite (resolve_file Mkfs.sb V [82; 69; 65; 68; 77; 69] 2) in HR.
    + destruct HR as (x & E & _ & Ak & _). exists x, name', s'. split; [exact E|exact Ak].
    + apply (bool_decide_unpack _). vm_compute. exact I.
    + discriminate.
    + exact Ht.
    + rewrite Hc. vm_compute. reflexivity.
Defined.

Lemma dirlink_maps_witness :
  exists V s1 s2 r s3 V3 l3, lift begin_op (fs_at ROOTINO) = Ok tt s1 /\ ilock (Some 0%nat) s1 = Ok tt s2 /\
    dirlink 0 (of_list [97]) 2 s2 = Ok r s3 /\ inside 2 7 s3 V3 l3 0 /\
    ((r = 0 /\ dlookup (dents (dcontents Mkfs.sb V3 ROOTINO)) (fname (of_list [97])) = Some 2) \/
     (r = -1 /\ dcontents Mkfs.sb V3 ROOTINO = dcontents Mkfs.sb V ROOTINO)).
Proof.
  destruct demo_tree as (V & Rd & Sb & W & Tr & Hc & Lv & Ht).
  destruct (enter_ok 2 7 _ _ _ Rd) as (s1 & s2 & E1 & E2 & In & _ & _ & Sb2 & Op & ip & It & Ij).
  rewrite fs_at_entry in Ij. change (i_inum _) with ROOTINO in Ij at 2.
  assert (Ei : i_inum (itable s2 !!! 0%nat) = ROOTINO) by (rewrite It, fs_at_table; exact Ij).
  pose proof (in_same _ _ _ _ _ _ In) as Di. rewrite Sb in Sb2. rewrite Ei, Sb2 in Di.
  pose proof (dirlink_maps 2 7 s2 V [] 0 (of_list [97]) 2) as H. cbv zeta in H. rewrite Ei, Sb2, Hc in H.
  destruct (H In) as (r & s3 & V3 & l3 & E3 & In3 & _ & _ & _ & HR).
  - unfold in_op. rewrite Op. reflexivity.
  - exact W.
  - exact Lv.
  - rewrite <- Ht, <- Di. reflexivity.
  - rewrite <- Hc. apply (tr_dir _ _ Tr); [exact Lv|exact Ht].
  - intros i. do 2 (destruct i as [|i]; [split; [by apply Z.leb_le|by apply Z.ltb_lt]|]). split; [by apply Z.leb_le|by apply Z.ltb_lt].
  - split; by apply Z.ltb_lt.
  - vm_compute. reflexivity.
  - apply Nat.ltb_lt. vm_compute. reflexivity.
  - exists V, s1, s2, r, s3, V3, l3. split; [exact E1|]. split; [exact E2|]. split; [exact E3|]. split; [exact In3|].
    destruct HR as [(-> & HR)|(-> & HR & _)]; [left|right].
    + split; [reflexivity|]. rewrite HR. by rewrite decide_True.
    + split; [reflexivity|]. rewrite Hc. exact HR.
Defined.
