(* ===== verification/File.v ===== *)
(** * Open files, [kernel/file.c], and the state of the whole kernel

    [kern] puts the components together: the file system with all it rests
    on, the console, the table of open files, the pipes and the device
    switch.  A [struct file *] is an index into [ftable]. *)

From stdpp Require Import base numbers strings decidable sets gmap functions list.
From S2P Require Import Prelude.
From S2P Require Import CString.
From S2P Require Import Riscv.
From S2P Require Import Sched.
From S2P Require Import Sleeplock.
From S2P Require Import Kalloc.
From S2P Require Import Vm.
From S2P Require Import Console.
From S2P Require Import Pipe.
From S2P Require Import Proc.
From S2P Require Import Bio.
From S2P Require Import Log.
From S2P Require Import Fs.
Open Scope Z_scope.
Open Scope xv6_scope.

Inductive ftype : Set := FD_NONE | FD_PIPE | FD_INODE | FD_DEVICE.
#[export] Instance ftype_eq_dec : EqDecision ftype.
Proof. solve_decision. Defined.

Record file : Type := mkfile {
  f_type : ftype;
  f_ref : Z;  (** reference count *)
  f_readable : bool;
  f_writable : bool;
  f_pipe : Z;  (** FD_PIPE: the address of the pipe *)
  f_ip : option nat;  (** FD_INODE and FD_DEVICE *)
  f_off : Z;  (** FD_INODE *)
  f_major : Z;  (** FD_DEVICE *)
}.
#[export] Instance set_f_type : Setter f_type := fun v r => mkfile v (f_ref r) (f_readable r) (f_writable r) (f_pipe r) (f_ip r) (f_off r) (f_major r).
#[export] Instance set_f_ref : Setter f_ref := fun v r => mkfile (f_type r) v (f_readable r) (f_writable r) (f_pipe r) (f_ip r) (f_off r) (f_major r).
#[export] Instance set_f_readable : Setter f_readable := fun v r => mkfile (f_type r) (f_ref r) v (f_writable r) (f_pipe r) (f_ip r) (f_off r) (f_major r).
#[export] Instance set_f_writable : Setter f_writable := fun v r => mkfile (f_type r) (f_ref r) (f_readable r) v (f_pipe r) (f_ip r) (f_off r) (f_major r).
#[export] Instance set_f_pipe : Setter f_pipe := fun v r => mkfile (f_type r) (f_ref r) (f_readable r) (f_writable r) v (f_ip r) (f_off r) (f_major r).
#[export] Instance set_f_ip : Setter f_ip := fun v r => mkfile (f_type r) (f_ref r) (f_readable r) (f_writable r) (f_pipe r) v (f_off r) (f_major r).
#[export] Instance set_f_off : Setter f_off := fun v r => mkfile (f_type r) (f_ref r) (f_readable r) (f_writable r) (f_pipe r) (f_ip r) v (f_major r).
#[export] Instance set_f_major : Setter f_major := fun v r => mkfile (f_type r) (f_ref r) (f_readable r) (f_writable r) (f_pipe r) (f_ip r) (f_off r) v.
Definition blank_file : file := mkfile FD_NONE 0 false false 0 None 0 0.
#[export] Instance file_inhabited : Inhabited file := populate blank_file.

(** The drivers an entry of [devsw] can point to. *)
Inductive driver : Set := ConsoleDriver.
Definition CONSOLE : Z := 1.

Record kern : Type := mkkern {
  k_fs : fs;
  k_cons : cons;
  ftable : list file;
  k_pipes : gmap Z pipe;
  devsw : gmap Z driver;
  k_first : bool;  (** the static variable of forkret *)
}.
#[export] Instance set_k_fs : Setter k_fs := fun v r => mkkern v (k_cons r) (ftable r) (k_pipes r) (devsw r) (k_first r).
#[export] Instance set_k_cons : Setter k_cons := fun v r => mkkern (k_fs r) v (ftable r) (k_pipes r) (devsw r) (k_first r).
#[export] Instance set_ftable : Setter ftable := fun v r => mkkern (k_fs r) (k_cons r) v (k_pipes r) (devsw r) (k_first r).
#[export] Instance set_k_pipes : Setter k_pipes := fun v r => mkkern (k_fs r) (k_cons r) (ftable r) v (devsw r) (k_first r).
#[export] Instance set_devsw : Setter devsw := fun v r => mkkern (k_fs r) (k_cons r) (ftable r) (k_pipes r) v (k_first r).
#[export] Instance set_k_first : Setter k_first := fun v r => mkkern (k_fs r) (k_cons r) (ftable r) (k_pipes r) (devsw r) v.

(** ** Where the components sit *)

#[export] Instance embed_fs_kern : Embed fs kern := {|
  prj := k_fs;
  inj := fun f s => s <| k_fs := f |>;
|}.
#[export] Instance embed_fs_kern_laws : EmbedLaws fs kern.
Proof. by split; intros; try destruct t. Qed.
#[export] Instance embed_lstate_kern : Embed lstate kern := {|
  prj := fun s => fs_log (k_fs s);
  inj := fun l s => s <| k_fs := k_fs s <| fs_log := l |> |>;
|}.
#[export] Instance embed_lstate_kern_laws : EmbedLaws lstate kern.
Proof. split; intros; try destruct t as [[]]; done. Qed.
(** The memory inside the file system's record. *)
Definition k_mm (s : kern) : mm := blk_mm (lg_blk (fs_log (k_fs s))).
Definition k_with_mm (m : mm) (s : kern) : kern := s <| k_fs := inj m (k_fs s) |>.
#[export] Instance embed_mm_kern : Embed mm kern := {| prj := k_mm; inj := k_with_mm; |}.
#[export] Instance embed_mm_kern_laws : EmbedLaws mm kern.
Proof. split; intros; try destruct t as [[[[]]]]; done. Qed.
#[export] Instance embed_mach_kern : Embed mach kern := {|
  prj := fun s => mm_mach (k_mm s);
  inj := fun m s => k_with_mm (k_mm s <| mm_mach := m |>) s;
|}.
#[export] Instance embed_mach_kern_laws : EmbedLaws mach kern.
Proof. split; intros; try destruct t as [[[[[]]]]]; done. Qed.
#[export] Instance embed_cmm_kern : Embed cmm kern := {|
  prj := fun s => mkcmm (k_mm s) (k_cons s);
  inj := fun c s => k_with_mm (cm_mm c) (s <| k_cons := cm_cons c |>);
|}.
#[export] Instance embed_cmm_kern_laws : EmbedLaws cmm kern.
Proof. split; intros; try destruct t as [[[[]]]]; try destruct s; done. Qed.
#[export] Instance embed_pmm_kern : Embed pmm kern := {|
  prj := fun s => mkpmm (k_mm s) (k_pipes s);
  inj := fun c s => k_with_mm (pm_mm c) (s <| k_pipes := pm_pipes c |>);
|}.
#[export] Instance embed_pmm_kern_laws : EmbedLaws pmm kern.
Proof. split; intros; try destruct t as [[[[]]]]; try destruct s; done. Qed.

Definition get_file (f : nat) : M kern file := s <- get ;; index (ftable s) f.
Definition upd_file (f : nat) (g : file -> file) : M kern unit :=
  fl <- get_file f ;; modify (fun s => s <| ftable := <[f := g fl]> (ftable s) |>).
(** [f->ip], which the code follows without a test. *)
Definition the_inode (f : file) : M kern nat :=
  match f_ip f with Some i => ret i | None => undefined "null inode" end.

(** ** Operations *)

Fixpoint filealloc_from (n f : nat) : M kern (option nat) :=
  match n with
  | O => ret None
  | S n' =>
    fl <- get_file f ;;
    if f_ref fl =? 0 then
      upd_file f (fun fl => fl <| f_ref := 1 |>) ;;
      ret (Some f)
    else filealloc_from n' (S f)
  end.
Definition filealloc : M kern (option nat) :=
  lift (acquire LkFtable) ;;
  r <- filealloc_from NFILE 0 ;;
  lift (release LkFtable) ;;
  ret r.

Definition filedup (f : nat) : M kern nat :=
  lift (acquire LkFtable) ;;
  fl <- get_file f ;;
  if f_ref fl <? 1 then panic "filedup"
  else
    upd_file f (fun fl => fl <| f_ref := s32 (f_ref fl + 1) |>) ;;
    lift (release LkFtable) ;;
    ret f.

Definition fileclose (f : nat) : M kern unit :=
  lift (acquire LkFtable) ;;
  fl <- get_file f ;;
  if f_ref fl <? 1 then panic "fileclose"
  else
    upd_file f (fun fl => fl <| f_ref := f_ref fl - 1 |>) ;;
    if 0 <? f_ref fl - 1 then lift (release LkFtable)
    else
      ff <- get_file f ;;
      upd_file f (fun fl => fl <| f_ref := 0 |> <| f_type := FD_NONE |>) ;;
      lift (release LkFtable) ;;
      match f_type ff with
      | FD_PIPE => lift (pipeclose (f_pipe ff) (f_writable ff))
      | FD_INODE | FD_DEVICE =>
        lift begin_op ;;
        ip <- the_inode ff ;;
        lift (iput ip) ;;
        lift end_op
      | FD_NONE => ret tt
      end.

(** [struct stat] as it lies in memory; [pad] is the hole before [size]. *)
Definition stat_bytes (pad : list Z) (st : stat) : list Z :=
  le_enc 4 (st_dev st) ++ le_enc 4 (st_ino st) ++ le_enc 2 (st_type st) ++
  le_enc 2 (st_nlink st) ++ pad ++ le_enc 8 (st_size st).

Definition filestat `{!Image} (f : nat) (addr : Z) : M kern Z :=
  i <- lift myproc ;;
  fl <- get_file f ;;
  match f_type fl with
  | FD_INODE | FD_DEVICE =>
    lift (ilock (f_ip fl)) ;;
    ip <- the_inode fl ;;
    st <- lift (stati ip) ;;
    lift (iunlock (f_ip fl)) ;;
    p <- lift (get_proc i) ;;
    r <- lift (copyout (p_pagetable p) addr (stat_bytes (take 4 uninitialised) st)) ;;
    if r <? 0 then ret (-1) else ret 0
  | _ => ret (-1)
  end.

(** The driver of device [major], if [0 <= major < NDEV] has one. *)
Definition device (major : Z) : M kern (option driver) :=
  s <- get ;;
  if (major <? 0) || (NDEV <=? major) then ret None else ret (devsw s !! major).

Definition fileread (f : nat) (addr n : Z) : M kern Z :=
  fl <- get_file f ;;
  if negb (f_readable fl) then ret (-1)
  else
    match f_type fl with
    | FD_PIPE => lift (piperead (f_pipe fl) addr n)
    | FD_DEVICE =>
      d <- device (f_major fl) ;;
      match d with
      | None => ret (-1)
      | Some ConsoleDriver => lift (consoleread (User addr) n)
      end
    | FD_INODE =>
      lift (ilock (f_ip fl)) ;;
      ip <- the_inode fl ;;
      fl <- get_file f ;;
      '(r, _) <- lift (readi ip (User addr) (f_off fl) (u32 n)) ;;
      when (0 <? r) (upd_file f (fun fl => fl <| f_off := u32 (f_off fl + r) |>)) ;;
      lift (iunlock (Some ip)) ;;
      ret r
    | FD_NONE => panic "fileread"
    end.

(** The most [filewrite] writes in one transaction. *)
Definition max_write : Z := (MAXOPBLOCKS - 1 - 1 - 2) / 2 * BSIZE.

(** The loop of [filewrite]: the value of [i] when it ends. *)
Fixpoint filewrite_loop (fuel : nat) (f ip : nat) (addr i n : Z) : M kern Z :=
  match fuel with
  | O => out_of_fuel
  | S fuel' =>
    if i <? n then
      let n1 := Z.min (n - i) max_write in
      lift begin_op ;;
      lift (ilock (Some ip)) ;;
      fl <- get_file f ;;
      r <- lift (writei ip (FromUser (u64 (addr + i))) (f_off fl) n1) ;;
      when (0 <? r) (upd_file f (fun fl => fl <| f_off := u32 (f_off fl + r) |>)) ;;
      lift (iunlock (Some ip)) ;;
      lift end_op ;;
      if negb (r =? n1) then ret i
      else filewrite_loop fuel' f ip addr (i + r) n
    else ret i
  end.

Definition filewrite (f : nat) (addr n : Z) : M kern Z :=
  fl <- get_file f ;;
  if negb (f_writable fl) then ret (-1)
  else
    match f_type fl with
    | FD_PIPE => lift (pipewrite (f_pipe fl) addr n)
    | FD_DEVICE =>
      d <- device (f_major fl) ;;
      match d with
      | None => ret (-1)
      | Some ConsoleDriver => lift (consolewrite (FromUser addr) n)
      end
    | FD_INODE =>
      ip <- the_inode fl ;;
      i <- filewrite_loop (S (Z.to_nat (n / max_write + 1))) f ip addr 0 n ;;
      ret (if i =? n then n else -1)
    | FD_NONE => panic "filewrite"
    end.

(** ** Creating a pipe, [pipealloc] of [kernel/pipe.c] *)

Definition pipe_end (f : nat) (readable writable : bool) (pi : Z) : M kern unit :=
  upd_file f (fun fl => fl <| f_type := FD_PIPE |> <| f_readable := readable |>
                           <| f_writable := writable |> <| f_pipe := pi |>).

(** The read end and the write end, or [None] for -1. *)
Definition pipealloc : M kern (option (nat * nat)) :=
  f0 <- filealloc ;;
  match f0 with
  | None => ret None
  | Some f0 =>
    f1 <- filealloc ;;
    match f1 with
    | None => fileclose f0 ;; ret None
    | Some f1 =>
      pi <- lift kalloc ;;
      if pi =? 0 then fileclose f0 ;; fileclose f1 ;; ret None
      else
        lift (pipeinit pi) ;;
        pipe_end f0 true false pi ;;
        pipe_end f1 false true pi ;;
        ret (Some (f0, f1))
    end
  end.

(** The end of [consoleinit] of [kernel/console.c]: the console's entry in
    the device switch. *)
Definition console_devsw : M kern unit :=
  modify (fun s => s <| devsw := <[CONSOLE := ConsoleDriver]> (devsw s) |>).
