(* ===== verification/FileSpec.v ===== *)
(** * Writing and reading through a file descriptor

    [filewrite] and [fileread] of [kernel/file.c] on a regular file, from the
    memory of the process to the blocks of the disk and back.  [filewrite]
    writes in transactions of at most [max_write] bytes: the file holds the
    bytes written, a short write happens only on a full disk or at the size
    limit, and a crash at any point, with any number of interrupted
    recoveries, leaves the file as some prefix of the write would, every
    other file untouched. *)
From stdpp Require Import base numbers strings decidable sets gmap functions list.
From S2P Require Import Prelude.
From S2P Require Import CString.
From S2P Require Import Riscv.
From S2P Require Import Sched.
From S2P Require Import Kalloc.
From S2P Require Import Vm.
From S2P Require Import VmInv.
From S2P Require Import Uvm.
From S2P Require Import VmCopy.
From S2P Require Import UserByte.
From S2P Require Import Sleeplock.
From S2P Require Import Console.
From S2P Require Import ConsoleSpec.
From S2P Require Import Pipe.
From S2P Require Import Bio.
From S2P Require Import Log.
From S2P Require Import LogOps.
From S2P Require Import LogCrash.
From S2P Require Import Fs.
From S2P Require Import Transfer.
From S2P Require Import Txn.
From S2P Require Import FsBlocks.
From S2P Require Import FsFile.
From S2P Require Import FsInode.
From S2P Require Import FsData.
From S2P Require Import FsWrite.
From S2P Require Import FsDisk.
From S2P Require Import FsOp.
From S2P Require Import MkfsSpec.
From S2P Require Import FsMount.
From S2P Require Import File.
Open Scope Z_scope.
Open Scope xv6_scope.

(** ** Parts of the kernel's state *)

Lemma lift_lg {A} (m : M lstate A) (K : kern) a f :
  (lift m : M fs A) (k_fs K) = Ok a f -> (lift m : M kern A) K = Ok a (K <| k_fs := f |>).
Proof.
  unfold lift. cbn [prj embed_lstate_fs embed_lstate_kern]. destruct (m (fs_log (k_fs K))); try done.
  cbn [lift_res]. by intros [= -> <-].
Qed.
Lemma get_file_ok f fl (K : kern) : ftable K !! f = Some fl -> get_file f K = Ok fl K.
Proof. intros E. unfold get_file. erewrite bind_ok by done. unfold index. by rewrite E. Qed.
Lemma upd_file_ok f fl g (K : kern) :
  ftable K !! f = Some fl -> upd_file f g K = Ok tt (K <| ftable := <[f := g fl]> (ftable K) |>).
Proof. intros E. unfold upd_file. by erewrite bind_ok by (by apply get_file_ok). Qed.

(** The offset moves by what was read or written. *)
Lemma move_off f fl r k s (K : kern) :
  ftable K !! f = Some fl -> 0 <= f_off fl -> f_off fl + k < 2 ^ 32 -> k = Z.max 0 r ->
  when (0 <? r) (upd_file f (fun fl => fl <| f_off := u32 (f_off fl + r) |>)) (K <| k_fs := s |>) =
  Ok tt (K <| k_fs := s |> <| ftable := <[f := fl <| f_off := f_off fl + k |>]> (ftable K) |>).
Proof.
  intros E H0 Hu ->. destruct (Z.ltb_spec 0 r) as [Hr|Hr]; cbn [when].
  - erewrite upd_file_ok by exact E. rewrite u32_small by lia. by rewrite Z.max_r by lia.
  - rewrite Z.max_l, Z.add_0_r by lia. unfold ret. f_equal.
    replace (<[f := _]> (ftable K)) with (ftable K); [by destruct K|].
    symmetry. apply list_insert_id. rewrite E. by destruct fl.
Qed.

Section filewrite.
Context (start pid : Z) (pr : nat) (root sz : Z) (F : leaves) (O : gset Z) (R W : Z -> Prop) (U : Z -> Z).
Notation inum K i := (i_inum (itable (k_fs K) !!! i)).

(** The kernel between two transactions of a write: process [pr] has its
    memory [U], and [f] is open on inode [i]. *)
Record writing (K : kern) (V : disk) (f i : nat) (fl : file) : Prop := {
  wg_ready : ready start pid (k_fs K) V i;
  wg_user : uctx (fmm (k_fs K)) pr root sz F O U R W [];
  wg_file : ftable K !! f = Some fl;
}.

(** [k] bytes of [bs] have been written, by the disk writes [w]. *)
Record progress (K : kern) (V : disk) (f i : nat) (fl : file) (bs : list Z) (k : Z)
    (K' : kern) (V' : disk) (w : wlog) : Prop := {
  pg_writing : writing K' V' f i (fl <| f_off := f_off fl + k |>);
  pg_holds : holds (sb (k_fs K)) V (inum K i) (f_off fl) bs k V';
  pg_frame : exists s', K' = K <| k_fs := s' |> <| ftable := <[f := fl <| f_off := f_off fl + k |>]> (ftable K) |> /\
    sb s' = sb (k_fs K) /\ exists ip, itable s' = <[i := ip]> (itable (k_fs K)) /\ i_inum ip = inum K i;
  pg_disk : drive (k_fs K') = (apply_writes (drive (k_fs K)).1 w, (drive (k_fs K)).2 ++ w);
  pg_crash : forall q d, recovered start (apply_writes (drive (k_fs K)).1 (take q w)) d ->
    exists m, 0 <= m <= k /\ holds (sb (k_fs K)) V (inum K i) (f_off fl) bs m d;
}.

Lemma drive_home K V f i fl :
  writing K V f i fl -> (forall b, length ((drive (k_fs K)).1 b) = bsize) /\ hb_n ((drive (k_fs K)).1 start) = 0 /\
  forall b, (drive (k_fs K)).1 b = V b.
Proof using.
  intros [[Id L _ _ _ _ _ _] _ _]. pose proof (idle_disk _ _ _ _ Id) as Hd. cbn [drive fst].
  split_and!; [|by rewrite Hd; apply Id|done]. intros b. rewrite Hd. eapply tx_len, Id.
Qed.

(** The end of the transaction. *)
Lemma finish_ok {A} K V f i fl bs k s3 V3 l3 (c : M kern A) :
  let j := inum K i in
  writing K V f i fl -> inside start pid s3 V3 l3 i -> ops s3 = (1, 0) -> sb s3 = sb (k_fs K) -> drive s3 = drive (k_fs K) ->
  (exists ip, itable s3 = <[i := ip]> (itable (k_fs K)) /\ i_inum ip = j) ->
  uctx (fmm s3) pr root sz F O U R W [] -> (length l3 < NBUF)%nat -> 0 <= k ->
  holds (sb (k_fs K)) V j (f_off fl) bs k V3 ->
  let K3 := K <| k_fs := s3 |> <| ftable := <[f := fl <| f_off := f_off fl + k |>]> (ftable K) |> in
  exists K' V' w, (lift (iunlock (Some i)) ;; lift end_op ;; c) K3 = c K' /\
    progress K V f i fl bs k K' V' w /\ same_fs (sb (k_fs K)) V3 V'.
Proof using.
  intros j Hw In3 Op3 Sb3 Dr3 (ip3 & It3 & Nm3) Us3 Hl Hk Ho K3. pose proof Hw as [Rd Us Fl].
  pose proof Rd as [Id L Hmap Wf [Hi _ _ _] Co Lk Lv]. destruct (drive_home _ _ _ _ _ Hw) as (Dl & D0 & Dv).
  assert (Ei3 : itable s3 !!! i = ip3) by (by rewrite It3, list_lookup_total_insert_eq).
  destruct (leave_ok start pid s3 V3 l3 i In3 Op3) as
    (s4 & s5 & V5 & w & E4 & E5 & Rd5 & Sf5 & Sb5 & Mm5 & Dr5 & At5 & ip5 & It5 & Nm5);
    rewrite ?Sb3, ?Dr3, ?Ei3, ?Nm3; try done; try apply Ho.
  rewrite ?Sb3, ?Dr3, ?Ei3 in *.
  erewrite bind_ok by (by apply lift_ok). erewrite bind_ok by (by apply lift_lg).
  eexists _, V5, w. split; [done|]. split; [|done].
  assert (Lt : (f < length (ftable K))%nat) by (by eapply lookup_lt_Some).
  split.
  - split; [done|eapply uctx_woke; [exact Us3|exact Mm5]|]. by apply list_lookup_insert_eq.
  - eapply holds_same; [exact L|exact Sf5|exact Ho].
  - exists s5. split; [done|]. split; [done|]. exists ip5. rewrite It5, It3, list_insert_insert_eq. split; [done|by rewrite Nm5, Nm3].
  - done.
  - intros q d Rc. destruct (At5 q d Rc) as [Hd|Hd].
    + exists 0. split; [lia|]. eapply holds_same; [done| |by apply holds_none].
      intros b Hb. rewrite <- Dv. by eapply Hd, home_high.
    + exists k. split; [lia|]. eapply holds_same; [done| |exact Ho]. intros b Hb. by eapply Hd, home_high.
Qed.

(** The transaction of [filewrite], its result [r] for the loop [c]. *)
Lemma chunk_ok {A} K V f i fl a bs (c : Z -> M kern A) :
  let n := Z.of_nat (length bs) in let size := dsize (sb (k_fs K)) V (inum K i) in
  writing K V f i fl -> 0 <= f_off fl < 2 ^ 32 -> 0 < n <= max_write ->
  0 <= a -> a + n <= MAXVA -> bs = read_bytes U a (length bs) ->
  (forall k : nat, (k < length bs)%nat -> R (a + Z.of_nat k)) ->
  exists r k K' V' w,
    (lift begin_op ;; lift (ilock (Some i)) ;; fl <- get_file f ;;
     r <- lift (writei i (FromUser a) (f_off fl) n) ;;
     when (0 <? r) (upd_file f (fun fl => fl <| f_off := u32 (f_off fl + r) |>)) ;;
     lift (iunlock (Some i)) ;; lift end_op ;; c r) K = c r K' /\
    progress K V f i fl bs k K' V' w /\ 0 <= k <= n /\
    ((r = k /\ f_off fl <= size /\ f_off fl + n <= MAXFILE * BSIZE /\ (k < n -> full (sb (k_fs K)) V')) \/
     (r = -1 /\ k = 0 /\ (size < f_off fl \/ MAXFILE * BSIZE < f_off fl + n))).
Proof using.
  intros n size Hw Hoff Hn Ha Hmax Hbs HR. pose proof Hw as [Rd Us Fl].
  destruct (drive_home _ _ _ _ _ Hw) as (Dl & D0 & Dv).
  destruct (enter_ok start pid (k_fs K) V i Rd) as (s1 & s2 & E1 & E2 & In2 & Mm2 & Dr2 & Sb2 & Op2 & ip2 & It2 & Nm2).
  erewrite bind_ok by (by apply lift_lg). erewrite bind_ok by (by apply lift_ok).
  set (K2 := K <| k_fs := s2 |>).
  erewrite bind_ok by (apply get_file_ok; exact Fl).
  pose proof Rd as [Id L Hmap Wf Rf Co Lk Lv].
  assert (Q2 : user_supply pr root sz F O R W U (FromUser a) bs (fmm s2)).
  { exists a. split_and!; try done. by eapply uctx_woke. }
  pose proof In2 as [Fl2 Rf2 Lk2 Sm2].
  assert (Ei2 : itable s2 !!! i = ip2).
  { rewrite It2. apply list_lookup_total_insert_eq. apply Rf. }
  assert (Es2 : i_size (itable s2 !!! i) = size).
  { change (i_size ?x) with (di_size (to_dinode x)). rewrite Sm2, Sb2, Ei2, Nm2. done. }
  assert (Hblk : (nblk (f_off fl / BSIZE) (f_off fl + n) <= 4)%nat).
  { unfold nblk. change max_write with 3072 in Hn. fslia. }
  assert (Hroom : (length (@nil Z) + nbitmap (sb s2) + nblk (f_off fl / BSIZE) (f_off fl + n) + 6 < NBUF)%nat).
  { rewrite Sb2. simpl. unfold MAXOPBLOCKS in Hmap. unfold NBUF, MAXOPBLOCKS. lia. }
  pose proof (writei_ok start pid (user_supply pr root sz F O R W U) s2 V [] i (FromUser a) (f_off fl) n bs
    Fl2 ltac:(unfold in_op; by rewrite Op2) Q2 eq_refl Hoff ltac:(change max_write with 3072 in Hn; lia) Hroom) as Hwr.
  rewrite Es2 in Hwr. destruct (decide _) as [[Hs Hm]|Hno].
  - destruct Hwr as (k & s3 & V3 & l3 & E3 & Hk & Wr & Hfl & src' & a' & _ & _ & _ & Us3 & _).
    destruct (inside_wfile start pid s2 V [] i (f_off fl) bs k s3 V3 l3 In2) as (In3 & Ho3 & Nm3); rewrite ?Sb2, ?Ei2, ?Nm2; try done.
    rewrite Sb2, Ei2, Nm2 in *.
    destruct (finish_ok K V f i fl bs k s3 V3 l3 (c k)) as (K' & V' & w & EK & Pg & Sf); try done.
    + by rewrite (wf_op _ _ _ _ _ _ _ _ _ _ _ _ Wr).
    + by rewrite (wf_sb _ _ _ _ _ _ _ _ _ _ _ _ Wr).
    + by rewrite (wf_drive _ _ _ _ _ _ _ _ _ _ _ _ Wr).
    + destruct (wf_inode _ _ _ _ _ _ _ _ _ _ _ _ Wr) as [addrs Eit].
      rewrite It2, list_insert_insert_eq, list_lookup_total_insert_eq in Eit by apply Rf. eexists. split; [exact Eit|].
      rewrite <- Nm3, Eit. by rewrite list_lookup_total_insert_eq by apply Rf.
    + pose proof (wf_log _ _ _ _ _ _ _ _ _ _ _ _ Wr) as Hlog. rewrite Sb2 in Hlog. simpl in Hlog.
      fold n in Hlog. simpl in Hroom. lia.
    + lia.
    + exists k, k, K', V', w. erewrite bind_ok by (by apply lift_ok).
      split; [|split; [done|split; [done|]]].
      * change (inj s3 _) with (K <| k_fs := s3 |>). erewrite bind_ok; [exact EK|]. apply move_off; try done; [lia|change (MAXFILE * BSIZE) with 274432 in Hm; lia|lia].
      * left. split_and!; [done|done|done|]. intros Hlt. eapply (agree_full start); [done|by eapply same_agree|]. by apply Hfl.
  - destruct (finish_ok K V f i fl bs 0 s2 V [] (c (-1))) as (K' & V' & w & EK & Pg & Sf); try done.
    + by exists ip2.
    + by eapply uctx_woke.
    + by apply Nat.ltb_lt.
    + by apply holds_none.
    + exists (-1), 0, K', V', w. erewrite bind_ok by (by apply lift_ok).
      split; [|split; [done|split; [lia|]]].
      * change (inj s2 _) with (K <| k_fs := s2 |>). erewrite bind_ok; [exact EK|]. apply move_off; try done; lia.
      * right. split_and!; [done|done|lia].
Qed.

Lemma progress_none K V f i fl bs : writing K V f i fl -> progress K V f i fl bs 0 K V [].
Proof using.
  intros Hw. pose proof Hw as [Rd Us Fl]. pose proof Rd as [Id L Hmap Wf Rf Co Lk Lv].
  assert (Ef : fl <| f_off := f_off fl + 0 |> = fl) by (rewrite Z.add_0_r; by destruct fl).
  split; rewrite ?Ef.
  - done.
  - by apply holds_none.
  - exists (k_fs K). rewrite list_insert_id by done. split; [by destruct K|]. split; [done|].
    exists (itable (k_fs K) !!! i). split; [|done]. rewrite list_insert_id; [done|].
    apply list_lookup_lookup_total_lt, Rf.
  - by rewrite app_nil_r.
  - intros q d Rc. rewrite take_nil in Rc. exists 0. split; [lia|].
    eapply holds_same; [done|by eapply idle_recovers|]. by apply holds_none.
Qed.

Lemma progress_take K V f i fl bs (n : nat) k K' V' w :
  k <= Z.of_nat n -> progress K V f i fl (take n bs) k K' V' w -> progress K V f i fl bs k K' V' w.
Proof using.
  intros Hk [Wr H Fr D C].
  assert (Hh : forall m d, m <= k -> holds (sb (k_fs K)) V (inum K i) (f_off fl) (take n bs) m d ->
    holds (sb (k_fs K)) V (inum K i) (f_off fl) bs m d).
  { intros m d Hm [W1 L1 C1 O1]. split; try done. rewrite C1, take_take. do 2 f_equal. lia. }
  split; try done; [by apply Hh|]. intros q d Rc. destruct (C q d Rc) as (m & Hm & Hd).
  exists m. split; [done|]. apply Hh; [lia|done].
Qed.

Lemma progress_trans K V f i fl bs m K1 V1 w1 k K2 V2 w2 :
  0 <= f_off fl -> 0 <= m <= Z.of_nat (length bs) -> 0 <= k ->
  progress K V f i fl bs m K1 V1 w1 ->
  progress K1 V1 f i (fl <| f_off := f_off fl + m |>) (drop (Z.to_nat m) bs) k K2 V2 w2 ->
  progress K V f i fl bs (m + k) K2 V2 (w1 ++ w2).
Proof using.
  intros Ho Hm Hk [Wr1 H1 (s1 & E1 & Sb1 & ip1 & It1 & Nm1) D1 C1] [Wr2 H2 (s2 & E2 & Sb2 & ip2 & It2 & Nm2) D2 C2].
  assert (Esb : sb (k_fs K1) = sb (k_fs K)) by (by rewrite E1).
  assert (Hi : (i < length (itable (k_fs K)))%nat).
  { destruct (wg_ready _ _ _ _ _ Wr1) as [_ _ _ _ [Hi _ _ _] _ _ _]. rewrite E1 in Hi. cbn in Hi.
    by rewrite It1, length_insert in Hi. }
  assert (Enm : inum K1 i = inum K i).
  { rewrite E1. cbn. by rewrite It1, list_lookup_total_insert_eq. }
  assert (Efl : fl <| f_off := f_off fl + m |> <| f_off := f_off fl + m + k |> = fl <| f_off := f_off fl + (m + k) |>).
  { rewrite Z.add_assoc. by destruct fl. }
  change (f_off (fl <| f_off := ?x |>)) with x in *. rewrite Esb, Enm in *. rewrite Efl in *.
  split; [done|by eapply holds_trans| | |].
  - exists s2. split; [|split; [done|]].
    + rewrite E2, E1. cbn. rewrite list_insert_insert_eq. by destruct K.
    + exists ip2. split; [|done]. rewrite It2, E1. cbn. by rewrite It1, list_insert_insert_eq.
  - rewrite D2, D1. cbn [fst snd]. by rewrite apply_writes_app, app_assoc.
  - intros q d. destruct (decide (q <= length w1)%nat) as [Hq|Hq].
    + rewrite take_app_le by done. intros Rc. destruct (C1 q d Rc) as (m' & Hm' & Hd). exists m'. split; [lia|done].
    + rewrite take_app_ge, apply_writes_app by lia. intros Rc.
      destruct (C2 (q - length w1)%nat d) as (m' & Hm' & Hd); [by rewrite D1|].
      exists (m + m'). split; [lia|]. eapply holds_trans; try done; lia.
Qed.

(** Why a write can fall short. *)
Definition short_write (K : kern) (V : disk) (i : nat) (off n : Z) (V' : disk) : Prop :=
  full (sb (k_fs K)) V' \/ dsize (sb (k_fs K)) V (inum K i) < off \/ MAXFILE * BSIZE < off + n.

Lemma length_dcontents sb V j : 0 <= dsize sb V j -> Z.of_nat (length (dcontents sb V j)) = dsize sb V j.
Proof using. intros H. unfold dcontents, fbytes. rewrite length_fmap, length_seqZ. lia. Qed.

(** After [m] bytes at [off], within the file, the file reaches [off + m]. *)
Lemma holds_size sb V j off bs m V1 :
  0 <= dsize sb V j -> 0 <= off <= dsize sb V j -> 0 <= m <= Z.of_nat (length bs) ->
  holds sb V j off bs m V1 -> off + m <= dsize sb V1 j.
Proof using.
  intros Hs Ho Hm [W1 L1 C1 _]. rewrite <- length_dcontents by (by apply W1).
  rewrite C1. pose proof (length_dcontents sb V j Hs). unfold splice. len.
Qed.

Lemma filewrite_loop_S fuel f ip addr i n :
  filewrite_loop (S fuel) f ip addr i n =
    if i <? n then
      let n1 := Z.min (n - i) max_write in
      lift begin_op ;; lift (ilock (Some ip)) ;; fl <- get_file f ;;
      r <- lift (writei ip (FromUser (u64 (addr + i))) (f_off fl) n1) ;;
      when (0 <? r) (upd_file f (fun fl => fl <| f_off := u32 (f_off fl + r) |>)) ;;
      lift (iunlock (Some ip)) ;; lift end_op ;;
      if negb (r =? n1) then ret i else filewrite_loop fuel f ip addr (i + r) n
    else ret i.
Proof using. done. Qed.

Lemma filewrite_loop_ok fuel K V f i fl addr tot n bs :
  let n' := n - tot in
  writing K V f i fl -> 0 <= f_off fl < 2 ^ 32 -> 0 <= tot -> n' = Z.of_nat (length bs) ->
  0 <= addr -> addr + n <= MAXVA -> bs = read_bytes U (addr + tot) (length bs) ->
  (forall k : nat, (k < length bs)%nat -> R (addr + tot + Z.of_nat k)) ->
  n' <= Z.of_nat fuel * max_write ->
  exists v k K' V' w, filewrite_loop (S fuel) f i addr tot n K = Ok v K' /\
    progress K V f i fl bs k K' V' w /\ 0 <= k <= n' /\
    ((v = n /\ k = n') \/ (v < n /\ k < n' /\ short_write K V i (f_off fl) n' V')).
Proof using.
  revert K V fl tot bs. induction fuel as [|fuel IH];
    intros K V fl tot bs n' Hw Hoff Htot Hn Ha Hva Hbs HR Hf; rewrite filewrite_loop_S.
  { rewrite (proj2 (Z.ltb_ge _ _)) by lia. exists tot, 0, K, V, [].
    split_and!; [done|by apply progress_none|lia|lia|left; lia]. }
  destruct (Z.ltb_spec tot n) as [Hlt|Hge].
  2: { exists tot, 0, K, V, []. split_and!; [done|by apply progress_none|lia|lia|left; lia]. }
  fold n'. cbv zeta. set (n1 := Z.min n' max_write). change max_write with 3072 in *.
  rewrite u64_small by (change MAXVA with (2 ^ 38) in Hva; lia).
  set (bs1 := take (Z.to_nat n1) bs). assert (Hl1 : length bs1 = Z.to_nat n1) by (unfold bs1; len).
  assert (Hr1 : bs1 = read_bytes U (addr + tot) (length bs1)).
  { rewrite Hl1. unfold bs1. rewrite Hbs at 1. apply read_bytes_split. lia. }
  destruct (chunk_ok K V f i fl (addr + tot) bs1
    (fun r => if negb (r =? n1) then ret tot else filewrite_loop (S fuel) f i addr (tot + r) n))
    as (r & k & K1 & V1 & w1 & E1 & Pg1 & Hk1 & HR1); try done; try lia.
  { change max_write with 3072. lia. }
  { intros k Hk. apply HR. lia. }
  rewrite Hl1, Z2Nat.id in E1, Hk1, HR1 by lia. rewrite E1. apply progress_take in Pg1; [|lia].
  destruct HR1 as [(-> & Hs1 & Hm1 & Hfl)|(-> & -> & Hwhy)].
  2: { rewrite (proj2 (Z.eqb_neq (-1) n1)) by lia. exists tot, 0, K1, V1, w1.
       split_and!; [done|done|lia|lia|]. right. split_and!; [done|lia|]. right. destruct Hwhy; [by left|right; lia]. }
  destruct (Z.eqb_spec k n1) as [->|Hne]; cbn [negb].
  2: { exists tot, k, K1, V1, w1. split_and!; [done|done|lia|lia|]. right. split_and!; [done|lia|]. left. apply Hfl. lia. }
  pose proof (pg_holds _ _ _ _ _ _ _ _ _ _ Pg1) as Ho1.
  pose proof (wg_ready _ _ _ _ _ Hw) as [_ _ _ Wf _ _ _ Lv].
  assert (Hsz : f_off fl + n1 <= dsize (sb (k_fs K)) V1 (inum K i)).
  { eapply (holds_size _ V _ _ bs); [apply Wf, Lv|split; [lia|exact Hs1]|lia|done]. }
  change (MAXFILE * BSIZE) with 274432 in Hm1.
  destruct (IH K1 V1 (fl <| f_off := f_off fl + n1 |>) (tot + n1) (drop (Z.to_nat n1) bs))
    as (v & k & K2 & V2 & w2 & E2 & Pg2 & Hk2 & HR2).
  - apply Pg1.
  - cbn. lia.
  - lia.
  - len.
  - done.
  - done.
  - rewrite length_drop, Hbs at 1. destruct (read_bytes_split U (addr + tot) (length bs) (Z.to_nat n1)) as [_ ->]; [lia|].
    f_equal; lia.
  - intros k Hk. rewrite length_drop in Hk.
    replace (addr + (tot + n1) + Z.of_nat k) with (addr + tot + Z.of_nat (Z.to_nat n1 + k)) by lia. apply HR. lia.
  - change max_write with 3072. lia.
  - exists v, (n1 + k), K2, V2, (w1 ++ w2). split; [exact E2|].
    split; [eapply progress_trans; try done; lia|]. split; [lia|].
    destruct HR2 as [[-> ->]|(Hv & Hk & Hsh)]; [left; lia|right]. split_and!; [done|lia|].
    destruct (pg_frame _ _ _ _ _ _ _ _ _ _ Pg1) as (s1 & EK1 & Sb1 & ip1 & It1 & Nm1).
    assert (Esb : sb (k_fs K1) = sb (k_fs K)) by (by rewrite EK1).
    assert (Enm : inum K1 i = inum K i).
    { rewrite EK1. cbn. rewrite It1, list_lookup_total_insert_eq; [done|].
      by destruct (wg_ready _ _ _ _ _ Hw) as [_ _ _ _ [] _ _ _]. }
    unfold short_write in *. rewrite Esb, Enm in Hsh. change (f_off (fl <| f_off := _ |>)) with (f_off fl + n1) in Hsh.
    destruct Hsh as [|[|]]; [by left|lia|right; right; lia].
Qed.

Lemma filewrite_ok K V f i fl addr bs :
  let n := Z.of_nat (length bs) in
  writing K V f i fl -> f_type fl = FD_INODE -> f_writable fl = true -> f_ip fl = Some i ->
  0 <= f_off fl < 2 ^ 32 -> 0 <= addr -> addr + n <= MAXVA -> bs = read_bytes U addr (length bs) ->
  (forall k : nat, (k < length bs)%nat -> R (addr + Z.of_nat k)) ->
  exists r k K' V' w, filewrite f addr n K = Ok r K' /\
    progress K V f i fl bs k K' V' w /\ 0 <= k <= n /\
    ((r = n /\ k = n) \/ (r = -1 /\ k < n /\ short_write K V i (f_off fl) n V')).
Proof using.
  intros n Hw Ht Hwr Hip Hoff Ha Hva Hbs HR. unfold filewrite.
  erewrite bind_ok by (apply get_file_ok, Hw). rewrite Hwr, Ht. cbn [negb]. unfold the_inode. rewrite Hip.
  erewrite bind_ok by done.
  destruct (filewrite_loop_ok (Z.to_nat (n / max_write + 1)) K V f i fl addr 0 n bs)
    as (v & k & K' & V' & w & E & Pg & Hk & HR'); rewrite ?Z.sub_0_r, ?Z.add_0_r; try done.
  - change max_write with 3072. Z.to_euclidean_division_equations; lia.
  - rewrite Z.sub_0_r in *. erewrite bind_ok by exact E. eexists _, k, K', V', w. split_and!; [done|done|lia|lia|].
    destruct HR' as [[-> ->]|(Hv & Hlt & Hsh)]; [left; by rewrite Z.eqb_refl|right].
    by rewrite (proj2 (Z.eqb_neq v n)) by lia.
Qed.

(** C1: a write through a descriptor.  [filewrite] of the [n] bytes [bs]
    of the process, all in readable memory, to a regular file between
    transactions, returns [n], the whole of [bs] being in the file at its
    offset, which has moved by [n]; or it returns -1, having written [k] of
    the bytes, because the disk is full, or the offset is past the end of the
    file, or the file would exceed [MAXFILE] blocks.  No other file changes,
    the file system stays sound, and if the machine crashes after any of the
    disk writes [w], recoveries that complete, however often interrupted,
    leave the file as the write of some first [m] of the [k] bytes would and
    every other file as it was. *)
Theorem filewrite_spec K V f i fl addr bs :
  let n := Z.of_nat (length bs) in
  writing K V f i fl -> f_type fl = FD_INODE -> f_writable fl = true -> f_ip fl = Some i ->
  0 <= f_off fl < 2 ^ 32 -> 0 <= addr -> addr + n <= MAXVA -> bs = read_bytes U addr (length bs) ->
  (forall k : nat, (k < length bs)%nat -> R (addr + Z.of_nat k)) ->
  exists r k K' V' w, filewrite f addr n K = Ok r K' /\
    progress K V f i fl bs k K' V' w /\ 0 <= k <= n /\
    ((r = n /\ k = n) \/ (r = -1 /\ k < n /\ short_write K V i (f_off fl) n V')).
Proof using. apply filewrite_ok. Qed.
End filewrite.

Section fileread.
Context (start pid : Z) (pr : nat) (root sz : Z) (F : leaves) (O : gset Z) (R W : Z -> Prop).
Notation writing := (writing start pid pr root sz F O R W).

Lemma fileread_ok K V U f i fl addr n :
  let sb := sb (k_fs K) in let j := i_inum (itable (k_fs K) !!! i) in
  let len := readable (dsize sb V j) (f_off fl) n in
  let bytes := take (Z.to_nat len) (drop (Z.to_nat (f_off fl)) (dcontents sb V j)) in
  writing U K V f i fl -> f_type fl = FD_INODE -> f_readable fl = true -> f_ip fl = Some i ->
  0 <= f_off fl < 2 ^ 32 -> 0 <= n < 2 ^ 31 -> 0 <= addr -> addr + n < 2 ^ 64 ->
  exists r K' U', fileread f addr n K = Ok r K' /\
    ((r = len /\ U' = write_bytes U addr bytes /\ writing U' K' V f i (fl <| f_off := f_off fl + len |>)) \/
     (r = -1 /\ writing U' K' V f i fl /\ ~ forall k : nat, (k < Z.to_nat n)%nat -> W (addr + Z.of_nat k))).
Proof.
  intros sb j len bytes Hw Ht Hrd Hip Hoff Hn Ha Hva. pose proof Hw as [Rd Us Fl]. unfold fileread.
  erewrite bind_ok by (apply get_file_ok, Hw). rewrite Hrd, Ht. cbn [negb]. rewrite Hip.
  pose proof Rd as [Id L Hmap Wf Rf Co Lk Lv].
  destruct (lock_ok start pid (k_fs K) V [] i (id_tx _ _ _ _ Id) ltac:(by apply Nat.ltb_lt) L Wf Rf Co Lk Lv)
    as (s1 & E1 & In1 & Mm1 & Dr1 & Sb1 & Op1 & ip1 & It1 & Nm1).
  erewrite bind_ok by (by apply lift_ok). unfold the_inode. rewrite Hip. erewrite bind_ok by done.
  change (inj s1 K) with (K <| k_fs := s1 |>).
  erewrite bind_ok by (apply get_file_ok; exact Fl). rewrite (u32_small n) by lia.
  pose proof In1 as [[[T1 L1 M1 Hi1 Hd1 Ok1] Hin1 Hsz1 Hfil1 Hsh1] Rf1 Lk1 Sm1].
  assert (Ei1 : itable s1 !!! i = ip1) by (rewrite It1; apply list_lookup_total_insert_eq, Rf).
  rewrite Ei1, Sb1, Nm1 in *. fold sb j in Sm1.
  assert (Es1 : i_size ip1 = dsize sb V j) by (by rewrite <- Sm1).
  assert (Ea1 : i_addrs ip1 = daddrs sb V j) by (by rewrite <- Sm1).
  destruct (readi_ok start pid (Z.to_nat n) (user_sink pr root sz F O R W U addr (Z.to_nat n))
    (user_short pr root sz F O R W U addr (Z.to_nat n)) s1 V [] i (User addr) (f_off fl) n)
    as (r & out & s2 & E2 & T2 & Fs2 & HR); rewrite ?Ei1; try done; try lia.
  { by apply Nat.ltb_lt. }
  { split_and!; [f_equal; simpl; lia|done|lia|]. by eapply uctx_woke. }
  rewrite Ei1, Es1, Ea1 in HR. fold len in HR.
  assert (Hlen : 0 <= len <= 274432 /\ (len = 0 \/ f_off fl + len <= dsize sb V j) /\ dsize sb V j <= 274432).
  { rewrite Es1 in Hsz1. change (MAXFILE * BSIZE) with 274432 in Hsz1. unfold len, readable. case_match; lia. }
  rewrite (fbytes_slice V _ (dsize sb V j)) in HR by lia. fold (dcontents sb V j) bytes in HR.
  pose proof (inside_fsame _ _ _ _ _ _ _ In1 T2 Fs2) as In2.
  destruct (unlock_ok start pid s2 V [] i In2) as (s3 & E3 & T3 & R3 & Co3 & Lk3 & Sb3 & Op3 & Dr3 & Mm3 & ip3 & It3 & Nm3).
  erewrite bind_ok by (by apply lift_ok). cbv beta iota. change (inj s2 _) with (K <| k_fs := s2 |>).
  assert (Esb : Fs.sb s3 = sb) by (rewrite Sb3, (fe_sb _ _ Fs2); done).
  assert (Rd3 : ready start pid s3 V i).
  { assert (Ei3 : i_inum (itable s3 !!! i) = j).
    { rewrite It3, list_lookup_total_insert_eq by apply In2. by rewrite Nm3, (fe_itable _ _ Fs2), Ei1. }
    split; rewrite ?Esb, ?Ei3; try done. split; [done| |apply Id]. by rewrite Op3, (fe_out _ _ Fs2), Op1, (id_ops _ _ _ _ Id). }
  assert (Fin : forall k, k = Z.max 0 r -> f_off fl + k < 2 ^ 32 ->
    exists K', (when (0 <? r) (upd_file f (fun fl => fl <| f_off := u32 (f_off fl + r) |>)) ;;
      lift (iunlock (Some i)) ;; ret r) (K <| k_fs := s2 |>) = Ok r K' /\
      k_fs K' = s3 /\ ftable K' = <[f := fl <| f_off := f_off fl + k |>]> (ftable K)).
  { intros k Hk Hu. eexists. erewrite bind_ok by (apply (move_off f fl r k s2 K Fl); lia).
    by erewrite bind_ok by (by apply lift_ok). }
  assert (Lt : (f < length (ftable K))%nat) by (by eapply lookup_lt_Some).
  destruct HR as [(-> & -> & d & _ & _ & _ & Us2)|(-> & k & Hk & -> & rest & Us2 & _ & Hno)].
  - destruct (Fin len) as (K' & EK & Ek & Ef); [lia|lia|]. exists len, K', (write_bytes U addr bytes).
    split; [exact EK|]. left. split_and!; [done|done|]. split; rewrite ?Ek, ?Ef; [done|by eapply uctx_woke|].
    by apply list_lookup_insert_eq.
  - destruct (Fin 0) as (K' & EK & Ek & Ef); [lia|lia|].
    exists (-1), K', (write_bytes U addr (fbytes V (daddrs sb V j) (f_off fl) k ++ rest)).
    split; [exact EK|]. right. split; [done|]. split; [|done]. split; rewrite ?Ek, ?Ef; [done|by eapply uctx_woke|].
    rewrite list_lookup_insert_eq by done. rewrite Z.add_0_r. by destruct fl.
Qed.

Lemma splice_slice {A} off (xs c : list A) :
  (off <= length c)%nat -> take (length xs) (drop off (splice off xs c)) = xs.
Proof.
  intros H. unfold splice. rewrite drop_app_length' by len. by rewrite take_app_length.
Qed.

(** C2: what was written is read back.  After a [filewrite] of [bs] that
    returned its length, [fileread] through another descriptor with the same
    offset, into writable memory, returns that length and leaves [bs] in the
    memory of the process. *)
Theorem write_then_read K V U f g i fl gl a b bs :
  let n := Z.of_nat (length bs) in
  writing U K V f i fl -> f_type fl = FD_INODE -> f_writable fl = true -> f_ip fl = Some i ->
  ftable K !! g = Some gl -> g <> f -> f_type gl = FD_INODE -> f_readable gl = true -> f_ip gl = Some i ->
  f_off gl = f_off fl -> 0 <= f_off fl <= dsize (sb (k_fs K)) V (i_inum (itable (k_fs K) !!! i)) ->
  0 <= a -> a + n <= MAXVA -> bs = read_bytes U a (length bs) ->
  (forall k : nat, (k < length bs)%nat -> R (a + Z.of_nat k)) -> n < 2 ^ 31 ->
  0 <= b -> b + n <= MAXVA -> (forall k : nat, (k < length bs)%nat -> W (b + Z.of_nat k)) ->
  exists r K1, filewrite f a n K = Ok r K1 /\
    (r = n -> exists K2 V2 U2, fileread g b n K1 = Ok n K2 /\ read_bytes U2 b (length bs) = bs /\
       writing U2 K2 V2 g i (gl <| f_off := f_off gl + n |>)).
Proof.
  intros n Hw Ht Hwr Hip Hg Hne Htg Hrd Hipg Eoff Hoff Ha Hva Hbs HR Hn Hb Hvb HW.
  pose proof (wg_ready _ _ _ _ _ _ _ _ _ _ _ _ _ _ _ Hw) as [Id L Hmap Wf Rf Co Lk Lv].
  destruct (fw_file _ _ Wf _ Lv) as [_ Hsz _]. change (MAXFILE * BSIZE) with 274432 in Hsz.
  destruct (filewrite_ok start pid pr root sz F O R W U K V f i fl a bs)
    as (r & k & K1 & V1 & w & E & Pg & Hk & HR1); try done; [lia|].
  exists r, K1. split; [done|]. intros ->.
  assert (k = n) as -> by (destruct HR1 as [[_ ->]|(? & _)]; lia).
  destruct Pg as [Wr1 Ho1 (s1 & EK1 & Sb1 & ip1 & It1 & Nm1) _ _].
  assert (Wg : writing U K1 V1 g i gl).
  { destruct Wr1 as [Rd1 Us1 _]. split; [done|done|]. rewrite EK1. cbn. by rewrite list_lookup_insert_ne. }
  assert (Esb : sb (k_fs K1) = sb (k_fs K)) by (by rewrite EK1).
  assert (Enm : i_inum (itable (k_fs K1) !!! i) = i_inum (itable (k_fs K) !!! i)).
  { rewrite EK1. cbn. rewrite It1, list_lookup_total_insert_eq; [done|apply Rf]. }
  assert (Hs1 : f_off fl + n <= dsize (sb (k_fs K)) V1 (i_inum (itable (k_fs K) !!! i))).
  { eapply (holds_size _ V _ _ bs); [lia|done|lia|done]. }
  destruct (fileread_ok K1 V1 U g i gl b n) as (r & K2 & U2 & E2 & HR2); rewrite ?Eoff; try done; try lia.
  { change MAXVA with (2 ^ 38) in Hvb. lia. }
  rewrite Esb, Enm, Eoff in HR2.
  assert (El : readable (dsize (sb (k_fs K)) V1 (i_inum (itable (k_fs K) !!! i))) (f_off fl) n = n).
  { unfold readable. destruct (fw_file _ _ (hd_wf _ _ _ _ _ _ _ Ho1) _ (hd_live _ _ _ _ _ _ _ Ho1)) as [_ Hsz1 _].
    change (MAXFILE * BSIZE) with 274432 in Hsz1. rewrite (proj2 (Z.ltb_lt _ _)) by lia. lia. }
  rewrite El in HR2. destruct HR2 as [(-> & -> & Wr2)|(_ & _ & Hno)].
  2: { destruct Hno. intros h Hh. apply HW. lia. }
  rewrite (hd_contents _ _ _ _ _ _ _ Ho1) in Wr2. unfold n in Wr2. rewrite !Nat2Z.id, firstn_all, splice_slice in Wr2.
  2: { pose proof (length_dcontents (sb (k_fs K)) V (i_inum (itable (k_fs K) !!! i)) (proj1 Hsz)). lia. }
  exists K2, V1, (write_bytes U b bs). split_and!; [done|apply read_write_bytes|]. exact Wr2.
Qed.
End fileread.

(** ** The theorems on a concrete machine

    The machine of [FsMount], with two descriptors open on inode 2, both past
    the two bytes the file has: one to write, one to read. *)
Definition demo_file (r w : bool) : file := mkfile FD_INODE 1 r w 0 (Some 0%nat) 2 0.
Definition kern_demo : kern := mkkern fs_open (cons_demo []) [demo_file false true; demo_file true false] ∅ ∅ false.
Notation demo_own := (uown (reverse demo_pages) {[ [] := demo_root ]} ∅).
Notation demo_mem := (write_bytes (fun _ => 0) 4090 sevens).

Lemma kern_demo_writing :
  exists V, writing 2 7 3 demo_root (4 * PGSIZE) ∅ demo_own (span 4090 10) (span 4090 10) demo_mem
    kern_demo V 0 0 (demo_file false true) /\ dsize (sb (k_fs kern_demo)) V (i_inum (itable (k_fs kern_demo) !!! 0%nat)) = 2.
Proof.
  destruct fs_open_ok as (V & Rd & St & En & Es & Us). exists V. split; [split; [exact Rd|exact Us|reflexivity]|].
  change (k_fs kern_demo) with fs_open. rewrite En, Es. exact (MkfsSpec.st_size _ _ _ _ St).
Qed.
Lemma demo_readable k : (k < 10)%nat -> span 4090 10 (4090 + Z.of_nat k).
Proof. unfold span. lia. Qed.

Lemma filewrite_spec_witness :
  exists V r k K' V' w, filewrite 0 4090 10 kern_demo = Ok r K' /\
    progress 2 7 3 demo_root (4 * PGSIZE) ∅ demo_own (span 4090 10) (span 4090 10) demo_mem
      kern_demo V 0 0 (demo_file false true) sevens k K' V' w /\ 0 <= k <= 10 /\
    ((r = 10 /\ k = 10) \/ (r = -1 /\ k < 10 /\ short_write kern_demo V 0 2 10 V')).
Proof.
  destruct kern_demo_writing as (V & Hw & _). exists V.
  apply (filewrite_spec 2 7 3 demo_root (4 * PGSIZE) ∅ demo_own (span 4090 10) (span 4090 10) demo_mem
    kern_demo V 0 0 (demo_file false true) 4090 sevens Hw).
  - reflexivity.
  - reflexivity.
  - reflexivity.
  - split; [apply Z.leb_le|apply Z.ltb_lt]; reflexivity.
  - apply Z.leb_le. reflexivity.
  - apply Z.leb_le. reflexivity.
  - symmetry. apply read_write_bytes.
  - exact demo_readable.
Defined.

Lemma write_then_read_witness :
  exists r K1, filewrite 0 4090 10 kern_demo = Ok r K1 /\
    (r = 10 -> exists K2 V2 U2, fileread 1 4090 10 K1 = Ok 10 K2 /\ read_bytes U2 4090 10 = sevens /\
       writing 2 7 3 demo_root (4 * PGSIZE) ∅ demo_own (span 4090 10) (span 4090 10) U2 K2 V2 1 0
         (demo_file true false <| f_off := 2 + 10 |>)).
Proof.
  destruct kern_demo_writing as (V & Hw & Hs).
  apply (write_then_read 2 7 3 demo_root (4 * PGSIZE) ∅ demo_own (span 4090 10) (span 4090 10)
    kern_demo V demo_mem 0 1 0 (demo_file false true) (demo_file true false) 4090 4090 sevens Hw).
  - reflexivity.
  - reflexivity.
  - reflexivity.
  - reflexivity.
  - discriminate.
  - reflexivity.
  - reflexivity.
  - reflexivity.
  - reflexivity.
  - rewrite Hs. split; apply Z.leb_le; reflexivity.
  - apply Z.leb_le. reflexivity.
  - apply Z.leb_le. reflexivity.
  - symmetry. apply read_write_bytes.
  - exact demo_readable.
  - apply Z.ltb_lt. reflexivity.
  - apply Z.leb_le. reflexivity.
  - apply Z.leb_le. reflexivity.
  - exact demo_readable.
Defined.
