(* ===== verification/FileClose.v ===== *)
(** * Closing a file

    [fileclose] of [kernel/file.c] on the last descriptor of a file: the
    reference of the file table to the inode is given up in a transaction,
    and with the last reference to an inode without links the file goes.  A
    crash at any point leaves the whole file or none of it. *)

From stdpp Require Import base numbers strings decidable sets gmap functions gmultiset list.
From S2P Require Import Prelude.
From S2P Require Import CString.
From S2P Require Import Riscv.
From S2P Require Import Sched.
From S2P Require Import Kalloc.
From S2P Require Import Vm.
From S2P Require Import Sleeplock.
From S2P Require Import Console.
From S2P Require Import ConsoleSpec.
From S2P Require Import Bio.
From S2P Require Import Log.
From S2P Require Import LogOps.
From S2P Require Import LogCrash.
From S2P Require Import Fs.
From S2P Require Import Txn.
From S2P Require Import FsBlocks.
From S2P Require Import FsFile.
From S2P Require Import FsInode.
From S2P Require Import FsData.
From S2P Require Import FsWrite.
From S2P Require Import FsDisk.
From S2P Require Import FsOp.
From S2P Require Import ITable.
From S2P Require Import FsTrunc.
From S2P Require Import FsRemove.
From S2P Require Import FsMount.
From S2P Require Import File.
From S2P Require Import FileSpec.
Open Scope Z_scope.
Open Scope xv6_scope.

Section close.
Context (start pid : Z).

(** The transaction of [fileclose], on the file system. *)
Lemma close_op_ok s V i R :
  let ip := itable s !!! i in let j := i_inum ip in
  ready start pid s V i -> itab (itable s) R -> i_ref ip < 2 ^ 31 ->
  exists s1 s2 s3 V' w, lift begin_op s = Ok tt s1 /\ iput i s1 = Ok tt s2 /\ lift end_op s2 = Ok tt s3 /\
    idle start pid s3 V' /\ sb s3 = sb s /\ itab (itable s3) (R ∖ {[+ ikey ip +]}) /\
    (if drops ip then gone (sb s) V j V' else same_fs (sb s) V V') /\
    drive s3 = (apply_writes (drive s).1 w, (drive s).2 ++ w) /\
    forall k d, recovered start (apply_writes (drive s).1 (take k w)) d ->
      same_fs (sb s) V d \/ (drops ip = true /\ gone (sb s) V j d).
Proof.
  intros ip j [Id L Hm W Rf Co Lk Lv] Tb Hb. pose proof (idle_disk _ _ _ _ Id) as Hd. fold ip in Lk, Lv.
  destruct (begin_op_idle start pid s V Id) as (s1 & E1 & T1 & O1 & Sb1 & It1 & Mm1 & Dr1).
  destruct (drop_op_ok start pid s1 V i T1) as (s2 & s3 & V1 & V2 & w & E2 & E3 & Id3 & Pb & Sf & Sb3 & It3 & Mm3 & Dr3 & At3);
    rewrite ?Sb1, ?It1; try done.
  { destruct Rf. split; by rewrite ?Sb1, ?It1. }
  { unfold coherent. by rewrite Sb1, It1. }
  { intros b. rewrite <- Hd. change ((drive s1).1 b = (drive s).1 b). by rewrite Dr1. }
  { apply Id. }
  exists s1, s2, s3, V2, w. destruct Pb as [(ip' & [_ It2 _ _ _] & Ky & Rf2 & _) _ W1 Ot In]. rewrite Sb1, It1, Dr1 in *. fold ip in In, Rf2, Ky.
  assert (Hcase : if drops ip then gone (sb s) V j V1 else V1 = V).
  { destruct (drops ip); [|done]. destruct In as [Em Ty]. by apply (emptied_gone start). }
  split_and!; try done.
  - rewrite It3, It2. pose proof (ir_ref _ _ Rf : 1 <= i_ref ip). pose proof (ir_lt _ _ Rf) as Hlt.
    rewrite (it_len _ _ Tb) in Hlt. apply itab_less; try done. split; [|done]. change (0 < i_ref ip). lia.
  - destruct (drops ip); [|by rewrite Hcase in Sf]. by apply (gone_same start (sb s) V V1 j L W).
  - intros k d Rc. destruct (At3 k d Rc) as [Hs|Hs].
    + left. intros b Hb'. rewrite Hs by (by eapply home_high). apply Hd.
    + assert (S1 : same_fs (sb s) V1 d) by (intros b Hb'; apply Hs; by eapply home_high).
      destruct (drops ip); [right; split; [done|]|left; by rewrite Hcase in S1].
      by apply (gone_same start (sb s) V V1 j L W Lv).
Qed.

(** The entry of the file table given up, under its lock. *)
Definition closed_file (fl : file) : file := fl <| f_ref := 0 |> <| f_type := FD_NONE |>.

Lemma fileclose_last (K : kern) f fl :
  running (prj K) pid -> ftable K !! f = Some fl -> f_ref fl = 1 -> f_type fl = FD_INODE ->
  fileclose f K = (lift begin_op ;; ip <- the_inode fl ;; lift (iput ip) ;; lift end_op)
    (K <| ftable := <[f := closed_file fl]> (ftable K) |>).
Proof.
  intros (Hh & _) Hf H1 Ht. unfold fileclose.
  erewrite bind_ok by (apply lift_ok, acquire_ok; rewrite Hh; apply not_elem_of_nil).
  erewrite bind_ok by (apply get_file_ok; exact Hf). rewrite H1. change (1 <? 1) with false. cbv iota.
  erewrite bind_ok by (apply upd_file_ok; exact Hf). change (0 <? 1 - 1) with false. cbv iota.
  set (K1 := _ <| ftable := _ |>). assert (Hlt : (f < length (ftable K))%nat) by (by eapply lookup_lt_Some).
  assert (Hf1 : ftable K1 !! f = Some (fl <| f_ref := 0 |>)) by (unfold K1; cbn; rewrite H1; by apply list_lookup_insert_eq).
  erewrite bind_ok by (apply get_file_ok; exact Hf1). erewrite bind_ok by (apply upd_file_ok; exact Hf1).
  erewrite bind_ok by (apply lift_ok; by apply release_ok). change (f_type (fl <| f_ref := 0 |>)) with (f_type fl). rewrite Ht.
  change (the_inode (fl <| f_ref := 0 |>)) with (the_inode fl). f_equal.
  unfold K1, closed_file. destruct K as [[[[[[]]]]] ? t ? ? ?]. setf_cbn. rewrite list_insert_insert_eq. cbn in Hh. subst. done.
Qed.

(** C3: closing.  [fileclose] on the last descriptor of an inode gives up one
    reference of the inode table.  When it is the last one and no directory
    names the inode, the file is removed: the inode is free, and of the blocks
    in use exactly those of the file are free again.  Otherwise no file
    changes.  A crash after any of the disk writes [w], with any number of
    interrupted recoveries, leaves the file system as it was or without the
    file, every other file untouched. *)
Theorem fileclose_removes (K : kern) V f fl i R :
  let s := k_fs K in let ip := itable s !!! i in let j := i_inum ip in
  ready start pid s V i -> itab (itable s) R -> i_ref ip < 2 ^ 31 ->
  ftable K !! f = Some fl -> f_type fl = FD_INODE -> f_ip fl = Some i -> f_ref fl = 1 ->
  exists s' V' w, fileclose f K = Ok tt (K <| k_fs := s' |> <| ftable := <[f := closed_file fl]> (ftable K) |>) /\
    idle start pid s' V' /\ sb s' = sb s /\ itab (itable s') (R ∖ {[+ ikey ip +]}) /\
    (if drops ip then gone (sb s) V j V' else same_fs (sb s) V V') /\
    drive s' = (apply_writes (drive s).1 w, (drive s).2 ++ w) /\
    forall k d, recovered start (apply_writes (drive s).1 (take k w)) d ->
      same_fs (sb s) V d \/ (drops ip = true /\ gone (sb s) V j d).
Proof.
  intros s ip j Rd Tb Hb Hf Ht Hip H1. rewrite (fileclose_last K f fl) by (done || apply (tx_running _ _ _ _ _ _ _ (id_tx _ _ _ _ (rd_idle _ _ _ _ _ Rd)))).
  destruct (close_op_ok s V i R Rd Tb Hb) as (s1 & s2 & s3 & V' & w & E1 & E2 & E3 & HR).
  exists s3, V', w. split; [|exact HR]. set (K1 := K <| ftable := _ |>).
  erewrite bind_ok by (apply lift_lg; exact E1). unfold the_inode. rewrite Hip. erewrite bind_ok by done.
  erewrite bind_ok by (apply lift_ok; exact E2). erewrite lift_lg by exact E3. done.
Qed.
End close.

(** The theorem on the machine of [FileSpec]. *)
Lemma fileclose_removes_witness :
  exists V s' V' w, fileclose 0 kern_demo = Ok tt (kern_demo <| k_fs := s' |> <| ftable := [closed_file (demo_file false true); demo_file true false] |>) /\
    idle 2 7 s' V' /\ sb s' = sb (k_fs kern_demo) /\ itab (itable s') ({[+ (ROOTDEV, 2) +]} ∖ {[+ (ROOTDEV, 2) +]}) /\
    same_fs (sb (k_fs kern_demo)) V V' /\
    drive s' = (apply_writes (drive (k_fs kern_demo)).1 w, (drive (k_fs kern_demo)).2 ++ w) /\
    forall k d, recovered 2 (apply_writes (drive (k_fs kern_demo)).1 (take k w)) d -> same_fs (sb (k_fs kern_demo)) V d.
Proof.
  destruct fs_open_ok as (V & Rd & _). exists V.
  pose proof fs_open_entry as E0. pose proof fs_open_tab as Tb.
  destruct (fileclose_removes 2 7 kern_demo V 0 (demo_file false true) 0 {[+ (ROOTDEV, 2) +]} Rd Tb) as (s' & V' & w & E & Id & Sb & Tb' & Cs & Dr & Cr).
  - change (k_fs kern_demo) with fs_open. rewrite E0. by apply Z.ltb_lt.
  - reflexivity.
  - reflexivity.
  - reflexivity.
  - reflexivity.
  - change (k_fs kern_demo) with fs_open in *. rewrite E0 in *. exists s', V', w.
    split; [exact E|]. split; [exact Id|]. split; [exact Sb|]. split; [exact Tb'|]. split; [exact Cs|]. split; [exact Dr|].
    intros k d Rc. destruct (Cr k d Rc) as [H|[H _]]; [exact H|discriminate H].
Defined.
