(* ===== verification/Fork.v ===== *)
(** * Creating and ending processes, [kernel/proc.c] on the whole kernel

    [kfork], [kexit] and [userinit], which also work on the open files and
    the current directory of a process. *)

From stdpp Require Import base numbers strings decidable sets gmap functions list.
From S2P Require Import Prelude.
From S2P Require Import CString.
From S2P Require Import Riscv.
From S2P Require Import Sched.
From S2P Require Import Sleeplock.
From S2P Require Import Kalloc.
From S2P Require Import Vm.
From S2P Require Import Proc.
From S2P Require Import Log.
From S2P Require Import Fs.
From S2P Require Import File.
Open Scope Z_scope.
Open Scope xv6_scope.

(** [p->cwd], which the code follows without a test. *)
Definition the_cwd (p : proc) : M kern nat :=
  match p_cwd p with Some d => ret d | None => undefined "null cwd" end.

Section fork.
Context `{!Image}.

(** One iteration of the loop of [kfork] over the descriptors of process
    [i], for its child [np]. *)
Definition kfork_fd (i np : nat) (fd : nat) : M kern unit :=
  p <- lift (get_proc i) ;;
  o <- index (p_ofile p) fd ;;
  match o with
  | None => ret tt
  | Some f =>
    f <- filedup f ;;
    lift (upd_proc np (fun c => c <| p_ofile := <[fd := Some f]> (p_ofile c) |>))
  end.

Definition kfork : M kern Z :=
  i <- lift myproc ;;
  np <- lift allocproc ;;
  match np with
  | None => ret (-1)
  | Some np =>
    p <- lift (get_proc i) ;;
    c <- lift (get_proc np) ;;
    r <- lift (uvmcopy (p_pagetable p) (p_pagetable c) (p_sz p)) ;;
    if r <? 0 then
      lift (freeproc np) ;;
      lift (release (LkProc np)) ;;
      ret (-1)
    else
      lift (upd_proc np (fun c => c <| p_sz := p_sz p |>)) ;;
      from <- lift (tf_addr i) ;;
      to <- lift (tf_addr np) ;;
      lift (modify (fun m => m <| mem :=
        write_bytes (mem m) to (read_bytes (mem m) from sizeof_trapframe) |>)) ;;
      lift (tf_set np tf_a0 0) ;;
      mapM_ (kfork_fd i np) (seq 0 NOFILE) ;;
      d <- the_cwd p ;;
      d <- lift (idup d) ;;
      lift (upd_proc np (fun c => c <| p_cwd := Some d |>)) ;;
      lift (upd_proc np (fun c =>
        c <| p_name := splice 0 (safestrcpy (of_list (p_name p)) 16) (p_name c) |>)) ;;
      c <- lift (get_proc np) ;;
      let pid := p_pid c in
      lift (release (LkProc np)) ;;
      lift (acquire LkWait) ;;
      lift (upd_proc np (fun c => c <| p_parent := Some i |>)) ;;
      lift (release LkWait) ;;
      lift (acquire (LkProc np)) ;;
      lift (upd_proc np (fun c => c <| p_state := RUNNABLE |>)) ;;
      lift (release (LkProc np)) ;;
      ret pid
  end.

(** One iteration of the loop of [kexit] over the descriptors. *)
Definition kexit_fd (i fd : nat) : M kern unit :=
  p <- lift (get_proc i) ;;
  o <- index (p_ofile p) fd ;;
  match o with
  | None => ret tt
  | Some f =>
    fileclose f ;;
    lift (upd_proc i (fun p => p <| p_ofile := <[fd := None]> (p_ofile p) |>))
  end.

(** [kexit] does not return: resumed after [sched] it panics. *)
Definition kexit (status : Z) : M kern unit :=
  i <- lift myproc ;;
  m <- lift get ;;
  if decide (Some i = initproc m) then panic "init exiting"
  else
    mapM_ (kexit_fd i) (seq 0 NOFILE) ;;
    lift begin_op ;;
    p <- lift (get_proc i) ;;
    d <- the_cwd p ;;
    lift (iput d) ;;
    lift end_op ;;
    lift (upd_proc i (fun p => p <| p_cwd := None |>)) ;;
    lift (acquire LkWait) ;;
    lift (reparent i) ;;
    p <- lift (get_proc i) ;;
    lift (wakeup (match p_parent p with Some pp => ChProc pp | None => ChNull end)) ;;
    lift (acquire (LkProc i)) ;;
    lift (upd_proc i (fun p => p <| p_xstate := status |> <| p_state := ZOMBIE |>)) ;;
    lift (release LkWait) ;;
    lift sched ;;
    panic "zombie exit".

Definition userinit : M kern unit :=
  o <- lift allocproc ;;
  lift (modify (fun m => m <| initproc := o |>)) ;;
  match o with
  | None => undefined "null proc"
  | Some i =>
    d <- lift (namei [slash]) ;;
    lift (upd_proc i (fun p => p <| p_cwd := d |> <| p_state := RUNNABLE |>)) ;;
    lift (release (LkProc i))
  end.
End fork.
