(* ===== verification/Exec.v ===== *)
(** * Program execution, [kernel/exec.c] *)

From stdpp Require Import base numbers strings decidable sets gmap functions list.
From S2P Require Import Prelude.
From S2P Require Import CString.
From S2P Require Import Riscv.
From S2P Require Import Sched.
From S2P Require Import Sleeplock.
From S2P Require Import Kalloc.
From S2P Require Import Vm.
From S2P Require Import Proc.
From S2P Require Import Log.
From S2P Require Import Fs.
From S2P Require Import File.
From S2P Require Import Args.
Open Scope Z_scope.
Open Scope xv6_scope.

(** ** [kernel/elf.h]: fields of the two headers, as their bytes lie in the
    file *)
Definition ELF_MAGIC : Z := 0x464C457F.
Definition ELF_PROG_LOAD : Z := 1.
Definition sizeof_elfhdr : Z := 64.
Definition elf_magic (h : list Z) : Z := get_le 4 0 h.
Definition elf_entry (h : list Z) : Z := get_le 8 24 h.
Definition elf_phoff (h : list Z) : Z := get_le 8 32 h.
Definition elf_phnum (h : list Z) : Z := get_le 2 56 h.
Definition sizeof_proghdr : Z := 56.
Definition ph_type (h : list Z) : Z := get_le 4 0 h.
Definition ph_flags (h : list Z) : Z := s32 (get_le 4 4 h).
Definition ph_off (h : list Z) : Z := get_le 8 8 h.
Definition ph_vaddr (h : list Z) : Z := get_le 8 16 h.
Definition ph_filesz (h : list Z) : Z := get_le 8 32 h.
Definition ph_memsz (h : list Z) : Z := get_le 8 40 h.

Definition flags2perm (flags : Z) : Z :=
  let perm := if negb (Z.land flags 1 =? 0) then PTE_X else 0 in
  if negb (Z.land flags 2 =? 0) then Z.lor perm PTE_W else perm.

Fixpoint loadseg_loop (fuel : nat) (pagetable va : Z) (ip : nat) (offset i sz : Z) : M kern Z :=
  match fuel with
  | O => out_of_fuel
  | S fuel' =>
    if i <? sz then
      pa <- lift (walkaddr pagetable (u64 (va + i))) ;;
      if pa =? 0 then panic "loadseg: address should exist"
      else
        let n := if sz - i <? PGSIZE then sz - i else PGSIZE in
        '(r, _) <- lift (readi ip (Phys pa) (u32 (offset + i)) n) ;;
        if negb (u32 r =? n) then ret (-1)
        else loadseg_loop fuel' pagetable va ip offset (u32 (i + PGSIZE)) sz
    else ret 0
  end.
Definition loadseg (pagetable va : Z) (ip : nat) (offset sz : Z) : M kern Z :=
  loadseg_loop (S (S (Z.to_nat (sz / PGSIZE)))) pagetable va ip offset 0 sz.

(** The loop of [kexec] over the program headers: whether it succeeded, and
    [sz] when it ended. *)
Fixpoint load_segments (n : nat) (pagetable : Z) (ip : nat) (off sz : Z) : M kern (bool * Z) :=
  match n with
  | O => ret (true, sz)
  | S n' =>
    '(r, ph) <- lift (readi ip Local (u32 off) sizeof_proghdr) ;;
    if negb (r =? sizeof_proghdr) then ret (false, sz)
    else if negb (ph_type ph =? ELF_PROG_LOAD) then
      load_segments n' pagetable ip (s32 (off + sizeof_proghdr)) sz
    else if ph_memsz ph <? ph_filesz ph then ret (false, sz)
    else if u64 (ph_vaddr ph + ph_memsz ph) <? ph_vaddr ph then ret (false, sz)
    else if negb (ph_vaddr ph mod PGSIZE =? 0) then ret (false, sz)
    else
      sz1 <- lift (uvmalloc pagetable sz (u64 (ph_vaddr ph + ph_memsz ph))
                     (flags2perm (ph_flags ph))) ;;
      if sz1 =? 0 then ret (false, sz)
      else
        r <- loadseg pagetable (ph_vaddr ph) ip (u32 (ph_off ph)) (u32 (ph_filesz ph)) ;;
        if r <? 0 then ret (false, sz1)
        else load_segments n' pagetable ip (s32 (off + sizeof_proghdr)) sz1
  end.

(** A string of [argv]: in a page of its own, or a constant of the kernel. *)
Inductive karg : Set := InPage (pa : Z) | Const (s : list Z).
Definition arg_string (a : karg) : M mm (list Z) :=
  match a with
  | Const s => ret s
  | InPage pa =>
    s <- get ;;
    match strlen (Z.to_nat PGSIZE) (at_addr (mem s) pa) with
    | Some n => ret (read_bytes (mem s) pa n)
    | None => undefined "unterminated string"
    end
  end.

(** The loop that copies the argument strings: [None] for [goto bad],
    otherwise [sp] and [ustack]. *)
Fixpoint push_args (pagetable stackbase : Z) (argv : list karg) (argc : nat) (sp : Z)
    (ustack : list Z) : M mm (option (Z * list Z)) :=
  match argv with
  | [] => ret (Some (sp, ustack))
  | a :: argv' =>
    if Nat.leb MAXARG argc then ret None
    else
      s <- arg_string a ;;
      let sp := u64 (sp - (Z.of_nat (length s) + 1)) in
      let sp := sp - sp mod 16 in
      if sp <? stackbase then ret None
      else
        r <- copyout pagetable sp (s ++ [0]) ;;
        if r <? 0 then ret None
        else push_args pagetable stackbase argv' (S argc) sp (ustack ++ [sp])
  end.

(** The arguments on the new stack, whose top is [sz]: [sp], or [None]. *)
Definition setup_stack (pagetable sz : Z) (argv : list karg) : M mm (option Z) :=
  let stackbase := u64 (sz - USERSTACK * PGSIZE) in
  o <- push_args pagetable stackbase argv 0 sz [] ;;
  match o with
  | None => ret None
  | Some (sp, ustack) =>
    if Nat.leb MAXARG (length ustack) then undefined "ustack[MAXARG]"
    else
      let ustack := ustack ++ [0] in
      let sp := u64 (sp - Z.of_nat (length ustack) * 8) in
      let sp := sp - sp mod 16 in
      if sp <? stackbase then ret None
      else
        r <- copyout pagetable sp (concat (le_enc 8 <$> ustack)) ;;
        if r <? 0 then ret None else ret (Some sp)
  end.

(** What follows the last slash of [path]. *)
Fixpoint last_elem (path last : list Z) : list Z :=
  match path with
  | [] => last
  | c :: p => last_elem p (if c =? slash then p else last)
  end.

Section exec.
Context `{!Image}.

(** The second half of [kexec], after the program has been loaded. *)
Definition kexec_commit (i : nat) (path : list Z) (argv : list karg) (entry pagetable sz : Z)
    : M mm Z :=
  p <- lift (get_proc i) ;;
  let oldsz := p_sz p in
  let sz := PGROUNDUP sz in
  sz1 <- uvmalloc pagetable sz (u64 (sz + (USERSTACK + 1) * PGSIZE)) PTE_W ;;
  if sz1 =? 0 then proc_freepagetable pagetable sz ;; ret (-1)
  else
    let sz := sz1 in
    uvmclear pagetable (u64 (sz - (USERSTACK + 1) * PGSIZE)) ;;
    o <- setup_stack pagetable sz argv ;;
    match o with
    | None => proc_freepagetable pagetable sz ;; ret (-1)
    | Some sp =>
      tf_set i tf_a1 sp ;;
      lift (upd_proc i (fun p =>
        p <| p_name := splice 0 (safestrcpy (of_list (last_elem path path)) 16) (p_name p) |>)) ;;
      p <- lift (get_proc i) ;;
      let oldpagetable := p_pagetable p in
      lift (upd_proc i (fun p => p <| p_pagetable := pagetable |> <| p_sz := sz |>)) ;;
      tf_set i tf_epc entry ;;
      tf_set i tf_sp sp ;;
      proc_freepagetable oldpagetable oldsz ;;
      ret (Z.of_nat (length argv))
    end.

Definition kexec (path : list Z) (argv : list karg) : M kern Z :=
  i <- lift myproc ;;
  lift begin_op ;;
  o <- lift (namei path) ;;
  match o with
  | None => lift end_op ;; ret (-1)
  | Some ip =>
    lift (ilock (Some ip)) ;;
    '(r, elf) <- lift (readi ip Local 0 sizeof_elfhdr) ;;
    if negb (r =? sizeof_elfhdr) || negb (elf_magic elf =? ELF_MAGIC) then
      lift (iunlockput ip) ;; lift end_op ;; ret (-1)
    else
      pagetable <- lift (proc_pagetable i) ;;
      if pagetable =? 0 then
        lift (iunlockput ip) ;; lift end_op ;; ret (-1)
      else
        '(ok, sz) <- load_segments (Z.to_nat (elf_phnum elf)) pagetable ip (s32 (elf_phoff elf)) 0 ;;
        if negb ok then
          lift (proc_freepagetable pagetable sz) ;;
          lift (iunlockput ip) ;; lift end_op ;; ret (-1)
        else
          lift (iunlockput ip) ;;
          lift end_op ;;
          lift (kexec_commit i path argv (elf_entry elf) pagetable sz)
  end.
End exec.
