(* ===== verification/Sysfile.v ===== *)
(** * File-system system calls, [kernel/sysfile.c]

    A path name fetched from user space is the list of its characters; the
    buffer [name] of a path's last element keeps its [DIRSIZ] bytes.  A
    result is the [uint64] the system call puts into [a0], as a signed
    number. *)

From stdpp Require Import base numbers strings decidable sets gmap functions list.
From S2P Require Import Prelude.
From S2P Require Import CString.
From S2P Require Import Riscv.
From S2P Require Import Sched.
From S2P Require Import Sleeplock.
From S2P Require Import Kalloc.
From S2P Require Import Vm.
From S2P Require Import Proc.
From S2P Require Import Args.
From S2P Require Import Log.
From S2P Require Import Fs.
From S2P Require Import File.
From S2P Require Import Fork.
From S2P Require Import Exec.
Open Scope Z_scope.
Open Scope xv6_scope.

(** [kernel/fcntl.h] *)
Definition O_RDONLY : Z := 0x000.
Definition O_WRONLY : Z := 0x001.
Definition O_RDWR : Z := 0x002.
Definition O_CREATE : Z := 0x200.
Definition O_TRUNC : Z := 0x400.
Definition O_APPEND : Z := 0x800.
Definition O_NOFOLLOW : Z := 0x1000.

(** The path in argument [n], or [None] when [argstr] fails. *)
Definition argpath (n : Z) : M kern (option (list Z)) :=
  '(r, bs) <- lift (argstr n MAXPATH) ;;
  if r <? 0 then ret None else ret (Some (c_string bs)).
(** An uninitialised [char name[DIRSIZ]]. *)
Definition name_buf : list Z := replicate DIRSIZ 0.
Definition dot : list Z := [46; 0].
Definition dotdot : list Z := [46; 46; 0].

(** The descriptor and the file. *)
Definition argfd (n : Z) : M kern (option (nat * nat)) :=
  fd <- lift (argint n) ;;
  if (fd <? 0) || (Z.of_nat NOFILE <=? fd) then ret None
  else
    i <- lift myproc ;;
    p <- lift (get_proc i) ;;
    o <- index (p_ofile p) (Z.to_nat fd) ;;
    ret (match o with Some f => Some (Z.to_nat fd, f) | None => None end).

(** [p->ofile[fd] = o] for the current process. *)
Definition set_ofile (i fd : nat) (o : option nat) : M kern unit :=
  lift (upd_proc i (fun p => p <| p_ofile := <[fd := o]> (p_ofile p) |>)).
Fixpoint fdalloc_from (n fd : nat) (i f : nat) : M kern (option nat) :=
  match n with
  | O => ret None
  | S n' =>
    p <- lift (get_proc i) ;;
    o <- index (p_ofile p) fd ;;
    match o with
    | None => set_ofile i fd (Some f) ;; ret (Some fd)
    | Some _ => fdalloc_from n' (S fd) i f
    end
  end.
Definition fdalloc (f : nat) : M kern (option nat) :=
  i <- lift myproc ;; fdalloc_from NOFILE 0 i f.

Definition sys_dup : M kern Z :=
  o <- argfd 0 ;;
  match o with
  | None => ret (-1)
  | Some (_, f) =>
    fd <- fdalloc f ;;
    match fd with
    | None => ret (-1)
    | Some fd => filedup f ;; ret (Z.of_nat fd)
    end
  end.

Definition sys_read : M kern Z :=
  p <- lift (argaddr 1) ;;
  n <- lift (argint 2) ;;
  o <- argfd 0 ;;
  match o with None => ret (-1) | Some (_, f) => fileread f p n end.

Definition sys_write : M kern Z :=
  p <- lift (argaddr 1) ;;
  n <- lift (argint 2) ;;
  o <- argfd 0 ;;
  match o with None => ret (-1) | Some (_, f) => filewrite f p n end.

Definition sys_close : M kern Z :=
  o <- argfd 0 ;;
  match o with
  | None => ret (-1)
  | Some (fd, f) =>
    i <- lift myproc ;;
    set_ofile i fd None ;;
    fileclose f ;;
    ret 0
  end.

Definition sys_fstat `{!Image} : M kern Z :=
  st <- lift (argaddr 1) ;;
  o <- argfd 0 ;;
  match o with None => ret (-1) | Some (_, f) => filestat f st end.

(** The label [bad] of [sys_link]. *)
Definition link_bad (ip : nat) : M kern Z :=
  lift (ilock (Some ip)) ;;
  lift (upd_inode ip (fun n => n <| i_nlink := s16 (i_nlink n - 1) |>)) ;;
  lift (iupdate ip) ;;
  lift (iunlockput ip) ;;
  lift end_op ;;
  ret (-1).

Definition sys_link : M kern Z :=
  old <- argpath 0 ;;
  match old with
  | None => ret (-1)
  | Some old =>
    new <- argpath 1 ;;
    match new with
    | None => ret (-1)
    | Some new =>
      lift begin_op ;;
      o <- lift (namei old) ;;
      match o with
      | None => lift end_op ;; ret (-1)
      | Some ip =>
        lift (ilock (Some ip)) ;;
        n <- lift (get_inode ip) ;;
        if i_type n =? T_DIR then
          lift (iunlockput ip) ;; lift end_op ;; ret (-1)
        else
          lift (upd_inode ip (fun n => n <| i_nlink := s16 (i_nlink n + 1) |>)) ;;
          lift (iupdate ip) ;;
          lift (iunlock (Some ip)) ;;
          '(o, name) <- lift (nameiparent new name_buf) ;;
          match o with
          | None => link_bad ip
          | Some dp =>
            lift (ilock (Some dp)) ;;
            d <- lift (get_inode dp) ;;
            n <- lift (get_inode ip) ;;
            r <- (if negb (i_dev d =? i_dev n) then ret (-1)
                  else lift (dirlink dp (of_list name) (i_inum n))) ;;
            if r <? 0 then lift (iunlockput dp) ;; link_bad ip
            else
              lift (iunlockput dp) ;;
              lift (iput ip) ;;
              lift end_op ;;
              ret 0
          end
      end
    end
  end.

Fixpoint isdirempty_loop (fuel : nat) (dp : nat) (off : Z) : M fs bool :=
  match fuel with
  | O => out_of_fuel
  | S fuel' =>
    ip <- get_inode dp ;;
    if off <? i_size ip then
      '(r, de) <- readi dp Local off sizeof_dirent ;;
      if negb (r =? sizeof_dirent) then panic "isdirempty: readi"
      else if negb (de_inum de =? 0) then ret false
      else isdirempty_loop fuel' dp (s32 (off + sizeof_dirent))
    else ret true
  end.
Definition isdirempty (dp : nat) : M fs bool :=
  ip <- get_inode dp ;;
  isdirempty_loop (S (Z.to_nat (i_size ip / sizeof_dirent + 1))) dp (2 * sizeof_dirent).

(** The label [bad] of [sys_unlink]. *)
Definition unlink_bad (dp : nat) : M kern Z :=
  lift (iunlockput dp) ;; lift end_op ;; ret (-1).

Definition sys_unlink : M kern Z :=
  path <- argpath 0 ;;
  match path with
  | None => ret (-1)
  | Some path =>
    lift begin_op ;;
    '(o, name) <- lift (nameiparent path name_buf) ;;
    match o with
    | None => lift end_op ;; ret (-1)
    | Some dp =>
      lift (ilock (Some dp)) ;;
      if (namecmp (of_list name) (of_list dot) =? 0) || (namecmp (of_list name) (of_list dotdot) =? 0)
      then unlink_bad dp
      else
        o <- lift (dirlookup dp (of_list name)) ;;
        match o with
        | None => unlink_bad dp
        | Some (ip, off) =>
          lift (ilock (Some ip)) ;;
          n <- lift (get_inode ip) ;;
          if i_nlink n <? 1 then panic "unlink: nlink < 1"
          else
            e <- (if i_type n =? T_DIR then lift (isdirempty ip) else ret true) ;;
            if negb e then lift (iunlockput ip) ;; unlink_bad dp
            else
              r <- lift (writei dp (FromBytes (replicate (Z.to_nat sizeof_dirent) 0)) off
                           sizeof_dirent) ;;
              if negb (r =? sizeof_dirent) then panic "unlink: writei"
              else
                n <- lift (get_inode ip) ;;
                when (i_type n =? T_DIR)
                  (lift (upd_inode dp (fun d => d <| i_nlink := s16 (i_nlink d - 1) |>)) ;;
                   lift (iupdate dp)) ;;
                lift (iunlockput dp) ;;
                lift (upd_inode ip (fun n => n <| i_nlink := s16 (i_nlink n - 1) |>)) ;;
                lift (iupdate ip) ;;
                lift (iunlockput ip) ;;
                lift end_op ;;
                ret 0
        end
    end
  end.

(** The label [fail] of [create]. *)
Definition create_fail (ip dp : nat) : M fs (option nat) :=
  upd_inode ip (fun n => n <| i_nlink := 0 |>) ;;
  iupdate ip ;;
  iunlockput ip ;;
  iunlockput dp ;;
  ret None.

Definition create (path : list Z) (type major minor : Z) : M fs (option nat) :=
  '(o, name) <- nameiparent path name_buf ;;
  match o with
  | None => ret None
  | Some dp =>
    ilock (Some dp) ;;
    o <- dirlookup dp (of_list name) ;;
    match o with
    | Some (ip, _) =>
      iunlockput dp ;;
      ilock (Some ip) ;;
      n <- get_inode ip ;;
      if (type =? T_FILE) && ((i_type n =? T_FILE) || (i_type n =? T_DEVICE)) then ret (Some ip)
      else iunlockput ip ;; ret None
    | None =>
      d <- get_inode dp ;;
      o <- ialloc (i_dev d) type ;;
      match o with
      | None => iunlockput dp ;; ret None
      | Some ip =>
        ilock (Some ip) ;;
        upd_inode ip (fun n => n <| i_major := major |> <| i_minor := minor |> <| i_nlink := 1 |>) ;;
        iupdate ip ;;
        n <- get_inode ip ;;
        r <- (if type =? T_DIR then
                r <- dirlink ip (of_list dot) (i_inum n) ;;
                if r <? 0 then ret (-1) else dirlink ip (of_list dotdot) (i_inum d)
              else ret 0) ;;
        if r <? 0 then create_fail ip dp
        else
          r <- dirlink dp (of_list name) (i_inum n) ;;
          if r <? 0 then create_fail ip dp
          else
            when (type =? T_DIR)
              (upd_inode dp (fun d => d <| i_nlink := s16 (i_nlink d + 1) |>) ;; iupdate dp) ;;
            iunlockput dp ;;
            ret (Some ip)
      end
    end
  end.

(** A failed [open] whose inode is locked. *)
Definition open_fail (ip : nat) : M kern (option nat) :=
  lift (iunlockput ip) ;; lift end_op ;; ret None.

(** The loop of [sys_open] that follows symbolic links: the locked inode, or
    [None] when the call has failed.  [path[len] = 0] stores behind the
    array when the link holds [MAXPATH] bytes or more. *)
Fixpoint open_resolve (fuel : nat) (path : list Z) (omode depth : Z) : M kern (option nat) :=
  match fuel with
  | O => out_of_fuel
  | S fuel' =>
    o <- lift (namei path) ;;
    match o with
    | None => lift end_op ;; ret None
    | Some ip =>
      lift (ilock (Some ip)) ;;
      n <- lift (get_inode ip) ;;
      if (i_type n =? T_SYMLINK) && (Z.land omode O_NOFOLLOW =? 0) then
        if 10 <=? depth then open_fail ip
        else
          '(len, bs) <- lift (readi ip Local 0 (Z.of_nat MAXPATH)) ;;
          if len <=? 0 then open_fail ip
          else if Z.of_nat MAXPATH <=? len then undefined "path[MAXPATH]"
          else
            lift (iunlockput ip) ;;
            open_resolve fuel' (c_string bs) omode (depth + 1)
      else ret (Some ip)
    end
  end.

(** The part of [sys_open] before the device check. *)
Definition open_inode (path : list Z) (omode : Z) : M kern (option nat) :=
  if negb (Z.land omode O_CREATE =? 0) then
    o <- lift (create path T_FILE 0 0) ;;
    match o with
    | None => lift end_op ;; ret None
    | Some ip => ret (Some ip)
    end
  else
    o <- open_resolve 11 path omode 0 ;;
    match o with
    | None => ret None
    | Some ip =>
      n <- lift (get_inode ip) ;;
      if (i_type n =? T_DIR) && negb (omode =? O_RDONLY) then open_fail ip
      else ret (Some ip)
    end.

(** The stores of [sys_open] into the new file. *)
Definition open_file (f ip : nat) (omode : Z) : M kern unit :=
  n <- lift (get_inode ip) ;;
  (if i_type n =? T_DEVICE then
     upd_file f (fun fl => fl <| f_type := FD_DEVICE |> <| f_major := i_major n |>)
   else upd_file f (fun fl => fl <| f_type := FD_INODE |> <| f_off := 0 |>)) ;;
  when (negb (Z.land omode O_APPEND =? 0) && (i_type n =? T_FILE))
    (upd_file f (fun fl => fl <| f_off := i_size n |>)) ;;
  upd_file f (fun fl =>
    fl <| f_ip := Some ip |> <| f_readable := Z.land omode O_WRONLY =? 0 |>
       <| f_writable := negb (Z.land omode O_WRONLY =? 0) || negb (Z.land omode O_RDWR =? 0) |>).

Definition sys_open : M kern Z :=
  path <- argpath 0 ;;
  match path with
  | None => ret (-1)
  | Some path =>
    omode <- lift (argint 1) ;;
    lift begin_op ;;
    o <- open_inode path omode ;;
    match o with
    | None => ret (-1)
    | Some ip =>
      n <- lift (get_inode ip) ;;
      if (i_type n =? T_DEVICE) && ((i_major n <? 0) || (NDEV <=? i_major n)) then
        open_fail ip ;; ret (-1)
      else
        o <- filealloc ;;
        match o with
        | None => open_fail ip ;; ret (-1)
        | Some f =>
          o <- fdalloc f ;;
          match o with
          | None => fileclose f ;; open_fail ip ;; ret (-1)
          | Some fd =>
            open_file f ip omode ;;
            when (negb (Z.land omode O_TRUNC =? 0) && (i_type n =? T_FILE) &&
                  (Z.land omode O_APPEND =? 0))
              (lift (itrunc ip)) ;;
            lift (iunlock (Some ip)) ;;
            lift end_op ;;
            ret (Z.of_nat fd)
          end
        end
    end
  end.

Definition sys_mkdir : M kern Z :=
  lift begin_op ;;
  path <- argpath 0 ;;
  o <- match path with Some path => lift (create path T_DIR 0 0) | None => ret None end ;;
  match o with
  | None => lift end_op ;; ret (-1)
  | Some ip => lift (iunlockput ip) ;; lift end_op ;; ret 0
  end.

Definition sys_mknod : M kern Z :=
  lift begin_op ;;
  major <- lift (argint 1) ;;
  minor <- lift (argint 2) ;;
  path <- argpath 0 ;;
  o <- match path with
       | Some path => lift (create path T_DEVICE (s16 major) (s16 minor))
       | None => ret None
       end ;;
  match o with
  | None => lift end_op ;; ret (-1)
  | Some ip => lift (iunlockput ip) ;; lift end_op ;; ret 0
  end.

Definition sys_chdir : M kern Z :=
  i <- lift myproc ;;
  lift begin_op ;;
  path <- argpath 0 ;;
  o <- match path with Some path => lift (namei path) | None => ret None end ;;
  match o with
  | None => lift end_op ;; ret (-1)
  | Some ip =>
    lift (ilock (Some ip)) ;;
    n <- lift (get_inode ip) ;;
    if negb (i_type n =? T_DIR) then lift (iunlockput ip) ;; lift end_op ;; ret (-1)
    else
      lift (iunlock (Some ip)) ;;
      p <- lift (get_proc i) ;;
      d <- the_cwd p ;;
      lift (iput d) ;;
      lift end_op ;;
      lift (upd_proc i (fun p => p <| p_cwd := Some ip |>)) ;;
      ret 0
  end.

(** The loop of [sys_exec] that fetches the arguments: whether it succeeded,
    and the pages allocated. *)
Fixpoint fetch_args (n : nat) (uargv : Z) (argv : list Z) : M mm (bool * list Z) :=
  match n with
  | O => ret (false, argv)
  | S n' =>
    o <- fetchaddr (u64 (uargv + 8 * Z.of_nat (length argv))) ;;
    match o with
    | None => ret (false, argv)
    | Some uarg =>
      if uarg =? 0 then ret (true, argv)
      else
        pa <- kalloc ;;
        if pa =? 0 then ret (false, argv)
        else
          '(r, bs) <- fetchstr uarg (Z.to_nat PGSIZE) ;;
          modify (fun s => s <| mem := write_bytes (mem s) pa bs |>) ;;
          if r <? 0 then ret (false, argv ++ [pa])
          else fetch_args n' uargv (argv ++ [pa])
    end
  end.

Definition sys_exec `{!Image} : M kern Z :=
  uargv <- lift (argaddr 1) ;;
  path <- argpath 0 ;;
  match path with
  | None => ret (-1)
  | Some path =>
    '(ok, argv) <- lift (fetch_args MAXARG uargv []) ;;
    if negb ok then lift (mapM_ kfree argv) ;; ret (-1)
    else
      r <- kexec path (InPage <$> argv) ;;
      lift (mapM_ kfree argv) ;;
      ret r
  end.

Definition sys_pipe : M kern Z :=
  i <- lift myproc ;;
  fdarray <- lift (argaddr 0) ;;
  o <- pipealloc ;;
  match o with
  | None => ret (-1)
  | Some (rf, wf) =>
    o <- fdalloc rf ;;
    match o with
    | None => fileclose rf ;; fileclose wf ;; ret (-1)
    | Some fd0 =>
      o <- fdalloc wf ;;
      match o with
      | None => set_ofile i fd0 None ;; fileclose rf ;; fileclose wf ;; ret (-1)
      | Some fd1 =>
        p <- lift (get_proc i) ;;
        r <- lift (copyout (p_pagetable p) fdarray (le_enc 4 (Z.of_nat fd0))) ;;
        r <- (if r <? 0 then ret r
              else lift (copyout (p_pagetable p) (u64 (fdarray + 4)) (le_enc 4 (Z.of_nat fd1)))) ;;
        if r <? 0 then
          set_ofile i fd0 None ;;
          set_ofile i fd1 None ;;
          fileclose rf ;;
          fileclose wf ;;
          ret (-1)
        else ret 0
      end
    end
  end.

Definition sys_symlink : M kern Z :=
  target <- argpath 0 ;;
  match target with
  | None => ret (-1)
  | Some target =>
    path <- argpath 1 ;;
    match path with
    | None => ret (-1)
    | Some path =>
      lift begin_op ;;
      o <- lift (create path T_SYMLINK 0 0) ;;
      match o with
      | None => lift end_op ;; ret (-1)
      | Some ip =>
        let n := Z.of_nat (length target) in
        r <- lift (writei ip (FromBytes target) 0 n) ;;
        if negb (r =? n) then lift (iunlockput ip) ;; lift end_op ;; ret (-1)
        else lift (iunlockput ip) ;; lift end_op ;; ret 0
      end
    end
  end.
