(* ===== verification/Syscall.v ===== *)
(** * System calls on processes and the system call table,
      [kernel/sysproc.c] and [kernel/syscall.c] *)

From stdpp Require Import base numbers strings pretty decidable sets gmap functions list.
From S2P Require Import Prelude.
From S2P Require Import CString.
From S2P Require Import Riscv.
From S2P Require Import Sched.
From S2P Require Import Sleeplock.
From S2P Require Import Kalloc.
From S2P Require Import Vm.
From S2P Require Import Console.
From S2P Require Import Proc.
From S2P Require Import Args.
From S2P Require Import File.
From S2P Require Import Fork.
From S2P Require Import Sysfile.
Open Scope Z_scope.
Open Scope xv6_scope.

(** ** [kernel/sysproc.c] *)

Definition SBRK_EAGER : Z := 1.
Definition SBRK_LAZY : Z := 2.

Definition sys_exit : M kern Z :=
  n <- lift (argint 0) ;; kexit n ;; ret 0.
Definition sys_getpid : M mm Z :=
  i <- lift myproc ;; p <- lift (get_proc i) ;; ret (p_pid p).
Definition sys_fork `{!Image} : M kern Z := kfork.
Definition sys_wait : M mm Z := p <- argaddr 0 ;; kwait p.

Definition sys_sbrk : M mm Z :=
  n <- argint 0 ;;
  t <- argint 1 ;;
  i <- lift myproc ;;
  p <- lift (get_proc i) ;;
  let addr := p_sz p in
  if (t =? SBRK_EAGER) || (n <? 0) then
    r <- growproc n ;;
    if r <? 0 then ret (-1) else ret addr
  else if u64 (addr + n) <? addr then ret (-1)
  else
    lift (upd_proc i (fun p => p <| p_sz := u64 (p_sz p + n) |>)) ;;
    ret addr.

(** The loop of [sys_pause]: [false] when the process was killed. *)
Fixpoint pause_loop (fuel : nat) (ticks0 n : Z) : M mach bool :=
  match fuel with
  | O => out_of_fuel
  | S fuel' =>
    m <- get ;;
    if u32 (ticks m - ticks0) <? n then
      i <- myproc ;;
      k <- killed i ;;
      if negb (k =? 0) then ret false
      else
        sleep ChTicks LkTicks ;;
        pause_loop fuel' ticks0 n
    else ret true
  end.
Definition sys_pause : M mm Z :=
  n <- argint 0 ;;
  let n := if n <? 0 then 0 else n in
  lift (acquire LkTicks) ;;
  ticks0 <- lift (gets ticks) ;;
  ok <- lift (pause_loop wait_fuel ticks0 n) ;;
  lift (release LkTicks) ;;
  ret (if ok : bool then 0 else -1).

Definition sys_kill : M mm Z := pid <- argint 0 ;; lift (kkill pid).

Definition sys_uptime : M mach Z :=
  acquire LkTicks ;;
  xticks <- gets ticks ;;
  release LkTicks ;;
  ret xticks.

(** ** [kernel/syscall.h] and [kernel/syscall.c] *)

Definition SYS_fork : Z := 1.
Definition SYS_exit : Z := 2.
Definition SYS_wait : Z := 3.
Definition SYS_pipe : Z := 4.
Definition SYS_read : Z := 5.
Definition SYS_kill : Z := 6.
Definition SYS_exec : Z := 7.
Definition SYS_fstat : Z := 8.
Definition SYS_chdir : Z := 9.
Definition SYS_dup : Z := 10.
Definition SYS_getpid : Z := 11.
Definition SYS_sbrk : Z := 12.
Definition SYS_pause : Z := 13.
Definition SYS_uptime : Z := 14.
Definition SYS_open : Z := 15.
Definition SYS_write : Z := 16.
Definition SYS_mknod : Z := 17.
Definition SYS_unlink : Z := 18.
Definition SYS_link : Z := 19.
Definition SYS_mkdir : Z := 20.
Definition SYS_close : Z := 21.
Definition SYS_symlink : Z := 22.

Section syscall.
Context `{!Image}.

(** The array [syscalls], by its designated initialisers. *)
Definition syscalls : list (Z * M kern Z) :=
  [(SYS_fork, sys_fork); (SYS_exit, sys_exit); (SYS_wait, lift sys_wait);
   (SYS_pipe, sys_pipe); (SYS_read, sys_read); (SYS_kill, lift sys_kill);
   (SYS_exec, sys_exec); (SYS_fstat, sys_fstat); (SYS_chdir, sys_chdir);
   (SYS_dup, sys_dup); (SYS_getpid, lift sys_getpid); (SYS_sbrk, lift sys_sbrk);
   (SYS_pause, lift sys_pause); (SYS_uptime, lift sys_uptime); (SYS_open, sys_open);
   (SYS_write, sys_write); (SYS_mknod, sys_mknod); (SYS_unlink, sys_unlink);
   (SYS_link, sys_link); (SYS_mkdir, sys_mkdir); (SYS_close, sys_close);
   (SYS_symlink, sys_symlink)].
Fixpoint syscall_entry (num : Z) (t : list (Z * M kern Z)) : option (M kern Z) :=
  match t with
  | [] => None
  | (n, f) :: t' => if n =? num then Some f else syscall_entry num t'
  end.

Definition syscall : M kern unit :=
  i <- lift myproc ;;
  a7 <- lift (tf_get i tf_a7) ;;
  let num := s32 a7 in
  match (if 0 <? num then syscall_entry num syscalls else None) with
  | Some f =>
    r <- f ;;
    lift (tf_set i tf_a0 r)
  | None =>
    p <- lift (get_proc i) ;;
    lift (kprintf (pretty (p_pid p) +:+ " " +:+ name_string (p_name p) +:+
                   ": unknown sys call " +:+ pretty num)) ;;
    lift (tf_set i tf_a0 (-1))
  end.
End syscall.
