(* ===== verification/Trap.v ===== *)
(** * Traps, [kernel/trap.c], [kernel/plic.c] and [forkret]

    The state is the kernel together with the supervisor registers of the
    processor that takes the trap. *)

From stdpp Require Import base numbers strings pretty decidable sets gmap functions list.
From S2P Require Import Prelude.
From S2P Require Import CString.
From S2P Require Import Riscv.
From S2P Require Import Sched.
From S2P Require Import Sleeplock.
From S2P Require Import Kalloc.
From S2P Require Import Vm.
From S2P Require Import Console.
From S2P Require Import Proc.
From S2P Require Import Bio.
From S2P Require Import Virtio.
From S2P Require Import Log.
From S2P Require Import Fs.
From S2P Require Import File.
From S2P Require Import Fork.
From S2P Require Import Exec.
From S2P Require Import Syscall.
Open Scope Z_scope.
Open Scope xv6_scope.

Record hart : Type := mkhart {
  h_kern : kern;
  h_vq : vdisk;
  sstatus : Z;
  stvec : Z;
  sepc : Z;
  scause : Z;
  stval : Z;
  h_satp : Z;
  tp : Z;  (** the hart number *)
  stimecmp : Z;
  time : Z;
  plic_pending : Z;  (** what the claim register of the PLIC reads *)
  plic_completed : list Z;  (** what was written to it *)
}.
#[export] Instance set_h_kern : Setter h_kern := fun v r => mkhart v (h_vq r) (sstatus r) (stvec r) (sepc r) (scause r) (stval r) (h_satp r) (tp r) (stimecmp r) (time r) (plic_pending r) (plic_completed r).
#[export] Instance set_h_vq : Setter h_vq := fun v r => mkhart (h_kern r) v (sstatus r) (stvec r) (sepc r) (scause r) (stval r) (h_satp r) (tp r) (stimecmp r) (time r) (plic_pending r) (plic_completed r).
#[export] Instance set_sstatus : Setter sstatus := fun v r => mkhart (h_kern r) (h_vq r) v (stvec r) (sepc r) (scause r) (stval r) (h_satp r) (tp r) (stimecmp r) (time r) (plic_pending r) (plic_completed r).
#[export] Instance set_stvec : Setter stvec := fun v r => mkhart (h_kern r) (h_vq r) (sstatus r) v (sepc r) (scause r) (stval r) (h_satp r) (tp r) (stimecmp r) (time r) (plic_pending r) (plic_completed r).
#[export] Instance set_sepc : Setter sepc := fun v r => mkhart (h_kern r) (h_vq r) (sstatus r) (stvec r) v (scause r) (stval r) (h_satp r) (tp r) (stimecmp r) (time r) (plic_pending r) (plic_completed r).
#[export] Instance set_scause : Setter scause := fun v r => mkhart (h_kern r) (h_vq r) (sstatus r) (stvec r) (sepc r) v (stval r) (h_satp r) (tp r) (stimecmp r) (time r) (plic_pending r) (plic_completed r).
#[export] Instance set_stval : Setter stval := fun v r => mkhart (h_kern r) (h_vq r) (sstatus r) (stvec r) (sepc r) (scause r) v (h_satp r) (tp r) (stimecmp r) (time r) (plic_pending r) (plic_completed r).
#[export] Instance set_h_satp : Setter h_satp := fun v r => mkhart (h_kern r) (h_vq r) (sstatus r) (stvec r) (sepc r) (scause r) (stval r) v (tp r) (stimecmp r) (time r) (plic_pending r) (plic_completed r).
#[export] Instance set_tp : Setter tp := fun v r => mkhart (h_kern r) (h_vq r) (sstatus r) (stvec r) (sepc r) (scause r) (stval r) (h_satp r) v (stimecmp r) (time r) (plic_pending r) (plic_completed r).
#[export] Instance set_stimecmp : Setter stimecmp := fun v r => mkhart (h_kern r) (h_vq r) (sstatus r) (stvec r) (sepc r) (scause r) (stval r) (h_satp r) (tp r) v (time r) (plic_pending r) (plic_completed r).
#[export] Instance set_time : Setter time := fun v r => mkhart (h_kern r) (h_vq r) (sstatus r) (stvec r) (sepc r) (scause r) (stval r) (h_satp r) (tp r) (stimecmp r) v (plic_pending r) (plic_completed r).
#[export] Instance set_plic_pending : Setter plic_pending := fun v r => mkhart (h_kern r) (h_vq r) (sstatus r) (stvec r) (sepc r) (scause r) (stval r) (h_satp r) (tp r) (stimecmp r) (time r) v (plic_completed r).
#[export] Instance set_plic_completed : Setter plic_completed := fun v r => mkhart (h_kern r) (h_vq r) (sstatus r) (stvec r) (sepc r) (scause r) (stval r) (h_satp r) (tp r) (stimecmp r) (time r) (plic_pending r) v.

#[export] Instance embed_kern_hart : Embed kern hart := {|
  prj := h_kern;
  inj := fun k s => s <| h_kern := k |>;
|}.
#[export] Instance embed_kern_hart_laws : EmbedLaws kern hart.
Proof. by split; intros; try destruct t. Qed.
#[export] Instance embed_mm_hart : Embed mm hart := {|
  prj := fun s => prj (h_kern s);
  inj := fun m s => s <| h_kern := inj m (h_kern s) |>;
|}.
#[export] Instance embed_mm_hart_laws : EmbedLaws mm hart.
Proof. split; intros; try destruct t as [[[[[]]]]]; done. Qed.
#[export] Instance embed_mach_hart : Embed mach hart := {|
  prj := fun s => prj (h_kern s);
  inj := fun m s => s <| h_kern := inj m (h_kern s) |>;
|}.
#[export] Instance embed_mach_hart_laws : EmbedLaws mach hart.
Proof. split; intros; try destruct t as [[[[[[]]]]]]; done. Qed.
#[export] Instance embed_cmm_hart : Embed cmm hart := {|
  prj := fun s => prj (h_kern s);
  inj := fun m s => s <| h_kern := inj m (h_kern s) |>;
|}.
#[export] Instance embed_cmm_hart_laws : EmbedLaws cmm hart.
Proof. split; intros; try destruct t as [[[[[]]]]]; try destruct s; done. Qed.
#[export] Instance embed_vst_hart : Embed vst hart := {|
  prj := fun s => mkvst (lg_blk (fs_log (k_fs (h_kern s)))) (h_vq s);
  inj := fun v s =>
    s <| h_kern := h_kern s <| k_fs := inj (vs_blk v) (k_fs (h_kern s)) |> |> <| h_vq := vq v |>;
|}.
#[export] Instance embed_vst_hart_laws : EmbedLaws vst hart.
Proof. split; intros; try destruct t as [[[[]]]]; try destruct s; done. Qed.

(** ** Registers, [kernel/riscv.h] *)

Definition w_stvec (x : Z) : M hart unit := modify (fun s => s <| stvec := x |>).
Definition w_sstatus (x : Z) : M hart unit := modify (fun s => s <| sstatus := x |>).
Definition w_sepc (x : Z) : M hart unit := modify (fun s => s <| sepc := x |>).
Definition intr_on : M hart unit :=
  modify (fun s => s <| sstatus := Z.lor (sstatus s) SSTATUS_SIE |>).
Definition intr_off : M hart unit :=
  modify (fun s => s <| sstatus := Z.ldiff (sstatus s) SSTATUS_SIE |>).
Definition intr_get : M hart bool :=
  gets (fun s => negb (Z.land (sstatus s) SSTATUS_SIE =? 0)).

(** ** The interrupt controller, [kernel/plic.c] *)

Definition plic_claim : M hart Z := gets (fun s => s32 (plic_pending s)).
Definition plic_complete (irq : Z) : M hart unit :=
  modify (fun s => s <| plic_completed := plic_completed s ++ [irq] |>).

(** ** Interrupts *)

(** [cpuid] of [kernel/proc.c] *)
Definition cpuid : M hart Z := gets (fun s => s32 (tp s)).

Definition clockintr : M hart unit :=
  id <- cpuid ;;
  when (id =? 0)
    (lift (acquire LkTicks) ;;
     lift (modify (fun m => m <| ticks := u32 (ticks m + 1) |>)) ;;
     lift (wakeup ChTicks) ;;
     lift (release LkTicks)) ;;
  modify (fun s => s <| stimecmp := u64 (time s + 1000000) |>).

Definition devintr : M hart Z :=
  s <- get ;;
  if scause s =? 0x8000000000000009 then
    irq <- plic_claim ;;
    (if irq =? UART0_IRQ then lift uartintr
     else if irq =? VIRTIO0_IRQ then lift virtio_disk_intr
     else when (negb (irq =? 0)) (lift (kprintf ("unexpected interrupt irq=" +:+ pretty irq)))) ;;
    when (negb (irq =? 0)) (plic_complete irq) ;;
    ret 1
  else if scause s =? 0x8000000000000005 then
    clockintr ;;
    ret 2
  else ret 0.

(** ** Traps *)

Section trap.
Context `{!Image}.

Definition prepare_return : M hart unit :=
  i <- lift myproc ;;
  intr_off ;;
  w_stvec (u64 (TRAMPOLINE + (uservec - trampoline))) ;;
  s <- get ;;
  p <- lift (get_proc i) ;;
  lift (tf_set i tf_kernel_satp (h_satp s)) ;;
  lift (tf_set i tf_kernel_sp (p_kstack p + PGSIZE)) ;;
  lift (tf_set i tf_kernel_trap usertrap_addr) ;;
  lift (tf_set i tf_kernel_hartid (tp s)) ;;
  s <- get ;;
  w_sstatus (Z.lor (Z.ldiff (sstatus s) SSTATUS_SPP) SSTATUS_SPIE) ;;
  epc <- lift (tf_get i tf_epc) ;;
  w_sepc epc.

(** [kexit] does not return. *)
Definition exit_if_killed (i : nat) : M hart unit :=
  k <- lift (killed i) ;;
  when (negb (k =? 0)) (lift (kexit (-1))).

(** The branch of [usertrap] that handles the cause: the value of
    [which_dev]. *)
Definition usertrap_cause (i : nat) : M hart Z :=
  s <- get ;;
  if scause s =? 8 then
    exit_if_killed i ;;
    epc <- lift (tf_get i tf_epc) ;;
    lift (tf_set i tf_epc (epc + 4)) ;;
    intr_on ;;
    lift syscall ;;
    ret 0
  else
    which_dev <- devintr ;;
    if negb (which_dev =? 0) then ret which_dev
    else
      s <- get ;;
      p <- lift (get_proc i) ;;
      pa <- (if (scause s =? 15) || (scause s =? 13) then lift (vmfault (p_pagetable p) (stval s))
             else ret 0) ;;
      if negb (pa =? 0) then ret 0
      else
        lift (kprintf ("usertrap(): unexpected scause " +:+ pretty (scause s) +:+
                       " pid=" +:+ pretty (p_pid p))) ;;
        lift (kprintf ("            sepc=" +:+ pretty (sepc s) +:+ " stval=" +:+ pretty (stval s))) ;;
        lift (setkilled i) ;;
        ret 0.

(** The result is the user page table register. *)
Definition usertrap : M hart Z :=
  s <- get ;;
  if negb (Z.land (sstatus s) SSTATUS_SPP =? 0) then panic "usertrap: not from user mode"
  else
    w_stvec kernelvec ;;
    i <- lift myproc ;;
    lift (tf_set i tf_epc (sepc s)) ;;
    which_dev <- usertrap_cause i ;;
    exit_if_killed i ;;
    when (which_dev =? 2) (lift yield) ;;
    prepare_return ;;
    p <- lift (get_proc i) ;;
    ret (MAKE_SATP (p_pagetable p)).

Definition kerneltrap : M hart unit :=
  s <- get ;;
  let sepc0 := sepc s in
  let sstatus0 := sstatus s in
  if Z.land sstatus0 SSTATUS_SPP =? 0 then panic "kerneltrap: not from supervisor mode"
  else
    on <- intr_get ;;
    if on : bool then panic "kerneltrap: interrupts enabled"
    else
      which_dev <- devintr ;;
      if which_dev =? 0 then
        lift (kprintf ("scause=" +:+ pretty (scause s) +:+ " sepc=" +:+ pretty sepc0 +:+
                       " stval=" +:+ pretty (stval s))) ;;
        panic "kerneltrap"
      else
        m <- lift get ;;
        when ((which_dev =? 2) && bool_decide (cur m <> None)) (lift yield) ;;
        w_sepc sepc0 ;;
        w_sstatus sstatus0.

(** The string ["/init"]. *)
Definition init_path : list Z := [47; 105; 110; 105; 116].

(** [forkret] of [kernel/proc.c]: the address it jumps to and its argument. *)
Definition forkret : M hart (Z * Z) :=
  i <- lift myproc ;;
  lift (release (LkProc i)) ;;
  k <- lift (@get kern) ;;
  when (k_first k)
    (lift (lift (T := kern) (fsinit ROOTDEV)) ;;
     lift (@modify kern (fun k => k <| k_first := false |>)) ;;
     r <- lift (kexec init_path [Const init_path]) ;;
     lift (tf_set i tf_a0 r) ;;
     when (u64 r =? u64 (-1)) (panic "exec")) ;;
  prepare_return ;;
  p <- lift (get_proc i) ;;
  ret (u64 (TRAMPOLINE + (userret - trampoline)), MAKE_SATP (p_pagetable p)).
End trap.
