(* ===== verification/Boot.v ===== *)
(** * Start-up, [kernel/start.c] and [kernel/main.c]

    The way of a hart from machine mode to the scheduler: [start] and
    [timerinit], which set up the machine registers, [main], which calls the
    initialisation of every part of the kernel in turn, and those of the
    initialisation routines that only write device registers: [uartinit],
    [plicinit], [plicinithart], [trapinithart] and [virtio_disk_init].

    Writes to device registers are kept in the order in which they are made;
    what a device register reads after some writes is the device's business
    and a parameter, [device].  [initlock] of a static lock leaves it free,
    which is how it starts. *)

From stdpp Require Import base numbers strings pretty decidable sets gmap functions list.
From S2P Require Import Prelude.
From S2P Require Import CString.
From S2P Require Import Riscv.
From S2P Require Import Sched.
From S2P Require Import Sleeplock.
From S2P Require Import Kalloc.
From S2P Require Import Vm.
From S2P Require Import Console.
From S2P Require Import Proc.
From S2P Require Import Bio.
From S2P Require Import Virtio.
From S2P Require Import Log.
From S2P Require Import Fs.
From S2P Require Import File.
From S2P Require Import Fork.
From S2P Require Import Trap.
Open Scope Z_scope.
Open Scope xv6_scope.

(** ** Machine mode, [kernel/start.c] *)

Definition MSTATUS_MPP_MASK : Z := Z.shiftl 3 11.
Definition MSTATUS_MPP_S : Z := Z.shiftl 1 11.
Definition SIE_SEIE : Z := Z.shiftl 1 9.
Definition SIE_STIE : Z := Z.shiftl 1 5.
Definition MIE_STIE : Z := Z.shiftl 1 5.

(** The registers that [start] sets, and the two it only reads. *)
Record mregs : Type := mkmregs {
  r_mstatus : Z;
  r_mepc : Z;
  r_satp : Z;
  r_medeleg : Z;
  r_mideleg : Z;
  r_sie : Z;
  r_pmpaddr0 : Z;
  r_pmpcfg0 : Z;
  r_mie : Z;
  r_menvcfg : Z;
  r_mcounteren : Z;
  r_stimecmp : Z;
  r_tp : Z;
  r_mhartid : Z;
  r_time : Z;
}.

Definition timerinit (r : mregs) : mregs :=
  mkmregs (r_mstatus r) (r_mepc r) (r_satp r) (r_medeleg r) (r_mideleg r) (r_sie r) (r_pmpaddr0 r) (r_pmpcfg0 r)
    (Z.lor (r_mie r) MIE_STIE) (Z.lor (r_menvcfg r) (Z.shiftl 1 63)) (Z.lor (r_mcounteren r) 2) (u64 (r_time r + 1000000))
    (r_tp r) (r_mhartid r) (r_time r).

(** [main_addr] is the address of [main]; [mret] leaves for it. *)
Definition start (main_addr : Z) (r : mregs) : mregs :=
  let x := Z.lor (Z.ldiff (r_mstatus r) MSTATUS_MPP_MASK) MSTATUS_MPP_S in
  let r := timerinit (mkmregs x main_addr 0 0xffff 0xffff (Z.lor (r_sie r) (Z.lor SIE_SEIE SIE_STIE))
             0x3fffffffffffff 0xf (r_mie r) (r_menvcfg r) (r_mcounteren r) (r_stimecmp r) (r_tp r) (r_mhartid r) (r_time r)) in
  mkmregs (r_mstatus r) (r_mepc r) (r_satp r) (r_medeleg r) (r_mideleg r) (r_sie r) (r_pmpaddr0 r) (r_pmpcfg0 r)
    (r_mie r) (r_menvcfg r) (r_mcounteren r) (r_stimecmp r) (s32 (r_mhartid r)) (r_mhartid r) (r_time r).

(** ** The state at start-up *)

Record boot : Type := mkboot {
  b_hart : hart;
  b_kpgtbl : Z;  (** [kernel_pagetable] *)
  b_writes : list (Z * Z);  (** what was written to device registers, and where *)
  b_rings : Z * Z * Z;  (** [disk.desc], [disk.avail] and [disk.used] *)
  b_started : Z;
}.
#[export] Instance set_b_hart : Setter b_hart := fun v r => mkboot v (b_kpgtbl r) (b_writes r) (b_rings r) (b_started r).
#[export] Instance set_b_kpgtbl : Setter b_kpgtbl := fun v r => mkboot (b_hart r) v (b_writes r) (b_rings r) (b_started r).
#[export] Instance set_b_writes : Setter b_writes := fun v r => mkboot (b_hart r) (b_kpgtbl r) v (b_rings r) (b_started r).
#[export] Instance set_b_rings : Setter b_rings := fun v r => mkboot (b_hart r) (b_kpgtbl r) (b_writes r) v (b_started r).
#[export] Instance set_b_started : Setter b_started := fun v r => mkboot (b_hart r) (b_kpgtbl r) (b_writes r) (b_rings r) v.

#[export] Instance embed_hart_boot : Embed hart boot := {|
  prj := b_hart;
  inj := fun h s => s <| b_hart := h |>;
|}.
#[export] Instance embed_kern_boot : Embed kern boot := {|
  prj := fun s => h_kern (b_hart s);
  inj := fun k s => s <| b_hart := b_hart s <| h_kern := k |> |>;
|}.
#[export] Instance embed_fs_boot : Embed fs boot := {|
  prj := fun s => k_fs (h_kern (b_hart s));
  inj := fun f s => s <| b_hart := b_hart s <| h_kern := h_kern (b_hart s) <| k_fs := f |> |> |>;
|}.
#[export] Instance embed_blk_boot : Embed blk boot := {|
  prj := fun s => lg_blk (fs_log (k_fs (h_kern (b_hart s))));
  inj := fun b s => inj (k_fs (h_kern (b_hart s)) <| fs_log := fs_log (k_fs (h_kern (b_hart s))) <| lg_blk := b |> |>) s;
|}.
#[export] Instance embed_mm_boot : Embed mm boot := {|
  prj := fun s => blk_mm (prj s);
  inj := fun m s => inj (prj s <| blk_mm := m |>) s;
|}.
#[export] Instance embed_mach_boot : Embed mach boot := {|
  prj := fun s => mm_mach (prj s);
  inj := fun m s => inj (prj s <| mm_mach := m |>) s;
|}.
#[export] Instance embed_kvm_boot : Embed kvm boot := {|
  prj := fun s => mkkvm (prj s) (b_kpgtbl s) (h_satp (b_hart s));
  inj := fun k s => let s := inj (kvm_mm k) s in s <| b_hart := b_hart s <| h_satp := satp k |> |> <| b_kpgtbl := kernel_pagetable k |>;
|}.

(** What the registers of the devices read, after the writes made so far. *)
Class Board := { device : list (Z * Z) -> Z -> Z }.

Section boot.
Context `{!Image, !Board}.

Definition mmio_write (a v : Z) : M boot unit := modify (fun s => s <| b_writes := b_writes s ++ [(a, v)] |>).
Definition mmio_read (a : Z) : M boot Z := gets (fun s => device (b_writes s) a).

(** ** The serial port and the console *)

Definition IER : Z := 1.
Definition IER_RX_ENABLE : Z := Z.shiftl 1 0.
Definition IER_TX_ENABLE : Z := Z.shiftl 1 1.
Definition FCR : Z := 2.
Definition FCR_FIFO_ENABLE : Z := Z.shiftl 1 0.
Definition FCR_FIFO_CLEAR : Z := Z.shiftl 3 1.
Definition LCR : Z := 3.
Definition LCR_EIGHT_BITS : Z := Z.shiftl 3 0.
Definition LCR_BAUD_LATCH : Z := Z.shiftl 1 7.
Definition WriteReg (reg v : Z) : M boot unit := mmio_write (UART0 + reg) v.

Definition uartinit : M boot unit :=
  WriteReg IER 0 ;;
  WriteReg LCR LCR_BAUD_LATCH ;;
  WriteReg 0 3 ;;
  WriteReg 1 0 ;;
  WriteReg LCR LCR_EIGHT_BITS ;;
  WriteReg FCR (Z.lor FCR_FIFO_ENABLE FCR_FIFO_CLEAR) ;;
  WriteReg IER (Z.lor IER_TX_ENABLE IER_RX_ENABLE).

Definition consoleinit : M boot unit :=
  uartinit ;;
  lift console_devsw.

(** ** Traps and the interrupt controller *)

Definition trapinithart : M boot unit := lift (w_stvec kernelvec).

Definition plicinit : M boot unit :=
  mmio_write (PLIC + UART0_IRQ * 4) 1 ;;
  mmio_write (PLIC + VIRTIO0_IRQ * 4) 1.
Definition plicinithart : M boot unit :=
  hart <- lift cpuid ;;
  mmio_write (PLIC_SENABLE hart) (Z.lor (Z.shiftl 1 UART0_IRQ) (Z.shiftl 1 VIRTIO0_IRQ)) ;;
  mmio_write (PLIC_SPRIORITY hart) 0.

(** ** The disk *)

Definition VIRTIO_MMIO_MAGIC_VALUE : Z := 0x000.
Definition VIRTIO_MMIO_VERSION : Z := 0x004.
Definition VIRTIO_MMIO_DEVICE_ID : Z := 0x008.
Definition VIRTIO_MMIO_VENDOR_ID : Z := 0x00c.
Definition VIRTIO_MMIO_DEVICE_FEATURES : Z := 0x010.
Definition VIRTIO_MMIO_DRIVER_FEATURES : Z := 0x020.
Definition VIRTIO_MMIO_QUEUE_SEL : Z := 0x030.
Definition VIRTIO_MMIO_QUEUE_NUM_MAX : Z := 0x034.
Definition VIRTIO_MMIO_QUEUE_NUM : Z := 0x038.
Definition VIRTIO_MMIO_QUEUE_READY : Z := 0x044.
Definition VIRTIO_MMIO_STATUS : Z := 0x070.
Definition VIRTIO_MMIO_QUEUE_DESC_LOW : Z := 0x080.
Definition VIRTIO_MMIO_QUEUE_DESC_HIGH : Z := 0x084.
Definition VIRTIO_MMIO_DRIVER_DESC_LOW : Z := 0x090.
Definition VIRTIO_MMIO_DRIVER_DESC_HIGH : Z := 0x094.
Definition VIRTIO_MMIO_DEVICE_DESC_LOW : Z := 0x0a0.
Definition VIRTIO_MMIO_DEVICE_DESC_HIGH : Z := 0x0a4.
Definition VIRTIO_CONFIG_S_ACKNOWLEDGE : Z := 1.
Definition VIRTIO_CONFIG_S_DRIVER : Z := 2.
Definition VIRTIO_CONFIG_S_DRIVER_OK : Z := 4.
Definition VIRTIO_CONFIG_S_FEATURES_OK : Z := 8.
Definition VIRTIO_BLK_F_RO : Z := 5.
Definition VIRTIO_BLK_F_SCSI : Z := 7.
Definition VIRTIO_BLK_F_CONFIG_WCE : Z := 11.
Definition VIRTIO_BLK_F_MQ : Z := 12.
Definition VIRTIO_F_ANY_LAYOUT : Z := 27.
Definition VIRTIO_RING_F_INDIRECT_DESC : Z := 28.
Definition VIRTIO_RING_F_EVENT_IDX : Z := 29.

(** The address of a register of the device. *)
Definition reg (r : Z) : Z := VIRTIO0 + r.
Definition without (features bit : Z) : Z := Z.ldiff features (Z.shiftl 1 bit).

(** [virtio_disk_init] up to the negotiation of features; the result is the
    status it has reached. *)
Definition virtio_negotiate : M boot Z :=
  magic <- mmio_read (reg VIRTIO_MMIO_MAGIC_VALUE) ;;
  version <- mmio_read (reg VIRTIO_MMIO_VERSION) ;;
  id <- mmio_read (reg VIRTIO_MMIO_DEVICE_ID) ;;
  vendor <- mmio_read (reg VIRTIO_MMIO_VENDOR_ID) ;;
  if negb (magic =? 0x74726976) || negb (version =? 2) || negb (id =? 2) || negb (vendor =? 0x554d4551) then
    panic "could not find virtio disk"
  else
    mmio_write (reg VIRTIO_MMIO_STATUS) 0 ;;
    let status := VIRTIO_CONFIG_S_ACKNOWLEDGE in
    mmio_write (reg VIRTIO_MMIO_STATUS) status ;;
    let status := Z.lor status VIRTIO_CONFIG_S_DRIVER in
    mmio_write (reg VIRTIO_MMIO_STATUS) status ;;
    features <- mmio_read (reg VIRTIO_MMIO_DEVICE_FEATURES) ;;
    let features := foldl without features
      [VIRTIO_BLK_F_RO; VIRTIO_BLK_F_SCSI; VIRTIO_BLK_F_CONFIG_WCE; VIRTIO_BLK_F_MQ; VIRTIO_F_ANY_LAYOUT;
       VIRTIO_RING_F_EVENT_IDX; VIRTIO_RING_F_INDIRECT_DESC] in
    mmio_write (reg VIRTIO_MMIO_DRIVER_FEATURES) (u32 features) ;;
    let status := Z.lor status VIRTIO_CONFIG_S_FEATURES_OK in
    mmio_write (reg VIRTIO_MMIO_STATUS) status ;;
    status <- mmio_read (reg VIRTIO_MMIO_STATUS) ;;
    if Z.land status VIRTIO_CONFIG_S_FEATURES_OK =? 0 then panic "virtio disk FEATURES_OK unset"
    else ret status.

(** The address of a ring, in two halves. *)
Definition ring_address (low high pa : Z) : M boot unit :=
  mmio_write (reg low) (u32 pa) ;;
  mmio_write (reg high) (u32 (Z.shiftr pa 32)).

(** The rest of it.  The rings that the three pages hold are kept in the
    state of the driver, as in [Virtio]: zeroing the pages zeroes them. *)
Definition upd_rings (f : vdisk -> vdisk) : M boot unit :=
  modify (fun s => s <| b_hart := b_hart s <| h_vq := f (h_vq (b_hart s)) |> |>).
Definition virtio_queue (status : Z) : M boot unit :=
  mmio_write (reg VIRTIO_MMIO_QUEUE_SEL) 0 ;;
  ready <- mmio_read (reg VIRTIO_MMIO_QUEUE_READY) ;;
  if negb (ready =? 0) then panic "virtio disk should not be ready"
  else
    max <- mmio_read (reg VIRTIO_MMIO_QUEUE_NUM_MAX) ;;
    if max =? 0 then panic "virtio disk has no queue 0"
    else if max <? NUM then panic "virtio disk max queue too short"
    else
      desc <- lift kalloc ;;
      avail <- lift kalloc ;;
      used <- lift kalloc ;;
      modify (fun s => s <| b_rings := (desc, avail, used) |>) ;;
      if (desc =? 0) || (avail =? 0) || (used =? 0) then panic "virtio disk kalloc"
      else
        lift (zero_page desc) ;;
        lift (zero_page avail) ;;
        lift (zero_page used) ;;
        upd_rings (fun v => v <| v_desc := replicate num no_desc |> <| avail_ring := replicate num 0 |> <| avail_idx := 0 |>
                              <| used_ring := replicate num 0 |> <| used_idx := 0 |>) ;;
        mmio_write (reg VIRTIO_MMIO_QUEUE_NUM) NUM ;;
        ring_address VIRTIO_MMIO_QUEUE_DESC_LOW VIRTIO_MMIO_QUEUE_DESC_HIGH desc ;;
        ring_address VIRTIO_MMIO_DRIVER_DESC_LOW VIRTIO_MMIO_DRIVER_DESC_HIGH avail ;;
        ring_address VIRTIO_MMIO_DEVICE_DESC_LOW VIRTIO_MMIO_DEVICE_DESC_HIGH used ;;
        mmio_write (reg VIRTIO_MMIO_QUEUE_READY) 1 ;;
        upd_rings (fun v => v <| v_free := replicate num true |>) ;;
        mmio_write (reg VIRTIO_MMIO_STATUS) (Z.lor status VIRTIO_CONFIG_S_DRIVER_OK).

Definition virtio_disk_init : M boot unit :=
  status <- virtio_negotiate ;;
  virtio_queue status.

(** ** [main] *)

(** The symbols [etext] and [trampoline] come from the linker; [printfinit],
    [trapinit] and [fileinit] initialise a lock each. *)
Definition main_first (etext : Z) : M boot unit :=
  consoleinit ;;
  lift (kprintf "\n") ;;
  lift (kprintf "xv6 kernel is booting\n") ;;
  lift (kprintf "\n") ;;
  lift kinit ;;
  lift (kvminit etext trampoline) ;;
  lift kvminithart ;;
  lift procinit ;;
  trapinithart ;;
  plicinit ;;
  plicinithart ;;
  lift binit ;;
  lift iinit ;;
  virtio_disk_init ;;
  lift userinit ;;
  modify (fun s => s <| b_started := 1 |>).

(** A hart that is not the first waits until the first one is done. *)
Fixpoint main_wait (fuel : nat) : M boot unit :=
  match fuel with
  | O => out_of_fuel
  | S fuel' =>
    st <- gets b_started ;;
    if st =? 0 then main_wait fuel' else ret tt
  end.
Definition main_other : M boot unit :=
  main_wait wait_fuel ;;
  id <- lift cpuid ;;
  lift (kprintf ("hart " +:+ pretty id +:+ " starting\n")) ;;
  lift kvminithart ;;
  trapinithart ;;
  plicinithart.

(** [main] up to its call of the scheduler. *)
Definition main (etext : Z) : M boot unit :=
  id <- lift cpuid ;;
  if id =? 0 then main_first etext else main_other.
End boot.
