(* ===== verification/BootSpec.v ===== *)
(** * The kernel comes up

    [main], run by the first hart on the zeroed data of a kernel, on a board
    whose devices answer as their documentation says and with some memory,
    comes to the point where the scheduler is called: the kernel's page table
    is on, the buffer cache and the inode table are empty, the disk has its
    queue, and process 1 can run. *)
From stdpp Require Import base numbers strings pretty decidable sets gmap gmultiset functions list.
From S2P Require Import Prelude.
From S2P Require Import CString.
From S2P Require Import Riscv.
From S2P Require Import Sched.
From S2P Require Import Sleeplock.
From S2P Require Import Kalloc.
From S2P Require Import Vm.
From S2P Require Import VmInv.
From S2P Require Import Uvm.
From S2P Require Import Kvm.
From S2P Require Import Console.
From S2P Require Import Pipe.
From S2P Require Import Proc.
From S2P Require Import ProcSpec.
From S2P Require Import Bio.
From S2P Require Import Virtio.
From S2P Require Import Log.
From S2P Require Import Fs.
From S2P Require Import ITable.
From S2P Require Import FsRemove.
From S2P Require Import File.
From S2P Require Import Fork.
From S2P Require Import Trap.
From S2P Require Import Boot.
Open Scope Z_scope.
Open Scope xv6_scope.

(** ** Machine mode *)

(** [start] leaves for [main] in supervisor mode, without paging, with every
    trap delegated, external and timer interrupts enabled, and the number of
    the hart in [tp]. *)
Lemma start_leaves main_addr r :
  0 <= r_mhartid r < 2 ^ 31 ->
  let r' := start main_addr r in
  r_mepc r' = main_addr /\ r_satp r' = 0 /\ r_tp r' = r_mhartid r /\ r_medeleg r' = 0xffff /\ r_mideleg r' = 0xffff /\
  Z.land (r_mstatus r') MSTATUS_MPP_MASK = MSTATUS_MPP_S /\
  Z.testbit (r_sie r') 9 = true /\ Z.testbit (r_sie r') 5 = true /\ Z.testbit (r_mie r') 5 = true.
Proof.
  intros Hh. cbn -[Z.land Z.lor Z.ldiff Z.testbit]. split_and!; try done.
  - apply s32_small. lia.
  - apply Z.bits_inj'. intros n Hn. unfold MSTATUS_MPP_MASK, MSTATUS_MPP_S. rewrite Z.land_spec, Z.lor_spec, Z.ldiff_spec.
    destruct (Z.testbit (Z.shiftl 3 11) n) eqn:E3, (Z.testbit (Z.shiftl 1 11) n) eqn:E1; rewrite ?andb_true_r, ?andb_false_r; try done.
    exfalso. assert (H : Z.land (Z.shiftl 1 11) (Z.shiftl 3 11) = Z.shiftl 1 11) by done. apply (f_equal (fun z => Z.testbit z n)) in H.
    rewrite Z.land_spec, E1, E3 in H. done.
  - rewrite !Z.lor_spec. by rewrite orb_true_r.
  - rewrite !Z.lor_spec. by rewrite orb_true_r.
  - rewrite Z.lor_spec. by rewrite orb_true_r.
Qed.

(** ** Initialisation of tables *)

Lemma procinit_range n k m :
  (k + n)%nat = length (procs m) ->
  mapM_ (fun i => upd_proc i (fun p => p <| p_state := UNUSED |> <| p_kstack := KSTACK (Z.of_nat i) |>)) (seq k n) m =
    Ok tt (m <| procs := take k (procs m) ++
      imap (fun i p => p <| p_state := UNUSED |> <| p_kstack := KSTACK (Z.of_nat (k + i)) |>) (drop k (procs m)) |>).
Proof.
  revert k m. induction n as [|n IH]; intros k m Hk; cbn [seq mapM_].
  { rewrite drop_ge, app_nil_r, take_ge by lia. by destruct m. }
  destruct (lookup_lt_is_Some_2 (procs m) k) as [p Hp]; [lia|].
  erewrite bind_ok by (by apply upd_proc_ok). rewrite IH by (cbn; rewrite length_insert; lia). f_equal.
  destruct m as [h ps c np ip tk kl]. unfold setf, set_procs. cbn in *. f_equal.
  rewrite (drop_S _ _ _ Hp), (take_S_r _ _ (p <| p_state := UNUSED |> <| p_kstack := KSTACK (Z.of_nat k) |>)).
  2: { apply list_lookup_insert_eq. by eapply lookup_lt_Some. }
  rewrite take_insert_ge, drop_insert_lt by lia. cbn [imap]. rewrite <- app_assoc, Nat.add_0_r. cbn. do 2 f_equal.
  apply imap_ext. intros i x _. cbn. by rewrite Nat.add_succ_r.
Qed.
Lemma procinit_ok m :
  length (procs m) = NPROC ->
  procinit m = Ok tt (m <| procs := imap (fun i p => p <| p_state := UNUSED |> <| p_kstack := KSTACK (Z.of_nat i) |>) (procs m) |>).
Proof. intros Hl. unfold procinit. rewrite (procinit_range NPROC 0) by (symmetry; exact Hl). by rewrite take_0, drop_0. Qed.

Lemma iinit_range n k (s : fs) :
  (k + n)%nat = length (itable s) ->
  mapM_ (fun i => initsleeplock (inode_lock i)) (seq k n) s =
    Ok tt (s <| itable := take k (itable s) ++ ((fun ip => ip <| i_lock := mksleeplock 0 0 |>) <$> drop k (itable s)) |>).
Proof.
  revert k s. induction n as [|n IH]; intros k s Hk; cbn [seq mapM_].
  { rewrite drop_ge, app_nil_r, take_ge by lia. by destruct s. }
  destruct (lookup_lt_is_Some_2 (itable s) k) as [ip Hip]; [lia|].
  erewrite bind_ok by done. rewrite IH by (cbn; rewrite length_insert; lia). f_equal.
  destruct s as [lg sb t]. unfold setf, set_itable. cbn in *. rewrite (list_lookup_total_correct _ _ _ Hip). f_equal.
  rewrite (drop_S _ _ _ Hip), (take_S_r _ _ (ip <| i_lock := mksleeplock 0 0 |>)).
  2: { apply list_lookup_insert_eq. by eapply lookup_lt_Some. }
  rewrite take_insert_ge, drop_insert_lt by lia. by rewrite <- app_assoc.
Qed.
Lemma iinit_ok (s : fs) :
  length (itable s) = NINODE -> iinit s = Ok tt (s <| itable := (fun ip => ip <| i_lock := mksleeplock 0 0 |>) <$> itable s |>).
Proof. intros Hl. unfold iinit. rewrite (iinit_range NINODE 0) by (symmetry; exact Hl). by rewrite take_0, drop_0. Qed.

(** Three pages, taken and zeroed. *)
Lemma kalloc_three m d a u l :
  kmem_inv m (d :: a :: u :: l) -> LkKmem ∉ held (mm_mach m) ->
  exists m1 m2 m3 m4 m5 m6, kalloc m = Ok d m1 /\ kalloc m1 = Ok a m2 /\ kalloc m2 = Ok u m3 /\ d <> 0 /\ a <> 0 /\ u <> 0 /\
    zero_page d m3 = Ok tt m4 /\ zero_page a m4 = Ok tt m5 /\ zero_page u m5 = Ok tt m6 /\
    kmem_inv m6 l /\ mm_mach m6 = mm_mach m /\ mstep {[d; a; u]} m m6 /\
    filled d 0 (mem m6) /\ filled a 0 (mem m6) /\ filled u 0 (mem m6).
Proof.
  intros K L. pose proof (kmem_inv_aligned _ _ K) as Hal. pose proof (ki_nodup _ _ K) as Hnd.
  destruct (kalloc_some m d (a :: u :: l) K L) as (m1 & E1 & K1 & (M1 & N1 & O1) & _ & V1 & _).
  destruct (kalloc_some m1 a (u :: l) K1) as (m2 & E2 & K2 & (M2 & N2 & O2) & _ & V2 & _); [by rewrite M1|].
  destruct (kalloc_some m2 u l K2) as (m3 & E3 & K3 & (M3 & N3 & O3) & _ & V3 & _); [by rewrite M2, M1|].
  destruct (valid_page_range _ _ _ K V1) as [D1 D1a]. destruct (valid_page_range _ _ _ K1 V2) as [D2 D2a]. destruct (valid_page_range _ _ _ K2 V3) as [D3 D3a].
  destruct (zero_page_ok d m3) as (x4 & E4 & O4 & F4); [lia|]. set (m4 := m3 <| mem := x4 |>) in *.
  destruct (zero_page_ok a m4) as (x5 & E5 & O5 & F5); [lia|]. set (m5 := m4 <| mem := x5 |>) in *.
  destruct (zero_page_ok u m5) as (x6 & E6 & O6 & F6); [lia|]. set (m6 := m5 <| mem := x6 |>) in *.
  assert (Hne : d <> a /\ d <> u /\ a <> u /\ d ∉ l /\ a ∉ l /\ u ∉ l).
  { repeat (apply NoDup_cons in Hnd as [? Hnd]). set_solver. }
  destruct Hne as (H1 & H2 & H3 & H4 & H5 & H6).
  exists m1, m2, m3, m4, m5, m6. split_and!; try done; try lia.
  - apply (kmem_inv_off m5 l u); try done. apply (kmem_inv_off m4 l a); try done. by apply (kmem_inv_off m3 l d).
  - change (mm_mach m6) with (mm_mach m3). by rewrite M3, M2, M1.
  - split; [change (k_end m6) with (k_end m3); by rewrite N3, N2, N1|]. intros b Hb.
    assert (Hp : ~ in_page d b /\ ~ in_page a b /\ ~ in_page u b) by (split_and!; apply Hb; set_solver). destruct Hp as (Pd & Pa & Pu).
    rewrite O6, O5, O4, O3, O2, O1 by done. done.
  - intros b Hb. rewrite O6, O5; [by apply F4|by apply (pages_disjoint d)..].
  - intros b Hb. rewrite O6; [by apply F5|by apply (pages_disjoint a)].
Qed.

(** ** The memory *)

(** A page table is not concerned by writes to other pages. *)
Lemma pt_frame (Q : gset Z) m m' T A :
  pt_inv m T A -> (forall q, q ∈ Q -> aligned q) -> (forall π p, T !! π = Some p -> p ∉ Q) ->
  (forall a, (forall q, q ∈ Q -> ~ in_page q a) -> m' a = m a) -> pt_inv m' T A.
Proof.
  intros I Hal Hn Hm. apply (pt_ext m); [done|]. intros π p i Hp Hi. apply load64_ext. intros b Hb. apply Hm. intros q Hq.
  apply (pages_disjoint p q); [by eapply (pi_page _ _ _ I)|by apply Hal| |by eapply slot_in_page]. intros ->. by apply (Hn π q).
Qed.

Definition free_pages (m : mm) : nat := length (pages_between (k_end m) PHYSTOP).

Lemma kernel_memory `{!Image} etext m :
  KERNBASE < etext < PHYSTOP /\ aligned etext -> 0 <= trampoline /\ aligned trampoline /\ trampoline + PGSIZE <= 2 ^ 56 ->
  kmem_inv m [] -> held (mm_mach m) = [] -> k_end m <= PHYSTOP -> (174 < free_pages m)%nat ->
  exists m1 m2 root d a u l T A stacks, kinit m = Ok tt m1 /\ kvmmake etext trampoline m1 = Ok root m2 /\ mm_mach m2 = mm_mach m /\
    vm_inv m2 (d :: a :: u :: l) T A /\ (5 <= length l)%nat /\ T !! [] = Some root /\
    shows A (kernel_map etext trampoline stacks) /\ length stacks = NPROC /\ NoDup stacks /\ (forall p, p ∈ stacks -> p ∉ own (d :: a :: u :: l) T).
Proof.
  intros He Ht K Hh Hk Hf. destruct (kinit_spec m K) as (m1 & E1 & K1 & M1); [rewrite Hh; apply not_elem_of_nil|done|].
  set (L := reverse (pages_between (k_end m) PHYSTOP)) in *. assert (HL : (174 < length L)%nat) by (unfold L; by rewrite length_reverse).
  destruct (kvmmake_ok etext trampoline He Ht m1 L K1) as (root & m2 & l & T & A & P & stacks & E2 & Hn & Hd & Hc & Hp & Kp & S2).
  { rewrite M1, Hh. apply not_elem_of_nil. }
  { change (length kkeys) with 102%nat. unfold NPROC. lia. }
  destruct Kp as [V HT Hkeys Ho Sh]. assert (Hl : (8 <= length l)%nat).
  { pose proof (tables_room l T kkeys Hkeys) as Hr. rewrite Ho in Hr. change (length kkeys) with 102%nat in Hr.
    assert (EL : list_to_set L = (list_to_set stacks ∪ P : gset Z)).
    { apply set_eq. intros p. rewrite elem_of_union, !elem_of_list_to_set. apply Hc. }
    assert (Es : size (list_to_set L : gset Z) = length L) by (apply size_list_to_set, K1).
    rewrite EL, size_union, size_list_to_set, Hn in Es by (done || (intros p; rewrite elem_of_list_to_set; apply Hp)). unfold NPROC in *. lia. }
  destruct l as [|d [|a [|u l]]]; cbn [length] in Hl; try lia.
  exists m1, m2, root, d, a, u, l, T, A, stacks. rewrite Ho. split_and!; try done; [|lia|].
  - by rewrite (vs_mach _ _ _ S2), M1.
  - intros x Hx Hxa. rewrite Sh by done. by apply map_agrees.
Qed.

(** ** The parts of the state that change *)

Section boot.
Context `{!Image, !Board}.
Context (cn : cons) (ft : list file) (pipes : gmap Z pipe) (first : bool) (lgs : logst) (sbk : superblock).
Context (dk : disk) (wt : wlog) (sst spc sca stv sti ti pp : Z) (pc : list Z).

(** The state of hart 0 with these parts. *)
Definition at_boot (m : mm) (bf : gmap nat buf) (it : list inode) (dv : gmap Z driver) (vq : vdisk) (vec satp kpt : Z)
    (ws : list (Z * Z)) (rings : Z * Z * Z) (st : Z) : boot :=
  mkboot (mkhart (mkkern (mkfs (mklstate (mkblk m bf dk wt) lgs) sbk it) cn ft pipes dv first) vq sst vec spc sca stv satp 0 sti ti pp pc)
    kpt ws rings st.

Section lifts.
Context (m : mm) (bf : gmap nat buf) (it : list inode) (dv : gmap Z driver) (vq : vdisk) (vec satp kpt : Z).
Context (ws : list (Z * Z)) (rings : Z * Z * Z) (st : Z).
Notation here := (at_boot m bf it dv vq vec satp kpt ws rings st).

Lemma at_mm {A} (f : M mm A) a m' : f m = Ok a m' -> lift f here = Ok a (at_boot m' bf it dv vq vec satp kpt ws rings st).
Proof using. intros E. by erewrite lift_ok by exact E. Qed.
Lemma at_mach {A} (f : M mach A) a k :
  f (mm_mach m) = Ok a k -> lift f here = Ok a (at_boot (m <| mm_mach := k |>) bf it dv vq vec satp kpt ws rings st).
Proof using. intros E. by erewrite lift_ok by exact E. Qed.
Lemma at_write a v : mmio_write a v here = Ok tt (at_boot m bf it dv vq vec satp kpt (ws ++ [(a, v)]) rings st).
Proof using. done. Qed.

Lemma at_blk {A} (f : M blk A) a bf' :
  f (mkblk m bf dk wt) = Ok a (mkblk m bf' dk wt) -> lift f here = Ok a (at_boot m bf' it dv vq vec satp kpt ws rings st).
Proof using. intros E. by erewrite lift_ok by exact E. Qed.
Lemma at_fs {A} (f : M fs A) a it' :
  f (mkfs (mklstate (mkblk m bf dk wt) lgs) sbk it) = Ok a (mkfs (mklstate (mkblk m bf dk wt) lgs) sbk it') ->
  lift f here = Ok a (at_boot m bf it' dv vq vec satp kpt ws rings st).
Proof using. intros E. by erewrite lift_ok by exact E. Qed.
Lemma at_kvminit {A} (k : M boot A) etext root m' :
  kvmmake etext trampoline m = Ok root m' ->
  (lift (kvminit etext trampoline) ;; lift kvminithart ;; k) here = k (at_boot m' bf it dv vq vec (MAKE_SATP root) root ws rings st).
Proof using.
  intros E. erewrite bind_ok; [|apply lift_ok; unfold kvminit; erewrite bind_ok by (apply lift_ok; exact E); reflexivity]. reflexivity.
Qed.

Lemma at_trap {A} (k : M boot A) : (trapinithart ;; k) here = k (at_boot m bf it dv vq kernelvec satp kpt ws rings st).
Proof using. done. Qed.

(** *** Devices *)

Definition uart_writes : list (Z * Z) :=
  [(UART0 + IER, 0); (UART0 + LCR, 128); (UART0, 3); (UART0 + 1, 0); (UART0 + LCR, 3); (UART0 + FCR, 7); (UART0 + IER, 3)].
Lemma consoleinit_ok :
  consoleinit here = Ok tt (at_boot m bf it (<[CONSOLE := ConsoleDriver]> dv) vq vec satp kpt (ws ++ uart_writes) rings st).
Proof using.
  unfold consoleinit, uartinit, WriteReg. cbn. unfold at_boot. do 2 f_equal. by rewrite <- !app_assoc.
Qed.
Definition plic_writes : list (Z * Z) :=
  [(PLIC + UART0_IRQ * 4, 1); (PLIC + VIRTIO0_IRQ * 4, 1); (PLIC_SENABLE 0, 0x402); (PLIC_SPRIORITY 0, 0)].
Lemma plic_ok {A} (k : M boot A) :
  (plicinit ;; plicinithart ;; k) here = k (at_boot m bf it dv vq vec satp kpt (ws ++ plic_writes) rings st).
Proof using.
  unfold plicinit, plicinithart, bind, lift, cpuid, gets, mmio_write, modify. cbn -[s32]. change (s32 0) with 0. unfold at_boot.
  by rewrite <- !app_assoc.
Qed.

End lifts.

Section virtio.
Context (m : mm) (bf : gmap nat buf) (it : list inode) (dv : gmap Z driver) (vq : vdisk) (vec satp kpt : Z).
Context (ws : list (Z * Z)) (rings : Z * Z * Z) (st : Z).
Notation here := (at_boot m bf it dv vq vec satp kpt ws rings st).

(** What the documentation of the device says of its registers: the numbers
    that identify it, features that fit, a status that reads as it was
    written, a queue that is not ready until it is made ready and that has
    room for the descriptors. *)
Record virtio_disk : Prop := {
  vd_magic : forall ws, device ws (reg VIRTIO_MMIO_MAGIC_VALUE) = 0x74726976;
  vd_version : forall ws, device ws (reg VIRTIO_MMIO_VERSION) = 2;
  vd_id : forall ws, device ws (reg VIRTIO_MMIO_DEVICE_ID) = 2;
  vd_vendor : forall ws, device ws (reg VIRTIO_MMIO_VENDOR_ID) = 0x554d4551;
  vd_status : forall ws v, 0 <= v < 16 -> device (ws ++ [(reg VIRTIO_MMIO_STATUS, v)]) (reg VIRTIO_MMIO_STATUS) = v;
  vd_ready : forall ws, (reg VIRTIO_MMIO_QUEUE_READY, 1) ∉ ws -> device ws (reg VIRTIO_MMIO_QUEUE_READY) = 0;
  vd_max : forall ws, NUM <= device ws (reg VIRTIO_MMIO_QUEUE_NUM_MAX);
}.
Hypothesis Vd : virtio_disk.

(** The features the driver asks for, when the device offers [f]. *)
Definition wanted (f : Z) : Z := u32 (foldl without f [5; 7; 11; 12; 27; 29; 28]).
Definition negotiation (ws : list (Z * Z)) : list (Z * Z) :=
  let greet := [(reg VIRTIO_MMIO_STATUS, 0); (reg VIRTIO_MMIO_STATUS, 1); (reg VIRTIO_MMIO_STATUS, 3)] in
  greet ++ [(reg VIRTIO_MMIO_DRIVER_FEATURES, wanted (device (ws ++ greet) (reg VIRTIO_MMIO_DEVICE_FEATURES))); (reg VIRTIO_MMIO_STATUS, 11)].

Lemma negotiate_ok :
  virtio_negotiate here = Ok 11 (at_boot m bf it dv vq vec satp kpt (ws ++ negotiation ws) rings st).
Proof using Vd.
  destruct Vd as [Hm Hv Hi Hn Hs _ _]. unfold virtio_negotiate, bind, mmio_read, gets.
  cbn -[mmio_write foldl Z.lor Z.land u32 reg]. rewrite Hm, Hv, Hi, Hn. cbn -[mmio_write foldl Z.lor Z.land u32 reg].
  unfold mmio_write, modify. cbn -[foldl Z.lor Z.land u32 reg]. rewrite Hs by done. cbn -[foldl u32 reg].
  unfold at_boot, negotiation, wanted. do 2 f_equal. rewrite <- !app_assoc. done.
Qed.

Definition ring_writes (d a u : Z) : list (Z * Z) :=
  [(reg VIRTIO_MMIO_QUEUE_SEL, 0); (reg VIRTIO_MMIO_QUEUE_NUM, NUM);
   (reg VIRTIO_MMIO_QUEUE_DESC_LOW, u32 d); (reg VIRTIO_MMIO_QUEUE_DESC_HIGH, u32 (Z.shiftr d 32));
   (reg VIRTIO_MMIO_DRIVER_DESC_LOW, u32 a); (reg VIRTIO_MMIO_DRIVER_DESC_HIGH, u32 (Z.shiftr a 32));
   (reg VIRTIO_MMIO_DEVICE_DESC_LOW, u32 u); (reg VIRTIO_MMIO_DEVICE_DESC_HIGH, u32 (Z.shiftr u 32));
   (reg VIRTIO_MMIO_QUEUE_READY, 1); (reg VIRTIO_MMIO_STATUS, 15)].
Definition rings_reset (v : vdisk) : vdisk :=
  v <| v_desc := replicate num no_desc |> <| avail_ring := replicate num 0 |> <| avail_idx := 0 |>
    <| used_ring := replicate num 0 |> <| used_idx := 0 |> <| v_free := replicate num true |>.

Lemma queue_ok d a u l :
  kmem_inv m (d :: a :: u :: l) -> LkKmem ∉ held (mm_mach m) -> (reg VIRTIO_MMIO_QUEUE_READY, 1) ∉ ws ->
  exists m', virtio_queue 11 here =
      Ok tt (at_boot m' bf it dv (rings_reset vq) vec satp kpt (ws ++ ring_writes d a u) (d, a, u) st) /\
    kmem_inv m' l /\ mm_mach m' = mm_mach m /\ mstep {[d; a; u]} m m' /\
    filled d 0 (mem m') /\ filled a 0 (mem m') /\ filled u 0 (mem m').
Proof using Vd.
  intros K L Hr. destruct (kalloc_three m d a u l K L)
    as (m1 & m2 & m3 & m4 & m5 & m6 & E1 & E2 & E3 & Hd & Ha & Hu & E4 & E5 & E6 & R6). exists m6. split; [|exact R6].
  pose proof (vd_ready Vd (ws ++ [(reg VIRTIO_MMIO_QUEUE_SEL, 0)])) as Rd.
  pose proof (vd_max Vd (ws ++ [(reg VIRTIO_MMIO_QUEUE_SEL, 0)])) as Mx.
  unfold virtio_queue. erewrite bind_ok by apply at_write. erewrite bind_ok by done. cbn [at_boot b_writes].
  rewrite Rd. 2: { intros [?|Hx%list_elem_of_singleton]%elem_of_app; [done|discriminate Hx]. }
  cbn [Z.eqb negb]. erewrite bind_ok by done. cbn [at_boot b_writes].
  rewrite (proj2 (Z.eqb_neq _ 0)) by (unfold NUM in Mx; lia). rewrite (proj2 (Z.ltb_ge _ NUM)) by exact Mx.
  fold (at_boot m bf it dv vq vec satp kpt (ws ++ [(reg VIRTIO_MMIO_QUEUE_SEL, 0)]) rings st).
  erewrite bind_ok by (apply at_mm; exact E1). erewrite bind_ok by (apply at_mm; exact E2).
  erewrite bind_ok by (apply at_mm; exact E3). erewrite bind_ok by done.
  rewrite (proj2 (Z.eqb_neq d 0)), (proj2 (Z.eqb_neq a 0)), (proj2 (Z.eqb_neq u 0)) by done. cbn [orb].
  erewrite bind_ok by (apply at_mm; exact E4). erewrite bind_ok by (apply at_mm; exact E5).
  erewrite bind_ok by (apply at_mm; exact E6). unfold ring_address, upd_rings, bind, mmio_write, modify.
  cbn -[u32 reg replicate Z.shiftr]. unfold at_boot. rewrite <- !app_assoc. done.
Qed.
End virtio.

(** *** The first process *)

Definition kboot (m : mm) (bf : gmap nat buf) (it : list inode) (dv : gmap Z driver) : kern :=
  mkkern (mkfs (mklstate (mkblk m bf dk wt) lgs) sbk it) cn ft pipes dv first.
Lemma at_kern {A} (f : M kern A) a m bf it dv vq vec satp kpt ws rings st m' it' :
  f (kboot m bf it dv) = Ok a (kboot m' bf it' dv) ->
  lift f (at_boot m bf it dv vq vec satp kpt ws rings st) = Ok a (at_boot m' bf it' dv vq vec satp kpt ws rings st).
Proof using. intros E. by erewrite lift_ok by exact E. Qed.

(** [namei] of the root, from an empty table. *)
Lemma namei_root m bf it dv :
  LkItable ∉ held (mm_mach m) -> unreferenced it ->
  lift (namei [slash]) (kboot m bf it dv) =
    Ok (Some 0%nat) (kboot m bf (<[0%nat := fresh_entry ROOTDEV ROOTINO (it !!! 0%nat)]> it) dv).
Proof using.
  intros Hl Un. erewrite lift_ok; [reflexivity|]. unfold namei, namex. change (slash =? slash) with true. cbv iota.
  erewrite bind_ok; [|erewrite bind_ok by (by apply iget_unreferenced); reflexivity]. reflexivity.
Qed.

Lemma kb_mm {A} (f : M mm A) a m bf it dv m' : f m = Ok a m' -> lift f (kboot m bf it dv) = Ok a (kboot m' bf it dv).
Proof using. intros E. by erewrite lift_ok by exact E. Qed.
Lemma kb_mach {A} (f : M mach A) a m bf it dv k :
  f (mm_mach m) = Ok a k -> lift f (kboot m bf it dv) = Ok a (kboot (m <| mm_mach := k |>) bf it dv).
Proof using. intros E. by erewrite lift_ok by exact E. Qed.

Hypothesis Htr : 0 <= trampoline /\ aligned trampoline /\ trampoline + PGSIZE <= 2 ^ 56.

(** The entry of the first process. *)
Definition first_proc (pid tf pt : Z) (p : proc) : proc := fresh_proc pid tf pt p <| p_cwd := Some 0%nat |> <| p_state := RUNNABLE |>.
Definition root_entry (it : list inode) : list inode := <[0%nat := fresh_entry ROOTDEV ROOTINO (it !!! 0%nat)]> it.

Lemma userinit_ok m bf it dv l p :
  length (procs (mm_mach m)) = NPROC -> held (mm_mach m) = [] -> list_find unused (procs (mm_mach m)) = Some (0%nat, p) ->
  (forall q, q ∈ procs (mm_mach m) -> unused q -> p_pagetable q = 0 /\ p_sz q = 0) ->
  kmem_inv m l -> (5 <= length l)%nat -> unreferenced it ->
  exists m' l' T tf pt, let p' := first_proc (nextpid (mm_mach m)) tf pt p in
    userinit (kboot m bf it dv) = Ok tt (kboot m' bf (root_entry it) dv) /\
    mm_mach m' = with_proc 0 p' (mm_mach m <| nextpid := s32 (nextpid (mm_mach m) + 1) |>) <| initproc := Some 0%nat |> /\
    pmem m' l' p' T ∅ /\ pown l' p' T ∅ = list_to_set l /\ mstep (list_to_set l) m m'.
Proof using Htr.
  intros Hn Hh Hf Hun K Hl Ui.
  destruct (allocproc_from_ok Htr NPROC 0 m l []) as (r & m1 & E1 & R1); try done; try (intros; apply not_elem_of_nil).
  rewrite drop_0, Hf in R1. destruct R1 as [St [(tf & pt & l1 & T & -> & M1 & Pm & Po)|(l1 & _ & _ & _ & _ & Hx)]]; [|lia].
  set (k0 := mm_mach m <| nextpid := s32 (nextpid (mm_mach m) + 1) |>) in *. set (p1 := fresh_proc (nextpid (mm_mach m)) tf pt p) in *.
  assert (Hlen : (0 < length (procs k0))%nat) by (change (procs k0) with (procs (mm_mach m)); rewrite Hn; unfold NPROC; lia).
  unfold userinit. erewrite bind_ok by exact (kb_mm _ _ _ _ _ _ _ E1). erewrite bind_ok by done. cbn [Nat.add].
  set (k2 := mm_mach m1 <| initproc := Some 0%nat |>). change (inj _ (kboot m1 bf it dv)) with (kboot (m1 <| mm_mach := k2 |>) bf it dv).
  erewrite bind_ok.
  2: { apply namei_root; [|done]. change (LkItable ∉ held (mm_mach m1)). rewrite M1. by intros ?%list_elem_of_singleton. }
  assert (Hp : procs k2 !! 0%nat = Some p1) by (change (procs k2) with (procs (mm_mach m1)); rewrite M1; by apply list_lookup_insert_eq).
  erewrite bind_ok by (apply kb_mach, upd_proc_ok; exact Hp).
  erewrite kb_mach by (apply (release_ok _ _ []); change (held (mm_mach m1) = [LkProc 0]); by rewrite M1).
  eexists _, l1, T, tf, pt. cbv zeta. split; [reflexivity|]. split_and!.
  - cbn -[setf]. unfold k2. rewrite M1. unfold with_proc, k0, first_proc. fold p1. clear -Hh.
    destruct (mm_mach m). cbn in Hh. subst. unfold setf. cbn. by rewrite list_insert_insert_eq.
  - apply (pmem_mach _ _ m1 l1 p1 T ∅ Pm); [apply not_elem_of_nil|done..].
  - exact Po.
  - by destruct St.
Qed.

(** *** [main] *)

Definition bare_entry (p : proc) : Prop := p_pagetable p = 0 /\ p_sz p = 0.
Definition entries_up (ps : list proc) : list proc :=
  imap (fun i p => p <| p_state := UNUSED |> <| p_kstack := KSTACK (Z.of_nat i) |>) ps.
Lemma entries_bare ps q : Forall bare_entry ps -> q ∈ entries_up ps -> p_pagetable q = 0 /\ p_sz q = 0.
Proof using.
  intros Hf Hq. unfold entries_up in Hq. apply list_elem_of_lookup_1 in Hq as [i Hi]. rewrite list_lookup_imap in Hi.
  destruct (ps !! i) as [p|] eqn:Hp; [|done]. injection Hi as <-. by apply (Forall_lookup_1 _ _ _ _ Hf Hp).
Qed.
Lemma entries_first p ps : list_find unused (entries_up (p :: ps)) = Some (0%nat, p <| p_state := UNUSED |> <| p_kstack := KSTACK 0 |>).
Proof using. done. Qed.
Definition banner (m : mach) : mach := m <| klog := klog m ++ ["\n"; "xv6 kernel is booting\n"; "\n"] |>.

Lemma printf_banner {A} (k : M boot A) m bf it dv vq vec satp kpt ws rings st :
  (lift (kprintf "\n") ;; lift (kprintf "xv6 kernel is booting\n") ;; lift (kprintf "\n") ;; k) (at_boot m bf it dv vq vec satp kpt ws rings st) =
    k (at_boot (m <| mm_mach := banner (mm_mach m) |>) bf it dv vq vec satp kpt ws rings st).
Proof using.
  do 3 erewrite bind_ok by (by apply at_mach). destruct m as [[]]. unfold banner, setf. cbn -[at_boot]. by rewrite <- !app_assoc.
Qed.

Lemma ready_free ws : (reg VIRTIO_MMIO_QUEUE_READY, 1) ∉ ws ->
  (reg VIRTIO_MMIO_QUEUE_READY, 1) ∉ ((ws ++ uart_writes) ++ plic_writes) ++ negotiation ((ws ++ uart_writes) ++ plic_writes).
Proof using.
  intros Hw. rewrite !elem_of_app. intros [[[Hx|Hx]|Hx]|Hx]; [done|..]; unfold uart_writes, plic_writes, negotiation in Hx;
    cbn [app] in Hx; repeat (apply elem_of_cons in Hx as [Hx|Hx]; [discriminate Hx|]); by apply elem_of_nil in Hx.
Qed.

(** The registers written on the way. *)
Definition boot_writes (ws : list (Z * Z)) (d a u : Z) : list (Z * Z) :=
  let ws2 := (ws ++ uart_writes) ++ plic_writes in (ws2 ++ negotiation ws2) ++ ring_writes d a u.

Lemma main_first_ok etext m it dv vq vec satp kpt ws rings :
  KERNBASE < etext < PHYSTOP /\ aligned etext -> virtio_disk ->
  kmem_inv m [] -> held (mm_mach m) = [] -> k_end m <= PHYSTOP -> (174 < free_pages m)%nat ->
  length (procs (mm_mach m)) = NPROC -> Forall bare_entry (procs (mm_mach m)) ->
  length it = NINODE -> Forall (fun ip => i_ref ip = 0) it -> (forall b, length (dk b) = bsize) -> (reg VIRTIO_MMIO_QUEUE_READY, 1) ∉ ws ->
  exists m' bf root d a u l T0 T A stacks tf pt p0 p,
    main_first etext (at_boot m ∅ it dv vq vec satp kpt ws rings 0) =
      Ok tt (at_boot m' bf (root_entry ((fun ip => ip <| i_lock := mksleeplock 0 0 |>) <$> it)) (<[CONSOLE := ConsoleDriver]> dv)
        (rings_reset vq) kernelvec (MAKE_SATP root) root (boot_writes ws d a u) (d, a, u) 1) /\
    pt_inv (mem m') T A /\ T !! [] = Some root /\ shows A (kernel_map etext trampoline stacks) /\ length stacks = NPROC /\ NoDup stacks /\
    binv (mkblk m' bf dk wt) (fresh_cache dk) /\
    pmem m' l p T0 ∅ /\ procs (mm_mach m) !! 0%nat = Some p0 /\
    p = first_proc (nextpid (mm_mach m)) tf pt (p0 <| p_state := UNUSED |> <| p_kstack := KSTACK 0 |>) /\
    mm_mach m' = with_proc 0 p (banner (mm_mach m) <| procs := entries_up (procs (mm_mach m)) |> <| nextpid := s32 (nextpid (mm_mach m) + 1) |>)
      <| initproc := Some 0%nat |>.
Proof using Htr.
  intros He Vd K Hh Hk Hf Hn Hb Hil Hir Hdk Hw. unfold main_first. erewrite bind_ok by apply consoleinit_ok. rewrite printf_banner.
  set (m0 := m <| mm_mach := banner (mm_mach m) |>). assert (Hh0 : held (mm_mach m0) = []) by exact Hh.
  destruct (kernel_memory etext m0 He Htr) as (m1 & m2 & root & d & a & u & l & T & A & stacks & E1 & E2 & M2 & V & Hl & HT & Sh & Hs & Hnd & Hsp);
    [by apply kmem_mach|done|exact Hk|exact Hf|].
  erewrite bind_ok by (apply at_mm; exact E1). erewrite at_kvminit by exact E2.
  assert (Hp2 : length (procs (mm_mach m2)) = NPROC) by (by rewrite M2).
  erewrite bind_ok by (apply at_mach, procinit_ok; exact Hp2). fold (entries_up (procs (mm_mach m2))).
  set (k3 := mm_mach m2 <| procs := entries_up (procs (mm_mach m2)) |>). set (m3 := m2 <| mm_mach := k3 |>).
  rewrite at_trap, plic_ok. destruct (binit_ok (mkblk m3 ∅ dk wt)) as (bf & E4 & Lr & Ub & Bi); [done|exact Hdk|].
  erewrite bind_ok by (apply at_blk; exact E4).
  erewrite bind_ok by (apply at_fs, iinit_ok; exact Hil). set (it' := _ <$> it).
  assert (K3 : kmem_inv m3 (d :: a :: u :: l)) by (apply kmem_mach, V).
  assert (Hk3 : held (mm_mach m3) = []) by (change (held (mm_mach m2) = []); by rewrite M2).
  unfold virtio_disk_init.
  assert (Lk3 : LkKmem ∉ held (mm_mach m3)) by (rewrite Hk3; apply not_elem_of_nil).
  destruct (queue_ok m3 bf it' (<[CONSOLE := ConsoleDriver]> dv) vq kernelvec (MAKE_SATP root) root _ rings 0 Vd d a u l K3 Lk3 (ready_free ws Hw))
    as (m4 & E5 & K4 & M4 & S4 & _).
  erewrite bind_ok; [|erewrite bind_ok by (by apply negotiate_ok); exact E5].
  destruct (procs (mm_mach m)) as [|p0 ps] eqn:Eps; [discriminate Hn|].
  assert (Ep4 : procs (mm_mach m4) = entries_up (p0 :: ps)).
  { rewrite M4. change (entries_up (procs (mm_mach m2)) = entries_up (p0 :: ps)). rewrite M2. by rewrite <- Eps. }
  assert (Hu : unreferenced it').
  { split; [unfold it'; by rewrite length_fmap|]. apply Forall_fmap. eapply Forall_impl; [exact Hir|]. intros ip Hip. split; [exact Hip|reflexivity]. }
  destruct (userinit_ok m4 bf it' (<[CONSOLE := ConsoleDriver]> dv) l (p0 <| p_state := UNUSED |> <| p_kstack := KSTACK 0 |>))
    as (m5 & l5 & T0 & tf & pt & E6 & M6 & Pm & Po & S6); rewrite ?Ep4;
    [unfold entries_up; by rewrite length_imap|by rewrite M4|reflexivity|intros q Hq _; by eapply entries_bare|exact K4|exact Hl|exact Hu|].
  erewrite bind_ok by (apply at_kern; exact E6).
  assert (M4' : mm_mach m4 = banner (mm_mach m) <| procs := entries_up (p0 :: ps) |>).
  { rewrite M4. change (mm_mach m3) with k3. unfold k3. rewrite M2. change (mm_mach m0) with (banner (mm_mach m)). by rewrite <- Eps. }
  rewrite M4' in M6, Pm. change (nextpid (_ <| procs := _ |>)) with (nextpid (mm_mach m)) in M6, Pm.
  exists m5, bf, root, d, a, u, l5, T0, T, A, stacks, tf, pt, p0, (first_proc (nextpid (mm_mach m)) tf pt (p0 <| p_state := UNUSED |> <| p_kstack := KSTACK 0 |>)).
  split; [reflexivity|]. split_and!; [|exact HT|exact Sh|exact Hs|exact Hnd| |exact Pm|reflexivity|reflexivity|exact M6].
  - apply (pt_frame (list_to_set (d :: a :: u :: l)) (mem m2)); [apply V|..].
    + intros q Hq%elem_of_list_to_set. exact (proj1 (Forall_forall _ _) (kmem_inv_aligned _ _ K3) q Hq).
    + intros π q Hq. rewrite elem_of_list_to_set. by apply (vi_disj _ _ _ _ V π).
    + intros x Hx. rewrite (ms_mem _ _ _ S6), (ms_mem _ _ _ S4); [reflexivity|..].
      * intros q Hq. apply Hx. clear -Hq. set_solver.
      * intros q Hq. apply Hx. clear -Hq. set_solver.
  - exact (binv_mm _ _ m5 Bi).
Qed.
End boot.

(** ** [main] *)

(** A kernel as it is loaded: data zeroed, nothing written to a device, the
    first hart. *)
Record loaded (s : boot) : Prop := {
  ld_hart : tp (b_hart s) = 0;
  ld_free : kmem_inv (prj s) [];
  ld_held : held (prj s) = [];
  ld_end : k_end (prj s) <= PHYSTOP;
  ld_room : (174 < free_pages (prj s))%nat;
  ld_procs : length (procs (prj s)) = NPROC /\ Forall bare_entry (procs (prj s));
  ld_pid : nextpid (prj s) = 1;
  ld_inodes : length (itable (prj s)) = NINODE /\ Forall (fun ip => i_ref ip = 0) (itable (prj s));
  ld_bufs : bufs (prj s) = ∅;
  ld_disk : forall b, length (dsk (prj s) b) = bsize;
  ld_writes : b_writes s = [];
  ld_started : b_started s = 0;
}.

(** A kernel that is up. *)
Record up `{!Image} (etext : Z) (s : boot) : Prop := {
  up_paging : exists T A stacks, pt_inv (mem (prj s)) T A /\ T !! [] = Some (b_kpgtbl s) /\ h_satp (b_hart s) = MAKE_SATP (b_kpgtbl s) /\
    shows A (kernel_map etext trampoline stacks) /\ length stacks = NPROC /\ NoDup stacks;
  up_traps : stvec (b_hart s) = kernelvec;
  up_cache : binv (prj s) (fresh_cache (dsk (prj s)));
  up_inodes : itab (itable (prj s)) {[+ (ROOTDEV, ROOTINO) +]};
  up_disk : snd <$> filter (fun w => w.1 = reg VIRTIO_MMIO_STATUS) (b_writes s) = [0; 1; 3; 11; 15] /\
    v_free (h_vq (b_hart s)) = replicate num true;
  up_console : devsw (prj s) !! CONSOLE = Some ConsoleDriver;
  up_first : exists p l T, procs (prj s) !! 0%nat = Some p /\ initproc (prj s) = Some 0%nat /\ pmem (prj s) l p T ∅ /\
    p_state p = RUNNABLE /\ p_pid p = 1 /\ p_cwd p = Some 0%nat /\ p_context p = mkcontext forkret_addr (u64 (KSTACK 0 + PGSIZE)) (replicate 12 0);
  up_others : forall i p, procs (prj s) !! i = Some p -> i <> 0%nat -> p_state p = UNUSED /\ p_kstack p = KSTACK (Z.of_nat i);
  up_held : held (prj s) = [];
  up_started : b_started s = 1;
}.

Lemma root_entry_tab it :
  length it = NINODE -> Forall (fun ip => i_ref ip = 0) it ->
  itab (root_entry ((fun ip => ip <| i_lock := mksleeplock 0 0 |>) <$> it)) {[+ (ROOTDEV, ROOTINO) +]}.
Proof.
  intros Hl Hf. destruct it as [|ip it]; [discriminate Hl|]. apply Forall_cons in Hf as [_ Hf]. rewrite fmap_cons.
  set (jp := ip <| i_lock := mksleeplock 0 0 |>). set (t := _ <$> it).
  change (itab (fresh_entry ROOTDEV ROOTINO jp :: t) {[+ ikey (fresh_entry ROOTDEV ROOTINO jp) +]}).
  apply itab_one; [|done|].
  - rewrite <- Hl. cbn [length]. unfold t. f_equal. apply length_fmap.
  - apply Forall_fmap. eapply Forall_impl; [exact Hf|]. intros x Hx. exact Hx.
Qed.
Lemma entries_other p ps i q :
  entries_up ps !! i = Some q -> i <> 0%nat -> <[0%nat := p]> (entries_up ps) !! i = Some q /\ p_state q = UNUSED /\ p_kstack q = KSTACK (Z.of_nat i).
Proof.
  intros Hi Hne. rewrite list_lookup_insert_ne by done. split; [done|]. unfold entries_up in Hi. rewrite list_lookup_imap in Hi.
  destruct (ps !! i); [|done]. injection Hi as <-. done.
Qed.

(** C13: the kernel comes up.  On a loaded kernel with 175 free pages, and on
    a board whose disk answers as documented, [main] of the first hart comes
    to the scheduler without a panic.  Then paging is on with the kernel's
    own page table, traps go to the kernel, no buffer is in use and each
    caches what is on the disk, the only inode in use is the root directory,
    the disk was initialised in the order its specification asks for, process
    1 is ready to run with an address space of its own, no other entry of the
    process table is in use and no lock is held. *)
Theorem main_boots `{!Image, !Board} etext s :
  KERNBASE < etext < PHYSTOP /\ aligned etext -> 0 <= trampoline /\ aligned trampoline /\ trampoline + PGSIZE <= 2 ^ 56 ->
  virtio_disk -> loaded s ->
  exists s', main etext s = Ok tt s' /\ up etext s'.
Proof.
  intros He Htr Vd L.
  destruct s as [[[[[[m bf dk wt] lgs] sbk it] cn ft pipes dv first] vq sst vec spc sca stv satp hart sti ti pp pc] kpt ws rings st].
  destruct L as [Hh Hfr Hhe Hen Hro [Hpl Hpf] Hpid [Hil Hif] Hb Hd Hw Hs]. cbn in *. subst hart bf ws st.
  destruct (main_first_ok cn ft pipes first lgs sbk dk wt sst spc sca stv sti ti pp pc Htr etext m it dv vq vec satp kpt [] rings)
    as (m' & bf & root & d & a & u & l & T0 & T & A & stacks & tf & pt & p0 & p & E & I & HT & Sh & Hst & Hnd & Bi & Pm & Hp0 & Hp & Mm);
    try assumption; [apply not_elem_of_nil|].
  eexists. split; [exact E|]. rewrite Hpid in Hp, Mm. rewrite Hp in Pm, Mm.
  assert (Hlen : (0 < length (entries_up (procs (mm_mach m))))%nat) by (unfold entries_up; rewrite length_imap, Hpl; apply Nat.ltb_lt; reflexivity).
  split.
  - exists T, A, stacks. split; [exact I|]. split; [exact HT|]. split; [reflexivity|]. split; [exact Sh|]. split; [exact Hst|exact Hnd].
  - reflexivity.
  - exact Bi.
  - exact (root_entry_tab it Hil Hif).
  - split; reflexivity.
  - apply lookup_insert_eq.
  - eexists _, l, T0. cbn [prj embed_mach_boot]. change (mm_mach (prj _)) with (mm_mach m'). rewrite Mm.
    split; [by apply list_lookup_insert_eq|]. split; [reflexivity|]. split; [exact Pm|]. split_and!; reflexivity.
  - intros i q Hq Hne. change (procs (mm_mach m') !! i = Some q) in Hq. rewrite Mm in Hq.
    change (<[0%nat := first_proc 1 tf pt (p0 <| p_state := UNUSED |> <| p_kstack := KSTACK 0 |>)]> (entries_up (procs (mm_mach m))) !! i = Some q) in Hq.
    rewrite list_lookup_insert_ne in Hq by done. by apply (entries_other p (procs (mm_mach m))).
  - change (held (mm_mach m') = []). rewrite Mm. exact Hhe.
  - reflexivity.
Qed.

(** ** A board, and a kernel loaded on it *)

(** A disk whose status register reads what was last written to it, and whose
    queue of 1024 entries is ready once the driver says so. *)
Definition demo_device (ws : list (Z * Z)) (a : Z) : Z :=
  if a =? reg VIRTIO_MMIO_MAGIC_VALUE then 0x74726976
  else if a =? reg VIRTIO_MMIO_VERSION then 2
  else if a =? reg VIRTIO_MMIO_DEVICE_ID then 2
  else if a =? reg VIRTIO_MMIO_VENDOR_ID then 0x554d4551
  else if a =? reg VIRTIO_MMIO_QUEUE_NUM_MAX then 1024
  else if a =? reg VIRTIO_MMIO_QUEUE_READY then (if decide ((reg VIRTIO_MMIO_QUEUE_READY, 1) ∈ ws) then 1 else 0)
  else if a =? reg VIRTIO_MMIO_STATUS then
    match last (filter (fun w => w.1 = reg VIRTIO_MMIO_STATUS) ws) with Some (_, v) => v | None => 0 end
  else 0.
#[local] Instance demo_board : Board := {| device := demo_device |}.
#[local] Existing Instance demo_image.

Definition kern_loaded : kern :=
  mkkern (mkfs (mklstate (mkblk mm_boot ∅ (fun _ => zero_block) []) (mklogst 0 0 0 0 0 (replicate (Z.to_nat LOGBLOCKS) 0)))
    (mksuperblock 0 0 0 0 0 0 0 0) (replicate NINODE blank_inode)) cons_boot (replicate NFILE blank_file) ∅ ∅ true.
Definition boot_loaded : boot := mkboot (mkhart kern_loaded vdisk_init 0 0 0 0 0 0 0 0 0 0 []) 0 [] (0, 0, 0) 0.

Lemma demo_disk : virtio_disk.
Proof.
  split; try reflexivity.
  - intros ws v _. unfold device, demo_board, demo_device. cbn -[filter last]. rewrite filter_app.
    rewrite (filter_cons_True _ _ []) by reflexivity. rewrite filter_nil, last_snoc. reflexivity.
  - intros ws Hw. unfold device, demo_board, demo_device. cbn. by rewrite decide_False.
  - intros ws. by apply Z.leb_le.
Qed.
Lemma boot_loaded_ok : loaded boot_loaded.
Proof.
  split; try reflexivity.
  - exact kmem_inv_boot.
  - by apply Z.leb_le.
  - unfold free_pages, pages_between, page_range. rewrite length_fmap, length_seq. apply Nat2Z.inj_lt.
    rewrite Z2Nat.id by (by apply Z.leb_le). by apply Z.ltb_lt.
  - split; [reflexivity|]. apply Forall_replicate. by split.
  - split; [reflexivity|]. by apply Forall_replicate.
Qed.
Lemma main_boots_witness :
  exists s', main 0x80008000 boot_loaded = Ok tt s' /\ up 0x80008000 s'.
Proof.
  apply (main_boots 0x80008000 boot_loaded).
  - split; [split; by apply Z.ltb_lt|reflexivity].
  - split; [by apply Z.leb_le|split; [reflexivity|by apply Z.leb_le]].
  - exact demo_disk.
  - exact boot_loaded_ok.
Defined.
