(* ===== verification/Sh.v ===== *)
(** * The shell, [user/sh.c]

    The command line is the list of its characters before the nul; a pointer
    into it is an index, the pointer [es] its length.  The parser fails by
    calling the shell's [panic]; it is given fuel for its mutual recursion.

    [parseexec] stores the arguments into the [execcmd] it created first,
    which by then may sit under redirections: the model collects arguments
    and redirections and puts the command together at the end.  Storage for
    the nodes is taken to be there ([malloc]'s result is not tested). *)

From stdpp Require Import base numbers strings decidable sets gmap functions list.
From S2P Require Import Prelude.
From S2P Require Import CString.
From S2P Require Import Args.
From S2P Require Import Sysfile.
Open Scope Z_scope.
Open Scope xv6_scope.

Definition MAXARGS : nat := 10.

(** ** Characters *)

Definition whitespace : list Z := [32; 9; 13; 10; 11].
Definition symbols : list Z := [60; 124; 62; 38; 59; 40; 41].
Definition ch_lt : Z := 60.
Definition ch_bar : Z := 124.
Definition ch_gt : Z := 62.
Definition ch_amp : Z := 38.
Definition ch_semi : Z := 59.
Definition ch_lpar : Z := 40.
Definition ch_rpar : Z := 41.
(** The tokens [gettoken] makes up: a word, and [>>]. *)
Definition tok_word : Z := 97.
Definition tok_append : Z := 43.

(** ** Commands; a string is its first index and the index behind it *)

Inductive cmd : Set :=
| EXEC (args : list (nat * nat))
| REDIR (c : cmd) (file : nat * nat) (mode fd : Z)
| PIPE (left right : cmd)
| LIST (left right : cmd)
| BACK (c : cmd).

(** ** Scanning *)

Definition char_at (s : list Z) (i : nat) : Z := nth i s 0.
(** [strchr(l, c)] as a condition. *)
Definition is_in (c : Z) (l : list Z) : bool := bool_decide (c ∈ l).

(** Advancing [s] up to [es] while [f] holds of the character at [s]; [l] is
    the part of the line from [i] on. *)
Fixpoint skip_while (f : Z -> bool) (l : list Z) (i : nat) : nat :=
  match l with
  | c :: l' => if f c then skip_while f l' (S i) else i
  | [] => i
  end.
Definition skip (f : Z -> bool) (s : list Z) (i : nat) : nat := skip_while f (drop i s) i.
Definition is_white (c : Z) : bool := is_in c whitespace.
Definition is_word (c : Z) : bool := negb (is_in c whitespace) && negb (is_in c symbols).

(** The token, where it starts and ends, and the new position. *)
Definition gettoken (s : list Z) (ps : nat) : Z * nat * nat * nat :=
  let q := skip is_white s ps in
  let c := char_at s q in
  let '(tok, eq) :=
    if c =? 0 then (c, q)
    else if is_in c [ch_bar; ch_lpar; ch_rpar; ch_semi; ch_amp; ch_lt] then (c, S q)
    else if c =? ch_gt then
      if char_at s (S q) =? ch_gt then (tok_append, S (S q)) else (c, S q)
    else (tok_word, skip is_word s q) in
  (tok, q, eq, skip is_white s eq).

(** The position and the result. *)
Definition peek (s : list Z) (ps : nat) (toks : list Z) : nat * bool :=
  let i := skip is_white s ps in
  (i, negb (char_at s i =? 0) && is_in (char_at s i) toks).

(** ** Parsing *)

Inductive pres (A : Type) : Type :=
| POk (a : A) (ps : nat)
| PPanic (msg : string)
| PFuel.
Arguments POk {A} a ps.
Arguments PPanic {A} msg.
Arguments PFuel {A}.

Definition redir : Type := (nat * nat) * Z * Z.
Definition wrap (c : cmd) (rs : list redir) : cmd :=
  foldl (fun c r => let '(file, mode, fd) := r in REDIR c file mode fd) c rs.

(** [parseredirs]: the redirections found, in order. *)
Fixpoint parseredirs (fuel : nat) (s : list Z) (ps : nat) (rs : list redir) : pres (list redir) :=
  match fuel with
  | O => PFuel
  | S fuel' =>
    match peek s ps [ch_lt; ch_gt] with
    | (ps, false) => POk rs ps
    | (ps, true) =>
      let '(tok, _, _, ps) := gettoken s ps in
      let '(tok2, q, eq, ps) := gettoken s ps in
      if negb (tok2 =? tok_word) then PPanic "missing file for redirection"
      else
        let rs :=
          if tok =? ch_lt then rs ++ [((q, eq), O_RDONLY, 0)]
          else if tok =? ch_gt then
            rs ++ [((q, eq), Z.lor (Z.lor O_WRONLY O_CREATE) O_TRUNC, 1)]
          else if tok =? tok_append then
            rs ++ [((q, eq), Z.lor (Z.lor O_WRONLY O_CREATE) O_APPEND, 1)]
          else rs in
        parseredirs fuel' s ps rs
    end
  end.

(** The loop of [parseexec]. *)
Fixpoint parseargs (fuel : nat) (s : list Z) (ps : nat) (args : list (nat * nat)) (rs : list redir)
    : pres cmd :=
  match fuel with
  | O => PFuel
  | S fuel' =>
    match peek s ps [ch_bar; ch_rpar; ch_amp; ch_semi] with
    | (ps, true) => POk (wrap (EXEC args) rs) ps
    | (ps, false) =>
      let '(tok, q, eq, ps) := gettoken s ps in
      if tok =? 0 then POk (wrap (EXEC args) rs) ps
      else if negb (tok =? tok_word) then PPanic "syntax"
      else
        let args := args ++ [(q, eq)] in
        if Nat.leb MAXARGS (length args) then PPanic "too many args"
        else
          match parseredirs (S (length s)) s ps rs with
          | POk rs ps => parseargs fuel' s ps args rs
          | PPanic m => PPanic m
          | PFuel => PFuel
          end
    end
  end.

(** [while(peek(ps, es, "&"))] of [parseline]. *)
Fixpoint parseback (fuel : nat) (s : list Z) (ps : nat) (c : cmd) : pres cmd :=
  match fuel with
  | O => PFuel
  | S fuel' =>
    match peek s ps [ch_amp] with
    | (ps, true) => let '(_, _, _, ps) := gettoken s ps in parseback fuel' s ps (BACK c)
    | (ps, false) => POk c ps
    end
  end.

Fixpoint parseline (fuel : nat) (s : list Z) (ps : nat) : pres cmd :=
  match fuel with
  | O => PFuel
  | S fuel' =>
    match parsepipe fuel' s ps with
    | POk c ps =>
      match parseback (S (length s)) s ps c with
      | POk c ps =>
        match peek s ps [ch_semi] with
        | (ps, true) =>
          let '(_, _, _, ps) := gettoken s ps in
          match parseline fuel' s ps with
          | POk c2 ps => POk (LIST c c2) ps
          | r => r
          end
        | (ps, false) => POk c ps
        end
      | r => r
      end
    | r => r
    end
  end
with parsepipe (fuel : nat) (s : list Z) (ps : nat) : pres cmd :=
  match fuel with
  | O => PFuel
  | S fuel' =>
    match parseexec fuel' s ps with
    | POk c ps =>
      match peek s ps [ch_bar] with
      | (ps, true) =>
        let '(_, _, _, ps) := gettoken s ps in
        match parsepipe fuel' s ps with
        | POk c2 ps => POk (PIPE c c2) ps
        | r => r
        end
      | (ps, false) => POk c ps
      end
    | r => r
    end
  end
with parseexec (fuel : nat) (s : list Z) (ps : nat) : pres cmd :=
  match fuel with
  | O => PFuel
  | S fuel' =>
    match peek s ps [ch_lpar] with
    | (ps, true) => parseblock fuel' s ps
    | (ps, false) =>
      match parseredirs (S (length s)) s ps [] with
      | POk rs ps => parseargs (S (length s)) s ps [] rs
      | PPanic m => PPanic m
      | PFuel => PFuel
      end
    end
  end
with parseblock (fuel : nat) (s : list Z) (ps : nat) : pres cmd :=
  match fuel with
  | O => PFuel
  | S fuel' =>
    match peek s ps [ch_lpar] with
    | (_, false) => PPanic "parseblock"
    | (ps, true) =>
      let '(_, _, _, ps) := gettoken s ps in
      match parseline fuel' s ps with
      | POk c ps =>
        match peek s ps [ch_rpar] with
        | (_, false) => PPanic "syntax - missing )"
        | (ps, true) =>
          let '(_, _, _, ps) := gettoken s ps in
          match parseredirs (S (length s)) s ps [] with
          | POk rs ps => POk (wrap c rs) ps
          | PPanic m => PPanic m
          | PFuel => PFuel
          end
        end
      | r => r
      end
    end
  end.

(** Where [nulterminate] stores a nul, in the order it does. *)
Fixpoint nul_ends (c : cmd) : list nat :=
  match c with
  | EXEC args => snd <$> args
  | REDIR c file _ _ => nul_ends c ++ [file.2]
  | PIPE l r => nul_ends l ++ nul_ends r
  | LIST l r => nul_ends l ++ nul_ends r
  | BACK c => nul_ends c
  end.
(** The line with its nul, as [nulterminate] leaves it. *)
Definition nulterminate (c : cmd) (buf : list Z) : list Z :=
  foldl (fun b i => <[i := 0]> b) buf (nul_ends c).

(** The tree, and the buffer its strings lie in. *)
Definition parsecmd (s : list Z) : pres (cmd * list Z) :=
  match parseline (4 * S (length s)) s 0 with
  | POk c ps =>
    let '(ps, _) := peek s ps [] in
    if Nat.eqb ps (length s) then POk (c, nulterminate c (s ++ [0])) ps
    else PPanic "syntax"
  | PPanic m => PPanic m
  | PFuel => PFuel
  end.

(** ** Running

    [runcmd] is modelled by the programs it ends up executing, each with the
    descriptors it has by then.  A process is its descriptor table; [fork]
    gives the child a copy of it. *)

(** What a descriptor refers to. *)
Inductive fdobj : Set :=
| FInherited (n : nat)
| FFile (name : list Z) (mode : Z)
| FPipeR (p : nat)
| FPipeW (p : nat).
Notation fdtable := (list (option fdobj)).

(** The lowest free descriptor gets [o]. *)
Fixpoint fd_alloc (t : fdtable) (o : fdobj) : option (nat * fdtable) :=
  match t with
  | [] => None
  | None :: t' => Some (0%nat, Some o :: t')
  | x :: t' =>
    match fd_alloc t' o with Some (n, t'') => Some (S n, x :: t'') | None => None end
  end.
Definition fd_close (t : fdtable) (fd : nat) : fdtable := <[fd := None]> t.
Definition fd_dup (t : fdtable) (fd : nat) : fdtable :=
  match t !! fd with
  | Some (Some o) => match fd_alloc t o with Some (_, t') => t' | None => t end
  | _ => t
  end.

(** A string of the buffer. *)
Definition str_at (buf : list Z) (r : nat * nat) : list Z := c_string (drop r.1 buf).

(** The programs executed (arguments and descriptors), and the next unused
    pipe.  [opens] tells whether [open] of a file succeeds.  A process that
    fails or exits executes nothing. *)
Fixpoint runcmd (opens : list Z -> Z -> bool) (buf : list Z) (c : cmd) (t : fdtable) (np : nat)
    : list (list (list Z) * fdtable) * nat :=
  match c with
  | EXEC args =>
    match args with
    | [] => ([], np)
    | _ => ([(str_at buf <$> args, t)], np)
    end
  | REDIR c file mode fd =>
    let t := fd_close t (Z.to_nat fd) in
    let name := str_at buf file in
    if opens name mode then
      match fd_alloc t (FFile name mode) with
      | Some (_, t) => runcmd opens buf c t np
      | None => ([], np)
      end
    else ([], np)
  | LIST l r =>
    let '(e1, np) := runcmd opens buf l t np in
    let '(e2, np) := runcmd opens buf r t np in
    (e1 ++ e2, np)
  | PIPE l r =>
    match fd_alloc t (FPipeR np) with
    | None => ([], np)
    | Some (p0, t) =>
      match fd_alloc t (FPipeW np) with
      | None => ([], np)
      | Some (p1, t) =>
        let tl := fd_close (fd_close (fd_dup (fd_close t 1) p1) p0) p1 in
        let tr := fd_close (fd_close (fd_dup (fd_close t 0) p0) p0) p1 in
        let '(e1, np) := runcmd opens buf l tl (S np) in
        let '(e2, np) := runcmd opens buf r tr np in
        (e1 ++ e2, np)
      end
    end
  | BACK c => runcmd opens buf c t np
  end.

(** ** The main loop *)

Definition console_name : list Z := [99; 111; 110; 115; 111; 108; 101].
(** [while((fd = open("console", O_RDWR)) >= 0)]: the descriptors below 3 get
    opened. *)
Fixpoint open_console (fuel : nat) (t : fdtable) : fdtable :=
  match fuel with
  | O => t
  | S fuel' =>
    match fd_alloc t (FFile console_name O_RDWR) with
    | None => t
    | Some (fd, t) => if Nat.leb 3 fd then fd_close t fd else open_console fuel' t
    end
  end.

(** What the loop does with a line. *)
Inductive action : Set :=
| Blank
| Chdir (path : list Z)
| Run (line : list Z).
Definition is_blank (c : Z) : bool := (c =? 32) || (c =? 9).
(** [buf] up to its nul. *)
Definition cstr (buf : list Z) : list Z := take (skip (fun c => negb (c =? 0)) buf 0) buf.
Definition command (buf : list Z) : action :=
  let cmd := drop (skip is_blank buf 0) (cstr buf) in
  if char_at cmd 0 =? 10 then Blank
  else if (char_at cmd 0 =? 99) && (char_at cmd 1 =? 100) && (char_at cmd 2 =? 32) then
    Chdir (drop 3 (take (length cmd - 1) cmd))  (** chop \n *)
  else Run cmd.
(** The lines [getcmd] reads, up to an empty one, which is the end of the
    input. *)
Fixpoint commands (lines : list (list Z)) : list action :=
  match lines with
  | [] => []
  | buf :: l => if char_at buf 0 =? 0 then [] else command buf :: commands l
  end.
