(* ===== verification/ShSpec.v ===== *)
(** * The shell: what it parses and what it runs

    The parser of [user/sh.c] always terminates ([parsecmd_total]), builds
    well-formed commands ([parsecmd_wf]) and is a left inverse of printing
    ([parse_print]); [runcmd] connects the programs of a pipeline and leaves
    them no descriptor they should not have. *)

From stdpp Require Import base numbers strings decidable sets gmap functions list.
From S2P Require Import Prelude.
From S2P Require Import CString.
From S2P Require Import Args.
From S2P Require Import Sysfile.
From S2P Require Import Sh.
Open Scope Z_scope.
Open Scope xv6_scope.

(** ** Scanning *)

Lemma skip_while_add f l i : skip_while f l i = (i + skip_while f l 0)%nat.
Proof.
  revert i. induction l as [|c l IH]; intros i; simpl; [lia|]. destruct (f c); [|lia].
  rewrite IH, (IH 1%nat). lia.
Qed.
Lemma skip_while_le f l : (skip_while f l 0 <= length l)%nat.
Proof.
  induction l as [|c l IH]; simpl; [done|]. destruct (f c); [|lia]. rewrite skip_while_add. lia.
Qed.
Lemma skip_range f s i : (i <= length s)%nat -> (i <= skip f s i <= length s)%nat.
Proof.
  intros Hi. unfold skip. rewrite skip_while_add. pose proof (skip_while_le f (drop i s)) as H.
  rewrite length_drop in H. lia.
Qed.
Lemma skip_ge f s i : (i <= skip f s i)%nat.
Proof. unfold skip. rewrite skip_while_add. lia. Qed.

Lemma drop_cons (s : list Z) i c l : drop i s = c :: l -> (i < length s)%nat /\ drop (S i) s = l /\ char_at s i = c.
Proof.
  intros E. assert (Hl : length (drop i s) = S (length l)) by (by rewrite E). rewrite length_drop in Hl.
  split; [lia|]. split.
  - by rewrite <- Nat.add_1_r, <- drop_drop, E.
  - unfold char_at. rewrite nth_lookup, <- (Nat.add_0_r i), <- lookup_drop, E. done.
Qed.
Lemma drop_nil_char (s : list Z) i : drop i s = [] -> char_at s i = 0.
Proof.
  intros E. unfold char_at. rewrite nth_lookup, <- (Nat.add_0_r i), <- lookup_drop, E. done.
Qed.
Lemma char_at_pos (s : list Z) i : char_at s i <> 0 -> (i < length s)%nat.
Proof.
  intros H. destruct (decide (i < length s)%nat); [done|]. destruct H. apply drop_nil_char, drop_ge. lia.
Qed.

(** Where scanning stops, [f] does not hold. *)
Lemma skip_stop f s i : (skip f s i < length s)%nat -> f (char_at s (skip f s i)) = false.
Proof.
  unfold skip. remember (drop i s) as l eqn:E. symmetry in E. revert i E. induction l as [|c l IH]; intros i E Hlt; simpl in *.
  { assert (length (drop i s) = 0%nat) by (by rewrite E). rewrite length_drop in *. lia. }
  destruct (drop_cons s i c l E) as (Hi & E' & Ec). destruct (f c) eqn:Hf; [by apply IH|]. by rewrite Ec.
Qed.
Lemma skip_run f s i l1 l2 :
  drop i s = l1 ++ l2 -> Forall (fun c => f c = true) l1 -> (forall c l, l2 = c :: l -> f c = false) ->
  skip f s i = (i + length l1)%nat /\ drop (skip f s i) s = l2.
Proof.
  unfold skip. intros E H1 H2. assert (Es : skip_while f (drop i s) i = (i + length l1)%nat).
  { rewrite E. clear E. revert i. induction H1 as [|c l1 Hc H1 IH]; intros i; simpl.
    - destruct l2 as [|c l2]; [simpl; lia|]. simpl. rewrite (H2 c l2) by done. lia.
    - rewrite Hc, IH. lia. }
  split; [done|]. rewrite Es, <- drop_drop, E. by rewrite drop_app_length.
Qed.

(** ** Tokens *)

Record token_at (s : list Z) (ps : nat) (t : Z * nat * nat * nat) : Prop := {
  tk_q : (ps <= t.1.1.2)%nat;
  tk_eq : (t.1.1.2 <= t.1.2 <= length s)%nat;
  tk_next : (t.1.2 <= t.2 <= length s)%nat;
  (** Something was there: the token is not empty. *)
  tk_some : t.1.1.1 <> 0 -> (t.1.1.2 < t.1.2)%nat;
  (** A word is made of word characters and goes as far as it can. *)
  tk_word : t.1.1.1 = tok_word -> forall i, (t.1.1.2 <= i < t.1.2)%nat -> is_word (char_at s i) = true;
  tk_end : t.1.1.1 = tok_word -> (t.1.2 < length s)%nat -> is_word (char_at s t.1.2) = false;
}.

Lemma skip_all f s i k : (i <= k < skip f s i)%nat -> f (char_at s k) = true.
Proof.
  unfold skip. remember (drop i s) as l eqn:E. symmetry in E. revert i k E. induction l as [|c l IH]; intros i k E Hk; simpl in *; [lia|].
  destruct (drop_cons s i c l E) as (Hi & E' & Ec). destruct (f c) eqn:Hf; [|lia].
  destruct (decide (k = i)) as [->|]; [by rewrite Ec|]. apply (IH (S i)); [done|lia].
Qed.

Lemma gettoken_at s ps : (ps <= length s)%nat -> token_at s ps (gettoken s ps).
Proof.
  intros Hps. unfold gettoken. pose proof (skip_range is_white s ps Hps) as Hq. set (q := skip is_white s ps) in *.
  destruct (Z.eqb_spec (char_at s q) 0) as [E|E].
  { pose proof (skip_range is_white s q ltac:(lia)). split; simpl; rewrite ?E; try done; lia. }
  pose proof (char_at_pos s q E) as Hlt.
  destruct (is_in (char_at s q) _) eqn:Ein.
  { pose proof (skip_range is_white s (S q) ltac:(lia)). split; simpl; try done; try lia.
    - intros Ew. rewrite Ew in Ein. done.
    - intros Ew. rewrite Ew in Ein. done. }
  destruct (Z.eqb_spec (char_at s q) ch_gt) as [Eg|Eg].
  { destruct (Z.eqb_spec (char_at s (S q)) ch_gt) as [Eg2|Eg2].
    - assert (S q < length s)%nat by (apply char_at_pos; by rewrite Eg2).
      pose proof (skip_range is_white s (S (S q)) ltac:(lia)). split; simpl; try done; lia.
    - pose proof (skip_range is_white s (S q) ltac:(lia)). split; simpl; try done; try lia; by rewrite Eg. }
  pose proof (skip_range is_word s q ltac:(lia)) as He.
  assert (Hw : is_word (char_at s q) = true).
  { unfold is_word. rewrite (skip_stop is_white s ps Hlt : is_in (char_at s q) whitespace = false). simpl.
    unfold is_in in *. apply negb_true_iff, bool_decide_eq_false. apply bool_decide_eq_false in Ein.
    unfold symbols, ch_bar, ch_lpar, ch_rpar, ch_semi, ch_amp, ch_lt, ch_gt in *. set_solver. }
  assert (Hgt : (q < skip is_word s q)%nat).
  { destruct (decide (q = skip is_word s q)) as [Eq|]; [|lia]. pose proof (skip_stop is_word s q) as Hst.
    rewrite <- Eq in Hst. by rewrite Hst in Hw by done. }
  pose proof (skip_range is_white s (skip is_word s q) ltac:(lia)). split; simpl; try lia.
  - intros _ i Hi. by eapply skip_all.
  - intros _. apply skip_stop.
Qed.

Lemma peek_range s ps toks : (ps <= length s)%nat -> (ps <= (peek s ps toks).1 <= length s)%nat.
Proof. apply skip_range. Qed.
Lemma peek_true s ps toks :
  (peek s ps toks).2 = true -> char_at s (peek s ps toks).1 <> 0 /\ char_at s (peek s ps toks).1 ∈ toks.
Proof.
  cbn. intros [H1 H2]%andb_true_iff. split; [|by apply bool_decide_eq_true in H2].
  apply negb_true_iff, Z.eqb_neq in H1. done.
Qed.
(** After [peek], the token is what was peeked at. *)
Lemma skip_idem f s i : skip f s (skip f s i) = skip f s i.
Proof.
  destruct (decide (skip f s i < length s)%nat) as [Hlt|Hge].
  - pose proof (skip_stop f s i Hlt) as Hs. set (j := skip f s i) in *. unfold skip.
    destruct (drop j s) as [|c l] eqn:E; [done|]. destruct (drop_cons s j c l E) as (_ & _ & Ec).
    simpl. by rewrite <- Ec, Hs.
  - unfold skip at 1. by rewrite drop_ge by lia.
Qed.
Lemma gettoken_peeked s ps :
  char_at s (skip is_white s ps) <> 0 -> (ps <= length s)%nat ->
  (skip is_white s ps < (gettoken s (skip is_white s ps)).2 <= length s)%nat.
Proof.
  intros Hc Hps. pose proof (skip_range is_white s ps Hps) as Hq.
  destruct (gettoken_at s (skip is_white s ps)) as [H1 H2 H3 H4 _ _]; [lia|].
  split; [|lia]. eapply Nat.lt_le_trans; [|apply H3]. eapply Nat.le_lt_trans; [exact H1|]. apply H4.
  unfold gettoken. rewrite skip_idem. rewrite (proj2 (Z.eqb_neq _ _) Hc).
  repeat case_match; simplify_eq/=; done.
Qed.

(** What a symbol peeked at and taken leaves. *)
Lemma take_symbol s ps toks p1 :
  (ps <= length s)%nat -> peek s ps toks = (p1, true) ->
  (ps <= p1)%nat /\ (p1 < (gettoken s p1).2 <= length s)%nat.
Proof.
  intros Hps E. pose proof (peek_range s ps toks Hps) as Hp. pose proof (peek_true s ps toks) as Ht. rewrite E in *.
  destruct (Ht eq_refl) as [Hne _]. cbn [fst] in *. assert (Ep1 : p1 = skip is_white s ps) by (by injection E).
  split; [lia|]. rewrite Ep1. apply gettoken_peeked; [by rewrite <- Ep1|done].
Qed.

(** ** Well-formed commands *)

(** A word of the line. *)
Record word_at (s : list Z) (r : nat * nat) : Prop := {
  wd_lt : (r.1 < r.2)%nat;
  wd_end : (r.2 <= length s)%nat;
  wd_chars : forall i, (r.1 <= i < r.2)%nat -> is_word (char_at s i) = true;
  wd_stop : (r.2 < length s)%nat -> is_word (char_at s r.2) = false;
}.
(** What the three redirections do. *)
Definition redir_modes : list (Z * Z) :=
  [(O_RDONLY, 0); (Z.lor (Z.lor O_WRONLY O_CREATE) O_TRUNC, 1); (Z.lor (Z.lor O_WRONLY O_CREATE) O_APPEND, 1)].

Fixpoint wf_cmd (s : list Z) (c : cmd) : Prop :=
  match c with
  | EXEC args => Forall (word_at s) args /\ (length args < MAXARGS)%nat
  | REDIR c file mode fd => wf_cmd s c /\ word_at s file /\ (mode, fd) ∈ redir_modes
  | PIPE l r | LIST l r => wf_cmd s l /\ wf_cmd s r
  | BACK c => wf_cmd s c
  end.
Definition wf_redir (s : list Z) (r : redir) : Prop := word_at s r.1.1 /\ (r.1.2, r.2) ∈ redir_modes.

Lemma wf_wrap s c rs : wf_cmd s c -> Forall (wf_redir s) rs -> wf_cmd s (wrap c rs).
Proof.
  intros Hc H. revert c Hc. induction H as [|[[f m] d] rs [Hw Hm] _ IH]; intros c Hc; [done|]. cbn. apply IH. by split_and!.
Qed.

(** The parser went on from [ps], and what it returns satisfies [P]. *)
Definition parsed {A} (s : list Z) (ps : nat) (P : A -> Prop) (r : pres A) : Prop :=
  match r with
  | POk a ps' => (ps <= ps' <= length s)%nat /\ P a
  | PPanic _ => True
  | PFuel => False
  end.

Lemma word_token s ps t : token_at s ps t -> t.1.1.1 = tok_word -> word_at s (t.1.1.2, t.1.2).
Proof. intros [H1 H2 H3 H4 H5 H6] E. split; simpl; [apply H4; by rewrite E|lia|by apply H5|by apply H6]. Qed.

Lemma parseredirs_ok fuel s ps rs :
  (ps <= length s)%nat -> (length s - ps < fuel)%nat -> Forall (wf_redir s) rs ->
  parsed s ps (Forall (wf_redir s)) (parseredirs fuel s ps rs).
Proof.
  revert ps rs. induction fuel as [|fuel IH]; intros ps rs Hps Hf Hrs; [lia|]. cbn [parseredirs].
  destruct (peek s ps [ch_lt; ch_gt]) as [p1 b] eqn:Ep. pose proof (peek_range s ps [ch_lt; ch_gt] Hps) as Hp.
  rewrite Ep in Hp. cbn [fst] in Hp. destruct b; [|done]. destruct (take_symbol s ps _ p1 Hps Ep) as [_ Hg].
  destruct (gettoken s p1) as [[[tok q1] e1] p2]. cbn [snd] in Hg.
  pose proof (gettoken_at s p2 ltac:(lia)) as T. destruct (gettoken s p2) as [[[tok2 q2] e2] p3].
  destruct (Z.eqb_spec tok2 tok_word) as [->|]; [|done]. cbn [negb].
  pose proof (word_token _ _ _ T eq_refl) as Hw. destruct T as [H1 H2 H3 _ _ _]. cbn [fst snd] in *.
  match goal with |- parsed _ _ _ (parseredirs _ _ _ ?rs') =>
    assert (Hrs' : Forall (wf_redir s) rs') end.
  { repeat case_match; try done; apply Forall_app; (split; [done|]); apply Forall_singleton; split; try done; set_solver. }
  specialize (IH p3 _ ltac:(lia) ltac:(lia) Hrs'). unfold parsed in *.
  destruct (parseredirs fuel s p3 _) as [r p4| |]; [|done|done]. split; [lia|apply IH].
Qed.

Lemma parseargs_ok fuel s ps args rs :
  (ps <= length s)%nat -> (length s - ps < fuel)%nat ->
  Forall (word_at s) args -> (length args < MAXARGS)%nat -> Forall (wf_redir s) rs ->
  parsed s ps (wf_cmd s) (parseargs fuel s ps args rs).
Proof.
  revert ps args rs. induction fuel as [|fuel IH]; intros ps args rs Hps Hf Ha Hn Hrs; [lia|]. cbn [parseargs].
  pose proof (peek_range s ps [ch_bar; ch_rpar; ch_amp; ch_semi] Hps) as Hp.
  destruct (peek s ps _) as [p1 b]. cbn [fst] in Hp.
  assert (Hdone : wf_cmd s (wrap (EXEC args) rs)) by (by apply wf_wrap).
  destruct b; [done|].
  pose proof (gettoken_at s p1 ltac:(lia)) as T. destruct (gettoken s p1) as [[[tok q] e] p2].
  pose proof T as [H1 H2 H3 H4 _ _]. cbn [fst snd] in *.
  destruct (Z.eqb_spec tok 0); [split; [lia|done]|].
  destruct (Z.eqb_spec tok tok_word) as [->|]; [|done]. cbn [negb]. specialize (H4 ltac:(done)).
  destruct (Nat.leb_spec MAXARGS (length (args ++ [(q, e)]))); [done|].
  pose proof (parseredirs_ok (S (length s)) s p2 rs ltac:(lia) ltac:(lia) Hrs) as Hr.
  destruct (parseredirs (S (length s)) s p2 rs) as [rs' p3| |]; [|done|done]. destruct Hr as [Hp3 Hrs'].
  specialize (IH p3 (args ++ [(q, e)]) rs' ltac:(lia) ltac:(lia)). unfold parsed in *.
  destruct (parseargs fuel s p3 _ rs') as [c p4| |].
  - destruct IH as [Hp4 Hc]; try done; [|split; [lia|done]].
    apply Forall_app. split; [done|]. apply Forall_singleton. by apply (word_token _ _ _ T).
  - done.
  - apply IH; try done. apply Forall_app. split; [done|]. apply Forall_singleton. by apply (word_token _ _ _ T).
Qed.

Lemma parseback_ok fuel s ps c :
  (ps <= length s)%nat -> (length s - ps < fuel)%nat -> wf_cmd s c -> parsed s ps (wf_cmd s) (parseback fuel s ps c).
Proof.
  revert ps c. induction fuel as [|fuel IH]; intros ps c Hps Hf Hc; [lia|]. cbn [parseback].
  destruct (peek s ps [ch_amp]) as [p1 b] eqn:Ep. pose proof (peek_range s ps [ch_amp] Hps) as Hp.
  rewrite Ep in Hp. cbn [fst] in Hp. destruct b; [|done]. destruct (take_symbol s ps _ p1 Hps Ep) as [_ Hg].
  destruct (gettoken s p1) as [[[tok q] e] p2]. cbn [snd] in Hg.
  specialize (IH p2 (BACK c) ltac:(lia) ltac:(lia) Hc). unfold parsed in *.
  destruct (parseback fuel s p2 (BACK c)); [|done|done]. split; [lia|apply IH].
Qed.

(** A parser called after another. *)
Lemma parsed_from {A} s ps p1 (P : A -> Prop) r : (ps <= p1)%nat -> parsed s p1 P r -> parsed s ps P r.
Proof. intros H. destruct r; simpl; [intros [? ?]; split; [lia|done]|done|done]. Qed.

Section parsers.
Context (s : list Z) (fuel : nat).
Notation line_ok n := (forall ps, (ps <= length s)%nat -> (4 * (length s - ps) + 4 <= n)%nat -> parsed s ps (wf_cmd s) (parseline n s ps)).
Notation pipe_ok n := (forall ps, (ps <= length s)%nat -> (4 * (length s - ps) + 3 <= n)%nat -> parsed s ps (wf_cmd s) (parsepipe n s ps)).
Notation exec_ok n := (forall ps, (ps <= length s)%nat -> (4 * (length s - ps) + 2 <= n)%nat -> parsed s ps (wf_cmd s) (parseexec n s ps)).
Notation block_ok n := (forall ps, (ps <= length s)%nat -> (4 * (length s - ps) + 1 <= n)%nat -> parsed s ps (wf_cmd s) (parseblock n s ps)).

Lemma line_step : line_ok fuel -> pipe_ok fuel -> line_ok (S fuel).
Proof.
  intros Hl Hpi ps Hps Hf. cbn [parseline]. specialize (Hpi ps Hps ltac:(lia)).
  destruct (parsepipe fuel s ps) as [c p1| |]; [|done|done]. destruct Hpi as [Hp1 Hc].
  pose proof (parseback_ok (S (length s)) s p1 c ltac:(lia) ltac:(lia) Hc) as Hb.
  destruct (parseback (S (length s)) s p1 c) as [c2 p2| |]; [|done|done]. destruct Hb as [Hp2 Hc2].
  destruct (peek s p2 [ch_semi]) as [p3 b] eqn:Ep. pose proof (peek_range s p2 [ch_semi] ltac:(lia)) as Hp3. rewrite Ep in Hp3.
  destruct b; [|split; [cbn in Hp3; lia|done]].
  destruct (take_symbol s p2 _ p3 ltac:(lia) Ep) as [H3 H4]. destruct (gettoken s p3) as [[[t q] e] p4]. cbn [snd] in H4.
  specialize (Hl p4 ltac:(lia) ltac:(lia)). destruct (parseline fuel s p4) as [c5 p5| |]; [|done|done].
  destruct Hl as [Hp5 Hc5]. split; [lia|done].
Qed.
Lemma pipe_step : pipe_ok fuel -> exec_ok fuel -> pipe_ok (S fuel).
Proof.
  intros Hpi He ps Hps Hf. cbn [parsepipe]. specialize (He ps Hps ltac:(lia)).
  destruct (parseexec fuel s ps) as [c p2| |]; [|done|done]. destruct He as [Hp2 Hc].
  destruct (peek s p2 [ch_bar]) as [p3 b] eqn:Ep. pose proof (peek_range s p2 [ch_bar] ltac:(lia)) as Hp3. rewrite Ep in Hp3.
  destruct b; [|split; [cbn in Hp3; lia|done]].
  destruct (take_symbol s p2 _ p3 ltac:(lia) Ep) as [H3 H4]. destruct (gettoken s p3) as [[[t q] e] p4]. cbn [snd] in H4.
  specialize (Hpi p4 ltac:(lia) ltac:(lia)). destruct (parsepipe fuel s p4) as [c5 p5| |]; [|done|done].
  destruct Hpi as [Hp5 Hc5]. split; [lia|done].
Qed.
Lemma exec_step : block_ok fuel -> exec_ok (S fuel).
Proof.
  intros Hb ps Hps Hf. cbn [parseexec].
  destruct (peek s ps [ch_lpar]) as [p1 b] eqn:Ep. pose proof (peek_range s ps [ch_lpar] Hps) as Hp1. rewrite Ep in Hp1. cbn [fst] in Hp1.
  destruct b; [by eapply parsed_from, Hb; lia|].
  pose proof (parseredirs_ok (S (length s)) s p1 [] ltac:(lia) ltac:(lia) (Forall_nil_2 _)) as Hr.
  destruct (parseredirs _ s p1 []) as [rs p2| |]; [|done|done]. destruct Hr as [Hp2 Hrs].
  eapply parsed_from, parseargs_ok; [lia|lia|lia|constructor|unfold MAXARGS; simpl; lia|done].
Qed.
Lemma block_step : line_ok fuel -> block_ok (S fuel).
Proof.
  intros Hl ps Hps Hf. cbn [parseblock]. destruct (peek s ps [ch_lpar]) as [p1 b] eqn:Ep. destruct b; [|done].
  destruct (take_symbol s ps _ p1 Hps Ep) as [H1 H2]. destruct (gettoken s p1) as [[[t q] e] p2]. cbn [snd] in H2.
  specialize (Hl p2 ltac:(lia) ltac:(lia)). destruct (parseline fuel s p2) as [c p3| |]; [|done|done]. destruct Hl as [Hp3 Hc].
  destruct (peek s p3 [ch_rpar]) as [p4 b'] eqn:Ep4. destruct b'; [|done].
  destruct (take_symbol s p3 _ p4 ltac:(lia) Ep4) as [H3 H4]. destruct (gettoken s p4) as [[[t' q'] e'] p5]. cbn [snd] in H4.
  pose proof (parseredirs_ok (S (length s)) s p5 [] ltac:(lia) ltac:(lia) (Forall_nil_2 _)) as Hr.
  destruct (parseredirs _ s p5 []) as [rs p6| |]; [|done|done]. destruct Hr as [Hp6 Hrs].
  split; [lia|by apply wf_wrap].
Qed.
End parsers.

Lemma parseline_ok fuel s ps :
  (ps <= length s)%nat -> (4 * (length s - ps) + 4 <= fuel)%nat -> parsed s ps (wf_cmd s) (parseline fuel s ps).
Proof.
  assert (H : (forall ps, (ps <= length s)%nat -> (4 * (length s - ps) + 4 <= fuel)%nat -> parsed s ps (wf_cmd s) (parseline fuel s ps)) /\
    (forall ps, (ps <= length s)%nat -> (4 * (length s - ps) + 3 <= fuel)%nat -> parsed s ps (wf_cmd s) (parsepipe fuel s ps)) /\
    (forall ps, (ps <= length s)%nat -> (4 * (length s - ps) + 2 <= fuel)%nat -> parsed s ps (wf_cmd s) (parseexec fuel s ps)) /\
    (forall ps, (ps <= length s)%nat -> (4 * (length s - ps) + 1 <= fuel)%nat -> parsed s ps (wf_cmd s) (parseblock fuel s ps))).
  { clear. induction fuel as [|fuel (IH1 & IH2 & IH3 & IH4)]; [split_and!; intros; lia|].
    split_and!; [by apply line_step|by apply pipe_step|by apply exec_step|by apply block_step]. }
  apply H.
Qed.

(** C32: the parser terminates.  Whatever the line, the mutually recursive
    parser ends: it returns a command or complains, with no more than four
    nested calls per character of the line. *)
Theorem parsecmd_terminates s : parsecmd s <> PFuel.
Proof.
  unfold parsecmd. pose proof (parseline_ok (4 * S (length s)) s 0 ltac:(lia) ltac:(lia)) as H.
  destruct (parseline _ s 0) as [c p| |]; [|done|done]. destruct (peek s p []) as [p1 b]. by case_match.
Qed.

(** ** The strings of a command *)

Fixpoint words (c : cmd) : list (nat * nat) :=
  match c with
  | EXEC args => args
  | REDIR c file _ _ => words c ++ [file]
  | PIPE l r | LIST l r => words l ++ words r
  | BACK c => words c
  end.
Lemma nul_ends_words c : nul_ends c = (words c).*2.
Proof. induction c; simpl; rewrite ?fmap_app, ?IHc, ?IHc1, ?IHc2; done. Qed.
Lemma wf_words s c : wf_cmd s c -> Forall (word_at s) (words c).
Proof.
  induction c as [args|c IH f m d|l IHl r IHr|l IHl r IHr|c IH]; simpl.
  - by intros [? _].
  - intros (Hc & Hf & _). apply Forall_app. split; [by apply IH|by apply Forall_singleton].
  - intros [Hl Hr]. apply Forall_app. auto.
  - intros [Hl Hr]. apply Forall_app. auto.
  - done.
Qed.

(** The characters of the line from the first index to the second. *)
Definition slice (s : list Z) (r : nat * nat) : list Z := take (r.2 - r.1) (drop r.1 s).

Lemma length_nulterminate c buf : length (nulterminate c buf) = length buf.
Proof.
  unfold nulterminate. generalize (nul_ends c) as l. intros l. revert buf.
  induction l as [|i l IH]; intros buf; simpl; [done|]. by rewrite IH, length_insert.
Qed.
Lemma nulterminate_lookup c buf i :
  nulterminate c buf !! i = if decide (i ∈ nul_ends c) then (fun _ => 0) <$> buf !! i else buf !! i.
Proof.
  unfold nulterminate. generalize (nul_ends c) as l. intros l. revert buf.
  induction l as [|j l IH]; intros buf; cbn [foldl]; [by rewrite decide_False by set_solver|].
  rewrite IH. destruct (decide (i = j)) as [->|Hne].
  - rewrite (decide_True (P := j ∈ j :: l)) by set_solver.
    destruct (decide (j < length buf)%nat) as [Hlt|Hge].
    + rewrite list_lookup_insert_eq by done. destruct (lookup_lt_is_Some_2 buf j Hlt) as [x ->]. by case_decide.
    + rewrite !lookup_ge_None_2 by (rewrite ?length_insert; lia). by case_decide.
  - rewrite list_lookup_insert_ne by done. by rewrite (decide_ext (i ∈ j :: l) (i ∈ l)) by set_solver.
Qed.

Lemma c_string_app l1 l2 : 0 ∉ l1 -> c_string (l1 ++ 0 :: l2) = l1.
Proof.
  induction l1 as [|c l1 IH]; simpl; [done|]. intros [H1 H2]%not_elem_of_cons.
  rewrite (proj2 (Z.eqb_neq _ _)) by done. by rewrite IH.
Qed.

Lemma str_at_word s c r :
  0 ∉ s -> wf_cmd s c -> r ∈ words c -> str_at (nulterminate c (s ++ [0])) r = slice s r.
Proof.
  intros Hz Hc Hr. pose proof (wf_words s c Hc) as Hw. rewrite Forall_forall in Hw.
  destruct (Hw r Hr) as [Hlt Hend Hch Hst]. destruct r as [q e]. cbn [fst snd] in *. unfold str_at, slice. cbn [fst snd].
  assert (Hin : e ∈ nul_ends c).
  { rewrite nul_ends_words. apply list_elem_of_fmap. by exists (q, e). }
  assert (Hout : forall i, (q <= i < e)%nat -> i ∉ nul_ends c).
  { intros i Hi. rewrite nul_ends_words. intros ([q' e'] & -> & Hr')%list_elem_of_fmap. cbn [snd] in *.
    pose proof (wd_stop _ _ (Hw _ Hr')) as H. cbn [snd] in H. rewrite (Hch e' Hi) in H. by specialize (H ltac:(lia)). }
  set (buf := nulterminate c (s ++ [0])).
  assert (Hl : length buf = S (length s)) by (unfold buf; rewrite length_nulterminate, length_app; simpl; lia).
  assert (E1 : take (e - q) (drop q buf) = take (e - q) (drop q s)).
  { apply list_eq. intros i. destruct (decide (i < e - q)%nat).
    - rewrite !lookup_take_lt, !lookup_drop by done. unfold buf.
      rewrite nulterminate_lookup, decide_False by (apply Hout; lia). by rewrite lookup_app_l by lia.
    - by rewrite !lookup_take_ge by lia. }
  assert (E2 : drop e buf = 0 :: drop (S e) buf).
  { apply drop_S. unfold buf. rewrite nulterminate_lookup, decide_True by done.
    destruct (lookup_lt_is_Some_2 (s ++ [0]) e) as [x ->]; [rewrite length_app; simpl; lia|done]. }
  rewrite <- (take_drop (e - q) (drop q buf)), drop_drop, E1. replace (q + (e - q))%nat with e by lia.
  rewrite E2. apply c_string_app. intros Hx. apply Hz.
  rewrite <- (take_drop q s). apply elem_of_app. right. rewrite <- (take_drop (e - q) (drop q s)). apply elem_of_app. by left.
Qed.

(** C33: what the parser returns is well formed.  A command parsed from a line
    [s] (the characters before its nul) has fewer than [MAXARGS] arguments in
    every command, redirections with the flags and descriptors of [<], [>] and
    [>>] only, and words that are non-empty, within the line, made of word
    characters and not to be extended; and in the buffer [nulterminate] leaves
    every one of them reads as exactly its characters. *)
Theorem parsecmd_wf s c buf ps :
  0 ∉ s -> parsecmd s = POk (c, buf) ps ->
  ps = length s /\ wf_cmd s c /\ length buf = S (length s) /\ Forall (fun r => str_at buf r = slice s r) (words c).
Proof.
  intros Hz. unfold parsecmd. pose proof (parseline_ok (4 * S (length s)) s 0 ltac:(lia) ltac:(lia)) as H.
  destruct (parseline _ s 0) as [c1 p| |]; [|done|done]. destruct H as [_ Hc]. destruct (peek s p []) as [p1 b].
  destruct (Nat.eqb_spec p1 (length s)); [|done]. intros [= <- <- <-]. split_and!; try done.
  - rewrite length_nulterminate, length_app. simpl. lia.
  - apply Forall_forall. intros r Hr. by apply str_at_word.
Qed.

(** ** Printing *)

(** A command with its strings. *)
Inductive tree : Set :=
| TExec (args : list (list Z))
| TRedir (c : tree) (file : list Z) (mode fd : Z)
| TPipe (left right : tree)
| TList (left right : tree)
| TBack (c : tree).

(** The command whose strings are found by [str]. *)
Fixpoint tree_of (str : nat * nat -> list Z) (c : cmd) : tree :=
  match c with
  | EXEC args => TExec (str <$> args)
  | REDIR c file mode fd => TRedir (tree_of str c) (str file) mode fd
  | PIPE l r => TPipe (tree_of str l) (tree_of str r)
  | LIST l r => TList (tree_of str l) (tree_of str r)
  | BACK c => TBack (tree_of str c)
  end.
Notation text s := (tree_of (slice s)).
Lemma tree_of_ext f g c : Forall (fun r => f r = g r) (words c) -> tree_of f c = tree_of g c.
Proof.
  induction c as [args|c IH fl m d|l IHl r IHr|l IHl r IHr|c IH]; cbn [words tree_of].
  - intros H. f_equal. apply list_fmap_ext. intros i r Hr. rewrite Forall_lookup in H. by eapply H.
  - intros [H1 H2]%Forall_app. rewrite Forall_singleton in H2. f_equal; [by apply IH|exact H2].
  - intros [H1 H2]%Forall_app. by rewrite IHl, IHr.
  - intros [H1 H2]%Forall_app. by rewrite IHl, IHr.
  - intros H. by rewrite IH.
Qed.

Definition space : Z := 32.
Definition print_word (w : list Z) : list Z := w ++ [space].
Definition redir_symbol (mode : Z) : list Z :=
  if decide (mode = O_RDONLY) then [ch_lt]
  else if decide (mode = Z.lor (Z.lor O_WRONLY O_CREATE) O_TRUNC) then [ch_gt] else [ch_gt; ch_gt].
Definition print_redir (file : list Z) (mode : Z) : list Z := print_word (redir_symbol mode) ++ print_word file.
Definition parens (l : list Z) : list Z := print_word [ch_lpar] ++ l ++ print_word [ch_rpar].

(** The texts of a command where a line, the part of a line before [;], a
    pipeline and a simple command are expected. *)
Record texts : Set := mktexts { t_line : list Z; t_back : list Z; t_pipe : list Z; t_exec : list Z }.
Definition in_parens (l : list Z) : texts := mktexts l (parens l) (parens l) (parens l).
Fixpoint print (t : tree) : texts :=
  match t with
  | TExec args => let l := concat (print_word <$> args) in mktexts l l l l
  | TRedir c file mode _ => let l := t_exec (print c) ++ print_redir file mode in mktexts l l l l
  | TPipe l r =>
    let l := t_exec (print l) ++ print_word [ch_bar] ++ t_pipe (print r) in mktexts l l l (parens l)
  | TBack c =>
    let l := t_back (print c) ++ print_word [ch_amp] in mktexts l l (parens l) (parens l)
  | TList l r => in_parens (t_back (print l) ++ print_word [ch_semi] ++ t_line (print r))
  end.

Definition good_word (w : list Z) : Prop := w <> [] /\ Forall (fun c => is_word c = true /\ c <> 0) w.
Fixpoint good_tree (t : tree) : Prop :=
  match t with
  | TExec args => Forall good_word args /\ (length args < MAXARGS)%nat
  | TRedir c file mode fd => good_tree c /\ good_word file /\ (mode, fd) ∈ redir_modes
  | TPipe l r | TList l r => good_tree l /\ good_tree r
  | TBack c => good_tree c
  end.

(** ** Reading back what was printed *)

(** The text ahead of [ps], spaces skipped. *)
Definition ahead (s : list Z) (ps : nat) : list Z := drop (skip is_white s ps) s.
Definition tight (l : list Z) : Prop := forall c l', l = c :: l' -> is_white c = false.

Lemma ahead_skip s ps : ahead s (skip is_white s ps) = ahead s ps.
Proof. unfold ahead. by rewrite skip_idem. Qed.
Lemma ahead_tight s ps : tight (ahead s ps).
Proof.
  intros c l E. unfold ahead in E. destruct (drop_cons _ _ _ _ E) as (Hlt & _ & <-). by apply skip_stop.
Qed.
Lemma peek_ahead s ps toks :
  peek s ps toks = (skip is_white s ps,
    match ahead s ps with [] => false | c :: _ => negb (c =? 0) && is_in c toks end).
Proof.
  unfold peek, ahead. f_equal. destruct (drop (skip is_white s ps) s) as [|c l] eqn:E.
  - by rewrite (drop_nil_char _ _ E).
  - by destruct (drop_cons _ _ _ _ E) as (_ & _ & ->).
Qed.

(** Behind a token: a space, then something else. *)
Lemma ahead_space s e l : drop e s = space :: l -> tight l -> ahead s e = l.
Proof.
  intros E Hl. unfold ahead. eapply (skip_run is_white s e [space] l); [done|by repeat constructor|].
  intros c l' ->. by eapply Hl.
Qed.

Lemma ahead_split s ps : exists q, q = skip is_white s ps /\ ahead s ps = drop q s.
Proof. by eexists. Qed.

Lemma gettoken_word s ps w l :
  ahead s ps = print_word w ++ l -> good_word w -> tight l ->
  exists q e p, gettoken s ps = (tok_word, q, e, p) /\ slice s (q, e) = w /\ ahead s p = l.
Proof.
  intros Ea [Hne Hw] Hl. unfold print_word in Ea. rewrite <- app_assoc in Ea. unfold gettoken. unfold ahead in Ea.
  set (q := skip is_white s ps) in *. destruct w as [|c w]; [done|].
  destruct (drop_cons s q c (w ++ space :: l) Ea) as (_ & _ & Ec).
  apply Forall_cons in Hw as Hw'. destruct Hw' as [[Hc Hc0] _].
  unfold is_word in Hc. apply andb_true_iff in Hc as [Hc1 Hc2]. apply negb_true_iff, bool_decide_eq_false in Hc2.
  rewrite Ec, (proj2 (Z.eqb_neq _ _) Hc0).
  assert (E1 : is_in c [ch_bar; ch_lpar; ch_rpar; ch_semi; ch_amp; ch_lt] = false).
  { apply bool_decide_eq_false. unfold symbols, ch_bar, ch_lpar, ch_rpar, ch_semi, ch_amp, ch_lt in *. set_solver. }
  assert (E2 : c <> ch_gt) by (unfold symbols, ch_gt in *; set_solver).
  rewrite E1, (proj2 (Z.eqb_neq _ _) E2).
  destruct (skip_run is_word s q (c :: w) (space :: l)) as [Es Ed]; [done| | |].
  - eapply Forall_impl; [exact Hw|]. by intros x [? _].
  - by intros x l' [= <- <-].
  - eexists q, _, _. split; [done|]. split.
    + unfold slice. cbn [fst snd]. rewrite Es, Ea. replace (q + length (c :: w) - q)%nat with (length (c :: w)) by lia.
      by rewrite take_app_length.
    + rewrite ahead_skip. by apply ahead_space.
Qed.

Lemma gettoken_symbol s ps c l :
  ahead s ps = print_word [c] ++ l -> c ∈ symbols -> tight l ->
  exists q e p, gettoken s ps = (c, q, e, p) /\ ahead s p = l.
Proof.
  intros Ea Hc Hl. unfold gettoken. unfold ahead in Ea. set (q := skip is_white s ps) in *.
  destruct (drop_cons s q c (space :: l) Ea) as (_ & Es & Ec). destruct (drop_cons s (S q) space l Es) as (_ & _ & Esp).
  rewrite Ec, Esp. 
  assert (Hs : Forall (fun c => c <> 0 /\ (is_in c [ch_bar; ch_lpar; ch_rpar; ch_semi; ch_amp; ch_lt] = false -> c = ch_gt)) symbols).
  { repeat constructor; done. }
  destruct (proj1 (Forall_forall _ _) Hs c Hc) as [Hn Hgt]. rewrite (proj2 (Z.eqb_neq _ _) Hn).
  assert (Hnext : ahead s (skip is_white s (S q)) = l) by (rewrite ahead_skip; by apply ahead_space).
  destruct (is_in c _) eqn:E1; [by eexists _, _, _|].
  rewrite (Hgt eq_refl).
  rewrite Z.eqb_refl. change (space =? ch_gt) with false. by eexists _, _, _.
Qed.
Lemma gettoken_append s ps l :
  ahead s ps = print_word [ch_gt; ch_gt] ++ l -> tight l ->
  exists q e p, gettoken s ps = (tok_append, q, e, p) /\ ahead s p = l.
Proof.
  intros Ea Hl. unfold gettoken. unfold ahead in Ea. set (q := skip is_white s ps) in *.
  destruct (drop_cons s q _ _ Ea) as (_ & Es & Ec). destruct (drop_cons s (S q) _ _ Es) as (_ & Es2 & Esp).
  rewrite Ec, Esp. eexists q, _, _. split; [done|]. rewrite ahead_skip. by apply ahead_space.
Qed.

Lemma tight_word w l : good_word w -> tight (print_word w ++ l).
Proof.
  intros [Hne Hw] c l' E. destruct w as [|x w]; [done|]. injection E as -> _. apply Forall_cons in Hw as [[Hc _] _].
  unfold is_word in Hc. apply andb_true_iff in Hc as [Hc _]. by apply negb_true_iff in Hc.
Qed.
Lemma tight_symbol c l l' : c ∈ symbols -> tight (c :: l ++ l').
Proof.
  intros Hc x l1 [= <- _]. assert (H : Forall (fun c => is_white c = false) symbols) by (by repeat constructor).
  by apply (proj1 (Forall_forall _ _) H).
Qed.

(** What may come next: nothing, or one of the symbols [l]. *)
Definition follows (l : list Z) (rest : list Z) : Prop :=
  match rest with [] => True | c :: _ => c ∈ l end.
Lemma follows_tight l rest : Forall (fun c => c ∈ symbols) l -> follows l rest -> tight rest.
Proof.
  intros Hl Hf. destruct rest as [|c rest]; [by intros ? ?|]. rewrite <- (app_nil_r rest). apply (tight_symbol c rest []).
  by apply (proj1 (Forall_forall _ _) Hl).
Qed.
Lemma follows_weaken l l' rest : Forall (fun c => c ∈ l') l -> follows l rest -> follows l' rest.
Proof. intros H. destruct rest; simpl; [done|]. apply (proj1 (Forall_forall _ _) H). Qed.

Lemma peek_no s ps toks l :
  follows l (ahead s ps) -> Forall (fun c => is_in c toks = false) l -> peek s ps toks = (skip is_white s ps, false).
Proof.
  intros Hf Hl. rewrite peek_ahead. f_equal. destruct (ahead s ps) as [|c rest]; [done|].
  rewrite (proj1 (Forall_forall _ _) Hl c Hf). apply andb_false_r.
Qed.
Lemma peek_word s ps toks w l :
  ahead s ps = print_word w ++ l -> good_word w -> Forall (fun c => c ∈ symbols) toks ->
  peek s ps toks = (skip is_white s ps, false).
Proof.
  intros Ea [Hne Hw] Ht. rewrite peek_ahead, Ea. destruct w as [|c w]; [done|]. simpl. f_equal.
  apply Forall_cons in Hw as [[Hc _] _]. unfold is_word in Hc. apply andb_true_iff in Hc as [_ Hc].
  apply negb_true_iff, bool_decide_eq_false in Hc. apply andb_false_iff. right. apply bool_decide_eq_false.
  intros Hin. by apply Hc, (proj1 (Forall_forall _ _) Ht).
Qed.
Lemma peek_symbol s ps toks c l :
  ahead s ps = c :: l -> c ∈ toks -> c <> 0 -> peek s ps toks = (skip is_white s ps, true).
Proof.
  intros Ea Hc Hn. rewrite peek_ahead, Ea, (proj2 (Z.eqb_neq _ _) Hn). f_equal. simpl. by apply bool_decide_eq_true.
Qed.

(** *** Redirections *)

Definition redir_text (s : list Z) (r : redir) : list Z * Z * Z := (slice s r.1.1, r.1.2, r.2).
Definition print_redirs (rs : list (list Z * Z * Z)) : list Z := concat ((fun r => print_redir r.1.1 r.1.2) <$> rs).
Definition good_redir (r : list Z * Z * Z) : Prop := good_word r.1.1 /\ (r.1.2, r.2) ∈ redir_modes.

Lemma redir_token s ps mode fd l :
  ahead s ps = print_word (redir_symbol mode) ++ l -> (mode, fd) ∈ redir_modes -> tight l ->
  peek s ps [ch_lt; ch_gt] = (skip is_white s ps, true) /\
  exists tok q e p, gettoken s (skip is_white s ps) = (tok, q, e, p) /\ ahead s p = l /\
    forall (rs : list redir) (q' e' : nat), (if tok =? ch_lt then rs ++ [((q', e'), O_RDONLY, 0)]
     else if tok =? ch_gt then rs ++ [((q', e'), Z.lor (Z.lor O_WRONLY O_CREATE) O_TRUNC, 1)]
     else if tok =? tok_append then rs ++ [((q', e'), Z.lor (Z.lor O_WRONLY O_CREATE) O_APPEND, 1)]
     else rs) = rs ++ [((q', e'), mode, fd)].
Proof.
  intros Ea Hm Hl. rewrite <- ahead_skip in Ea. unfold redir_modes in Hm.
  apply elem_of_cons in Hm as [[= -> ->]|Hm]; [|apply elem_of_cons in Hm as [[= -> ->]|Hm]; [|apply list_elem_of_singleton in Hm as [= -> ->]]].
  - destruct (gettoken_symbol s _ ch_lt l Ea) as (q & e & p & E & Ep); [set_solver|done|].
    rewrite ahead_skip in Ea. split; [eapply peek_symbol; [exact Ea|set_solver|done]|]. by exists ch_lt, q, e, p.
  - destruct (gettoken_symbol s _ ch_gt l Ea) as (q & e & p & E & Ep); [set_solver|done|].
    rewrite ahead_skip in Ea. split; [eapply peek_symbol; [exact Ea|set_solver|done]|]. by exists ch_gt, q, e, p.
  - destruct (gettoken_append s _ l Ea) as (q & e & p & E & Ep); [done|].
    rewrite ahead_skip in Ea. split; [eapply peek_symbol; [exact Ea|set_solver|done]|]. by exists tok_append, q, e, p.
Qed.

(** The text is not a redirection. *)
Definition no_redir (l : list Z) : Prop := match l with [] => True | c :: _ => c ∉ [ch_lt; ch_gt] end.

Lemma tight_redirs rs rest : tight rest -> Forall good_redir rs -> tight (print_redirs rs ++ rest).
Proof.
  intros Hr H. destruct H as [|[[f m] d] rs [_ Hm] _]; [done|]. unfold print_redirs, print_redir, print_word. simpl.
  intros c l. unfold redir_symbol. repeat case_decide; by intros [= <- _].
Qed.

Lemma parseredirs_print fuel s ps rs acc rest :
  Forall good_redir rs -> ahead s ps = print_redirs rs ++ rest -> no_redir rest -> tight rest ->
  parseredirs fuel s ps acc <> PFuel ->
  exists rs' p, parseredirs fuel s ps acc = POk (acc ++ rs') p /\ redir_text s <$> rs' = rs /\ ahead s p = rest.
Proof.
  intros Hrs. revert fuel ps acc. induction Hrs as [|[[f m] d] rs [Hf Hm] Hrs IH]; intros fuel ps acc Ea Hn Ht Hfu;
    (destruct fuel as [|fuel]; [done|]); cbn [parseredirs] in *.
  - cbn in Ea. rewrite peek_ahead, Ea in *.
    assert (Ep : match rest with [] => false | c :: _ => negb (c =? 0) && is_in c [ch_lt; ch_gt] end = false).
    { destruct rest as [|c rest]; [done|]. apply andb_false_iff. right. by apply bool_decide_eq_false. }
    rewrite Ep in *. exists [], (skip is_white s ps). rewrite app_nil_r, ahead_skip. done.
  - cbn [fst snd] in Hf, Hm. unfold print_redirs in Ea. cbn [fmap list_fmap concat fst snd] in Ea. fold (print_redirs rs) in Ea.
    unfold print_redir in Ea. rewrite <- !app_assoc in Ea.
    destruct (redir_token s ps m d _ Ea Hm) as (Ep & tok & q & e & p & Eg & Ea1 & Hacc); [by apply tight_word|].
    rewrite Ep, Eg in *. 
    destruct (gettoken_word s p f _ Ea1 Hf) as (q2 & e2 & p2 & Eg2 & Es & Ea2); [by apply tight_redirs|].
    rewrite Eg2 in *. rewrite Z.eqb_refl in *. cbn [negb] in *. rewrite Hacc in *.
    destruct (IH fuel p2 _ Ea2 Hn Ht Hfu) as (rs' & p3 & E & Et & Ea3).
    exists (((q2, e2), m, d) :: rs'), p3. rewrite E, <- app_assoc. split; [done|]. split; [|done].
    rewrite fmap_cons, Et. f_equal. unfold redir_text. cbn [fst snd]. by rewrite Es.
Qed.

(** *** Arguments *)

Definition print_args (args : list (list Z)) : list Z := concat (print_word <$> args).
(** What follows a simple command. *)
Definition after_exec : list Z := [ch_bar; ch_rpar; ch_amp; ch_semi].
Lemma after_exec_symbols : Forall (fun c => c ∈ symbols) after_exec.
Proof. apply (bool_decide_unpack _). by vm_compute. Qed.
Lemma after_exec_no_redir rest : follows after_exec rest -> no_redir rest.
Proof.
  destruct rest as [|c rest]; [done|]. simpl. intros Hc.
  assert (H : Forall (fun c => c ∉ [ch_lt; ch_gt]) after_exec) by (apply (bool_decide_unpack _); by vm_compute).
  by apply (proj1 (Forall_forall _ _) H).
Qed.

Lemma parseargs_end fuel s ps args rs rest :
  ahead s ps = rest -> follows after_exec rest -> parseargs fuel s ps args rs <> PFuel ->
  exists p, parseargs fuel s ps args rs = POk (wrap (EXEC args) rs) p /\ ahead s p = rest.
Proof.
  intros Ea Hf Hfu. destruct fuel as [|fuel]; [done|]. cbn [parseargs] in *. fold after_exec in *. destruct rest as [|c rest].
  - rewrite peek_ahead, Ea in *. unfold gettoken in *. rewrite skip_idem in *.
    rewrite (drop_nil_char s (skip is_white s ps) Ea) in *. cbn [Z.eqb] in *.
    eexists. split; [done|]. by rewrite !ahead_skip.
  - assert (Hc : c <> 0).
    { assert (H : Forall (fun c => c <> 0) after_exec) by (by repeat constructor). by apply (proj1 (Forall_forall _ _) H). }
    rewrite (peek_symbol s ps after_exec c rest Ea Hf Hc). eexists. split; [done|]. by rewrite ahead_skip.
Qed.

Lemma word_no_redir w l : good_word w -> no_redir (print_word w ++ l).
Proof.
  intros [Hne Hw]. destruct w as [|c w]; [done|]. simpl. apply Forall_cons in Hw as [[Hc _] _].
  unfold is_word in Hc. apply andb_true_iff in Hc as [_ Hc]. apply negb_true_iff, bool_decide_eq_false in Hc.
  intros Hx. apply Hc. unfold symbols, ch_lt, ch_gt in *. set_solver.
Qed.

Lemma parseargs_print fuel s ps args rs acc racc rest :
  Forall good_word args -> args <> [] -> Forall good_redir rs -> (length acc + length args < MAXARGS)%nat ->
  ahead s ps = print_args args ++ print_redirs rs ++ rest -> follows after_exec rest ->
  parseargs fuel s ps acc racc <> PFuel ->
  exists as' rs' p, parseargs fuel s ps acc racc = POk (wrap (EXEC (acc ++ as')) (racc ++ rs')) p /\
    slice s <$> as' = args /\ redir_text s <$> rs' = rs /\ ahead s p = rest.
Proof.
  intros Ha Hne Hrs Hlen Ea Hf. pose proof (follows_tight _ _ after_exec_symbols Hf) as Ht.
  pose proof (after_exec_no_redir _ Hf) as Hnr.
  revert fuel ps acc racc Hne Hlen Ea. induction Ha as [|w args Hw Ha IH]; intros fuel ps acc racc Hne Hlen Ea Hfu; [done|].
  destruct fuel as [|fuel]; [done|]. cbn [parseargs] in *. fold after_exec in *. cbn [length] in Hlen.
  unfold print_args in Ea. cbn [fmap list_fmap concat] in Ea. fold (print_args args) in Ea. rewrite <- app_assoc in Ea.
  rewrite (peek_word s ps _ w _ Ea Hw after_exec_symbols) in *.
  assert (Htail : tight (print_args args ++ print_redirs rs ++ rest) /\
    (args <> [] -> no_redir (print_args args ++ print_redirs rs ++ rest))).
  { destruct Ha as [|w2 args Hw2 _]; [split; [by apply tight_redirs|done]|]. unfold print_args. cbn [fmap list_fmap concat].
    rewrite <- app_assoc. split; [by apply tight_word|]. intros _. by apply word_no_redir. }
  destruct Htail as [Htt Htn]. rewrite <- ahead_skip in Ea.
  destruct (gettoken_word s _ w _ Ea Hw Htt) as (q & e & p & Eg & Es & Ea1). rewrite Eg in *. cbn [Z.eqb negb] in *.
  change (tok_word =? 0) with false in *. rewrite Z.eqb_refl in *. cbn [negb] in *.
  rewrite length_app in *. cbn [length] in *. rewrite (proj2 (Nat.leb_gt _ _)) in * by lia.
  destruct (decide (args = [])) as [->|Hargs].
  - destruct (parseredirs_print (S (length s)) s p rs racc rest Hrs Ea1 Hnr Ht) as (rs' & p2 & E2 & Er & Ea2).
    { by destruct (parseredirs _ s p racc). }
    rewrite E2 in *. destruct (parseargs_end fuel s p2 (acc ++ [(q, e)]) (racc ++ rs') rest Ea2 Hf Hfu) as (p3 & E3 & Ea3).
    exists [(q, e)], rs', p3. rewrite E3. split_and!; try done. cbn [fmap list_fmap]. by rewrite Es.
  - destruct (parseredirs_print (S (length s)) s p [] racc _ (Forall_nil_2 _) Ea1 (Htn Hargs) Htt) as (rs0 & p2 & E2 & Er0 & Ea2).
    { by destruct (parseredirs _ s p racc). }
    apply fmap_nil_inv in Er0 as ->. rewrite app_nil_r in *. rewrite E2 in *.
    destruct (IH fuel p2 (acc ++ [(q, e)]) racc Hargs) as (as' & rs' & p3 & E3 & Eas & Ers & Ea3); [len|done|done|].
    exists ((q, e) :: as'), rs', p3. rewrite E3, <- app_assoc. split_and!; try done.
    rewrite fmap_cons, Es, Eas. done.
Qed.

(** *** Commands *)

Definition reads (s : list Z) (t : tree) (rest : list Z) (r : pres cmd) : Prop :=
  exists c p, r = POk c p /\ text s c = t /\ ahead s p = rest.
Definition twrap (t : tree) (rs : list (list Z * Z * Z)) : tree :=
  foldl (fun t r => TRedir t r.1.1 r.1.2 r.2) t rs.
Lemma text_wrap s c rs : text s (wrap c rs) = twrap (text s c) (redir_text s <$> rs).
Proof. revert c. induction rs as [|[[f m] d] rs IH]; intros c; [done|]. cbn. by rewrite IH. Qed.

Definition after_pipe : list Z := [ch_rpar; ch_amp; ch_semi].

Section levels.
Context (t : tree).
Definition exec_reads : Prop := forall fuel s ps rs rest,
  Forall good_redir rs -> follows after_exec rest -> ahead s ps = t_exec (print t) ++ print_redirs rs ++ rest ->
  parseexec fuel s ps <> PFuel -> reads s (twrap t rs) rest (parseexec fuel s ps).
Definition pipe_reads : Prop := forall fuel s ps rest,
  follows after_pipe rest -> ahead s ps = t_pipe (print t) ++ rest ->
  parsepipe fuel s ps <> PFuel -> reads s t rest (parsepipe fuel s ps).
(** The pipeline, and the part of the loop that takes the [&]s printed. *)
Definition back_reads : Prop := forall fuel s ps rest,
  follows after_pipe rest -> ahead s ps = t_back (print t) ++ rest -> parsepipe fuel s ps <> PFuel ->
  exists c1 p1 c p2, parsepipe fuel s ps = POk c1 p1 /\ text s c = t /\ ahead s p2 = rest /\
    forall n, parseback n s p1 c1 <> PFuel -> exists m, parseback n s p1 c1 = parseback m s p2 c.
Definition line_reads : Prop := forall fuel s ps rest,
  follows [ch_rpar] rest -> ahead s ps = t_line (print t) ++ rest ->
  parseline fuel s ps <> PFuel -> reads s t rest (parseline fuel s ps).

Lemma pipe_of_exec : t_pipe (print t) = t_exec (print t) -> exec_reads -> pipe_reads.
Proof.
  intros Et He fuel s ps rest Hf Ea Hfu. destruct fuel as [|fuel]; [done|]. cbn [parsepipe] in *. rewrite Et in Ea.
  destruct (He fuel s ps [] rest (Forall_nil_2 _)) as (c & p & E & Ec & Ep); [|done|by destruct (parseexec fuel s ps)|].
  { eapply follows_weaken; [|exact Hf]. apply (bool_decide_unpack _). by vm_compute. }
  rewrite E. rewrite (peek_no s p [ch_bar] after_pipe); [|by rewrite Ep|by repeat constructor].
  exists c, (skip is_white s p). by rewrite ahead_skip.
Qed.
Lemma back_of_pipe : t_back (print t) = t_pipe (print t) -> pipe_reads -> back_reads.
Proof.
  intros Et Hp fuel s ps rest Hf Ea Hfu. rewrite Et in Ea. destruct (Hp fuel s ps rest Hf Ea Hfu) as (c & p & E & Ec & Ep).
  exists c, p, c, p. split_and!; try done. intros n _. by exists n.
Qed.
Lemma line_of_back : t_line (print t) = t_back (print t) -> back_reads -> line_reads.
Proof.
  intros Et Hb fuel s ps rest Hf Ea Hfu. destruct fuel as [|fuel]; [done|]. cbn [parseline] in *. rewrite Et in Ea.
  destruct (Hb fuel s ps rest) as (c1 & p1 & c & p2 & E & Ec & Ep & Hm); [|done|by destruct (parsepipe fuel s ps)|].
  { eapply follows_weaken; [|exact Hf]. apply (bool_decide_unpack _). by vm_compute. }
  rewrite E in *. destruct (Hm (S (length s))) as [m Em]; [by destruct (parseback _ s p1 c1)|]. rewrite Em in Hfu |- *.
  destruct m as [|m]; [done|]. cbn [parseback].
  rewrite (peek_no s p2 [ch_amp] [ch_rpar]); [|by rewrite Ep|by repeat constructor].
  rewrite (peek_no s (skip is_white s p2) [ch_semi] [ch_rpar]); [|by rewrite ahead_skip, Ep|by repeat constructor].
  eexists c, _. split; [done|]. by rewrite !ahead_skip.
Qed.

(** A command in parentheses. *)
Lemma exec_of_line :
  t_exec (print t) = parens (t_line (print t)) -> (forall l, tight l -> tight (t_line (print t) ++ l)) ->
  line_reads -> exec_reads.
Proof.
  intros Et Hti Hl fuel s ps rs rest Hrs Hf Ea Hfu. pose proof (follows_tight _ _ after_exec_symbols Hf) as Htr.
  pose proof (tight_redirs rs rest Htr Hrs) as Htt.
  destruct fuel as [|fuel]; [done|]. cbn [parseexec] in *. rewrite Et in Ea. unfold parens in Ea. rewrite <- !app_assoc in Ea.
  assert (Hp1 : forall p, ahead s p = ahead s ps -> peek s p [ch_lpar] = (skip is_white s p, true)).
  { intros p Ep. eapply peek_symbol; [by rewrite Ep, Ea|set_solver|done]. }
  rewrite (Hp1 ps eq_refl) in *. destruct fuel as [|fuel]; [done|]. cbn [parseblock] in *.
  rewrite (Hp1 _ (ahead_skip s ps)), skip_idem in *.
  destruct (gettoken_symbol s (skip is_white s ps) ch_lpar _ ltac:(by rewrite ahead_skip, Ea)) as (q & e & p & Eg & Ea1);
    [set_solver|apply Hti, (tight_symbol ch_rpar [space]); set_solver|]. rewrite Eg in *.
  destruct (Hl fuel s p (print_word [ch_rpar] ++ print_redirs rs ++ rest)) as (c & p2 & E2 & Ec & Ea2);
    [simpl; set_solver|exact Ea1|by destruct (parseline fuel s p)|].
  rewrite E2 in *. rewrite (peek_symbol s p2 [ch_rpar] ch_rpar _ Ea2) in * by (done || set_solver).
  destruct (gettoken_symbol s (skip is_white s p2) ch_rpar _ ltac:(by rewrite ahead_skip, Ea2)) as (q3 & e3 & p3 & Eg3 & Ea3);
    [set_solver|done|]. rewrite Eg3 in *.
  destruct (parseredirs_print (S (length s)) s p3 rs [] rest Hrs Ea3 (after_exec_no_redir _ Hf) Htr) as (rs' & p4 & E4 & Er & Ea4).
  { by destruct (parseredirs _ s p3 []). }
  rewrite E4. exists (wrap c rs'), p4. by rewrite text_wrap, Ec, Er.
Qed.
End levels.

Lemma exec_words args : Forall good_word args -> (length args < MAXARGS)%nat -> exec_reads (TExec args).
Proof.
  intros Ha Hn fuel s ps rs rest Hrs Hf Ea Hfu. pose proof (follows_tight _ _ after_exec_symbols Hf) as Htr.
  destruct fuel as [|fuel]; [done|]. cbn [parseexec] in *. cbn [print t_exec] in Ea. fold (print_args args) in Ea.
  assert (Ep : peek s ps [ch_lpar] = (skip is_white s ps, false)).
  { destruct Ha as [|w args Hw Ha].
    - cbn in Ea. rewrite peek_ahead, Ea. f_equal. destruct Hrs as [|[[f m] d] rs [_ Hm] _].
      + cbn. destruct rest as [|c rest]; [done|]. cbn in Hf.
        assert (H : Forall (fun c => negb (c =? 0) && is_in c [ch_lpar] = false) after_exec) by (by repeat constructor).
        by apply (proj1 (Forall_forall _ _) H).
      + unfold print_redirs, print_redir, redir_symbol. cbn. by repeat case_decide.
    - unfold print_args in Ea. cbn [fmap list_fmap concat] in Ea. rewrite <- app_assoc in Ea.
      eapply peek_word; [exact Ea|done|]. apply (bool_decide_unpack _). by vm_compute. }
  rewrite Ep in *. rewrite <- ahead_skip in Ea. destruct args as [|w args].
  - destruct (parseredirs_print (S (length s)) s _ rs [] rest Hrs Ea (after_exec_no_redir _ Hf) Htr) as (rs' & p & E & Er & Ea2).
    { by destruct (parseredirs _ s _ []). }
    cbn [app] in E. rewrite E in *. destruct (parseargs_end (S (length s)) s p [] rs' rest Ea2 Hf) as (p2 & E2 & Ea3); [done|].
    rewrite E2. exists (wrap (EXEC []) rs'), p2. by rewrite text_wrap, Er.
  - apply Forall_cons in Ha as Ha'. destruct Ha' as [Hw _].
    assert (Ht : no_redir (print_args (w :: args) ++ print_redirs rs ++ rest) /\
      tight (print_args (w :: args) ++ print_redirs rs ++ rest)).
    { unfold print_args. cbn [fmap list_fmap concat]. rewrite <- app_assoc. split; [by apply word_no_redir|by apply tight_word]. }
    destruct (parseredirs_print (S (length s)) s _ [] [] _ (Forall_nil_2 _) Ea (proj1 Ht) (proj2 Ht)) as (rs0 & p & E & Er & Ea2).
    { by destruct (parseredirs _ s _ []). }
    apply fmap_nil_inv in Er as ->. cbn [app] in E. rewrite E in *.
    destruct (parseargs_print (S (length s)) s p (w :: args) rs [] [] rest) as (as' & rs' & p2 & E2 & Eas & Er & Ea3); try done.
    rewrite E2. exists (wrap (EXEC as') rs'), p2. rewrite text_wrap, Er. cbn [tree_of]. by rewrite Eas.
Qed.

Lemma pipe_pipe l r : exec_reads l -> pipe_reads r ->
  (forall x, tight x -> tight (t_pipe (print r) ++ x)) -> pipe_reads (TPipe l r).
Proof.
  intros Hl Hr Hti fuel s ps rest Hf Ea Hfu. destruct fuel as [|fuel]; [done|]. cbn [parsepipe] in *. cbn [print t_pipe] in Ea.
  rewrite <- !app_assoc in Ea.
  assert (Htr : tight rest) by (eapply follows_tight; [|exact Hf]; apply (bool_decide_unpack _); by vm_compute).
  destruct (Hl fuel s ps [] (print_word [ch_bar] ++ t_pipe (print r) ++ rest) (Forall_nil_2 _)) as (c & p & E & Ec & Ep);
    [simpl; set_solver|exact Ea|by destruct (parseexec fuel s ps)|].
  rewrite E in *. rewrite (peek_symbol s p [ch_bar] ch_bar _ Ep) in * by (done || set_solver).
  destruct (gettoken_symbol s (skip is_white s p) ch_bar _ ltac:(by rewrite ahead_skip, Ep)) as (q & e & p2 & Eg & Ea2);
    [set_solver|by apply Hti|]. rewrite Eg in *.
  destruct (Hr fuel s p2 rest Hf Ea2) as (c2 & p3 & E3 & Ec3 & Ea3); [by destruct (parsepipe fuel s p2)|].
  rewrite E3. exists (PIPE c c2), p3. cbn [tree_of]. by rewrite Ec, Ec3.
Qed.

Lemma back_back c : back_reads c -> back_reads (TBack c).
Proof.
  intros Hb fuel s ps rest Hf Ea Hfu. cbn [print t_back] in Ea. rewrite <- app_assoc in Ea.
  assert (Htr : tight rest) by (eapply follows_tight; [|exact Hf]; apply (bool_decide_unpack _); by vm_compute).
  destruct (Hb fuel s ps (print_word [ch_amp] ++ rest)) as (c1 & p1 & c2 & p2 & E & Ec & Ep & Hm);
    [simpl; set_solver|exact Ea|done|].
  destruct (gettoken_symbol s (skip is_white s p2) ch_amp _ ltac:(by rewrite ahead_skip, Ep)) as (q & e & p3 & Eg & Ea3);
    [set_solver|done|].
  exists c1, p1, (BACK c2), p3. cbn [tree_of]. rewrite Ec. split_and!; try done.
  intros n Hn. destruct (Hm n Hn) as [m Em]. rewrite Em in *. destruct m as [|m]; [done|]. exists m. cbn [parseback].
  rewrite (peek_symbol s p2 [ch_amp] ch_amp _ Ep) by (done || set_solver). by rewrite Eg.
Qed.

Lemma line_list l r : back_reads l -> line_reads r ->
  (forall x, tight x -> tight (t_line (print r) ++ x)) -> line_reads (TList l r).
Proof.
  intros Hb Hr Hti fuel s ps rest Hf Ea Hfu. destruct fuel as [|fuel]; [done|]. cbn [parseline] in *.
  cbn [print t_line in_parens] in Ea. rewrite <- !app_assoc in Ea.
  assert (Htr : tight rest) by (eapply follows_tight; [|exact Hf]; apply (bool_decide_unpack _); by vm_compute).
  destruct (Hb fuel s ps (print_word [ch_semi] ++ t_line (print r) ++ rest)) as (c1 & p1 & c & p2 & E & Ec & Ep & Hm);
    [simpl; set_solver|exact Ea|by destruct (parsepipe fuel s ps)|].
  rewrite E in *. destruct (Hm (S (length s))) as [m Em]; [by destruct (parseback _ s p1 c1)|]. rewrite Em in Hfu |- *.
  destruct m as [|m]; [done|]. cbn [parseback] in *.
  assert (Ek : peek s p2 [ch_amp] = (skip is_white s p2, false)).
  { apply (peek_no s p2 [ch_amp] [ch_semi]); [rewrite Ep; simpl; set_solver|by repeat constructor]. }
  assert (Ek2 : peek s (skip is_white s p2) [ch_semi] = (skip is_white s p2, true)).
  { rewrite <- (skip_idem is_white s p2) at 2. eapply peek_symbol; [by rewrite ahead_skip, Ep|set_solver|done]. }
  rewrite Ek, Ek2 in *.
  destruct (gettoken_symbol s (skip is_white s p2) ch_semi _ ltac:(by rewrite ahead_skip, Ep)) as (q & e & p3 & Eg & Ea3);
    [set_solver|by apply Hti|]. rewrite Eg in *.
  destruct (Hr fuel s p3 rest Hf Ea3) as (c2 & p4 & E4 & Ec4 & Ea4); [by destruct (parseline fuel s p3)|].
  rewrite E4. exists (LIST c c2), p4. cbn [tree_of]. by rewrite Ec, Ec4.
Qed.

Definition tight_before (x : list Z) : Prop := forall l, tight l -> tight (x ++ l).
Lemma tight_parens x : tight_before (parens x).
Proof. intros l _ c l' [= <- _]. done. Qed.
Lemma tight_print t :
  good_tree t -> tight_before (t_line (print t)) /\ tight_before (t_back (print t)) /\
    tight_before (t_pipe (print t)) /\ tight_before (t_exec (print t)).
Proof.
  induction t as [args|c IH f m d|l IHl r IHr|l IHl r IHr|c IH]; cbn [good_tree print t_line t_back t_pipe t_exec in_parens].
  - intros [Ha _]. assert (H : tight_before (concat (print_word <$> args))); [|done]. intros l Hl.
    destruct Ha as [|w args Hw _]; [done|]. cbn [fmap list_fmap concat]. rewrite <- app_assoc. by apply tight_word.
  - intros (Hc & Hf & Hm). destruct (IH Hc) as (_ & _ & _ & H).
    assert (H' : tight_before (t_exec (print c) ++ print_redir f m)); [|done]. intros l Hl. rewrite <- app_assoc. apply H.
    unfold print_redir, redir_symbol. repeat case_decide; by intros x l' [= <- _].
  - intros [Hl Hr]. destruct (IHl Hl) as (_ & _ & _ & H).
    assert (H' : tight_before (t_exec (print l) ++ print_word [ch_bar] ++ t_pipe (print r))).
    { intros x Hx. rewrite <- !app_assoc. apply H. by intros y l' [= <- _]. }
    split_and!; try done. apply tight_parens.
  - intros [Hl Hr]. destruct (IHl Hl) as (_ & H & _ & _). split_and!; try apply tight_parens.
    intros x Hx. rewrite <- !app_assoc. apply H. by intros y l' [= <- _].
  - intros Hc. destruct (IH Hc) as (_ & H & _ & _).
    assert (H' : tight_before (t_back (print c) ++ print_word [ch_amp])).
    { intros x Hx. rewrite <- !app_assoc. apply H. by intros y l' [= <- _]. }
    split_and!; try done; apply tight_parens.
Qed.

Lemma tree_reads t : good_tree t -> exec_reads t /\ pipe_reads t /\ back_reads t /\ line_reads t.
Proof.
  induction t as [args|c IH f m d|l IHl r IHr|l IHl r IHr|c IH]; intros Hg; pose proof (tight_print _ Hg) as (Tl & _).
  - destruct Hg as [Ha Hn]. assert (He : exec_reads (TExec args)) by (by apply exec_words).
    assert (Hp : pipe_reads (TExec args)) by (by apply pipe_of_exec).
    assert (Hb : back_reads (TExec args)) by (by apply back_of_pipe). split_and!; try done. by apply line_of_back.
  - destruct Hg as (Hc & Hf & Hm). destruct (IH Hc) as (Ec & _).
    assert (He : exec_reads (TRedir c f m d)).
    { intros fuel s ps rs rest Hrs Hfo Ea Hfu. apply (Ec fuel s ps ((f, m, d) :: rs) rest); [by constructor|done| |done].
      rewrite Ea. cbn [print t_exec]. unfold print_redirs. cbn [fmap list_fmap concat fst snd]. by rewrite <- !app_assoc. }
    assert (Hp : pipe_reads (TRedir c f m d)) by (by apply pipe_of_exec).
    assert (Hb : back_reads (TRedir c f m d)) by (by apply back_of_pipe). split_and!; try done. by apply line_of_back.
  - destruct Hg as [Hl Hr]. destruct (IHl Hl) as (El & _). destruct (IHr Hr) as (_ & Pr & _).
    assert (Hp : pipe_reads (TPipe l r)) by (apply pipe_pipe; [done|done|by apply tight_print]).
    assert (Hb : back_reads (TPipe l r)) by (by apply back_of_pipe).
    assert (Hli : line_reads (TPipe l r)) by (by apply line_of_back). split_and!; try done. by apply exec_of_line.
  - destruct Hg as [Hl Hr]. destruct (IHl Hl) as (_ & _ & Bl & _). destruct (IHr Hr) as (_ & _ & _ & Lr).
    assert (Hli : line_reads (TList l r)) by (apply line_list; [done|done|by apply tight_print]).
    assert (He : exec_reads (TList l r)) by (by apply exec_of_line).
    assert (Hp : pipe_reads (TList l r)) by (by apply pipe_of_exec). split_and!; try done. by apply back_of_pipe.
  - destruct (IH Hg) as (_ & _ & Bc & _). assert (Hb : back_reads (TBack c)) by (by apply back_back).
    assert (Hli : line_reads (TBack c)) by (by apply line_of_back).
    assert (He : exec_reads (TBack c)) by (by apply exec_of_line). split_and!; try done. by apply pipe_of_exec.
Qed.

Lemma print_word_nonzero w : 0 ∉ w -> 0 ∉ print_word w.
Proof. intros H. unfold print_word, space. set_solver. Qed.
Lemma good_word_nonzero w : good_word w -> 0 ∉ print_word w.
Proof.
  intros [_ Hw]. apply print_word_nonzero. intros Hx. rewrite Forall_forall in Hw. by destruct (Hw 0 Hx).
Qed.
Lemma parens_nonzero l : 0 ∉ l -> 0 ∉ parens l.
Proof. intros H. unfold parens, print_word, space, ch_lpar, ch_rpar. set_solver. Qed.
Lemma print_nonzero t :
  good_tree t -> 0 ∉ t_line (print t) /\ 0 ∉ t_back (print t) /\ 0 ∉ t_pipe (print t) /\ 0 ∉ t_exec (print t).
Proof.
  induction t as [args|c IH f m d|l IHl r IHr|l IHl r IHr|c IH]; cbn [good_tree print t_line t_back t_pipe t_exec in_parens].
  - intros [Ha _]. assert (H : 0 ∉ concat (print_word <$> args)); [|done].
    induction Ha as [|w args Hw _ IH]; [apply not_elem_of_nil|]. cbn. apply not_elem_of_app. split; [by apply good_word_nonzero|done].
  - intros (Hc & Hf & _). destruct (IH Hc) as (_ & _ & _ & H). assert (H' : 0 ∉ t_exec (print c) ++ print_redir f m); [|done].
    apply not_elem_of_app. split; [done|]. unfold print_redir. apply not_elem_of_app. split; [|by apply good_word_nonzero].
    apply print_word_nonzero. unfold redir_symbol, ch_lt, ch_gt. repeat case_decide; set_solver.
  - intros [Hl Hr]. destruct (IHl Hl) as (_ & _ & _ & H). destruct (IHr Hr) as (_ & _ & H2 & _).
    assert (H' : 0 ∉ t_exec (print l) ++ print_word [ch_bar] ++ t_pipe (print r)) by (unfold print_word, space, ch_bar; set_solver).
    split_and!; try done. by apply parens_nonzero.
  - intros [Hl Hr]. destruct (IHl Hl) as (_ & H & _). destruct (IHr Hr) as (H2 & _).
    assert (H' : 0 ∉ t_back (print l) ++ print_word [ch_semi] ++ t_line (print r)) by (unfold print_word, space, ch_semi; set_solver).
    split_and!; try done; by apply parens_nonzero.
  - intros Hc. destruct (IH Hc) as (_ & H & _).
    assert (H' : 0 ∉ t_back (print c) ++ print_word [ch_amp]) by (unfold print_word, space, ch_amp; set_solver).
    split_and!; try done; by apply parens_nonzero.
Qed.

(** C34: every command can be typed.  The text of a command tree with fewer
    than [MAXARGS] arguments per command and with proper words (printed with
    the parentheses its structure needs) is parsed, and the tree that results,
    its strings read from the buffer [nulterminate] leaves, is that command. *)
Theorem parse_print t :
  good_tree t ->
  exists c buf ps, parsecmd (t_line (print t)) = POk (c, buf) ps /\ tree_of (str_at buf) c = t.
Proof.
  intros Hg. set (s := t_line (print t)). destruct (tree_reads t Hg) as (_ & _ & _ & Hl).
  destruct (tight_print t Hg) as (Tl & _). destruct (print_nonzero t Hg) as (Hz & _). fold s in Tl, Hz.
  assert (Ts : tight s) by (rewrite <- (app_nil_r s); by apply Tl).
  assert (Ea : ahead s 0 = s ++ []).
  { rewrite app_nil_r. unfold ahead. apply (skip_run is_white s 0 [] s); [done|constructor|done]. }
  pose proof (parseline_ok (4 * S (length s)) s 0 ltac:(lia) ltac:(lia)) as Hok.
  destruct (Hl (4 * S (length s))%nat s 0%nat [] I Ea) as (c & p & E & Ec & Ep); [by destruct (parseline _ s 0)|].
  unfold parsecmd. rewrite E in *. destruct Hok as [Hp Hwf].
  assert (Es : skip is_white s p = length s).
  { pose proof (skip_range is_white s p ltac:(lia)) as Hr. unfold ahead in Ep.
    assert (length (drop (skip is_white s p) s) = 0%nat) by (by rewrite Ep). rewrite length_drop in *. lia. }
  assert (Ek : peek s p [] = (length s, false)) by (rewrite peek_ahead, Ep, Es; done).
  rewrite Ek, Nat.eqb_refl. eexists c, _, _. split; [done|]. rewrite <- Ec. apply tree_of_ext.
  apply Forall_forall. intros r Hr. by apply str_at_word.
Qed.

(** ** Running

    What a command means, without descriptors: each program with its standard
    input, output and error. *)

Definition program : Type := list (list Z) * (fdobj * fdobj * fdobj).
Fixpoint meaning (opens : list Z -> Z -> bool) (str : nat * nat -> list Z) (c : cmd) (i o e : fdobj) (np : nat)
    : list program * nat :=
  match c with
  | EXEC [] => ([], np)
  | EXEC args => ([(str <$> args, (i, o, e))], np)
  | REDIR c file mode fd =>
    if opens (str file) mode then
      if decide (fd = 0) then meaning opens str c (FFile (str file) mode) o e np
      else meaning opens str c i (FFile (str file) mode) e np
    else ([], np)
  | PIPE l r =>
    let '(e1, np1) := meaning opens str l i (FPipeW np) e (S np) in
    let '(e2, np2) := meaning opens str r (FPipeR np) o e np1 in
    (e1 ++ e2, np2)
  | LIST l r =>
    let '(e1, np1) := meaning opens str l i o e np in
    let '(e2, np2) := meaning opens str r i o e np1 in
    (e1 ++ e2, np2)
  | BACK c => meaning opens str c i o e np
  end.

(** A process with the three standard descriptors and no other. *)
Definition std (io : fdobj * fdobj * fdobj) : fdtable :=
  Some io.1.1 :: Some io.1.2 :: Some io.2 :: replicate 13 None.
Definition started (p : program) : list (list Z) * fdtable := (p.1, std p.2).

(** C35: redirections and pipes.  [runcmd], which closes, opens and duplicates
    descriptors by number, runs the programs the command means, in that order,
    each with exactly three open descriptors: its input, output and error as
    the redirections and pipes around it say.  No program is left with a
    spare end of a pipe. *)
Theorem runcmd_connects opens buf s c i o e np :
  wf_cmd s c ->
  runcmd opens buf c (std (i, o, e)) np =
    let '(ps, np') := meaning opens (str_at buf) c i o e np in (started <$> ps, np').
Proof.
  revert i o e np. induction c as [args|c IH f m d|l IHl r IHr|l IHl r IHr|c IH]; intros i o e np Hw; cbn [wf_cmd] in Hw.
  - by destruct args.
  - destruct Hw as (Hc & _ & Hm). cbn [runcmd meaning]. destruct (opens (str_at buf f) m); [|done].
    assert (Hd : d = 0 \/ d = 1) by (unfold redir_modes in Hm; set_solver).
    destruct Hd as [-> | ->]; [exact (IH (FFile (str_at buf f) m) o e np Hc)|exact (IH i (FFile (str_at buf f) m) e np Hc)].
  - destruct Hw as [Hl Hr]. cbn [meaning].
    assert (E : runcmd opens buf (PIPE l r) (std (i, o, e)) np =
      let '(e1, np1) := runcmd opens buf l (std (i, FPipeW np, e)) (S np) in
      let '(e2, np2) := runcmd opens buf r (std (FPipeR np, o, e)) np1 in (e1 ++ e2, np2)) by reflexivity.
    rewrite E, (IHl i (FPipeW np) e (S np) Hl).
    destruct (meaning opens (str_at buf) l i (FPipeW np) e (S np)) as [e1 np1]. rewrite (IHr (FPipeR np) o e np1 Hr).
    destruct (meaning opens (str_at buf) r (FPipeR np) o e np1) as [e2 np2]. by rewrite fmap_app.
  - destruct Hw as [Hl Hr]. cbn [runcmd meaning]. rewrite (IHl i o e np Hl).
    destruct (meaning opens (str_at buf) l i o e np) as [e1 np1]. rewrite (IHr i o e np1 Hr).
    destruct (meaning opens (str_at buf) r i o e np1) as [e2 np2]. by rewrite fmap_app.
  - cbn [runcmd meaning]. by apply IH.
Qed.

Lemma fd_alloc_none t o : fd_alloc t o = None -> Forall (fun x => x <> None) t.
Proof.
  induction t as [|[x|] t IH]; simpl; [constructor| |done]. destruct (fd_alloc t o) as [[n t']|]; [done|].
  intros _. constructor; [done|by apply IH].
Qed.
Lemma fd_alloc_some t o n t' :
  fd_alloc t o = Some (n, t') -> t !! n = Some None /\ t' = <[n := Some o]> t /\ Forall (fun x => x <> None) (take n t).
Proof.
  revert n t'. induction t as [|[x|] t IH]; intros n t'; simpl; [done| |by intros [= <- <-]].
  destruct (fd_alloc t o) as [[m t1]|]; [|done]. intros [= <- <-]. destruct (IH m t1 eq_refl) as (H1 & H2 & H3).
  simpl. split_and!; [done|by rewrite H2|by constructor].
Qed.

(** With the first three descriptors open, the loop of [main] changes
    nothing; otherwise it opens the console on those that are not. *)
Lemma open_console_stop fuel a b c t :
  open_console fuel (Some a :: Some b :: Some c :: t) = Some a :: Some b :: Some c :: t.
Proof.
  destruct fuel as [|fuel]; [done|]. cbn [open_console fd_alloc].
  destruct (fd_alloc t _) as [[n t']|] eqn:E; [|done]. apply fd_alloc_some in E as (Hn & -> & _).
  change (Some a :: Some b :: Some c :: <[n := None]> (<[n := Some (FFile console_name O_RDWR)]> t) =
    Some a :: Some b :: Some c :: t).
  by rewrite list_insert_insert_eq, list_insert_id.
Qed.
Definition opened (o : option fdobj) : option fdobj :=
  match o with None => Some (FFile console_name O_RDWR) | Some _ => o end.
Lemma open_console_ok a b c t :
  open_console 4 (a :: b :: c :: t) = opened a :: opened b :: opened c :: t.
Proof.
  destruct a as [a|], b as [b|], c as [c|]; try apply open_console_stop;
    (set (f := 3%nat); change 4%nat with (S f); cbn [open_console fd_alloc Nat.leb]; subst f);
    try apply open_console_stop; (set (f := 2%nat); change 3%nat with (S f); cbn [open_console fd_alloc Nat.leb]; subst f);
    try apply open_console_stop; (set (f := 1%nat); change 2%nat with (S f); cbn [open_console fd_alloc Nat.leb]; subst f);
    apply open_console_stop.
Qed.

(** ** The theorems on concrete lines *)

(** [ls -l > x], and [(ls; wc) | wc &]. *)
Definition demo_line : list Z := [108; 115; 32; 45; 108; 32; 62; 32; 120].
Definition demo_cmd : cmd := REDIR (EXEC [(0%nat, 2%nat); (3%nat, 5%nat)]) (8%nat, 9%nat) (Z.lor (Z.lor O_WRONLY O_CREATE) O_TRUNC) 1.
Definition w_ls : list Z := [108; 115].
Definition w_wc : list Z := [119; 99].
Definition demo_tree : tree := TBack (TPipe (TList (TExec [w_ls]) (TExec [w_wc])) (TExec [w_wc])).

Lemma parsecmd_wf_witness :
  9%nat = length demo_line /\ wf_cmd demo_line demo_cmd /\
  length (nulterminate demo_cmd (demo_line ++ [0])) = 10%nat /\
  Forall (fun r => str_at (nulterminate demo_cmd (demo_line ++ [0])) r = slice demo_line r) (words demo_cmd).
Proof.
  apply (parsecmd_wf demo_line demo_cmd (nulterminate demo_cmd (demo_line ++ [0])) 9).
  - apply (bool_decide_unpack _). by vm_compute.
  - by vm_compute.
Defined.

Lemma good_demo : good_tree demo_tree.
Proof. by repeat (split || constructor). Qed.
Lemma parse_print_witness :
  exists c buf ps, parsecmd (t_line (print demo_tree)) = POk (c, buf) ps /\ tree_of (str_at buf) c = demo_tree.
Proof. apply (parse_print demo_tree). exact good_demo. Defined.

Lemma wf_demo_cmd : wf_cmd demo_line demo_cmd.
Proof.
  pose proof (parseline_ok 40 demo_line 0 ltac:(simpl; lia) ltac:(simpl; lia)) as H.
  change (parseline 40 demo_line 0) with (POk demo_cmd 9) in H. apply H.
Qed.
Lemma runcmd_connects_witness :
  runcmd (fun _ _ => true) (nulterminate demo_cmd (demo_line ++ [0])) demo_cmd
    (std (FInherited 0, FInherited 1, FInherited 2)) 0 =
  (started <$> [([w_ls; [45; 108]], (FInherited 0, FFile [120] (Z.lor (Z.lor O_WRONLY O_CREATE) O_TRUNC), FInherited 2))], 0%nat).
Proof.
  rewrite (runcmd_connects (fun _ _ => true) (nulterminate demo_cmd (demo_line ++ [0])) demo_line demo_cmd
    (FInherited 0) (FInherited 1) (FInherited 2) 0 wf_demo_cmd).
  by vm_compute.
Defined.
